(* ===== verification/_CoqProject ===== *)
-Q . S2P
Prelude.v
Frigg.v
Spinlock.v
CString.v
Printf.v
Pmm.v
Paging.v
Vmm.v
Arch.v
ArchX86.v
Window.v
Heap.v
Vm.v
VmSpace.v
VmTables.v
VmProps.v
VmLoad.v
VmFit.v
Elf.v
ElfProps.v
ElfX86.v
IpcQueue.v
Object.v
GroupProps.v
Cpu.v
Sched.v
SchedProps.v
Irq.v
Syscall.v
PrintSpec.v
Cmdline.v
Initrd.v
Vga.v
Font.v
GenFb.v
DebugCon.v
Apic.v
ApicProps.v
Lapic.v
SmpPages.v
Smp.v
SmpProps.v
Pci.v
PciProps.v
PciEnum.v
AcpiTables.v
Symtab.v
Diag.v
LaiHost.v
Startup.v
Boot.v
I386Pmm.v
I386Vmm.v
I386Dir.v
I386VmmProps.v
I386Space.v
I386Cpu.v
