(* ===== verification/Prelude.v ===== *)
(** * The quack kernel: a verification library

    quack is a small kernel for x86_64 in C++ (src/kernel, with an older i386
    port), a user space library (src/duck) and one server (src/servers).
    This library translates the kernel's own logic into executable definitions
    and proves what makes it correct. Third-party code (frigg, lai) is not in
    the repository; where the kernel calls it, it is an argument or a class
    whose laws are its documented behaviour.

    ** How the code is modelled

    A routine is a function in a monad of state and outcome (this file): it
    returns a value, stops the machine ([Panic]: panic, a failed assert), makes
    an access the language or the machine does not allow ([Fault]), or never
    returns ([Hang]). Integers are [Z] with the conversions [u8] to [u64] and
    [s8] to [s64] where the code can leave the width. A loop that is not
    structural carries fuel, and running out of it is [Hang]; each theorem says
    that the fuel used is enough. [zoom] runs an operation on a part of a
    state, which is how the components are composed. A wrong access is a fault,
    so a theorem that gives a result also says that the code is safe there.
    Log messages are left out except where a component is about printing.

    ** The parts

    Memory (src/kernel/arch/x86_64/mm, src/kernel/mm):
    - Pmm.v: pmm.cpp, the bitmap of physical pages and the words of memory.
    - Paging.v: vmm.cpp, page tables as pages of that memory: mapping,
      unmapping, reading entries.
    - Vmm.v: vmm.cpp, new address spaces, the context register, the copy
      windows, the arch_mm_* functions of arch/mm.h.
    - Arch.v: the interface arch/mm.h as classes with laws; ArchX86.v and
      Window.v (the copy into and out of mappings) show that Vmm.v meets them.
    - Vm.v: vm.h and vm.cpp, memory_mapping, memory_hole and address_space
      over any architecture that meets Arch.v. VmSpace.v: every page is in one
      hole or one region. VmTables.v: the page tables hold what the regions
      say, pages are owned once. VmProps.v: the properties of the operations.
      VmLoad.v: loading data. VmFit.v: when a free range lies in one hole.
    - Elf.v: loader/elf64.cpp over the byte memory of CString.v and Vm.v;
      ElfProps.v; ElfX86.v: the loaded program as the processor reads it.
    - Heap.v: heap.cpp, blocks with a guard page.
    Objects (src/kernel/object, src/kernel/proc):
    - IpcQueue.v: ipc_queue.cpp; Object.v: object.h, group.cpp, groups.h;
      GroupProps.v: handles and membership.
    - Sched.v: scheduler.cpp, generic_irq.cpp, with the address spaces of Vm.v
      in each thread; SchedProps.v.
    - Syscall.v: syscall.cpp, kmesg.cpp. PrintSpec.v: what a message shows.
    - Startup.v: kernel.cpp, the first thread from the boot information on.
      Boot.v: arch_entry.cpp, how the boot information is made, and pic.cpp.
    The processor (src/kernel/arch/x86_64):
    - Cpu.v: gdt.cpp, idt.cpp, task.cpp. Irq.v: isr.cpp over Sched.v and Vmm.v.
    - Apic.v, ApicProps.v: madt.cpp, ioapic.cpp. Lapic.v: lapic.cpp over a
      class of the controller's registers, with the interrupts that arrive
      while the kernel waits. Smp.v: smp.cpp, cpu_data.cpp and the numbers of
      cpu.cpp; SmpPages.v: pages and low memory for it; SmpProps.v.
    - AcpiTables.v: acpi.cpp over the byte memory of CString.v. Pci.v,
      PciProps.v, PciEnum.v: pci.cpp. LaiHost.v: lai_host.cpp, what the ACPI
      interpreter calls.
    - Diag.v: panic.cpp, util.cpp, ubsan.cpp and the dumps of cpu.cpp, as what
      they write to the console.
    - Symtab.v: symtab.cpp (both), with the output of Printf.v. Vga.v: vga.cpp.
      Font.v, GenFb.v: genfb (the glyphs, the console on a frame buffer).
      DebugCon.v: debug_con.cpp, debug_port.cpp, which choose and feed the
      consoles.
    The i386 port (src/kernel/arch/i386):
    - I386Pmm.v: pmm.cpp, a stack of free pages. I386Vmm.v: vmm.cpp over a
      machine whose processor walks two levels of tables, so that the
      directory is changed through its own recursive entry; I386Dir.v: what
      the recursive entry gives, and filling a frame; I386VmmProps.v: mapping
      and unmapping; I386Space.v: new directories, access across directories.
      I386Cpu.v: cpu/, descriptor tables and the dispatch of interrupts.
    The library (src/kernel/lib, src/kernel/util):
    - CString.v: string.cpp, ctype.cpp, stdlib.cpp over a finite memory of
      bytes. Printf.v: vsnprintf.cpp. Spinlock.v: spinlock.cpp, with a step
      relation for any number of processors. Cmdline.v: cmdline.cpp. Initrd.v:
      initrd.cpp. Frigg.v: the containers of frigg as classes, with instances.

    ** What is shown

    - Address spaces: the invariant of VmSpace.v and VmTables.v is established
      by the constructor and kept by [allocate], [allocate_at], [map],
      [destroy] and [fault_hit]; each gives the pages it should and leaves
      every other region and context alone; faults are resolved exactly for
      pages that are allocated, but at the address where a region ends, which the
      search takes for part of it, the kernel stops. All against the class of Arch.v, which ArchX86.v
      discharges down to the words of the page tables.
    - The whole way: kernel_main loads the program of the ramdisk, and the
      first timer interrupt enters it in user mode on its own page tables; when
      there is no such program the machine stops.
    - Programs: a valid ELF file is loaded so that the processor, walking the
      tables of the new context, reads every byte of every segment; other files
      are refused. Loading writes the bytes it should and no other, through the
      window of the kernel, where it provides every page the range reaches.
    - Page tables: mapping and unmapping change exactly the entries of the
      range, in every address space; out of memory; the round trip.
    - Physical memory: first fit among the starts below the limit, whatever
      the bitmap; the counter moves with the bits; what initialisation leaves
      free is available memory, up to two faults of its rounding.
    - Scheduling, interrupts and system calls: which thread runs next, what a
      page fault does to the interrupted context, that every interrupt is
      acknowledged once, which calls are refused.
    - Objects: handles are fresh and give back what was put in, removing one
      deletes what its object holds, only members run methods, the queue refines a mailbox with one slot.
    - The timer: calibration returns the counts that pass during a thousand
      interrupts of the interval timer, and only when these arrive.
    - Processors: all that can be are sent the commands that start them, those
      that answer are counted and have records, stacks and
      tables of their own, which each of them uses from its entry on.
    - Firmware and devices: tables are found and parsed as their bytes say,
      pins are routed to the vectors that are looked up, a walk of the PCI
      buses ends and finds what the registers say, base addresses are read
      without a change to the device.
    - Reports: a message shows its arguments; a panic shows the processor, the
      registers and the frames of the stack, each handler of the sanitizer what
      happened and where.
    - Consoles: each screen shows the grid of an abstract terminal; the command
      line chooses which of them get the text.
    - i386: free and used pages are accounted for; mapping through the
      recursive entry changes one page of one directory; a new directory is an
      address space of its own with the kernel's half shared; an interrupt
      returns to the address space it came from.
    - Library: the string routines, printing and parsing against their
      specifications, the lock excludes.
    Theorems also state where the code differs from what it means to do: a
    running thread is never preempted, blocking the last thread spins for
    ever, the end address of a region counts as inside, a load across a page
    boundary can leave its last page absent, a run of pages can pass the limit
    it was asked for and the end of the bitmap, the count of free pages is off
    after initialisation, a backtrace shows its
    first address twice and its last one never, the memory that the ACPI
    interpreter resizes is cleared.

    ** Fuel and bounds

    The walk of the PCI buses needs 256 less the number of the bus, when
    bridges lead to higher numbers. [pmm_alloc_ex] needs a round for every page
    of the bitmap; with alignment 0 it can go on for ever, and is then [Hang]. String loops need a round for every byte of memory. The
    merge of holes needs a round for every hole. Map operations ask for three
    free physical pages for every page that is mapped, one for each level of
    tables. On i386, [init_loop] needs a round for every page of the 32-bit
    address space, and the loops across directories one for every page that
    is copied or filled. A backtrace needs a round for every frame.

    ** Not modelled

    Assembly (boot, context switch, interrupt entry), the order in which
    arch_entry initialises the parts, the translation lookaside buffer, the
    lock of kmesg (a message is printed as a whole), loading the interrupt table on each
    processor, and proc/proc.cpp, which calls functions that no longer exist. *)
From stdpp Require Import base numbers option gmap list.
From Stdlib Require Import ZArith.
From Stdlib Require Export Lia ZifyBool.

#[local] Open Scope Z_scope.

(** ** Outcomes

    A kernel routine returns a value, stops the machine through [panic] or a
    failed [assert], makes a memory access that the machine or the language
    does not allow, or never returns (a spin or a loop that cannot end). *)
Inductive outcome (A : Type) : Type :=
| Ok (a : A)
| Panic
| Fault
| Hang.
Arguments Ok {A} _.
Arguments Panic {A}.
Arguments Fault {A}.
Arguments Hang {A}.

#[global] Instance outcome_ret : MRet outcome := @Ok.

#[global] Instance outcome_bind : MBind outcome := λ A B f m,
  match m with
  | Ok a => f a
  | Panic => Panic
  | Fault => Fault
  | Hang => Hang
  end.

#[global] Instance outcome_fmap : FMap outcome := λ A B f m,
  match m with
  | Ok a => Ok (f a)
  | Panic => Panic
  | Fault => Fault
  | Hang => Hang
  end.

#[global] Instance outcome_eq_dec {A} `{!EqDecision A} : EqDecision (outcome A).
Proof. solve_decision. Defined.

(** [assert(b)] of util.h. *)
Definition assertion (b : bool) : outcome () := if b then Ok tt else Panic.

(** A memory access: the value, or a fault where there is no object. *)
Definition access {A} (o : option A) : outcome A :=
  match o with Some a => Ok a | None => Fault end.

(** The state monad of a stateful component. *)
Definition M (S A : Type) : Type := S → outcome (A * S).

#[global] Instance M_ret {S} : MRet (M S) := λ A a s, Ok (a, s).
#[global] Instance M_bind {S} : MBind (M S) := λ A B f m s,
  match m s with
  | Ok (a, s') => f a s'
  | Panic => Panic
  | Fault => Fault
  | Hang => Hang
  end.

Definition get_st {S} : M S S := λ s, Ok (s, s).
Definition put_st {S} (s : S) : M S () := λ _, Ok (tt, s).
Definition lift {S A} (o : outcome A) : M S A := λ s,
  match o with
  | Ok a => Ok (a, s)
  | Panic => Panic
  | Fault => Fault
  | Hang => Hang
  end.
Definition gets {S A} (f : S → A) : M S A := λ s, Ok (f s, s).
Definition modify {S} (f : S → S) : M S () := λ s, Ok (tt, f s).

(** A counted loop. *)
Fixpoint for_each {S A} (f : A → M S ()) (l : list A) : M S () :=
  match l with
  | [] => mret tt
  | x :: l' => _ ← f x; for_each f l'
  end.

(** Run a routine of a component on the part of a larger state that it owns. *)
Definition zoom {S T A} (get : T → S) (set : S → T → T) (m : M S A) : M T A := λ t,
  match m (get t) with
  | Ok (a, s) => Ok (a, set s t)
  | Panic => Panic
  | Fault => Fault
  | Hang => Hang
  end.

Lemma bind_outcome_Ok {A B} (m : outcome A) (f : A → outcome B) b :
  m ≫= f = Ok b ↔ ∃ a, m = Ok a ∧ f a = Ok b.
Proof. destruct m; cbn; naive_solver. Qed.

Lemma bind_M_Ok {S A B} (m : M S A) (f : A → M S B) s b s'' :
  (m ≫= f) s = Ok (b, s'') ↔ ∃ a s', m s = Ok (a, s') ∧ f a s' = Ok (b, s'').
Proof. cbv [mbind M_bind]. destruct (m s) as [[]| | |]; naive_solver. Qed.

(** Run the first part of a sequence. *)
Lemma bind_run {S A B} (m : M S A) (f : A → M S B) s a s' :
  m s = Ok (a, s') → (m ≫= f) s = f a s'.
Proof. intros H. cbv [mbind M_bind]. by rewrite H. Qed.

Lemma zoom_run {T U A} (get : U → T) (set : T → U → U) (m : M T A) u a t :
  m (get u) = Ok (a, t) → zoom get set m u = Ok (a, set t u).
Proof. intros Hm. unfold zoom. by rewrite Hm. Qed.

Ltac run H := rewrite (bind_run _ _ _ _ _ H).

Lemma access_Ok {A} (o : option A) a : access o = Ok a ↔ o = Some a.
Proof. destruct o; cbn; naive_solver. Qed.

Lemma assertion_Ok b x : assertion b = Ok x ↔ b = true.
Proof. destruct b, x; cbn; naive_solver. Qed.

(** Take an equation [... = Ok _] apart along the monadic structure. *)
Ltac inv_ok :=
  repeat match goal with
  | H : mbind _ _ = Ok _ |- _ =>
      apply bind_outcome_Ok in H; destruct H as (? & ? & ?)
  | H : mbind _ _ _ = Ok (_, _) |- _ =>
      apply bind_M_Ok in H; destruct H as (? & ? & ? & ?)
  | H : access _ = Ok _ |- _ => apply access_Ok in H
  | H : assertion _ = Ok _ |- _ => apply assertion_Ok in H
  | H : Ok _ = Ok _ |- _ => injection H as H; subst
  | H : mret _ = Ok _ |- _ => injection H as H; subst
  | H : mret _ _ = Ok (_, _) |- _ => injection H as ? ?; subst
  | H : (_, _) = (_, _) |- _ => injection H as ? ?; subst
  end.

(** ** Machine integers

    An unsigned integer of width [w] is a [Z] in [0, 2^w); every operation
    that can leave the range is followed by the conversion below. *)
Definition u8 (z : Z) : Z := z mod 2 ^ 8.
Definition u16 (z : Z) : Z := z mod 2 ^ 16.
Definition u32 (z : Z) : Z := z mod 2 ^ 32.
Definition u64 (z : Z) : Z := z mod 2 ^ 64.

(** The two's complement reading of the low bits. *)
Definition s8 (z : Z) : Z := (z + 2 ^ 7) mod 2 ^ 8 - 2 ^ 7.
Definition s32 (z : Z) : Z := (z + 2 ^ 31) mod 2 ^ 32 - 2 ^ 31.
Definition s64 (z : Z) : Z := (z + 2 ^ 63) mod 2 ^ 64 - 2 ^ 63.

Definition is_u64 (z : Z) : Prop := 0 ≤ z < 2 ^ 64.

(** [x & f], as a condition. *)
Definition has (x f : Z) : bool := negb (Z.land x f =? 0).

Lemma u64_small z : 0 ≤ z < 2 ^ 64 → u64 z = z.
Proof. apply Z.mod_small. Qed.
Lemma u32_small z : 0 ≤ z < 2 ^ 32 → u32 z = z.
Proof. apply Z.mod_small. Qed.
Lemma u64_range z : 0 ≤ u64 z < 2 ^ 64.
Proof. apply Z.mod_pos_bound. lia. Qed.
Lemma u32_range z : 0 ≤ u32 z < 2 ^ 32.
Proof. apply Z.mod_pos_bound. lia. Qed.
Lemma u64_idem z : u64 (u64 z) = u64 z.
Proof. apply u64_small, u64_range. Qed.
Lemma u64_add_l a b : u64 (u64 a + b) = u64 (a + b).
Proof. apply Z.add_mod_idemp_l. lia. Qed.
Lemma s64_small z : - 2 ^ 63 ≤ z < 2 ^ 63 → s64 z = z.
Proof. intros. unfold s64. rewrite Z.mod_small; lia. Qed.
Lemma s32_small z : - 2 ^ 31 ≤ z < 2 ^ 31 → s32 z = z.
Proof. intros. unfold s32. rewrite Z.mod_small; lia. Qed.

(** Arithmetic with the conversions, division and remainder by constants. *)
Ltac wrap_lia :=
  unfold u8, u16, u32, u64, s8, s32, s64 in *;
  Z.to_euclidean_division_equations; lia.

(** ** Decisions on booleans *)
Ltac case_bool :=
  repeat match goal with
  | H : (_ && _)%bool = true |- _ => apply andb_prop in H; destruct H
  | H : (_ <? _) = true |- _ => apply Z.ltb_lt in H
  | H : (_ <? _) = false |- _ => apply Z.ltb_ge in H
  | H : (_ <=? _) = true |- _ => apply Z.leb_le in H
  | H : (_ <=? _) = false |- _ => apply Z.leb_gt in H
  | H : (_ =? _) = true |- _ => apply Z.eqb_eq in H
  | H : (_ =? _) = false |- _ => apply Z.eqb_neq in H
  | H : negb _ = true |- _ => apply negb_true_iff in H
  | H : negb _ = false |- _ => apply negb_false_iff in H
  end.

(** ** Bits *)
Lemma land_pow2 x i : 0 ≤ i → Z.land x (2 ^ i) = if Z.testbit x i then 2 ^ i else 0.
Proof.
  intros Hi. apply Z.bits_inj'. intros n Hn.
  rewrite Z.land_spec, Z.pow2_bits_eqb by lia.
  destruct (Z.eqb_spec i n) as [->|Hne].
  - destruct (Z.testbit x n) eqn:E; [|by rewrite Z.bits_0].
    by rewrite Z.pow2_bits_true by lia.
  - rewrite andb_false_r. destruct (Z.testbit x i); [|by rewrite Z.bits_0].
    by rewrite Z.pow2_bits_false by lia.
Qed.

Lemma has_pow2 x i : 0 ≤ i → has x (2 ^ i) = Z.testbit x i.
Proof.
  intros Hi. unfold has. rewrite land_pow2 by done.
  pose proof (Z.pow_pos_nonneg 2 i). destruct (Z.testbit x i); cbn; [|done].
  destruct (Z.eqb_spec (2 ^ i) 0); [lia|done].
Qed.

Lemma testbit_high x w n : 0 ≤ w → 0 ≤ x < 2 ^ w → w ≤ n → Z.testbit x n = false.
Proof.
  intros Hw Hx Hn. rewrite <- (Z.mod_small x (2 ^ w)) by done.
  by apply Z.mod_pow2_bits_high.
Qed.

Lemma lt_pow2_bits x w :
  0 ≤ w → 0 ≤ x → (∀ n, w ≤ n → Z.testbit x n = false) → x < 2 ^ w.
Proof.
  intros Hw Hx Hb. rewrite <- (Z.mod_small x (2 ^ w)); [apply Z.mod_pos_bound; lia|].
  split; [done|]. destruct (decide (x < 2 ^ w)) as [|Hge]; [done|exfalso].
  assert (0 < x) by (pose proof (Z.pow_pos_nonneg 2 w); lia).
  pose proof (Z.bit_log2 x ltac:(done)) as Hlog.
  rewrite Hb in Hlog; [done|]. apply Z.log2_le_pow2; lia.
Qed.

Lemma lor_range x y w : 0 ≤ w → 0 ≤ x < 2 ^ w → 0 ≤ y < 2 ^ w → 0 ≤ Z.lor x y < 2 ^ w.
Proof.
  intros Hw Hx Hy. assert (0 ≤ Z.lor x y) by (apply Z.lor_nonneg; lia). split; [done|].
  apply lt_pow2_bits; [done..|]. intros n Hn.
  by rewrite Z.lor_spec, !(testbit_high _ w n).
Qed.

Lemma for_each_app {S A} (f : A → M S ()) l k : ∀ s, for_each f (l ++ k) s = (for_each f l;; for_each f k) s.
Proof.
  induction l as [|x l IH]; intros s; [done|]. cbn. cbv [mbind M_bind] in *. destruct (f x s) as [[u s']| | |]; [apply IH|done..].
Qed.

(** ** Running a routine for its value *)

Definition value {S A} (o : outcome (A * S)) : option A :=
  match o with Ok (a, _) => Some a | _ => None end.

Lemma value_Some {S A} (o : outcome (A * S)) a : value o = Some a → ∃ s, o = Ok (a, s).
Proof. destruct o as [[a' s]| | |]; cbn; [intros [= <-]; by exists s|done..]. Qed.

(** ** Invariants of routines

    [keeps P m]: whenever [m] returns, it returns to a state with [P] if it
    started in one. The rules follow the structure of a routine; the hints
    apply them. *)
Definition keeps {S A} (P : S → Prop) (m : M S A) : Prop := ∀ s a s', P s → m s = Ok (a, s') → P s'.

Section keeps.
Context {S : Type} (P : S → Prop).

Lemma keeps_ret {A} (a : A) : keeps P (mret a).
Proof. intros s a' s' Hs [= <- <-]. done. Qed.
Lemma keeps_lift {A} (o : outcome A) : keeps P (lift o).
Proof. intros s a s' Hs. destruct o; [intros [= <- <-]|..]; done. Qed.
Lemma keeps_get : keeps P get_st.
Proof. intros s a s' Hs [= <- <-]. done. Qed.
Lemma keeps_gets {A} (f : S → A) : keeps P (gets f).
Proof. intros s a s' Hs [= <- <-]. done. Qed.
Lemma keeps_bind {A B} (m : M S A) (f : A → M S B) : keeps P m → (∀ a, keeps P (f a)) → keeps P (m ≫= f).
Proof. intros Hm Hf s b s' Hs Hrun. inv_ok. eapply Hf; [|done]. by eapply Hm. Qed.
Lemma keeps_modify (f : S → S) : (∀ s, P s → P (f s)) → keeps P (modify f).
Proof. intros Hf s a s' Hs [= <- <-]. auto. Qed.
Lemma keeps_each {A} (f : A → M S ()) l : (∀ x, keeps P (f x)) → keeps P (for_each f l).
Proof. intros Hf. induction l as [|x l IH]; [apply keeps_ret|]. cbn. apply keeps_bind; auto. Qed.
End keeps.

Create HintDb keeps.
#[export] Hint Resolve keeps_ret keeps_lift keeps_get keeps_gets keeps_bind keeps_modify keeps_each : keeps.

(** Follow the structure of a routine. *)
Ltac keeps_step :=
  match goal with
  | |- keeps _ (mbind _ _) => apply keeps_bind; [|intros ?]
  | |- keeps _ (if ?b then _ else _) => destruct b
  | |- keeps _ (match ?x with _ => _ end) => destruct x
  | |- keeps _ _ => solve [auto with keeps]
  end.
