(* ===== verification/Frigg.v ===== *)
(** * The frigg containers, as interfaces

    The kernel uses containers of the frigg library (a git submodule that is
    not part of the sources): [frg::intrusive_list] in mm/vm.h and
    proc/scheduler.cpp, [frg::vector] in mm/vm.h, object/object.h and
    proc/scheduler.cpp, [frg::hash_map] in object/object.h, proc/groups.h and
    proc/scheduler.cpp. Each is a class here: the operations the kernel calls,
    an abstraction to a list or a map, and the laws the kernel relies on. The
    components are proved against the classes; the instances at the end show
    that the laws can be met, and witnesses compute with them. *)
From S2P Require Import Prelude.
From stdpp Require Import base numbers option gmap list.
#[local] Open Scope Z_scope.

(** ** [frg::intrusive_list]: a sequence of pointers to distinct objects

    [fl_next] and [fl_prev] read the hook of a node; [fl_insert l p x] puts
    [x] before [p]. *)
Class FrgList (L : Type) := {
  fl_elems : L → list Z;
  fl_empty : L;
  fl_push_back : L → Z → L;
  fl_push_front : L → Z → L;
  fl_insert : L → Z → Z → L;
  fl_erase : L → Z → L;
  fl_next : L → Z → option Z;
  fl_prev : L → Z → option Z;
}.

Class FrgListLaws (L : Type) `{!FrgList L} : Prop := {
  fl_empty_elems : fl_elems fl_empty = [];
  fl_push_back_elems l x : fl_elems (fl_push_back l x) = fl_elems l ++ [x];
  fl_push_front_elems l x : fl_elems (fl_push_front l x) = x :: fl_elems l;
  fl_insert_elems l l1 p l2 x :
    fl_elems l = l1 ++ p :: l2 → p ∉ l1 → fl_elems (fl_insert l p x) = l1 ++ x :: p :: l2;
  fl_erase_elems l l1 x l2 :
    fl_elems l = l1 ++ x :: l2 → x ∉ l1 → fl_elems (fl_erase l x) = l1 ++ l2;
  fl_next_elems l l1 x l2 :
    fl_elems l = l1 ++ x :: l2 → x ∉ l1 → fl_next l x = head l2;
  fl_prev_elems l l1 x l2 :
    fl_elems l = l1 ++ x :: l2 → x ∉ l1 → fl_prev l x = last l1;
}.

(** ** [frg::vector] *)
Class FrgVector (V : Type → Type) := {
  vec_elems {A} : V A → list A;
  vec_empty {A} : V A;
  vec_push {A} : V A → A → V A;
  vec_resize {A} : A → V A → nat → V A;
  vec_set {A} : V A → nat → A → V A;
}.

Class FrgVectorLaws (V : Type → Type) `{!FrgVector V} : Prop := {
  vec_empty_elems {A} : vec_elems (vec_empty (A := A)) = [];
  vec_push_elems {A} (v : V A) x : vec_elems (vec_push v x) = vec_elems v ++ [x];
  vec_resize_elems {A} (d : A) (v : V A) n :
    vec_elems (vec_resize d v n) =
      take n (vec_elems v) ++ replicate (n - length (vec_elems v)) d;
  vec_set_elems {A} (v : V A) i x : vec_elems (vec_set v i x) = <[i := x]> (vec_elems v);
}.

(** ** [frg::hash_map] with integer keys

    [hm_index d m k] is the map after [m[k]] has been evaluated: the
    subscript adds a value-initialised entry for a missing key. [hm_write] is
    a store through the reference the subscript returned, [hm_entries] the
    order in which the map is iterated. *)
Class FrgHashMap (H : Type → Type) := {
  hm_map {A} : H A → gmap Z A;
  hm_empty {A} : H A;
  hm_insert {A} : H A → Z → A → H A;
  hm_index {A} : A → H A → Z → H A;
  hm_write {A} : H A → Z → A → H A;
  hm_remove {A} : H A → Z → H A;
  hm_entries {A} : H A → list (Z * A);
}.

Class FrgHashMapLaws (H : Type → Type) `{!FrgHashMap H} : Prop := {
  hm_empty_map {A} : hm_map (hm_empty (A := A)) = ∅;
  hm_insert_map {A} (m : H A) k x :
    hm_map m !! k = None → hm_map (hm_insert m k x) = <[k := x]> (hm_map m);
  hm_index_map {A} (d : A) (m : H A) k :
    hm_map (hm_index d m k) = <[k := default d (hm_map m !! k)]> (hm_map m);
  hm_write_map {A} (m : H A) k x :
    is_Some (hm_map m !! k) → hm_map (hm_write m k x) = <[k := x]> (hm_map m);
  hm_remove_map {A} (m : H A) k : hm_map (hm_remove m k) = delete k (hm_map m);
  hm_entries_map {A} (m : H A) : hm_entries m ≡ₚ map_to_list (hm_map m);
}.

(** ** Instances *)
Module Instances.

Fixpoint insert_before (p x : Z) (l : list Z) : list Z :=
  match l with
  | [] => []
  | y :: l' => if decide (y = p) then x :: y :: l' else y :: insert_before p x l'
  end.

Fixpoint erase_first (x : Z) (l : list Z) : list Z :=
  match l with
  | [] => []
  | y :: l' => if decide (y = x) then l' else y :: erase_first x l'
  end.

Fixpoint next_of (x : Z) (l : list Z) : option Z :=
  match l with
  | [] => None
  | y :: l' => if decide (y = x) then head l' else next_of x l'
  end.

Fixpoint prev_of (before : option Z) (x : Z) (l : list Z) : option Z :=
  match l with
  | [] => None
  | y :: l' => if decide (y = x) then before else prev_of (Some y) x l'
  end.

#[export] Instance list_frg_list : FrgList (list Z) := {|
  fl_elems l := l;
  fl_empty := [];
  fl_push_back l x := l ++ [x];
  fl_push_front l x := x :: l;
  fl_insert l p x := insert_before p x l;
  fl_erase l x := erase_first x l;
  fl_next l x := next_of x l;
  fl_prev l x := prev_of None x l;
|}.

Lemma prev_of_app l1 b x l2 :
  x ∉ l1 → prev_of b x (l1 ++ x :: l2) = match last l1 with Some y => Some y | None => b end.
Proof.
  revert b. induction l1 as [|y l1 IH]; intros b Hx; cbn.
  - by rewrite decide_True.
  - apply not_elem_of_cons in Hx as [Hne Hx]. rewrite decide_False by done.
    rewrite IH, last_cons by done. by destruct (last l1).
Qed.

#[export] Instance list_frg_list_laws : FrgListLaws (list Z).
Proof.
  split; [done..| | | |].
  - intros l l1 p l2 x Hl Hp. cbn in *. subst l. induction l1 as [|y l1 IH]; cbn.
    + by rewrite decide_True.
    + apply not_elem_of_cons in Hp as [??]. rewrite decide_False by done. f_equal. auto.
  - intros l l1 x l2 Hl Hx. cbn in *. subst l. induction l1 as [|y l1 IH]; cbn.
    + by rewrite decide_True.
    + apply not_elem_of_cons in Hx as [??]. rewrite decide_False by done. f_equal. auto.
  - intros l l1 x l2 Hl Hx. cbn in *. subst l. induction l1 as [|y l1 IH]; cbn.
    + by rewrite decide_True.
    + apply not_elem_of_cons in Hx as [??]. rewrite decide_False by done. auto.
  - intros l l1 x l2 Hl Hx. cbn in *. subst l. rewrite prev_of_app by done. by destruct (last l1).
Qed.

#[export] Instance list_frg_vector : FrgVector list := {|
  vec_elems A l := l;
  vec_empty A := [];
  vec_push A l x := l ++ [x];
  vec_resize A d l n := take n l ++ replicate (n - length l) d;
  vec_set A l i x := <[i := x]> l;
|}.

#[export] Instance list_frg_vector_laws : FrgVectorLaws list.
Proof. by split. Qed.

#[export] Instance gmap_frg_hash_map : FrgHashMap (gmap Z) := {|
  hm_map A m := m;
  hm_empty A := ∅;
  hm_insert A m k x := <[k := x]> m;
  hm_index A d m k := <[k := default d (m !! k)]> m;
  hm_write A m k x := <[k := x]> m;
  hm_remove A m k := delete k m;
  hm_entries A m := map_to_list m;
|}.

#[export] Instance gmap_frg_hash_map_laws : FrgHashMapLaws (gmap Z).
Proof. by split. Qed.

End Instances.

(** Rewriting with the abstraction laws that have no side condition. *)
#[export] Hint Rewrite @fl_empty_elems @fl_push_back_elems @fl_push_front_elems
  @vec_empty_elems @vec_push_elems @vec_resize_elems @vec_set_elems
  @hm_empty_map @hm_index_map @hm_remove_map using typeclasses eauto : frg.
