(* ===== verification/Spinlock.v ===== *)
(** * Spinlocks (util/spinlock.h, util/spinlock.cpp)

    [lock] and [try_lock] read the flag and, when it is clear, set it with a
    separate store. Every load and store of a processor is a step, so that
    the steps of several processors interleave. The sequential routines at
    the top are the lock as seen by one processor while no other runs: a
    [lock] of a held lock then never returns. *)
From S2P Require Import Prelude.
From stdpp Require Import base numbers option list relations functions.
#[local] Open Scope Z_scope.

(** ** One processor *)

(** [_locked] is the state. *)
Definition lock : M bool () := λ locked, if locked then Hang else Ok (tt, true).
Definition try_lock : M bool bool := λ locked, if locked then Ok (false, true) else Ok (true, true).
Definition unlock : M bool () := λ _, Ok (tt, false).

(** [a._locked = b._locked.exchange(a._locked)]; the move operations call it. *)
Definition swap (ab : bool * bool) : bool * bool :=
  let '(a, b) := ab in
  let '(old, b) := (b, a) in
  (old, b).

(** ** Several processors *)

(** Where a processor is: outside; before the load of [lock]; before its
    store, after it has read false; the same for [try_lock]; past the lock. *)
Inductive pc := outside | lock_load | lock_store | try_load | try_store | inside.

#[global] Instance pc_eq_dec : EqDecision pc.
Proof. solve_decision. Defined.

Record lock_state := LockState { _locked : bool; cpus : nat → pc }.
Definition at_pc (s : lock_state) (c : nat) (p : pc) : lock_state :=
  LockState (_locked s) (<[c := p]> (cpus s)).
Definition store_flag (s : lock_state) (b : bool) : lock_state := LockState b (cpus s).

Inductive step (c : nat) : lock_state → lock_state → Prop :=
| call_lock s : cpus s c = outside → step c s (at_pc s c lock_load)
| lock_spin s : cpus s c = lock_load → _locked s = true → step c s s
| lock_read s : cpus s c = lock_load → _locked s = false → step c s (at_pc s c lock_store)
| lock_write s : cpus s c = lock_store → step c s (at_pc (store_flag s true) c inside)
| call_try s : cpus s c = outside → step c s (at_pc s c try_load)
| try_fail s : cpus s c = try_load → _locked s = true → step c s (at_pc s c outside)
| try_read s : cpus s c = try_load → _locked s = false → step c s (at_pc s c try_store)
| try_write s : cpus s c = try_store → step c s (at_pc (store_flag s true) c inside)
| call_unlock s : cpus s c = inside → step c s (at_pc (store_flag s false) c outside).

Definition any_step (s s' : lock_state) : Prop := ∃ c, step c s s'.
Definition initial : lock_state := LockState false (λ _, outside).

Definition exclusive (s : lock_state) : Prop :=
  ∀ c d, cpus s c = inside → cpus s d = inside → c = d.

Lemma steps_of {s1 s2 s3} c : step c s1 s2 → rtc any_step s2 s3 → rtc any_step s1 s3.
Proof. intros H ?. eapply rtc_l; [by exists c|done]. Qed.

(** The lock does not give mutual exclusion: both processors read the
    clear flag before either of them sets it. *)
Theorem lock_race : ∃ s, rtc any_step initial s ∧ cpus s 0%nat = inside ∧ cpus s 1%nat = inside ∧ ¬ exclusive s.
Proof.
  eexists. split.
  { eapply steps_of; [apply (call_lock 0); reflexivity|]. eapply steps_of; [apply (call_lock 1); reflexivity|].
    eapply steps_of; [apply (lock_read 0); reflexivity|]. eapply steps_of; [apply (lock_read 1); reflexivity|].
    eapply steps_of; [apply (lock_write 0); reflexivity|]. eapply steps_of; [apply (lock_write 1); reflexivity|].
    apply rtc_refl. }
  split_and!; [reflexivity..|]. intros H. specialize (H 0%nat 1%nat eq_refl eq_refl). done.
Qed.

(** ** Runs in which load and store are not separated

    One move of such a run is a step that is not a successful load, or a
    successful load with the store of the same processor right after it. *)
Definition in_window (s : lock_state) (c : nat) : Prop := cpus s c = lock_store ∨ cpus s c = try_store.

Definition atomic_move (s s' : lock_state) : Prop :=
  ∃ c, (step c s s' ∧ ¬ in_window s' c) ∨ (∃ s1, step c s s1 ∧ in_window s1 c ∧ step c s1 s').

(** Nobody is in the window, and the flag is set exactly when one is inside. *)
Definition lock_ok (s : lock_state) : Prop :=
  (∀ c, ¬ in_window s c) ∧ exclusive s ∧ (_locked s = true ↔ ∃ c, cpus s c = inside).

Lemma at_pc_lookup s c p d : cpus (at_pc s c p) d = if decide (c = d) then p else cpus s d.
Proof. cbn. destruct (decide (c = d)) as [->|Hd]; [by rewrite fn_lookup_insert|by rewrite fn_lookup_insert_ne]. Qed.

Lemma lock_ok_other s c p :
  lock_ok s → cpus s c ≠ inside → p ≠ inside → p ≠ lock_store → p ≠ try_store → lock_ok (at_pc s c p).
Proof.
  intros (Hw & He & Hl) Hc Hp1 Hp2 Hp3. split_and!.
  - intros d. unfold in_window. rewrite at_pc_lookup. case_decide; [naive_solver|apply Hw].
  - intros d e. rewrite !at_pc_lookup. do 2 case_decide; naive_solver.
  - cbn [at_pc _locked]. rewrite Hl. split; intros [d Hd]; exists d; revert Hd; rewrite at_pc_lookup; case_decide; naive_solver.
Qed.

Lemma lock_ok_enter s s' c :
  lock_ok s → _locked s = false →
  _locked s' = true → cpus s' c = inside → (∀ d, d ≠ c → cpus s' d = cpus s d) → lock_ok s'.
Proof.
  intros (Hw & He & Hl) Hf Hl' Hc Ho. assert (∀ d, cpus s d ≠ inside) as Hnone.
  { intros d Hd. rewrite (proj2 Hl) in Hf by eauto. done. }
  split_and!.
  - intros d. unfold in_window. destruct (decide (d = c)) as [->|Hd]; [rewrite Hc; naive_solver|].
    rewrite Ho by done. apply Hw.
  - intros d e Hd He'. destruct (decide (d = c)) as [->|Hdc], (decide (e = c)) as [->|Hec]; [done|..].
    + rewrite Ho in He' by done. by destruct (Hnone e).
    + rewrite Ho in Hd by done. by destruct (Hnone d).
    + rewrite Ho in Hd by done. by destruct (Hnone d).
  - split; [intros _; by exists c|done].
Qed.

Lemma lock_ok_leave s c :
  lock_ok s → cpus s c = inside → lock_ok (at_pc (store_flag s false) c outside).
Proof.
  intros (Hw & He & Hl) Hc. split_and!.
  - intros d. unfold in_window. rewrite at_pc_lookup. case_decide; [naive_solver|apply Hw].
  - intros d e. rewrite !at_pc_lookup. cbn. do 2 case_decide; naive_solver.
  - split; [done|]. intros [d Hd]. rewrite at_pc_lookup in Hd. cbn in Hd. case_decide; naive_solver.
Qed.

(** An uninterrupted acquisition: the load found the flag clear, and only the
    processor itself has moved. *)
Lemma store_after_read s s1 s' c :
  step c s s1 → in_window s1 c → ¬ in_window s c → step c s1 s' →
  _locked s = false ∧ _locked s' = true ∧ cpus s' c = inside ∧ (∀ d, d ≠ c → cpus s' d = cpus s d).
Proof.
  intros H1 Hwin Hnot H2. assert (_locked s = false ∧ ∃ p, s1 = at_pc s c p ∧ (p = lock_store ∨ p = try_store)) as (Hf & p & -> & Hp).
  { unfold in_window in *. destruct H1; rewrite ?at_pc_lookup, ?decide_True in Hwin by done;
      try (destruct Hwin as [?|?]; congruence); eauto. }
  split; [done|]. assert (s' = at_pc (store_flag (at_pc s c p) true) c inside) as ->.
  { inversion H2; subst; rewrite ?at_pc_lookup, ?decide_True in * by done; try done; destruct Hp; congruence. }
  split_and!; [done|by rewrite at_pc_lookup, decide_True|].
  intros d Hd. rewrite at_pc_lookup, decide_False by done. cbn. by rewrite fn_lookup_insert_ne.
Qed.

Lemma lock_ok_step s s' c : lock_ok s → step c s s' → ¬ in_window s' c → lock_ok s'.
Proof.
  intros Hok Hs Hw. assert (¬ in_window s c) as Hnw by apply Hok.
  destruct Hs; try done;
    try (by apply lock_ok_other; [done|congruence|done..]);
    try (unfold in_window in *; naive_solver).
  - destruct Hw. left. by rewrite at_pc_lookup, decide_True.
  - destruct Hw. right. by rewrite at_pc_lookup, decide_True.
  - by apply lock_ok_leave.
Qed.

Lemma lock_ok_move s s' : lock_ok s → atomic_move s s' → lock_ok s'.
Proof.
  intros Hok (c & [[Hs Hw]|(s1 & H1 & Hw & H2)]); [by eapply lock_ok_step|].
  destruct (store_after_read s s1 s' c) as (? & ? & ? & ?); [done|done|apply Hok|done|].
  by eapply lock_ok_enter.
Qed.

(** C34. When the load and the store of an acquisition are not separated by a
    step of another processor, the lock works: in every state such a run
    reaches at most one processor is inside, and the flag is set exactly when
    there is one. *)
Theorem lock_exclusion (s : lock_state) :
  rtc atomic_move initial s → exclusive s ∧ (_locked s = true ↔ ∃ c, cpus s c = inside).
Proof.
  assert (lock_ok initial) as Hinit.
  { split_and!; [intros c [?|?]; done|intros ???; done|]. split; [done|intros [??]; done]. }
  intros H. assert (lock_ok s) as Hok; [|by destruct Hok as (_ & ? & ?)].
  induction H; [done|]. eauto using lock_ok_move.
Qed.

Lemma lock_exclusion_witness :
  ∃ s, rtc atomic_move initial s ∧ cpus s 1%nat = inside ∧ exclusive s.
Proof.
  assert (∃ s, rtc atomic_move initial s ∧ cpus s 1%nat = inside) as (s & Hs & H1).
  { eexists. split.
    { eapply rtc_l; [exists 1%nat; left; split; [by apply call_lock|intros [?|?]; done]|].
      eapply rtc_l; [exists 1%nat; right; eexists; split_and!; [by apply lock_read|by left|by apply lock_write]|].
      apply rtc_refl. }
    reflexivity. }
  exists s. split_and!; [exact Hs|exact H1|]. exact (proj1 (lock_exclusion s Hs)).
Defined.

(** ** The sequential routines are the steps of one processor *)

(** While no other processor moves, [lock] of a free lock takes the
    processor inside with the flag set, as the sequential routine does, and
    [lock] of a held lock spins for ever: no step takes the processor away
    from its load. *)
Theorem lock_sequential (s : lock_state) (c : nat) :
  cpus s c = lock_load →
  (lock (_locked s) = Ok (tt, true) →
     ∃ s', rtc (step c) s s' ∧ cpus s' c = inside ∧ _locked s' = true) ∧
  (lock (_locked s) = Hang → ∀ s', rtc (step c) s s' → s' = s).
Proof.
  intros Hc. unfold lock. split.
  - destruct (_locked s) eqn:Hl; [done|]. intros _.
    exists (at_pc (store_flag (at_pc s c lock_store) true) c inside).
    assert (∀ t p, cpus (at_pc t c p) c = p) as Hat by (intros; by rewrite at_pc_lookup, decide_True).
    split_and!; [|apply Hat|done].
    eapply rtc_l; [by apply lock_read|]. eapply rtc_l; [by apply lock_write|]. apply rtc_refl.
  - destruct (_locked s) eqn:Hl; [|done]. intros _ s' Hr.
    induction Hr as [|s s1 s' Hs Hr IH]; [done|].
    assert (s1 = s) as -> by (inversion Hs; subst; congruence). by apply IH.
Qed.

Lemma lock_sequential_witness :
  lock true = Hang ∧
  ∀ s', rtc (step 0) (LockState true (λ _, lock_load)) s' → s' = LockState true (λ _, lock_load).
Proof.
  split; [reflexivity|].
  exact (proj2 (lock_sequential (LockState true (λ _, lock_load)) 0 eq_refl) eq_refl).
Defined.
