(* ===== verification/CString.v ===== *)
(** * The C library: strings, characters and numbers
    (lib/string.cpp, lib/ctype.cpp, lib/stdlib.cpp)

    Memory is a finite map from addresses to bytes; an access to an address
    that is not in it is a fault. [char] is signed, so a byte is read as
    [s8 b] where the code computes with it. Loops that walk over memory carry
    fuel: one more than the number of bytes there are, since every round
    touches a new address. *)
From S2P Require Import Prelude.
From stdpp Require Import base numbers option fin_map_dom gmap list.
#[local] Open Scope Z_scope.

Notation cmem := (gmap Z Z).

Definition ld (a : Z) : M cmem Z := λ m,
  match m !! a with Some b => Ok (b, m) | None => Fault end.
Definition st (a b : Z) : M cmem () := λ m,
  match m !! a with Some _ => Ok (tt, <[a := b mod 256]> m) | None => Fault end.

(** Run a loop with enough fuel for every byte of memory. *)
Definition with_fuel {A} (f : nat → M cmem A) : M cmem A := λ m, f (S (size m)) m.

(** A little-endian number of [n] bytes. *)
Fixpoint ld_le (a : Z) (n : nat) : M cmem Z :=
  match n with
  | O => mret 0
  | S n' => b ← ld a; r ← ld_le (a + 1) n'; mret (b + 256 * r)
  end.

(** ** string.cpp: lengths and comparisons *)

Fixpoint strlen_loop (fuel : nat) (s len : Z) : M cmem Z :=
  match fuel with
  | O => lift Hang
  | S fuel' => c ← ld (s + len); if c =? 0 then mret len else strlen_loop fuel' s (len + 1)
  end.
Definition strlen (s : Z) : M cmem Z := with_fuel (λ f, strlen_loop f s 0).

Fixpoint strcmp_loop (fuel : nat) (str1 str2 i : Z) : M cmem Z :=
  match fuel with
  | O => lift Hang
  | S fuel' =>
      a ← ld (str1 + i);
      if a =? 0 then b ← ld (str2 + i); mret (s8 a - s8 b)
      else
        b ← ld (str2 + i);
        if a =? b then strcmp_loop fuel' str1 str2 (i + 1) else mret (s8 a - s8 b)
  end.
Definition strcmp (str1 str2 : Z) : M cmem Z := with_fuel (λ f, strcmp_loop f str1 str2 0).

(** [i < len - 1] is computed in 64 unsigned bits. *)
Fixpoint strncmp_loop (fuel : nat) (str1 str2 len i : Z) : M cmem Z :=
  match fuel with
  | O => lift Hang
  | S fuel' =>
      a ← ld (str1 + i); b ← ld (str2 + i);
      if (i <? u64 (len - 1)) && (a =? b) then strncmp_loop fuel' str1 str2 len (i + 1)
      else mret (s8 a - s8 b)
  end.
Definition strncmp (str1 str2 len : Z) : M cmem Z := with_fuel (λ f, strncmp_loop f str1 str2 len 0).

(** ** Copying *)

Fixpoint strcpy_loop (fuel : nat) (dest src i : Z) : M cmem () :=
  match fuel with
  | O => lift Hang
  | S fuel' =>
      c ← ld (src + i);
      if c =? 0 then st (dest + i) 0 else st (dest + i) c;; strcpy_loop fuel' dest src (i + 1)
  end.
Definition strcpy (dest src : Z) : M cmem Z := with_fuel (λ f, strcpy_loop f dest src 0);; mret dest.

(** The zeroing loop of [strncpy]. *)
Fixpoint zero_fill (dest i : Z) (n : nat) : M cmem () :=
  match n with
  | O => mret tt
  | S n' => st (dest + i) 0;; zero_fill dest (i + 1) n'
  end.
Fixpoint strncpy_loop (n : nat) (dest src len i : Z) : M cmem () :=
  c ← ld (src + i);
  if c =? 0 then zero_fill dest i (Z.to_nat (len - i))
  else
    match n with
    | O => mret tt
    | S n' => st (dest + i) c;; strncpy_loop n' dest src len (i + 1)
    end.
Definition strncpy (dest src len : Z) : M cmem Z := strncpy_loop (Z.to_nat len) dest src len 0;; mret dest.

(** The first loop of [strcat] and [strncat] stops at the terminator. *)
Definition strcat (dest src : Z) : M cmem Z :=
  n ← strlen dest; strcpy (dest + n) src;; mret dest.
Definition strncat (dest src len : Z) : M cmem Z :=
  n ← strlen dest; strncpy (dest + n) src len;; st (dest + n + len) 0;; mret dest.

(** ** Searching *)

Fixpoint strchr_loop (fuel : nat) (str ch : Z) : M cmem Z :=
  match fuel with
  | O => lift Hang
  | S fuel' =>
      c ← ld str;
      if c =? 0 then mret 0 else if c =? u8 ch then mret str else strchr_loop fuel' (str + 1) ch
  end.
Definition strchr (str ch : Z) : M cmem Z := with_fuel (λ f, strchr_loop f str ch).

Fixpoint strrchr_loop (fuel : nat) (str ch sp : Z) : M cmem Z :=
  match fuel with
  | O => lift Hang
  | S fuel' =>
      c ← ld str;
      if c =? 0 then mret sp else strrchr_loop fuel' (str + 1) ch (if c =? u8 ch then str else sp)
  end.
Definition strrchr (str ch : Z) : M cmem Z := with_fuel (λ f, strrchr_loop f str ch 0).

(** The inner loop of [strstr], from [i = 1]: [Some r] when it returns [r]. *)
Fixpoint strstr_match (fuel : nat) (str1 str2 i : Z) : M cmem (option Z) :=
  match fuel with
  | O => lift Hang
  | S fuel' =>
      a ← ld (str1 + i); b ← ld (str2 + i);
      if a =? b then
        b' ← ld (str2 + (i + 1));
        if b' =? 0 then mret (Some str1)
        else
          a' ← ld (str1 + (i + 1));
          if a' =? 0 then mret (Some 0) else strstr_match fuel' str1 str2 (i + 1)
      else mret None
  end.
Fixpoint strstr_loop (fuel : nat) (str1 str2 : Z) : M cmem Z :=
  match fuel with
  | O => lift Hang
  | S fuel' =>
      a ← ld str1;
      if a =? 0 then mret 0
      else
        b ← ld str2;
        if a =? b then
          r ← with_fuel (λ f, strstr_match f str1 str2 1);
          match r with
          | Some p => mret p
          | None => strstr_loop fuel' (str1 + 1) str2
          end
        else strstr_loop fuel' (str1 + 1) str2
  end.
Definition strstr (str1 str2 : Z) : M cmem Z := with_fuel (λ f, strstr_loop f str1 str2).

Fixpoint strpbrk_inner (fuel : nat) (c sp : Z) : M cmem (option Z) :=
  match fuel with
  | O => lift Hang
  | S fuel' =>
      t ← ld sp;
      if t =? 0 then mret None else if c =? t then mret (Some sp) else strpbrk_inner fuel' c (sp + 1)
  end.
Fixpoint strpbrk_loop (fuel : nat) (str targets : Z) : M cmem Z :=
  match fuel with
  | O => lift Hang
  | S fuel' =>
      c ← ld str;
      if c =? 0 then mret 0
      else
        r ← with_fuel (λ f, strpbrk_inner f c targets);
        match r with
        | Some p => mret p
        | None => strpbrk_loop fuel' (str + 1) targets
        end
  end.
Definition strpbrk (str targets : Z) : M cmem Z := with_fuel (λ f, strpbrk_loop f str targets).

(** ** Memory blocks *)

Definition memset (arr val len : Z) : M cmem Z :=
  for_each (λ i, st (arr + i) val) (seqZ 0 len);; mret arr.

Fixpoint memcmp_loop (m1 m2 i : Z) (n : nat) : M cmem Z :=
  match n with
  | O => mret 0
  | S n' =>
      a ← ld (m1 + i); b ← ld (m2 + i);
      if b <? a then mret 1 else if a <? b then mret (-1) else memcmp_loop m1 m2 (i + 1) n'
  end.
Definition memcmp (m1 m2 len : Z) : M cmem Z := memcmp_loop m1 m2 0 (Z.to_nat len).

Definition memcpy (dest src len : Z) : M cmem Z :=
  for_each (λ i, c ← ld (src + i); st (dest + i) c) (seqZ 0 len);; mret dest.

(** [memmove] copies through an array of its own. *)
Fixpoint read_block (src : Z) (n : nat) : M cmem (list Z) :=
  match n with
  | O => mret []
  | S n' => c ← ld src; l ← read_block (src + 1) n'; mret (c :: l)
  end.
Fixpoint write_block (dest : Z) (l : list Z) : M cmem () :=
  match l with
  | [] => mret tt
  | c :: l' => st dest c;; write_block (dest + 1) l'
  end.
Definition memmove (dest src len : Z) : M cmem Z :=
  cpy ← read_block src (Z.to_nat len); write_block dest cpy;; mret dest.

Fixpoint memchr_loop (h needle : Z) (size : nat) : M cmem Z :=
  match size with
  | O => mret 0
  | S size' => c ← ld h; if c =? u8 needle then mret h else memchr_loop (h + 1) needle size'
  end.
Definition memchr (haystack needle size : Z) : M cmem Z := memchr_loop haystack needle (Z.to_nat size).

(** ** ctype.cpp *)

Definition isupper (ch : Z) : bool := (0x41 <=? ch) && (ch <=? 0x5A).
Definition islower (ch : Z) : bool := (0x61 <=? ch) && (ch <=? 0x7A).
Definition isdigit (ch : Z) : bool := (0x30 <=? ch) && (ch <=? 0x39).
Definition isalpha (ch : Z) : bool := isupper ch || islower ch.
Definition isalnum (ch : Z) : bool := isalpha ch || isdigit ch.
Definition isblank (ch : Z) : bool := (ch =? 0x09) || (ch =? 0x20).
Definition iscntrl (ch : Z) : bool := ((0x00 <=? ch) && (ch <=? 0x1F)) || (ch =? 0x7F).
Definition isgraph (ch : Z) : bool := (0x21 <=? ch) && (ch <=? 0x7A).
Definition isprint (ch : Z) : bool := (ch =? 0x20) || isgraph ch.
Definition ispunct (ch : Z) : bool :=
  ((0x21 <=? ch) && (ch <=? 0x2F)) || ((0x3A <=? ch) && (ch <=? 0x40)) ||
  ((0x5B <=? ch) && (ch <=? 0x60)) || ((0x7B <=? ch) && (ch <=? 0x7E)).
Definition isspace (ch : Z) : bool := (ch =? 0x20) || ((0x09 <=? ch) && (ch <=? 0x0D)).
Definition isxdigit (ch : Z) : bool :=
  ((0x41 <=? ch) && (ch <=? 0x46)) || ((0x61 <=? ch) && (ch <=? 0x66)) || isdigit ch.
Definition tolower (ch : Z) : Z := if isupper ch then Z.lxor ch 0x20 else ch.
Definition toupper (ch : Z) : Z := if islower ch then Z.lxor ch 0x20 else ch.

(** ** stdlib.cpp

    [atoi], [atol] and [atoll] have one text over three types; [wrap] is the
    conversion to the type, applied after every operation. *)
Fixpoint skip_space (fuel : nat) (str : Z) : M cmem Z :=
  match fuel with
  | O => lift Hang
  | S fuel' => c ← ld str; if isspace (s8 c) then skip_space fuel' (str + 1) else mret str
  end.

Fixpoint digits_loop (wrap : Z → Z) (fuel : nat) (str res sign : Z) : M cmem Z :=
  match fuel with
  | O => lift Hang
  | S fuel' =>
      c ← ld str;
      if c =? 0 then mret (wrap (sign * res))
      else if isdigit (s8 c) then digits_loop wrap fuel' (str + 1) (wrap (wrap (res * 10) + (s8 c - 48))) sign
      else mret (wrap (sign * res))
  end.

Definition ato (wrap : Z → Z) (str : Z) : M cmem Z :=
  str ← with_fuel (λ f, skip_space f str);
  c ← ld str;
  let '(sign, str) := if c =? 45 then (-1, str + 1) else (1, str) in
  c ← ld str;
  let str := if c =? 43 then str + 1 else str in
  with_fuel (λ f, digits_loop wrap f str 0 sign).

Definition atoi (str : Z) : M cmem Z := ato s32 str.
Definition atol (str : Z) : M cmem Z := ato s64 str.
Definition atoll (str : Z) : M cmem Z := ato s64 str.

Fixpoint reverse_loop (fuel : nat) (s i j : Z) : M cmem () :=
  if i <? j then
    match fuel with
    | O => lift Hang
    | S fuel' =>
        c ← ld (s + i); d ← ld (s + j);
        st (s + i) d;; st (s + j) c;;
        reverse_loop fuel' s (i + 1) (j - 1)
    end
  else mret tt.
Definition reverse (s : Z) : M cmem () :=
  n ← strlen s; with_fuel (λ f, reverse_loop f s 0 (n - 1)).

(** ["0123456789ABCDEF"]: the code of a digit. *)
Definition digit_chars : list Z := [48; 49; 50; 51; 52; 53; 54; 55; 56; 57; 65; 66; 67; 68; 69; 70].

Fixpoint itoa_loop (fuel : nat) (n s base i : Z) : M cmem Z :=
  match fuel with
  | O => lift Hang
  | S fuel' =>
      if base =? 0 then lift Fault
      else
        d ← lift (access (digit_chars !! Z.to_nat (n mod base)));
        st (s + i) d;;
        let n := n / base in
        if 0 <? n then itoa_loop fuel' n s base (i + 1) else mret (i + 1)
  end.

(** [base] is converted to [uint32_t] by the usual conversions. *)
Definition itoa (n s base : Z) : M cmem Z :=
  i ← with_fuel (λ f, itoa_loop f n s (u32 base) 0);
  st (s + i) 0;;
  reverse s;;
  mret s.

(** ** Segments and strings in memory *)

Fixpoint seg (m : cmem) (p : Z) (l : list Z) : Prop :=
  match l with
  | [] => True
  | c :: l' => m !! p = Some c ∧ seg m (p + 1) l'
  end.

Definition chars (l : list Z) : Prop := Forall (λ c, 0 < c < 256) l.

(** The string [l] with its terminator at [p]. *)
Definition str_at (m : cmem) (p : Z) (l : list Z) : Prop := chars l ∧ seg m p (l ++ [0]).

Definition len (l : list Z) : Z := Z.of_nat (length l).

(** The [n] addresses from [p] on exist. *)
Definition mapped (m : cmem) (p n : Z) : Prop := ∀ i, 0 ≤ i < n → is_Some (m !! (p + i)).

(** [m'] is [m] outside the [n] addresses from [p] on. *)
Definition same_outside (m m' : cmem) (p n : Z) : Prop := ∀ a, a < p ∨ p + n ≤ a → m' !! a = m !! a.

Lemma len_cons c l : len (c :: l) = len l + 1.
Proof. unfold len. cbn [length]. lia. Qed.
Lemma len_app l1 l2 : len (l1 ++ l2) = len l1 + len l2.
Proof. unfold len. rewrite length_app. lia. Qed.
Lemma len_pos l : 0 ≤ len l.
Proof. unfold len. lia. Qed.

Lemma seg_app m p l1 l2 : seg m p (l1 ++ l2) ↔ seg m p l1 ∧ seg m (p + len l1) l2.
Proof.
  revert p. induction l1 as [|c l1 IH]; intros p; cbn [seg app].
  - replace (p + len []) with p by (unfold len; cbn; lia). tauto.
  - rewrite IH, len_cons. replace (p + 1 + len l1) with (p + (len l1 + 1)) by lia. tauto.
Qed.

Lemma seg_same m m' p l : (∀ i, 0 ≤ i < len l → m' !! (p + i) = m !! (p + i)) → seg m p l → seg m' p l.
Proof.
  revert p. induction l as [|c l IH]; intros p Hs H; [done|]. destruct H as [Hc H]. split.
  - rewrite <- (Z.add_0_r p), Hs, Z.add_0_r; [done|]. rewrite len_cons. pose proof (len_pos l). lia.
  - apply IH; [|done]. intros i Hi. rewrite <- Z.add_assoc. apply Hs. rewrite len_cons. lia.
Qed.

Lemma seg_outside m m' p l q n :
  same_outside m m' q n → p + len l ≤ q ∨ q + n ≤ p → seg m p l → seg m' p l.
Proof. intros Hs Hd. apply seg_same. intros i Hi. apply Hs. lia. Qed.

Lemma seg_mapped m p l : seg m p l → mapped m p (len l).
Proof.
  revert p. induction l as [|c l IH]; intros p H i Hi; [unfold len in Hi; cbn in Hi; lia|].
  destruct H as [Hc H]. rewrite len_cons in Hi. destruct (decide (i = 0)) as [->|].
  - rewrite Z.add_0_r. eauto.
  - specialize (IH _ H (i - 1)). replace (p + i) with (p + 1 + (i - 1)) by lia. apply IH. lia.
Qed.

(** Memory has room for what it holds. *)
Lemma mapped_size m p n : mapped m p n → n ≤ Z.of_nat (size m).
Proof.
  intros H. destruct (decide (0 ≤ n)); [|lia].
  assert (list_to_set (seqZ p n) ⊆ (dom m : gset Z)) as Hsub.
  { intros a Ha. apply elem_of_list_to_set, elem_of_seqZ in Ha. apply elem_of_dom.
    replace a with (p + (a - p)) by lia. apply H. lia. }
  apply subseteq_size in Hsub. rewrite size_list_to_set, length_seqZ in Hsub by apply NoDup_seqZ.
  pose proof (fin_map_dom.size_dom (D := gset Z) m) as Hdom. lia.
Qed.

Lemma seg_size m p l : seg m p l → (length l ≤ size m)%nat.
Proof. intros H. apply seg_mapped, mapped_size in H. unfold len in H. lia. Qed.

Lemma str_at_size m p l : str_at m p l → (length l < S (size m))%nat.
Proof. intros [_ H]. apply seg_size in H. rewrite length_app in H. cbn in H. lia. Qed.

Lemma ld_run m a b : m !! a = Some b → ld a m = Ok (b, m).
Proof. intros H. unfold ld. by rewrite H. Qed.

Lemma st_run m a b : is_Some (m !! a) → st a b m = Ok (tt, <[a := b mod 256]> m).
Proof. intros [c H]. unfold st. by rewrite H. Qed.

Lemma byte_small b : 0 ≤ b < 256 → b mod 256 = b.
Proof. apply Z.mod_small. Qed.

(** ** Lengths and comparisons *)

Lemma strlen_loop_run fuel m s k l :
  chars l → seg m (s + k) (l ++ [0]) → (length l < fuel)%nat →
  strlen_loop fuel s k m = Ok (k + len l, m).
Proof.
  revert k l. induction fuel as [|fuel IH]; intros k l Hc Hs Hf; [lia|]. cbn [strlen_loop].
  destruct l as [|c l]; cbn [app seg] in Hs; destruct Hs as [Hm Hs]; run (ld_run _ _ _ Hm).
  - cbn. unfold len. cbn. by rewrite Z.add_0_r.
  - apply Forall_cons in Hc as [Hc0 Hc]. destruct (Z.eqb_spec c 0); [lia|].
    rewrite (IH (k + 1) l); [rewrite len_cons; do 2 f_equal; lia|done| |cbn in Hf; lia].
    by rewrite Z.add_assoc.
Qed.

Lemma strlen_run m s l : str_at m s l → strlen s m = Ok (len l, m).
Proof.
  intros H. unfold strlen, with_fuel. rewrite (strlen_loop_run _ m s 0 l); [done|apply H| |by eapply str_at_size].
  rewrite Z.add_0_r. apply H.
Qed.

(** What [strcmp] computes: the difference at the first place where the
    strings differ, as signed characters, the terminator counting as 0. *)
Fixpoint cmp (l1 l2 : list Z) : Z :=
  match l1, l2 with
  | [], [] => 0
  | [], b :: _ => - s8 b
  | a :: _, [] => s8 a
  | a :: l1', b :: l2' => if a =? b then cmp l1' l2' else s8 a - s8 b
  end.

Lemma s8_0 : s8 0 = 0.
Proof. reflexivity. Qed.
Lemma s8_inj a b : 0 ≤ a < 256 → 0 ≤ b < 256 → s8 a = s8 b → a = b.
Proof. intros. wrap_lia. Qed.

Lemma strcmp_loop_run fuel m p q k l1 l2 :
  chars l1 → chars l2 → seg m (p + k) (l1 ++ [0]) → seg m (q + k) (l2 ++ [0]) → (length l1 < fuel)%nat →
  strcmp_loop fuel p q k m = Ok (cmp l1 l2, m).
Proof.
  revert k l1 l2. induction fuel as [|fuel IH]; intros k l1 l2 H1 H2 S1 S2 Hf; [lia|]. cbn [strcmp_loop].
  destruct l1 as [|a l1]; cbn [app seg] in S1; destruct S1 as [M1 S1]; run (ld_run _ _ _ M1).
  - destruct l2 as [|b l2]; cbn [app seg] in S2; destruct S2 as [M2 S2]; cbn [Z.eqb];
      run (ld_run _ _ _ M2); cbn [cmp]; cbv [mret M_ret]; do 2 f_equal; rewrite ?s8_0; lia.
  - apply Forall_cons in H1 as [Ha H1]. destruct (Z.eqb_spec a 0); [lia|].
    destruct l2 as [|b l2]; cbn [app seg] in S2; destruct S2 as [M2 S2]; run (ld_run _ _ _ M2).
    + destruct (Z.eqb_spec a 0); [lia|]. cbn [cmp]. cbv [mret M_ret]. do 2 f_equal. rewrite s8_0. lia.
    + apply Forall_cons in H2 as [Hb H2]. cbn [cmp]. destruct (Z.eqb_spec a b) as [->|]; [|done].
      apply IH; rewrite ?Z.add_assoc; try done. cbn in Hf. lia.
Qed.

Lemma strcmp_run m p q l1 l2 : str_at m p l1 → str_at m q l2 → strcmp p q m = Ok (cmp l1 l2, m).
Proof.
  intros H1 H2. unfold strcmp, with_fuel.
  apply (strcmp_loop_run _ m p q 0); rewrite ?Z.add_0_r; try apply H1; try apply H2. by eapply str_at_size.
Qed.

Lemma cmp_zero l1 l2 : chars l1 → chars l2 → cmp l1 l2 = 0 ↔ l1 = l2.
Proof.
  intros H1. revert l2. induction H1 as [|a l1 Ha H1 IH]; intros l2 H2; destruct H2 as [|b l2 Hb H2]; cbn [cmp].
  - done.
  - split; [|done]. wrap_lia.
  - split; [|done]. wrap_lia.
  - destruct (Z.eqb_spec a b) as [->|Hne].
    + rewrite (IH l2 H2). naive_solver.
    + split; [|congruence]. intros H. exfalso. apply Hne. apply s8_inj; lia.
Qed.

(** [strcmp] on two strings returns, changes nothing, and returns 0
    exactly when the strings are equal; otherwise the result is the difference
    of the first two characters that differ, as signed characters. *)
Theorem strcmp_spec (m : cmem) (p q : Z) (l1 l2 : list Z) :
  str_at m p l1 → str_at m q l2 →
  ∃ r, strcmp p q m = Ok (r, m) ∧ (r = 0 ↔ l1 = l2) ∧ r = cmp l1 l2.
Proof.
  intros H1 H2. exists (cmp l1 l2). split; [by apply strcmp_run|]. split; [|done]. apply cmp_zero; [apply H1|apply H2].
Qed.

(** Two strings, "ab" at 16 and "abc" at 32. *)
Definition demo_mem : cmem :=
  list_to_map [(16, 97); (17, 98); (18, 0); (32, 97); (33, 98); (34, 99); (35, 0); (64, 7); (65, 7); (66, 7); (67, 7)].

Lemma demo_strings : str_at demo_mem 16 [97; 98] ∧ str_at demo_mem 32 [97; 98; 99].
Proof.
  split; (split; [repeat (apply Forall_cons; split; [lia|]); apply Forall_nil; done|]);
    cbn [app seg]; repeat split; reflexivity.
Qed.

Lemma strcmp_spec_witness : ∃ r, strcmp 16 32 demo_mem = Ok (r, demo_mem) ∧ (r = 0 ↔ [97; 98] = [97; 98; 99]) ∧ r = -99.
Proof.
  destruct (strcmp_spec demo_mem 16 32 _ _ (proj1 demo_strings) (proj2 demo_strings)) as (r & H1 & H2 & H3).
  exists r. split; [exact H1|]. split; [exact H2|]. rewrite H3. reflexivity.
Defined.

(** ** Writing *)

Lemma same_outside_refl m p n : same_outside m m p n.
Proof. by intros a. Qed.

Lemma same_outside_trans m1 m2 m3 p n : same_outside m1 m2 p n → same_outside m2 m3 p n → same_outside m1 m3 p n.
Proof. intros H1 H2 a Ha. by rewrite H2, H1. Qed.

Lemma same_outside_sub m m' p n q k : same_outside m m' q k → p ≤ q → q + k ≤ p + n → same_outside m m' p n.
Proof. intros H ?? a Ha. apply H. lia. Qed.

Lemma insert_same_outside m a b : same_outside m (<[a := b]> m) a 1.
Proof. intros c Hc. apply lookup_insert_ne. lia. Qed.

(** Writes keep the addresses that exist. *)
Definition same_shape (m m' : cmem) : Prop := ∀ a, is_Some (m !! a) ↔ is_Some (m' !! a).

Lemma insert_same_shape m a b : is_Some (m !! a) → same_shape m (<[a := b]> m).
Proof.
  intros H c. destruct (decide (c = a)) as [->|].
  - rewrite lookup_insert_eq. split; eauto.
  - by rewrite lookup_insert_ne.
Qed.

Lemma same_shape_trans m1 m2 m3 : same_shape m1 m2 → same_shape m2 m3 → same_shape m1 m3.
Proof. intros H1 H2 a. etrans; [apply H1|apply H2]. Qed.

Lemma same_shape_mapped m m' p n : same_shape m m' → mapped m p n → mapped m' p n.
Proof. intros Hs H i Hi. apply Hs. auto. Qed.

(** Writing a list of bytes. *)
Lemma write_block_run m d l :
  mapped m d (len l) → Forall (λ c, 0 ≤ c < 256) l →
  ∃ m', write_block d l m = Ok (tt, m') ∧ seg m' d l ∧ same_outside m m' d (len l) ∧ same_shape m m'.
Proof.
  revert m d. induction l as [|c l IH]; intros m d Hm Hl; cbn [write_block].
  - exists m. split_and!; [done|done|apply same_outside_refl|done].
  - apply Forall_cons in Hl as [Hc Hl]. rewrite len_cons in *. pose proof (len_pos l).
    assert (is_Some (m !! d)) as Hd by (rewrite <- (Z.add_0_r d); apply Hm; lia).
    run (st_run m d c Hd). rewrite byte_small by done.
    destruct (IH (<[d := c]> m) (d + 1)) as (m' & -> & Hs & Ho & Hsh); [|done|].
    { eapply same_shape_mapped; [by apply insert_same_shape|]. intros i Hi. rewrite <- Z.add_assoc. apply Hm. lia. }
    exists m'. split_and!; [done| |..].
    + split; [|done]. rewrite Ho by lia. apply lookup_insert_eq.
    + apply (same_outside_trans _ (<[d := c]> m)); [eapply same_outside_sub; [apply insert_same_outside|lia..]|].
      eapply same_outside_sub; [exact Ho|lia..].
    + eapply same_shape_trans; [by apply insert_same_shape|done].
Qed.

Lemma read_block_run m p l : seg m p l → read_block p (length l) m = Ok (l, m).
Proof.
  revert p. induction l as [|c l IH]; intros p H; [done|]. destruct H as [Hc H]. cbn [length read_block].
  run (ld_run _ _ _ Hc). by run (IH _ H).
Qed.

(** ** Little-endian numbers *)
Definition le_value (l : list Z) : Z := foldr (λ b r, b + 256 * r) 0 l.

Lemma ld_le_run m a l : seg m a l → ld_le a (length l) m = Ok (le_value l, m).
Proof.
  revert a. induction l as [|b l IH]; intros a Hs; [done|]. destruct Hs as [Hb Hs]. cbn [length ld_le].
  run (ld_run _ _ _ Hb). by run (IH _ Hs).
Qed.

Lemma seg_take m p l n : seg m p l → seg m p (take n l).
Proof. intros H. rewrite <- (take_drop n l) in H. by apply seg_app in H as [H _]. Qed.
Lemma seg_drop m p l n : (n ≤ length l)%nat → seg m p l → seg m (p + Z.of_nat n) (drop n l).
Proof.
  intros Hn H. rewrite <- (take_drop n l) in H. apply seg_app in H as [_ H]. unfold len in H.
  by rewrite length_take_le in H.
Qed.

(** The [n] bytes at [off]. *)
Definition sub_bytes (l : list Z) (off n : nat) : list Z := take n (drop off l).

Lemma ld_field m p l (off n : nat) :
  seg m p l → (off + n ≤ length l)%nat → ld_le (p + Z.of_nat off) n m = Ok (le_value (sub_bytes l off n), m).
Proof.
  intros Hs Hl. assert (length (sub_bytes l off n) = n) as E by (unfold sub_bytes; rewrite length_take_le; [done|]; rewrite length_drop; lia).
  rewrite <- E at 1. apply ld_le_run, seg_take, seg_drop; [lia|done].
Qed.

(** Memory with a block of bytes put into it. *)
Fixpoint put_seg (p : Z) (l : list Z) (m : cmem) : cmem :=
  match l with [] => m | b :: l' => <[p := b]> (put_seg (p + 1) l' m) end.
Lemma put_seg_out p l m a : a < p ∨ p + len l ≤ a → put_seg p l m !! a = m !! a.
Proof.
  revert p. induction l as [|b l IH]; intros p H; [done|]. rewrite len_cons in H. pose proof (len_pos l). cbn [put_seg].
  rewrite lookup_insert_ne by lia. apply IH. lia.
Qed.
Lemma put_seg_seg p l m : seg (put_seg p l m) p l.
Proof.
  revert p. induction l as [|b l IH]; intros p; [done|]. split; [apply lookup_insert_eq|].
  apply (seg_same (put_seg (p + 1) l m)); [|apply IH]. intros i Hi. cbn [put_seg]. rewrite lookup_insert_ne by lia. done.
Qed.
Lemma put_seg_keep p l m q k : p + len l ≤ q ∨ q + len k ≤ p → seg m q k → seg (put_seg p l m) q k.
Proof. intros H. apply seg_same. intros i Hi. apply put_seg_out. lia. Qed.

(** [memmove] puts the bytes that were at the source at the destination,
    also when the two blocks overlap, and changes nothing else. *)
Theorem memmove_spec (m : cmem) (d s : Z) (l : list Z) :
  seg m s l → Forall (λ c, 0 ≤ c < 256) l → mapped m d (len l) →
  ∃ m', memmove d s (len l) m = Ok (d, m') ∧ seg m' d l ∧ same_outside m m' d (len l).
Proof.
  intros Hs Hl Hd. destruct (write_block_run m d l Hd Hl) as (m' & Hw & Hseg & Ho & _).
  exists m'. split_and!; [|done..]. unfold memmove. replace (Z.to_nat (len l)) with (length l) by (unfold len; lia).
  run (read_block_run _ _ _ Hs). by run Hw.
Qed.

Lemma memmove_spec_witness :
  ∃ m', memmove 33 32 3 demo_mem = Ok (33, m') ∧ seg m' 33 [97; 98; 99].
Proof.
  destruct (memmove_spec demo_mem 33 32 [97; 98; 99]) as (m' & H1 & H2 & _).
  - repeat split; reflexivity.
  - repeat (apply Forall_cons; split; [lia|]). by apply Forall_nil.
  - intros i Hi. unfold len in Hi. cbn in Hi. assert (i = 0 ∨ i = 1 ∨ i = 2) as [-> | [-> | ->]] by lia; eexists; reflexivity.
  - exists m'. split; [exact H1|exact H2].
Defined.

Lemma strcpy_loop_run fuel m d s k l :
  chars l → seg m (s + k) (l ++ [0]) → mapped m (d + k) (len l + 1) →
  (d + k + len l < s + k ∨ s + k + len l < d + k) → (length l < fuel)%nat →
  ∃ m', strcpy_loop fuel d s k m = Ok (tt, m') ∧ seg m' (d + k) (l ++ [0]) ∧
    same_outside m m' (d + k) (len l + 1).
Proof.
  revert m k l. induction fuel as [|fuel IH]; intros m k l Hc Hs Hd Hdis Hf; [lia|]. cbn [strcpy_loop].
  pose proof (len_pos l). assert (is_Some (m !! (d + k))) as Hdk by (rewrite <- (Z.add_0_r (d + k)); apply Hd; lia).
  destruct l as [|c l]; cbn [app seg] in Hs; destruct Hs as [Hm Hs]; run (ld_run _ _ _ Hm).
  - cbn [Z.eqb]. rewrite (st_run _ _ _ Hdk). eexists. split_and!; [done|split; [apply lookup_insert_eq|done]|].
    apply insert_same_outside.
  - apply Forall_cons in Hc as [Hc0 Hc]. rewrite len_cons in *. destruct (Z.eqb_spec c 0); [lia|].
    run (st_run _ _ c Hdk). rewrite byte_small by lia. pose proof (len_pos l).
    destruct (IH (<[d + k := c]> m) (k + 1) l) as (m' & -> & Hseg & Ho); [done|..|lia|cbn in Hf; lia|].
    + rewrite Z.add_assoc. eapply seg_outside; [apply insert_same_outside| |exact Hs].
      rewrite len_app. change (len [0]) with 1. lia.
    + rewrite Z.add_assoc. eapply same_shape_mapped; [by apply insert_same_shape|].
      intros i Hi. rewrite <- Z.add_assoc. apply Hd. lia.
    + rewrite Z.add_assoc in *. exists m'. split_and!; [done| |].
      * split; [|done]. rewrite Ho by lia. apply lookup_insert_eq.
      * apply (same_outside_trans _ (<[d + k := c]> m)); [eapply same_outside_sub; [apply insert_same_outside|lia..]|].
        eapply same_outside_sub; [exact Ho|lia..].
Qed.

(** [strcpy] into memory that exists and does not overlap the source
    makes the destination the same string and changes nothing else. *)
Theorem strcpy_spec (m : cmem) (d s : Z) (l : list Z) :
  str_at m s l → mapped m d (len l + 1) → d + len l < s ∨ s + len l < d →
  ∃ m', strcpy d s m = Ok (d, m') ∧ str_at m' d l ∧ same_outside m m' d (len l + 1).
Proof.
  intros H Hd Hdis. unfold strcpy, with_fuel. destruct H as [Hc Hs].
  destruct (strcpy_loop_run (S (size m)) m d s 0 l) as (m' & Hrun & Hseg & Ho); rewrite ?Z.add_0_r in *; try done.
  { by apply (str_at_size _ s). }
  exists m'. split_and!; [|by split|done]. cbv [mbind M_bind]. by rewrite Hrun.
Qed.

Lemma strcpy_spec_witness : ∃ m', strcpy 64 32 demo_mem = Ok (64, m') ∧ str_at m' 64 [97; 98; 99].
Proof.
  destruct (strcpy_spec demo_mem 64 32 [97; 98; 99] (proj2 demo_strings)) as (m' & H1 & H2 & _).
  - intros i Hi. unfold len in Hi. cbn in Hi.
    assert (i = 0 ∨ i = 1 ∨ i = 2 ∨ i = 3) as [-> | [-> | [-> | ->]]] by lia; eexists; reflexivity.
  - unfold len. cbn. lia.
  - exists m'. split; [exact H1|exact H2].
Defined.

(** ** Searching *)

Lemma strchr_loop_run fuel m p ch l :
  chars l → seg m p (l ++ [0]) → (length l < fuel)%nat →
  strchr_loop fuel p ch m =
    Ok (match list_find (λ c, c = u8 ch) l with Some (i, _) => p + Z.of_nat i | None => 0 end, m).
Proof.
  revert p l. induction fuel as [|fuel IH]; intros p l Hc Hs Hf; [lia|]. cbn [strchr_loop].
  destruct l as [|c l]; cbn [app seg] in Hs; destruct Hs as [Hm Hs]; run (ld_run _ _ _ Hm); [done|].
  apply Forall_cons in Hc as [Hc0 Hc]. destruct (Z.eqb_spec c 0); [lia|]. cbn [list_find].
  destruct (Z.eqb_spec c (u8 ch)) as [->|].
  - rewrite decide_True by done. cbn. by rewrite Z.add_0_r.
  - rewrite decide_False by done. rewrite (IH (p + 1) l) by (done || (cbn in Hf; lia)).
    destruct (list_find _ l) as [[i x]|]; cbn; [|done]. do 2 f_equal. lia.
Qed.

(** [strchr] returns the address of the first occurrence of the
    character, and NULL when it does not occur; the terminator is not found,
    although the C standard counts it as part of the string. *)
Theorem strchr_spec (m : cmem) (p ch : Z) (l : list Z) :
  str_at m p l →
  strchr p ch m =
    Ok (match list_find (λ c, c = u8 ch) l with Some (i, _) => p + Z.of_nat i | None => 0 end, m) ∧
  strchr p 0 m = Ok (0, m).
Proof.
  intros H. pose proof (str_at_size _ _ _ H) as Hf. destruct H as [Hc Hs]. unfold strchr, with_fuel. split.
  - by apply strchr_loop_run.
  - rewrite (strchr_loop_run _ m p 0 l) by done. destruct (list_find _ l) as [[i x]|] eqn:E; [|done]. exfalso.
    apply list_find_Some in E as (Hi & -> & _). apply list_elem_of_lookup_2 in Hi.
    unfold chars in Hc. rewrite Forall_forall in Hc. apply Hc in Hi. change (u8 0) with 0 in Hi. lia.
Qed.

Lemma strchr_spec_witness : strchr 32 98 demo_mem = Ok (33, demo_mem).
Proof. apply (strchr_spec demo_mem 32 98 [97; 98; 99] (proj2 demo_strings)). Defined.

(** Where the comparison and search routines leave the C standard:
    [strncmp] of no characters compares, and does not stop at the terminator;
    [strstr] does not find a needle of one character; [strpbrk] points into
    the set of characters instead of the string; [isgraph] refuses four
    graphic characters. *)
Theorem string_divergences :
  value (strncmp 16 32 3 (<[18 := 0]> demo_mem)) = Some (-99) ∧
  value (strncmp 16 34 0 demo_mem) = Some (-2) ∧
  value (strstr 32 48 (<[48 := 97]> (<[49 := 0]> demo_mem))) = Some 0 ∧
  value (strpbrk 32 48 (<[48 := 98]> (<[49 := 0]> demo_mem))) = Some 48 ∧
  (isgraph 0x7B, isgraph 0x7C, isgraph 0x7D, isgraph 0x7E) = (false, false, false, false).
Proof. split_and!; vm_compute; reflexivity. Qed.

(** ** Numbers *)

Lemma reverse_loop_run fuel m s i j l :
  seg m (s + i) l → Forall (λ c, 0 ≤ c < 256) l → j = i + len l - 1 → (length l ≤ fuel)%nat →
  ∃ m', reverse_loop fuel s i j m = Ok (tt, m') ∧ seg m' (s + i) (rev l) ∧
    same_outside m m' (s + i) (len l) ∧ same_shape m m'.
Proof.
  revert m i j l. induction fuel as [|fuel IH]; intros m i j l Hs Hb Hj Hf.
  - destruct l; [|cbn in Hf; lia]. exists m. cbn [reverse_loop]. unfold len in Hj. cbn in Hj.
    destruct (Z.ltb_spec i j); [lia|]. split_and!; [done|done|apply same_outside_refl|done].
  - cbn [reverse_loop]. destruct (Z.ltb_spec i j) as [Hlt|Hge].
    2:{ exists m. split_and!; [done| |apply same_outside_refl|done].
        destruct l as [|c [|d l]]; [done|done|]. rewrite !len_cons in Hj. pose proof (len_pos l). lia. }
    destruct l as [|x l]; [unfold len in Hj; cbn in Hj; lia|].
    destruct l as [|y mid _] using rev_ind; [unfold len in Hj; cbn in Hj; lia|].
    rewrite len_cons, len_app in *. change (len [y]) with 1 in *. pose proof (len_pos mid).
    apply Forall_cons in Hb as [Hx Hb]. apply Forall_app in Hb as [Hb Hy]. apply Forall_cons in Hy as [Hy _].
    destruct Hs as [Hmx Hs]. apply seg_app in Hs as [Hmid [Hmy _]].
    replace (s + i + 1 + len mid) with (s + j) in Hmy by lia.
    run (ld_run _ _ _ Hmx). run (ld_run _ _ _ Hmy). run (st_run m (s + i) y ltac:(eauto)).
    rewrite byte_small by done. set (m1 := <[s + i := y]> m).
    assert (is_Some (m1 !! (s + j))) as Hj1 by (unfold m1; rewrite lookup_insert_ne by lia; eauto).
    run (st_run m1 (s + j) x Hj1). rewrite byte_small by done. set (m2 := <[s + j := x]> m1).
    assert (same_outside m m2 (s + i) (len mid + 2)) as Ho2.
    { intros a Ha. unfold m2, m1. rewrite !lookup_insert_ne by lia. done. }
    assert (same_shape m m2) as Hsh2.
    { eapply same_shape_trans; [|by apply insert_same_shape]. apply insert_same_shape. eauto. }
    destruct (IH m2 (i + 1) (j - 1) mid) as (m' & Hrun & Hs' & Ho' & Hsh'); [| done|lia|cbn in Hf; rewrite length_app in Hf; cbn in Hf; lia|].
    { rewrite Z.add_assoc. eapply seg_same; [|exact Hmid]. intros k Hk. unfold m2, m1.
      rewrite !lookup_insert_ne by lia. done. }
    rewrite Z.add_assoc in Hs', Ho'. exists m'. split_and!; [done| | |by eapply same_shape_trans].
    + cbn [rev]. rewrite rev_app_distr. cbn [rev app seg]. split.
      * rewrite Ho' by lia. unfold m2, m1. rewrite lookup_insert_ne by lia. apply lookup_insert_eq.
      * apply seg_app. split; [done|]. split; [|done]. unfold len. rewrite length_rev. fold (len mid).
        rewrite Ho' by lia. replace (s + i + 1 + len mid) with (s + j) by lia. apply lookup_insert_eq.
    + eapply same_outside_trans; [eapply same_outside_sub; [exact Ho2|lia..]|].
      eapply same_outside_sub; [exact Ho'|lia..].
Qed.

Lemma reverse_run m s l :
  str_at m s l → ∃ m', reverse s m = Ok (tt, m') ∧ str_at m' s (rev l) ∧ same_outside m m' s (len l).
Proof.
  intros H. pose proof (str_at_size _ _ _ H) as Hf. unfold reverse, with_fuel. run (strlen_run _ _ _ H).
  destruct H as [Hc Hs]. apply seg_app in Hs as [Hl [H0 _]].
  destruct (reverse_loop_run (S (size m)) m s 0 (len l - 1) l) as (m' & Hrun & Hs' & Ho & _);
    rewrite ?Z.add_0_r in *; [done|eapply Forall_impl; [exact Hc|cbn; lia]|lia|lia|].
  exists m'. split_and!; [done| |done]. split; [by apply Forall_rev|].
  apply seg_app. split; [done|]. split; [|done]. unfold len. rewrite length_rev. fold (len l).
  rewrite Ho; [done|]. pose proof (len_pos l). lia.
Qed.

(** [reverse] turns a string around in place and changes nothing else. *)
Theorem reverse_spec (m : cmem) (s : Z) (l : list Z) :
  str_at m s l → ∃ m', reverse s m = Ok (tt, m') ∧ str_at m' s (rev l) ∧ same_outside m m' s (len l).
Proof. apply reverse_run. Qed.

Lemma reverse_spec_witness : ∃ m', reverse 32 demo_mem = Ok (tt, m') ∧ str_at m' 32 [99; 98; 97].
Proof.
  destruct (reverse_spec demo_mem 32 [97; 98; 99] (proj2 demo_strings)) as (m' & H1 & H2 & _).
  exists m'. split; [exact H1|exact H2].
Defined.

(** The decimal digits of [n], the last one first. *)
Fixpoint rdigits (k : nat) (n : Z) : list Z :=
  match k with
  | O => []
  | S k' => (48 + n mod 10) :: if 0 <? n / 10 then rdigits k' (n / 10) else []
  end.

Definition digit (c : Z) : Prop := 48 ≤ c ≤ 57.

(** The number a list of digits stands for, after [r]. *)
Definition number (r : Z) (l : list Z) : Z := foldl (λ r c, r * 10 + (c - 48)) r l.

Lemma rdigits_digit k n : Forall digit (rdigits k n).
Proof.
  revert n. induction k as [|k IH]; intros n; [apply Forall_nil; done|]. cbn [rdigits].
  apply Forall_cons. split; [unfold digit; wrap_lia|]. by destruct (0 <? _).
Qed.

Lemma rdigits_len k n : (length (rdigits k n) ≤ k)%nat.
Proof.
  revert n. induction k as [|k IH]; intros n; cbn [rdigits length]; [done|].
  destruct (0 <? _); cbn [length]; [specialize (IH (n / 10))|]; lia.
Qed.

Lemma rdigits_number k n : 0 ≤ n < 10 ^ Z.of_nat k → number 0 (rev (rdigits k n)) = n.
Proof.
  unfold number.
  revert n. induction k as [|k IH]; intros n Hn; [cbn in *; lia|]. cbn [rdigits rev].
  rewrite foldl_app. cbn [foldl].
  destruct (Z.ltb_spec 0 (n / 10)) as [Hd|Hd].
  - rewrite IH; [wrap_lia|]. rewrite Nat2Z.inj_succ, Z.pow_succ_r in Hn by lia.
    split; [lia|]. apply Z.div_lt_upper_bound; lia.
  - cbn. wrap_lia.
Qed.

Lemma digit_char d : 0 ≤ d < 10 → digit_chars !! Z.to_nat d = Some (48 + d).
Proof.
  intros Hd. assert (d = 0 ∨ d = 1 ∨ d = 2 ∨ d = 3 ∨ d = 4 ∨ d = 5 ∨ d = 6 ∨ d = 7 ∨ d = 8 ∨ d = 9) as H by lia.
  repeat (destruct H as [->|H]; [done|]). by subst d.
Qed.

Lemma itoa_loop_run k fuel m n s i :
  0 ≤ n < 10 ^ Z.of_nat k → (0 < k ≤ fuel)%nat → mapped m (s + i) (Z.of_nat k) →
  ∃ m', itoa_loop fuel n s 10 i m = Ok (i + len (rdigits k n), m') ∧ seg m' (s + i) (rdigits k n) ∧
    same_outside m m' (s + i) (len (rdigits k n)) ∧ same_shape m m'.
Proof.
  revert fuel m n i. induction k as [|k IH]; intros fuel m n i Hn Hk Hm; [lia|].
  destruct fuel as [|fuel]; [lia|]. cbn [itoa_loop rdigits Z.eqb].
  rewrite (digit_char (n mod 10)) by wrap_lia. run (eq_refl : lift (access (Some (48 + n mod 10))) m = Ok (48 + n mod 10, m)).
  assert (is_Some (m !! (s + i))) as Hi by (rewrite <- (Z.add_0_r (s + i)); apply Hm; lia).
  run (st_run m (s + i) (48 + n mod 10) Hi). rewrite byte_small by wrap_lia.
  set (m1 := <[s + i := 48 + n mod 10]> m). pose proof (insert_same_shape m (s + i) (48 + n mod 10) Hi) as Hsh. fold m1 in Hsh.
  destruct (Z.ltb_spec 0 (n / 10)) as [Hd|Hd].
  - assert (0 ≤ n / 10 < 10 ^ Z.of_nat k) as Hn'.
    { rewrite Nat2Z.inj_succ, Z.pow_succ_r in Hn by lia. split; [lia|]. apply Z.div_lt_upper_bound; lia. }
    destruct (IH fuel m1 (n / 10) (i + 1) Hn') as (m' & Hrun & Hs & Ho & Hsh').
    { destruct k; [cbn in Hn'; lia|lia]. }
    { eapply same_shape_mapped; [exact Hsh|]. intros j Hj. rewrite Z.add_assoc, <- Z.add_assoc. apply Hm. lia. }
    rewrite Z.add_assoc in Hs, Ho. pose proof (len_pos (rdigits k (n / 10))).
    exists m'. split_and!; [rewrite Hrun, len_cons; do 2 f_equal; lia| | |by eapply same_shape_trans].
    + split; [|done]. rewrite Ho by lia. apply lookup_insert_eq.
    + rewrite len_cons. apply (same_outside_trans _ m1).
      * eapply same_outside_sub; [apply insert_same_outside|lia..].
      * eapply same_outside_sub; [exact Ho|lia..].
  - exists m1. split_and!; [rewrite len_cons; done|split; [apply lookup_insert_eq|done]|apply insert_same_outside|done].
Qed.

Lemma itoa_run m n s :
  0 ≤ n < 10 ^ 10 → mapped m s 11 → ∃ m', itoa n s 10 m = Ok (s, m') ∧ str_at m' s (rev (rdigits 10 n)).
Proof.
  intros Hn Hm. assert (10 ≤ size m)%nat as Hsz by (apply mapped_size in Hm; lia).
  destruct (itoa_loop_run 10 (S (size m)) m n s 0 Hn) as (m1 & Hrun & Hs & _ & Hsh); [lia| |].
  { rewrite Z.add_0_r. intros i Hi. apply Hm. lia. }
  rewrite Z.add_0_r, Z.add_0_l in *. set (l := rdigits 10 n) in *.
  assert (len l ≤ 10) as Hlen by (unfold len, l; pose proof (rdigits_len 10 n); lia). pose proof (len_pos l).
  assert (is_Some (m1 !! (s + len l))) as Hend by (apply Hsh, Hm; lia).
  assert (str_at (<[s + len l := 0]> m1) s l) as Hstr.
  { split.
    - eapply Forall_impl; [apply rdigits_digit|]. unfold digit. cbn. lia.
    - apply seg_app. split; [|split; [apply lookup_insert_eq|done]].
      eapply seg_outside; [apply insert_same_outside|lia|done]. }
  destruct (reverse_run _ _ _ Hstr) as (m' & Hrev & Hstr' & _).
  exists m'. split; [|done]. unfold itoa. change (u32 10) with 10.
  run (Hrun : with_fuel (λ f, itoa_loop f n s 10 0) m = _). run (st_run m1 _ 0 Hend).
  by run Hrev.
Qed.

Lemma number_app r l1 l2 : number r (l1 ++ l2) = number (number r l1) l2.
Proof. apply foldl_app. Qed.

Lemma number_mono l r : Forall digit l → 0 ≤ r → r ≤ number r l.
Proof.
  intros Hl. revert r. induction Hl as [|c l Hc Hl IH]; intros r Hr; [done|]. cbn.
  unfold digit in Hc. specialize (IH (r * 10 + (c - 48)) ltac:(lia)). unfold number in IH. lia.
Qed.

Lemma digits_loop_run fuel m p r l :
  Forall digit l → seg m p (l ++ [0]) → (length l < fuel)%nat → 0 ≤ r → number r l < 2 ^ 31 →
  digits_loop s32 fuel p r 1 m = Ok (number r l, m).
Proof.
  revert p r l. induction fuel as [|fuel IH]; intros p r l Hd Hs Hf Hr Hn; [lia|]. cbn [digits_loop].
  destruct l as [|c l]; cbn [app seg] in Hs; destruct Hs as [Hm Hs]; run (ld_run _ _ _ Hm).
  - cbn [Z.eqb number foldl] in *. rewrite Z.mul_1_l, s32_small by (cbn in Hn; lia). done.
  - apply Forall_cons in Hd as [Hc Hd]. unfold digit in Hc. destruct (Z.eqb_spec c 0); [lia|].
    assert (s8 c = c) as -> by wrap_lia. assert (isdigit c = true) as -> by (unfold isdigit; lia).
    change (number r (c :: l)) with (number (r * 10 + (c - 48)) l) in *.
    pose proof (number_mono l (r * 10 + (c - 48)) Hd ltac:(lia)).
    rewrite (s32_small (r * 10)), s32_small by lia. apply IH; try done; [cbn in Hf; lia|lia].
Qed.

Lemma atoi_run m s l :
  str_at m s l → Forall digit l → l ≠ [] → number 0 l < 2 ^ 31 → atoi s m = Ok (number 0 l, m).
Proof.
  intros H Hd Hne Hn. pose proof (str_at_size _ _ _ H) as Hf. destruct H as [_ Hs]. pose proof Hs as Hs'.
  destruct l as [|c l]; [done|]. destruct Hs' as [Hc _]. pose proof (Forall_inv Hd) as Hdc. unfold digit in Hdc.
  unfold atoi, ato. assert (with_fuel (λ f, skip_space f s) m = Ok (s, m)) as Hskip.
  { unfold with_fuel. cbn [skip_space]. run (ld_run _ _ _ Hc). assert (s8 c = c) as -> by wrap_lia.
    assert (isspace c = false) as -> by (unfold isspace; lia). done. }
  run Hskip. run (ld_run _ _ _ Hc). destruct (Z.eqb_spec c 45); [lia|].
  run (ld_run _ _ _ Hc). destruct (Z.eqb_spec c 43); [lia|].
  by apply digits_loop_run.
Qed.

(** [atoi] reads back what [itoa] wrote in base 10, for every number that
    an [int] can hold and every buffer of eleven bytes. *)
Theorem itoa_atoi_roundtrip (m : cmem) (n s : Z) :
  0 ≤ n < 2 ^ 31 → mapped m s 11 →
  ∃ m', itoa n s 10 m = Ok (s, m') ∧ atoi s m' = Ok (n, m').
Proof.
  intros Hn Hm. destruct (itoa_run m n s) as (m' & Hrun & Hstr); [lia|done|].
  pose proof (rdigits_number 10 n ltac:(lia)) as Hnum.
  exists m'. split; [done|]. rewrite (atoi_run m' s (rev (rdigits 10 n))); [by rewrite Hnum|done|apply Forall_rev, rdigits_digit| |lia].
  intros H. apply (f_equal length) in H. rewrite length_rev in H. discriminate.
Qed.

Lemma itoa_atoi_roundtrip_witness :
  ∃ m', itoa 1234567890 0 10 (list_to_map ((λ i, (i, 7)) <$> seqZ 0 11)) = Ok (0, m') ∧ atoi 0 m' = Ok (1234567890, m').
Proof.
  apply (itoa_atoi_roundtrip (list_to_map ((λ i, (i, 7)) <$> seqZ 0 11)) 1234567890 0); [lia|].
  intros i Hi. exists 7. rewrite Z.add_0_l. apply elem_of_list_to_map.
  - rewrite <- list_fmap_compose. cbn. rewrite list_fmap_id. apply NoDup_seqZ.
  - apply list_elem_of_fmap. exists i. split; [done|]. apply elem_of_seqZ. lia.
Defined.
