(* ===== verification/Printf.v ===== *)
(** * Formatted output (lib/vsnprintf.cpp)

    [vsnprintf] stores characters one after another; the model returns the
    list of the bytes stored. A format is the list of its characters, the
    variable arguments are a list of values. [num_fmt] fills a buffer of
    [NUM_BUF_LEN] bytes from its end; a store below the buffer is a fault, and
    so is a read of the format past its terminator. *)
From S2P Require Import Prelude CString.
From stdpp Require Import base numbers option list.
#[local] Open Scope Z_scope.

Inductive varg := VInt (z : Z) | VLong (z : Z) | VPtr (z : Z) | VStr (l : list Z).

Definition digits_upper : list Z := digit_chars.
Definition digits_lower : list Z := [48; 49; 50; 51; 52; 53; 54; 55; 56; 57; 97; 98; 99; 100; 101; 102].
Definition NUM_BUF_LEN : Z := 48.

(** [*--ptr = c]: the buffer has one byte less than [NUM_BUF_LEN] for
    characters, the last one holds the terminator. *)
Definition put_front (c buf_len : Z) (acc : list Z) : outcome (list Z) :=
  if buf_len <=? 1 then Fault else Ok (c :: acc).

(** The state of the loops: characters so far, [padding], [buf_len]. *)
Fixpoint num_digits (fuel : nat) (digits : list Z) (i base padding len buf_len : Z) (acc : list Z)
    : outcome (list Z * Z * Z) :=
  match fuel with
  | O => Hang
  | S fuel' =>
      c ← access (digits !! Z.to_nat (i mod base));
      acc ← put_front c buf_len acc;
      let padding := if negb (padding =? 0) then padding - 1 else padding in
      let len := if 0 <? len then len - 1 else len in
      let buf_len := buf_len - 1 in
      let i := i / base in
      if negb (i =? 0) && ((len =? -1) || negb (len =? 0)) && negb (buf_len =? 0)
      then num_digits fuel' digits i base padding len buf_len acc
      else Ok (acc, padding, buf_len)
  end.

Fixpoint num_pad (fuel : nat) (pad_with padding buf_len : Z) (acc : list Z) : outcome (list Z * Z) :=
  if negb (padding =? 0) && negb (buf_len =? 0) then
    match fuel with
    | O => Hang
    | S fuel' =>
        acc ← put_front pad_with buf_len acc;
        num_pad fuel' pad_with (padding - 1) (buf_len - 1) acc
    end
  else Ok (acc, buf_len).

Definition num_fmt (buf_len i base padding pad_with : Z) (handle_signed upper : bool) (len : Z)
    : outcome (list Z) :=
  let neg := (s32 i <? 0) && handle_signed in
  let i := if neg then u32 (- s32 i) else i in
  let digits := if upper then digits_upper else digits_lower in
  '(acc, padding, buf_len) ← num_digits (Z.to_nat buf_len) digits i base padding len buf_len [];
  '(acc, buf_len) ← num_pad (Z.to_nat buf_len) pad_with padding buf_len acc;
  if neg && negb (buf_len =? 0) then put_front 45 buf_len acc else Ok acc.

(** ** The output: what was stored, the space left, and whether [goto end] was taken *)
Record out := Out { stored : list Z; space : Z; ended : bool }.

Definition FMT_PUT (o : out) (c : Z) : out :=
  if ended o then o
  else if space o =? 0 then Out (stored o) 0 true
  else Out (stored o ++ [c mod 256]) (space o - 1) false.

Definition put_all (o : out) (l : list Z) : out := foldl FMT_PUT o l.

(** [va_arg(arg, int)] and [va_arg(arg, long int)], stored in a [uint64_t]. *)
Definition arg_num (wide : bool) (args : list varg) : outcome (Z * list varg) :=
  match args with
  | VInt z :: args' => if wide then Fault else Ok (u64 z, args')
  | VLong z :: args' => if wide then Ok (u64 z, args') else Fault
  | _ => Fault
  end.

(** [while (isdigit(...))]: the padding and the rest of the format. *)
Fixpoint read_padding (fmt : list Z) (padding : Z) : Z * list Z :=
  match fmt with
  | c :: fmt' => if isdigit (s8 c) then read_padding fmt' (s32 (s32 (padding * 10) + (s8 c - 48))) else (padding, fmt)
  | [] => (padding, [])
  end.

Fixpoint read_wide (fmt : list Z) (wide : bool) : bool * list Z :=
  match fmt with
  | c :: fmt' => if c =? 108 then read_wide fmt' true else (wide, fmt)
  | [] => (wide, [])
  end.

(** The [switch] on the conversion character. *)
Definition convert (c padding pad_with : Z) (wide : bool) (o : out) (args : list varg)
    : outcome (out * list varg) :=
  let upper := (c =? 88) || (c =? 80) in
  let number base signed len :=
    '(i, args') ← arg_num wide args;
    l ← num_fmt NUM_BUF_LEN i base padding pad_with signed upper len;
    Ok (put_all o l, args') in
  if c =? 99 then '(i, args') ← arg_num false args; Ok (FMT_PUT o i, args')
  else if c =? 100 then number 10 true (-1)
  else if c =? 117 then number 10 false (-1)
  else if c =? 111 then number 8 false (-1)
  else if (c =? 88) || (c =? 120) then number 16 false (if wide then 16 else 8)
  else if (c =? 80) || (c =? 112) then
    match args with
    | VPtr z :: args' =>
        l ← num_fmt NUM_BUF_LEN (u64 z) 16 padding pad_with false upper 16;
        Ok (put_all o l, args')
    | _ => Fault
    end
  else if c =? 115 then
    match args with
    | VStr l :: args' => Ok (put_all o l, args')
    | _ => Fault
    end
  else if c =? 37 then Ok (FMT_PUT o 37, args)
  else Ok (o, args).

Fixpoint vsnprintf_loop (fuel : nat) (fmt : list Z) (o : out) (args : list varg) : outcome out :=
  match fmt with
  | [] => Ok o
  | c :: fmt1 =>
      if (space o =? 0) || ended o then Ok o
      else
        match fuel with
        | O => Hang
        | S fuel' =>
            if negb (c =? 37) then vsnprintf_loop fuel' fmt1 (Out (stored o ++ [c]) (space o) false) args
            else
              let '(pad_with, fmt2) :=
                match fmt1 with
                | 48 :: fmt' => (48, fmt')
                | _ => (32, fmt1)
                end in
              let '(padding, fmt3) := read_padding fmt2 0 in
              let '(wide, fmt4) := read_wide fmt3 false in
              match fmt4 with
              | [] => Fault
              | d :: fmt5 =>
                  '(o', args') ← convert d padding pad_with wide o args;
                  vsnprintf_loop fuel' fmt5 o' args'
              end
        end
  end.

Definition vsnprintf (len : Z) (fmt : list Z) (args : list varg) : outcome (list Z) :=
  o ← vsnprintf_loop (length fmt) fmt (Out [] len false) args;
  Ok (stored o ++ (if space o =? 0 then [46; 46; 46] else []) ++ [0]).
Definition snprintf := vsnprintf.

(** ** Properties *)

(** The number a list of lower-case or decimal digits stands for in a base. *)
Definition digit_value (c : Z) : Z := if c <=? 57 then c - 48 else if c <=? 70 then c - 55 else c - 87.
Definition number_in (base : Z) (l : list Z) : Z := foldl (λ r c, r * base + digit_value c) 0 l.

Lemma digits_lower_lookup d : 0 ≤ d < 16 → ∃ c, digits_lower !! Z.to_nat d = Some c ∧ digit_value c = d ∧ 48 ≤ c < 128.
Proof.
  intros Hd. destruct (lookup_lt_is_Some_2 digits_lower (Z.to_nat d)) as [c Hc]; [cbn; lia|]. exists c. split; [done|].
  assert (d = Z.of_nat (Z.to_nat d)) as -> by lia. revert Hc. generalize (Z.to_nat d). intros n Hn.
  do 16 (destruct n as [|n]; [injection Hn as <-; by split|]). discriminate.
Qed.

(** What [foldl] over the digits does with what was collected before. *)
Definition value_after (base i : Z) (acc : list Z) : Z := foldl (λ r c, r * base + digit_value c) i acc.

Lemma num_digits_run k fuel i base pad len buf_len acc :
  2 ≤ base ≤ 16 → 0 ≤ pad → 0 ≤ i < base ^ Z.of_nat k → (0 < k ≤ fuel)%nat → Z.of_nat k < buf_len →
  len = -1 ∨ Z.of_nat k ≤ len →
  ∃ l, num_digits fuel digits_lower i base pad len buf_len acc =
      Ok (l ++ acc, Z.max 0 (pad - Z.of_nat (length l)), buf_len - Z.of_nat (length l)) ∧
    (0 < length l ≤ k)%nat ∧ number_in base l = i ∧ Forall (.∈ digits_lower) l.
Proof.
  intros Hb. revert fuel i pad len buf_len acc. induction k as [|k IH]; intros fuel i pad len buf_len acc Hp Hi Hk Hl Hlen; [lia|].
  destruct fuel as [|fuel]; [lia|]. cbn [num_digits].
  destruct (digits_lower_lookup (i mod base)) as (c & Hc & Hv & Hcr).
  { pose proof (Z.mod_pos_bound i base). lia. }
  pose proof (list_elem_of_lookup_2 _ _ _ Hc) as Hin.
  rewrite Hc. cbn [access mbind outcome_bind]. unfold put_front at 1. destruct (Z.leb_spec buf_len 1); [lia|].
  cbn [mbind outcome_bind]. set (len' := if 0 <? len then len - 1 else len).
  set (pad' := if negb (pad =? 0) then pad - 1 else pad).
  assert (pad' = Z.max 0 (pad - 1)) as Hpad' by (subst pad'; destruct (Z.eqb_spec pad 0); cbn; lia).
  pose proof (Z.div_mod i base ltac:(lia)) as Hdm.
  destruct (Z.eqb_spec (i / base) 0) as [Hz|Hz].
  - exists [c]. rewrite Hpad'. split_and!; [done|cbn; lia|cbn; lia| |by apply Forall_singleton]. unfold number_in. cbn. rewrite Hv. lia.
  - cbn [negb andb]. destruct (Z.eqb_spec (buf_len - 1) 0); [lia|]. cbn [negb].
    assert (0 ≤ i / base < base ^ Z.of_nat k) as Hi'.
    { split; [apply Z.div_pos; lia|]. rewrite Nat2Z.inj_succ, Z.pow_succ_r in Hi by lia.
      apply Z.div_lt_upper_bound; lia. }
    assert (0 < k)%nat as Hk0 by (destruct k; [cbn in Hi'; lia|lia]).
    assert (len' = -1 ∨ Z.of_nat k ≤ len') as Hlen'.
    { subst len'. destruct Hlen as [->|Hlen]; [by left|right]. destruct (Z.ltb_spec 0 len); lia. }
    assert ((len' =? -1) || negb (len' =? 0) = true) as ->.
    { destruct Hlen' as [->|Hlen']; [done|]. destruct (Z.eqb_spec len' 0); [lia|]. apply orb_true_r. }
    destruct (IH fuel (i / base) pad' len' (buf_len - 1) (c :: acc) ltac:(lia) Hi') as (l & Hrun & Hll & Hnum & Hr); [lia..|exact Hlen'|].
    cbn [andb]. exists (l ++ [c]). rewrite Hrun, <- app_assoc, length_app. cbn [app length].
    split_and!; [|lia|lia| |apply Forall_app; split; [done|by apply Forall_singleton]].
    { f_equal. f_equal; [f_equal|]; lia. }
    unfold number_in in *. rewrite foldl_app, Hnum. cbn. rewrite Hv. lia.
Qed.

Lemma num_pad_run fuel pad_with pad buf_len acc :
  0 ≤ pad < buf_len → (Z.to_nat pad ≤ fuel)%nat →
  num_pad fuel pad_with pad buf_len acc = Ok (replicate (Z.to_nat pad) pad_with ++ acc, buf_len - pad).
Proof.
  remember (Z.to_nat pad) as n eqn:Hn. revert fuel pad buf_len acc Hn.
  induction n as [|n IH]; intros fuel pad buf_len acc Hn Hp Hf.
  - assert (pad = 0) as -> by lia. destruct fuel; cbn; by rewrite Z.sub_0_r.
  - destruct fuel as [|fuel]; [lia|]. cbn [num_pad].
    rewrite (proj2 (Z.eqb_neq pad 0)), (proj2 (Z.eqb_neq buf_len 0)) by lia. cbn [negb andb].
    unfold put_front. destruct (Z.leb_spec buf_len 1); [lia|]. cbn [mbind outcome_bind].
    rewrite (IH fuel (pad - 1) (buf_len - 1)) by lia. f_equal. f_equal; [|lia].
    rewrite replicate_S_end. by rewrite <- app_assoc.
Qed.

Lemma digits_lower_range l : Forall (.∈ digits_lower) l → Forall (λ c, 48 ≤ c < 128) l.
Proof.
  intros Hl. apply (Forall_impl _ _ _ Hl). intros c Hc. apply list_elem_of_lookup in Hc as [i Hi].
  pose proof (lookup_lt_Some _ _ _ Hi) as Hlt. cbn in Hlt.
  destruct (digits_lower_lookup (Z.of_nat i)) as (c' & Hc' & _ & Hr); [lia|]. rewrite Nat2Z.id in Hc'. congruence.
Qed.

(** [num_fmt] without padding writes the digits of any unsigned 64-bit
    number in bases 8, 10 and up to 16: reading them back gives the number. *)
Theorem num_fmt_value (i base : Z) :
  is_u64 i → 8 ≤ base ≤ 16 →
  ∃ l, num_fmt NUM_BUF_LEN i base 0 32 false false (-1) = Ok l ∧ number_in base l = i ∧
    (0 < length l ≤ 22)%nat.
Proof.
  intros Hi Hb. unfold num_fmt. rewrite andb_false_r.
  destruct (num_digits_run 22 48 i base 0 (-1) 48 []) as (l & Hrun & Hlen & Hnum & _); [lia|lia| |lia|lia|by left|].
  { split; [apply Hi|]. unfold is_u64 in Hi. apply Z.lt_le_trans with (8 ^ 22); [lia|].
    apply Z.pow_le_mono_l. lia. }
  exists l. unfold NUM_BUF_LEN. change (Z.to_nat 48) with 48%nat. rewrite Hrun, app_nil_r.
  cbn [mbind outcome_bind]. split; [|done]. replace (0 `max` _) with 0 by lia. destruct (Z.to_nat _); reflexivity.
Qed.

Lemma num_fmt_value_witness :
  ∃ l, num_fmt NUM_BUF_LEN 0xDEADBEEF 16 0 32 false false (-1) = Ok l ∧ number_in 16 l = 0xDEADBEEF ∧ (0 < length l ≤ 22)%nat.
Proof. apply (num_fmt_value 0xDEADBEEF 16); [unfold is_u64; lia|lia]. Defined.

(** [%lx]: the digits of a 64-bit number. *)
Lemma num_fmt_hex (i : Z) :
  is_u64 i →
  ∃ l, num_fmt NUM_BUF_LEN i 16 0 32 false false 16 = Ok l ∧ number_in 16 l = i ∧
    (0 < length l ≤ 16)%nat ∧ Forall (λ c, 48 ≤ c < 128) l.
Proof.
  intros Hi. unfold num_fmt. rewrite andb_false_r. unfold is_u64 in Hi.
  destruct (num_digits_run 16 48 i 16 0 16 48 []) as (l & Hrun & Hlen & Hnum & Hr%digits_lower_range); [lia|lia|lia|lia|lia|by right|].
  exists l. unfold NUM_BUF_LEN. change (Z.to_nat 48) with 48%nat. rewrite Hrun, app_nil_r.
  cbn [mbind outcome_bind]. split; [|done]. replace (0 `max` _) with 0 by lia. destruct (Z.to_nat _); reflexivity.
Qed.

(** Characters that fit are stored. *)
Lemma put_all_run l st sp :
  chars l → len l ≤ sp → put_all (Out st sp false) l = Out (st ++ l) (sp - len l) false.
Proof.
  revert st sp. induction l as [|c l IH]; intros st sp Hc Hl.
  { cbn. by rewrite app_nil_r, Z.sub_0_r. }
  apply Forall_cons in Hc as [Hc0 Hc]. rewrite len_cons in *. pose proof (len_pos l).
  unfold put_all. cbn [foldl]. change (foldl FMT_PUT) with put_all.
  unfold FMT_PUT at 1. cbn [ended space stored]. rewrite (proj2 (Z.eqb_neq sp 0)) by lia.
  rewrite IH by (done || lia). rewrite Z.mod_small by lia. f_equal; [by rewrite <- app_assoc|lia].
Qed.

(** One ordinary character, and one ["%s"]. *)
Lemma loop_plain fuel c fmt st sp args :
  c ≠ 37 → sp ≠ 0 →
  vsnprintf_loop (S fuel) (c :: fmt) (Out st sp false) args = vsnprintf_loop fuel fmt (Out (st ++ [c]) sp false) args.
Proof.
  intros Hc Hs. cbn [vsnprintf_loop space ended stored]. rewrite (proj2 (Z.eqb_neq sp 0) Hs), (proj2 (Z.eqb_neq c 37) Hc).
  reflexivity.
Qed.

Lemma loop_string fuel fmt st sp l args :
  sp ≠ 0 →
  vsnprintf_loop (S fuel) (37 :: 115 :: fmt) (Out st sp false) (VStr l :: args) =
    vsnprintf_loop fuel fmt (put_all (Out st sp false) l) args.
Proof.
  intros Hs. cbn [vsnprintf_loop space ended stored]. rewrite (proj2 (Z.eqb_neq sp 0) Hs). reflexivity.
Qed.

(** Ordinary characters of the format are stored without being counted:
    a format of [n] characters with no conversion stores all of them and the
    terminator, however small the buffer's length. *)
Theorem vsnprintf_plain (len : Z) (fmt : list Z) (args : list varg) :
  0 < len → Forall (λ c, c ≠ 37) fmt → vsnprintf len fmt args = Ok (fmt ++ [0]).
Proof.
  intros Hl Hf. unfold vsnprintf.
  assert (∀ acc fuel, (length fmt ≤ fuel)%nat →
    vsnprintf_loop fuel fmt (Out acc len false) args = Ok (Out (acc ++ fmt) len false)) as Hloop.
  { induction Hf as [|c fmt Hc Hf IH]; intros acc fuel Hfuel.
    - destruct fuel; cbn; by rewrite app_nil_r.
    - destruct fuel as [|fuel]; [cbn in Hfuel; lia|]. cbn [vsnprintf_loop space ended stored].
      destruct (Z.eqb_spec len 0); [lia|]. destruct (Z.eqb_spec c 37); [done|]. cbn [orb negb].
      rewrite IH by (cbn in Hfuel; lia). by rewrite <- app_assoc. }
  rewrite (Hloop [] (length fmt)) by done. cbn. destruct (Z.eqb_spec len 0); [lia|done].
Qed.

Lemma vsnprintf_plain_witness : vsnprintf 1 [104; 101; 108; 108; 111] [] = Ok [104; 101; 108; 108; 111; 0].
Proof. apply (vsnprintf_plain 1 [104; 101; 108; 108; 111] []); [lia|]. repeat (apply Forall_cons; split; [lia|]). by apply Forall_nil. Defined.

(** Where the conversions differ from what their names say: a padding of
    48 or more stores below the number buffer; a [long] outside the range of
    [int] is printed from its low 32 bits; an [unsigned int] is sign-extended
    to 64 bits before it is printed. *)
Theorem vsnprintf_divergences :
  vsnprintf 100 [37; 52; 56; 100] [VInt 5] = Fault ∧
  vsnprintf 100 [37; 108; 100] [VLong 0x180000000] =
    Ok [45; 50; 49; 52; 55; 52; 56; 51; 54; 52; 56; 0] ∧
  vsnprintf 100 [37; 117] [VInt (-1)] =
    Ok [49; 56; 52; 52; 54; 55; 52; 52; 48; 55; 51; 55; 48; 57; 53; 53; 49; 54; 49; 53; 0].
Proof. split_and!; vm_compute; reflexivity. Qed.
