(* ===== verification/Pmm.v ===== *)
(** * The x86_64 physical memory manager (arch/x86_64/mm/pmm.cpp)

    Physical pages are tracked by a bitmap, one bit per page, set when the
    page is in use. The state also holds the contents of physical memory as
    64-bit words, because [pmm_alloc_ex] clears the page it hands out and the
    page tables of Paging.v live there. The storage of the bitmap itself is a
    field of its own: the list stands for the words from [pmm_bitmap] upwards
    as far as memory is mapped, and an access past its end is a fault. *)
From S2P Require Import Prelude.
From stdpp Require Import base numbers option gmap list.
#[local] Open Scope Z_scope.

Definition PAGE_SIZE : Z := 4096.
Definition VIRT_PHYS_BASE : Z := 0xFFFF800000000000.
Definition PMM_MEMORY_BASE : Z := 0x2000000.
Definition MULTIBOOT_MEMORY_AVAILABLE : Z := 1.

Record multiboot_memory_map_t := MMap {
  mm_size : Z;
  mm_addr : Z;
  mm_len : Z;
  mm_type : Z;
}.

Record pmm := Pmm {
  pmm_bitmap : list Z;
  pmm_bitmap_len : Z;
  pmm_free_pages : Z;
  pmm_total_pages : Z;
  phys : gmap Z Z;
}.

Definition set_bitmap (b : list Z) (s : pmm) : pmm :=
  Pmm b (pmm_bitmap_len s) (pmm_free_pages s) (pmm_total_pages s) (phys s).
Definition set_bitmap_len (n : Z) (s : pmm) : pmm :=
  Pmm (pmm_bitmap s) n (pmm_free_pages s) (pmm_total_pages s) (phys s).
Definition set_free_pages (n : Z) (s : pmm) : pmm :=
  Pmm (pmm_bitmap s) (pmm_bitmap_len s) n (pmm_total_pages s) (phys s).
Definition set_total_pages (n : Z) (s : pmm) : pmm :=
  Pmm (pmm_bitmap s) (pmm_bitmap_len s) (pmm_free_pages s) n (phys s).
Definition set_phys (m : gmap Z Z) (s : pmm) : pmm :=
  Pmm (pmm_bitmap s) (pmm_bitmap_len s) (pmm_free_pages s) (pmm_total_pages s) m.

(** ** Physical memory *)

(** The word at an 8-byte aligned physical address. *)
Definition rd (m : gmap Z Z) (a : Z) : Z := default 0 (m !! a).

(** [memset] of the 4096 bytes from a page-aligned address to 0. *)
Definition zero_page (m : gmap Z Z) (p : Z) : gmap Z Z :=
  foldr (λ i m, <[p + 8 * i := 0]> m) m (seqZ 0 512).

(** ** The bitmap *)

Definition bit_mask (idx : Z) : Z := Z.shiftl 1 (idx mod 64).

Definition pmm_bit_read (bm : list Z) (idx : Z) : outcome bool :=
  w ← access (bm !! Z.to_nat (idx / 64));
  Ok (Z.land w (bit_mask idx) =? bit_mask idx).

(** [idx] cannot reach 2^64: the access faults when it passes the storage. *)
Fixpoint pmm_bit_write (bm : list Z) (idx : Z) (bit : bool) (count : nat) : outcome (list Z) :=
  match count with
  | O => Ok bm
  | S count' =>
      w ← access (bm !! Z.to_nat (idx / 64));
      let w' := if bit then Z.lor w (bit_mask idx)
                else Z.land w (u64 (Z.lnot (bit_mask idx))) in
      pmm_bit_write (<[Z.to_nat (idx / 64) := w']> bm) (idx + 1) bit count'
  end.

Fixpoint pmm_bitmap_is_free (bm : list Z) (idx : Z) (count : nat) : outcome bool :=
  match count with
  | O => Ok true
  | S count' =>
      b ← pmm_bit_read bm idx;
      if b : bool then Ok false else pmm_bitmap_is_free bm (idx + 1) count'
  end.

(** ** Allocation *)

(** The [while] loop of [pmm_alloc_ex]: the index of the first free run among
    the candidates [idx], [idx + alignment], ... below [max_idx]. *)
Fixpoint pmm_search (fuel : nat) (bm : list Z) (idx max_idx alignment : Z) (count : nat)
    : outcome (option Z) :=
  match fuel with
  | O => Hang
  | S fuel' =>
      if idx <? max_idx then
        free ← pmm_bitmap_is_free bm idx count;
        if free : bool then Ok (Some idx)
        else pmm_search fuel' bm (u64 (idx + alignment)) max_idx alignment count
      else Ok None
  end.

Definition pmm_max_idx (s : pmm) (upper : Z) : Z :=
  if upper =? 0 then pmm_bitmap_len s
  else if pmm_bitmap_len s <? upper / PAGE_SIZE then pmm_bitmap_len s
  else upper / PAGE_SIZE.

Definition pmm_alloc_ex (count alignment upper : Z) : M pmm Z := λ s,
  let max_idx := pmm_max_idx s upper in
  match pmm_search (S (Z.to_nat max_idx)) (pmm_bitmap s)
          (PMM_MEMORY_BASE / PAGE_SIZE) max_idx alignment (Z.to_nat count) with
  | Ok None => Ok (0, s)
  | Ok (Some idx) =>
      bm ← pmm_bit_write (pmm_bitmap s) idx true (Z.to_nat count);
      let s := set_bitmap bm s in
      let s := if pmm_total_pages s =? 0 then s
               else set_free_pages (u64 (pmm_free_pages s - count)) s in
      let s := set_phys (zero_page (phys s) (idx * PAGE_SIZE)) s in
      Ok (idx * PAGE_SIZE, s)
  | Panic => Panic
  | Fault => Fault
  | Hang => Hang
  end.

Definition pmm_alloc (count : Z) : M pmm Z := pmm_alloc_ex count 1 0.

Definition pmm_free (mem count : Z) : M pmm () := λ s,
  bm ← pmm_bit_write (pmm_bitmap s) (mem / PAGE_SIZE) false (Z.to_nat count);
  Ok (tt, set_free_pages (u64 (pmm_free_pages s + count)) (set_bitmap bm s)).

Definition arch_mm_alloc_phys (blocks : Z) : M pmm Z := pmm_alloc blocks.
Definition arch_mm_free_phys (mem blocks : Z) : M pmm Z := pmm_free mem blocks;; mret 1.

(** ** Initialisation *)

Definition pmm_find_avail_memory_top (mmap : list multiboot_memory_map_t) : Z :=
  foldl (λ top e,
    if (mm_type e =? MULTIBOOT_MEMORY_AVAILABLE) && (top <? u64 (mm_addr e + mm_len e))
    then u64 (mm_addr e + mm_len e) else top) 0 mmap.

Definition ROUND_UP (n s : Z) : Z := u64 (u64 (n + s - 1) / s * s).
Definition ROUND_DOWN (n s : Z) : Z := n / s * s.
Definition OVERLAPS (a la b lb : Z) : bool := (b <=? a) && (u64 (a + la) <=? u64 (b + lb)).

(** [memset(pmm_bitmap, 0xFF, n)], on the 64-bit words it covers. *)
Definition memset_ff (bm : list Z) (n : Z) : outcome (list Z) :=
  if n <=? 8 * Z.of_nat (length bm)
  then Ok (imap (λ i w, Z.lor w (Z.ones (8 * Z.max 0 (Z.min 8 (n - 8 * Z.of_nat i))))) bm)
  else Fault.

(** What one entry of the memory map does: the pages it gives to the pool. *)
Definition pmm_init_entry (e : multiboot_memory_map_t) : M pmm () := λ s,
  let bitmap_phys := PMM_MEMORY_BASE in
  let bitmap_bytes := pmm_bitmap_len s / 8 in
  if negb (mm_type e =? MULTIBOOT_MEMORY_AVAILABLE) then Ok (tt, s) else
  let start := ROUND_UP (mm_addr e) PAGE_SIZE in
  let len := ROUND_DOWN (mm_len e) PAGE_SIZE in
  if len =? 0 then Ok (tt, s) else
  if u64 (start + len) <? PMM_MEMORY_BASE then Ok (tt, s) else
  let '(start, len) :=
    if start <? PMM_MEMORY_BASE
    then (PMM_MEMORY_BASE, u64 (len - (PMM_MEMORY_BASE - start))) else (start, len) in
  let count := len / PAGE_SIZE in
  if OVERLAPS bitmap_phys bitmap_bytes start len then
    (if start <? bitmap_phys
     then pmm_free start (u64 (start - bitmap_phys) / PAGE_SIZE) else mret tt) s
      ≫= λ '(_, s),
    pmm_free (bitmap_phys + bitmap_bytes) (u64 (len - bitmap_bytes) / PAGE_SIZE) s
  else pmm_free start count s.

Definition bitmap_pages (s : pmm) : Z := (pmm_bitmap_len s / 8 + PAGE_SIZE - 1) / PAGE_SIZE.

Fixpoint pmm_init_entries (mmap : list multiboot_memory_map_t) : M pmm () :=
  match mmap with
  | [] => mret tt
  | e :: mmap' => pmm_init_entry e;; pmm_init_entries mmap'
  end.

Definition pmm_init (mmap : list multiboot_memory_map_t) : M pmm () := λ s,
  let mem_top := pmm_find_avail_memory_top mmap in
  let mem_pages := u32 (u64 (mem_top + PAGE_SIZE - 1) / PAGE_SIZE) in
  let s := set_bitmap_len mem_pages s in
  bm ← memset_ff (pmm_bitmap s) (pmm_bitmap_len s / 8);
  '(_, s) ← pmm_init_entries mmap (set_bitmap bm s);
  let s := set_total_pages (pmm_free_pages s) s in
  bm ← pmm_bit_write (pmm_bitmap s) (PMM_MEMORY_BASE / PAGE_SIZE) true
         (Z.to_nat (bitmap_pages s));
  '(_, s) ← pmm_alloc (bitmap_pages s) (set_bitmap bm s);
  Ok (tt, s).

(** ** The bitmap as a set of used pages *)

Definition used (bm : list Z) (i : Z) : bool :=
  match bm !! Z.to_nat (i / 64) with
  | Some w => Z.testbit w (i mod 64)
  | None => true
  end.

(** The storage covers the pages below [n], and its words are 64-bit. *)
Definition covers (bm : list Z) (n : Z) : Prop :=
  Forall is_u64 bm ∧ n ≤ 64 * Z.of_nat (length bm).

Definition in_run (i n j : Z) : bool := (i <=? j) && (j <? i + n).

Lemma in_run_true i n j : in_run i n j = true ↔ i ≤ j < i + n.
Proof. unfold in_run. lia. Qed.

Lemma bit_mask_pow i : bit_mask i = 2 ^ (i mod 64).
Proof. unfold bit_mask. rewrite Z.shiftl_mul_pow2 by wrap_lia. lia. Qed.

Lemma covers_lookup bm n i :
  covers bm n → 0 ≤ i < n → ∃ w, bm !! Z.to_nat (i / 64) = Some w ∧ is_u64 w.
Proof.
  intros [Hw Hn] Hi. destruct (lookup_lt_is_Some_2 bm (Z.to_nat (i / 64))) as [w Hlk].
  { wrap_lia. }
  exists w. split; [done|]. by eapply Forall_lookup_1.
Qed.

Lemma covers_mono bm n m : covers bm n → m ≤ n → covers bm m.
Proof. intros [??] ?. split; [done|lia]. Qed.

Lemma pmm_bit_read_ok bm n i :
  covers bm n → 0 ≤ i < n → pmm_bit_read bm i = Ok (used bm i).
Proof.
  intros Hc Hi. destruct (covers_lookup _ _ _ Hc Hi) as (w & Hlk & Hw).
  unfold pmm_bit_read, used. rewrite Hlk. cbn. f_equal.
  rewrite bit_mask_pow, land_pow2 by wrap_lia.
  pose proof (Z.pow_pos_nonneg 2 (i mod 64)).
  destruct (Z.testbit w (i mod 64)); [by apply Z.eqb_refl|].
  destruct (Z.eqb_spec 0 (2 ^ (i mod 64))); [wrap_lia|done].
Qed.

(** One step of [pmm_bit_write]. *)
Definition write_bit (bm : list Z) (i : Z) (bit : bool) (w : Z) : list Z :=
  <[Z.to_nat (i / 64) := if bit then Z.lor w (bit_mask i)
                        else Z.land w (u64 (Z.lnot (bit_mask i)))]> bm.

Lemma write_bit_word w i (bit : bool) :
  is_u64 w → is_u64 (if bit then Z.lor w (bit_mask i) else Z.land w (u64 (Z.lnot (bit_mask i)))) ∧
  ∀ k, 0 ≤ k < 64 →
    Z.testbit (if bit then Z.lor w (bit_mask i) else Z.land w (u64 (Z.lnot (bit_mask i)))) k
    = if decide (k = i mod 64) then bit else Z.testbit w k.
Proof.
  intros Hw. rewrite bit_mask_pow.
  assert (0 ≤ 2 ^ (i mod 64) < 2 ^ 64) as Hm.
  { split; [apply Z.pow_nonneg; lia|]. apply Z.pow_lt_mono_r; wrap_lia. }
  destruct bit; split.
  - apply (lor_range _ _ 64); [lia|done..].
  - intros k Hk. rewrite Z.lor_spec, Z.pow2_bits_eqb by wrap_lia.
    case_decide; subst; [rewrite Z.eqb_refl; by destruct (Z.testbit w _)|].
    destruct (Z.eqb_spec (i mod 64) k); [lia|]. apply orb_false_r.
  - split; [apply Z.land_nonneg; left; apply Hw|]. apply lt_pow2_bits; [lia| |].
    { apply Z.land_nonneg. left. apply Hw. }
    intros n Hn. rewrite Z.land_spec, (testbit_high w 64 n); [done|lia|apply Hw|done].
  - intros k Hk. unfold u64. rewrite Z.land_spec, Z.mod_pow2_bits_low, Z.lnot_spec by lia.
    rewrite Z.pow2_bits_eqb by wrap_lia. case_decide; subst.
    + rewrite Z.eqb_refl. apply andb_false_r.
    + destruct (Z.eqb_spec (i mod 64) k); [lia|]. apply andb_true_r.
Qed.

Lemma write_bit_spec bm n i bit w :
  covers bm n → 0 ≤ i < n → bm !! Z.to_nat (i / 64) = Some w →
  covers (write_bit bm i bit w) n ∧ length (write_bit bm i bit w) = length bm ∧
  ∀ j, 0 ≤ j → used (write_bit bm i bit w) j = if decide (j = i) then bit else used bm j.
Proof.
  intros [Hf Hn] Hi Hlk. unfold write_bit.
  pose proof (Forall_lookup_1 _ _ _ _ Hf Hlk) as Hw.
  destruct (write_bit_word w i bit Hw) as [Hw' Hbits]. split_and!.
  - split; [by apply Forall_insert|by rewrite length_insert].
  - by rewrite length_insert.
  - intros j Hj. unfold used. pose proof (lookup_lt_Some _ _ _ Hlk).
    destruct (decide (i / 64 = j / 64)) as [E|E].
    + rewrite <- E, list_lookup_insert_eq by done. rewrite Hlk, Hbits by wrap_lia.
      destruct (decide (j mod 64 = i mod 64)), (decide (j = i)); [done|wrap_lia|wrap_lia|done].
    + rewrite list_lookup_insert_ne by wrap_lia. by rewrite decide_False by congruence.
Qed.

Lemma pmm_bit_write_ok bit n count bm i :
  covers bm n → 0 ≤ i → i + Z.of_nat count ≤ n →
  ∃ bm', pmm_bit_write bm i bit count = Ok bm' ∧ covers bm' n ∧ length bm' = length bm ∧
    ∀ j, 0 ≤ j → used bm' j = if in_run i (Z.of_nat count) j then bit else used bm j.
Proof.
  revert bm i. induction count as [|count IH]; intros bm i Hc Hi Hn; cbn [pmm_bit_write].
  - exists bm. split_and!; [done..|]. intros j Hj. unfold in_run.
    destruct (_ && _) eqn:E; [exfalso; lia|done].
  - destruct (covers_lookup bm n i) as (w & Hlk & Hw); [done|lia|]. rewrite Hlk. cbn.
    destruct (write_bit_spec bm n i bit w) as (Hc' & Hl & Hu); [done|lia|done|].
    fold (write_bit bm i bit w).
    destruct (IH (write_bit bm i bit w) (i + 1)) as (bm' & -> & Hc'' & Hl' & Hu'); [done|lia..|].
    exists bm'. split_and!; [done..|congruence|]. intros j Hj. rewrite Hu', Hu by done.
    unfold in_run. case_decide; repeat case_match; first [done|exfalso; lia].
Qed.

(** ** The search loop *)

Definition run_free (bm : list Z) (i n : Z) : Prop := ∀ j, i ≤ j < i + n → used bm j = false.

(** The bits there are: those of the storage, which goes past the end of the
    bitmap. The scan of a run stops at a used page, or at the end of the
    storage when it comes there first. *)
Definition storage (bm : list Z) : Z := 64 * Z.of_nat (length bm).
Definition blocked (bm : list Z) (i n : Z) : Prop := ∃ j, i ≤ j < i + n ∧ j < storage bm ∧ used bm j = true.
Definition overruns (bm : list Z) (i n : Z) : Prop :=
  0 < n ∧ storage bm < i + n ∧ ∀ j, i ≤ j < storage bm → used bm j = false.

Lemma blocked_not_free bm i n : blocked bm i n → ¬ run_free bm i n.
Proof. intros (j & Hj & _ & Hu) Hf. by rewrite Hf in Hu. Qed.

Lemma used_storage bm j : 0 ≤ j → used bm j = false → j < storage bm.
Proof.
  unfold used, storage. intros Hj. destruct (bm !! Z.to_nat (j / 64)) as [w|] eqn:E; [|done]. intros _.
  apply lookup_lt_Some in E. wrap_lia.
Qed.

Lemma run_free_storage bm i n : 0 ≤ i → 0 < n → run_free bm i n → i + n ≤ storage bm.
Proof. intros Hi Hn Hf. pose proof (used_storage bm (i + n - 1) ltac:(lia) (Hf (i + n - 1) ltac:(lia))). lia. Qed.

Lemma covers_storage bm : Forall is_u64 bm → covers bm (storage bm).
Proof. intros Hw. split; [done|unfold storage; lia]. Qed.

Lemma pmm_bitmap_is_free_cases bm count i :
  Forall is_u64 bm → 0 ≤ i →
  (pmm_bitmap_is_free bm i count = Ok true ∧ run_free bm i (Z.of_nat count)) ∨
  (pmm_bitmap_is_free bm i count = Ok false ∧ blocked bm i (Z.of_nat count)) ∨
  (pmm_bitmap_is_free bm i count = Fault ∧ overruns bm i (Z.of_nat count)).
Proof.
  intros Hw. revert i. induction count as [|count IH]; intros i Hi; cbn [pmm_bitmap_is_free].
  - left. split; [done|]. intros j Hj. lia.
  - destruct (Z.ltb_spec i (storage bm)) as [Hlt|Hge].
    + rewrite (pmm_bit_read_ok bm (storage bm)) by (done || by apply covers_storage). cbn [mbind outcome_bind].
      destruct (used bm i) eqn:E; [right; left; split; [done|]; exists i; split_and!; [lia|lia|done|done]|].
      destruct (IH (i + 1) ltac:(lia)) as [[-> Hf]|[[-> (j & Hj & Hj' & Hu)]|[-> (Hn & Ho & Hf)]]].
      * left. split; [done|]. intros j Hj. destruct (decide (j = i)) as [->|]; [done|apply Hf; lia].
      * right. left. split; [done|]. exists j. split; [lia|done].
      * right. right. split; [done|]. split_and!; [lia|lia|]. intros j Hj.
        destruct (decide (j = i)) as [->|]; [done|apply Hf; lia].
    + right. right. unfold pmm_bit_read.
      assert (bm !! Z.to_nat (i / 64) = None) as -> by (apply lookup_ge_None_2; unfold storage in Hge; wrap_lia).
      split; [done|]. split_and!; [lia..|]. intros j Hj. lia.
Qed.

(** [k] is a candidate of the search from [i]. *)
Definition candidate (i alignment max_idx k : Z) : Prop :=
  i ≤ k < max_idx ∧ (alignment | k - i).

Lemma candidate_step i al mx k :
  1 ≤ al → i ≠ k → candidate i al mx k → candidate (i + al) al mx k.
Proof.
  intros Hal Hne [Hk [q Hq]]. assert (1 ≤ q) by nia. split; [nia|].
  exists (q - 1). lia.
Qed.

Lemma candidate_back i al mx k :
  1 ≤ al → candidate (i + al) al mx k → candidate i al mx k.
Proof. intros Hal [Hk [q Hq]]. split; [lia|]. exists (q + 1). lia. Qed.

(** What the search comes to, for any bitmap. *)
Inductive search_result (bm : list Z) (i al mx count : Z) : outcome (option Z) → Prop :=
| search_found k :
    candidate i al mx k → run_free bm k count →
    (∀ k', candidate i al mx k' → k' < k → blocked bm k' count) → search_result bm i al mx count (Ok (Some k))
| search_none :
    (∀ k', candidate i al mx k' → blocked bm k' count) → search_result bm i al mx count (Ok None)
| search_overrun k :
    candidate i al mx k → overruns bm k count →
    (∀ k', candidate i al mx k' → k' < k → blocked bm k' count) → search_result bm i al mx count Fault
| search_stuck :
    al = 0 → i < mx → blocked bm i count → search_result bm i al mx count Hang.

Lemma search_step bm i al mx count r :
  1 ≤ al → blocked bm i count → search_result bm (i + al) al mx count r → search_result bm i al mx count r.
Proof.
  intros Hal Hb.
  assert (∀ k', candidate i al mx k' → i = k' ∨ candidate (i + al) al mx k') as Hc.
  { intros k' Hk'. destruct (decide (i = k')); [by left|right; by apply candidate_step]. }
  intros [k Hk Hf Hm|Hn|k Hk Ho Hm|]; [..|lia].
  - apply (search_found _ _ _ _ _ k); [by apply candidate_back|done|]. intros k' [<-|Hk']%Hc Hlt; [done|by apply Hm].
  - apply search_none. intros k' [<-|Hk']%Hc; [done|by apply Hn].
  - apply (search_overrun _ _ _ _ _ k); [by apply candidate_back|done|]. intros k' [<-|Hk']%Hc Hlt; [done|by apply Hm].
Qed.

Lemma candidate_self i al mx : i < mx → candidate i al mx i.
Proof. intros. split; [lia|]. exists 0. lia. Qed.

Lemma pmm_search_run bm mx al count fuel i :
  0 ≤ al → mx + al ≤ 2 ^ 64 → 0 ≤ count → Forall is_u64 bm → 0 ≤ i → Z.max 0 (mx - i) < Z.of_nat fuel →
  search_result bm i al mx count (pmm_search fuel bm i mx al (Z.to_nat count)).
Proof.
  intros Hal Hmx Hc Hw. revert i. induction fuel as [|fuel IH]; intros i Hi Hf; [lia|]. cbn [pmm_search].
  destruct (Z.ltb_spec i mx) as [Hlt|Hge]; [|apply search_none; intros k' [? _]; lia].
  pose proof (pmm_bitmap_is_free_cases bm (Z.to_nat count) i Hw Hi) as Hcases. rewrite Z2Nat.id in Hcases by done.
  pose proof (candidate_self i al mx Hlt).
  destruct Hcases as [[-> Hr]|[[-> Hb]|[-> Ho]]]; cbn [mbind outcome_bind].
  - apply (search_found _ _ _ _ _ i); [done|done|]. intros k' [? _]. lia.
  - destruct (decide (al = 0)) as [->|Hne].
    + rewrite Z.add_0_r, u64_small by lia.
      assert (∀ f, pmm_search f bm i mx 0 (Z.to_nat count) = Hang) as ->; [|by apply search_stuck].
      induction f as [|f IHf]; [done|]. cbn [pmm_search]. destruct (Z.ltb_spec i mx); [|lia].
      destruct (pmm_bitmap_is_free_cases bm (Z.to_nat count) i Hw Hi) as [[_ Hr]|[[-> _]|[_ Ho]]]; rewrite ?Z2Nat.id in * by done.
      * by apply blocked_not_free in Hb.
      * cbn [mbind outcome_bind]. by rewrite Z.add_0_r, u64_small by lia.
      * destruct Hb as (j & Hj & Hj' & Hu). destruct Ho as (_ & _ & Ho). by rewrite Ho in Hu by lia.
    + rewrite u64_small by lia. apply search_step; [lia|done|]. apply IH; lia.
  - apply (search_overrun _ _ _ _ _ i); [done|done|]. intros k' [? _]. lia.
Qed.

(** ** What an allocation does *)

(** The state after the run of [count] pages from [idx] has been handed out. *)
Definition allocated (s : pmm) (idx count : Z) (s' : pmm) : Prop :=
  (∀ j, 0 ≤ j → used (pmm_bitmap s') j = in_run idx count j || used (pmm_bitmap s) j) ∧
  length (pmm_bitmap s') = length (pmm_bitmap s) ∧
  Forall is_u64 (pmm_bitmap s') ∧
  pmm_bitmap_len s' = pmm_bitmap_len s ∧
  pmm_total_pages s' = pmm_total_pages s ∧
  pmm_free_pages s' =
    (if pmm_total_pages s =? 0 then pmm_free_pages s else u64 (pmm_free_pages s - count)) ∧
  phys s' = zero_page (phys s) (idx * PAGE_SIZE).

Definition first_page : Z := PMM_MEMORY_BASE / PAGE_SIZE.

(** The four ways in which [pmm_alloc_ex] can go. *)
Inductive alloc_result (s : pmm) (count al mx : Z) : outcome (Z * pmm) → Prop :=
| alloc_found idx s' :
    candidate first_page al mx idx → run_free (pmm_bitmap s) idx count →
    (∀ k, candidate first_page al mx k → k < idx → blocked (pmm_bitmap s) k count) →
    allocated s idx count s' → alloc_result s count al mx (Ok (idx * PAGE_SIZE, s'))
| alloc_none :
    (∀ k, candidate first_page al mx k → blocked (pmm_bitmap s) k count) → alloc_result s count al mx (Ok (0, s))
| alloc_overrun idx :
    candidate first_page al mx idx → overruns (pmm_bitmap s) idx count →
    (∀ k, candidate first_page al mx k → k < idx → blocked (pmm_bitmap s) k count) → alloc_result s count al mx Fault
| alloc_stuck :
    al = 0 → first_page < mx → blocked (pmm_bitmap s) first_page count → alloc_result s count al mx Hang.

Lemma write_free_run bm idx count :
  Forall is_u64 bm → 0 ≤ idx → 0 ≤ count → run_free bm idx count →
  ∃ bm', pmm_bit_write bm idx true (Z.to_nat count) = Ok bm' ∧ Forall is_u64 bm' ∧ length bm' = length bm ∧
    ∀ j, 0 ≤ j → used bm' j = in_run idx count j || used bm j.
Proof.
  intros Hw Hi Hc Hf. destruct (decide (count = 0)) as [->|Hne].
  { exists bm. split_and!; [done..|]. intros j Hj. destruct (in_run idx 0 j) eqn:E; [apply in_run_true in E; lia|done]. }
  pose proof (run_free_storage bm idx count Hi ltac:(lia) Hf).
  destruct (pmm_bit_write_ok true (storage bm) (Z.to_nat count) bm idx) as (bm' & E & [Hw' _] & Hl & Hu);
    [by apply covers_storage|done|lia|]. rewrite Z2Nat.id in Hu by done.
  exists bm'. split_and!; [done..|]. intros j Hj. rewrite Hu by done. by destruct (in_run _ _ _).
Qed.

Lemma pmm_alloc_ex_run s count al upper :
  0 ≤ count → 0 ≤ al → pmm_max_idx s upper + al ≤ 2 ^ 64 → Forall is_u64 (pmm_bitmap s) →
  alloc_result s count al (pmm_max_idx s upper) (pmm_alloc_ex count al upper s).
Proof.
  intros Hc Hal Hmx Hw. unfold pmm_alloc_ex. set (mx := pmm_max_idx s upper) in *.
  pose proof (pmm_search_run (pmm_bitmap s) mx al count (S (Z.to_nat mx)) first_page Hal Hmx Hc Hw) as Hr.
  change (PMM_MEMORY_BASE / PAGE_SIZE) with first_page.
  destruct Hr as [idx Hcand Hfree Hmin|Hno|idx Hcand Ho Hmin|Hz Hlt Hb]; [done|change first_page with 8192; lia|..].
  - assert (0 ≤ idx) as Hi by (destruct Hcand as [Hi _]; change first_page with 8192 in Hi; lia).
    destruct (write_free_run (pmm_bitmap s) idx count Hw Hi Hc Hfree) as (bm' & -> & Hw' & Hl & Hu). cbn [mbind outcome_bind].
    apply (alloc_found _ _ _ _ idx); [done..|]. unfold allocated. cbn.
    destruct (pmm_total_pages s =? 0); cbn; by split_and!.
  - by apply alloc_none.
  - by apply (alloc_overrun _ _ _ _ idx).
  - by apply alloc_stuck.
Qed.

(** When the storage covers every candidate's run, it is found or there is none. *)
Lemma pmm_alloc_ex_cases s count al upper :
  0 ≤ count → 1 ≤ al → pmm_max_idx s upper + al ≤ 2 ^ 64 →
  covers (pmm_bitmap s) (pmm_max_idx s upper + count) →
  let mx := pmm_max_idx s upper in
  (∃ idx s', pmm_alloc_ex count al upper s = Ok (idx * PAGE_SIZE, s') ∧
     candidate first_page al mx idx ∧ run_free (pmm_bitmap s) idx count ∧
     (∀ k, candidate first_page al mx k → k < idx → ¬ run_free (pmm_bitmap s) k count) ∧
     allocated s idx count s')
  ∨ (pmm_alloc_ex count al upper s = Ok (0, s) ∧
     ∀ k, candidate first_page al mx k → ¬ run_free (pmm_bitmap s) k count).
Proof.
  intros Hc Hal Hmx [Hw Hn] mx.
  destruct (pmm_alloc_ex_run s count al upper Hc ltac:(lia) Hmx Hw) as [idx s' Hcand Hf Hm Ha|Hno|idx [Hi _] Ho _|]; [| | |lia].
  - left. exists idx, s'. split_and!; [done..| |done]. intros k Hk Hlt. by apply blocked_not_free, Hm.
  - right. split; [done|]. intros k Hk. by apply blocked_not_free, Hno.
  - exfalso. destruct Ho as (_ & Ho & _). unfold storage in Ho. lia.
Qed.

(** ** Counting free pages *)

Fixpoint count_clear (u : Z → bool) (l : list Z) : Z :=
  match l with
  | [] => 0
  | j :: l' => (if u j then 0 else 1) + count_clear u l'
  end.

(** The clear bits of the storage. *)
Definition clear_pages (bm : list Z) : Z := count_clear (used bm) (seqZ 0 (storage bm)).

Lemma count_clear_app u l1 l2 : count_clear u (l1 ++ l2) = count_clear u l1 + count_clear u l2.
Proof. induction l1 as [|j l1 IH]; cbn; [done|rewrite IH; lia]. Qed.

Lemma count_clear_ext u v l : (∀ j, j ∈ l → u j = v j) → count_clear u l = count_clear v l.
Proof.
  induction l as [|j l IH]; intros H; cbn; [done|].
  rewrite (H j), IH; [done| |]; intros; [apply H|]; set_solver.
Qed.

Lemma count_clear_const u (b : bool) l :
  (∀ j, j ∈ l → u j = b) → count_clear u l = if b then 0 else Z.of_nat (length l).
Proof.
  induction l as [|j l IH]; intros H; cbn -[Z.of_nat]; [by destruct b|].
  rewrite (H j), IH; [destruct b; lia| |]; intros; [apply H|]; set_solver.
Qed.

Lemma count_clear_bounds u l : 0 ≤ count_clear u l ≤ Z.of_nat (length l).
Proof. induction l as [|j l IH]; cbn -[Z.of_nat]; [done|]. destruct (u j); lia. Qed.

Lemma seqZ_split n i c :
  0 ≤ i → 0 ≤ c → i + c ≤ n → seqZ 0 n = seqZ 0 i ++ seqZ i c ++ seqZ (i + c) (n - (i + c)).
Proof.
  intros. replace n with (i + (c + (n - (i + c)))) at 1 by lia.
  rewrite seqZ_app, Z.add_0_l, seqZ_app by lia. done.
Qed.

(** Changing a run from [b] to [negb b] moves its length between the counts. *)
Lemma count_clear_run u v n i c (b : bool) :
  0 ≤ i → 0 ≤ c → i + c ≤ n →
  (∀ j, i ≤ j < i + c → u j = b) →
  (∀ j, 0 ≤ j → v j = if in_run i c j then negb b else u j) →
  count_clear v (seqZ 0 n) = count_clear u (seqZ 0 n) + (if b then c else - c).
Proof.
  intros Hi Hc Hn Hu Hv. rewrite (seqZ_split n i c), !count_clear_app by done.
  rewrite (count_clear_ext v u (seqZ 0 i)), (count_clear_ext v u (seqZ (i + c) _)).
  2,3: intros j Hj; apply elem_of_seqZ in Hj; rewrite Hv by lia;
    destruct (in_run i c j) eqn:E; [apply in_run_true in E; lia|done].
  rewrite (count_clear_const u b (seqZ i c)), (count_clear_const v (negb b) (seqZ i c)), length_seqZ.
  - destruct b; cbn [negb]; lia.
  - intros j Hj. apply elem_of_seqZ in Hj. rewrite Hv by lia.
    by rewrite (proj2 (in_run_true i c j)) by lia.
  - intros j Hj. apply elem_of_seqZ in Hj. apply Hu. lia.
Qed.

Lemma count_clear_run_le u n i c :
  0 ≤ i → 0 ≤ c → i + c ≤ n → (∀ j, i ≤ j < i + c → u j = false) →
  c ≤ count_clear u (seqZ 0 n).
Proof.
  intros Hi Hc Hn Hu. rewrite (seqZ_split n i c), !count_clear_app by done.
  rewrite (count_clear_const u false (seqZ i c)), length_seqZ.
  - pose proof (count_clear_bounds u (seqZ 0 i)).
    pose proof (count_clear_bounds u (seqZ (i + c) (n - (i + c)))). lia.
  - intros j Hj. apply elem_of_seqZ in Hj. apply Hu. lia.
Qed.

(** ** Freeing *)

Lemma pmm_free_ok s mem count n :
  0 ≤ mem → 0 ≤ count → covers (pmm_bitmap s) n → mem / PAGE_SIZE + count ≤ n →
  ∃ bm', pmm_free mem count s =
      Ok (tt, set_free_pages (u64 (pmm_free_pages s + count)) (set_bitmap bm' s)) ∧
    covers bm' n ∧ length bm' = length (pmm_bitmap s) ∧
    ∀ j, 0 ≤ j → used bm' j = negb (in_run (mem / PAGE_SIZE) count j) && used (pmm_bitmap s) j.
Proof.
  intros Hm Hc Hcov Hn. unfold pmm_free.
  assert (0 ≤ mem / PAGE_SIZE) by (apply Z.div_pos; done).
  destruct (pmm_bit_write_ok false n (Z.to_nat count) (pmm_bitmap s) (mem / PAGE_SIZE))
    as (bm' & -> & Hc' & Hl & Hu); [done|lia..|].
  exists bm'. split_and!; [done..|]. intros j Hj. rewrite Hu, Z2Nat.id by done.
  by destruct (in_run _ _ _).
Qed.

(** A pool after initialisation: the words of its storage, and a total. *)
Record pool_ok (s : pmm) : Prop := {
  pool_words : Forall is_u64 (pmm_bitmap s);
  pool_small : storage (pmm_bitmap s) < 2 ^ 64;
  pool_total : pmm_total_pages s ≠ 0;
}.

(** Allocations that return, and frees of pages that are in use. *)
Inductive pmm_step : pmm → pmm → Prop :=
| step_alloc s count al upper a s' :
    0 ≤ count → 0 ≤ al → pmm_max_idx s upper + al ≤ 2 ^ 64 →
    pmm_alloc_ex count al upper s = Ok (a, s') → pmm_step s s'
| step_free s mem count s' :
    0 ≤ mem → 0 ≤ count → mem / PAGE_SIZE + count ≤ storage (pmm_bitmap s) →
    (∀ j, mem / PAGE_SIZE ≤ j < mem / PAGE_SIZE + count → used (pmm_bitmap s) j = true) →
    pmm_free mem count s = Ok (tt, s') → pmm_step s s'.

Lemma clear_pages_bounds bm : 0 ≤ clear_pages bm ≤ storage bm.
Proof.
  pose proof (count_clear_bounds (used bm) (seqZ 0 (storage bm))). rewrite length_seqZ in *. unfold clear_pages, storage in *. lia.
Qed.

(** How far the counter is from the number of clear bits. *)
Definition miscount (s : pmm) : Z := pmm_free_pages s - clear_pages (pmm_bitmap s).

(** An operation that moves the counter and the clear bits by the same amount. *)
Lemma miscount_moved s s' d :
  pmm_free_pages s' = u64 (pmm_free_pages s + d) → clear_pages (pmm_bitmap s') = clear_pages (pmm_bitmap s) + d →
  storage (pmm_bitmap s') < 2 ^ 64 →
  u64 (miscount s') = u64 (miscount s) ∧ (miscount s = 0 → miscount s' = 0).
Proof.
  unfold miscount. intros Ef Ec Hn. pose proof (clear_pages_bounds (pmm_bitmap s')). rewrite Ef, Ec in *. split.
  - unfold u64. rewrite Zminus_mod_idemp_l. f_equal. lia.
  - intros Hz. replace (pmm_free_pages s + d) with (clear_pages (pmm_bitmap s) + d) by lia. rewrite u64_small; lia.
Qed.

Lemma pmm_step_miscount s s' :
  pmm_step s s' → pool_ok s → pool_ok s' ∧ u64 (miscount s') = u64 (miscount s) ∧ (miscount s = 0 → miscount s' = 0).
Proof.
  intros [s0 count al upper a s1 Hc Hal Hmx Ha|s0 mem count s1 Hm Hc Hn Hu Hf] [Hw Hsm Ht].
  - pose proof (pmm_alloc_ex_run s0 count al upper Hc Hal Hmx Hw) as Hr. rewrite Ha in Hr.
    inversion Hr as [idx s2 [Hi _] Hfree _ (Hu & Hl & Hw' & _ & Ht' & Hfp & _) E|Hno E| |]; subst; [|done].
    assert (storage (pmm_bitmap s1) = storage (pmm_bitmap s0)) as Es by (unfold storage; by rewrite Hl).
    split; [split; [done|by rewrite Es|by rewrite Ht']|]. change first_page with 8192 in Hi.
    apply (miscount_moved s0 s1 (- count)); [|unfold clear_pages; rewrite Es|by rewrite Es].
    + rewrite Hfp. by destruct (Z.eqb_spec (pmm_total_pages s0) 0).
    + destruct (decide (count = 0)) as [->|Hne].
      { rewrite Z.add_0_r. apply count_clear_ext. intros j Hj%elem_of_seqZ. rewrite Hu by lia. unfold in_run.
        destruct (_ && _) eqn:E; [lia|done]. }
      pose proof (run_free_storage _ idx count ltac:(lia) ltac:(lia) Hfree).
      apply (count_clear_run (used (pmm_bitmap s0)) _ _ idx count false);
        [lia|done|lia|done|intros j Hj; rewrite Hu by done; by destruct (in_run _ _ _)].
  - destruct (pmm_free_ok s0 mem count (storage (pmm_bitmap s0))) as (bm' & He & [Hw' _] & Hl & Hb); [done|done|by apply covers_storage|done|].
    rewrite He in Hf. injection Hf as <-. assert (0 ≤ mem / PAGE_SIZE) by (by apply Z.div_pos).
    assert (storage bm' = storage (pmm_bitmap s0)) as Es by (unfold storage; by rewrite Hl).
    split; [split; [done|cbn; by rewrite Es|done]|]. apply (miscount_moved s0 _ count); cbn; [done| |by rewrite Es].
    unfold clear_pages. rewrite Es. apply (count_clear_run (used (pmm_bitmap s0)) _ _ (mem / PAGE_SIZE) count true);
      [done|done|done|done|intros j Hj; rewrite Hb by done; by destruct (in_run _ _ _)].
Qed.

(** ** Initialisation *)

(** The start of a region is rounded up to a page, and its length down, each
    on its own: a region that does not start on a page boundary can end up to this many bytes
    further than it does. *)
Definition round_gap (e : multiboot_memory_map_t) : Z := (- mm_addr e) mod PAGE_SIZE.

(** The page [j] lies in the available region [e], up to the rounding of its
    end, above the managed base. *)
Definition page_of_region (e : multiboot_memory_map_t) (j : Z) : Prop :=
  mm_type e = MULTIBOOT_MEMORY_AVAILABLE ∧ first_page ≤ j ∧
  mm_addr e ≤ j * PAGE_SIZE ∧ (j + 1) * PAGE_SIZE ≤ mm_addr e + mm_len e + round_gap e.

(** An available region ends below 16 TiB, where the number of a page takes 32
    bits; nothing is asked of the others. *)
Definition region_ok (e : multiboot_memory_map_t) : Prop :=
  mm_type e = MULTIBOOT_MEMORY_AVAILABLE →
  0 ≤ mm_addr e ∧ 0 ≤ mm_len e ∧ mm_addr e + mm_len e ≤ 2 ^ 44 - PAGE_SIZE.

(** Its pages are among the first [n]. *)
Definition region_below (n : Z) (e : multiboot_memory_map_t) : Prop :=
  mm_type e = MULTIBOOT_MEMORY_AVAILABLE → (mm_addr e + round_gap e) / PAGE_SIZE + mm_len e / PAGE_SIZE ≤ n.

Lemma pmm_free_region s n start count (e : multiboot_memory_map_t) :
  covers (pmm_bitmap s) n →
  PMM_MEMORY_BASE ≤ start → 0 ≤ count → mm_type e = MULTIBOOT_MEMORY_AVAILABLE →
  mm_addr e ≤ start / PAGE_SIZE * PAGE_SIZE →
  (start / PAGE_SIZE + count) * PAGE_SIZE ≤ mm_addr e + mm_len e + round_gap e →
  start / PAGE_SIZE + count ≤ n →
  ∃ s', pmm_free start count s = Ok (tt, s') ∧
    pmm_bitmap_len s' = pmm_bitmap_len s ∧ covers (pmm_bitmap s') n ∧
    ∀ j, 0 ≤ j → used (pmm_bitmap s') j = false →
      used (pmm_bitmap s) j = false ∨ page_of_region e j.
Proof.
  unfold PAGE_SIZE, PMM_MEMORY_BASE. intros Hcov Hs Hc Ht Ha He Hn.
  destruct (pmm_free_ok s start count n) as (bm' & -> & Hc' & Hl & Hu);
    [lia|done|done|done|].
  eexists. split_and!; [done|done|done|]. cbn. intros j Hj. rewrite Hu by done.
  destruct (in_run _ _ j) eqn:E; cbn; [|by left]. intros _. right.
  apply in_run_true in E. unfold page_of_region, PAGE_SIZE in *.
  change first_page with 8192. split_and!; [done|wrap_lia|lia|lia].
Qed.

Lemma round_gap_spec e : 0 ≤ round_gap e < PAGE_SIZE ∧ (mm_addr e + round_gap e) mod PAGE_SIZE = 0.
Proof. unfold round_gap, PAGE_SIZE. wrap_lia. Qed.

Lemma pmm_init_entry_ok n e s :
  region_ok e → region_below n e → covers (pmm_bitmap s) n → 0 ≤ pmm_bitmap_len s →
  pmm_bitmap_len s + PMM_MEMORY_BASE < 2 ^ 64 →
  ∃ s', pmm_init_entry e s = Ok (tt, s') ∧
    pmm_bitmap_len s' = pmm_bitmap_len s ∧ covers (pmm_bitmap s') n ∧
    ∀ j, 0 ≤ j → used (pmm_bitmap s') j = false →
      used (pmm_bitmap s) j = false ∨ page_of_region e j.
Proof.
  unfold region_ok, region_below, PAGE_SIZE, PMM_MEMORY_BASE. intros Hok Hn Hcov Hlen Hlen'.
  assert (∃ s', Ok (tt, s) = Ok (tt, s') ∧ pmm_bitmap_len s' = pmm_bitmap_len s ∧
    covers (pmm_bitmap s') n ∧ ∀ j, 0 ≤ j → used (pmm_bitmap s') j = false →
      used (pmm_bitmap s) j = false ∨ page_of_region e j) as Hskip.
  { exists s. split_and!; [done..|by left]. }
  unfold pmm_init_entry, ROUND_UP, ROUND_DOWN, OVERLAPS, PAGE_SIZE, PMM_MEMORY_BASE.
  destruct (Z.eqb_spec (mm_type e) MULTIBOOT_MEMORY_AVAILABLE) as [Ht|]; cbn [negb]; [|exact Hskip].
  destruct (Hok Ht) as (Ha & Hl & Hb). specialize (Hn Ht). destruct (round_gap_spec e) as [Hg Hgm].
  replace (u64 (u64 (mm_addr e + 4096 - 1) / 4096 * 4096)) with (mm_addr e + round_gap e) by (unfold PAGE_SIZE in *; wrap_lia).
  set (a0 := mm_addr e + round_gap e) in *.
  destruct (Z.eqb_spec (mm_len e / 4096 * 4096) 0); [exact Hskip|].
  rewrite u64_small by (unfold PAGE_SIZE in *; wrap_lia).
  destruct (Z.ltb_spec (a0 + mm_len e / 4096 * 4096) 33554432); [exact Hskip|].
  set (start := if a0 <? 33554432 then 33554432 else a0).
  set (len := if a0 <? 33554432
              then u64 (mm_len e / 4096 * 4096 - (33554432 - a0)) else mm_len e / 4096 * 4096).
  assert ((if a0 <? 33554432
    then (33554432, u64 (mm_len e / 4096 * 4096 - (33554432 - a0)))
    else (a0, mm_len e / 4096 * 4096)) = (start, len)) as ->.
  { subst start len. by destruct (a0 <? 33554432). }
  assert (33554432 ≤ start ∧ a0 ≤ start ∧ start mod 4096 = 0 ∧ 0 ≤ len ∧ len mod 4096 = 0 ∧
    start + len ≤ a0 + mm_len e / 4096 * 4096) as (Hs1 & Hs2 & Hs3 & Hs4 & Hs4' & Hs5).
  { subst start len. unfold PAGE_SIZE in *. destruct (Z.ltb_spec a0 33554432); [rewrite u64_small|]; wrap_lia. }
  assert (a0 + mm_len e / 4096 * 4096 ≤ mm_addr e + mm_len e + round_gap e) as Hs6 by (subst a0; wrap_lia).
  assert (a0 + mm_len e / 4096 * 4096 ≤ n * 4096) as Hs7 by (unfold PAGE_SIZE in *; wrap_lia).
  assert (mm_addr e ≤ a0) as Hs8 by (subst a0; lia). assert (a0 + mm_len e < 2 ^ 45) as Hs9 by (subst a0; unfold PAGE_SIZE in *; lia).
  clearbody start len. clear Hn Hg Hgm Hb. clearbody a0.
  destruct ((start <=? 33554432) && _) eqn:Hov.
  - apply andb_prop in Hov as [Hle Hin]. case_bool.
    rewrite !u64_small in Hin by wrap_lia.
    destruct (Z.ltb_spec start 33554432); [lia|].
    cbn [mbind outcome_bind mret M_ret].
    rewrite u64_small by wrap_lia.
    apply pmm_free_region; unfold PAGE_SIZE, PMM_MEMORY_BASE; first [done | wrap_lia].
  - apply pmm_free_region; unfold PAGE_SIZE, PMM_MEMORY_BASE; first [done | wrap_lia].
Qed.

Lemma pmm_init_entries_ok n mmap s :
  Forall region_ok mmap → Forall (region_below n) mmap → covers (pmm_bitmap s) n → 0 ≤ pmm_bitmap_len s →
  pmm_bitmap_len s + PMM_MEMORY_BASE < 2 ^ 64 →
  ∃ s', pmm_init_entries mmap s = Ok (tt, s') ∧
    pmm_bitmap_len s' = pmm_bitmap_len s ∧ covers (pmm_bitmap s') n ∧
    ∀ j, 0 ≤ j → used (pmm_bitmap s') j = false →
      used (pmm_bitmap s) j = false ∨ ∃ e, e ∈ mmap ∧ page_of_region e j.
Proof.
  intros Hr. revert s. induction Hr as [|e mmap He Hr IH]; intros s Hb Hc Hl Hl'; cbn.
  - exists s. split_and!; [done..|by left].
  - apply Forall_cons in Hb as [Hbe Hb].
    destruct (pmm_init_entry_ok n e s) as (s1 & H1 & Hl1 & Hc1 & Hu1); [done..|].
    cbv [mbind M_bind]. rewrite H1.
    destruct (IH s1) as (s2 & -> & Hl2 & Hc2 & Hu2); [done|done|lia..|].
    exists s2. split_and!; [done|lia|done|]. intros j Hj H.
    destruct (Hu2 j Hj H) as [H'|(e' & ? & ?)]; [|right; exists e'; set_solver].
    destruct (Hu1 j Hj H') as [?|?]; [by left|right; exists e; set_solver].
Qed.

Lemma memset_ff_ok bm n m :
  covers bm m → 0 ≤ n → 8 * n ≤ m →
  ∃ bm', memset_ff bm n = Ok bm' ∧ covers bm' m ∧
    (∀ j, 0 ≤ j < 8 * n → used bm' j = true) ∧ ∀ j, 0 ≤ j → used bm' j = false → used bm j = false.
Proof.
  intros [Hw Hm] Hn Hnm. unfold memset_ff. destruct (Z.leb_spec n (8 * Z.of_nat (length bm))); [|lia].
  eexists. split; [done|]. split; [split|split].
  - apply Forall_lookup_2. intros i w. rewrite list_lookup_imap.
    destruct (bm !! i) as [w0|] eqn:E; cbn; [|done]. intros [= <-].
    apply (lor_range _ _ 64); [lia|exact (Forall_lookup_1 _ _ _ _ Hw E)|].
    rewrite Z.ones_equiv. set (k := 8 * _). assert (0 ≤ k ≤ 64) by lia.
    pose proof (Z.pow_le_mono_r 2 k 64). pose proof (Z.pow_pos_nonneg 2 k). lia.
  - rewrite length_imap. lia.
  - intros j Hj. unfold used. rewrite list_lookup_imap.
    destruct (covers_lookup bm m j) as (w & -> & _); [by split|lia|]. cbn.
    rewrite Z.lor_spec, (Z.ones_spec_low _ (j mod 64)); [apply orb_true_r|]. wrap_lia.
  - intros j Hj. unfold used. rewrite list_lookup_imap. destruct (bm !! Z.to_nat (j / 64)) as [w|]; cbn; [|done].
    rewrite Z.lor_spec. by intros [? _]%orb_false_iff.
Qed.

Definition pmm_mem_pages (mmap : list multiboot_memory_map_t) : Z :=
  u32 (u64 (pmm_find_avail_memory_top mmap + PAGE_SIZE - 1) / PAGE_SIZE).

(** The storage of the bitmap holds every page of the map, and the run that
    [pmm_init] sets aside at the end. *)
Definition storage_ok (mmap : list multiboot_memory_map_t) (s : pmm) : Prop :=
  let len := pmm_mem_pages mmap in
  Forall is_u64 (pmm_bitmap s) ∧ Forall region_ok mmap ∧
  Z.max len first_page + (len / 8 + PAGE_SIZE - 1) / PAGE_SIZE ≤ storage (pmm_bitmap s).

(** The top of memory is the end of the highest available region. *)
Lemma avail_top_fold mmap top :
  Forall region_ok mmap → 0 ≤ top ≤ 2 ^ 44 - PAGE_SIZE →
  let t := foldl (λ top e,
    if (mm_type e =? MULTIBOOT_MEMORY_AVAILABLE) && (top <? u64 (mm_addr e + mm_len e))
    then u64 (mm_addr e + mm_len e) else top) top mmap in
  top ≤ t ≤ 2 ^ 44 - PAGE_SIZE ∧ ∀ e, e ∈ mmap → mm_type e = MULTIBOOT_MEMORY_AVAILABLE → mm_addr e + mm_len e ≤ t.
Proof.
  intros Hr. revert top. induction Hr as [|e mmap He _ IH]; intros top Ht; cbn [foldl].
  { split; [lia|]. intros e He. by apply elem_of_nil in He. }
  set (top' := if _ && _ then _ else top).
  assert (top ≤ top' ≤ 2 ^ 44 - PAGE_SIZE ∧ (mm_type e = MULTIBOOT_MEMORY_AVAILABLE → mm_addr e + mm_len e ≤ top')) as [Ht' He'].
  { subst top'. destruct (Z.eqb_spec (mm_type e) MULTIBOOT_MEMORY_AVAILABLE) as [Ha|Ha]; cbn [andb]; [|by split; [lia|]].
    destruct (He Ha) as (? & ? & ?). unfold PAGE_SIZE in *. rewrite u64_small by lia.
    destruct (Z.ltb_spec top (mm_addr e + mm_len e)); lia. }
  destruct (IH top' ltac:(lia)) as [Hb Hin]. split; [lia|]. intros e' [->|He'']%elem_of_cons Ha; [|by apply Hin].
  specialize (He' Ha). lia.
Qed.

Lemma avail_below mmap : Forall region_ok mmap → Forall (region_below (pmm_mem_pages mmap)) mmap.
Proof.
  intros Hr. destruct (avail_top_fold mmap 0 Hr) as [Ht Hin]; [unfold PAGE_SIZE; lia|]. cbn zeta in Ht, Hin.
  fold (pmm_find_avail_memory_top mmap) in Ht, Hin. unfold pmm_mem_pages, PAGE_SIZE in *.
  rewrite u64_small, u32_small by wrap_lia.
  apply Forall_forall. intros e He Ha. specialize (Hin e He Ha). rewrite Forall_forall in Hr. destruct (Hr e He Ha) as (? & ? & _).
  unfold round_gap, PAGE_SIZE. wrap_lia.
Qed.

(** C38. For any memory map whose available regions end below 16 TiB, and a
    storage large enough for the bitmap, [pmm_init] returns, and a page that it leaves
    free is not one of the bitmap's, and lies above [PMM_MEMORY_BASE] in one of the available
    regions, except for two things. When a region does not start on a page boundary, its end is taken
    [round_gap] bytes further, so that a page at its end may lie partly outside. And [memset] covers
    whole bytes only: of the last up to seven pages of the bitmap, and of what follows it in its storage, those stay
    free whose bit was clear in memory before. *)
Theorem pmm_init_safe (mmap : list multiboot_memory_map_t) (s : pmm) :
  storage_ok mmap s →
  ∃ s', pmm_init mmap s = Ok (tt, s') ∧ pmm_bitmap_len s' = pmm_mem_pages mmap ∧ Forall is_u64 (pmm_bitmap s') ∧
    ∀ j, 0 ≤ j → used (pmm_bitmap s') j = false →
      in_run first_page (bitmap_pages s') j = false ∧
      ((∃ e, e ∈ mmap ∧ page_of_region e j) ∨
       (8 * (pmm_mem_pages mmap / 8) ≤ j ∧ used (pmm_bitmap s) j = false)).
Proof.
  unfold storage_ok, bitmap_pages, PAGE_SIZE. intros (Hw & Hr & Hn). set (n := storage (pmm_bitmap s)) in *.
  pose proof (avail_below mmap Hr) as Hbl. set (len := pmm_mem_pages mmap) in *.
  assert (0 ≤ len < 2 ^ 32) as Hlen by (subst len; apply u32_range).
  assert (first_page = 8192) as Hfp by done.
  unfold pmm_init. fold (pmm_mem_pages mmap). fold len. cbn [pmm_bitmap pmm_bitmap_len set_bitmap_len].
  destruct (memset_ff_ok (pmm_bitmap s) (len / 8) n) as (bm0 & -> & Hc0 & Hu0 & Hold);
    [by apply covers_storage|wrap_lia..|]. cbn [mbind outcome_bind].
  edestruct (pmm_init_entries_ok n mmap) as (s1 & -> & Hl1 & Hc1 & Hu1);
    [done|eapply Forall_impl; [exact Hbl|intros e He Ha; specialize (He Ha); wrap_lia]|exact Hc0|cbn; unfold PMM_MEMORY_BASE; lia..|].
  cbn in Hl1, Hu1 |- *.
  cbn [pmm_bitmap_len set_total_pages]. unfold bitmap_pages, PAGE_SIZE. cbn [pmm_bitmap_len set_total_pages]. rewrite Hl1.
  set (bp := (len / 8 + 4096 - 1) / 4096) in *.
  assert (0 ≤ bp ≤ len) by (subst bp; wrap_lia).
  destruct (pmm_bit_write_ok true n (Z.to_nat bp) (pmm_bitmap s1) first_page)
    as (bm2 & Hbw & Hc2 & Hl2 & Hu2); [done|lia..|].
  change (PMM_MEMORY_BASE / 4096) with first_page.
  rewrite Hbw. cbn [mbind outcome_bind]. rewrite Z2Nat.id in Hu2 by lia.
  assert (∀ j, 0 ≤ j → used bm2 j = false → in_run first_page bp j = false ∧
    ((∃ e, e ∈ mmap ∧ page_of_region e j) ∨ (8 * (len / 8) ≤ j ∧ used (pmm_bitmap s) j = false))) as Hfree.
  { intros j Hj Hf. rewrite Hu2 in Hf by lia. destruct (in_run first_page bp j); [done|]. split; [done|].
    destruct (Hu1 j Hj Hf) as [Hf0|]; [right|by left]. split; [|by apply Hold].
    destruct (decide (j < 8 * (len / 8))); [|lia]. rewrite Hu0 in Hf0; [done|lia]. }
  set (s2 := set_bitmap bm2 (set_total_pages (pmm_free_pages s1) s1)).
  destruct (pmm_alloc_ex_cases s2 bp 1 0) as [(idx & s3 & He & _ & _ & _ & Hal)|[He _]];
    [lia|lia|cbn; lia|cbn; eapply covers_mono; [exact Hc2|lia]| |];
    unfold pmm_alloc; rewrite He; cbn [mbind outcome_bind].
  - destruct Hal as (Hu3 & _ & Hw3 & Hl3 & _). exists s3. rewrite Hl3. cbn. rewrite Hl1. fold bp. split_and!; [done..|].
    intros j Hj Hf. rewrite Hu3 in Hf by lia. apply orb_false_iff in Hf as [_ Hf]. by apply Hfree.
  - exists s2. cbn. rewrite Hl1. fold bp. split_and!; [done|done|apply Hc2|done].
Qed.

(** A machine with eight pages of memory above the base, before [pmm_init]. *)
Definition demo_mmap : list multiboot_memory_map_t :=
  [MMap 20 0 0x9FC00 1; MMap 20 0x9FC00 0x60400 2; MMap 20 0x100000 0x1F08000 1].
Definition demo_boot : pmm := Pmm (replicate 129 (2 ^ 64 - 1)) 64 0 0 ∅.

Lemma pmm_init_safe_witness :
  storage_ok demo_mmap demo_boot ∧ ∃ s', pmm_init demo_mmap demo_boot = Ok (tt, s').
Proof.
  assert (storage_ok demo_mmap demo_boot) as H.
  { split_and!.
    - apply Forall_replicate. unfold is_u64. lia.
    - repeat (apply Forall_cons; split); [..|by apply Forall_nil]; vm_compute; intuition congruence.
    - vm_compute. congruence. }
  split; [exact H|]. destruct (pmm_init_safe demo_mmap demo_boot H) as (s' & Hs' & _). by exists s'.
Defined.

(** Two regions, the second from the middle of a page to the middle of another. *)
Definition demo_odd : list multiboot_memory_map_t := [MMap 20 0x100000 0x1F01000 1; MMap 20 0x2002C00 0x2000 1].
Definition demo_leaves_free (i : Z) (bm : list Z) : option bool :=
  value ((pmm_init demo_odd;; s ← get_st; mret (negb (used (pmm_bitmap s) i))) (Pmm bm 64 0 0 ∅)).

(** The page at 0x2004000 is left free, although the region ends inside it; and the
    page at 0x2002000, in which it begins, is free or not as the
    memory of the bitmap had it, since the map has 0x2005 pages and the bits from 0x2000 on are in the last, partial byte. *)
Theorem pmm_init_rounding :
  pmm_mem_pages demo_odd = 0x2005 ∧
  demo_leaves_free 0x2004 (replicate 129 (2 ^ 64 - 1)) = Some true ∧ 0x2002C00 + 0x2000 < (0x2004 + 1) * PAGE_SIZE ∧
  demo_leaves_free 0x2002 (replicate 129 (2 ^ 64 - 1)) = Some false ∧ demo_leaves_free 0x2002 (replicate 129 0) = Some true.
Proof. vm_compute. split_and!; reflexivity. Qed.

(** ** Properties of allocation *)

(** C35. [pmm_alloc_ex] is first fit over the candidates, the aligned starts
    below the limit, and goes one of four ways, whatever the bitmap. It
    hands out the lowest run of [count] clear pages that starts on a
    candidate, marks exactly that run used, takes it off the
    free counter and clears the first page. Or every candidate's run has a used page, and it
    returns NULL and changes nothing. Or it comes first to a candidate whose pages are
    clear to the end of the bitmap's storage and which asks for more: the read past the storage is a fault.
    Or the alignment is 0 and the first candidate is not free: it never returns. Only the
    start of a run is compared with the limit and with the length of the bitmap, so the run itself may pass both. *)
Theorem pmm_alloc_ex_spec (s : pmm) (count al upper : Z) :
  0 ≤ count → 0 ≤ al → pmm_max_idx s upper + al ≤ 2 ^ 64 → Forall is_u64 (pmm_bitmap s) →
  alloc_result s count al (pmm_max_idx s upper) (pmm_alloc_ex count al upper s).
Proof. apply pmm_alloc_ex_run. Qed.

(** Pages 8192 and 8194 in use, everything else above the base free. *)
Definition demo_pmm : pmm := Pmm (replicate 128 (2 ^ 64 - 1) ++ [5; 0]) 8256 100 200 ∅.

Lemma demo_pmm_covers : covers (pmm_bitmap demo_pmm) 8320.
Proof.
  split; [|done]. apply Forall_app. split; [apply Forall_replicate; unfold is_u64; lia|].
  repeat (apply Forall_cons; split); [..|by apply Forall_nil]; unfold is_u64; lia.
Qed.

Lemma full_low l j : 0 ≤ j < first_page → used (replicate 128 (2 ^ 64 - 1) ++ l) j = true.
Proof.
  change first_page with 8192. intros Hj. unfold used.
  rewrite lookup_app_l by (rewrite length_replicate; wrap_lia). rewrite lookup_replicate_2 by wrap_lia.
  apply (Z.ones_spec_low 64). wrap_lia.
Qed.

Lemma demo_pmm_low j : 0 ≤ j < first_page → used (pmm_bitmap demo_pmm) j = true.
Proof. apply full_low. Qed.

(** Counting the pages of a small machine starts where pages can be free. *)
Lemma count_clear_low u n :
  first_page ≤ n → (∀ j, 0 ≤ j < first_page → u j = true) →
  count_clear u (seqZ 0 n) = count_clear u (seqZ first_page (n - first_page)).
Proof.
  intros Hn Hu. replace n with (first_page + (n - first_page)) at 1 by lia.
  rewrite seqZ_app by (change first_page with 8192 in *; lia). rewrite count_clear_app, (count_clear_const _ true); [done|].
  intros j Hj%elem_of_seqZ. apply Hu. lia.
Qed.

Lemma pmm_alloc_ex_spec_witness :
  value (pmm_alloc_ex 2 1 0 demo_pmm) = Some (8195 * 4096) ∧
  alloc_result demo_pmm 2 1 (pmm_max_idx demo_pmm 0) (pmm_alloc_ex 2 1 0 demo_pmm).
Proof.
  split; [vm_compute; reflexivity|].
  apply (pmm_alloc_ex_spec demo_pmm 2 1 0); [lia|lia|vm_compute; congruence|apply demo_pmm_covers].
Defined.

(** A storage without a word past the bitmap, whose last page alone is free. *)
Definition demo_last : pmm := Pmm (replicate 128 (2 ^ 64 - 1) ++ [2 ^ 63 - 1]) 8256 1 200 ∅.

(** Asked for two pages below page 8196, [pmm_alloc_ex] gives 8195 and 8196:
    the second lies above the limit. Asked for two pages when the last page of the bitmap is
    free, it reads past the bitmap. With alignment 0 it can fail to return. *)
Theorem pmm_alloc_ex_past_limit :
  value (pmm_alloc_ex 2 1 (8196 * PAGE_SIZE) demo_pmm) = Some (8195 * PAGE_SIZE) ∧
  pmm_alloc 2 demo_last = Fault ∧ pmm_alloc_ex 1 0 0 demo_pmm = Hang.
Proof. vm_compute. split_and!; reflexivity. Qed.

(** A successful [pmm_alloc], as the clients see it. *)
Lemma pmm_alloc_success s count a s' :
  0 ≤ count → pmm_bitmap_len s + 1 ≤ 2 ^ 64 →
  covers (pmm_bitmap s) (pmm_bitmap_len s + count) →
  pmm_alloc count s = Ok (a, s') → a ≠ 0 →
  ∃ idx, a = idx * PAGE_SIZE ∧ first_page ≤ idx < pmm_bitmap_len s ∧
    run_free (pmm_bitmap s) idx count ∧ allocated s idx count s'.
Proof.
  intros Hc Hl Hcov Ha Hne.
  destruct (pmm_alloc_ex_cases s count 1 0) as [(idx & s2 & He & [Hi _] & Hfree & _ & Hal)|[He _]];
    [lia|lia|done|done| |]; unfold pmm_alloc in Ha; rewrite He in Ha; injection Ha as <- <-; [|done].
  exists idx. done.
Qed.

Lemma pmm_alloc_total s count :
  0 ≤ count → pmm_bitmap_len s + 1 ≤ 2 ^ 64 →
  covers (pmm_bitmap s) (pmm_bitmap_len s + count) →
  ∃ a s', pmm_alloc count s = Ok (a, s').
Proof.
  intros Hc Hl Hcov.
  destruct (pmm_alloc_ex_cases s count 1 0) as [(idx & s2 & He & _)|[He _]]; [lia|lia|done|done| |];
    eauto.
Qed.

Lemma allocated_covers s idx count s' n :
  allocated s idx count s' → covers (pmm_bitmap s) n → covers (pmm_bitmap s') n.
Proof. intros (_ & Hl & Hw & _) [_ Hn]. split; [done|lia]. Qed.

(** Two allocations that both succeed, with no free in between, never
    share a page. *)
Theorem pmm_alloc_disjoint (s s1 s2 : pmm) (c1 c2 a1 a2 n : Z) :
  0 ≤ c1 → 0 ≤ c2 → pmm_bitmap_len s + c1 ≤ n → pmm_bitmap_len s + c2 ≤ n → n < 2 ^ 64 →
  covers (pmm_bitmap s) n → pmm_bitmap_len s < n →
  pmm_alloc c1 s = Ok (a1, s1) → a1 ≠ 0 →
  pmm_alloc c2 s1 = Ok (a2, s2) → a2 ≠ 0 →
  ∀ j, in_run (a1 / PAGE_SIZE) c1 j = true → in_run (a2 / PAGE_SIZE) c2 j = false.
Proof.
  intros H1 H2 Hn1 Hn2 Hn Hcov Hl Ha1 Hne1 Ha2 Hne2 j Hj.
  apply pmm_alloc_success in Ha1 as (i1 & -> & Hi1 & _ & Hal); [|lia|lia|by eapply covers_mono|done].
  pose proof Hal as (Hu & _ & _ & Hl1 & _).
  apply pmm_alloc_success in Ha2 as (i2 & -> & Hi2 & Hf2 & _); [|lia|lia| |done].
  2:{ rewrite Hl1. eapply covers_mono; [by eapply allocated_covers|done]. }
  rewrite !Z.div_mul in * by done. destruct (in_run i2 c2 j) eqn:E; [|done].
  apply in_run_true in E. rewrite <- (Hf2 j) by done. rewrite Hu, Hj; [done|].
  change first_page with 8192 in Hi2. lia.
Qed.

Lemma pmm_alloc_disjoint_witness :
  ∃ s1 s2, pmm_alloc 1 demo_pmm = Ok (8193 * 4096, s1) ∧ pmm_alloc 2 s1 = Ok (8195 * 4096, s2) ∧
    ∀ j, in_run (8193 * 4096 / PAGE_SIZE) 1 j = true → in_run (8195 * 4096 / PAGE_SIZE) 2 j = false.
Proof.
  assert (value ((a ← pmm_alloc 1; b ← pmm_alloc 2; mret (a, b)) demo_pmm)
    = Some (8193 * 4096, 8195 * 4096)) as H by (vm_compute; reflexivity).
  apply value_Some in H as [s2 H]. inv_ok. eexists _, _. split; [eassumption|]. split; [eassumption|].
  eapply (pmm_alloc_disjoint demo_pmm _ _ 1 2 _ _ 8320);
    [lia|lia|done|done|lia|apply demo_pmm_covers|done|eassumption|lia|eassumption|lia].
Defined.

(** Freeing what an allocation returned undoes it: every page has the
    status it had before, and the free counter is back. *)
Theorem pmm_free_alloc_roundtrip (s s1 : pmm) (count a n : Z) :
  0 ≤ count → pmm_bitmap_len s + count ≤ n → pmm_bitmap_len s < n → n < 2 ^ 64 →
  covers (pmm_bitmap s) n → pmm_total_pages s ≠ 0 → is_u64 (pmm_free_pages s) →
  pmm_alloc count s = Ok (a, s1) → a ≠ 0 →
  ∃ s2, pmm_free a count s1 = Ok (tt, s2) ∧
    (∀ j, 0 ≤ j → used (pmm_bitmap s2) j = used (pmm_bitmap s) j) ∧
    pmm_free_pages s2 = pmm_free_pages s ∧ pmm_bitmap_len s2 = pmm_bitmap_len s.
Proof.
  intros Hc Hn Hl Hn64 Hcov Ht Hfp Ha Hne.
  apply pmm_alloc_success in Ha as (i & -> & Hi & Hf & Hal); [|lia|lia|by eapply covers_mono|done].
  pose proof Hal as (Hu & _ & _ & Hl1 & _ & Hfp1 & _).
  change first_page with 8192 in Hi.
  destruct (pmm_free_ok s1 (i * PAGE_SIZE) count n) as (bm' & -> & _ & _ & Hu'); rewrite ?Z.div_mul by done.
  { unfold PAGE_SIZE. lia. }
  { done. }
  { by eapply allocated_covers. }
  { lia. }
  eexists. split_and!; [done|..]; cbn.
  - intros j Hj. rewrite Hu', Z.div_mul, Hu by done. destruct (in_run i count j) eqn:E; cbn; [|done].
    apply in_run_true in E. by rewrite Hf.
  - rewrite Hfp1. destruct (Z.eqb_spec (pmm_total_pages s) 0); [done|].
    unfold is_u64 in Hfp. wrap_lia.
  - done.
Qed.

Lemma pmm_free_alloc_roundtrip_witness :
  ∃ s1 s2, pmm_alloc 2 demo_pmm = Ok (8195 * 4096, s1) ∧ pmm_free (8195 * 4096) 2 s1 = Ok (tt, s2) ∧
    pmm_free_pages s2 = 100.
Proof.
  destruct (value_Some (pmm_alloc 2 demo_pmm) (8195 * 4096)) as [s1 Hs1];
    [vm_compute; reflexivity|].
  destruct (pmm_free_alloc_roundtrip demo_pmm s1 2 (8195 * 4096) 8320) as (s2 & H2 & _ & H3 & _);
    [lia|vm_compute; congruence|vm_compute; reflexivity|lia|apply demo_pmm_covers|done|
     unfold is_u64; cbn; lia|done|done|].
  exists s1, s2. split_and!; [exact Hs1|exact H2|exact H3].
Defined.

(** C36. The free counter follows the bitmap: allocations of any kind and
    frees of pages in use change it by as much as the number of clear bits,
    so that along every sequence of them the difference of the two stays what it was after
    initialisation, modulo [2^64], and stays 0 if it was 0. After [pmm_init] it is not 0 in general
    ([pmm_init_miscounts]). *)
Theorem pmm_accounting (s s' : pmm) :
  pool_ok s → rtc pmm_step s s' →
  pool_ok s' ∧ u64 (miscount s') = u64 (miscount s) ∧ (miscount s = 0 → miscount s' = 0).
Proof.
  intros Hok Hsteps. induction Hsteps as [s|s s1 s2 H _ IH]; [done|].
  destruct (pmm_step_miscount s s1 H Hok) as (Hok1 & E1 & Z1). destruct (IH Hok1) as (Hok2 & E2 & Z2).
  split; [done|]. split; [congruence|auto].
Qed.

(** What [pmm_init] leaves of the small machine. *)
Definition demo_started : pmm := match pmm_init demo_mmap demo_boot with Ok (_, s) => s | _ => demo_boot end.

Lemma demo_started_bitmap : pmm_bitmap demo_started = replicate 128 (2 ^ 64 - 1) ++ [2 ^ 64 - 1 - 124].
Proof. vm_compute. reflexivity. Qed.

Lemma demo_started_clear : clear_pages (pmm_bitmap demo_started) = 5.
Proof.
  rewrite demo_started_bitmap. unfold clear_pages. rewrite count_clear_low; [vm_compute; reflexivity|vm_compute; congruence|].
  apply full_low.
Qed.

(** The pages from the bitmap's first on are given to the pool, although the
    bitmap ends inside a page; that page is then marked used, and is still counted: the counter
    says six, and five bits are clear. *)
Theorem pmm_init_miscounts :
  pmm_init demo_mmap demo_boot = Ok (tt, demo_started) ∧ pmm_free_pages demo_started = 6 ∧ miscount demo_started = 1.
Proof.
  split.
  - assert (value (pmm_init demo_mmap demo_boot) = Some tt) as [s Hs]%value_Some by (vm_compute; reflexivity).
    unfold demo_started. by rewrite Hs.
  - unfold miscount. rewrite demo_started_clear. split; vm_compute; reflexivity.
Qed.

Lemma demo_started_ok : pool_ok demo_started.
Proof.
  split; rewrite ?demo_started_bitmap; [|vm_compute; reflexivity|vm_compute; congruence].
  apply Forall_app_2; [apply Forall_replicate|apply Forall_singleton]; unfold is_u64; lia.
Qed.

Lemma pmm_accounting_witness :
  ∃ s, pmm_alloc 2 demo_started = Ok (8194 * 4096, s) ∧ pool_ok s ∧ u64 (miscount s) = 1.
Proof.
  assert (value (pmm_alloc 2 demo_started) = Some (8194 * 4096)) as H by (vm_compute; reflexivity).
  apply value_Some in H as [s H]. exists s. split; [exact H|].
  destruct (pmm_accounting demo_started s demo_started_ok) as (Hok & E & _).
  - apply rtc_once. eapply (step_alloc _ 2 1 0); [lia|lia|vm_compute; congruence|exact H].
  - split; [exact Hok|]. rewrite E. unfold miscount. rewrite demo_started_clear. vm_compute. reflexivity.
Defined.
