(* ===== verification/Paging.v ===== *)
(** * x86_64 page tables (arch/x86_64/mm/vmm.cpp)

    A page table [pt_t] is a page of physical memory holding 512 entries. The
    code reaches it through the direct map, at its physical address plus
    [VIRT_PHYS_BASE]; a pointer [pt_t *] is modelled by the physical address
    ([Some p]) or NULL ([None]), and every dereference of NULL is a fault. *)
From S2P Require Import Prelude Pmm.
From stdpp Require Import base numbers option gmap list.
#[local] Open Scope Z_scope.

(** ** Flags (vmm.h) *)
Definition VMM_FLAG_PRESENT : Z := Z.shiftl 1 0.
Definition VMM_FLAG_WRITE : Z := Z.shiftl 1 1.
Definition VMM_FLAG_USER : Z := Z.shiftl 1 2.
Definition VMM_FLAG_PAT0 : Z := Z.shiftl 1 3.
Definition VMM_FLAG_PAT1 : Z := Z.shiftl 1 4.
Definition VMM_FLAG_PAT2 : Z := Z.shiftl 1 7.
Definition VMM_FLAG_LARGE : Z := Z.shiftl 1 7.
Definition VMM_FLAG_NX : Z := Z.shiftl 1 63.
Definition VMM_FLAG_MASK : Z := Z.lor 0xFFF (Z.shiftl 1 63).
Definition VMM_ADDR_MASK : Z := u64 (Z.lnot VMM_FLAG_MASK).

(** ** Virtual addresses *)
Record pt_off_t := PtOff { pml4_off : Z; pdp_off : Z; pd_off : Z; pt_off : Z }.

Definition vmm_virt_to_offs (addr : Z) : pt_off_t := {|
  pml4_off := Z.shiftr (Z.land addr (Z.shiftl 0x1ff 39)) 39;
  pdp_off := Z.shiftr (Z.land addr (Z.shiftl 0x1ff 30)) 30;
  pd_off := Z.shiftr (Z.land addr (Z.shiftl 0x1ff 21)) 21;
  pt_off := Z.shiftr (Z.land addr (Z.shiftl 0x1ff 12)) 12;
|}.

Definition vmm_offs_to_virt (offs : pt_off_t) : Z :=
  let addr := 0 in
  let addr := Z.lor addr (u64 (Z.shiftl (pml4_off offs) 39)) in
  let addr := Z.lor addr (u64 (Z.shiftl (pdp_off offs) 30)) in
  let addr := Z.lor addr (u64 (Z.shiftl (pd_off offs) 21)) in
  Z.lor addr (u64 (Z.shiftl (pt_off offs) 12)).

(** ** Entries *)

(** [tab->ents[off]]. *)
Definition ent (m : gmap Z Z) (tab off : Z) : Z := rd m (tab + 8 * off).

Definition load_ent (tab : option Z) (off : Z) : M pmm Z := λ s,
  match tab with
  | Some t => Ok (ent (phys s) t off, s)
  | None => Fault
  end.

Definition store_ent (tab : option Z) (off val : Z) : M pmm () := λ s,
  match tab with
  | Some t => Ok (tt, set_phys (<[t + 8 * off := val]> (phys s)) s)
  | None => Fault
  end.

Definition is_present (e : Z) : bool := has e VMM_FLAG_PRESENT.
Definition ent_addr (e : Z) : Z := Z.land e VMM_ADDR_MASK.

(** Clearing a page through the direct map. *)
Definition clear_page (p : Z) : M pmm () := modify (λ s, set_phys (zero_page (phys s) p) s).

Definition vmm_get_or_alloc_ent (tab : option Z) (off flags : Z) : M pmm (option Z) :=
  e ← load_ent tab off;
  if is_present e then mret (Some (ent_addr e))
  else
    e ← pmm_alloc 1;
    store_ent tab off e;;
    if e =? 0 then mret None
    else
      store_ent tab off (Z.lor e (Z.lor flags VMM_FLAG_PRESENT));;
      clear_page e;;
      mret (Some (ent_addr e)).

Definition vmm_get_or_null_ent (tab : option Z) (off : Z) : M pmm (option Z) :=
  e ← load_ent tab off;
  mret (if is_present e then Some (ent_addr e) else None).

(** ** Mapping *)

Definition higher_perms : Z := Z.lor VMM_FLAG_WRITE VMM_FLAG_USER.

Definition map_one (pml4 virt physp perms : Z) : M pmm () :=
  let offs := vmm_virt_to_offs virt in
  pdp ← vmm_get_or_alloc_ent (Some pml4) (pml4_off offs) higher_perms;
  pd ← vmm_get_or_alloc_ent pdp (pdp_off offs) higher_perms;
  pt ← vmm_get_or_alloc_ent pd (pd_off offs) higher_perms;
  store_ent pt (pt_off offs) (Z.lor (Z.lor physp perms) VMM_FLAG_PRESENT).

Fixpoint vmm_map_pages (pml4 virt physp : Z) (count : nat) (perms : Z) : M pmm Z :=
  match count with
  | O => mret 1
  | S count' =>
      map_one pml4 virt physp perms;;
      vmm_map_pages pml4 (u64 (virt + 0x1000)) (u64 (physp + 0x1000)) count' perms
  end.

(** The three [vmm_get_or_null_ent] calls with their NULL checks: the table
    that holds the entry of [virt], if there is one. *)
Definition find_pt (pml4 virt : Z) : M pmm (option Z) :=
  let offs := vmm_virt_to_offs virt in
  pdp ← vmm_get_or_null_ent (Some pml4) (pml4_off offs);
  match pdp with
  | None => mret None
  | Some _ =>
      pd ← vmm_get_or_null_ent pdp (pdp_off offs);
      match pd with
      | None => mret None
      | Some _ => vmm_get_or_null_ent pd (pd_off offs)
      end
  end.

Fixpoint vmm_unmap_pages (pml4 virt : Z) (count : nat) : M pmm Z :=
  match count with
  | O => mret 1
  | S count' =>
      pt ← find_pt pml4 virt;
      match pt with
      | None => mret 0
      | Some _ =>
          store_ent pt (pt_off (vmm_virt_to_offs virt)) 0;;
          vmm_unmap_pages pml4 (u64 (virt + 0x1000)) count'
      end
  end.

Fixpoint vmm_update_perms (pml4 virt : Z) (count : nat) (perms : Z) : M pmm Z :=
  match count with
  | O => mret 0
  | S count' =>
      pt ← find_pt pml4 virt;
      match pt with
      | None => mret 0
      | Some _ =>
          let off := pt_off (vmm_virt_to_offs virt) in
          e ← load_ent pt off;
          store_ent pt off (Z.lor (Z.lor (ent_addr e) perms) VMM_FLAG_PRESENT);;
          vmm_update_perms pml4 (u64 (virt + 0x1000)) count' perms
      end
  end.

(** ** Huge pages *)

Fixpoint vmm_map_huge_pages (pml4 virt physp : Z) (count : nat) (perms : Z) : M pmm Z :=
  match count with
  | O => mret 1
  | S count' =>
      let offs := vmm_virt_to_offs virt in
      pdp ← vmm_get_or_alloc_ent (Some pml4) (pml4_off offs) higher_perms;
      pd ← vmm_get_or_alloc_ent pdp (pdp_off offs) higher_perms;
      store_ent pd (pd_off offs)
        (Z.lor (Z.lor (Z.lor physp perms) VMM_FLAG_PRESENT) VMM_FLAG_LARGE);;
      vmm_map_huge_pages pml4 (u64 (virt + 0x200000)) (u64 (physp + 0x200000)) count' perms
  end.

(** [pd_virt] is not checked for NULL by the two routines below. *)
Fixpoint vmm_unmap_huge_pages (pml4 virt : Z) (count : nat) : M pmm Z :=
  match count with
  | O => mret 1
  | S count' =>
      let offs := vmm_virt_to_offs virt in
      pdp ← vmm_get_or_null_ent (Some pml4) (pml4_off offs);
      match pdp with
      | None => mret 0
      | Some _ =>
          pd ← vmm_get_or_null_ent pdp (pdp_off offs);
          store_ent pd (pd_off offs) 0;;
          vmm_unmap_huge_pages pml4 (u64 (virt + 0x200000)) count'
      end
  end.

Fixpoint vmm_update_huge_perms (pml4 virt : Z) (count : nat) (perms : Z) : M pmm Z :=
  match count with
  | O => mret 0
  | S count' =>
      let offs := vmm_virt_to_offs virt in
      pdp ← vmm_get_or_null_ent (Some pml4) (pml4_off offs);
      match pdp with
      | None => mret 0
      | Some _ =>
          pd ← vmm_get_or_null_ent pdp (pdp_off offs);
          e ← load_ent pd (pd_off offs);
          store_ent pd (pd_off offs)
            (Z.lor (Z.lor (Z.lor (ent_addr e) perms) VMM_FLAG_PRESENT) VMM_FLAG_LARGE);;
          vmm_update_huge_perms pml4 (u64 (virt + 0x200000)) count' perms
      end
  end.

(** ** Reading an entry *)

Definition vmm_get_entry (pml4 virt : Z) : M pmm Z :=
  if 0xFFFFFFFF80000000 <=? virt then mret (virt - 0xFFFFFFFF80000000)
  else if 0xFFFF800000000000 <=? virt then mret (virt - 0xFFFF800000000000)
  else
    pt ← find_pt pml4 virt;
    match pt with
    | None => mret 0
    | Some _ => load_ent pt (pt_off (vmm_virt_to_offs virt))
    end.

(** ** Address arithmetic *)

Lemma off_field v k : 0 ≤ k →
  Z.shiftr (Z.land v (Z.shiftl 0x1ff k)) k = (v / 2 ^ k) mod 512.
Proof.
  intros Hk. rewrite Z.shiftr_land, Z.shiftr_shiftl_l, Z.sub_diag, Z.shiftl_0_r by lia.
  rewrite Z.shiftr_div_pow2 by done. change 511 with (Z.ones 9). by rewrite Z.land_ones.
Qed.

Lemma vmm_virt_to_offs_fields v :
  vmm_virt_to_offs v =
    PtOff ((v / 2 ^ 39) mod 512) ((v / 2 ^ 30) mod 512) ((v / 2 ^ 21) mod 512) ((v / 2 ^ 12) mod 512).
Proof. unfold vmm_virt_to_offs. by rewrite !off_field by done. Qed.

(** The four offsets as a path. *)
Definition path (v : Z) : list Z :=
  let o := vmm_virt_to_offs v in [pml4_off o; pdp_off o; pd_off o; pt_off o].

Lemma div_page v k : 0 ≤ k → v / 2 ^ (12 + k) = v / 4096 / 2 ^ k.
Proof.
  intros Hk. rewrite Z.pow_add_r by lia. change (2 ^ 12) with 4096.
  rewrite Z.div_div; [done|lia|]. apply Z.pow_pos_nonneg; lia.
Qed.

Lemma page_fields p :
  0 ≤ p < 2 ^ 36 →
  p = (p / 2 ^ 27) mod 512 * 2 ^ 27 + (p / 2 ^ 18) mod 512 * 2 ^ 18 +
      (p / 2 ^ 9) mod 512 * 2 ^ 9 + p mod 512.
Proof. intros. wrap_lia. Qed.

Lemma path_fields v :
  path v = [(v / 4096 / 2 ^ 27) mod 512; (v / 4096 / 2 ^ 18) mod 512;
            (v / 4096 / 2 ^ 9) mod 512; (v / 4096) mod 512].
Proof.
  unfold path. rewrite vmm_virt_to_offs_fields. cbn [pml4_off pdp_off pd_off pt_off].
  change (2 ^ 39) with (2 ^ (12 + 27)). change (2 ^ 30) with (2 ^ (12 + 18)).
  change (2 ^ 21) with (2 ^ (12 + 9)). by rewrite !div_page by lia.
Qed.

(** The page number of an address in the lower half determines its path. *)
Lemma path_inj v v' :
  0 ≤ v < 2 ^ 48 → 0 ≤ v' < 2 ^ 48 → path v = path v' ↔ v / 4096 = v' / 4096.
Proof.
  intros Hv Hv'. rewrite !path_fields. split; [|by intros ->]. intros H.
  injection H as H1 H2 H3 H4.
  rewrite (page_fields (v / 4096)), (page_fields (v' / 4096)) by wrap_lia. congruence.
Qed.

(** A combination of disjoint bit fields is their sum. *)
Lemma lor_shift a b k : 0 ≤ k → 0 ≤ b < 2 ^ k → Z.lor (a * 2 ^ k) b = a * 2 ^ k + b.
Proof.
  intros Hk Hb. rewrite <- Z.add_lor_land.
  assert (Z.land (a * 2 ^ k) b = 0) as ->; [|lia].
  apply Z.bits_inj'. intros n Hn. rewrite Z.land_spec, Z.bits_0.
  destruct (decide (n < k)).
  - by rewrite Z.mul_pow2_bits_low.
  - by rewrite (testbit_high b k), andb_false_r by lia.
Qed.

Definition off_ok (o : Z) : Prop := 0 ≤ o < 512.
Definition offs_ok (o : pt_off_t) : Prop :=
  off_ok (pml4_off o) ∧ off_ok (pdp_off o) ∧ off_ok (pd_off o) ∧ off_ok (pt_off o).

Lemma vmm_virt_to_offs_ok v : offs_ok (vmm_virt_to_offs v).
Proof.
  rewrite vmm_virt_to_offs_fields. unfold offs_ok, off_ok. cbn -[Z.pow Z.div Z.modulo].
  split_and!; wrap_lia.
Qed.

Lemma vmm_offs_to_virt_sum a b c d :
  off_ok a → off_ok b → off_ok c → off_ok d →
  vmm_offs_to_virt (PtOff a b c d) = a * 2 ^ 39 + b * 2 ^ 30 + c * 2 ^ 21 + d * 2 ^ 12.
Proof.
  unfold off_ok. intros Ha Hb Hc Hd. unfold vmm_offs_to_virt. cbn [pml4_off pdp_off pd_off pt_off].
  rewrite !Z.shiftl_mul_pow2, !u64_small by lia. rewrite Z.lor_0_l.
  rewrite (lor_shift a) by lia.
  replace (a * 2 ^ 39 + b * 2 ^ 30) with ((a * 2 ^ 9 + b) * 2 ^ 30) by lia.
  rewrite lor_shift by lia.
  replace ((a * 2 ^ 9 + b) * 2 ^ 30 + c * 2 ^ 21) with ((a * 2 ^ 18 + b * 2 ^ 9 + c) * 2 ^ 21) by lia.
  rewrite lor_shift by lia. lia.
Qed.

(** Splitting an address of the lower half into table offsets and joining
    them again gives the address of its page; joining and splitting gives the
    offsets back, for every combination of offsets. *)
Theorem vmm_offs_roundtrip (v : Z) (o : pt_off_t) :
  0 ≤ v < 2 ^ 48 → offs_ok o →
  vmm_offs_to_virt (vmm_virt_to_offs v) = v / PAGE_SIZE * PAGE_SIZE ∧
  vmm_virt_to_offs (vmm_offs_to_virt o) = o.
Proof.
  intros Hv Ho. split.
  - pose proof (vmm_virt_to_offs_ok v) as (?&?&?&?). rewrite vmm_virt_to_offs_fields in *.
    rewrite vmm_offs_to_virt_sum by done. unfold PAGE_SIZE. wrap_lia.
  - destruct o as [a b c d], Ho as (?&?&?&?). rewrite vmm_offs_to_virt_sum by done.
    rewrite vmm_virt_to_offs_fields. unfold off_ok in *. cbn [pml4_off pdp_off pd_off pt_off] in *.
    f_equal; wrap_lia.
Qed.

Lemma vmm_offs_roundtrip_witness :
  vmm_offs_to_virt (vmm_virt_to_offs 0x7000DEADBEEF) = 0x7000DEADB000 ∧
  vmm_virt_to_offs (vmm_offs_to_virt (PtOff 1 2 3 4)) = PtOff 1 2 3 4.
Proof.
  apply (vmm_offs_roundtrip 0x7000DEADBEEF (PtOff 1 2 3 4)); [lia|].
  unfold offs_ok, off_ok. cbn. lia.
Defined.

(** ** Memory *)

Lemma rd_insert m a v b : rd (<[a := v]> m) b = if decide (a = b) then v else rd m b.
Proof. unfold rd. rewrite lookup_insert. by case_decide. Qed.

(** [a] is not the address of an entry of the page [p]. *)
Definition outside (p a : Z) : Prop := ∀ o, off_ok o → a ≠ p + 8 * o.

Lemma zero_entries m p l a :
  rd (foldr (λ i m, <[p + 8 * i := 0]> m) m l) a =
  if decide (a ∈ (λ i, p + 8 * i) <$> l) then 0 else rd m a.
Proof.
  induction l as [|i l IH]; cbn; [done|]. rewrite rd_insert, IH.
  destruct (decide (p + 8 * i = a)) as [<-|Hne].
  - by rewrite decide_True by set_solver.
  - destruct (decide (a ∈ _)), (decide (a ∈ _)); set_solver.
Qed.

Lemma zero_page_in m p o : off_ok o → ent (zero_page m p) p o = 0.
Proof.
  intros Ho. unfold ent, zero_page. rewrite zero_entries, decide_True; [done|].
  apply list_elem_of_fmap. exists o. split; [done|]. apply elem_of_seqZ. unfold off_ok in Ho. lia.
Qed.

Lemma zero_page_out m p a : outside p a → rd (zero_page m p) a = rd m a.
Proof.
  intros Ha. unfold zero_page. rewrite zero_entries, decide_False; [done|].
  intros (o & -> & Ho)%list_elem_of_fmap. apply elem_of_seqZ in Ho. apply (Ha o); [|done].
  unfold off_ok. lia.
Qed.

(** A page-aligned address. *)
Definition aligned (t : Z) : Prop := t mod 4096 = 0.

Lemma ent_pos_inj t o t' o' :
  aligned t → aligned t' → off_ok o → off_ok o' → t + 8 * o = t' + 8 * o' → t = t' ∧ o = o'.
Proof. unfold aligned, off_ok. intros. wrap_lia. Qed.

Lemma outside_page t o p : aligned t → aligned p → off_ok o → t ≠ p → outside p (t + 8 * o).
Proof. intros ???? o' Ho' Heq. by destruct (ent_pos_inj t o p o') as [-> _]. Qed.

(** ** Entries *)

Lemma addr_mask_shift : VMM_ADDR_MASK = Z.shiftl (Z.ones 51) 12.
Proof. vm_compute. reflexivity. Qed.

Lemma addr_mask_bit n : 0 ≤ n → Z.testbit VMM_ADDR_MASK n = (12 <=? n) && (n <? 63).
Proof.
  intros Hn. rewrite addr_mask_shift, Z.shiftl_spec by done.
  destruct (Z.leb_spec 12 n); cbn; [|by apply Z.testbit_neg_r; lia].
  destruct (Z.ltb_spec n 63); [apply Z.ones_spec_low|apply Z.ones_spec_high]; lia.
Qed.

Lemma ent_addr_flags p f :
  0 ≤ p < 2 ^ 63 → aligned p → 0 ≤ f < 4096 → ent_addr (Z.lor p f) = p.
Proof.
  intros Hp Ha Hf. apply Z.bits_inj'. intros n Hn. unfold ent_addr.
  rewrite Z.land_spec, Z.lor_spec, addr_mask_bit by done.
  replace p with (p / 4096 * 2 ^ 12) by (unfold aligned in Ha; wrap_lia).
  destruct (Z.leb_spec 12 n); cbn.
  - rewrite (testbit_high f 12 n) by lia. rewrite orb_false_r.
    destruct (Z.ltb_spec n 63); [by rewrite andb_true_r|].
    rewrite andb_false_r. symmetry. apply (testbit_high _ 63); [lia|wrap_lia|done].
  - rewrite andb_false_r. symmetry. by apply Z.mul_pow2_bits_low.
Qed.

Lemma ent_addr_aligned_id p : 0 ≤ p < 2 ^ 63 → aligned p → ent_addr p = p.
Proof. intros. rewrite <- (Z.lor_0_r p) at 1. by apply ent_addr_flags. Qed.

Lemma is_present_bit e : is_present e = Z.testbit e 0.
Proof. apply (has_pow2 e 0). done. Qed.

Lemma large_bit e : has e VMM_FLAG_LARGE = Z.testbit e 7.
Proof. apply (has_pow2 e 7). done. Qed.

Lemma is_present_lor a : is_present (Z.lor a VMM_FLAG_PRESENT) = true.
Proof. rewrite is_present_bit, Z.lor_spec. apply orb_true_r. Qed.

(** ** The tables of the address spaces

    [own] names the table pages: [own !! t = Some (r :: os)] when [t] is the
    table reached from the root [r] (a PML4) along the offsets [os]. Only the
    lower half of a root counts: the upper half is shared with the kernel. No
    lower half uses huge pages. *)
Definition slot (π : list Z) (off : Z) : Prop :=
  off_ok off ∧ (length π = 1%nat → off < 256).

Record pool_ok (s : pmm) : Prop := {
  pool_covers : covers (pmm_bitmap s) (pmm_bitmap_len s + 1);
  pool_len : pmm_bitmap_len s ≤ 2 ^ 51;
}.

Record tables_ok (own : gmap Z (list Z)) (s : pmm) : Prop := {
  own_pool : pool_ok s;
  own_page t π : own !! t = Some π →
    ∃ k, t = k * 4096 ∧ first_page ≤ k < pmm_bitmap_len s ∧ used (pmm_bitmap s) k = true;
  own_inj t t' π : own !! t = Some π → own !! t' = Some π → t = t';
  own_shape t π : own !! t = Some π → (0 < length π ≤ 4)%nat;
  own_root t r : own !! t = Some [r] → t = r;
  own_down t π off : own !! t = Some π → (length π < 4)%nat → slot π off →
    is_present (ent (phys s) t off) = true →
    own !! ent_addr (ent (phys s) t off) = Some (π ++ [off]);
  own_up t π off : own !! t = Some (π ++ [off]) → π ≠ [] →
    slot π off ∧ ∃ t0, own !! t0 = Some π ∧ is_present (ent (phys s) t0 off) = true ∧
      ent_addr (ent (phys s) t0 off) = t;
  own_small t π off : own !! t = Some π → (length π < 4)%nat → slot π off →
    is_present (ent (phys s) t off) = true → has (ent (phys s) t off) VMM_FLAG_LARGE = false;
}.

Lemma own_aligned own s t π : tables_ok own s → own !! t = Some π → aligned t ∧ 0 < t < 2 ^ 63.
Proof.
  intros H Ht. destruct (own_page _ _ H _ _ Ht) as (k & -> & Hk & _).
  pose proof (pool_len _ (own_pool _ _ H)). change first_page with 8192 in Hk.
  unfold aligned. split; [by apply Z.mod_mul|lia].
Qed.

(** ** Walking the tables *)

Definition walk (m : gmap Z Z) (r v : Z) : option Z :=
  let o := vmm_virt_to_offs v in
  let e1 := ent m r (pml4_off o) in
  if is_present e1 then
    let e2 := ent m (ent_addr e1) (pdp_off o) in
    if is_present e2 then
      let e3 := ent m (ent_addr e2) (pd_off o) in
      if is_present e3 then Some (ent_addr e3) else None
    else None
  else None.

(** The entry of [v] under the root [r]; 0 when a table is missing. *)
Definition leaf (m : gmap Z Z) (r v : Z) : Z :=
  match walk m r v with
  | Some t => ent m t (pt_off (vmm_virt_to_offs v))
  | None => 0
  end.

Definition lower (v : Z) : Prop := 0 ≤ v < 2 ^ 47.

Lemma find_pt_walk r v s : find_pt r v s = Ok (walk (phys s) r v, s).
Proof.
  unfold find_pt, vmm_get_or_null_ent, load_ent, walk. cbv [mbind M_bind mret M_ret]. cbn.
  repeat (case_match; simplify_eq; cbn in *; try done).
Qed.

Lemma vmm_get_entry_leaf r v s : lower v → vmm_get_entry r v s = Ok (leaf (phys s) r v, s).
Proof.
  intros [Hv Hv']. unfold vmm_get_entry, leaf.
  destruct (Z.leb_spec 0xFFFFFFFF80000000 v); [lia|].
  destruct (Z.leb_spec 0xFFFF800000000000 v); [lia|].
  cbv [mbind M_bind]. rewrite find_pt_walk. by destruct (walk _ _ _).
Qed.

Lemma lower_slot v r : lower v → slot [r] (pml4_off (vmm_virt_to_offs v)).
Proof.
  intros [??]. rewrite vmm_virt_to_offs_fields. cbn [pml4_off]. split; [unfold off_ok|intros _]; wrap_lia.
Qed.

Lemma offs_slot v a b π :
  slot (a :: b :: π) (pdp_off (vmm_virt_to_offs v)) ∧
  slot (a :: b :: π) (pd_off (vmm_virt_to_offs v)) ∧
  off_ok (pt_off (vmm_virt_to_offs v)).
Proof.
  pose proof (vmm_virt_to_offs_ok v) as (_ & ? & ? & ?). split_and!; [split|split|]; done.
Qed.

(** The path of the table that holds the entry of [v]. *)
Definition pt_path (r v : Z) : list Z :=
  let o := vmm_virt_to_offs v in [r; pml4_off o; pdp_off o; pd_off o].

Lemma walk_own own s r v t :
  tables_ok own s → own !! r = Some [r] → lower v →
  walk (phys s) r v = Some t ↔ own !! t = Some (pt_path r v).
Proof.
  intros Hok Hr Hv. pose proof (lower_slot v r Hv) as S1. unfold walk, pt_path.
  set (o := vmm_virt_to_offs v) in *. split.
  - destruct (is_present _) eqn:E1; [|done]. destruct (is_present _) eqn:E2 in |- *; [|done].
    destruct (is_present _) eqn:E3 in |- *; [|done]. intros [= <-].
    apply (own_down _ _ Hok r [r]) in E1; [|done|cbn; lia|done]. cbn in E1.
    apply (own_down _ _ Hok _ _ _ E1) in E2; [|cbn; lia|apply (offs_slot v)]. cbn in E2.
    apply (own_down _ _ Hok _ _ _ E2) in E3; [|cbn; lia|apply (offs_slot v)]. done.
  - intros Ht.
    destruct (own_up _ _ Hok t [r; pml4_off o; pdp_off o] (pd_off o) Ht) as (_ & t2 & H2 & P2 & A2); [done|].
    destruct (own_up _ _ Hok t2 [r; pml4_off o] (pdp_off o) H2) as (_ & t1 & H1 & P1 & A1); [done|].
    destruct (own_up _ _ Hok t1 [r] (pml4_off o) H1) as (_ & t0 & H0 & P0 & A0); [done|].
    apply (own_root _ _ Hok) in H0 as ->.
    by rewrite P0, A0, P1, A1, P2, A2.
Qed.

Lemma leaf_own own s r v t :
  tables_ok own s → own !! r = Some [r] → lower v → own !! t = Some (pt_path r v) →
  leaf (phys s) r v = ent (phys s) t (pt_off (vmm_virt_to_offs v)).
Proof.
  intros Hok Hr Hv Ht. unfold leaf. by rewrite (proj2 (walk_own own s r v t Hok Hr Hv) Ht).
Qed.

Lemma leaf_no_own own s r v :
  tables_ok own s → own !! r = Some [r] → lower v → (∀ t, own !! t ≠ Some (pt_path r v)) →
  leaf (phys s) r v = 0.
Proof.
  intros Hok Hr Hv Ht. unfold leaf. destruct (walk (phys s) r v) as [t|] eqn:E; [|done].
  apply (walk_own own) in E; [|done..]. by destruct (Ht t).
Qed.

(** ** Allocating one page *)

Definition avail (s : pmm) : Z :=
  count_clear (λ j, used (pmm_bitmap s) j || (j <? first_page)) (seqZ 0 (pmm_bitmap_len s)).

Lemma alloc_one s :
  pool_ok s → 0 < avail s →
  ∃ idx s', pmm_alloc 1 s = Ok (idx * 4096, s') ∧ first_page ≤ idx < pmm_bitmap_len s ∧
    used (pmm_bitmap s) idx = false ∧ allocated s idx 1 s' ∧ avail s' = avail s - 1.
Proof.
  intros [Hc Hl] Hav.
  destruct (pmm_alloc_ex_cases s 1 1 0) as [(idx & s' & He & [Hi _] & Hf & _ & Hal)|[_ Hno]];
    [lia|lia|cbn; lia|done|..].
  - exists idx, s'. split; [done|]. split; [done|]. split; [apply Hf; lia|]. split; [done|].
    destruct Hal as (Hu & _ & _ & Hlen & _). unfold avail. rewrite Hlen. cbn in Hi.
    change first_page with 8192 in *.
    rewrite (count_clear_run (λ j, used (pmm_bitmap s) j || (j <? 8192)) _ _ idx 1 false); [lia|lia|lia|lia| |].
    + intros j Hj. assert (j = idx) as -> by lia. rewrite Hf by lia. lia.
    + intros j Hj. rewrite Hu by done. destruct (in_run idx 1 j); [done|]. by destruct (used _ _).
  - exfalso. revert Hav. unfold avail. rewrite (count_clear_const _ true); [lia|].
    intros j Hj. apply elem_of_seqZ in Hj. destruct (Z.ltb_spec j first_page); [by rewrite orb_true_r|].
    rewrite orb_false_r. destruct (used (pmm_bitmap s) j) eqn:E; [done|]. exfalso.
    apply (Hno j); [split; [cbn; lia|exists (j - first_page); lia]|].
    intros j' Hj'. by assert (j' = j) as -> by lia.
Qed.

Lemma allocated_pool s idx s' : allocated s idx 1 s' → pool_ok s → pool_ok s'.
Proof.
  intros Hal [Hc Hl]. pose proof (allocated_covers _ _ _ _ _ Hal Hc).
  destruct Hal as (_ & _ & _ & Hlen & _). split; rewrite Hlen; done.
Qed.

(** ** Steps on the tables

    [tstep own s own' s' c upd]: the step from [s] to [s'] added at most [c]
    table pages, gave the entries [upd] (by root and page number) new values,
    and changed nothing else that can be seen: no other entry of any address
    space, and no page in use that is not a table. *)
Definition updates : Type := Z → Z → option Z.
Definition no_upd : updates := λ _ _, None.
Definition upd_after (u2 u1 : updates) : updates := λ r p,
  match u2 r p with Some e => Some e | None => u1 r p end.

Record tstep (own : gmap Z (list Z)) (s : pmm) (own' : gmap Z (list Z)) (s' : pmm)
    (c : Z) (upd : updates) : Prop := {
  g_ok : tables_ok own' s';
  g_sub : own ⊆ own';
  g_leaf r v : own !! r = Some [r] → lower v →
    leaf (phys s') r v = default (leaf (phys s) r v) (upd r (v / 4096));
  g_data t : aligned t → used (pmm_bitmap s) (t / 4096) = true → 0 ≤ t → own !! t = None →
    own' !! t = None ∧ ∀ o, off_ok o → ent (phys s') t o = ent (phys s) t o;
  g_used j : 0 ≤ j → used (pmm_bitmap s) j = true → used (pmm_bitmap s') j = true;
  g_len : pmm_bitmap_len s' = pmm_bitmap_len s;
  g_avail : avail s - c ≤ avail s';
}.

Lemma tstep_refl own s : tables_ok own s → tstep own s own s 0 no_upd.
Proof. intros H. split; try done. lia. Qed.

Lemma tstep_weaken own s own' s' c c' u :
  tstep own s own' s' c u → c ≤ c' → tstep own s own' s' c' u.
Proof. intros [] Hc. split; try done. lia. Qed.

Lemma tstep_trans own s own1 s1 own2 s2 c1 c2 u1 u2 :
  tstep own s own1 s1 c1 u1 → tstep own1 s1 own2 s2 c2 u2 →
  tstep own s own2 s2 (c1 + c2) (upd_after u2 u1).
Proof.
  intros G1 G2. split.
  - apply G2.
  - etrans; [apply G1|apply G2].
  - intros r v Hr Hv. rewrite (g_leaf _ _ _ _ _ _ G2 r v), (g_leaf _ _ _ _ _ _ G1 r v); try done.
    + unfold upd_after. by destruct (u2 _ _).
    + eapply lookup_weaken; [done|apply G1].
  - intros t Ha Hu Ht Hn. destruct (g_data _ _ _ _ _ _ G1 t) as [Hn1 H1]; [done..|].
    destruct (g_data _ _ _ _ _ _ G2 t) as [Hn2 H2]; [done| |done..|].
    { apply (g_used _ _ _ _ _ _ G1); [|done]. by apply Z.div_pos. }
    split; [done|]. intros o Ho. by rewrite H2, H1.
  - intros j Hj Hu. by apply (g_used _ _ _ _ _ _ G2), (g_used _ _ _ _ _ _ G1).
  - rewrite (g_len _ _ _ _ _ _ G2). apply (g_len _ _ _ _ _ _ G1).
  - pose proof (g_avail _ _ _ _ _ _ G1). pose proof (g_avail _ _ _ _ _ _ G2). lia.
Qed.

(** The memory after a new table [p] has been linked at entry [off] of [t]. *)
Definition linked (m : gmap Z Z) (t off p e : Z) : gmap Z Z :=
  zero_page (<[t + 8 * off := e]> (<[t + 8 * off := p]> (zero_page m p))) p.

Lemma linked_ent m t off p e t' o :
  aligned t → aligned p → aligned t' → off_ok off → off_ok o → t ≠ p →
  ent (linked m t off p e) t' o =
    if decide (t' = p) then 0 else if decide (t' = t ∧ o = off) then e else ent m t' o.
Proof.
  intros At Ap At' Hoff Ho Hne. unfold linked. case_decide as Hp; [subst; by apply zero_page_in|].
  unfold ent. rewrite zero_page_out by by apply outside_page. rewrite !rd_insert.
  destruct (decide (t + 8 * off = t' + 8 * o)) as [Heq|Hneq].
  - apply ent_pos_inj in Heq as [-> ->]; [|done..]. by rewrite decide_True.
  - rewrite decide_False by naive_solver. rewrite zero_page_out; [done|]. by apply outside_page.
Qed.

Section link.
Context (own : gmap Z (list Z)) (s s' : pmm) (t : Z) (π : list Z) (off idx e : Z).
Context (Hok : tables_ok own s) (Ht : own !! t = Some π) (Hlen : (length π < 4)%nat).
Context (Hslot : slot π off) (Hnp : is_present (ent (phys s) t off) = false).
Context (Hidx : first_page ≤ idx < pmm_bitmap_len s) (Hfree : used (pmm_bitmap s) idx = false).
Context (Hal : allocated s idx 1 s').
Context (He : is_present e = true) (Hea : ent_addr e = idx * 4096) (Hel : has e VMM_FLAG_LARGE = false).

Let p := idx * 4096.
Let own' := <[p := π ++ [off]]> own.
Let s1 := set_phys (linked (phys s) t off p e) s'.

Lemma link_fresh : own !! p = None.
Proof.
  destruct (own !! p) as [π'|] eqn:E; [|done].
  destruct (own_page _ _ Hok _ _ E) as (k & Hk & _ & Hu).
  assert (k = idx) as -> by (unfold p in Hk; lia). congruence.
Qed.

Lemma link_aligned_p : aligned p.
Proof. unfold aligned, p. by apply Z.mod_mul. Qed.

Lemma link_aligned_t : aligned t.
Proof. exact (proj1 (own_aligned _ _ _ _ Hok Ht)). Qed.

Lemma link_ne t' π' : own !! t' = Some π' → t' ≠ p.
Proof. intros H ->. by rewrite link_fresh in H. Qed.

Lemma link_ent t' π' o :
  own !! t' = Some π' → off_ok o →
  ent (phys s1) t' o = if decide (t' = t ∧ o = off) then e else ent (phys s) t' o.
Proof.
  intros Ht' Ho. cbn. rewrite linked_ent.
  - by rewrite decide_False by by eapply link_ne.
  - by eapply own_aligned.
  - apply link_aligned_p.
  - by eapply own_aligned.
  - apply Hslot.
  - done.
  - by eapply link_ne.
Qed.

Lemma link_path_new t' : own !! t' ≠ Some (π ++ [off]).
Proof.
  intros H. destruct (own_up _ _ Hok _ _ _ H) as (_ & t0 & Ht0 & Hp & _).
  { pose proof (own_shape _ _ Hok _ _ Ht). intros ->. cbn in *. lia. }
  rewrite (own_inj _ _ Hok _ _ _ Ht0 Ht) in Hp. congruence.
Qed.

Lemma link_ok : tables_ok own' s1.
Proof.
  pose proof Hal as (Hu & _ & _ & Hl & _). change first_page with 8192 in Hidx.
  assert (pool_ok s') as [? ?] by (eapply allocated_pool; [done|apply Hok]).
  assert (∀ k, used (pmm_bitmap s) k = true → 0 ≤ k → used (pmm_bitmap s') k = true) as Hmono.
  { intros k Hk Hk0. rewrite Hu by done. by rewrite Hk, orb_true_r. }
  split; [by split|..]; cbn [pmm_bitmap pmm_bitmap_len s1 set_phys].
  - intros t' π' [[<- <-]|[Hne H]]%lookup_insert_Some.
    + exists idx. rewrite Hl, Hu by lia. split_and!; [done|apply Hidx..|].
      by rewrite (proj2 (in_run_true idx 1 idx)) by lia.
    + destruct (own_page _ _ Hok _ _ H) as (k & -> & Hk & Hk'). exists k. rewrite Hl.
      split_and!; [done|apply Hk..|]. apply Hmono; [done|]. change first_page with 8192 in Hk. lia.
  - intros t1 t2 π' [[<- <-]|[_ H1]]%lookup_insert_Some [[<- E]|[_ H2]]%lookup_insert_Some.
    + done.
    + by apply link_path_new in H2.
    + subst π'. by apply link_path_new in H1.
    + by eapply own_inj.
  - intros t' π' [[<- <-]|[_ H]]%lookup_insert_Some; [|by eapply own_shape].
    rewrite length_app. cbn. lia.
  - intros t' r [[<- E]|[_ H]]%lookup_insert_Some; [|by eapply own_root].
    exfalso. pose proof (own_shape _ _ Hok _ _ Ht) as Hs. apply (f_equal length) in E.
    rewrite length_app in E. cbn in E. lia.
  - intros t' π' o [[<- <-]|[_ H]]%lookup_insert_Some Hl' Ho Hp.
    + exfalso. revert Hp. cbn. rewrite linked_ent, decide_True; try done.
      all: first [apply link_aligned_p|apply link_aligned_t|apply Hslot|apply Ho|by eapply link_ne].
    + revert Hp. rewrite (link_ent _ _ _ H) by apply Ho. case_decide as Hd.
      * destruct Hd as [-> ->]. rewrite Hea, H in *. simplify_eq. intros _. apply lookup_insert_eq.
      * intros Hp. pose proof (own_down _ _ Hok _ _ _ H Hl' Ho Hp) as Hc.
        unfold own'. rewrite lookup_insert_ne; [done|]. intros E. by rewrite <- E, link_fresh in Hc.
  - intros t' π' o [[<- E]|[_ H]]%lookup_insert_Some Hne.
    + apply app_inj_tail in E as [<- <-]. split; [done|]. exists t.
      rewrite (link_ent _ _ _ Ht), decide_True by (done || apply Hslot). split_and!; [|done|done].
      unfold own'. rewrite lookup_insert_ne; [done|]. by apply not_eq_sym, (link_ne _ π).
    + destruct (own_up _ _ Hok _ _ _ H Hne) as (Hs & t0 & Ht0 & Hp & Ha).
      split; [done|]. exists t0. rewrite (link_ent _ _ _ Ht0) by apply Hs.
      rewrite decide_False by (intros [-> ->]; congruence). split_and!; [|done|done].
      unfold own'. rewrite lookup_insert_ne; [done|]. by apply not_eq_sym, (link_ne _ π').
  - intros t' π' o [[<- <-]|[_ H]]%lookup_insert_Some Hl' Ho Hp.
    + exfalso. revert Hp. cbn. rewrite linked_ent, decide_True; try done.
      all: first [apply link_aligned_p|apply link_aligned_t|apply Hslot|apply Ho|by eapply link_ne].
    + revert Hp. rewrite (link_ent _ _ _ H) by apply Ho. case_decide; [done|]. by apply (own_small _ _ Hok _ π').
Qed.

Lemma link_leaf r v : own !! r = Some [r] → lower v → leaf (phys s1) r v = leaf (phys s) r v.
Proof.
  intros Hr Hv. pose proof link_ok as Hok'.
  assert (own' !! r = Some [r]) as Hr'.
  { unfold own'. rewrite lookup_insert_ne; [done|]. by apply not_eq_sym, (link_ne _ [r]). }
  destruct (walk (phys s) r v) as [t0|] eqn:Hw.
  - apply (walk_own own) in Hw; [|done..].
    rewrite (leaf_own own s r v t0), (leaf_own own' s1 r v t0); try done.
    + rewrite (link_ent _ _ _ Hw) by apply vmm_virt_to_offs_ok. rewrite decide_False; [done|].
      intros [-> _]. rewrite Ht in Hw. injection Hw as ->. cbn in Hlen. lia.
    + unfold own'. rewrite lookup_insert_ne; [done|]. by apply not_eq_sym, (link_ne _ (pt_path r v)).
  - assert (∀ t0, own !! t0 ≠ Some (pt_path r v)) as Hno.
    { intros t0 H. apply (walk_own own s) in H; [|done..]. congruence. }
    rewrite (leaf_no_own own s r v) by done.
    destruct (decide (π ++ [off] = pt_path r v)) as [E|E].
    + rewrite (leaf_own own' s1 r v p); try done; [|by rewrite <- E; apply lookup_insert_eq].
      cbn. rewrite linked_ent, decide_True; try done.
      all: first [apply link_aligned_p|apply link_aligned_t|apply Hslot
                 |apply vmm_virt_to_offs_ok|by eapply link_ne].
    + apply (leaf_no_own own'); try done.
      intros t0 [[_ H]|[_ H]]%lookup_insert_Some; [done|by apply Hno in H].
Qed.

Lemma link_step : avail s' = avail s - 1 → tstep own s own' s1 1 no_upd.
Proof.
  intros Hav. pose proof Hal as (Hu & _ & _ & Hl & _). split.
  - apply link_ok.
  - apply insert_subseteq, link_fresh.
  - apply link_leaf.
  - intros t' Ha Hused Ht' Hn.
    assert (t' ≠ p) as Hne by (intros ->; unfold p in Hused; rewrite Z.div_mul in Hused by lia; congruence).
    assert (t' ≠ t) as Hne' by congruence. split.
    + unfold own'. by rewrite lookup_insert_ne.
    + intros o Ho. cbn. rewrite linked_ent, !decide_False by first
        [naive_solver|apply link_aligned_p|apply link_aligned_t|apply Hslot|by eapply link_ne]. done.
  - intros j Hj Huj. cbn. rewrite Hu, Huj by done. apply orb_true_r.
  - done.
  - change (avail s1) with (avail s'). lia.
Qed.
End link.

Lemma higher_perms_flags : Z.lor higher_perms VMM_FLAG_PRESENT = 7.
Proof. reflexivity. Qed.

(** [vmm_get_or_alloc_ent] on an owned table finds or adds the table below. *)
Lemma vmm_get_or_alloc_ent_ok own s t π off :
  tables_ok own s → own !! t = Some π → (length π < 4)%nat → slot π off → 0 < avail s →
  ∃ t' own' s', vmm_get_or_alloc_ent (Some t) off higher_perms s = Ok (Some t', s') ∧
    tstep own s own' s' 1 no_upd ∧ own' !! t' = Some (π ++ [off]).
Proof.
  intros Hok Ht Hlen Hslot Hav. unfold vmm_get_or_alloc_ent. cbv [mbind M_bind load_ent].
  destruct (is_present (ent (phys s) t off)) eqn:Hp.
  - exists (ent_addr (ent (phys s) t off)), own, s. split; [done|]. split.
    + eapply tstep_weaken; [by apply tstep_refl|lia].
    + by apply (own_down _ _ Hok).
  - destruct (alloc_one s) as (idx & s1 & -> & Hidx & Hfree & Hal & Hav'); [apply Hok|done|].
    pose proof Hidx as Hidx'. change first_page with 8192 in Hidx'.
    pose proof (pool_len _ (own_pool _ _ Hok)).
    assert (aligned (idx * 4096)) as Hal4 by (by apply Z.mod_mul).
    cbn [store_ent]. destruct (Z.eqb_spec (idx * 4096) 0); [lia|].
    cbn [store_ent clear_page modify mret M_ret set_phys phys].
    rewrite higher_perms_flags, (ent_addr_aligned_id (idx * 4096)) by (done || lia).
    eexists _, _, _. split; [reflexivity|].
    pose proof Hal as (_ & _ & _ & _ & _ & _ & Hph).
    rewrite Hph. change (idx * PAGE_SIZE) with (idx * 4096).
    fold (linked (phys s) t off (idx * 4096) (Z.lor (idx * 4096) 7)).
    split; [|apply lookup_insert_eq].
    eapply (link_step own s s1 t π off idx (Z.lor (idx * 4096) 7)); try done.
    + rewrite <- higher_perms_flags, Z.lor_assoc. apply is_present_lor.
    + apply ent_addr_flags; (done || lia).
    + rewrite large_bit, Z.lor_spec. change (idx * 4096) with (idx * 2 ^ 12). by rewrite Z.mul_pow2_bits_low by lia.
Qed.

(** ** Writing an entry *)

Section store.
Context (own : gmap Z (list Z)) (s : pmm) (r v t e : Z).
Context (Hok : tables_ok own s) (Hr : own !! r = Some [r]) (Hv : lower v).
Context (Ht : own !! t = Some (pt_path r v)).

Let o4 := pt_off (vmm_virt_to_offs v).
Let s' := set_phys (<[t + 8 * o4 := e]> (phys s)) s.

Lemma store_ent_at t' o :
  aligned t' → off_ok o →
  ent (phys s') t' o = if decide (t' = t ∧ o = o4) then e else ent (phys s) t' o.
Proof.
  intros Ha Ho. unfold s', ent. cbn [phys set_phys]. rewrite rd_insert.
  destruct (decide (t + 8 * o4 = t' + 8 * o)) as [E|E].
  - destruct (ent_pos_inj t o4 t' o) as [Et Eo]; [|done|apply vmm_virt_to_offs_ok|done|done|].
    { exact (proj1 (own_aligned _ _ _ _ Hok Ht)). }
    by rewrite decide_True.
  - rewrite decide_False; [done|]. intros [-> ->]. done.
Qed.

Lemma store_ent_other t' π o :
  own !! t' = Some π → (length π < 4)%nat → off_ok o → ent (phys s') t' o = ent (phys s) t' o.
Proof.
  intros Ht' Hl Ho. rewrite store_ent_at; [|by eapply own_aligned|done].
  rewrite decide_False; [done|]. intros [-> _]. rewrite Ht in Ht'. injection Ht' as <-. cbn in Hl. lia.
Qed.

Lemma store_tables_ok : tables_ok own s'.
Proof.
  split; cbn [pmm_bitmap pmm_bitmap_len s' set_phys]; try apply Hok.
  - split; apply (own_pool _ _ Hok).
  - intros t' π off Ht' Hl Ho. rewrite (store_ent_other _ π) by (done || apply Ho).
    by apply (own_down _ _ Hok).
  - intros t' π off Ht' Hne. destruct (own_up _ _ Hok _ _ _ Ht' Hne) as (Ho & t0 & Ht0 & Hp & Ha).
    split; [done|]. exists t0. rewrite (store_ent_other _ π); try done; [|apply Ho].
    pose proof (own_shape _ _ Hok _ _ Ht') as Hs. rewrite length_app in Hs. cbn in Hs. lia.
  - intros t' π off Ht' Hl Ho. rewrite (store_ent_other _ π) by (done || apply Ho). by apply (own_small _ _ Hok _ π).
Qed.

Lemma same_entry r' v' :
  lower v' → pt_path r' v' = pt_path r v ∧ pt_off (vmm_virt_to_offs v') = o4 ↔
  r' = r ∧ v' / 4096 = v / 4096.
Proof.
  intros Hv'. unfold lower in *. rewrite <- path_inj by lia. unfold path, pt_path, o4.
  destruct (vmm_virt_to_offs v) as [a b c d], (vmm_virt_to_offs v') as [a' b' c' d'].
  cbn [pml4_off pdp_off pd_off pt_off]. naive_solver.
Qed.

Definition upd_one (r p e : Z) : updates := λ r' p',
  if decide (r' = r ∧ p' = p) then Some e else None.

Lemma store_leaf r' v' :
  own !! r' = Some [r'] → lower v' →
  leaf (phys s') r' v' = default (leaf (phys s) r' v') (upd_one r (v / 4096) e r' (v' / 4096)).
Proof.
  intros Hr' Hv'. unfold upd_one. pose proof store_tables_ok as Hok'.
  pose proof (same_entry r' v' Hv') as Hsame.
  destruct (walk (phys s) r' v') as [t'|] eqn:Hw.
  - apply (walk_own own) in Hw; [|done..].
    rewrite (leaf_own own s r' v' t'), (leaf_own own s' r' v' t'); try done.
    rewrite store_ent_at; [|by eapply own_aligned|apply vmm_virt_to_offs_ok].
    destruct (decide (t' = t ∧ _)) as [[-> Ho]|Hn].
    + rewrite decide_True; [done|]. apply Hsame. split; [congruence|done].
    + rewrite decide_False; [done|]. intros [Hpath Ho]%Hsame. apply Hn. split; [|done].
      eapply own_inj; [done..|]. congruence.
  - assert (∀ t0, own !! t0 ≠ Some (pt_path r' v')) as Hno.
    { intros t0 H. apply (walk_own own s) in H; [|done..]. congruence. }
    rewrite (leaf_no_own own s r' v'), (leaf_no_own own s' r' v') by done.
    rewrite decide_False; [done|]. intros [Hpath _]%Hsame. apply (Hno t). congruence.
Qed.

Lemma store_step : tstep own s own s' 0 (upd_one r (v / 4096) e).
Proof.
  split; try done.
  - apply store_tables_ok.
  - apply store_leaf.
  - intros t' Ha _ _ Hn. split; [done|]. intros o Ho. rewrite store_ent_at by done.
    rewrite decide_False; [done|]. intros [-> _]. congruence.
  - change (avail s') with (avail s). lia.
Qed.
End store.

Lemma tstep_ext own s own' s' c u u' :
  (∀ r p, u r p = u' r p) → tstep own s own' s' c u → tstep own s own' s' c u'.
Proof. intros E []. split; try done. intros r v Hr Hv. rewrite <- E. auto. Qed.

Lemma tstep_root own s own' s' c u r :
  tstep own s own' s' c u → own !! r = Some [r] → own' !! r = Some [r].
Proof. intros G Hr. eapply lookup_weaken; [done|apply G]. Qed.

(** The value [vmm_map_pages] writes for a page. *)
Definition entry_of (physp perms : Z) : Z := Z.lor (Z.lor physp perms) VMM_FLAG_PRESENT.

Lemma map_one_ok own s r v physp perms :
  tables_ok own s → own !! r = Some [r] → lower v → 3 ≤ avail s →
  ∃ own' s', map_one r v physp perms s = Ok (tt, s') ∧
    tstep own s own' s' 3 (upd_one r (v / 4096) (entry_of physp perms)).
Proof.
  intros Hok Hr Hv Hav. pose proof (store_step) as Hstore. unfold map_one. cbv [mbind M_bind].
  pose proof (lower_slot v r Hv) as Hs1.
  pose proof (offs_slot v r (pml4_off (vmm_virt_to_offs v)) []) as (Hs2 & _ & _).
  pose proof (offs_slot v r (pml4_off (vmm_virt_to_offs v)) [pdp_off (vmm_virt_to_offs v)]) as (_ & Hs3 & _).
  specialize (λ o p t e, Hstore o p r v t e). unfold pt_path in Hstore.
  revert Hs1 Hs2 Hs3 Hstore. generalize (vmm_virt_to_offs v). intros o Hs1 Hs2 Hs3 Hstore.
  destruct (vmm_get_or_alloc_ent_ok own s r [r] (pml4_off o))
    as (t1 & own1 & s1 & E1 & G1 & Ht1); [assumption|assumption|cbn; lia|assumption|lia|].
  rewrite E1. pose proof (g_avail _ _ _ _ _ _ G1). cbn [app] in Ht1.
  destruct (vmm_get_or_alloc_ent_ok own1 s1 t1 [r; pml4_off o] (pdp_off o))
    as (t2 & own2 & s2 & E2 & G2 & Ht2); [apply G1|assumption|cbn; lia|assumption|lia|].
  rewrite E2. pose proof (g_avail _ _ _ _ _ _ G2). cbn [app] in Ht2.
  destruct (vmm_get_or_alloc_ent_ok own2 s2 t2 [r; pml4_off o; pdp_off o] (pd_off o))
    as (t3 & own3 & s3 & E3 & G3 & Ht3); [apply G2|assumption|cbn; lia|assumption|lia|].
  rewrite E3. cbn [store_ent]. exists own3. eexists. split; [reflexivity|].
  pose proof (tstep_trans _ _ _ _ _ _ _ _ _ _ (tstep_trans _ _ _ _ _ _ _ _ _ _ G1 G2) G3) as G.
  eapply tstep_ext; [|eapply (tstep_trans _ _ _ _ _ _ (1 + 1 + 1) 0); [exact G|]].
  2:{ eapply (Hstore own3 s3 t3); [apply G3|assumption|exact Ht3]. }
  intros r' p'. unfold upd_after, upd_one. by case_decide.
Qed.

Definition upd_run (r p0 count : Z) (f : Z → Z) : updates := λ r' p',
  if decide (r' = r ∧ p0 ≤ p' < p0 + count) then Some (f (p' - p0)) else None.

Lemma vmm_map_pages_ok count own s r v physp perms :
  tables_ok own s → own !! r = Some [r] → 0 ≤ v → v + 4096 * Z.of_nat count ≤ 2 ^ 47 →
  is_u64 physp → 3 * Z.of_nat count ≤ avail s →
  ∃ own' s', vmm_map_pages r v physp count perms s = Ok (1, s') ∧
    tstep own s own' s' (3 * Z.of_nat count)
      (upd_run r (v / 4096) (Z.of_nat count) (λ i, entry_of (u64 (physp + 4096 * i)) perms)).
Proof.
  revert own s v physp. induction count as [|count IH]; intros own s v physp Hok Hr Hv Hv' Hp Hav.
  - exists own, s. split; [done|]. eapply tstep_ext; [|by apply tstep_refl].
    intros r' p'. unfold upd_run, no_upd. rewrite decide_False; [done|lia].
  - destruct (map_one_ok own s r v physp perms) as (own1 & s1 & H1 & G1); [done|done|unfold lower; lia|lia|].
    cbn [vmm_map_pages]. cbv [mbind M_bind]. rewrite H1. pose proof (g_avail _ _ _ _ _ _ G1).
    rewrite (u64_small (v + 4096)) by lia.
    destruct (IH own1 s1 (v + 4096) (u64 (physp + 4096))) as (own2 & s2 & -> & G2);
      [apply G1|by eapply tstep_root|lia|lia|apply u64_range|lia|].
    exists own2, s2. split; [done|].
    eapply tstep_ext; [|eapply tstep_weaken; [by eapply tstep_trans|lia]].
    replace ((v + 4096) / 4096) with (v / 4096 + 1) by wrap_lia.
    intros r' p'. unfold upd_after, upd_run, upd_one.
    destruct (decide (r' = r ∧ v / 4096 + 1 ≤ p' < _)).
    + rewrite decide_True by lia. rewrite u64_add_l.
      replace (physp + 4096 + 4096 * (p' - (v / 4096 + 1))) with (physp + 4096 * (p' - v / 4096)) by lia.
      done.
    + destruct (decide (r' = r ∧ p' = v / 4096)) as [[-> ->]|].
      * rewrite decide_True by lia. rewrite Z.sub_diag, Z.mul_0_r, Z.add_0_r. by rewrite u64_small.
      * rewrite decide_False by lia. done.
Qed.

(** ** Unmapping *)

Lemma vmm_unmap_pages_ok count own s r v :
  tables_ok own s → own !! r = Some [r] → 0 ≤ v → v + 4096 * Z.of_nat count ≤ 2 ^ 47 →
  ∃ k s', 0 ≤ k ≤ Z.of_nat count ∧
    vmm_unmap_pages r v count s = Ok ((if k =? Z.of_nat count then 1 else 0), s') ∧
    tstep own s own s' 0 (upd_run r (v / 4096) k (λ _, 0)) ∧
    (∀ i, 0 ≤ i < k → is_Some (walk (phys s) r (v + 4096 * i))) ∧
    (k < Z.of_nat count → walk (phys s) r (v + 4096 * k) = None).
Proof.
  revert s v. induction count as [|count IH]; intros s v Hok Hr Hv Hv'.
  - exists 0, s. split; [lia|]. split; [done|]. split; [|split; lia].
    eapply tstep_ext; [|by apply tstep_refl].
    intros r' p'. unfold upd_run, no_upd. rewrite decide_False; [done|lia].
  - cbn [vmm_unmap_pages]. cbv [mbind M_bind]. rewrite find_pt_walk.
    assert (lower v) as Hlow by (unfold lower; lia).
    destruct (walk (phys s) r v) as [t|] eqn:Hw.
    2:{ exists 0, s. split; [lia|]. split; [done|]. split; [|split].
        - eapply tstep_ext; [|by apply tstep_refl].
          intros r' p'. unfold upd_run, no_upd. rewrite decide_False; [done|lia].
        - lia.
        - intros _. by rewrite Z.mul_0_r, Z.add_0_r. }
    pose proof Hw as Hown. apply (walk_own own) in Hown; [|done..].
    pose proof (store_step own s r v t 0 Hok Hlow Hown) as G1. cbn [store_ent].
    set (s1 := set_phys _ s) in *. rewrite u64_small by lia.
    destruct (IH s1 (v + 4096)) as (k & s2 & Hk & -> & G2 & Hsome & Hnone); [apply G1|done|lia|lia|].
    assert (∀ v', lower v' → ∀ o, walk (phys s1) r v' = o → walk (phys s) r v' = o) as Hwalk.
    { intros v' Hv'' o <-. destruct (walk (phys s1) r v') as [t'|] eqn:E.
      - apply (walk_own own s1) in E; [|apply G1|done..]. by apply (walk_own own s).
      - destruct (walk (phys s) r v') as [t'|] eqn:E'; [|done].
        apply (walk_own own s) in E'; [|done..]. apply (walk_own own s1) in E'; [|apply G1|done..].
        congruence. }
    exists (k + 1), s2. split; [lia|]. split_and!.
    + do 2 f_equal. destruct (Z.eqb_spec k (Z.of_nat count)), (Z.eqb_spec (k + 1) (Z.of_nat (S count))); lia.
    + eapply tstep_ext; [|eapply tstep_weaken; [by eapply tstep_trans|lia]].
      replace ((v + 4096) / 4096) with (v / 4096 + 1) by wrap_lia.
      intros r' p'. unfold upd_after, upd_run, upd_one.
      repeat (case_decide; try done); exfalso; lia.
    + intros i Hi. destruct (decide (i = 0)) as [->|]; [rewrite Z.mul_0_r, Z.add_0_r; eauto|].
      destruct (Hsome (i - 1)) as [t' Ht']; [lia|]. exists t'. apply Hwalk; [unfold lower; lia|].
      rewrite <- Ht'. f_equal. lia.
    + intros Hlt. apply Hwalk; [unfold lower; lia|]. rewrite <- Hnone by lia. f_equal. lia.
Qed.

(** ** Properties *)

(** The entry that [vmm_get_entry] reads. *)
Definition entry (r v : Z) (s : pmm) : option Z := value (vmm_get_entry r v s).

Lemma entry_leaf r v s : lower v → entry r v s = Some (leaf (phys s) r v).
Proof. intros Hv. unfold entry. by rewrite vmm_get_entry_leaf. Qed.

(** Memory of pages that are in use and hold no table. *)
Definition same_data (own : gmap Z (list Z)) (s s' : pmm) : Prop :=
  ∀ t o, aligned t → 0 ≤ t → used (pmm_bitmap s) (t / 4096) = true → own !! t = None → off_ok o →
    ent (phys s') t o = ent (phys s) t o.

Lemma tstep_data own s own' s' c u : tstep own s own' s' c u → same_data own s s'.
Proof. intros G t o Ha Ht Hu Hn Ho. by apply (g_data _ _ _ _ _ _ G). Qed.

Lemma tstep_run_entry own s own' s' c r p0 n f r' v' :
  tstep own s own' s' c (upd_run r p0 n f) → own !! r' = Some [r'] → lower v' →
  entry r' v' s' =
    if decide (r' = r ∧ p0 ≤ v' / 4096 < p0 + n) then Some (f (v' / 4096 - p0)) else entry r' v' s.
Proof.
  intros G Hr' Hv'. rewrite !entry_leaf by done. rewrite (g_leaf _ _ _ _ _ _ G) by done.
  unfold upd_run. by case_decide.
Qed.

(** C17. [vmm_map_pages] on a well-formed set of address spaces with enough
    free pages returns 1 and keeps the set well formed; reading an entry
    afterwards gives the physical page and the permissions in the mapped
    range of the given root, and what it gave before everywhere else: at
    every other address and in every other address space. Pages in use that
    hold no table keep their contents. *)
Theorem vmm_map_pages_spec (own : gmap Z (list Z)) (s : pmm) (r v physp perms : Z) (count : nat) :
  tables_ok own s → own !! r = Some [r] → 0 ≤ v → v + 4096 * Z.of_nat count ≤ 2 ^ 47 →
  is_u64 physp → 3 * Z.of_nat count ≤ avail s →
  ∃ own' s', vmm_map_pages r v physp count perms s = Ok (1, s') ∧ tables_ok own' s' ∧ own ⊆ own' ∧
    (∀ r' v', own !! r' = Some [r'] → lower v' →
      entry r' v' s' =
        if decide (r' = r ∧ v / 4096 ≤ v' / 4096 < v / 4096 + Z.of_nat count)
        then Some (entry_of (u64 (physp + 4096 * (v' / 4096 - v / 4096))) perms)
        else entry r' v' s) ∧
    same_data own s s'.
Proof.
  intros Hok Hr Hv Hv' Hp Hav.
  destruct (vmm_map_pages_ok count own s r v physp perms) as (own' & s' & E & G); [done..|].
  exists own', s'. split_and!; [done|apply G|apply G| |by eapply tstep_data].
  intros r' v' Hr' Hl. by eapply (tstep_run_entry _ _ _ _ _ _ _ _ (λ i, entry_of (u64 (physp + 4096 * i)) perms)).
Qed.

(** A root table in page 8192, no other table. *)
Definition demo_root : Z := 8192 * 4096.
Definition demo_own : gmap Z (list Z) := {[demo_root := [demo_root]]}.

Lemma demo_tables_ok : tables_ok demo_own demo_pmm.
Proof.
  assert (∀ t π, demo_own !! t = Some π → t = demo_root ∧ π = [demo_root]) as Hd.
  { intros t π H. unfold demo_own in H. apply lookup_singleton_Some in H. naive_solver. }
  split.
  - split; [|vm_compute; congruence]. eapply covers_mono; [apply demo_pmm_covers|vm_compute; congruence].
  - intros t π H. apply Hd in H as [-> ->]. exists 8192. split_and!; vm_compute; congruence.
  - intros t t' π H H'. apply Hd in H, H'. naive_solver.
  - intros t π H. apply Hd in H as [-> ->]. cbn. lia.
  - intros t r H. apply Hd in H. naive_solver.
  - intros t π off H _ _ Hp. exfalso. unfold ent, rd in Hp. cbn [phys demo_pmm] in Hp.
    rewrite lookup_empty in Hp. vm_compute in Hp. done.
  - intros t π off H Hne. apply Hd in H as [-> H]. destruct π as [|? []]; [done|..]; done.
  - intros t π off _ _ _ Hp. exfalso. unfold ent, rd in Hp. cbn [phys demo_pmm] in Hp.
    rewrite lookup_empty in Hp. vm_compute in Hp. done.
Qed.

Lemma demo_root_own : demo_own !! demo_root = Some [demo_root].
Proof. apply lookup_singleton_eq. Qed.

Lemma demo_avail : avail demo_pmm = 62.
Proof.
  unfold avail. rewrite count_clear_low; [vm_compute; reflexivity|done|].
  intros j Hj. by rewrite demo_pmm_low.
Qed.

Lemma vmm_map_pages_spec_witness :
  ∃ s', vmm_map_pages demo_root 0x400000 0x5000000 2 VMM_FLAG_USER demo_pmm = Ok (1, s') ∧
    entry demo_root 0x401010 s' = Some 0x5001005 ∧ entry demo_root 0x402000 s' = Some 0.
Proof.
  destruct (vmm_map_pages_spec demo_own demo_pmm demo_root 0x400000 0x5000000 VMM_FLAG_USER 2)
    as (own' & s' & E & _ & _ & He & _);
    [apply demo_tables_ok|apply demo_root_own|lia|lia|unfold is_u64; lia|rewrite demo_avail; lia|].
  exists s'. split; [exact E|]. split.
  - rewrite He; [vm_compute; reflexivity|apply demo_root_own|unfold lower; lia].
  - rewrite He; [vm_compute; reflexivity|apply demo_root_own|unfold lower; lia].
Defined.

(** [vmm_unmap_pages] clears the entries of its range from the first page
    on until it meets a page whose page table is missing, returns 1 when it
    reached the end and 0 when it stopped there; every other entry of every
    address space, and every page that holds no table, is unchanged. *)
Theorem vmm_unmap_pages_spec (own : gmap Z (list Z)) (s : pmm) (r v : Z) (count : nat) :
  tables_ok own s → own !! r = Some [r] → 0 ≤ v → v + 4096 * Z.of_nat count ≤ 2 ^ 47 →
  ∃ k s', vmm_unmap_pages r v count s = Ok ((if k =? Z.of_nat count then 1 else 0), s') ∧
    0 ≤ k ≤ Z.of_nat count ∧
    (∀ i, 0 ≤ i < k → is_Some (walk (phys s) r (v + 4096 * i))) ∧
    (k < Z.of_nat count → walk (phys s) r (v + 4096 * k) = None) ∧
    tables_ok own s' ∧
    (∀ r' v', own !! r' = Some [r'] → lower v' →
      entry r' v' s' =
        if decide (r' = r ∧ v / 4096 ≤ v' / 4096 < v / 4096 + k) then Some 0 else entry r' v' s) ∧
    same_data own s s'.
Proof.
  intros Hok Hr Hv Hv'.
  destruct (vmm_unmap_pages_ok count own s r v) as (k & s' & Hk & E & G & Hs & Hn); [done..|].
  exists k, s'. split_and!; [done|lia|lia|done|done|apply G| |by eapply tstep_data].
  intros r' v' Hr' Hl. by eapply (tstep_run_entry _ _ _ _ _ _ _ _ (λ _, 0)).
Qed.

Lemma vmm_unmap_pages_spec_witness :
  ∃ k s', vmm_unmap_pages demo_root 0x400000 2 demo_pmm = Ok ((if k =? 2 then 1 else 0), s') ∧
    tables_ok demo_own s'.
Proof.
  destruct (vmm_unmap_pages_spec demo_own demo_pmm demo_root 0x400000 2)
    as (k & s' & E & _ & _ & _ & Hok & _);
    [apply demo_tables_ok|apply demo_root_own|lia|lia|].
  exists k, s'. split; [exact E|exact Hok].
Defined.

Lemma entry_of_present p f : entry_of p f ≠ 0.
Proof.
  intros H. pose proof (is_present_lor (Z.lor p f)) as Hp.
  fold (entry_of p f) in Hp. by rewrite H in Hp.
Qed.

Lemma leaf_walk m r v : leaf m r v ≠ 0 → is_Some (walk m r v).
Proof. unfold leaf. destruct (walk m r v); [eauto|done]. Qed.

(** C21. Mapping a range and unmapping it again succeeds and leaves every
    address of every address space reading as before the mapping, except
    that the range itself reads as unmapped. *)
Theorem vmm_map_unmap_roundtrip (own : gmap Z (list Z)) (s : pmm) (r v physp perms : Z) (count : nat) :
  tables_ok own s → own !! r = Some [r] → 0 ≤ v → v + 4096 * Z.of_nat count ≤ 2 ^ 47 →
  is_u64 physp → 3 * Z.of_nat count ≤ avail s →
  ∃ own' s', (vmm_map_pages r v physp count perms;; vmm_unmap_pages r v count) s = Ok (1, s') ∧
    tables_ok own' s' ∧
    (∀ r' v', own !! r' = Some [r'] → lower v' →
      entry r' v' s' =
        if decide (r' = r ∧ v / 4096 ≤ v' / 4096 < v / 4096 + Z.of_nat count)
        then Some 0 else entry r' v' s).
Proof.
  intros Hok Hr Hv Hv' Hp Hav. cbv [mbind M_bind].
  destruct (vmm_map_pages_ok count own s r v physp perms) as (own1 & s1 & -> & G1); [done..|].
  destruct (vmm_unmap_pages_ok count own1 s1 r v) as (k & s2 & Hk & -> & G2 & _ & Hn);
    [apply G1|by eapply tstep_root|done..|].
  assert (k = Z.of_nat count) as ->.
  { destruct (decide (k = Z.of_nat count)) as [|Hne]; [done|]. exfalso.
    assert (lower (v + 4096 * k)) as Hl by (unfold lower; lia).
    pose proof (g_leaf _ _ _ _ _ _ G1 r _ Hr Hl) as He. unfold upd_run in He.
    replace ((v + 4096 * k) / 4096) with (v / 4096 + k) in He by wrap_lia.
    rewrite decide_True in He by lia. cbn in He.
    destruct (leaf_walk (phys s1) r (v + 4096 * k)) as [t Ht].
    { rewrite He. apply entry_of_present. }
    rewrite Hn in Ht by lia. done. }
  rewrite Z.eqb_refl. exists own1, s2. split_and!; [done|apply G2|].
  intros r' v' Hr' Hl.
  rewrite (tstep_run_entry _ _ _ _ _ _ _ _ _ _ _ G2) by (done || by eapply lookup_weaken, G1).
  case_decide as Hd; [done|]. rewrite (tstep_run_entry _ _ _ _ _ _ _ _ _ _ _ G1) by done.
  by rewrite decide_False.
Qed.

Lemma vmm_map_unmap_roundtrip_witness :
  ∃ s', (vmm_map_pages demo_root 0x400000 0x5000000 2 VMM_FLAG_USER;;
         vmm_unmap_pages demo_root 0x400000 2) demo_pmm = Ok (1, s') ∧
    entry demo_root 0x401000 s' = Some 0.
Proof.
  destruct (vmm_map_unmap_roundtrip demo_own demo_pmm demo_root 0x400000 0x5000000 VMM_FLAG_USER 2)
    as (own' & s' & E & _ & He);
    [apply demo_tables_ok|apply demo_root_own|lia|lia|unfold is_u64; lia|rewrite demo_avail; lia|].
  exists s'. split; [exact E|].
  rewrite He; [vm_compute; reflexivity|apply demo_root_own|unfold lower; lia].
Defined.

(** ** Out of memory *)

Lemma alloc_none s : pool_ok s → avail s = 0 → pmm_alloc 1 s = Ok (0, s).
Proof.
  intros [Hc Hl] Hav. unfold pmm_alloc.
  destruct (pmm_alloc_ex_cases s 1 1 0) as [(idx & s' & He & [Hi _] & Hf & _)|[He _]];
    [lia|lia|cbn; lia|done| |done].
  exfalso. cbn in Hi. change first_page with 8192 in *.
  pose proof (count_clear_run_le (λ j, used (pmm_bitmap s) j || (j <? 8192)) (pmm_bitmap_len s) idx 1) as Hle.
  unfold avail in Hav. change first_page with 8192 in Hav. rewrite Hav in Hle.
  enough (1 ≤ 0) by lia. apply Hle; [lia|lia|lia|]. intros j Hj. rewrite Hf by lia. lia.
Qed.

(** The step that looks for or creates one table, when there is no page left. *)
Lemma get_or_alloc_none s t off :
  pool_ok s → avail s = 0 →
  vmm_get_or_alloc_ent (Some t) off higher_perms s =
    if is_present (ent (phys s) t off) then Ok (Some (ent_addr (ent (phys s) t off)), s)
    else Ok (None, set_phys (<[t + 8 * off := 0]> (phys s)) s).
Proof.
  intros Hp Hav. unfold vmm_get_or_alloc_ent. cbv [mbind M_bind]. cbn [load_ent].
  destruct (is_present (ent (phys s) t off)); [done|]. by rewrite alloc_none.
Qed.

(** With no physical page left, mapping a page whose page table does not
    exist dereferences a null table: the missing table is not reported, the
    routine faults instead of returning an error. *)
Theorem vmm_map_pages_oom (s : pmm) (r v physp perms : Z) (n : nat) :
  pool_ok s → avail s = 0 → walk (phys s) r v = None →
  vmm_map_pages r v physp (S n) perms s = Fault.
Proof.
  intros Hp Hav. cbn [vmm_map_pages]. unfold map_one, walk. generalize (vmm_virt_to_offs v). intros o Hw.
  cbv [mbind M_bind]. rewrite get_or_alloc_none by done.
  destruct (is_present (ent (phys s) r (pml4_off o))); [|done].
  rewrite get_or_alloc_none by done.
  destruct (is_present (ent (phys s) _ (pdp_off o))); [|done].
  rewrite get_or_alloc_none by done.
  destruct (is_present (ent (phys s) _ (pd_off o))); done.
Qed.

(** Every page of the pool in use. *)
Definition full_pmm : pmm := Pmm (replicate 130 (2 ^ 64 - 1)) 8256 0 200 ∅.

Lemma vmm_map_pages_oom_witness :
  vmm_map_pages demo_root 0x400000 0x5000000 1 VMM_FLAG_USER full_pmm = Fault.
Proof.
  apply (vmm_map_pages_oom full_pmm demo_root 0x400000 0x5000000 VMM_FLAG_USER 0).
  - split; [|vm_compute; congruence]. split; [|vm_compute; congruence].
    apply Forall_replicate. unfold is_u64. lia.
  - unfold avail. rewrite (count_clear_const _ true); [reflexivity|]. intros j Hj%elem_of_seqZ.
    unfold used, full_pmm in *. cbn [pmm_bitmap pmm_bitmap_len] in *.
    rewrite lookup_replicate_2 by wrap_lia. rewrite (Z.ones_spec_low 64) by wrap_lia. done.
  - vm_compute. reflexivity.
Defined.
