(* ===== verification/Vmm.v ===== *)
(** * x86_64 address spaces (arch/x86_64/mm/vmm.cpp, from vmm_new_address_space on)

    The kernel's page table root, the context register and the saved contexts
    of the CPUs on top of the page tables of Paging.v, and the [arch_mm_*]
    interface of arch/mm.h. The memory accesses of the copy windows go through
    the page tables the context register selects. The TLB is not modelled:
    [invlpg] has no effect on the state. Logging is left out, and so is
    [copy_lock] (one CPU runs the routine at a time). *)
From S2P Require Import Prelude Pmm Paging.
From stdpp Require Import base numbers option gmap list.
#[local] Open Scope Z_scope.

(** ** Program headers of the kernel image (loader/elf64.h) *)
Record elf64_phdr := Phdr {
  p_type : Z; p_flags : Z; p_offset : Z; p_vaddr : Z; p_paddr : Z;
  p_filesz : Z; p_memsz : Z; p_align : Z;
}.
Definition ELF_PHDR_TYPE_LOAD : Z := 1.
Definition ELF_PHDR_FLAG_X : Z := Z.shiftl 1 0.
Definition ELF_PHDR_FLAG_W : Z := Z.shiftl 1 1.

(** ** Permissions (arch/mm.h) *)
Definition perm_read : Z := 1.
Definition perm_write : Z := 2.
Definition perm_execute : Z := 4.
Definition perm_user : Z := 8.

(** ** State *)
Record vmm := Vmm {
  mem : pmm;                    (** physical memory and its allocator *)
  kernel_pml4 : Z;              (** 0 stands for NULL *)
  cr3 : Z;                      (** the context register of the running CPU *)
  saved_vmm_ctx : Z;            (** [cpu_data_get(cpu_get_id())->saved_vmm_ctx] *)
}.

Definition set_mem (m : pmm) (s : vmm) : vmm := Vmm m (kernel_pml4 s) (cr3 s) (saved_vmm_ctx s).
Definition set_kernel_pml4 (p : Z) (s : vmm) : vmm := Vmm (mem s) p (cr3 s) (saved_vmm_ctx s).
Definition set_cr3 (c : Z) (s : vmm) : vmm := Vmm (mem s) (kernel_pml4 s) c (saved_vmm_ctx s).
Definition set_saved (c : Z) (s : vmm) : vmm := Vmm (mem s) (kernel_pml4 s) (cr3 s) c.

Definition on_mem {A} (m : M pmm A) : M vmm A := zoom mem set_mem m.

(** ** New address spaces *)

(** [memcpy] of the upper halves of two root tables. *)
Definition copy_upper (m : gmap Z Z) (dst src : Z) : gmap Z Z :=
  foldr (λ i m', <[dst + 8 * i := rd m (src + 8 * i)]> m') m (seqZ 256 256).

Definition kernel_segment (pml4 : Z) (ph : elf64_phdr) : M pmm () :=
  if negb (p_type ph =? ELF_PHDR_TYPE_LOAD) then mret tt
  else if p_vaddr ph <? 0xFFFFFFFF80000000 then mret tt
  else
    let flags := Z.lor VMM_FLAG_NX VMM_FLAG_PRESENT in
    let flags := if has (p_flags ph) ELF_PHDR_FLAG_X then Z.land flags (u64 (Z.lnot VMM_FLAG_NX)) else flags in
    let flags := if has (p_flags ph) ELF_PHDR_FLAG_W then Z.lor flags VMM_FLAG_WRITE else flags in
    let n_pages := u64 (p_memsz ph + 0xFFF) / 0x1000 in
    vmm_map_pages pml4 (p_vaddr ph) (p_paddr ph) (Z.to_nat n_pages) flags;;
    mret tt.

(** [phdrs] are the program headers found at [__ehdr_start], [None] when the
    linker symbol is null. *)
Definition vmm_new_address_space (phdrs : option (list elf64_phdr)) : M vmm Z :=
  new_pml4 ← on_mem (pmm_alloc 1);
  on_mem (clear_page new_pml4);;
  k ← gets kernel_pml4;
  if negb (k =? 0) then
    on_mem (modify (λ s, set_phys (copy_upper (phys s) new_pml4 k) s));;
    mret new_pml4
  else
    on_mem (vmm_map_huge_pages new_pml4 0xFFFF800000000000 0 (512 * 4) 3);;
    match phdrs with
    | None =>
        on_mem (vmm_map_huge_pages new_pml4 0xFFFFFFFF80000000 0 64 3);;
        mret new_pml4
    | Some l =>
        on_mem (for_each (kernel_segment new_pml4) l);;
        mret new_pml4
    end.

(** ** Contexts *)

Definition vmm_get_current_context : M vmm Z := gets cr3.
Definition vmm_set_context (ctx : Z) : M vmm () := modify (set_cr3 ctx).
Definition vmm_update_mapping (ptr : Z) : M vmm () := mret tt.

Definition vmm_init (phdrs : option (list elf64_phdr)) : M vmm () :=
  p ← vmm_new_address_space phdrs;
  modify (set_kernel_pml4 p);;
  k ← gets kernel_pml4;
  vmm_set_context k.

Definition vmm_save_context : M vmm () :=
  c ← vmm_get_current_context;
  modify (set_saved c).
Definition vmm_get_saved_context : M vmm Z := gets saved_vmm_ctx.
Definition vmm_restore_context : M vmm () :=
  c ← gets saved_vmm_ctx;
  vmm_set_context c;;
  modify (set_saved 0).
Definition vmm_drop_context : M vmm () := modify (set_saved 0).

(** ** The memory management unit

    The translation of a virtual address by the page tables: the table at
    each level, large pages at the second and third. *)
Definition MMU_ADDR_MASK : Z := 0x000FFFFFFFFFF000.

Definition translate (m : gmap Z Z) (root v : Z) : option Z :=
  let o := vmm_virt_to_offs v in
  let hw e := Z.land e MMU_ADDR_MASK in
  let e1 := ent m root (pml4_off o) in
  if negb (is_present e1) then None else
  let e2 := ent m (hw e1) (pdp_off o) in
  if negb (is_present e2) then None else
  if has e2 VMM_FLAG_LARGE then Some (hw e2 / 2 ^ 30 * 2 ^ 30 + v mod 2 ^ 30) else
  let e3 := ent m (hw e2) (pd_off o) in
  if negb (is_present e3) then None else
  if has e3 VMM_FLAG_LARGE then Some (hw e3 / 2 ^ 21 * 2 ^ 21 + v mod 2 ^ 21) else
  let e4 := ent m (hw e3) (pt_off o) in
  if is_present e4 then Some (hw e4 + v mod 4096) else None.

(** Bytes of physical memory, which is kept as little-endian 64-bit words. *)
Definition load8 (m : gmap Z Z) (a : Z) : Z :=
  (rd m (a / 8 * 8) / 2 ^ (8 * (a mod 8))) mod 256.
Definition store8 (m : gmap Z Z) (a b : Z) : gmap Z Z :=
  let w := rd m (a / 8 * 8) in
  let k := 2 ^ (8 * (a mod 8)) in
  <[a / 8 * 8 := w + (b - (w / k) mod 256) * k]> m.

Definition vload8 (v : Z) : M vmm Z := λ s,
  match translate (phys (mem s)) (cr3 s) v with
  | Some a => Ok (load8 (phys (mem s)) a, s)
  | None => Fault
  end.
Definition vstore8 (v b : Z) : M vmm () := λ s,
  match translate (phys (mem s)) (cr3 s) v with
  | Some a => Ok (tt, set_mem (set_phys (store8 (phys (mem s)) a b) (mem s)) s)
  | None => Fault
  end.

(** ** Copying between address spaces *)

(** A loop [for (i = 0; i < n; i += 0x1000)] over 64-bit [i]: its rounds, and
    whether the counter wraps before it reaches [n]. *)
Definition page_rounds (n : Z) : list Z := seqZ 0 ((n + 0xFFF) / 0x1000).
Definition page_loop (n : Z) (f : Z → M vmm ()) : M vmm () :=
  for_each f (page_rounds n);;
  if 2 ^ 64 - 0x1000 <? n then lift Hang else mret tt.

Definition SRC_WINDOW : Z := 0x780000000000.
Definition DST_WINDOW : Z := 0x700000000000.

Definition vmm_ctx_memcpy (dst_ctx dst_addr src_ctx src_addr size : Z) : M vmm () :=
  let dst := dst_addr - dst_addr mod 0x1000 in
  let src := src_addr - src_addr mod 0x1000 in
  let map_size := u64 (size + Z.max (dst_addr mod 0x1000) (src_addr mod 0x1000)) in
  page_loop map_size (λ i,
    dst_ent ← on_mem (vmm_get_entry dst_ctx (u64 (dst + 0x1000 * i)));
    src_ent ← on_mem (vmm_get_entry src_ctx (u64 (src + 0x1000 * i)));
    k ← gets kernel_pml4;
    on_mem (vmm_map_pages k (u64 (DST_WINDOW + 0x1000 * i)) (ent_addr dst_ent) 1 VMM_FLAG_WRITE);;
    on_mem (vmm_map_pages k (u64 (SRC_WINDOW + 0x1000 * i)) (ent_addr src_ent) 1 VMM_FLAG_WRITE);;
    vmm_update_mapping (u64 (DST_WINDOW + 0x1000 * i));;
    vmm_update_mapping (u64 (SRC_WINDOW + 0x1000 * i)));;
  for_each (λ i,
    b ← vload8 (u64 (SRC_WINDOW + src_addr mod 0x1000 + i));
    vstore8 (u64 (DST_WINDOW + dst_addr mod 0x1000 + i)) b) (seqZ 0 size);;
  page_loop map_size (λ i,
    k ← gets kernel_pml4;
    on_mem (vmm_unmap_pages k (u64 (DST_WINDOW + 0x1000 * i)) 1);;
    on_mem (vmm_unmap_pages k (u64 (SRC_WINDOW + 0x1000 * i)) 1);;
    vmm_update_mapping (u64 (DST_WINDOW + 0x1000 * i));;
    vmm_update_mapping (u64 (SRC_WINDOW + 0x1000 * i))).

(** ** The arch_mm interface *)

(** The flags are accumulated in an [int]: each [|=] keeps the low 32 bits. *)
Definition or_int (a f : Z) : Z := s32 (Z.lor a f).

Definition vmm_arch_to_vmm_flags (flags cache : Z) : Z :=
  let a := 0 in
  let a := if has flags perm_write then or_int a VMM_FLAG_WRITE else a in
  let a := if has flags perm_user then or_int a VMM_FLAG_USER else a in
  let a := if negb (has flags perm_execute) then or_int a VMM_FLAG_NX else a in
  let a := if has cache (Z.shiftl 1 0) then or_int a VMM_FLAG_PAT0 else a in
  let a := if has cache (Z.shiftl 1 1) then or_int a VMM_FLAG_PAT1 else a in
  if has cache (Z.shiftl 1 2) then or_int a VMM_FLAG_PAT2 else a.

Definition arch_mm_map (ctx dst src size flags cache : Z) : M vmm Z :=
  on_mem (vmm_map_pages ctx dst src (Z.to_nat size) (u64 (vmm_arch_to_vmm_flags flags cache))).
Definition arch_mm_unmap (ctx dst size : Z) : M vmm Z := on_mem (vmm_unmap_pages ctx dst (Z.to_nat size)).
Definition arch_mm_map_kernel (dst src size flags cache : Z) : M vmm Z :=
  k ← gets kernel_pml4;
  on_mem (vmm_map_pages k dst src (Z.to_nat size) (u64 (vmm_arch_to_vmm_flags flags cache))).
Definition arch_mm_unmap_kernel (dst size : Z) : M vmm Z :=
  k ← gets kernel_pml4;
  on_mem (vmm_unmap_pages k dst (Z.to_nat size)).

Definition kernel_entry (dst : Z) : M vmm Z :=
  k ← gets kernel_pml4;
  on_mem (vmm_get_entry k dst).
Definition arch_mm_get_phys_kernel (dst : Z) : M vmm Z :=
  e ← kernel_entry dst; mret (Z.land e VMM_ADDR_MASK).

(** [int arch_flags = entry & VMM_FLAG_MASK] keeps the low 32 bits; in the
    tests it is converted back to 64 bits. *)
Definition flags_of_entry (e : Z) : Z :=
  let arch_flags := s32 (Z.land e VMM_FLAG_MASK) in
  let flags := if negb (arch_flags =? 0) then perm_read else 0 in
  let flags := if has (u64 arch_flags) VMM_FLAG_WRITE then Z.lor flags perm_write else flags in
  let flags := if has (u64 arch_flags) VMM_FLAG_USER then Z.lor flags perm_user else flags in
  if negb (has (u64 arch_flags) VMM_FLAG_NX) then Z.lor flags perm_execute else flags.
Definition arch_mm_get_flags_kernel (dst : Z) : M vmm Z := e ← kernel_entry dst; mret (flags_of_entry e).

Definition cache_of_entry (e : Z) : Z :=
  let arch_flags := s32 (Z.land e VMM_FLAG_MASK) in
  let flags := 0 in
  let flags := if has (u64 arch_flags) VMM_FLAG_PAT0 then Z.lor flags (Z.shiftl 1 0) else flags in
  let flags := if has (u64 arch_flags) VMM_FLAG_PAT1 then Z.lor flags (Z.shiftl 1 1) else flags in
  if has (u64 arch_flags) VMM_FLAG_PAT2 then Z.lor flags (Z.shiftl 1 2) else flags.
Definition arch_mm_get_cache_kernel (dst : Z) : M vmm Z := e ← kernel_entry dst; mret (cache_of_entry e).

Definition arch_mm_get_ctx_kernel : M vmm Z := gets kernel_pml4.
Definition arch_mm_store_context : M vmm Z := vmm_save_context;; mret 1.
Definition arch_mm_switch_context (ctx : Z) : M vmm Z := vmm_set_context ctx;; mret 1.
Definition arch_mm_restore_context : M vmm Z := vmm_restore_context;; mret 1.
Definition arch_mm_drop_context : M vmm Z := vmm_drop_context;; mret 1.
Definition arch_mm_update_context_all (cpu : Z) : M vmm Z :=
  c ← vmm_get_current_context; vmm_set_context c;; mret 1.
Definition arch_mm_update_context_single (cpu dst : Z) : M vmm Z := vmm_update_mapping dst;; mret 1.
Definition arch_mm_create_context (phdrs : option (list elf64_phdr)) : M vmm Z := vmm_new_address_space phdrs.

(** ** Destroying a context *)

Definition destroy_pd (pd : Z) : M pmm () :=
  for_each (λ k,
    e ← load_ent (Some pd) k;
    if has e VMM_FLAG_LARGE then mret tt
    else if has e VMM_FLAG_PRESENT then mret tt
    else pmm_free (ent_addr e) 1) (seqZ 0 512).

Definition destroy_pdp (pdp : Z) : M pmm () :=
  for_each (λ j,
    pd ← vmm_get_or_null_ent (Some pdp) j;
    match pd with
    | None => mret tt
    | Some pd =>
        destroy_pd pd;;
        e ← load_ent (Some pdp) j;
        pmm_free (ent_addr e) 1
    end) (seqZ 0 512).

Definition arch_mm_destroy_context (ctx : Z) : M pmm () :=
  for_each (λ i,
    pdp ← vmm_get_or_null_ent (Some ctx) i;
    match pdp with
    | None => mret tt
    | Some pdp =>
        destroy_pdp pdp;;
        e ← load_ent (Some ctx) i;
        pmm_free (ent_addr e) 1
    end) (seqZ 0 256);;
  pmm_free ctx 1.

(** ** Copying into and out of a mapping

    [pages] are the [_ptr]s of the backing pages, [size] is [_size]; [data] is
    the buffer. *)
Definition map_window (pages : list Z) (msize : Z) : M vmm () :=
  for_each (λ i,
    physp ← lift (access (pages !! Z.to_nat i));
    k ← gets kernel_pml4;
    on_mem (vmm_map_pages k (u64 (DST_WINDOW + 0x1000 * i)) physp 1 VMM_FLAG_WRITE);;
    mret tt) (seqZ 0 msize).

Definition unmap_window (msize : Z) : M vmm () :=
  for_each (λ i,
    k ← gets kernel_pml4;
    on_mem (vmm_unmap_pages k (u64 (DST_WINDOW + 0x1000 * i)) 1);;
    vmm_update_mapping (u64 (DST_WINDOW + 0x1000 * i))) (seqZ 0 msize).

Fixpoint write_bytes (v : Z) (data : list Z) : M vmm () :=
  match data with
  | [] => mret tt
  | b :: data' => vstore8 v b;; write_bytes (u64 (v + 1)) data'
  end.

Fixpoint read_bytes (v : Z) (n : nat) : M vmm (list Z) :=
  match n with
  | O => mret []
  | S n' => b ← vload8 v; l ← read_bytes (u64 (v + 1)) n'; mret (b :: l)
  end.

Definition arch_mm_mapping_load (pages : list Z) (msize offset : Z) (data : list Z) : M vmm () :=
  map_window pages msize;;
  write_bytes (u64 (DST_WINDOW + offset)) data;;
  unmap_window msize.

Definition arch_mm_mapping_store (pages : list Z) (msize offset : Z) (size : nat) : M vmm (list Z) :=
  map_window pages msize;;
  data ← read_bytes (u64 (DST_WINDOW + offset)) size;
  unmap_window msize;;
  mret data.
