(* ===== verification/Arch.v ===== *)
(** * The memory interface of the architectures (arch/mm.h)

    What mm/vm.cpp may call, and what it relies on. The contract speaks of the
    contexts that exist, the entry a context has for a page (0 for none), the
    physical pages handed out and their bytes, and the number of physical pages
    left. ArchX86.v discharges it for x86_64, Window.v the part on copying. *)
From S2P Require Import Prelude.
From stdpp Require Import base numbers option list.
#[local] Open Scope Z_scope.

Definition vm_page_size : Z := 0x1000.
Definition vm_user_base : Z := 0x1000.
Definition vm_user_end : Z := 0x800000000000.

Class ArchMM (S : Type) := {
  am_alloc_phys : Z → M S Z;
  am_free_phys : Z → Z → M S Z;
  am_map : Z → Z → Z → Z → Z → Z → M S Z;
  am_unmap : Z → Z → Z → M S Z;
  am_create_context : M S Z;
  am_destroy_context : Z → M S ();
  am_mapping_load : list Z → Z → Z → list Z → M S ();
  am_mapping_store : list Z → Z → Z → nat → M S (list Z);
  (** The abstraction: bookkeeping that is not stored anywhere, the invariant,
      the contexts, the pages handed out, the entries, the pages left and the
      entry that [am_map] writes. *)
  am_ghost : Type;
  am_inv : am_ghost → S → Prop;
  am_ctx : am_ghost → Z → Prop;
  am_frame : am_ghost → S → Z → Prop;
  am_entry : S → Z → Z → Z;
  am_room : S → Z;
  am_leaf : Z → Z → Z → Z;
  (** The bytes of the pages handed out, the kernel's context, and whether the
      machine is ready to copy through it. *)
  am_byte : S → Z → Z → Z;
  am_kernel : S → Z;
  am_ready : S → Prop;
}.

Definition user_page (p : Z) : Prop := 0 ≤ p < 2 ^ 35.

(** What every operation but the copy into a mapping keeps. *)
Record am_kept {S} `{!ArchMM S} (g : am_ghost) (s s' : S) : Prop := {
  kept_kernel : am_kernel s' = am_kernel s;
  kept_ready : am_ready s → am_ready s';
  kept_byte q x : am_frame g s q → 0 ≤ x < 4096 → am_byte s' q x = am_byte s q x;
}.

Class ArchMMLaws (S : Type) `{!ArchMM S} : Prop := {
  am_alloc_law g s :
    am_inv g s →
    (am_alloc_phys 1 s = Ok (0, s) ∧ am_room s = 0) ∨
    ∃ p s', am_alloc_phys 1 s = Ok (p, s') ∧ 0 < am_room s ∧ 0 < p < 2 ^ 64 ∧ ¬ am_frame g s p ∧ am_inv g s' ∧
      (∀ q, am_frame g s' q ↔ q = p ∨ am_frame g s q) ∧
      (∀ c v, am_ctx g c → user_page v → am_entry s' c v = am_entry s c v) ∧
      am_room s' = am_room s - 1 ∧ am_kept g s s' ∧ (∀ x, 0 ≤ x < 4096 → am_byte s' p x = 0);
  am_free_law g s p :
    am_inv g s → am_frame g s p →
    ∃ s', am_free_phys p 1 s = Ok (1, s') ∧ am_inv g s' ∧
      (∀ q, am_frame g s' q ↔ q ≠ p ∧ am_frame g s q) ∧
      (∀ c v, am_ctx g c → user_page v → am_entry s' c v = am_entry s c v) ∧
      am_room s ≤ am_room s' ∧ am_kept g s s';
  am_map_law g s c v src flags cache :
    am_inv g s → am_ctx g c → user_page v → is_u64 src → 3 ≤ am_room s →
    ∃ g' s', am_map c (v * vm_page_size) src 1 flags cache s = Ok (1, s') ∧ am_inv g' s' ∧
      (∀ c', am_ctx g c' → am_ctx g' c') ∧ (∀ q, am_frame g s q → am_frame g' s' q) ∧
      (∀ c' v', am_ctx g c' → user_page v' →
        am_entry s' c' v' =
          if decide (c' = c ∧ v' = v) then am_leaf src flags cache else am_entry s c' v') ∧
      am_room s - 3 ≤ am_room s' ∧ am_kept g s s';
  am_create_law g s :
    am_inv g s → 1 ≤ am_room s →
    ∃ c g' s', am_create_context s = Ok (c, s') ∧ am_inv g' s' ∧ am_ctx g' c ∧ ¬ am_ctx g c ∧
      (∀ c', am_ctx g c' → am_ctx g' c') ∧ (∀ q, am_frame g s q → am_frame g' s' q) ∧
      (∀ c' v', am_ctx g c' → user_page v' → am_entry s' c' v' = am_entry s c' v') ∧
      (∀ v', user_page v' → am_entry s' c v' = 0) ∧
      am_room s' = am_room s - 1 ∧ am_kept g s s';
  am_unmap_law g s c v :
    am_inv g s → am_ctx g c → user_page v →
    ∃ r s', am_unmap c (v * vm_page_size) 1 s = Ok (r, s') ∧ am_inv g s' ∧
      (∀ q, am_frame g s q ↔ am_frame g s' q) ∧
      (∀ c' v', am_ctx g c' → user_page v' →
        am_entry s' c' v' = if decide (c' = c ∧ v' = v) then 0 else am_entry s c' v') ∧
      am_room s' = am_room s ∧ am_kept g s s';
}.

(** ** Copying into and out of the pages of a mapping *)

(** What a transfer of [n] bytes at offset [o] needs: the pages it reaches are
    handed out, and there is room for the tables of the window. *)
Record am_transfer {S} `{!ArchMM S} (g : am_ghost) (s : S) (pages : list Z) (o n : Z) : Prop := {
  at_inv : am_inv g s;
  at_ready : am_ready s;
  at_kernel : am_ctx g (am_kernel s);
  at_pages : Forall is_u64 pages;
  at_len : Z.of_nat (length pages) ≤ 2 ^ 32;
  at_room : 3 * Z.of_nat (length pages) ≤ am_room s;
  at_off : 0 ≤ o;
  at_range : o + n ≤ 4096 * Z.of_nat (length pages);
  at_frames j : o ≤ j < o + n → ∃ q, pages !! Z.to_nat (j / 4096) = Some q ∧ am_frame g s q;
  at_distinct j j' : o ≤ j < o + n → o ≤ j' < o + n →
    pages !! Z.to_nat (j / 4096) = pages !! Z.to_nat (j' / 4096) → j / 4096 = j' / 4096;
}.

(** What it leaves alone: entries of every context but the kernel's. *)
Record am_transferred {S} `{!ArchMM S} (g : am_ghost) (s : S) (pages : list Z) (g' : am_ghost) (s' : S) : Prop := {
  ad_inv : am_inv g' s';
  ad_ctx c : am_ctx g c → am_ctx g' c;
  ad_frame q : am_frame g s q → am_frame g' s' q;
  ad_kernel : am_kernel s' = am_kernel s;
  ad_ready : am_ready s';
  ad_entry c v : am_ctx g c → c ≠ am_kernel s → user_page v → am_entry s' c v = am_entry s c v;
  ad_room : am_room s - 3 * Z.of_nat (length pages) ≤ am_room s';
}.

Class ArchMMCopyLaws (S : Type) `{!ArchMM S} : Prop := {
  am_load_law g s pages o data :
    am_transfer g s pages o (Z.of_nat (length data)) → Forall (λ b, 0 ≤ b < 256) data →
    ∃ g' s', am_mapping_load pages (Z.of_nat (length pages)) o data s = Ok (tt, s') ∧ am_transferred g s pages g' s' ∧
      (∀ j b q, data !! j = Some b → pages !! Z.to_nat ((o + Z.of_nat j) / 4096) = Some q →
         am_byte s' q ((o + Z.of_nat j) mod 4096) = b) ∧
      (∀ q x, am_frame g s q → 0 ≤ x < 4096 →
         (∀ j, o ≤ j < o + Z.of_nat (length data) → pages !! Z.to_nat (j / 4096) = Some q → x ≠ j mod 4096) →
         am_byte s' q x = am_byte s q x);
  am_store_law g s pages o n :
    am_transfer g s pages o (Z.of_nat n) →
    ∃ g' s', am_mapping_store pages (Z.of_nat (length pages)) o n s =
        Ok ((λ j, am_byte s (default 0 (pages !! Z.to_nat (j / 4096))) (j mod 4096)) <$> seqZ o (Z.of_nat n), s') ∧
      am_transferred g s pages g' s' ∧
      (∀ q x, am_frame g s q → 0 ≤ x < 4096 → am_byte s' q x = am_byte s q x);
}.
