(* ===== verification/ArchX86.v ===== *)
(** * The x86_64 code meets the memory interface

    The page tables of Paging.v and the address spaces of Vmm.v satisfy the
    contract of Arch.v: contexts are the roots of the table pages, the pages
    handed out are the used ones that hold no table. *)
From S2P Require Import Prelude Pmm Paging Vmm Arch.
From stdpp Require Import base numbers option gmap list.
#[local] Open Scope Z_scope.

#[local] Ltac fp_lia := change first_page with 8192 in *; lia.

(** ** Steps that leave the tables alone *)
Section same_tables.
Context (own : gmap Z (list Z)) (s s' : pmm).
Context (Hok : tables_ok own s) (Hpool : pool_ok s') (Hlen : pmm_bitmap_len s' = pmm_bitmap_len s).
Context (Hused : ∀ t π, own !! t = Some π → used (pmm_bitmap s') (t / 4096) = true).
Context (Hent : ∀ t π o, own !! t = Some π → off_ok o → ent (phys s') t o = ent (phys s) t o).

Lemma same_tables_ok : tables_ok own s'.
Proof.
  split; [done|..].
  - intros t π Ht. destruct (own_page _ _ Hok t π Ht) as (k & -> & Hk & _). exists k.
    rewrite Hlen. split_and!; [done|apply Hk..|]. apply Hused in Ht. by rewrite Z.div_mul in Ht.
  - apply (own_inj _ _ Hok).
  - apply (own_shape _ _ Hok).
  - apply (own_root _ _ Hok).
  - intros t π off Ht Hl Ho. rewrite (Hent t π) by (done || apply Ho). by apply (own_down _ _ Hok).
  - intros t π off Ht Hne. destruct (own_up _ _ Hok t π off Ht Hne) as (Ho & t0 & Ht0 & Hp).
    split; [done|]. exists t0. rewrite (Hent t0 π) by (done || apply Ho). done.
  - intros t π off Ht Hl Ho. rewrite (Hent t π) by (done || apply Ho). by apply (own_small _ _ Hok _ π).
Qed.

Lemma same_tables_leaf r v :
  own !! r = Some [r] → lower v → leaf (phys s') r v = leaf (phys s) r v.
Proof.
  intros Hr Hv. pose proof same_tables_ok as Hok'.
  destruct (walk (phys s) r v) as [t|] eqn:Hw.
  - apply (walk_own own) in Hw; [|done..]. rewrite (leaf_own own s r v t), (leaf_own own s' r v t) by done.
    eapply Hent; [done|]. apply vmm_virt_to_offs_ok.
  - assert (∀ t, own !! t ≠ Some (pt_path r v)) as Hno.
    { intros t Ht. apply (walk_own own s) in Ht; [|done..]. congruence. }
    by rewrite (leaf_no_own own s r v), (leaf_no_own own s' r v).
Qed.
End same_tables.

(** ** The contract *)

Definition x86_frame (own : gmap Z (list Z)) (s : vmm) (q : Z) : Prop :=
  ∃ k, q = k * 4096 ∧ first_page ≤ k < pmm_bitmap_len (mem s) ∧
    used (pmm_bitmap (mem s)) k = true ∧ own !! q = None.

#[export] Instance x86_arch_mm : ArchMM vmm := {|
  am_alloc_phys n := on_mem (arch_mm_alloc_phys n);
  am_free_phys p n := on_mem (arch_mm_free_phys p n);
  am_map := arch_mm_map;
  am_unmap := arch_mm_unmap;
  am_create_context := arch_mm_create_context None;
  am_destroy_context c := on_mem (arch_mm_destroy_context c);
  am_mapping_load := arch_mm_mapping_load;
  am_mapping_store := arch_mm_mapping_store;
  am_ghost := gmap Z (list Z);
  am_inv own s := tables_ok own (mem s) ∧ kernel_pml4 s ≠ 0;
  am_ctx own c := own !! c = Some [c];
  am_frame := x86_frame;
  am_entry s c v := leaf (phys (mem s)) c (v * 4096);
  am_room s := avail (mem s);
  am_leaf p flags cache := entry_of p (u64 (vmm_arch_to_vmm_flags flags cache));
  am_byte s q x := load8 (phys (mem s)) (q + x);
  am_kernel := kernel_pml4;
  am_ready s := pmm_bitmap_len (mem s) ≤ 2 ^ 40 ∧ cr3 s = kernel_pml4 s;
|}.

Lemma user_lower v : user_page v → lower (v * 4096).
Proof. unfold user_page, lower. lia. Qed.

Lemma on_mem_run {A} (m : M pmm A) s a p : m (mem s) = Ok (a, p) → on_mem m s = Ok (a, set_mem p s).
Proof. intros H. unfold on_mem, zoom. by rewrite H. Qed.

(** The words of a page are the entries of a table there. *)
Lemma load8_same m m' q o :
  aligned q → 0 ≤ o < 4096 → (∀ k, off_ok k → ent m' q k = ent m q k) → load8 m' (q + o) = load8 m (q + o).
Proof.
  intros Hq Ho He. unfold load8. unfold aligned in Hq.
  assert ((q + o) / 8 * 8 = q + 8 * (o / 8)) as -> by wrap_lia.
  assert (off_ok (o / 8)) as Hk by (unfold off_ok; wrap_lia). specialize (He _ Hk). unfold ent in He. by rewrite He.
Qed.

Lemma load8_zero m q o :
  aligned q → 0 ≤ o < 4096 → (∀ k, off_ok k → ent m q k = 0) → load8 m (q + o) = 0.
Proof.
  intros Hq Ho He. rewrite (load8_same ∅ m q o Hq Ho).
  - unfold load8, rd. by rewrite lookup_empty, Zdiv_0_l.
  - intros k Hk. rewrite He by done. unfold ent, rd. by rewrite lookup_empty.
Qed.

(** Memory changes that leave the words of the frames alone. *)
Lemma x86_kept own s p' :
  pmm_bitmap_len p' = pmm_bitmap_len (mem s) →
  (∀ k o, x86_frame own s (k * 4096) → first_page ≤ k → own !! (k * 4096) = None → off_ok o →
     used (pmm_bitmap (mem s)) k = true → ent (phys p') (k * 4096) o = ent (phys (mem s)) (k * 4096) o) →
  am_kept (ArchMM0 := x86_arch_mm) own s (set_mem p' s).
Proof.
  intros Hl He. split; [done|by cbn; rewrite Hl|].
  intros q x Hq Hx. pose proof Hq as (k & -> & [Hk _] & Hu & Hn). cbn. apply load8_same; [by apply Z.mod_mul|done|].
  intros o Ho. by apply He.
Qed.

(** One page allocated: the other pages keep their contents. *)
Lemma allocated_ent s idx s' t o :
  allocated s idx 1 s' → aligned t → t ≠ idx * 4096 → off_ok o → ent (phys s') t o = ent (phys s) t o.
Proof.
  intros (_ & _ & _ & _ & _ & _ & ->) Ht Hne Ho. apply zero_page_out. change PAGE_SIZE with 4096.
  by apply outside_page; [|apply Z.mod_mul|..].
Qed.

(** The tables do not change. *)
Lemma alloc_tables own s idx s' :
  tables_ok own s → first_page ≤ idx < pmm_bitmap_len s → used (pmm_bitmap s) idx = false →
  allocated s idx 1 s' →
  own !! (idx * 4096) = None ∧ pool_ok s' ∧ pmm_bitmap_len s' = pmm_bitmap_len s ∧
  (∀ t π, own !! t = Some π → used (pmm_bitmap s') (t / 4096) = true) ∧
  (∀ t π o, own !! t = Some π → off_ok o → ent (phys s') t o = ent (phys s) t o).
Proof.
  intros Hok Hidx Hfree Hal. pose proof (allocated_pool _ _ _ Hal (own_pool _ _ Hok)) as Hpool.
  pose proof Hal as (Hu & _ & _ & Hl & _).
  assert (own !! (idx * 4096) = None) as Hnone.
  { apply eq_None_not_Some. intros [π Hπ]. destruct (own_page _ _ Hok _ _ Hπ) as (k & Hk & _ & Huk).
    assert (k = idx) as -> by lia. congruence. }
  split_and!; [done|done|done|..].
  - intros t π Ht. destruct (own_page _ _ Hok _ _ Ht) as (k & -> & Hk & Huk). change first_page with 8192 in Hk.
    rewrite Z.div_mul, Hu, Huk by lia. apply orb_true_r.
  - intros t π o Ht Ho. apply (allocated_ent s idx); [done|by eapply own_aligned| |done]. intros ->. congruence.
Qed.

Lemma x86_alloc_law (own : gmap Z (list Z)) s :
  am_inv (ArchMM := x86_arch_mm) own s →
  (am_alloc_phys 1 s = Ok (0, s) ∧ am_room s = 0) ∨
  ∃ p s', am_alloc_phys 1 s = Ok (p, s') ∧ 0 < am_room s ∧ 0 < p < 2 ^ 64 ∧ ¬ am_frame own s p ∧ am_inv own s' ∧
    (∀ q, am_frame own s' q ↔ q = p ∨ am_frame own s q) ∧
    (∀ c v, am_ctx own c → user_page v → am_entry s' c v = am_entry s c v) ∧
    am_room s' = am_room s - 1 ∧ am_kept own s s' ∧ (∀ x, 0 ≤ x < 4096 → am_byte s' p x = 0).
Proof.
  intros [Hok Hk]. pose proof (count_clear_bounds (λ j, used (pmm_bitmap (mem s)) j || (j <? first_page))
    (seqZ 0 (pmm_bitmap_len (mem s)))) as [Hav _]. fold (avail (mem s)) in Hav.
  destruct (decide (avail (mem s) = 0)) as [Hz|Hz]; [left|right].
  { split; [|done]. cbn. unfold arch_mm_alloc_phys.
    rewrite (on_mem_run _ _ _ _ (alloc_none _ (own_pool _ _ Hok) Hz)). by destruct s. }
  destruct (alloc_one (mem s)) as (idx & p' & Hrun & Hidx & Hfree & Hal & Hav'); [apply Hok|lia|].
  destruct (alloc_tables own _ idx p' Hok Hidx Hfree Hal) as (Hnone & Hpool & Hl & Hused & Hent).
  pose proof (pool_len _ (own_pool _ _ Hok)). pose proof Hidx as Hidx'. change first_page with 8192 in Hidx'.
  exists (idx * 4096), (set_mem p' s). split_and!; [|cbn; lia|lia|lia|..].
  - cbn. by apply on_mem_run.
  - cbn. intros (k & Hk' & _ & Hu & _). assert (k = idx) as -> by lia. congruence.
  - split; [|done]. by apply (same_tables_ok own (mem s)).
  - intros q. cbn. unfold x86_frame. cbn [mem set_mem]. rewrite Hl. destruct Hal as (Hu & _).
    split.
    + intros (k & -> & Hk' & Huk & Hn). change first_page with 8192 in Hk'. rewrite Hu in Huk by lia.
      destruct (decide (k = idx)) as [->|Hne]; [by left|right]. exists k. split_and!; try done; try fp_lia.
      apply orb_true_iff in Huk as [E|?]; [apply in_run_true in E; lia|done].
    + intros [->|(k & -> & Hk' & Huk & Hn)].
      * exists idx. split_and!; try done; try fp_lia. rewrite Hu by lia.
        by rewrite (proj2 (in_run_true idx 1 idx)) by lia.
      * exists k. split_and!; try done; try fp_lia. change first_page with 8192 in Hk'.
        rewrite Hu, Huk by lia. apply orb_true_r.
  - intros c v Hc Hv. cbn. apply (same_tables_leaf own); try done. by apply user_lower.
  - done.
  - apply x86_kept; [done|]. intros k o _ Hk' _ Ho Hu. 
    apply (allocated_ent _ _ _ _ _ Hal); [by apply Z.mod_mul| |done]. intros Heq. assert (k = idx) as -> by lia. congruence.
  - intros x Hx. cbn. apply load8_zero; [by apply Z.mod_mul|done|]. intros o Ho. destruct Hal as (_ & _ & _ & _ & _ & _ & ->).
    by apply zero_page_in.
Qed.

Lemma avail_mono s s' :
  pmm_bitmap_len s' = pmm_bitmap_len s →
  (∀ j, 0 ≤ j → used (pmm_bitmap s') j = true → used (pmm_bitmap s) j = true) → avail s ≤ avail s'.
Proof.
  intros Hl Hu. unfold avail. rewrite Hl.
  assert (∀ j, j ∈ seqZ 0 (pmm_bitmap_len s) → 0 ≤ j) as Hj by (intros j Hj; apply elem_of_seqZ in Hj; lia).
  induction (seqZ 0 (pmm_bitmap_len s)) as [|j l IH]; cbn; [done|].
  specialize (IH ltac:(set_solver)). specialize (Hu j (Hj j ltac:(set_solver))).
  destruct (used (pmm_bitmap s) j), (used (pmm_bitmap s') j), (j <? first_page); cbn; lia || naive_solver.
Qed.

Lemma x86_free_law (own : gmap Z (list Z)) s p :
  am_inv (ArchMM := x86_arch_mm) own s → am_frame own s p →
  ∃ s', am_free_phys p 1 s = Ok (1, s') ∧ am_inv own s' ∧
    (∀ q, am_frame own s' q ↔ q ≠ p ∧ am_frame own s q) ∧
    (∀ c v, am_ctx own c → user_page v → am_entry s' c v = am_entry s c v) ∧
    am_room s ≤ am_room s' ∧ am_kept own s s'.
Proof.
  intros [Hok Hk] (k & -> & Hkr & Hku & Hkn). destruct (own_pool _ _ Hok) as [Hcov Hlen].
  pose proof Hkr as Hkr'. change first_page with 8192 in Hkr'.
  destruct (pmm_free_ok (mem s) (k * 4096) 1 (pmm_bitmap_len (mem s) + 1)) as (bm & Hrun & Hcov' & _ & Hu);
    [lia|lia|done|change PAGE_SIZE with 4096; rewrite Z.div_mul; lia|].
  change PAGE_SIZE with 4096 in Hu. rewrite Z.div_mul in Hu by lia.
  set (p' := set_free_pages _ _) in Hrun. assert (pool_ok p') as Hpool by by split.
  assert (∀ t π, own !! t = Some π → used (pmm_bitmap p') (t / 4096) = true) as Hused.
  { intros t π Ht. destruct (own_page _ _ Hok _ _ Ht) as (j & -> & Hj & Huj). change first_page with 8192 in Hj.
    rewrite Z.div_mul by lia. cbn. rewrite Hu, Huj by lia. rewrite andb_true_r, negb_true_iff.
    destruct (in_run k 1 j) eqn:E; [|done]. apply in_run_true in E. assert (j = k) as -> by lia. congruence. }
  exists (set_mem p' s). split_and!.
  - cbn. unfold arch_mm_free_phys. apply on_mem_run. cbv [mbind M_bind]. by rewrite Hrun.
  - split; [|done]. by apply (same_tables_ok own (mem s)).
  - intros q. cbn. unfold x86_frame. cbn [mem set_mem p' pmm_bitmap pmm_bitmap_len set_free_pages set_bitmap]. split.
    + intros (j & -> & Hj & Huj & Hn). change first_page with 8192 in Hj. rewrite Hu in Huj by lia.
      apply andb_true_iff in Huj as [E Huj]. split.
      * intros Heq. assert (j = k) as -> by lia. by rewrite (proj2 (in_run_true k 1 k)) in E by lia.
      * exists j. done.
    + intros [Hne (j & -> & Hj & Huj & Hn)]. exists j. split_and!; try done; try fp_lia.
      change first_page with 8192 in Hj. rewrite Hu, Huj, andb_true_r, negb_true_iff by lia.
      destruct (in_run k 1 j) eqn:E; [|done]. apply in_run_true in E. exfalso. apply Hne. f_equal. lia.
  - done.
  - cbn. apply avail_mono; [done|]. intros j Hj. cbn. rewrite Hu by done. by intros [_ ?]%andb_true_iff.
  - by apply x86_kept.
Qed.

Lemma arch_mm_map_one c v src flags cache s :
  arch_mm_map c (v * vm_page_size) src 1 flags cache s =
    on_mem (vmm_map_pages c (v * 4096) src 1 (u64 (vmm_arch_to_vmm_flags flags cache))) s.
Proof. done. Qed.

Lemma frame_kept own s own' p' c u q :
  tstep own (mem s) own' p' c u → x86_frame own s q → x86_frame own' (set_mem p' s) q.
Proof.
  intros G (k & -> & Hk & Hu & Hn). exists k. cbn. rewrite (g_len _ _ _ _ _ _ G).
  pose proof Hk as Hk'. change first_page with 8192 in Hk'.
  split_and!; [done|apply Hk|apply Hk|apply (g_used _ _ _ _ _ _ G); [lia|done]|].
  apply (g_data _ _ _ _ _ _ G); [by apply Z.mod_mul|by rewrite Z.div_mul|lia|done].
Qed.

Lemma tstep_kept own s own' p' c u :
  tstep own (mem s) own' p' c u → am_kept (ArchMM0 := x86_arch_mm) own s (set_mem p' s).
Proof.
  intros G. apply x86_kept; [by rewrite (g_len _ _ _ _ _ _ G)|].
  intros k o _ Hk Hn Ho Hu. change first_page with 8192 in Hk.
  apply (g_data _ _ _ _ _ _ G); [by apply Z.mod_mul|by rewrite Z.div_mul|lia|done|done].
Qed.

Lemma x86_map_law (own : gmap Z (list Z)) s c v src flags cache :
  am_inv (ArchMM := x86_arch_mm) own s → am_ctx own c → user_page v → is_u64 src → 3 ≤ am_room s →
  ∃ own' s', am_map c (v * vm_page_size) src 1 flags cache s = Ok (1, s') ∧ am_inv own' s' ∧
    (∀ c', am_ctx own c' → am_ctx own' c') ∧ (∀ q, am_frame own s q → am_frame own' s' q) ∧
    (∀ c' v', am_ctx own c' → user_page v' →
      am_entry s' c' v' =
        if decide (c' = c ∧ v' = v) then am_leaf src flags cache else am_entry s c' v') ∧
    am_room s - 3 ≤ am_room s' ∧ am_kept own s s'.
Proof.
  intros [Hok Hk] Hc Hv Hsrc Hroom. cbn in Hc, Hroom.
  destruct (vmm_map_pages_ok 1 own (mem s) c (v * 4096) src (u64 (vmm_arch_to_vmm_flags flags cache)))
    as (own' & p' & Hrun & G); [done|done|unfold user_page in Hv; lia|unfold user_page in Hv; lia|done|lia|].
  exists own', (set_mem p' s). split_and!.
  - cbn. rewrite arch_mm_map_one. by apply on_mem_run.
  - split; [apply G|done].
  - intros c' Hc'. cbn in *. by eapply tstep_root.
  - intros q. by apply frame_kept with (1 := G).
  - intros c' v' Hc' Hv'. cbn. rewrite (g_leaf _ _ _ _ _ _ G) by (done || by apply user_lower).
    unfold upd_run. rewrite !Z.div_mul by lia. destruct (decide (c' = c ∧ v ≤ v' < _)) as [[-> Hr]|Hn].
    + assert (v' = v) as -> by lia. rewrite decide_True by done. cbn.
      rewrite Z.sub_diag, Z.mul_0_r, Z.add_0_r, u64_small by done. done.
    + rewrite decide_False; [done|]. intros [-> ->]. lia.
  - cbn. pose proof (g_avail _ _ _ _ _ _ G). lia.
  - by eapply tstep_kept.
Qed.

(** Unmapping changes nothing but the tables. *)
Lemma vmm_unmap_pages_pool r v n s x s' :
  vmm_unmap_pages r v n s = Ok (x, s') → ∃ m, s' = set_phys m s.
Proof.
  revert v s. induction n as [|n IH]; intros v s; cbn [vmm_unmap_pages].
  - intros [= _ <-]. exists (phys s). by destruct s.
  - cbv [mbind M_bind]. rewrite find_pt_walk. destruct (walk _ _ _); cbn.
    + intros (m & ->)%IH. by eexists.
    + intros [= _ <-]. exists (phys s). by destruct s.
Qed.

Lemma x86_unmap_law (own : gmap Z (list Z)) s c v :
  am_inv (ArchMM := x86_arch_mm) own s → am_ctx own c → user_page v →
  ∃ r s', am_unmap c (v * vm_page_size) 1 s = Ok (r, s') ∧ am_inv own s' ∧
    (∀ q, am_frame own s q ↔ am_frame own s' q) ∧
    (∀ c' v', am_ctx own c' → user_page v' →
      am_entry s' c' v' = if decide (c' = c ∧ v' = v) then 0 else am_entry s c' v') ∧
    am_room s' = am_room s ∧ am_kept own s s'.
Proof.
  intros [Hok Hk] Hc Hv. cbn in Hc.
  destruct (vmm_unmap_pages_ok 1 own (mem s) c (v * 4096)) as (k & p' & Hkr & Hrun & G & _ & Hnone);
    [done|done|unfold user_page in Hv; lia|unfold user_page in Hv; lia|].
  destruct (vmm_unmap_pages_pool _ _ _ _ _ _ Hrun) as [m Hm].
  eexists _, (set_mem p' s). split_and!.
  - cbn. unfold arch_mm_unmap. by apply on_mem_run.
  - split; [apply G|done].
  - intros q. cbn. unfold x86_frame. by subst p'.
  - intros c' v' Hc' Hv'. cbn. rewrite (g_leaf _ _ _ _ _ _ G) by (done || by apply user_lower).
    unfold upd_run. rewrite !Z.div_mul by lia. destruct (decide (c' = c ∧ v ≤ v' < _)) as [[-> Hr]|Hn].
    + assert (v' = v) as -> by lia. by rewrite decide_True.
    + cbn. destruct (decide (c' = c ∧ v' = v)) as [[-> ->]|]; [|done].
      assert (k = 0) as -> by lia. unfold leaf. rewrite <- (Z.add_0_r (v * 4096)).
      replace 0 with (4096 * 0) at 1 by lia. rewrite Hnone by lia. done.
  - by subst p'.
  - by eapply tstep_kept.
Qed.

(** ** New contexts *)

Lemma copy_upper_rd m dst src l a :
  rd (foldr (λ i m', <[dst + 8 * i := rd m (src + 8 * i)]> m') m l) a =
  match list_find (λ i, dst + 8 * i = a) l with
  | Some (_, i) => rd m (src + 8 * i)
  | None => rd m a
  end.
Proof.
  induction l as [|i l IH]; [done|]. cbn [foldr]. rewrite rd_insert. cbn [list_find]. repeat case_decide; [done..|].
  rewrite IH. by destruct (list_find _ l) as [[]|].
Qed.

(** The lower half of the destination and the other pages do not change. *)
Lemma copy_upper_ent m dst src t o :
  aligned dst → aligned t → off_ok o → (t = dst → o < 256) →
  ent (copy_upper m dst src) t o = ent m t o.
Proof.
  intros Hd Ht Ho Hlow. unfold ent, copy_upper. rewrite copy_upper_rd.
  destruct (list_find _ _) as [[k i]|] eqn:E; [|done]. exfalso.
  apply list_find_Some in E as (Hi & Heq & _). apply list_elem_of_lookup_2, elem_of_seqZ in Hi.
  apply ent_pos_inj in Heq as [-> ->]; [|done|done|unfold off_ok; lia|done]. lia.
Qed.

Section new_root.
Context (own : gmap Z (list Z)) (s s1 s' : pmm) (idx src : Z).
Context (Hok : tables_ok own s) (Hidx : first_page ≤ idx < pmm_bitmap_len s).
Context (Hfree : used (pmm_bitmap s) idx = false) (Hal : allocated s idx 1 s1).
Let p := idx * 4096.
Context (Hs' : s' = set_phys (copy_upper (zero_page (phys s1) p) p src) s1).

Let own' := <[p := [p]]> own.

Lemma new_root_none : own !! p = None.
Proof. by eapply (alloc_tables own s idx s1). Qed.

Lemma new_root_ne t π : own !! t = Some π → t ≠ p.
Proof. intros Ht ->. rewrite new_root_none in Ht. done. Qed.

Lemma new_root_aligned : aligned p.
Proof. by apply Z.mod_mul. Qed.

Lemma new_root_other t o : aligned t → t ≠ p → off_ok o → ent (phys s') t o = ent (phys s) t o.
Proof using Hal Hs'.
  intros Ht Hne Ho. subst s'. cbn [phys set_phys]. rewrite copy_upper_ent; [|apply new_root_aligned|done|done|done].
  unfold ent. rewrite zero_page_out by (by apply outside_page; [|apply new_root_aligned|..]).
  by apply (allocated_ent s idx).
Qed.

Lemma new_root_old t π o : own !! t = Some π → off_ok o → ent (phys s') t o = ent (phys s) t o.
Proof.
  intros Ht Ho. destruct (own_aligned _ _ _ _ Hok Ht) as [Hat _].
  apply new_root_other; [done|by eapply new_root_ne|done].
Qed.

Lemma new_root_low o : 0 ≤ o < 256 → ent (phys s') p o = 0.
Proof.
  intros Ho. subst s'. cbn [phys set_phys].
  rewrite copy_upper_ent; [|apply new_root_aligned|apply new_root_aligned|unfold off_ok; lia|lia].
  apply zero_page_in. unfold off_ok. lia.
Qed.

Lemma new_root_lookup t π : own !! t = Some π → own' !! t = Some π.
Proof. intros Ht. unfold own'. rewrite lookup_insert_ne; [done|]. by apply not_eq_sym, (new_root_ne _ π). Qed.

Lemma new_root_ok : tables_ok own' s'.
Proof.
  destruct (alloc_tables own s idx s1) as (_ & Hpool & Hl & Hused & _); [done..|].
  assert (pmm_bitmap s' = pmm_bitmap s1 ∧ pmm_bitmap_len s' = pmm_bitmap_len s1) as [Hbm Hln] by by subst s'.
  assert (∀ t, own !! t ≠ Some [p]) as Hnew.
  { intros t Ht. pose proof Ht as Ht'. apply (own_root _ _ Hok) in Ht' as ->. by apply new_root_ne in Ht. }
  split.
  - subst s'. destruct Hpool. by split.
  - intros t π [[<- <-]|[_ Ht]]%lookup_insert_Some.
    + exists idx. rewrite Hln, Hl, Hbm. split_and!; [done|apply Hidx|apply Hidx|].
      destruct Hal as (Hu & _). rewrite Hu by fp_lia. by rewrite (proj2 (in_run_true idx 1 idx)) by lia.
    + destruct (own_page _ _ Hok t π Ht) as (k & -> & Hk & _). exists k. rewrite Hln, Hl, Hbm.
      split_and!; [done|apply Hk|apply Hk|]. apply Hused in Ht. by rewrite Z.div_mul in Ht.
  - intros t1 t2 π [[<- <-]|[_ H1]]%lookup_insert_Some [[<- E]|[_ H2]]%lookup_insert_Some.
    + done.
    + by apply Hnew in H2.
    + subst π. by apply Hnew in H1.
    + by eapply own_inj.
  - intros t π [[<- <-]|[_ Ht]]%lookup_insert_Some; [cbn; lia|by eapply own_shape].
  - intros t r [[<- [= ->]]|[_ Ht]]%lookup_insert_Some; [done|by eapply own_root].
  - intros t π o [[<- <-]|[_ Ht]]%lookup_insert_Some Hlen Ho Hp.
    + exfalso. destruct Ho as [Ho Ho']. unfold off_ok in Ho. rewrite new_root_low in Hp; [done|].
      specialize (Ho' eq_refl). lia.
    + rewrite (new_root_old t π) in * by (done || apply Ho). apply new_root_lookup.
      by apply (own_down _ _ Hok).
  - intros t π o [[<- E]|[_ Ht]]%lookup_insert_Some Hne.
    + exfalso. apply (f_equal length) in E. rewrite length_app in E. cbn in E. destruct π; [done|cbn in E; lia].
    + destruct (own_up _ _ Hok t π o Ht Hne) as (Ho & t0 & Ht0 & Hp). split; [done|]. exists t0.
      rewrite (new_root_old t0 π) by (done || apply Ho). split; [by apply new_root_lookup|done].
  - intros t π o [[<- <-]|[_ Ht]]%lookup_insert_Some Hlen Ho Hp.
    + exfalso. destruct Ho as [Ho Ho']. unfold off_ok in Ho. rewrite new_root_low in Hp; [done|].
      specialize (Ho' eq_refl). lia.
    + rewrite (new_root_old t π) in * by (done || apply Ho). by apply (own_small _ _ Hok _ π).
Qed.

Lemma new_root_leaf r v : own !! r = Some [r] → lower v → leaf (phys s') r v = leaf (phys s) r v.
Proof.
  intros Hr Hv. pose proof new_root_ok as Hok'. pose proof (new_root_lookup _ _ Hr) as Hr'.
  destruct (walk (phys s) r v) as [t|] eqn:Hw.
  - apply (walk_own own) in Hw; [|done..]. pose proof (new_root_lookup _ _ Hw) as Hw'.
    rewrite (leaf_own own s r v t), (leaf_own own' s' r v t) by done.
    eapply new_root_old; [done|]. apply vmm_virt_to_offs_ok.
  - assert (∀ t, own !! t ≠ Some (pt_path r v)) as Hno.
    { intros t Ht. apply (walk_own own s) in Ht; [|done..]. congruence. }
    rewrite (leaf_no_own own s r v), (leaf_no_own own' s' r v); try done.
    intros t [[_ E]|[_ Ht]]%lookup_insert_Some; [done|by apply Hno in Ht].
Qed.

Lemma new_root_empty v : lower v → leaf (phys s') p v = 0.
Proof.
  intros Hv. unfold leaf, walk. pose proof (lower_slot v p Hv) as [Ho Ho'].
  rewrite new_root_low; [done|]. specialize (Ho' eq_refl). unfold off_ok in Ho. lia.
Qed.
End new_root.

Lemma x86_create_law (own : gmap Z (list Z)) s :
  am_inv (ArchMM := x86_arch_mm) own s → 1 ≤ am_room s →
  ∃ c own' s', am_create_context s = Ok (c, s') ∧ am_inv own' s' ∧ am_ctx own' c ∧ ¬ am_ctx own c ∧
    (∀ c', am_ctx own c' → am_ctx own' c') ∧ (∀ q, am_frame own s q → am_frame own' s' q) ∧
    (∀ c' v', am_ctx own c' → user_page v' → am_entry s' c' v' = am_entry s c' v') ∧
    (∀ v', user_page v' → am_entry s' c v' = 0) ∧
    am_room s' = am_room s - 1 ∧ am_kept own s s'.
Proof.
  intros [Hok Hk] Hroom. cbn in Hroom.
  destruct (alloc_one (mem s)) as (idx & s1 & Hrun & Hidx & Hfree & Hal & Hav'); [apply Hok|lia|].
  set (p := idx * 4096). set (own' := <[p := [p]]> own).
  set (s2 := set_phys (copy_upper (zero_page (phys s1) p) p (kernel_pml4 s)) s1).
  pose proof (new_root_none own (mem s) s1 idx Hok Hidx Hfree Hal) as Hnone. fold p in Hnone.
  exists p, own', (set_mem s2 s). split_and!.
  - cbn. unfold arch_mm_create_context, vmm_new_address_space. run (on_mem_run _ _ _ _ Hrun).
    cbv [mbind M_bind gets on_mem zoom clear_page modify]. cbn [kernel_pml4 set_mem mem].
    destruct (Z.eqb_spec (kernel_pml4 s) 0); [done|]. done.
  - split; [|done]. by eapply (new_root_ok own (mem s) s1 s2 idx (kernel_pml4 s)).
  - cbn. apply lookup_insert_eq.
  - cbn. rewrite Hnone. done.
  - cbn. intros c' Hc'. unfold own'. rewrite lookup_insert_ne; [done|]. intros <-. congruence.
  - intros q (k & -> & Hkr & Hu & Hn). exists k. cbn. destruct Hal as (Hu' & _ & _ & Hl & _).
    rewrite Hl, Hu', Hu by fp_lia. split_and!; [done|apply Hkr|apply Hkr|apply orb_true_r|].
    unfold own'. rewrite lookup_insert_ne; [done|]. intros Heq. assert (k = idx) as -> by (unfold p in Heq; lia). congruence.
  - intros c' v' Hc' Hv'. cbn. eapply (new_root_leaf own (mem s) s1 s2 idx (kernel_pml4 s)); try done. by apply user_lower.
  - intros v' Hv'. change (leaf (phys s2) (idx * 4096) (v' * 4096) = 0).
    eapply (new_root_empty (mem s) s1 s2 idx (kernel_pml4 s)); try done. by apply user_lower.
  - done.
  - apply x86_kept; [apply Hal|]. intros k o _ Hk' _ Ho Hu. 
    apply (new_root_other (mem s) s1 s2 idx (kernel_pml4 s) Hal eq_refl); [by apply Z.mod_mul| |done].
    intros Heq. assert (k = idx) as -> by lia. congruence.
Qed.

#[export] Instance x86_arch_mm_laws : ArchMMLaws vmm.
Proof.
  split; [apply x86_alloc_law|apply x86_free_law|apply x86_map_law|apply x86_create_law|apply x86_unmap_law].
Qed.
