(* ===== verification/Window.v ===== *)
(** * Copying into and out of the pages of a mapping (arch/x86_64/mm/vmm.cpp)

    [arch_mm_mapping_load] and [arch_mm_mapping_store] map the pages of a
    mapping into a window of the kernel's address space, copy through the page
    tables and unmap them. What they do to the bytes of physical memory, to the
    tables and to everything else. *)
From S2P Require Import Prelude Pmm Paging Vmm Arch ArchX86.
From stdpp Require Import base numbers option gmap list.
#[local] Open Scope Z_scope.

(** ** Bytes of memory *)
Lemma digit_step w b (i j : Z) :
  0 ≤ b < 256 → 0 ≤ i → 0 ≤ j →
  ((w + (b - (w / 2 ^ (8 * i)) mod 256) * 2 ^ (8 * i)) / 2 ^ (8 * j)) mod 256 =
    if decide (j = i) then b else (w / 2 ^ (8 * j)) mod 256.
Proof.
  intros Hb Hi Hj. set (k := 2 ^ (8 * i)). assert (0 < k) as Hk by (apply Z.pow_pos_nonneg; lia).
  set (h := w / k / 256). set (c := (w / k) mod 256). set (l := w mod k).
  assert (w = k * (256 * h + c) + l) as Ew.
  { subst h c l. rewrite <- Z.div_mod by lia. apply Z.div_mod. lia. }
  assert (0 ≤ c < 256) as Hc by (apply Z.mod_pos_bound; lia). assert (0 ≤ l < k) as Hl by (apply Z.mod_pos_bound; lia).
  replace (w + (b - c) * k) with (k * (256 * h + b) + l) by lia. clearbody h c l. subst w.
  assert (∀ x, (k * x + l) / k = x) as Hdiv.
  { intros x. rewrite Z.mul_comm, Z.div_add_l by lia. rewrite (Z.div_small l k) by lia. lia. }
  assert (∀ x, 0 ≤ x < 256 → (256 * h + x) mod 256 = x) as Hmod.
  { intros x Hx. rewrite Z.add_comm, Z.mul_comm, Z_mod_plus_full. by apply Z.mod_small. }
  case_decide as Hji; [subst j; fold k; by rewrite Hdiv, Hmod|].
  destruct (decide (j < i)) as [Hlt|Hge].
  - assert (k = 256 * 2 ^ (8 * (i - j - 1)) * 2 ^ (8 * j)) as ->.
    { subst k. change 256 with (2 ^ 8). rewrite <- !Z.pow_add_r by lia. f_equal. lia. }
    set (m := 2 ^ (8 * (i - j - 1))). assert (0 < 2 ^ (8 * j)) by (apply Z.pow_pos_nonneg; lia).
    assert (∀ x, (256 * m * 2 ^ (8 * j) * x + l) / 2 ^ (8 * j) mod 256 = (l / 2 ^ (8 * j)) mod 256) as Hx; [|by rewrite !Hx].
    intros x. replace (256 * m * 2 ^ (8 * j) * x) with ((m * x * 256) * 2 ^ (8 * j)) by lia.
    rewrite Z.div_add_l by lia. rewrite Z.add_comm. apply Z_mod_plus_full.
  - assert (2 ^ (8 * j) = k * (256 * 2 ^ (8 * (j - i - 1)))) as ->.
    { subst k. change 256 with (2 ^ 8). rewrite <- !Z.pow_add_r by lia. f_equal. lia. }
    assert (0 < 2 ^ (8 * (j - i - 1))) by (apply Z.pow_pos_nonneg; lia).
    rewrite <- !Z.div_div by lia. rewrite !Hdiv. f_equal. f_equal.
    assert (∀ x, 0 ≤ x < 256 → (256 * h + x) / 256 = h) as Hx; [|by rewrite !Hx].
    intros x Hx. rewrite Z.mul_comm, Z.div_add_l by lia. rewrite (Z.div_small x) by lia. lia.
Qed.

Lemma load8_store8 m a b a' :
  0 ≤ b < 256 → load8 (store8 m a b) a' = if decide (a' = a) then b else load8 m a'.
Proof.
  intros Hb. unfold load8, store8. rewrite rd_insert. destruct (decide (a / 8 * 8 = a' / 8 * 8)) as [E|E].
  - rewrite digit_step by (done || apply Z.mod_pos_bound; lia). rewrite E.
    destruct (decide (a' = a)) as [->|Hne]; [by rewrite decide_True|].
    rewrite decide_False; [done|]. intros Hm. apply Hne. rewrite (Z.div_mod a' 8), (Z.div_mod a 8) by lia. lia.
  - by rewrite decide_False by naive_solver.
Qed.

Lemma store8_rd m a b x : x ≠ a / 8 * 8 → rd (store8 m a b) x = rd m x.
Proof. intros H. unfold store8. rewrite rd_insert. by rewrite decide_False. Qed.

Lemma load8_byte m a : 0 ≤ load8 m a < 256.
Proof. apply Z.mod_pos_bound. lia. Qed.

(** ** The processor's translation *)
Lemma hw_addr e : ent_addr e < 2 ^ 52 → Z.land e MMU_ADDR_MASK = ent_addr e.
Proof.
  intros He. apply Z.bits_inj'. intros n Hn.
  assert (0 ≤ ent_addr e) as H0 by (apply Z.land_nonneg; right; unfold VMM_ADDR_MASK; apply u64_range).
  destruct (Z.ltb_spec n 52) as [Hlt|Hge].
  - unfold ent_addr. rewrite !Z.land_spec, addr_mask_bit by done. f_equal.
    change MMU_ADDR_MASK with (Z.shiftl (Z.ones 40) 12). rewrite Z.shiftl_spec by lia.
    destruct (Z.leb_spec 12 n); cbn [andb]; [|by apply Z.testbit_neg_r; lia].
    destruct (Z.ltb_spec n 63); [|lia]. apply Z.ones_spec_low. lia.
  - rewrite (testbit_high (ent_addr e) 52 n) by lia. rewrite Z.land_spec.
    change MMU_ADDR_MASK with (Z.shiftl (Z.ones 40) 12). rewrite Z.shiftl_spec by lia.
    rewrite Z.ones_spec_high by lia. apply andb_false_r.
Qed.

(** Tables in the first 2^52 bytes are reached by the processor as by the
    code. *)
Lemma translate_leaf own s r v :
  tables_ok own s → pmm_bitmap_len s ≤ 2 ^ 40 → own !! r = Some [r] → lower v → is_present (leaf (phys s) r v) = true →
  translate (phys s) r v = Some (Z.land (leaf (phys s) r v) MMU_ADDR_MASK + v mod 4096).
Proof.
  intros Hok Hlen Hr Hv. pose proof (lower_slot v r Hv) as S1. pose proof (offs_slot v r (pml4_off (vmm_virt_to_offs v)) []) as (S2 & _ & _).
  pose proof (offs_slot v r (pml4_off (vmm_virt_to_offs v)) [pdp_off (vmm_virt_to_offs v)]) as (_ & S3 & _).
  assert (∀ t π, own !! t = Some π → t < 2 ^ 52) as Hsmall.
  { intros t π Ht. destruct (own_page _ _ Hok t π Ht) as (k & -> & Hk & _). lia. }
  unfold leaf, walk, translate. set (o := vmm_virt_to_offs v) in *. clearbody o.
  destruct (is_present (ent (phys s) r (pml4_off o))) eqn:P1; [|done]. cbn [negb].
  pose proof (own_down _ _ Hok r [r] _ Hr ltac:(cbn; lia) S1 P1) as H1. rewrite hw_addr by by eapply Hsmall.
  destruct (is_present (ent (phys s) _ (pdp_off o))) eqn:P2; [|done]. cbn [negb].
  pose proof (own_down _ _ Hok _ _ _ H1 ltac:(cbn; lia) S2 P2) as H2. rewrite hw_addr by by eapply Hsmall.
  rewrite (own_small _ _ Hok _ _ _ H1 ltac:(cbn; lia) S2 P2).
  destruct (is_present (ent (phys s) _ (pd_off o))) eqn:P3; [|done]. cbn [negb].
  pose proof (own_down _ _ Hok _ _ _ H2 ltac:(cbn; lia) S3 P3) as H3. rewrite hw_addr by by eapply Hsmall.
  rewrite (own_small _ _ Hok _ _ _ H2 ltac:(cbn; lia) S3 P3). by intros ->.
Qed.

(** ** Storing a byte in a frame *)

(** The states differ in nothing but the contents of frames. *)
Record quiet (own : gmap Z (list Z)) (s s' : vmm) : Prop := {
  q_ok : tables_ok own (mem s');
  q_leaf r v : own !! r = Some [r] → lower v → leaf (phys (mem s')) r v = leaf (phys (mem s)) r v;
  q_rest : ∃ m, s' = set_mem (set_phys m (mem s)) s;
}.

Lemma quiet_refl own s : tables_ok own (mem s) → quiet own s s.
Proof. intros H. split; [done|done|]. exists (phys (mem s)). destruct s as [[] ? ? ?]. done. Qed.
Lemma quiet_trans own s1 s2 s3 : quiet own s1 s2 → quiet own s2 s3 → quiet own s1 s3.
Proof.
  intros [H1 L1 [m1 R1]] [H2 L2 [m2 R2]]. split; [done| |].
  - intros r v Hr Hv. by rewrite L2, L1.
  - exists m2. by rewrite R2, R1.
Qed.

Lemma quiet_frame own s s' q : quiet own s s' → x86_frame own s' q ↔ x86_frame own s q.
Proof. intros [_ _ [m ->]]. done. Qed.

Definition poke (s : vmm) (a b : Z) : vmm := set_mem (set_phys (store8 (phys (mem s)) a b) (mem s)) s.

Lemma frame_page own s q : x86_frame own s q → aligned q ∧ 0 < q.
Proof. intros (k & -> & Hk & _). change first_page with 8192 in Hk. split; [by apply Z.mod_mul|lia]. Qed.

Lemma frame_word own s q x t π o :
  tables_ok own (mem s) → x86_frame own s q → 0 ≤ x < 4096 → own !! t = Some π → off_ok o → t + 8 * o ≠ (q + x) / 8 * 8.
Proof.
  intros Hok Hq Hx Ht Ho E. pose proof (frame_page _ _ _ Hq) as [Ha Hq0]. destruct (own_aligned _ _ _ _ Hok Ht) as [Hat _].
  assert ((q + x) / 8 * 8 = q + 8 * (x / 8)) as E' by (unfold aligned in Ha; wrap_lia). rewrite E' in E.
  apply ent_pos_inj in E as [-> _]; [|done|done|done|unfold off_ok; wrap_lia].
  destruct Hq as (_ & _ & _ & _ & Hn). congruence.
Qed.

Lemma poke_quiet own s q x b :
  tables_ok own (mem s) → x86_frame own s q → 0 ≤ x < 4096 → quiet own s (poke s (q + x) b).
Proof.
  intros Hok Hq Hx.
  assert (∀ t π o, own !! t = Some π → off_ok o → ent (phys (mem (poke s (q + x) b))) t o = ent (phys (mem s)) t o) as Hent.
  { intros t π o Ht Ho. apply store8_rd. by eapply frame_word. }
  assert (∀ t π, own !! t = Some π → used (pmm_bitmap (mem (poke s (q + x) b))) (t / 4096) = true) as Hused.
  { intros t π Ht. destruct (own_page _ _ Hok t π Ht) as (k & -> & _ & Hk). by rewrite Z.div_mul. }
  assert (pool_ok (mem (poke s (q + x) b))) as Hpool by (destruct (own_pool _ _ Hok); by split).
  split.
  - by apply (same_tables_ok own (mem s)).
  - intros r v Hr Hv. by apply (same_tables_leaf own).
  - by eexists.
Qed.

(** The entry of a page in the window. *)
Lemma entry_write q : entry_of q VMM_FLAG_WRITE = Z.lor q 3.
Proof. unfold entry_of. by rewrite <- Z.lor_assoc. Qed.

Lemma entry_hw q : aligned q → 0 ≤ q < 2 ^ 52 → Z.land (entry_of q VMM_FLAG_WRITE) MMU_ADDR_MASK = q.
Proof.
  intros Ha Hq. rewrite entry_write. pose proof (ent_addr_flags q 3 ltac:(lia) Ha ltac:(lia)) as E.
  rewrite hw_addr by lia. done.
Qed.

(** The kernel's tables are those of the running processor. *)
Record direct (own : gmap Z (list Z)) (s : vmm) : Prop := {
  wd_tables : tables_ok own (mem s);
  wd_len : pmm_bitmap_len (mem s) ≤ 2 ^ 40;
  wd_root : own !! kernel_pml4 s = Some [kernel_pml4 s];
  wd_cr3 : cr3 s = kernel_pml4 s;
}.

Lemma quiet_direct own s s' : quiet own s s' → direct own s → direct own s'.
Proof. intros [Hok _ [m E]] [_ Hl Hr Hc]. split; [done|..]; by rewrite E. Qed.

Lemma window_translate own s v q :
  direct own s → lower v → leaf (phys (mem s)) (kernel_pml4 s) v = entry_of q VMM_FLAG_WRITE → x86_frame own s q →
  translate (phys (mem s)) (cr3 s) v = Some (q + v mod 4096).
Proof.
  intros [Hok Hlen Hr Hc] Hv Hl Hq. rewrite Hc.
  rewrite (translate_leaf own (mem s) (kernel_pml4 s) v Hok Hlen Hr Hv) by (rewrite Hl; apply is_present_lor).
  rewrite Hl. pose proof (frame_page _ _ _ Hq) as [Ha _]. destruct Hq as (k & -> & Hk & _).
  change first_page with 8192 in Hk. rewrite entry_hw; [done|done|lia].
Qed.

Lemma vstore8_run own s v q b :
  direct own s → lower v → leaf (phys (mem s)) (kernel_pml4 s) v = entry_of q VMM_FLAG_WRITE → x86_frame own s q →
  vstore8 v b s = Ok (tt, poke s (q + v mod 4096) b).
Proof. intros Hd Hv Hl Hq. unfold vstore8. by rewrite (window_translate own s v q). Qed.

Lemma vload8_run own s v q :
  direct own s → lower v → leaf (phys (mem s)) (kernel_pml4 s) v = entry_of q VMM_FLAG_WRITE → x86_frame own s q →
  vload8 v s = Ok (load8 (phys (mem s)) (q + v mod 4096), s).
Proof. intros Hd Hv Hl Hq. unfold vload8. by rewrite (window_translate own s v q). Qed.

(** ** Copying through the window *)
Definition window_page : Z := DST_WINDOW / 4096.
Definition window_max : Z := 2 ^ 32.

(** The window maps the pages. *)
Definition window (s : vmm) (pages : list Z) : Prop :=
  ∀ i q v, pages !! i = Some q → v / 4096 = window_page + Z.of_nat i →
    leaf (phys (mem s)) (kernel_pml4 s) v = entry_of q VMM_FLAG_WRITE.

(** The byte at offset [o] of the pages. *)
Definition page_at (pages : list Z) (o : Z) : option Z := pages !! Z.to_nat (o / 4096).
Definition spot (pages : list Z) (o : Z) : Z := default 0 (page_at pages o) + o mod 4096.

(** The pages that hold [n] bytes from [o] on are frames, each there once. *)
Definition frames_at (own : gmap Z (list Z)) (s : vmm) (pages : list Z) (o n : Z) : Prop :=
  ∀ j, o ≤ j < o + n → ∃ q, page_at pages j = Some q ∧ x86_frame own s q.
Definition distinct_at (pages : list Z) (o n : Z) : Prop :=
  ∀ j j', o ≤ j < o + n → o ≤ j' < o + n → page_at pages j = page_at pages j' → j / 4096 = j' / 4096.

Lemma spot_inj own s pages o n j j' :
  frames_at own s pages o n → distinct_at pages o n → o ≤ j < o + n → o ≤ j' < o + n →
  spot pages j = spot pages j' → j = j'.
Proof.
  intros Hf Hd Hj Hj' E. destruct (Hf j Hj) as (q & Hq & Fq). destruct (Hf j' Hj') as (q' & Hq' & Fq').
  unfold spot in E. rewrite Hq, Hq' in E. cbn in E.
  pose proof (frame_page _ _ _ Fq) as [Aq _]. pose proof (frame_page _ _ _ Fq') as [Aq' _]. unfold aligned in Aq, Aq'.
  assert (q = q') as -> by wrap_lia. specialize (Hd j j' Hj Hj' ltac:(congruence)). wrap_lia.
Qed.

Lemma window_spot own s pages j :
  direct own s → window s pages → Z.of_nat (length pages) ≤ window_max → 0 ≤ j →
  (∃ q, page_at pages j = Some q ∧ x86_frame own s q) →
  ∃ q, lower (DST_WINDOW + j) ∧ leaf (phys (mem s)) (kernel_pml4 s) (DST_WINDOW + j) = entry_of q VMM_FLAG_WRITE ∧
    x86_frame own s q ∧ q + (DST_WINDOW + j) mod 4096 = spot pages j ∧ 0 ≤ j mod 4096 < 4096 ∧ spot pages j = q + j mod 4096.
Proof.
  intros Hd Hw Hlen Hj (q & Hq & Fq). exists q. unfold page_at in Hq. pose proof (lookup_lt_Some _ _ _ Hq) as Hlt.
  unfold window_max in Hlen.
  assert (lower (DST_WINDOW + j)) as Hlow by (unfold lower; change DST_WINDOW with (28672 * 2 ^ 32); wrap_lia).
  split; [done|]. split.
  - apply (Hw _ _ _ Hq). unfold window_page. change DST_WINDOW with (28672 * 2 ^ 32). wrap_lia.
  - split; [done|]. unfold spot, page_at. rewrite Hq. cbn. change DST_WINDOW with (28672 * 2 ^ 32). wrap_lia.
Qed.

Lemma write_bytes_run own pages data s o :
  direct own s → window s pages → Z.of_nat (length pages) ≤ window_max → 0 ≤ o →
  frames_at own s pages o (Z.of_nat (length data)) → distinct_at pages o (Z.of_nat (length data)) →
  Forall (λ b, 0 ≤ b < 256) data →
  ∃ s', write_bytes (DST_WINDOW + o) data s = Ok (tt, s') ∧ quiet own s s' ∧
    (∀ j b, data !! j = Some b → load8 (phys (mem s')) (spot pages (o + Z.of_nat j)) = b) ∧
    (∀ a, (∀ j, o ≤ j < o + Z.of_nat (length data) → a ≠ spot pages j) →
       load8 (phys (mem s')) a = load8 (phys (mem s)) a).
Proof.
  intros Hd Hw Hlen. revert s o Hd Hw. induction data as [|b data IH]; intros s o Hd Hw Ho Hf Hdi Hb.
  { exists s. split; [done|]. split; [apply quiet_refl, Hd|]. split; [by intros j b Hj|done]. }
  cbn [length] in *. apply Forall_cons in Hb as [Hb0 Hb]. cbn [write_bytes].
  destruct (window_spot own s pages o Hd Hw Hlen Ho (Hf o ltac:(lia))) as (q & Hlow & Hl & Fq & E & Hx & E').
  run (vstore8_run own s _ q b Hd Hlow Hl Fq). rewrite E.
  assert (quiet own s (poke s (spot pages o) b)) as Q1 by (rewrite E'; apply poke_quiet; [apply Hd|done|done]).
  rewrite u64_small by (unfold lower in Hlow; lia). replace (DST_WINDOW + o + 1) with (DST_WINDOW + (o + 1)) by lia.
  pose proof (quiet_direct _ _ _ Q1 Hd) as Hd1.
  assert (window (poke s (spot pages o) b) pages) as Hw1.
  { intros i p v Hi Hv. rewrite <- (Hw i p v Hi Hv). apply (q_leaf _ _ _ Q1); [apply Hd|].
    apply lookup_lt_Some in Hi. unfold window_max in Hlen. revert Hv. unfold lower, window_page.
    change DST_WINDOW with (28672 * 2 ^ 32). clear -Hi Hlen. wrap_lia. }
  destruct (IH (poke s (spot pages o) b) (o + 1) Hd1 Hw1) as (s' & H & Q2 & Hin & Hout); [lia| | |done|].
  { intros j Hj. destruct (Hf j ltac:(lia)) as (p & Hp & Fp). exists p. split; [done|]. by apply (quiet_frame _ _ _ _ Q1). }
  { intros j j' Hj Hj'. apply Hdi; lia. }
  exists s'. split; [exact H|]. split; [by eapply quiet_trans|].
  assert (∀ a, load8 (phys (mem (poke s (spot pages o) b))) a = if decide (a = spot pages o) then b else load8 (phys (mem s)) a) as Hpoke
    by (intros a; by apply load8_store8).
  split.
  - intros [|j] c Hj.
    + injection Hj as <-. rewrite Z.add_0_r, Hout; [by rewrite Hpoke, decide_True|].
      intros j Hj Ej. apply (spot_inj own s pages o (Z.of_nat (S (length data))) o j Hf Hdi) in Ej; lia.
    + rewrite <- (Hin j c Hj). do 2 f_equal. lia.
  - intros a Ha. rewrite Hout by (intros j Hj; apply Ha; lia). rewrite Hpoke, decide_False; [done|]. apply Ha. lia.
Qed.

Lemma read_bytes_run own pages s o n :
  direct own s → window s pages → Z.of_nat (length pages) ≤ window_max → 0 ≤ o →
  frames_at own s pages o (Z.of_nat n) →
  read_bytes (DST_WINDOW + o) n s = Ok ((λ j, load8 (phys (mem s)) (spot pages j)) <$> seqZ o (Z.of_nat n), s).
Proof.
  intros Hd Hw Hlen. revert o. induction n as [|n IH]; intros o Ho Hf; [done|]. cbn [read_bytes].
  destruct (window_spot own s pages o Hd Hw Hlen Ho (Hf o ltac:(lia))) as (q & Hlow & Hl & Fq & E & Hx & E').
  run (vload8_run own s _ q Hd Hlow Hl Fq). rewrite E.
  rewrite u64_small by (unfold lower in Hlow; lia). replace (DST_WINDOW + o + 1) with (DST_WINDOW + (o + 1)) by lia.
  run (IH (o + 1) ltac:(lia) ltac:(intros j Hj; apply Hf; lia)).
  rewrite (seqZ_cons o) by lia. replace (Z.pred (Z.of_nat (S n))) with (Z.of_nat n) by lia. by rewrite <- Z.add_1_r.
Qed.

(** ** Mapping and unmapping the window *)
Section Loops.
Context (pages : list Z).
Hypothesis Hsmall : Z.of_nat (length pages) ≤ window_max.

Definition page_ptr (i : Z) : Z := default 0 (pages !! Z.to_nat i).

Lemma window_addr i : 0 ≤ i < Z.of_nat (length pages) →
  u64 (DST_WINDOW + 0x1000 * i) = DST_WINDOW + 4096 * i ∧ lower (DST_WINDOW + 4096 * i) ∧
  DST_WINDOW + 4096 * i + 4096 * Z.of_nat 1 ≤ 2 ^ 47 ∧ (DST_WINDOW + 4096 * i) / 4096 = window_page + i.
Proof using Hsmall.
  unfold window_max in Hsmall. intros Hi. unfold lower, window_page. change DST_WINDOW with (28672 * 2 ^ 32).
  rewrite u64_small by lia. wrap_lia.
Qed.

Lemma map_window_loop n i own s :
  tables_ok own (mem s) → own !! kernel_pml4 s = Some [kernel_pml4 s] → 0 ≤ i → i + Z.of_nat n ≤ Z.of_nat (length pages) →
  Forall is_u64 pages → 3 * Z.of_nat n ≤ avail (mem s) →
  ∃ own' p', for_each (λ i,
      physp ← lift (access (pages !! Z.to_nat i));
      k ← gets kernel_pml4;
      on_mem (vmm_map_pages k (u64 (DST_WINDOW + 0x1000 * i)) physp 1 VMM_FLAG_WRITE);;
      mret tt) (seqZ i (Z.of_nat n)) s = Ok (tt, set_mem p' s) ∧
    tstep own (mem s) own' p' (3 * Z.of_nat n)
      (upd_run (kernel_pml4 s) (window_page + i) (Z.of_nat n) (λ j, entry_of (page_ptr (i + j)) VMM_FLAG_WRITE)).
Proof using Hsmall.
  revert i own s. induction n as [|n IH]; intros i own s Hok Hr Hi Hn Hu Hav.
  { exists own, (mem s). split; [by destruct s|]. eapply tstep_ext; [|by apply tstep_refl].
    intros r' p'. unfold upd_run, no_upd. rewrite decide_False; [done|lia]. }
  destruct (window_addr i ltac:(lia)) as (Ea & Hl & Ht & Ep).
  destruct (lookup_lt_is_Some_2 pages (Z.to_nat i)) as [q Hq]; [lia|].
  pose proof (proj1 (Forall_lookup _ _) Hu _ _ Hq) as Hqu.
  destruct (vmm_map_pages_ok 1 own (mem s) (kernel_pml4 s) (DST_WINDOW + 4096 * i) q VMM_FLAG_WRITE)
    as (own1 & p1 & H1 & G1); [done|done|apply Hl|done|done|lia|].
  destruct (IH (i + 1) own1 (set_mem p1 s)) as (own2 & p2 & H2 & G2); [apply G1|by eapply tstep_root|lia|lia|done| |].
  { pose proof (g_avail _ _ _ _ _ _ G1). cbn. lia. }
  exists own2, p2. split.
  - rewrite seqZ_cons by lia. cbn [for_each]. rewrite Hq. cbv [mbind M_bind lift access gets mret M_ret]. rewrite Ea.
    rewrite (on_mem_run _ _ _ _ H1). rewrite <- Z.add_1_r. replace (Z.pred (Z.of_nat (S n))) with (Z.of_nat n) by lia.
    exact H2.
  - eapply tstep_ext; [|eapply tstep_weaken; [by eapply tstep_trans|lia]].
    intros r p. unfold upd_after, upd_run. cbn [kernel_pml4 set_mem]. rewrite Ep. case_decide as D1.
    + rewrite decide_True by lia. do 3 f_equal. lia.
    + case_decide as D2; [|by rewrite decide_False by lia].
      rewrite decide_True by lia. destruct D2 as [-> ?]. replace (p - (window_page + i)) with 0 by lia.
      rewrite Z.mul_0_r, !Z.add_0_r, u64_small by done. unfold page_ptr. by rewrite Hq.
Qed.

Lemma unmap_window_loop n i own s :
  tables_ok own (mem s) → own !! kernel_pml4 s = Some [kernel_pml4 s] → 0 ≤ i → i + Z.of_nat n ≤ Z.of_nat (length pages) →
  (∀ j, i ≤ j < i + Z.of_nat n → leaf (phys (mem s)) (kernel_pml4 s) (DST_WINDOW + 4096 * j) ≠ 0) →
  ∃ p', for_each (λ i,
      k ← gets kernel_pml4;
      on_mem (vmm_unmap_pages k (u64 (DST_WINDOW + 0x1000 * i)) 1);;
      vmm_update_mapping (u64 (DST_WINDOW + 0x1000 * i))) (seqZ i (Z.of_nat n)) s = Ok (tt, set_mem p' s) ∧
    tstep own (mem s) own p' 0 (upd_run (kernel_pml4 s) (window_page + i) (Z.of_nat n) (λ _, 0)).
Proof using Hsmall.
  revert i s. induction n as [|n IH]; intros i s Hok Hr Hi Hn Hmap.
  { exists (mem s). split; [by destruct s|]. eapply tstep_ext; [|by apply tstep_refl].
    intros r' p'. unfold upd_run, no_upd. rewrite decide_False; [done|lia]. }
  destruct (window_addr i ltac:(lia)) as (Ea & Hl & Ht & Ep).
  destruct (vmm_unmap_pages_ok 1 own (mem s) (kernel_pml4 s) (DST_WINDOW + 4096 * i)) as (k & p1 & Hk & H1 & G1 & _ & Hnone);
    [done|done|apply Hl|done|].
  assert (k = 1) as ->.
  { destruct (decide (k = 1)) as [|Hk1]; [done|]. assert (k = 0) as -> by lia. specialize (Hnone ltac:(lia)).
    rewrite Z.mul_0_r, Z.add_0_r in Hnone. destruct (leaf_walk _ _ _ (Hmap i ltac:(lia))) as [t Hw]. congruence. }
  destruct (IH (i + 1) (set_mem p1 s)) as (p2 & H2 & G2); [apply G1|done|lia|lia| |].
  { intros j Hj. cbn. destruct (window_addr j ltac:(lia)) as (_ & Hlj & _ & Epj).
    rewrite (g_leaf _ _ _ _ _ _ G1) by done. unfold upd_run. rewrite decide_False by lia. apply Hmap. lia. }
  exists p2. split.
  - rewrite seqZ_cons by lia. cbn [for_each]. cbv [mbind M_bind gets vmm_update_mapping mret M_ret]. rewrite Ea.
    rewrite (on_mem_run _ _ _ _ H1). rewrite <- Z.add_1_r. replace (Z.pred (Z.of_nat (S n))) with (Z.of_nat n) by lia.
    exact H2.
  - eapply tstep_ext; [|eapply tstep_weaken; [by eapply tstep_trans|lia]].
    intros r p. unfold upd_after, upd_run. cbn [kernel_pml4 set_mem]. rewrite Ep. repeat (case_decide; try done); exfalso; lia.
Qed.
End Loops.

(** ** The two operations *)

(** What a transfer of [n] bytes at [o] needs. *)
Record transfer_ok (own : gmap Z (list Z)) (s : vmm) (pages : list Z) (o n : Z) : Prop := {
  tr_direct : direct own s;
  tr_len : Z.of_nat (length pages) ≤ window_max;
  tr_pages : Forall is_u64 pages;
  tr_room : 3 * Z.of_nat (length pages) ≤ avail (mem s);
  tr_off : 0 ≤ o;
  tr_range : o + n ≤ 4096 * Z.of_nat (length pages);
  tr_frames : frames_at own s pages o n;
}.

(** What it leaves: well-formed tables, the window unmapped, every other
    address of every address space as before, and the registers; at most
    [cost] pages were taken. *)
Record transferred (own : gmap Z (list Z)) (s : vmm) (pages : list Z) (cost : Z) (own' : gmap Z (list Z)) (s' : vmm) : Prop := {
  td_tables : tables_ok own' (mem s');
  td_sub : own ⊆ own';
  td_leaf r v : own !! r = Some [r] → lower v →
    leaf (phys (mem s')) r v =
      if decide (r = kernel_pml4 s ∧ window_page ≤ v / 4096 < window_page + Z.of_nat (length pages)) then 0
      else leaf (phys (mem s)) r v;
  td_rest : s' = set_mem (mem s') s;
  td_len : pmm_bitmap_len (mem s') = pmm_bitmap_len (mem s);
  td_room : avail (mem s) - cost ≤ avail (mem s');
  td_frame q : x86_frame own s q → x86_frame own' s' q;
}.

Lemma tstep_load8 own s own' p' c u q x :
  tstep own (mem s) own' p' c u → x86_frame own s q → 0 ≤ x < 4096 →
  load8 (phys p') (q + x) = load8 (phys (mem s)) (q + x).
Proof.
  intros G (k & -> & Hk & Hu & Hn) Hx. change first_page with 8192 in Hk.
  apply load8_same; [by apply Z.mod_mul|done|].
  intros o Ho. apply (g_data _ _ _ _ _ _ G); [by apply Z.mod_mul|by rewrite Z.div_mul|lia|done|done].
Qed.

Lemma window_opens own s pages o n :
  transfer_ok own s pages o n →
  ∃ own1 p1, map_window pages (Z.of_nat (length pages)) s = Ok (tt, set_mem p1 s) ∧
    direct own1 (set_mem p1 s) ∧ window (set_mem p1 s) pages ∧
    (∀ q, x86_frame own s q → x86_frame own1 (set_mem p1 s) q) ∧
    tstep own (mem s) own1 p1 (3 * Z.of_nat (length pages))
      (upd_run (kernel_pml4 s) window_page (Z.of_nat (length pages)) (λ j, entry_of (page_ptr pages j) VMM_FLAG_WRITE)).
Proof.
  intros [[Hok Hl Hr Hc] Hlen Hu Hav Ho Hrange Hf].
  destruct (map_window_loop pages Hlen (length pages) 0 own s) as (own1 & p1 & H1 & G1); [done|done|lia|lia|done|done|].
  rewrite Z.add_0_r in G1. exists own1, p1. split; [exact H1|]. split_and!.
  - split; cbn; [apply G1|by rewrite (g_len _ _ _ _ _ _ G1)|by eapply tstep_root|done].
  - intros i q v Hi Hv. cbn. pose proof (lookup_lt_Some _ _ _ Hi) as Hlt. unfold window_max in Hlen.
    rewrite (g_leaf _ _ _ _ _ _ G1); [|done|].
    2:{ revert Hv. unfold lower, window_page. change DST_WINDOW with (28672 * 2 ^ 32). clear -Hlt Hlen. wrap_lia. }
    unfold upd_run. rewrite decide_True by lia. cbn [default]. unfold page_ptr.
    replace (Z.to_nat (0 + (v / 4096 - window_page))) with i by lia. by rewrite Hi.
  - intros q. by apply frame_kept with (1 := G1).
  - done.
Qed.

Lemma window_closes own s pages :
  direct own s → window s pages → Z.of_nat (length pages) ≤ window_max →
  ∃ p', unmap_window (Z.of_nat (length pages)) s = Ok (tt, set_mem p' s) ∧
    tstep own (mem s) own p' 0 (upd_run (kernel_pml4 s) window_page (Z.of_nat (length pages)) (λ _, 0)).
Proof.
  intros [Hok Hl Hr Hc] Hw Hlen.
  destruct (unmap_window_loop pages Hlen (length pages) 0 own s) as (p' & H & G); [done|done|lia|lia| |].
  { intros j Hj. destruct (lookup_lt_is_Some_2 pages (Z.to_nat j)) as [q Hq]; [lia|].
    destruct (window_addr pages Hlen j ltac:(lia)) as (_ & _ & _ & Ep).
    rewrite (Hw _ _ _ Hq) by lia. apply entry_of_present. }
  rewrite Z.add_0_r in G. by exists p'.
Qed.

Lemma transferred_intro own s pages own1 p1 s2 p3 c f :
  tstep own (mem s) own1 p1 c (upd_run (kernel_pml4 s) window_page (Z.of_nat (length pages)) f) →
  own !! kernel_pml4 s = Some [kernel_pml4 s] →
  quiet own1 (set_mem p1 s) s2 →
  tstep own1 (mem s2) own1 p3 0 (upd_run (kernel_pml4 s) window_page (Z.of_nat (length pages)) (λ _, 0)) →
  transferred own s pages c own1 (set_mem p3 s2).
Proof.
  intros G1 Hr [Hok Hleaf [m Hm]] G3. pose proof (g_avail _ _ _ _ _ _ G1) as A1. pose proof (g_avail _ _ _ _ _ _ G3) as A3.
  assert (avail (mem s2) = avail p1) as A2 by by rewrite Hm.
  split.
  - apply G3.
  - apply G1.
  - intros r v Hr' Hv. pose proof (tstep_root _ _ _ _ _ _ _ G1 Hr') as Hr1. cbn.
    rewrite (g_leaf _ _ _ _ _ _ G3) by done. unfold upd_run at 1. case_decide as D; [done|].
    cbn. rewrite Hleaf by done. cbn. rewrite (g_leaf _ _ _ _ _ _ G1) by done. unfold upd_run. by rewrite decide_False.
  - by rewrite Hm.
  - cbn. rewrite (g_len _ _ _ _ _ _ G3), Hm. cbn. apply (g_len _ _ _ _ _ _ G1).
  - cbn. lia.
  - intros q Hq. apply (frame_kept own1 s2 own1 p3 0 _ q G3).
    apply (quiet_frame own1 (set_mem p1 s) s2 q); [by split; [|done|exists m]|]. by apply frame_kept with (1 := G1).
Qed.

Lemma transferred_weaken own s pages c c' own' s' :
  transferred own s pages c own' s' → c ≤ c' → transferred own s pages c' own' s'.
Proof. intros [] Hc. split; try done. lia. Qed.

Lemma transferred_direct own s pages c own' s' : transferred own s pages c own' s' → direct own s → direct own' s'.
Proof.
  intros T [Hok Hl Hr Hc]. split; [apply T|by rewrite (td_len _ _ _ _ _ _ T)|..]; rewrite (td_rest _ _ _ _ _ _ T); cbn; [|done].
  eapply lookup_weaken; [exact Hr|apply T].
Qed.

Lemma transferred_trans own s pages c1 own1 s1 c2 own2 s2 :
  transferred own s pages c1 own1 s1 → transferred own1 s1 pages c2 own2 s2 → transferred own s pages (c1 + c2) own2 s2.
Proof.
  intros T1 T2. assert (kernel_pml4 s1 = kernel_pml4 s) as Ek by by rewrite (td_rest _ _ _ _ _ _ T1).
  split.
  - apply T2.
  - etrans; [apply T1|apply T2].
  - intros r v Hr Hv. rewrite (td_leaf _ _ _ _ _ _ T2) by (done || by eapply lookup_weaken; [|apply T1]).
    rewrite (td_leaf _ _ _ _ _ _ T1) by done. rewrite Ek. by case_decide.
  - rewrite (td_rest _ _ _ _ _ _ T2), (td_rest _ _ _ _ _ _ T1). done.
  - by rewrite (td_len _ _ _ _ _ _ T2), (td_len _ _ _ _ _ _ T1).
  - pose proof (td_room _ _ _ _ _ _ T1). pose proof (td_room _ _ _ _ _ _ T2). lia.
  - intros q Hq. by apply (td_frame _ _ _ _ _ _ T2), (td_frame _ _ _ _ _ _ T1).
Qed.

Lemma spot_in pages o n own s j :
  frames_at own s pages o n → o ≤ j < o + n → ∃ q, x86_frame own s q ∧ spot pages j = q + j mod 4096.
Proof. intros Hf Hj. destruct (Hf j Hj) as (q & Hq & Fq). exists q. split; [done|]. unfold spot. by rewrite Hq. Qed.

Lemma window_base o (pages : list Z) : 0 ≤ o → o ≤ 4096 * Z.of_nat (length pages) → Z.of_nat (length pages) ≤ window_max →
  u64 (DST_WINDOW + o) = DST_WINDOW + o.
Proof. unfold window_max. change DST_WINDOW with (28672 * 2 ^ 32). intros. apply u64_small. lia. Qed.

Lemma x86_load_run own s pages o data :
  transfer_ok own s pages o (Z.of_nat (length data)) → distinct_at pages o (Z.of_nat (length data)) →
  Forall (λ b, 0 ≤ b < 256) data →
  ∃ own' s', arch_mm_mapping_load pages (Z.of_nat (length pages)) o data s = Ok (tt, s') ∧ transferred own s pages (3 * Z.of_nat (length pages)) own' s' ∧
    (∀ j b, data !! j = Some b → load8 (phys (mem s')) (spot pages (o + Z.of_nat j)) = b) ∧
    (∀ q x, x86_frame own s q → 0 ≤ x < 4096 → (∀ j, o ≤ j < o + Z.of_nat (length data) → q + x ≠ spot pages j) →
       load8 (phys (mem s')) (q + x) = load8 (phys (mem s)) (q + x)).
Proof.
  intros Ht Hdi Hb. pose proof Ht as [Hd Hlen _ _ Ho Hrange Hf].
  destruct (window_opens _ _ _ _ _ Ht) as (own1 & p1 & H1 & D1 & W1 & F1 & G1).
  assert (frames_at own1 (set_mem p1 s) pages o (Z.of_nat (length data))) as Hf1.
  { intros j Hj. destruct (Hf j Hj) as (q & Hq & Fq). eauto. }
  destruct (write_bytes_run own1 pages data (set_mem p1 s) o D1 W1 Hlen Ho Hf1 Hdi Hb) as (s2 & H2 & Q2 & Hin & Hout).
  assert (window s2 pages) as W2.
  { intros i q v Hi Hv. rewrite <- (W1 i q v Hi Hv). destruct (q_rest _ _ _ Q2) as [m Hm].
    replace (kernel_pml4 s2) with (kernel_pml4 (set_mem p1 s)) by by rewrite Hm. apply (q_leaf _ _ _ Q2); [apply D1|].
    apply lookup_lt_Some in Hi. unfold window_max in Hlen. revert Hv. unfold lower, window_page.
    change DST_WINDOW with (28672 * 2 ^ 32). clear -Hi Hlen. wrap_lia. }
  destruct (window_closes own1 s2 pages) as (p3 & H3 & G3); [by eapply quiet_direct|done|done|].
  replace (kernel_pml4 s2) with (kernel_pml4 s) in G3 by (destruct (q_rest _ _ _ Q2) as [m ->]; done).
  exists own1, (set_mem p3 s2). split; [|split].
  - unfold arch_mm_mapping_load. run H1. rewrite (window_base _ pages) by (done || lia). by run H2.
  - eapply transferred_intro; [exact G1|apply Hd|done|done].
  - assert (∀ q x, x86_frame own s q → 0 ≤ x < 4096 → load8 (phys p3) (q + x) = load8 (phys (mem s2)) (q + x)) as K.
    { intros q x Fq Hx. eapply tstep_load8; [exact G3| |done]. apply (quiet_frame _ _ _ _ Q2). by apply F1. }
    split.
    + intros j b Hj. rewrite <- (Hin j b Hj). pose proof (lookup_lt_Some _ _ _ Hj).
      destruct (spot_in _ _ _ _ _ (o + Z.of_nat j) Hf ltac:(lia)) as (q & Fq & ->). apply K; [done|apply Z.mod_pos_bound; lia].
    + intros q x Fq Hx Hne. cbn. rewrite K by done. rewrite Hout by done. by eapply tstep_load8.
Qed.

Lemma x86_store_run own s pages o n :
  transfer_ok own s pages o (Z.of_nat n) →
  ∃ own' s', arch_mm_mapping_store pages (Z.of_nat (length pages)) o n s =
      Ok ((λ j, load8 (phys (mem s)) (spot pages j)) <$> seqZ o (Z.of_nat n), s') ∧ transferred own s pages (3 * Z.of_nat (length pages)) own' s' ∧
    (∀ q x, x86_frame own s q → 0 ≤ x < 4096 → load8 (phys (mem s')) (q + x) = load8 (phys (mem s)) (q + x)).
Proof.
  intros Ht. pose proof Ht as [Hd Hlen _ _ Ho Hrange Hf].
  destruct (window_opens _ _ _ _ _ Ht) as (own1 & p1 & H1 & D1 & W1 & F1 & G1).
  assert (frames_at own1 (set_mem p1 s) pages o (Z.of_nat n)) as Hf1.
  { intros j Hj. destruct (Hf j Hj) as (q & Hq & Fq). eauto. }
  destruct (window_closes own1 (set_mem p1 s) pages) as (p3 & H3 & G3); [done|done|done|].
  exists own1, (set_mem p3 (set_mem p1 s)). split; [|split].
  - unfold arch_mm_mapping_store. run H1. rewrite (window_base _ pages) by (done || lia).
    run (read_bytes_run own1 pages (set_mem p1 s) o n D1 W1 Hlen Ho Hf1). run H3. cbv [mret M_ret]. do 2 f_equal.
    apply list_fmap_ext. intros i j Hij. apply lookup_seqZ in Hij as [-> Hi].
    destruct (spot_in _ _ _ _ _ (o + Z.of_nat i) Hf ltac:(lia)) as (q & Fq & ->). cbn.
    eapply tstep_load8; [done..|apply Z.mod_pos_bound; lia].
  - eapply transferred_intro; [exact G1|apply Hd|apply quiet_refl, D1|exact G3].
  - intros q x Fq Hx. cbn. rewrite (tstep_load8 own1 (set_mem p1 s) own1 p3 _ _ q x G3 (F1 q Fq) Hx). by eapply tstep_load8.
Qed.

(** ** The contract of Arch.v *)
Lemma transfer_of own s pages o n :
  am_transfer (ArchMM0 := x86_arch_mm) own s pages o n → transfer_ok own s pages o n ∧ distinct_at pages o n.
Proof.
  intros [[Hok _] [Hl Hc] Hk Hp Hlen Hr Ho Hrange Hf Hd]. split; [|exact Hd]. by split; [split|..].
Qed.

Lemma transferred_of own s pages o n own' s' :
  am_transfer (ArchMM0 := x86_arch_mm) own s pages o n →
  transferred own s pages (3 * Z.of_nat (length pages)) own' s' → am_transferred (ArchMM0 := x86_arch_mm) own s pages own' s'.
Proof.
  intros [[Hok Hk0] [Hl Hc] Hk _ _ _ _ _ _ _] T. pose proof (td_rest _ _ _ _ _ _ T) as Hs. split; cbn.
  - split; [apply T|]. by rewrite Hs.
  - intros c Hc'. eapply lookup_weaken; [exact Hc'|apply T].
  - apply T.
  - by rewrite Hs.
  - rewrite (td_len _ _ _ _ _ _ T). split; [done|]. by rewrite Hs.
  - intros c v Hc' Hne Hv. rewrite (td_leaf _ _ _ _ _ _ T) by (done || by apply user_lower). by rewrite decide_False by naive_solver.
  - apply T.
Qed.

#[export] Instance x86_copy_laws : ArchMMCopyLaws vmm.
Proof.
  split.
  - intros own s pages o data Ht Hb. destruct (transfer_of _ _ _ _ _ Ht) as [Ht' Hd].
    destruct (x86_load_run own s pages o data Ht' Hd Hb) as (own' & s' & H & T & Hin & Hout).
    exists own', s'. split; [exact H|]. split; [by eapply transferred_of|]. split.
    + intros j b q Hj Hq. rewrite <- (Hin j b Hj). cbn. unfold spot, page_at. by rewrite Hq.
    + intros q x Hq Hx Hne. cbn. apply Hout; [done..|]. intros j Hj Heq.
      destruct (tr_frames _ _ _ _ _ Ht' j Hj) as (p & Hp & Fp). unfold spot in Heq. rewrite Hp in Heq. cbn in Heq.
      destruct (frame_page _ _ _ Hq) as [Aq _]. destruct (frame_page _ _ _ Fp) as [Ap _]. unfold aligned in Aq, Ap.
      assert (p = q) as -> by wrap_lia. apply (Hne j Hj Hp). lia.
  - intros own s pages o n Ht. destruct (transfer_of _ _ _ _ _ Ht) as [Ht' _].
    destruct (x86_store_run own s pages o n Ht') as (own' & s' & H & T & Hout).
    exists own', s'. split; [exact H|]. split; [by eapply transferred_of|exact Hout].
Qed.

(** ** Properties *)

(** C15. Loading data into a mapping writes exactly its bytes: with enough free
    pages and the kernel's tables in use, [arch_mm_mapping_load] returns, byte
    [j] of the data stands at offset [offset + j] of the mapping's pages, every
    other byte of every frame is unchanged, the tables stay well formed, the
    window is unmapped again, and every other address of every address space
    reads the entry it had. *)
Theorem arch_mm_mapping_load_spec (own : gmap Z (list Z)) (s : vmm) (pages : list Z) (offset : Z) (data : list Z) :
  transfer_ok own s pages offset (Z.of_nat (length data)) → distinct_at pages offset (Z.of_nat (length data)) →
  Forall (λ b, 0 ≤ b < 256) data →
  ∃ own' s', arch_mm_mapping_load pages (Z.of_nat (length pages)) offset data s = Ok (tt, s') ∧
    transferred own s pages (3 * Z.of_nat (length pages)) own' s' ∧
    (∀ j b, data !! j = Some b → load8 (phys (mem s')) (spot pages (offset + Z.of_nat j)) = b) ∧
    (∀ q x, x86_frame own s q → 0 ≤ x < 4096 → (∀ j, offset ≤ j < offset + Z.of_nat (length data) → q + x ≠ spot pages j) →
       load8 (phys (mem s')) (q + x) = load8 (phys (mem s)) (q + x)).
Proof. apply x86_load_run. Qed.

(** What [arch_mm_mapping_load] has put into a mapping,
    [arch_mm_mapping_store] reads back, byte for byte, and after both no frame
    outside the range has changed. *)
Theorem mapping_load_store_roundtrip (own : gmap Z (list Z)) (s : vmm) (pages : list Z) (offset : Z) (data : list Z) :
  transfer_ok own s pages offset (Z.of_nat (length data)) → distinct_at pages offset (Z.of_nat (length data)) →
  Forall (λ b, 0 ≤ b < 256) data → 6 * Z.of_nat (length pages) ≤ avail (mem s) →
  ∃ own' s', (arch_mm_mapping_load pages (Z.of_nat (length pages)) offset data;;
      arch_mm_mapping_store pages (Z.of_nat (length pages)) offset (length data)) s = Ok (data, s') ∧
    transferred own s pages (6 * Z.of_nat (length pages)) own' s'.
Proof.
  intros Ht Hdi Hb Hav. pose proof Ht as [Hd Hlen Hu Hroom Ho Hrange Hf].
  destruct (x86_load_run own s pages offset data Ht Hdi Hb) as (own1 & s1 & H1 & T1 & Hin & Hout).
  pose proof (transferred_direct _ _ _ _ _ _ T1 Hd) as D1.
  destruct (x86_store_run own1 s1 pages offset (length data)) as (own2 & s2 & H2 & T2 & _).
  { split; try done; [pose proof (td_room _ _ _ _ _ _ T1); lia|].
    intros j Hj. destruct (Hf j Hj) as (q & Hq & Fq). exists q. split; [done|]. by apply (td_frame _ _ _ _ _ _ T1). }
  exists own2, s2. split.
  - run H1. rewrite H2. do 2 f_equal. apply list_eq. intros i. rewrite list_lookup_fmap.
    destruct (data !! i) as [b|] eqn:Hi.
    + pose proof (lookup_lt_Some _ _ _ Hi). rewrite lookup_seqZ_lt by lia. cbn. f_equal. by apply Hin.
    + apply lookup_ge_None in Hi. by rewrite lookup_seqZ_ge by lia.
  - eapply transferred_weaken; [by eapply transferred_trans|lia].
Qed.

(** ** A mapping of one page *)
Definition demo_kernel : vmm := Vmm demo_pmm demo_root demo_root 0.
Definition demo_page : Z := 8194 * 4096.

Lemma demo_frame : x86_frame demo_own demo_kernel demo_page.
Proof. exists 8194. split_and!; [done..|by apply lookup_singleton_ne]. Qed.

Lemma demo_transfer o n : 0 ≤ o → 0 ≤ n → o + n ≤ 4096 →
  transfer_ok demo_own demo_kernel [demo_page] o n ∧ distinct_at [demo_page] o n.
Proof.
  intros Ho Hn Hs. split.
  - split; cbn [length mem demo_kernel]; [|unfold window_max; lia| | |done|lia|].
    + split; cbn; [apply demo_tables_ok|lia|apply demo_root_own|done].
    + apply Forall_singleton. unfold is_u64, demo_page. lia.
    + rewrite demo_avail. lia.
    + intros j Hj. exists demo_page. split.
      * unfold page_at. by replace (Z.to_nat (j / 4096)) with 0%nat by wrap_lia.
      * apply demo_frame.
  - intros j j' Hj Hj' _. wrap_lia.
Qed.

Lemma demo_bytes : Forall (λ b, 0 ≤ b < 256) [72; 105; 255].
Proof. repeat constructor; lia. Qed.

Lemma arch_mm_mapping_load_spec_witness :
  ∃ own' s', arch_mm_mapping_load [demo_page] 1 100 [72; 105; 255] demo_kernel = Ok (tt, s') ∧
    tables_ok own' (mem s') ∧ load8 (phys (mem s')) (demo_page + 102) = 255 ∧
    load8 (phys (mem s')) (demo_page + 103) = 0.
Proof.
  destruct (demo_transfer 100 3) as [Ht Hd]; [lia..|].
  destruct (arch_mm_mapping_load_spec demo_own demo_kernel [demo_page] 100 [72; 105; 255] Ht Hd demo_bytes)
    as (own' & s' & E & T & Hin & Hout).
  exists own', s'. split; [exact E|]. split; [apply T|]. split.
  - exact (Hin 2%nat 255 eq_refl).
  - rewrite Hout; [|apply demo_frame|lia|].
    + unfold load8, rd. cbn [phys mem demo_kernel demo_pmm]. by rewrite lookup_empty.
    + intros j Hj. cbn [length] in Hj. unfold spot, page_at. replace (Z.to_nat (j / 4096)) with 0%nat by wrap_lia. 
      change (default 0 ([demo_page] !! 0%nat)) with demo_page. wrap_lia.
Defined.

Lemma mapping_load_store_roundtrip_witness :
  ∃ own' s', (arch_mm_mapping_load [demo_page] 1 100 [72; 105; 255];;
      arch_mm_mapping_store [demo_page] 1 100 3) demo_kernel = Ok ([72; 105; 255], s') ∧ tables_ok own' (mem s').
Proof.
  destruct (demo_transfer 100 3) as [Ht Hd]; [lia..|].
  destruct (mapping_load_store_roundtrip demo_own demo_kernel [demo_page] 100 [72; 105; 255] Ht Hd demo_bytes)
    as (own' & s' & E & T); [cbn; rewrite demo_avail; lia|].
  exists own', s'. split; [exact E|apply T].
Defined.
