(* ===== verification/Heap.v ===== *)
(** * The kernel heap (mm/heap.cpp)

    Every block has its own pages, at the end of which it lies, with an
    unmapped page after them; 16 bytes before it hold its size and the number
    of its pages. The model runs on the address spaces of Vmm.v: the header
    and the block are reached through the page tables of the current context.
    [mm_lock] is left out: one CPU is in the heap at a time. *)
From S2P Require Import Prelude Pmm Paging Vmm Arch.
From stdpp Require Import base numbers option gmap list.
#[local] Open Scope Z_scope.

Definition vm_heap_base : Z := 0x200000000.

Record heap := Heap { hv : vmm; top : Z }.
Definition set_hv (v : vmm) (s : heap) : heap := Heap v (top s).
Definition set_top (t : Z) (s : heap) : heap := Heap (hv s) t.
Definition on_vmm {A} (m : M vmm A) : M heap A := zoom hv set_hv m.

(** A 64-bit access at an address that is a multiple of 8. *)
Definition vload64 (v : Z) : M vmm Z := λ s,
  match translate (phys (mem s)) (cr3 s) v with
  | Some a => Ok (rd (phys (mem s)) a, s)
  | None => Fault
  end.
Definition vstore64 (v w : Z) : M vmm () := λ s,
  match translate (phys (mem s)) (cr3 s) v with
  | Some a => Ok (tt, set_mem (set_phys (<[a := w]> (phys (mem s))) (mem s)) s)
  | None => Fault
  end.

(** ** The sizes *)
Definition round8 (bytes : Z) : Z := u64 (u64 (bytes + 7) / 8 * 8).
Definition block_bytes (bytes : Z) : Z := u64 (round8 bytes + 16).
Definition pages_for (bytes : Z) : Z := u64 (bytes + vm_page_size - 1) / vm_page_size.

Definition perm_rw : Z := Z.lor perm_read perm_write.

(** The loop of [kmalloc]: false when physical memory runs out. *)
Fixpoint kmalloc_pages (n : nat) : M heap bool :=
  match n with
  | O => mret true
  | S n' =>
      p ← on_vmm (on_mem (arch_mm_alloc_phys 1));
      if p =? 0 then mret false
      else
        t ← gets top;
        on_vmm (arch_mm_map_kernel t p 1 perm_rw 0);;
        modify (set_top (u64 (t + vm_page_size)));;
        kmalloc_pages n'
  end.

Definition kmalloc (bytes : Z) : M heap Z :=
  let bytes := block_bytes bytes in
  let pages := pages_for bytes in
  out ← gets top;
  ok ← kmalloc_pages (Z.to_nat pages);
  if negb ok then mret 0
  else
    t ← gets top;
    modify (set_top (u64 (t + vm_page_size)));;
    let out := u64 (out + u64 (pages * vm_page_size - bytes)) in
    on_vmm (vstore64 out (u64 (bytes - 16)));;
    on_vmm (vstore64 (u64 (out + 8)) pages);;
    mret (u64 (out + 16)).

Definition kfree (ptr : Z) : M heap () :=
  size ← on_vmm (vload64 (u64 (ptr - 16)));
  req_pages ← on_vmm (vload64 (u64 (ptr - 8)));
  let start := ptr - ptr mod vm_page_size in
  let pages := pages_for (u64 (size + 16)) in
  lift (assertion (req_pages =? pages));;
  for_each (λ i,
    let curr := u64 (start + i * vm_page_size) in
    p ← on_vmm (arch_mm_get_phys_kernel curr);
    on_vmm (arch_mm_unmap_kernel curr 1);;
    on_vmm (on_mem (arch_mm_free_phys p 1));;
    mret tt) (seqZ 0 pages).

(** [memset(out, 0, bytes * elem)] runs also when [out] is null. *)
Definition kcalloc (bytes elem : Z) : M heap Z :=
  out ← kmalloc (u64 (bytes * elem));
  for_each (λ i, on_vmm (vstore8 (u64 (out + i)) 0)) (seqZ 0 (u64 (bytes * elem)));;
  mret out.

(** The size of the old block is copied, whatever the new size. *)
Definition krealloc (old s : Z) : M heap Z :=
  newp ← kmalloc s;
  (if negb (old =? 0) then
     size ← on_vmm (vload64 (u64 (old - 16)));
     for_each (λ i, b ← on_vmm (vload8 (u64 (old + i))); on_vmm (vstore8 (u64 (newp + i)) b)) (seqZ 0 size);;
     kfree old
   else mret tt);;
  mret newp.

Definition operator_new (size : Z) : M heap Z := kmalloc size.
Definition operator_delete (p : Z) : M heap () := kfree p.

(** ** Where a block lies *)

(** The address [kmalloc] returns for a block whose pages start at [t]. *)
Definition block_at (t bytes : Z) : Z :=
  u64 (u64 (t + u64 (pages_for (block_bytes bytes) * vm_page_size - block_bytes bytes)) + 16).

Lemma block_sizes bytes :
  0 ≤ bytes < 2 ^ 63 →
  round8 bytes mod 8 = 0 ∧ bytes ≤ round8 bytes < bytes + 8 ∧ block_bytes bytes = round8 bytes + 16 ∧
  0 < pages_for (block_bytes bytes) ∧
  pages_for (block_bytes bytes) * 4096 - 4096 < block_bytes bytes ≤ pages_for (block_bytes bytes) * 4096.
Proof.
  intros Hb. assert (round8 bytes = (bytes + 7) / 8 * 8) as Hr.
  { unfold round8. rewrite (u64_small (bytes + 7)) by lia. rewrite u64_small by wrap_lia. done. }
  assert (block_bytes bytes = round8 bytes + 16) as Hbb.
  { unfold block_bytes. rewrite u64_small; [done|]. rewrite Hr. wrap_lia. }
  assert (pages_for (block_bytes bytes) = (block_bytes bytes + 4095) / 4096) as Hp.
  { unfold pages_for, vm_page_size. rewrite u64_small; [f_equal; lia|]. rewrite Hbb, Hr. wrap_lia. }
  rewrite Hp, Hbb, Hr. split_and!; wrap_lia.
Qed.

(** The layout of a block: [kmalloc] puts it at a multiple of 8, its last
    byte (rounded up to 8) is the last byte of its pages, so the byte after
    it is in the unmapped page, and the 16 bytes before it are inside its own
    pages. *)
Theorem kmalloc_layout (t bytes : Z) :
  0 ≤ bytes < 2 ^ 63 → 0 ≤ t < 2 ^ 62 → t mod 4096 = 0 →
  let p := block_at t bytes in
  let n := pages_for (block_bytes bytes) in
  p mod 8 = 0 ∧ t ≤ p - 16 ∧ p + round8 bytes = t + n * 4096 ∧ bytes ≤ round8 bytes < bytes + 8.
Proof.
  intros Hb Ht Ha p n. destruct (block_sizes bytes Hb) as (H8 & Hr & Hbb & Hp & Hn).
  assert (p = t + (n * 4096 - block_bytes bytes) + 16) as Hpe.
  { subst p n. unfold block_at. change vm_page_size with 4096.
    rewrite (u64_small (pages_for _ * 4096 - _)) by lia. rewrite (u64_small (t + _)) by lia. by rewrite u64_small by lia. }
  fold n in Hn, Hp. split_and!; [|lia..]. rewrite Hpe, Hbb. wrap_lia.
Qed.

Lemma kmalloc_layout_witness :
  let p := block_at vm_heap_base 100 in
  p mod 8 = 0 ∧ vm_heap_base ≤ p - 16 ∧ p + 104 = vm_heap_base + 4096 ∧ 100 ≤ 104 < 108.
Proof. apply (kmalloc_layout vm_heap_base 100); [lia|vm_compute; done|reflexivity]. Defined.

(** [kfree] takes the page that contains the pointer for the first page of
    the block. That is right exactly when the rounded size is not a multiple
    of the page size and not 8 less than one; otherwise it starts one page too
    high. *)
Theorem kfree_start (t bytes : Z) :
  0 ≤ bytes < 2 ^ 63 → 0 ≤ t < 2 ^ 62 → t mod 4096 = 0 →
  let p := block_at t bytes in
  let start := p - p mod vm_page_size in
  (round8 bytes mod 4096 ≠ 0 → round8 bytes mod 4096 ≠ 4088 → start = t) ∧
  (round8 bytes mod 4096 = 0 ∨ round8 bytes mod 4096 = 4088 → start = t + 4096).
Proof.
  intros Hb Ht Ha p start. destruct (block_sizes bytes Hb) as (H8 & Hr & Hbb & Hp & Hn).
  set (n := pages_for (block_bytes bytes)) in *.
  assert (p = t + (n * 4096 - block_bytes bytes) + 16) as Hpe.
  { subst p n. unfold block_at. change vm_page_size with 4096.
    rewrite (u64_small (pages_for _ * 4096 - _)) by lia. rewrite (u64_small (t + _)) by lia. by rewrite u64_small by lia. }
  subst start. change vm_page_size with 4096. rewrite Hbb in *. clearbody p n.
  split; intros; wrap_lia.
Qed.

Lemma kfree_start_witness :
  (let p := block_at vm_heap_base 24 in p - p mod vm_page_size = vm_heap_base) ∧
  (let p := block_at vm_heap_base 4096 in p - p mod vm_page_size = vm_heap_base + 4096).
Proof.
  split.
  - apply (kfree_start vm_heap_base 24); [lia|vm_compute; done|reflexivity|vm_compute; done|vm_compute; done].
  - apply (kfree_start vm_heap_base 4096); [lia|vm_compute; done|reflexivity|left; reflexivity].
Defined.

(** ** The heap at work *)
Definition demo_heap : heap := Heap (Vmm (Pmm (pmm_bitmap demo_pmm) 8256 62 200 ∅) demo_root demo_root 0) vm_heap_base.

Definition free_count : M heap Z := gets (λ s, pmm_free_pages (mem (hv s))).

(** On a concrete machine: a block keeps what is stored in it and its
    pages come back when it is freed; freeing a block of one page size frees
    the wrong pages (physical page 0 among them), and shrinking a block with
    [krealloc] to fewer pages runs into the unmapped page. *)
Theorem heap_demo :
  value ((p ← kmalloc 24; on_vmm (vstore64 p 42);; q ← kmalloc 5000; on_vmm (vstore64 q 43);;
          a ← on_vmm (vload64 p); b ← on_vmm (vload64 q); mret (a, b, p =? q)) demo_heap)
    = Some (42, 43, false) ∧
  value ((kmalloc 8;; n0 ← free_count; p ← kmalloc 24; n1 ← free_count; kfree p;; n2 ← free_count;
          mret (n0 - n1, n0 - n2)) demo_heap) = Some (1, 0) ∧
  value ((kmalloc 8;; p ← kmalloc 4096; kfree p;; s ← get_st; mret (used (pmm_bitmap (mem (hv s))) 0)) demo_heap)
    = Some false ∧
  (p ← kmalloc 5000; krealloc p 100) demo_heap = Fault.
Proof. split_and!; vm_compute; reflexivity. Qed.
