(* ===== verification/Vm.v ===== *)
(** * Virtual memory objects (mm/vm.h, mm/vm.cpp)

    [memory_mapping] and [memory_hole] objects live in an object store; the
    two intrusive lists of an address space hold pointers to them. [new] takes
    a fresh address and [delete] removes the object, so that a use of a
    deleted object is a fault. The state is that of one address space with the
    architecture's state behind the interface of Arch.v. *)
From S2P Require Import Prelude Frigg Arch.
From stdpp Require Import base numbers option gmap list.
#[local] Open Scope Z_scope.

Record backing_page := BackingPage { _ptr : Z; _exists : bool; _allocated : bool }.
Definition no_page : backing_page := BackingPage 0 false false.

Inductive vm_fault_result := invalid | remap_valid | ignore | invalid_access | not_mapped.

Record memory_mapping {V : Type → Type} := Mapping {
  _base : Z;
  _size : Z;
  _backing_pages : V backing_page;
  _perms : Z;
  _cache_mode : Z;
  _mapped : bool;
}.
Arguments memory_mapping : clear implicits.
Arguments Mapping {V} _ _ _ _ _ _.

Record memory_hole := Hole { h_base : Z; h_size : Z }.

Record vm {S L : Type} {V : Type → Type} := Vm {
  arch : S;
  mappings : gmap Z (memory_mapping V);   (** the mapping objects *)
  holes : gmap Z memory_hole;             (** the hole objects *)
  next_obj : Z;                           (** where the next object goes *)
  _mapped_regions : L;
  _memory_holes : L;
  _vmm_ctx : Z;
}.
Arguments vm : clear implicits.
Arguments Vm {S L V} _ _ _ _ _ _ _.

Section vm.
Context {S : Type} `{!ArchMM S}.
Context {L : Type} `{!FrgList L}.
Context {V : Type → Type} `{!FrgVector V}.

Notation vm := (vm S L V).
Notation memory_mapping := (memory_mapping V).

Definition set_arch (a : S) (s : vm) : vm :=
  Vm a (mappings s) (holes s) (next_obj s) (_mapped_regions s) (_memory_holes s) (_vmm_ctx s).
Definition set_mappings (m : gmap Z memory_mapping) (s : vm) : vm :=
  Vm (arch s) m (holes s) (next_obj s) (_mapped_regions s) (_memory_holes s) (_vmm_ctx s).
Definition set_holes (h : gmap Z memory_hole) (s : vm) : vm :=
  Vm (arch s) (mappings s) h (next_obj s) (_mapped_regions s) (_memory_holes s) (_vmm_ctx s).
Definition set_next (n : Z) (s : vm) : vm :=
  Vm (arch s) (mappings s) (holes s) n (_mapped_regions s) (_memory_holes s) (_vmm_ctx s).
Definition set_regions (l : L) (s : vm) : vm :=
  Vm (arch s) (mappings s) (holes s) (next_obj s) l (_memory_holes s) (_vmm_ctx s).
Definition set_hole_list (l : L) (s : vm) : vm :=
  Vm (arch s) (mappings s) (holes s) (next_obj s) (_mapped_regions s) l (_vmm_ctx s).
Definition set_ctx (c : Z) (s : vm) : vm :=
  Vm (arch s) (mappings s) (holes s) (next_obj s) (_mapped_regions s) (_memory_holes s) c.

Definition on_arch {A} (m : M S A) : M vm A := zoom arch set_arch m.

(** ** Objects *)
Definition get_mapping (p : Z) : M vm memory_mapping := s ← get_st; lift (access (mappings s !! p)).
Definition put_mapping (p : Z) (m : memory_mapping) : M vm () :=
  modify (λ s, set_mappings (<[p := m]> (mappings s)) s).
Definition get_hole (p : Z) : M vm memory_hole := s ← get_st; lift (access (holes s !! p)).
Definition put_hole (p : Z) (h : memory_hole) : M vm () :=
  modify (λ s, set_holes (<[p := h]> (holes s)) s).
Definition delete_hole (p : Z) : M vm () := modify (λ s, set_holes (delete p (holes s)) s).

Definition fresh : M vm Z := λ s, Ok (next_obj s, set_next (next_obj s + 1) s).
Definition new_hole (h : memory_hole) : M vm Z := p ← fresh; put_hole p h;; mret p.

(** ** [memory_mapping] *)

(** The constructor. *)
Definition memory_mapping_new (base size : Z) : memory_mapping :=
  Mapping base size (vec_resize no_page vec_empty (Z.to_nat size)) 0 0 false.
Definition new_mapping (base size : Z) : M vm Z :=
  p ← fresh; put_mapping p (memory_mapping_new base size);; mret p.

Definition set_pages (m : memory_mapping) (v : V backing_page) : memory_mapping :=
  Mapping (_base m) (_size m) v (_perms m) (_cache_mode m) (_mapped m).
Definition set_mapped (m : memory_mapping) (b : bool) : memory_mapping :=
  Mapping (_base m) (_size m) (_backing_pages m) (_perms m) (_cache_mode m) b.
Definition set_perms (m : memory_mapping) (perms cache : Z) : memory_mapping :=
  Mapping (_base m) (_size m) (_backing_pages m) perms cache (_mapped m).

(** The address after the last page. *)
Definition end_of (base size : Z) : Z := u64 (base + u64 (size * vm_page_size)).

(** Update every page of the vector in order, in the monad. *)
Fixpoint pages_loop (f : nat → backing_page → M vm backing_page) (i : nat)
    (l : list backing_page) (v : V backing_page) : M vm (V backing_page) :=
  match l with
  | [] => mret v
  | p :: l' => p' ← f i p; pages_loop f (Datatypes.S i) l' (vec_set v i p')
  end.
Definition for_pages (r : Z) (f : nat → backing_page → M vm backing_page) : M vm () :=
  m ← get_mapping r;
  v ← pages_loop f 0 (vec_elems (_backing_pages m)) (_backing_pages m);
  m ← get_mapping r;
  put_mapping r (set_pages m v).

Definition delete_body (page : backing_page) : M vm () :=
  if _exists page && _allocated page && negb (_ptr page =? 0)
  then on_arch (am_free_phys (_ptr page) 1);; mret tt
  else mret tt.

(** The destructor, with the object's own storage. *)
Definition mapping_delete (r : Z) : M vm () :=
  m ← get_mapping r;
  for_each delete_body (vec_elems (_backing_pages m));;
  modify (λ s, set_mappings (delete r (mappings s)) s).

Definition mapping_allocate (r perms cache : Z) : M vm () :=
  m ← get_mapping r;
  put_mapping r (set_perms m perms cache);;
  for_pages r (λ _ page,
    lift (assertion (negb (_exists page) && negb (_allocated page)));;
    mret (BackingPage (_ptr page) (_exists page) true)).

Definition mapping_map_to (r address perms cache : Z) : M vm () :=
  m ← get_mapping r;
  put_mapping r (set_perms m perms cache);;
  for_pages r (λ i page,
    lift (assertion (negb (_exists page) && negb (_allocated page)));;
    mret (BackingPage (u64 (address + vm_page_size * Z.of_nat i)) true false)).

Definition mapping_deallocate (r : Z) : M vm () :=
  m ← get_mapping r;
  lift (assertion (negb (_mapped m)));;
  for_pages r (λ _ page,
    (if _exists page && _allocated page then on_arch (am_free_phys (_ptr page) 1);; mret tt
     else mret tt);;
    mret (BackingPage 0 false false)).

Definition mapping_touch (r idx : Z) : M vm bool :=
  m ← get_mapping r;
  page ← lift (access (vec_elems (_backing_pages m) !! Z.to_nat idx));
  if negb (_exists page) then
    lift (assertion (_allocated page));;
    ptr ← on_arch (am_alloc_phys 1);
    if ptr =? 0 then mret false
    else
      put_mapping r (set_pages m
        (vec_set (_backing_pages m) (Z.to_nat idx) (BackingPage ptr true (_allocated page))));;
      mret true
  else mret false.

Definition mapping_fault_hit (r address : Z) : M vm vm_fault_result :=
  m ← get_mapping r;
  if (address <? _base m) || (end_of (_base m) (_size m) <=? address) then lift Panic
  else
    let idx := u64 (address - _base m) / vm_page_size in
    page ← lift (access (vec_elems (_backing_pages m) !! Z.to_nat idx));
    if _allocated page && negb (_exists page) then
      t ← mapping_touch r idx;
      mret (if t : bool then remap_valid else ignore)
    else if _exists page then mret invalid_access
    else if negb (_allocated page) && negb (_exists page) then mret not_mapped
    else mret invalid.

Fixpoint touch_loop (r i : Z) (n : nat) (touched : bool) : M vm bool :=
  match n with
  | O => mret touched
  | Datatypes.S n' => t ← mapping_touch r i; touch_loop r (u64 (i + 1)) n' (touched || t)
  end.

Definition mapping_touch_all (r : Z) : M vm bool :=
  m ← get_mapping r;
  touch_loop r 0 (Z.to_nat (_size m)) false.

(** [offset] is a [ptrdiff_t]; [offset + size + ...] is computed in 64 unsigned bits. *)
Definition ensure_load_store (r offset size : Z) : M vm bool :=
  lift (assertion (0 <=? offset));;
  let pages := u64 (size + vm_page_size - 1) / vm_page_size in
  let start := offset / vm_page_size in
  m ← get_mapping r;
  if _size m <? u64 (offset + size + vm_page_size - 1) / vm_page_size then mret false
  else touch_loop r start (Z.to_nat pages) false.

Definition mapping_ptrs (m : memory_mapping) : list Z := _ptr <$> vec_elems (_backing_pages m).

Definition mapping_load (r offset : Z) (data : list Z) : M vm bool :=
  touched ← ensure_load_store r offset (Z.of_nat (length data));
  m ← get_mapping r;
  on_arch (am_mapping_load (mapping_ptrs m) (_size m) offset data);;
  mret touched.

Definition mapping_store (r offset : Z) (size : nat) : M vm (bool * list Z) :=
  touched ← ensure_load_store r offset (Z.of_nat size);
  m ← get_mapping r;
  data ← on_arch (am_mapping_store (mapping_ptrs m) (_size m) offset size);
  mret (touched, data).

(** ** The lists of an address space *)

(** [distance_between]: the end of one object to the base of another, as a [ptrdiff_t]. *)
Definition distance_between (base_a size_a base_b : Z) : Z := s64 (end_of base_a size_a - base_b).
Definition PTRDIFF_MAX : Z := 2 ^ 63 - 1.

(** The search loops of [find_succ_hole] and [find_succ_mapping], which have
    one text over two types; [obj] reads base and size of a list element. *)
Fixpoint find_succ (obj : Z → M vm (Z * Z)) (in_base : Z) (l : list Z)
    (candidate : option Z) (best : Z) : M vm (option Z) :=
  match l with
  | [] => mret candidate
  | p :: l' =>
      r ← obj p;
      if r.1 <? in_base then find_succ obj in_base l' candidate best
      else
        let d := distance_between r.1 r.2 in_base in
        if d <? best then find_succ obj in_base l' (Some p) d
        else find_succ obj in_base l' candidate best
  end.

Definition mapping_range (p : Z) : M vm (Z * Z) := m ← get_mapping p; mret (_base m, _size m).
Definition hole_range (p : Z) : M vm (Z * Z) := h ← get_hole p; mret (h_base h, h_size h).

Definition find_succ_mapping (in_ : Z) : M vm (option Z) :=
  m ← get_mapping in_;
  l ← gets _mapped_regions;
  find_succ mapping_range (_base m) (fl_elems l) None PTRDIFF_MAX.
Definition find_succ_hole (in_ : Z) : M vm (option Z) :=
  h ← get_hole in_;
  l ← gets _memory_holes;
  find_succ hole_range (h_base h) (fl_elems l) None PTRDIFF_MAX.

Definition put_region (mapping : Z) : M vm () :=
  succ ← find_succ_mapping mapping;
  match succ with
  | Some p => modify (λ s, set_regions (fl_insert (_mapped_regions s) p mapping) s)
  | None => modify (λ s, set_regions (fl_push_back (_mapped_regions s) mapping) s)
  end.

Definition put_hole_list (hole : Z) : M vm () :=
  succ ← find_succ_hole hole;
  match succ with
  | Some p => modify (λ s, set_hole_list (fl_insert (_memory_holes s) p hole) s)
  | None => modify (λ s, set_hole_list (fl_push_front (_memory_holes s) hole) s)
  end.

(** Erase a hole from its list and delete it. *)
Definition drop_hole (p : Z) : M vm () :=
  modify (λ s, set_hole_list (fl_erase (_memory_holes s) p) s);;
  delete_hole p.

(** The two merges of a round of [merge_holes], for the element [hole]. *)
Definition merge_prev (hole : Z) (prev : option Z) : M vm () :=
  match prev with
  | None => mret tt
  | Some p =>
      hp ← get_hole p; h ← get_hole hole;
      if distance_between (h_base hp) (h_size hp) (h_base h) =? 0 then
        put_hole hole (Hole (h_base hp) (u64 (h_size h + h_size hp)));;
        drop_hole p
      else mret tt
  end.

Definition merge_next (hole : Z) (next : option Z) : M vm () :=
  match next with
  | None => mret tt
  | Some n =>
      h ← get_hole hole; hn ← get_hole n;
      if distance_between (h_base h) (h_size h) (h_base hn) =? 0 then
        put_hole hole (Hole (h_base h) (u64 (h_size h + h_size hn)));;
        drop_hole n
      else mret tt
  end.

(** The neighbours are read before either merge. *)
Definition merge_hole (hole : Z) : M vm () :=
  l ← gets _memory_holes;
  merge_prev hole (fl_prev l hole);;
  merge_next hole (fl_next l hole).

Fixpoint merge_from (fuel : nat) (cur : option Z) : M vm () :=
  match cur with
  | None => mret tt
  | Some hole =>
      match fuel with
      | O => lift Hang
      | Datatypes.S fuel' =>
          merge_hole hole;;
          l ← gets _memory_holes;
          merge_from fuel' (fl_next l hole)
      end
  end.

Definition merge_holes : M vm () :=
  l ← gets _memory_holes;
  merge_from (length (fl_elems l)) (head (fl_elems l)).

(** ** Binding *)

Fixpoint find_free_loop (size : Z) (l : list Z) (candidate : option Z) (best_base : Z) : M vm (option Z) :=
  match l with
  | [] => mret candidate
  | p :: l' =>
      h ← get_hole p;
      if (size <=? h_size h) && (best_base <=? h_base h)
      then find_free_loop size l' (Some p) (h_base h)
      else find_free_loop size l' candidate best_base
  end.

Definition find_free_hole (size : Z) : M vm (option Z) :=
  l ← gets _memory_holes;
  find_free_loop size (fl_elems l) None 0.

Definition bind_hole (hole size : Z) : M vm Z :=
  h ← get_hole hole;
  lift (assertion (size <=? h_size h));;
  let base := h_base h in
  if h_size h =? size then
    drop_hole hole;;
    mapping ← new_mapping base size;
    put_region mapping;;
    mret mapping
  else
    put_hole hole (Hole base (h_size h - size));;
    mapping ← new_mapping (end_of base (h_size h - size)) size;
    put_region mapping;;
    mret mapping.

Fixpoint find_target (base size : Z) (l : list Z) : M vm (option Z) :=
  match l with
  | [] => mret None
  | p :: l' =>
      h ← get_hole p;
      if (h_base h <=? base) && (end_of base size <=? end_of (h_base h) (h_size h))
      then mret (Some p) else find_target base size l'
  end.

(** Cutting the range out of the hole: the four cases of [bind_exact]. *)
Definition cut_hole (t : Z) (h : memory_hole) (base size : Z) : M vm () :=
  if (base =? h_base h) && (size =? h_size h) then drop_hole t
  else if base =? h_base h then
    put_hole t (Hole (end_of (h_base h) size) (u64 (h_size h - size)))
  else if end_of base size =? end_of (h_base h) (h_size h) then
    put_hole t (Hole (h_base h) (u64 (h_size h - size)))
  else
    let gap := u64 (base - h_base h) / vm_page_size in
    n ← new_hole (Hole (h_base h) gap);
    put_hole t (Hole (end_of base size) (u64 (h_size h - size - gap)));;
    modify (λ s, set_hole_list (fl_insert (_memory_holes s) t n) s).

Definition bind_exact (base size : Z) : M vm (option Z) :=
  lift (assertion (negb (size =? 0)));;
  lift (assertion (negb (base =? 0)));;
  merge_holes;;
  l ← gets _memory_holes;
  target ← find_target base size (fl_elems l);
  match target with
  | None => mret None
  | Some t =>
      h ← get_hole t;
      cut_hole t h base size;;
      mapping ← new_mapping base size;
      put_region mapping;;
      mret (Some mapping)
  end.

Definition unbind_region (region : Z) : M vm () :=
  m ← get_mapping region;
  hole ← new_hole (Hole (_base m) (_size m));
  put_hole_list hole;;
  modify (λ s, set_regions (fl_erase (_mapped_regions s) region) s);;
  merge_holes.

(** ** Mapping a region into the page tables *)

(** The bodies of the two loops. *)
Definition map_body (ctx : Z) (m : memory_mapping) (i : Z) : M vm () :=
  page ← lift (access (vec_elems (_backing_pages m) !! Z.to_nat i));
  if _exists page then
    on_arch (am_map ctx (u64 (_base m + i * vm_page_size)) (_ptr page) 1 (_perms m) (_cache_mode m));;
    mret tt
  else mret tt.

Definition unmap_body (ctx : Z) (m : memory_mapping) (i : Z) : M vm () :=
  page ← lift (access (vec_elems (_backing_pages m) !! Z.to_nat i));
  if _exists page then
    on_arch (am_unmap ctx (u64 (_base m + i * vm_page_size)) 1);;
    mret tt
  else mret tt.

Definition map_region (region : Z) : M vm () :=
  m ← get_mapping region;
  ctx ← gets _vmm_ctx;
  for_each (map_body ctx m) (seqZ 0 (_size m));;
  m ← get_mapping region;
  put_mapping region (set_mapped m true).

Definition unmap_region (region : Z) : M vm () :=
  m ← get_mapping region;
  lift (assertion (_mapped m));;
  ctx ← gets _vmm_ctx;
  for_each (unmap_body ctx m) (seqZ 0 (_size m));;
  m ← get_mapping region;
  put_mapping region (set_mapped m false).

(** ** The operations of an address space *)

Definition allocate (size perms cache : Z) : M vm Z :=
  hole ← find_free_hole size;
  match hole with
  | None => mret 0
  | Some hole =>
      mem ← bind_hole hole size;
      mapping_allocate mem perms cache;;
      map_region mem;;
      m ← get_mapping mem;
      mret (_base m)
  end.

Definition map (address size perms cache : Z) : M vm Z :=
  hole ← find_free_hole size;
  match hole with
  | None => mret 0
  | Some hole =>
      mem ← bind_hole hole size;
      mapping_map_to mem address perms cache;;
      map_region mem;;
      m ← get_mapping mem;
      mret (_base m)
  end.

Definition allocate_at (base size perms cache : Z) : M vm Z :=
  mem ← bind_exact base size;
  match mem with
  | None => mret 0
  | Some mem =>
      mapping_allocate mem perms cache;;
      map_region mem;;
      m ← get_mapping mem;
      mret (_base m)
  end.

Definition map_at (base address size perms cache : Z) : M vm Z :=
  mem ← bind_exact base size;
  match mem with
  | None => mret 0
  | Some mem =>
      mapping_map_to mem address perms cache;;
      map_region mem;;
      m ← get_mapping mem;
      mret (_base m)
  end.

Definition destroy (region : Z) : M vm () :=
  unmap_region region;;
  unbind_region region;;
  mapping_delete region.

Fixpoint find_region (address : Z) (l : list Z) : M vm (option Z) :=
  match l with
  | [] => mret None
  | p :: l' =>
      m ← get_mapping p;
      if (_base m <=? address) && (address <=? end_of (_base m) (_size m))
      then mret (Some p) else find_region address l'
  end.

Definition region_for_address (address : Z) : M vm (option Z) :=
  l ← gets _mapped_regions;
  find_region address (fl_elems l).

(** [destroy(region_for_address(address))]: a null region is dereferenced. *)
Definition destroy_at (address : Z) : M vm () :=
  region ← region_for_address address;
  match region with
  | Some r => destroy r
  | None => lift Fault
  end.

Definition fault_hit (address : Z) : M vm bool :=
  region ← region_for_address address;
  match region with
  | None => mret false
  | Some r =>
      result ← mapping_fault_hit r address;
      match result with
      | invalid | invalid_access | not_mapped => mret false
      | remap_valid => map_region r;; mret true
      | ignore => mret true
      end
  end.

Definition touch (address : Z) : M vm () :=
  region ← region_for_address address;
  match region with
  | None => mret tt
  | Some r =>
      m ← get_mapping r;
      t ← mapping_touch r (u64 (address - _base m) / vm_page_size);
      if t : bool then map_region r else mret tt
  end.

Definition touch_all (address : Z) : M vm () :=
  region ← region_for_address address;
  match region with
  | None => mret tt
  | Some r =>
      t ← mapping_touch_all r;
      if t : bool then map_region r else mret tt
  end.

(** [load] copies [data] into the region; [store] reads it back out ([None]
    when the buffer is left alone). *)
Definition load (address : Z) (data : list Z) : M vm () :=
  region ← region_for_address address;
  match region with
  | None => mret tt
  | Some r =>
      m ← get_mapping r;
      t ← mapping_load r (s64 (address - _base m)) data;
      if t : bool then map_region r else mret tt
  end.

Definition store (address : Z) (size : nat) : M vm (option (list Z)) :=
  region ← region_for_address address;
  match region with
  | None => mret None
  | Some r =>
      m ← get_mapping r;
      td ← mapping_store r (s64 (address - _base m)) size;
      (if td.1 : bool then map_region r else mret tt);;
      mret (Some td.2)
  end.

(** ** Construction and destruction *)

Definition address_space_new : M vm () :=
  ctx ← on_arch am_create_context;
  modify (set_ctx ctx);;
  hole ← new_hole (Hole vm_user_base ((vm_user_end - vm_user_base) / vm_page_size));
  modify (λ s, set_hole_list (fl_push_back (_memory_holes s) hole) s).

Definition address_space_delete : M vm () :=
  ctx ← gets _vmm_ctx;
  on_arch (am_destroy_context ctx);;
  hs ← gets _memory_holes;
  for_each drop_hole (fl_elems hs);;
  rs ← gets _mapped_regions;
  for_each (λ r,
    modify (λ s, set_regions (fl_erase (_mapped_regions s) r) s);;
    mapping_delete r) (fl_elems rs).

End vm.
