(* ===== verification/VmSpace.v ===== *)
(** * The holes and regions of an address space

    Every user page belongs to exactly one hole or one mapped region: the
    invariant, its preservation by every list operation of mm/vm.cpp, and what
    [allocate] and [allocate_at] hand out. *)
From S2P Require Import Prelude Frigg Arch Vm.
From stdpp Require Import base numbers option gmap list.
#[local] Open Scope Z_scope.

Section space.
Context {S : Type} `{!ArchMM S}.
Context {L : Type} `{!FrgList L}.
Context {V : Type → Type} `{!FrgVector V}.

Notation vm := (vm S L V).
Notation memory_mapping := (memory_mapping V).
Implicit Types (s : vm) (m : memory_mapping) (h : memory_hole).

(** ** Ranges of pages and who covers them *)

(** A page range inside the user half of the address space. *)
Definition range_ok (b n : Z) : Prop :=
  b mod 4096 = 0 ∧ 4096 ≤ b ∧ 0 ≤ n ∧ b + n * 4096 ≤ 2 ^ 47.

(** How often a range covers the page [j]: 0 or 1. *)
Definition rng (b n j : Z) : nat := if decide (b / 4096 ≤ j < b / 4096 + n) then 1 else 0.

Definition cover (f : Z → option (Z * Z)) (l : list Z) (j : Z) : nat :=
  sum_list_with (λ p, match f p with Some (b, n) => rng b n j | None => 0%nat end) l.

Definition hole_at (s : vm) (p : Z) : option (Z * Z) := (λ h, (h_base h, h_size h)) <$> holes s !! p.
Definition region_at (s : vm) (p : Z) : option (Z * Z) := (λ m, (_base m, _size m)) <$> mappings s !! p.

Definition hole_ptrs (s : vm) : list Z := fl_elems (_memory_holes s).
Definition region_ptrs (s : vm) : list Z := fl_elems (_mapped_regions s).
Definition free_cover (s : vm) (j : Z) : nat := cover (hole_at s) (hole_ptrs s) j.
Definition used_cover (s : vm) (j : Z) : nat := cover (region_at s) (region_ptrs s) j.

Lemma cover_perm f l l' j : l ≡ₚ l' → cover f l j = cover f l' j.
Proof. intros H. unfold cover. induction H; cbn; lia. Qed.

Lemma cover_ext f g l j : (∀ p, p ∈ l → f p = g p) → cover f l j = cover g l j.
Proof.
  intros H. unfold cover. induction l as [|p l IH]; cbn; [done|].
  rewrite IH by set_solver. by rewrite H by set_solver.
Qed.

Lemma cover_cons f p l j b n : f p = Some (b, n) → cover f (p :: l) j = (rng b n j + cover f l j)%nat.
Proof. intros H. unfold cover. cbn. by rewrite H. Qed.

Lemma cover_elem f p l j b n : p ∈ l → f p = Some (b, n) → (rng b n j ≤ cover f l j)%nat.
Proof.
  intros Hp Hf. apply elem_of_Permutation in Hp as [l' Hl']. rewrite (cover_perm _ _ _ _ Hl').
  rewrite (cover_cons _ _ _ _ _ _ Hf). lia.
Qed.

Lemma cover_zero f l j :
  (∀ p b n, p ∈ l → f p = Some (b, n) → rng b n j = 0%nat) → cover f l j = 0%nat.
Proof.
  intros H. unfold cover. induction l as [|p l IH]; cbn; [done|].
  rewrite IH by set_solver. destruct (f p) as [[b n]|] eqn:E; [|done]. by rewrite (H p b n) by set_solver.
Qed.

(** Taking the last or the first pages of a range, and joining two ranges. *)
Lemma rng_split b n k j :
  b mod 4096 = 0 → 0 ≤ k ≤ n → rng b n j = (rng b k j + rng (b + k * 4096) (n - k) j)%nat.
Proof.
  intros Hb Hk. unfold rng. replace ((b + k * 4096) / 4096) with (b / 4096 + k) by wrap_lia.
  repeat case_decide; lia.
Qed.

Lemma end_of_small b n : range_ok b n → end_of b n = b + n * 4096.
Proof. intros (Hb & ? & ? & ?). unfold end_of, vm_page_size. rewrite (u64_small (n * _)) by lia. by rewrite u64_small by lia. Qed.

Lemma range_ok_split b n k : range_ok b n → 0 ≤ k ≤ n → range_ok b k ∧ range_ok (b + k * 4096) (n - k).
Proof. intros (Hb & ? & ? & ?) Hk. split; (split; [wrap_lia|lia]). Qed.

(** ** The invariant of an address space

    The lists hold distinct pointers to existing objects, every object is a
    range of user pages, objects are below the next free address, and every
    user page belongs to exactly one hole or mapped region, and no other page
    to any. In the middle of an operation the count is off by [x]. *)
Record vm_ok_with (x : Z → Z) (s : vm) : Prop := {
  ok_holes_nodup : NoDup (hole_ptrs s);
  ok_regions_nodup : NoDup (region_ptrs s);
  ok_holes p : p ∈ hole_ptrs s → is_Some (holes s !! p);
  ok_regions p : p ∈ region_ptrs s → is_Some (mappings s !! p);
  ok_hole_range p h : holes s !! p = Some h → range_ok (h_base h) (h_size h);
  ok_region_range p m : mappings s !! p = Some m →
    range_ok (_base m) (_size m) ∧ length (vec_elems (_backing_pages m)) = Z.to_nat (_size m);
  ok_hole_ptr p : is_Some (holes s !! p) → 0 < p < next_obj s;
  ok_region_ptr p : is_Some (mappings s !! p) → 0 < p < next_obj s;
  ok_next : 0 < next_obj s;
  ok_partition j :
    Z.of_nat (free_cover s j) + Z.of_nat (used_cover s j) + x j = if decide (1 ≤ j < 2 ^ 35) then 1 else 0;
}.
Definition vm_ok (s : vm) : Prop := vm_ok_with (λ _, 0) s.

Lemma vm_ok_ext x x' s : (∀ j, x j = x' j) → vm_ok_with x s → vm_ok_with x' s.
Proof. intros E []. split; try done. intros j. by rewrite <- E. Qed.

(** ** Running the primitives *)

Lemma get_hole_run s p h : holes s !! p = Some h → get_hole p s = Ok (h, s).
Proof. intros H. unfold get_hole. cbv [mbind M_bind get_st lift]. by rewrite H. Qed.

Lemma get_mapping_run s p m : mappings s !! p = Some m → get_mapping p s = Ok (m, s).
Proof. intros H. unfold get_mapping. cbv [mbind M_bind get_st lift]. by rewrite H. Qed.

Lemma find_succ_run obj b l c best s :
  (∀ p, p ∈ l → ∃ r, obj p s = Ok (r, s)) →
  ∃ c', find_succ obj b l c best s = Ok (c', s) ∧ (c' = c ∨ ∃ p, c' = Some p ∧ p ∈ l).
Proof.
  revert c best. induction l as [|p l IH]; intros c best Hobj; cbn [find_succ].
  - eauto.
  - destruct (Hobj p) as [r Hr]; [set_solver|]. run Hr.
    assert (∀ q, q ∈ l → ∃ r, obj q s = Ok (r, s)) as Hl by (intros; apply Hobj; set_solver).
    destruct (_ <? _); [|destruct (_ <? _)].
    + destruct (IH c best Hl) as (c' & -> & [->|(q & -> & ?)]); eexists; (split; [done|]); set_solver.
    + destruct (IH (Some p) (distance_between r.1 r.2 b) Hl) as (c' & -> & [->|(q & -> & ?)]);
        eexists; (split; [done|]); set_solver.
    + destruct (IH c best Hl) as (c' & -> & [->|(q & -> & ?)]); eexists; (split; [done|]); set_solver.
Qed.

Context `{!FrgListLaws L} `{!FrgVectorLaws V}.

Lemma fl_insert_perm (l : L) p x : p ∈ fl_elems l → fl_elems (fl_insert l p x) ≡ₚ x :: fl_elems l.
Proof.
  intros (l1 & l2 & Hl & Hp)%list_elem_of_split_l.
  rewrite (fl_insert_elems l l1 p l2 x) by done. rewrite Hl. solve_Permutation.
Qed.

Lemma fl_erase_perm (l : L) x : x ∈ fl_elems l → fl_elems l ≡ₚ x :: fl_elems (fl_erase l x).
Proof.
  intros (l1 & l2 & Hl & Hp)%list_elem_of_split_l.
  rewrite (fl_erase_elems l l1 x l2) by done. rewrite Hl. solve_Permutation.
Qed.

Lemma put_region_run s r :
  (∀ p, p ∈ region_ptrs s → is_Some (mappings s !! p)) → is_Some (mappings s !! r) →
  ∃ l, put_region r s = Ok (tt, set_regions l s) ∧ fl_elems l ≡ₚ r :: region_ptrs s.
Proof.
  intros Hl [m Hm]. unfold put_region, find_succ_mapping. cbv [mbind M_bind].
  rewrite (get_mapping_run _ _ _ Hm). cbv [gets].
  destruct (find_succ_run mapping_range (_base m) (region_ptrs s) None PTRDIFF_MAX s)
    as (c & Hc & Hin).
  { intros p Hp. destruct (Hl p Hp) as [m' Hm']. eexists. unfold mapping_range.
    by run (get_mapping_run _ _ _ Hm'). }
  unfold region_ptrs in Hc. rewrite Hc. destruct Hin as [->|(p & -> & Hp)]; cbv [modify].
  - eexists. split; [done|]. autorewrite with frg. unfold region_ptrs. solve_Permutation.
  - eexists. split; [done|]. by apply fl_insert_perm.
Qed.

Lemma put_hole_list_run s r :
  (∀ p, p ∈ hole_ptrs s → is_Some (holes s !! p)) → is_Some (holes s !! r) →
  ∃ l, put_hole_list r s = Ok (tt, set_hole_list l s) ∧ fl_elems l ≡ₚ r :: hole_ptrs s.
Proof.
  intros Hl [m Hm]. unfold put_hole_list, find_succ_hole. cbv [mbind M_bind].
  rewrite (get_hole_run _ _ _ Hm). cbv [gets].
  destruct (find_succ_run hole_range (h_base m) (hole_ptrs s) None PTRDIFF_MAX s)
    as (c & Hc & Hin).
  { intros p Hp. destruct (Hl p Hp) as [m' Hm']. eexists. unfold hole_range.
    by run (get_hole_run _ _ _ Hm'). }
  unfold hole_ptrs in Hc. rewrite Hc. destruct Hin as [->|(p & -> & Hp)]; cbv [modify].
  - eexists. split; [done|]. by autorewrite with frg.
  - eexists. split; [done|]. by apply fl_insert_perm.
Qed.

(** ** The steps the operations are made of *)

(** What a step on the holes leaves alone. *)
Record same_regions (s s' : vm) : Prop := {
  sr_arch : arch s' = arch s;
  sr_mappings : mappings s' = mappings s;
  sr_regions : _mapped_regions s' = _mapped_regions s;
  sr_ctx : _vmm_ctx s' = _vmm_ctx s;
  sr_next : next_obj s ≤ next_obj s';
}.

Lemma same_regions_refl s : same_regions s s.
Proof. done. Qed.
Lemma same_regions_trans s s1 s2 : same_regions s s1 → same_regions s1 s2 → same_regions s s2.
Proof. intros [] []. split; (by etrans) || lia. Qed.

Lemma hole_at_some s p h : holes s !! p = Some h → hole_at s p = Some (h_base h, h_size h).
Proof. intros H. unfold hole_at. by rewrite H. Qed.
Lemma region_at_some s p m : mappings s !! p = Some m → region_at s p = Some (_base m, _size m).
Proof. intros H. unfold region_at. by rewrite H. Qed.

Lemma free_cover_split s p h l j :
  hole_ptrs s ≡ₚ p :: l → holes s !! p = Some h →
  free_cover s j = (rng (h_base h) (h_size h) j + cover (hole_at s) l j)%nat.
Proof.
  intros Hl Hp. unfold free_cover. rewrite (cover_perm _ _ _ _ Hl).
  by rewrite (cover_cons _ _ _ _ _ _ (hole_at_some _ _ _ Hp)).
Qed.

(** Holes change, the rest does not: what is left to show for the invariant. *)
Lemma holes_changed x x' s s' :
  vm_ok_with x s → same_regions s s' →
  NoDup (hole_ptrs s') → (∀ p, p ∈ hole_ptrs s' → is_Some (holes s' !! p)) →
  (∀ p h, holes s' !! p = Some h → range_ok (h_base h) (h_size h) ∧ 0 < p < next_obj s') →
  (∀ j, Z.of_nat (free_cover s' j) + x' j = Z.of_nat (free_cover s j) + x j) →
  vm_ok_with x' s'.
Proof.
  intros [] [Ea Em Er Ec En] Hnd Hin Hobj Hcov.
  assert (∀ p, region_at s' p = region_at s p) as Hra by (intros p; unfold region_at; by rewrite Em).
  split; unfold region_ptrs in *; rewrite ?Em, ?Er; try done.
  - intros p h Hp. apply (Hobj p h Hp).
  - intros p [h Hp]. apply (Hobj p h Hp).
  - intros p Hp. destruct (ok_region_ptr0 p Hp). lia.
  - lia.
  - intros j. rewrite <- ok_partition0. unfold used_cover. unfold region_ptrs. rewrite Er.
    rewrite (cover_ext _ (region_at s)) by done. specialize (Hcov j). unfold used_cover, region_ptrs. lia.
Qed.

Lemma put_hole_step x s p h h' :
  vm_ok_with x s → p ∈ hole_ptrs s → holes s !! p = Some h → range_ok (h_base h') (h_size h') →
  let s' := set_holes (<[p := h']> (holes s)) s in
  vm_ok_with (λ j, x j + Z.of_nat (rng (h_base h) (h_size h) j) - Z.of_nat (rng (h_base h') (h_size h') j)) s' ∧
  same_regions s s'.
Proof.
  intros Hok Hin Hp Hr s'. assert (same_regions s s') as Hs by done. split; [|done].
  eapply holes_changed; [exact Hok|exact Hs|apply Hok|..].
  - intros q Hq. cbn. destruct (decide (q = p)) as [->|]; [rewrite lookup_insert_eq; eauto|].
    rewrite lookup_insert_ne by done. by apply (ok_holes _ _ Hok).
  - intros q hq. cbn. rewrite lookup_insert_Some. intros [[<- <-]|[_ Hq]].
    + split; [done|]. apply (ok_hole_ptr _ _ Hok). eauto.
    + split; [by eapply ok_hole_range|]. apply (ok_hole_ptr _ _ Hok). eauto.
  - intros j. apply elem_of_Permutation in Hin as [l Hl].
    rewrite (free_cover_split s p h l j Hl Hp).
    rewrite (free_cover_split s' p h' l j Hl) by (cbn; apply lookup_insert_eq).
    rewrite (cover_ext (hole_at s') (hole_at s)); [lia|].
    intros q Hq. unfold hole_at. cbn. rewrite lookup_insert_ne; [done|].
    pose proof (ok_holes_nodup _ _ Hok) as Hnd. rewrite Hl in Hnd. apply NoDup_cons in Hnd as [Hnd _].
    by intros <-.
Qed.

Lemma drop_hole_step x s p h :
  vm_ok_with x s → p ∈ hole_ptrs s → holes s !! p = Some h →
  let s' := set_holes (delete p (holes s)) (set_hole_list (fl_erase (_memory_holes s) p) s) in
  drop_hole p s = Ok (tt, s') ∧
  vm_ok_with (λ j, x j + Z.of_nat (rng (h_base h) (h_size h) j)) s' ∧ same_regions s s'.
Proof.
  intros Hok Hin Hp s'. split; [done|]. assert (same_regions s s') as Hs by done. split; [|done].
  pose proof (fl_erase_perm _ _ Hin) as Hl. change (hole_ptrs s ≡ₚ p :: hole_ptrs s') in Hl.
  pose proof (ok_holes_nodup _ _ Hok) as Hnd. rewrite Hl in Hnd. apply NoDup_cons in Hnd as [Hnp Hnd].
  assert (∀ q, q ∈ hole_ptrs s' → holes s' !! q = holes s !! q) as Hsame.
  { intros q Hq. cbn. apply lookup_delete_ne. by intros <-. }
  eapply holes_changed; [exact Hok|exact Hs|exact Hnd|..].
  - intros q Hq. rewrite Hsame by done. apply (ok_holes _ _ Hok). rewrite Hl. set_solver.
  - intros q hq Hq. cbn in Hq. rewrite lookup_delete_Some in Hq. destruct Hq as [_ Hq].
    split; [by eapply ok_hole_range|]. apply (ok_hole_ptr _ _ Hok). eauto.
  - intros j. rewrite (free_cover_split s p h _ j Hl Hp). unfold free_cover.
    rewrite (cover_ext (hole_at s') (hole_at s)); [lia|].
    intros q Hq. unfold hole_at. by rewrite Hsame.
Qed.

(** A new hole object, put somewhere in the list. *)
Lemma new_hole_step x s h l :
  vm_ok_with x s → range_ok (h_base h) (h_size h) → fl_elems l ≡ₚ next_obj s :: hole_ptrs s →
  let s' := set_hole_list l (set_holes (<[next_obj s := h]> (holes s)) (set_next (next_obj s + 1) s)) in
  vm_ok_with (λ j, x j - Z.of_nat (rng (h_base h) (h_size h) j)) s' ∧ same_regions s s'.
Proof.
  intros Hok Hr Hl s'. assert (same_regions s s') as Hs by (split; try done; cbn; lia). split; [|done].
  assert (holes s !! next_obj s = None) as Hnone.
  { apply eq_None_not_Some. intros H. apply (ok_hole_ptr _ _ Hok) in H. lia. }
  assert (next_obj s ∉ hole_ptrs s) as Hni.
  { intros H. apply (ok_holes _ _ Hok) in H as [? H]. congruence. }
  change (hole_ptrs s' ≡ₚ next_obj s :: hole_ptrs s) in Hl. pose proof (ok_next _ _ Hok).
  eapply holes_changed; [exact Hok|exact Hs|..].
  - rewrite Hl. apply NoDup_cons. split; [done|apply Hok].
  - intros q Hq. cbn. destruct (decide (q = next_obj s)) as [->|]; [rewrite lookup_insert_eq; eauto|].
    rewrite lookup_insert_ne by done. apply (ok_holes _ _ Hok). rewrite Hl in Hq. set_solver.
  - intros q hq. cbn. rewrite lookup_insert_Some. intros [[<- <-]|[_ Hq]].
    + split; [done|]. lia.
    + split; [by eapply ok_hole_range|]. destruct (ok_hole_ptr _ _ Hok q); eauto. lia.
  - intros j. rewrite (free_cover_split s' (next_obj s) h (hole_ptrs s) j Hl) by (cbn; apply lookup_insert_eq).
    unfold free_cover. rewrite (cover_ext (hole_at s') (hole_at s)); [lia|].
    intros q Hq. unfold hole_at. cbn. rewrite lookup_insert_ne; [done|]. by intros <-.
Qed.

(** What a step on the regions leaves alone. *)
Record same_holes (s s' : vm) : Prop := {
  sh_arch : arch s' = arch s;
  sh_holes : holes s' = holes s;
  sh_list : _memory_holes s' = _memory_holes s;
  sh_ctx : _vmm_ctx s' = _vmm_ctx s;
  sh_next : next_obj s ≤ next_obj s';
}.

Lemma regions_changed x x' s s' :
  vm_ok_with x s → same_holes s s' →
  NoDup (region_ptrs s') → (∀ p, p ∈ region_ptrs s' → is_Some (mappings s' !! p)) →
  (∀ p m, mappings s' !! p = Some m →
    (range_ok (_base m) (_size m) ∧ length (vec_elems (_backing_pages m)) = Z.to_nat (_size m)) ∧
    0 < p < next_obj s') →
  (∀ j, Z.of_nat (used_cover s' j) + x' j = Z.of_nat (used_cover s j) + x j) →
  vm_ok_with x' s'.
Proof.
  intros [] [Ea Eh El Ec En] Hnd Hin Hobj Hcov.
  split; unfold hole_ptrs in *; rewrite ?Eh, ?El; try done.
  - intros p m Hp. apply (Hobj p m Hp).
  - intros p Hp. destruct (ok_hole_ptr0 p Hp). lia.
  - intros p [m Hp]. apply (Hobj p m Hp).
  - lia.
  - intros j. rewrite <- ok_partition0. unfold free_cover, hole_ptrs. rewrite El.
    rewrite (cover_ext (hole_at s') (hole_at s)).
    + specialize (Hcov j). unfold free_cover, hole_ptrs. lia.
    + intros p _. unfold hole_at. by rewrite Eh.
Qed.

Lemma used_cover_split s p m l j :
  region_ptrs s ≡ₚ p :: l → mappings s !! p = Some m →
  used_cover s j = (rng (_base m) (_size m) j + cover (region_at s) l j)%nat.
Proof.
  intros Hl Hp. unfold used_cover. rewrite (cover_perm _ _ _ _ Hl).
  by rewrite (cover_cons _ _ _ _ _ _ (region_at_some _ _ _ Hp)).
Qed.

(** A new mapping object on the list of regions. *)
Lemma new_region_run x s b n :
  vm_ok_with x s → range_ok b n →
  ∃ s', (r ← new_mapping b n; put_region r;; mret r) s = Ok (next_obj s, s') ∧
    vm_ok_with (λ j, x j - Z.of_nat (rng b n j)) s' ∧ same_holes s s' ∧
    mappings s !! next_obj s = None ∧
    mappings s' = <[next_obj s := memory_mapping_new b n]> (mappings s) ∧
    region_ptrs s' ≡ₚ next_obj s :: region_ptrs s.
Proof.
  intros Hok Hr. pose proof (ok_next _ _ Hok).
  assert (mappings s !! next_obj s = None) as Hnone.
  { apply eq_None_not_Some. intros H'. apply (ok_region_ptr _ _ Hok) in H'. lia. }
  assert (next_obj s ∉ region_ptrs s) as Hni.
  { intros H'. apply (ok_regions _ _ Hok) in H' as [? H']. congruence. }
  set (s1 := set_mappings (<[next_obj s := memory_mapping_new b n]> (mappings s)) (set_next (next_obj s + 1) s)).
  assert (∀ q, q ∈ region_ptrs s → mappings s1 !! q = mappings s !! q) as Hsame.
  { intros q Hq. cbn. apply lookup_insert_ne. by intros <-. }
  destruct (put_region_run s1 (next_obj s)) as (l & Hput & Hl).
  { intros p Hp. change (p ∈ region_ptrs s) in Hp. rewrite Hsame by done. by apply (ok_regions _ _ Hok). }
  { cbn. rewrite lookup_insert_eq. eauto. }
  change (fl_elems l ≡ₚ next_obj s :: region_ptrs s) in Hl.
  set (s' := set_regions l s1). exists s'.
  assert (same_holes s s') as Hs by (split; try done; cbn; lia).
  split; [|split; [|done]].
  { assert (new_mapping b n s = Ok (next_obj s, s1)) as Hnew by done. run Hnew. by run Hput. }
  change (region_ptrs s' ≡ₚ next_obj s :: region_ptrs s) in Hl.
  eapply regions_changed; [exact Hok|exact Hs|..].
  - rewrite Hl. apply NoDup_cons. split; [done|apply Hok].
  - intros p Hp. rewrite Hl in Hp. change (mappings s') with (mappings s1).
    apply elem_of_cons in Hp as [->|Hp]; [cbn; rewrite lookup_insert_eq; eauto|].
    rewrite Hsame by done. by apply (ok_regions _ _ Hok).
  - intros p m. change (mappings s') with (mappings s1). cbn. rewrite lookup_insert_Some.
    intros [[<- <-]|[_ Hp]].
    + split; [|lia]. split; [done|]. cbn. autorewrite with frg. cbn. rewrite firstn_nil. cbn.
      by rewrite length_replicate, Nat.sub_0_r.
    + split; [by eapply ok_region_range|]. destruct (ok_region_ptr _ _ Hok p); eauto. lia.
  - intros j. rewrite (used_cover_split s' (next_obj s) (memory_mapping_new b n) _ j Hl)
      by (cbn; apply lookup_insert_eq).
    unfold used_cover. rewrite (cover_ext (region_at s') (region_at s)); [cbn; lia|].
    intros q Hq. unfold region_at. change (mappings s') with (mappings s1). by rewrite Hsame.
Qed.

(** Changing a mapping object without moving it. *)
Lemma put_mapping_step x s p m m' :
  vm_ok_with x s → mappings s !! p = Some m →
  _base m' = _base m → _size m' = _size m →
  length (vec_elems (_backing_pages m')) = length (vec_elems (_backing_pages m)) →
  vm_ok_with x (set_mappings (<[p := m']> (mappings s)) s).
Proof.
  intros Hok Hp Hb Hn Hlen. set (s' := set_mappings _ s).
  assert (same_holes s s') as Hs by done.
  eapply regions_changed; [exact Hok|exact Hs|apply Hok|..].
  - intros q Hq. cbn. destruct (decide (q = p)) as [->|]; [rewrite lookup_insert_eq; eauto|].
    rewrite lookup_insert_ne by done. by apply (ok_regions _ _ Hok).
  - intros q mq. cbn. rewrite lookup_insert_Some. intros [[<- <-]|[_ Hq]].
    + rewrite Hb, Hn, Hlen. split; [by eapply ok_region_range|]. apply (ok_region_ptr _ _ Hok). eauto.
    + split; [by eapply ok_region_range|]. apply (ok_region_ptr _ _ Hok). eauto.
  - intros j. f_equal. f_equal. apply cover_ext. intros q _. unfold region_at. cbn.
    destruct (decide (q = p)) as [->|]; [|by rewrite lookup_insert_ne].
    rewrite lookup_insert_eq, Hp. cbn. congruence.
Qed.

(** Taking a region off the list; the object stays. *)
Lemma erase_region_step x s p m :
  vm_ok_with x s → p ∈ region_ptrs s → mappings s !! p = Some m →
  let s' := set_regions (fl_erase (_mapped_regions s) p) s in
  vm_ok_with (λ j, x j + Z.of_nat (rng (_base m) (_size m) j)) s' ∧ same_holes s s' ∧
  region_ptrs s ≡ₚ p :: region_ptrs s'.
Proof.
  intros Hok Hin Hp s'. assert (same_holes s s') as Hs by done.
  pose proof (fl_erase_perm _ _ Hin) as Hl. change (region_ptrs s ≡ₚ p :: region_ptrs s') in Hl.
  split; [|done].
  pose proof (ok_regions_nodup _ _ Hok) as Hnd. rewrite Hl in Hnd. apply NoDup_cons in Hnd as [Hnp Hnd].
  eapply regions_changed; [exact Hok|exact Hs|exact Hnd|..].
  - intros q Hq. apply (ok_regions _ _ Hok). rewrite Hl. set_solver.
  - intros q mq Hq. split; [by eapply ok_region_range|]. apply (ok_region_ptr _ _ Hok). eauto.
  - intros j. rewrite (used_cover_split s p m _ j Hl Hp). unfold used_cover.
    change (region_at s') with (region_at s). lia.
Qed.

(** Deleting an object that is not on the list. *)
Lemma delete_mapping_step x s p :
  vm_ok_with x s → p ∉ region_ptrs s → vm_ok_with x (set_mappings (delete p (mappings s)) s).
Proof.
  intros Hok Hp. set (s' := set_mappings _ s). assert (same_holes s s') as Hs by done.
  assert (∀ q, q ∈ region_ptrs s → mappings s' !! q = mappings s !! q) as Hsame.
  { intros q Hq. cbn. apply lookup_delete_ne. by intros <-. }
  eapply regions_changed; [exact Hok|exact Hs|apply Hok|..].
  - intros q Hq. rewrite Hsame by done. by apply (ok_regions _ _ Hok).
  - intros q mq. cbn. rewrite lookup_delete_Some. intros [_ Hq].
    split; [by eapply ok_region_range|]. apply (ok_region_ptr _ _ Hok). eauto.
  - intros j. f_equal. f_equal. apply cover_ext. intros q Hq. unfold region_at. by rewrite Hsame.
Qed.

(** ** Merging holes *)

Lemma distance_zero b n b' n' :
  range_ok b n → range_ok b' n' → (distance_between b n b' =? 0) = true → b' = b + n * 4096.
Proof.
  intros H H' Hd. apply Z.eqb_eq in Hd. unfold distance_between in Hd.
  rewrite end_of_small in Hd by done. destruct H as (?&?&?&?), H' as (?&?&?&?).
  rewrite s64_small in Hd by lia. lia.
Qed.

(** Two neighbouring ranges make one. *)
Lemma join_ranges b n n' :
  range_ok b n → range_ok (b + n * 4096) n' →
  range_ok b (u64 (n + n')) ∧ ∀ j, rng b (u64 (n + n')) j = (rng b n j + rng (b + n * 4096) n' j)%nat.
Proof.
  intros (Hb&?&?&?) (?&?&?&?). rewrite u64_small by lia. split; [split; [done|lia]|].
  intros j. rewrite (rng_split b (n + n') n) by (done || lia). do 2 f_equal. lia.
Qed.

Lemma join_step x s k o hk ho hj :
  vm_ok_with x s → k ∈ hole_ptrs s → o ∈ hole_ptrs s → k ≠ o →
  holes s !! k = Some hk → holes s !! o = Some ho → range_ok (h_base hj) (h_size hj) →
  (∀ j, rng (h_base hj) (h_size hj) j = (rng (h_base hk) (h_size hk) j + rng (h_base ho) (h_size ho) j)%nat) →
  ∃ s', (put_hole k hj;; drop_hole o) s = Ok (tt, s') ∧ vm_ok_with x s' ∧ same_regions s s' ∧
    _memory_holes s' = fl_erase (_memory_holes s) o.
Proof.
  intros Hok Hk Ho Hne Hhk Hho Hr Hj.
  destruct (put_hole_step x s k hk hj) as [Hok1 Hs1]; [done..|]. set (s1 := set_holes _ s) in *.
  destruct (drop_hole_step _ s1 o ho Hok1) as (Hd & Hok2 & Hs2); [done|cbn; by rewrite lookup_insert_ne|].
  eexists. split_and!.
  - assert (put_hole k hj s = Ok (tt, s1)) as Hput by done. run Hput. exact Hd.
  - eapply vm_ok_ext; [|exact Hok2]. intros j. cbn. rewrite Hj. lia.
  - by eapply same_regions_trans.
  - done.
Qed.

(** Members of the list are distinct from what surrounds them. *)
Lemma holes_split_notin x s l1 p l2 :
  vm_ok_with x s → hole_ptrs s = l1 ++ p :: l2 → p ∉ l1 ∧ p ∉ l2.
Proof.
  intros Hok Hl. pose proof (ok_holes_nodup _ _ Hok) as Hnd. rewrite Hl in Hnd.
  apply NoDup_app in Hnd as (_ & Hd & Hnd). apply NoDup_cons in Hnd as [? _].
  split; [|done]. intros Hin. apply (Hd _ Hin). set_solver.
Qed.

Lemma merge_prev_run x s l1 hole l2 :
  vm_ok_with x s → hole_ptrs s = l1 ++ hole :: l2 →
  ∃ s' l1', merge_prev hole (last l1) s = Ok (tt, s') ∧ vm_ok_with x s' ∧ same_regions s s' ∧
    hole_ptrs s' = l1' ++ hole :: l2.
Proof.
  intros Hok Hl. destruct (holes_split_notin _ _ _ _ _ Hok Hl) as [Hni _].
  destruct (last l1) as [p|] eqn:Hp; [|by exists s, l1].
  apply last_Some in Hp as [l0 ->]. cbn [merge_prev]. pose proof Hl as Hl'. rewrite <- app_assoc in Hl'.
  assert (p ∈ hole_ptrs s ∧ hole ∈ hole_ptrs s) as [Hpin Hhin] by (rewrite Hl; set_solver).
  destruct (ok_holes _ _ Hok p Hpin) as [hp Hhp], (ok_holes _ _ Hok hole Hhin) as [h Hh].
  run (get_hole_run _ _ _ Hhp). run (get_hole_run _ _ _ Hh).
  destruct (distance_between _ _ _ =? 0) eqn:Hd; [|by exists s, (l0 ++ [p])].
  pose proof (ok_hole_range _ _ Hok _ _ Hhp) as Hrp. pose proof (ok_hole_range _ _ Hok _ _ Hh) as Hrh.
  eapply distance_zero in Hd; [|done..]. rewrite Hd in Hrh.
  destruct (join_ranges _ _ _ Hrp Hrh) as [Hj1 Hj2].
  destruct (join_step x s hole p h hp (Hole (h_base hp) (u64 (h_size h + h_size hp))))
    as (s1 & Hrun & Hok1 & Hs1 & Hlist); try done.
  { intros ->. set_solver. }
  { cbn. by rewrite Z.add_comm. }
  { intros j. cbn. rewrite Z.add_comm, Hj2, Hd. lia. }
  exists s1, l0. split_and!; [done..|]. unfold hole_ptrs. rewrite Hlist.
  apply (fl_erase_elems _ l0 p (hole :: l2)); [done|]. apply (holes_split_notin _ _ _ _ _ Hok Hl').
Qed.

Lemma merge_next_run x s l1 hole l2 :
  vm_ok_with x s → hole_ptrs s = l1 ++ hole :: l2 →
  ∃ s' l2', merge_next hole (head l2) s = Ok (tt, s') ∧ vm_ok_with x s' ∧ same_regions s s' ∧
    hole_ptrs s' = l1 ++ hole :: l2' ∧ (length l2' ≤ length l2)%nat.
Proof.
  intros Hok Hl. destruct (holes_split_notin _ _ _ _ _ Hok Hl) as [_ Hni].
  destruct l2 as [|n l2]; cbn [head merge_next]; [by exists s, []|].
  assert (n ∈ hole_ptrs s ∧ hole ∈ hole_ptrs s) as [Hnin Hhin] by (rewrite Hl; set_solver).
  destruct (ok_holes _ _ Hok n Hnin) as [hn Hhn], (ok_holes _ _ Hok hole Hhin) as [h Hh].
  run (get_hole_run _ _ _ Hh). run (get_hole_run _ _ _ Hhn).
  destruct (distance_between _ _ _ =? 0) eqn:Hd; [|by exists s, (n :: l2)].
  pose proof (ok_hole_range _ _ Hok _ _ Hhn) as Hrn. pose proof (ok_hole_range _ _ Hok _ _ Hh) as Hrh.
  eapply distance_zero in Hd; [|done..]. rewrite Hd in Hrn.
  destruct (join_ranges _ _ _ Hrh Hrn) as [Hj1 Hj2].
  destruct (join_step x s hole n h hn (Hole (h_base h) (u64 (h_size h + h_size hn))))
    as (s2 & Hrun & Hok2 & Hs2 & Hlist); try done.
  { intros ->. set_solver. }
  { intros j. cbn. rewrite Hj2, Hd. lia. }
  assert (hole_ptrs s = (l1 ++ [hole]) ++ n :: l2) as Hl' by by rewrite Hl, <- app_assoc.
  exists s2, l2. split_and!; [done..| |cbn; lia].
  unfold hole_ptrs. rewrite Hlist. rewrite (fl_erase_elems _ (l1 ++ [hole]) n l2); [by rewrite <- app_assoc|done|].
  apply (holes_split_notin _ _ _ _ _ Hok Hl').
Qed.

Lemma merge_hole_run x s l1 hole l2 :
  vm_ok_with x s → hole_ptrs s = l1 ++ hole :: l2 →
  ∃ s' l1' l2', merge_hole hole s = Ok (tt, s') ∧ vm_ok_with x s' ∧ same_regions s s' ∧
    hole_ptrs s' = l1' ++ hole :: l2' ∧ (length l2' ≤ length l2)%nat.
Proof.
  intros Hok Hl. destruct (holes_split_notin _ _ _ _ _ Hok Hl) as [Hni _].
  unfold merge_hole. run (eq_refl : gets _memory_holes s = Ok (_memory_holes s, s)).
  rewrite (fl_prev_elems _ l1 hole l2), (fl_next_elems _ l1 hole l2) by done.
  destruct (merge_prev_run _ _ _ _ _ Hok Hl) as (s1 & l1' & Hr1 & Hok1 & Hs1 & Hl1). run Hr1.
  destruct (merge_next_run _ _ _ _ _ Hok1 Hl1) as (s2 & l2' & Hr2 & Hok2 & Hs2 & Hl2 & Hlen).
  exists s2, l1', l2'. split_and!; [done|done|by eapply same_regions_trans|done|done].
Qed.

Lemma merge_from_run fuel x s l1 l2 :
  vm_ok_with x s → hole_ptrs s = l1 ++ l2 → (length l2 ≤ fuel)%nat →
  ∃ s', merge_from fuel (head l2) s = Ok (tt, s') ∧ vm_ok_with x s' ∧ same_regions s s'.
Proof.
  revert s l1 l2. induction fuel as [|fuel IH]; intros s l1 l2 Hok Hl Hlen.
  - destruct l2; [|cbn in Hlen; lia]. exists s. done.
  - destruct l2 as [|hole l2]; [exists s; done|]. cbn [head merge_from].
    destruct (merge_hole_run _ _ _ _ _ Hok Hl) as (s1 & l1' & l2' & Hr1 & Hok1 & Hs1 & Hl1 & Hlen1).
    run Hr1. run (eq_refl : gets _memory_holes s1 = Ok (_memory_holes s1, s1)).
    destruct (holes_split_notin _ _ _ _ _ Hok1 Hl1) as [Hni _].
    rewrite (fl_next_elems _ l1' hole l2') by done.
    destruct (IH s1 (l1' ++ [hole]) l2' Hok1) as (s2 & Hr2 & Hok2 & Hs2).
    + by rewrite Hl1, <- app_assoc.
    + cbn in Hlen. lia.
    + exists s2. split_and!; [done|done|by eapply same_regions_trans].
Qed.

(** [merge_holes] returns, whatever the order of the list, and keeps every
    page where it was. *)
Lemma merge_holes_run x s :
  vm_ok_with x s → ∃ s', merge_holes s = Ok (tt, s') ∧ vm_ok_with x s' ∧ same_regions s s'.
Proof. intros Hok. by apply (merge_from_run _ x s [] (hole_ptrs s)). Qed.

(** ** Binding ranges *)

(** [s'] is [s] with a new region [r] of [n] pages at [b] that were free. *)
Record bound (s : vm) (r b n : Z) (s' : vm) : Prop := {
  bd_arch : arch s' = arch s;
  bd_ctx : _vmm_ctx s' = _vmm_ctx s;
  bd_new : mappings s !! r = None;
  bd_ptr : 0 < r;
  bd_mappings : mappings s' = <[r := memory_mapping_new b n]> (mappings s);
  bd_list : region_ptrs s' ≡ₚ r :: region_ptrs s;
  bd_range : range_ok b n;
  bd_free j : free_cover s j = (free_cover s' j + rng b n j)%nat;
}.

Lemma bound_intro x s s1 s' b n :
  vm_ok_with x s → same_regions s s1 → same_holes s1 s' → vm_ok_with x s' → range_ok b n →
  mappings s1 !! next_obj s1 = None →
  mappings s' = <[next_obj s1 := memory_mapping_new b n]> (mappings s1) →
  region_ptrs s' ≡ₚ next_obj s1 :: region_ptrs s1 →
  bound s (next_obj s1) b n s'.
Proof.
  intros Hok [Ea Em Er Ec En] [Ha' _ _ Ec' _] Hok' Hr Hnone Hm Hl.
  pose proof (ok_next _ _ Hok).
  assert (region_ptrs s1 = region_ptrs s) as Hptrs by (unfold region_ptrs; by rewrite Er).
  rewrite Hptrs in Hl. rewrite Em in Hm, Hnone.
  split; [by etrans|by etrans|done|lia|done|done|done|].
  intros j. pose proof (ok_partition _ _ Hok j) as H1. pose proof (ok_partition _ _ Hok' j) as H2.
  rewrite (used_cover_split s' (next_obj s1) (memory_mapping_new b n) _ j Hl) in H2
    by (rewrite Hm; apply lookup_insert_eq).
  rewrite (cover_ext (region_at s') (region_at s)) in H2; [unfold used_cover in H1; cbn in H2; lia|].
  intros q Hq. unfold region_at. rewrite Hm, lookup_insert_ne; [done|]. intros <-.
  apply (ok_regions _ _ Hok) in Hq as [? Hq]. congruence.
Qed.

(** The common end of [bind_hole] and [bind_exact]. *)
Lemma bind_tail {A} (k : Z → A) x s s1 b n :
  vm_ok_with x s → same_regions s s1 →
  vm_ok_with (λ j, x j + Z.of_nat (rng b n j)) s1 → range_ok b n →
  ∃ s', (r ← new_mapping b n; put_region r;; mret (k r)) s1 = Ok (k (next_obj s1), s') ∧
    vm_ok_with x s' ∧ bound s (next_obj s1) b n s'.
Proof.
  intros Hok Hs Hok1 Hr.
  destruct (new_region_run _ s1 b n Hok1 Hr) as (s' & Hrun & Hok' & Hsh & Hnone & Hm & Hl).
  apply (vm_ok_ext _ x) in Hok'; [|intros j; lia].
  exists s'. split_and!; [|done|by eapply bound_intro].
  apply bind_M_Ok in Hrun as (r & s2 & H1 & Hrun). apply bind_M_Ok in Hrun as ([] & s3 & H2 & Hrun).
  injection Hrun as <- <-. run H1. by run H2.
Qed.

Lemma bind_hole_run x s p h n :
  vm_ok_with x s → p ∈ hole_ptrs s → holes s !! p = Some h → 0 ≤ n ≤ h_size h →
  ∃ r s', bind_hole p n s = Ok (r, s') ∧ vm_ok_with x s' ∧
    bound s r (h_base h + (h_size h - n) * 4096) n s'.
Proof.
  intros Hok Hin Hp Hn. pose proof (ok_hole_range _ _ Hok _ _ Hp) as Hr.
  destruct (range_ok_split _ _ (h_size h - n) Hr) as [Hr1 Hr2]; [lia|].
  replace (h_size h - (h_size h - n)) with n in Hr2 by lia.
  unfold bind_hole. run (get_hole_run _ _ _ Hp).
  rewrite (proj2 (Z.leb_le n (h_size h))) by lia.
  run (eq_refl : lift (assertion true) s = Ok (tt, s)).
  destruct (Z.eqb_spec (h_size h) n) as [<-|Hne].
  - destruct (drop_hole_step x s p h Hok Hin Hp) as (Hd & Hok1 & Hs). run Hd.
    rewrite Z.sub_diag, Z.mul_0_l, Z.add_0_r in *.
    destruct (bind_tail (λ r, r) x s _ _ _ Hok Hs Hok1 Hr) as (s' & -> & ? & ?). eauto.
  - destruct (put_hole_step x s p h (Hole (h_base h) (h_size h - n)) Hok Hin Hp Hr1) as [Hok1 Hs].
    set (s1 := set_holes _ s) in *.
    run (eq_refl : put_hole p (Hole (h_base h) (h_size h - n)) s = Ok (tt, s1)).
    rewrite end_of_small by done.
    destruct (bind_tail (λ r, r) x s s1 (h_base h + (h_size h - n) * 4096) n Hok Hs) as (s' & -> & ? & ?);
      [|done|eauto].
    eapply vm_ok_ext; [|exact Hok1]. intros j. cbn.
    rewrite (rng_split (h_base h) (h_size h) (h_size h - n)) by (apply Hr || lia).
    replace (h_size h - (h_size h - n)) with n by lia. lia.
Qed.

(** ** Finding a hole *)

Definition fits (s : vm) (n : Z) (p : Z) (h : memory_hole) : Prop :=
  p ∈ hole_ptrs s ∧ holes s !! p = Some h ∧ n ≤ h_size h.

Lemma find_free_loop_run s n l c best :
  (∀ p, p ∈ l → is_Some (holes s !! p)) →
  ∃ c', find_free_loop n l c best s = Ok (c', s) ∧
    ((c' = c ∧ ∀ p h, p ∈ l → holes s !! p = Some h → n ≤ h_size h → h_base h < best) ∨
     ∃ p h, c' = Some p ∧ p ∈ l ∧ holes s !! p = Some h ∧ n ≤ h_size h ∧ best ≤ h_base h ∧
       ∀ q h', q ∈ l → holes s !! q = Some h' → n ≤ h_size h' → h_base h' ≤ h_base h).
Proof.
  revert c best. induction l as [|p l IH]; intros c best Hl; cbn [find_free_loop].
  - exists c. split; [done|]. left. split; [done|]. intros p h Hin. by apply elem_of_nil in Hin.
  - destruct (Hl p) as [h Hp]; [set_solver|]. run (get_hole_run _ _ _ Hp).
    assert (∀ q, q ∈ l → is_Some (holes s !! q)) as Hl' by (intros; apply Hl; set_solver).
    destruct ((n <=? h_size h) && (best <=? h_base h)) eqn:Hb.
    + case_bool. destruct (IH (Some p) (h_base h) Hl') as (c' & -> & [[-> Hno]|(q & h' & -> & ? & ? & ? & ? & Hmax)]);
        (eexists; split; [done|]); right.
      * exists p, h. split_and!; try done; [set_solver|].
        intros q h' [->|Hq]%elem_of_cons Hh' Hn; [rewrite Hp in Hh'; injection Hh' as <-; lia|].
        specialize (Hno q h' Hq Hh' Hn). lia.
      * exists q, h'. split_and!; try done; [set_solver|lia|].
        intros q' h'' [->|Hq]%elem_of_cons Hh' Hn; [rewrite Hp in Hh'; injection Hh' as <-; lia|eauto].
    + assert (n ≤ h_size h → h_base h < best) as Hp' by lia.
      destruct (IH c best Hl') as (c' & -> & [[-> Hno]|(q & h' & -> & ? & ? & ? & ? & Hmax)]);
        (eexists; split; [done|]); [left|right].
      * split; [done|]. intros q h' [->|Hq]%elem_of_cons Hh' Hn; [|eauto].
        rewrite Hp in Hh'. injection Hh' as <-. auto.
      * exists q, h'. split_and!; try done; [set_solver|].
        intros q' h'' [->|Hq]%elem_of_cons Hh' Hn; [|eauto].
        rewrite Hp in Hh'. injection Hh' as <-. specialize (Hp' Hn). lia.
Qed.

(** The hole that is chosen is the highest one that is large enough. *)
Lemma find_free_hole_run x s n :
  vm_ok_with x s →
  (find_free_hole n s = Ok (None, s) ∧ ∀ p h, ¬ fits s n p h) ∨
  ∃ p h, find_free_hole n s = Ok (Some p, s) ∧ fits s n p h ∧
    ∀ q h', fits s n q h' → h_base h' ≤ h_base h.
Proof.
  intros Hok. unfold find_free_hole. run (eq_refl : gets _memory_holes s = Ok (_memory_holes s, s)).
  destruct (find_free_loop_run s n (hole_ptrs s) None 0) as (c & Hrun & Hc); [apply Hok|].
  unfold hole_ptrs in Hrun at 1. rewrite Hrun. destruct Hc as [[-> Hno]|(p & h & -> & ? & ? & ? & _ & Hmax)].
  - left. split; [done|]. intros p h (Hin & Hp & Hn). specialize (Hno p h Hin Hp Hn).
    destruct (ok_hole_range _ _ Hok p h Hp) as (_ & ? & _). lia.
  - right. exists p, h. split_and!; [done..|]. intros q h' (?&?&?). eauto.
Qed.

(** ** Binding at a given address *)

(** The hole [h] has room for the range. *)
Definition contains (h : memory_hole) (b n : Z) : Prop :=
  h_base h ≤ b ∧ b + n * 4096 ≤ h_base h + h_size h * 4096.

Lemma find_target_run x s b n l :
  vm_ok_with x s → range_ok b n → (∀ p, p ∈ l → p ∈ hole_ptrs s) →
  (find_target b n l s = Ok (None, s) ∧ ∀ p h, p ∈ l → holes s !! p = Some h → ¬ contains h b n) ∨
  ∃ p h, find_target b n l s = Ok (Some p, s) ∧ p ∈ l ∧ holes s !! p = Some h ∧ contains h b n.
Proof.
  intros Hok Hr. induction l as [|p l IH]; intros Hl; cbn [find_target].
  - left. split; [done|]. intros p h Hin. by apply elem_of_nil in Hin.
  - destruct (ok_holes _ _ Hok p) as [h Hp]; [apply Hl; set_solver|]. run (get_hole_run _ _ _ Hp).
    pose proof (ok_hole_range _ _ Hok _ _ Hp) as Hrh. rewrite !end_of_small by done.
    destruct ((h_base h <=? b) && (b + n * 4096 <=? h_base h + h_size h * 4096)) eqn:Hb.
    + right. exists p, h. split_and!; [done|set_solver|done|]. unfold contains. lia.
    + destruct IH as [[-> Hno]|(q & h' & -> & ? & ? & ?)]; [set_solver|left|right].
      * split; [done|]. intros q h' [->|Hq]%elem_of_cons Hh'; [|eauto].
        rewrite Hp in Hh'. injection Hh' as <-. unfold contains. lia.
      * exists q, h'. split_and!; [done|set_solver|done..].
Qed.

Lemma cut_middle x s t h gap n rest :
  vm_ok_with x s → t ∈ hole_ptrs s → holes s !! t = Some h →
  0 ≤ gap → 0 ≤ n → 0 ≤ rest → h_size h = gap + n + rest →
  let b := h_base h + gap * 4096 in
  ∃ s', (m ← new_hole (Hole (h_base h) gap);
         put_hole t (Hole (b + n * 4096) rest);;
         modify (λ s, set_hole_list (fl_insert (_memory_holes s) t m) s)) s = Ok (tt, s') ∧
    vm_ok_with (λ j, x j + Z.of_nat (rng b n j)) s' ∧ same_regions s s'.
Proof.
  intros Hok Hin Ht Hg Hn Hrest Hsz b. pose proof (ok_hole_range _ _ Hok _ _ Ht) as Hr.
  destruct (range_ok_split _ _ gap Hr) as [Hr1 Hr2]; [lia|].
  destruct (range_ok_split _ _ n Hr2) as [Hr3 Hr4]; [lia|]. fold b in Hr3, Hr4.
  replace (h_size h - gap - n) with rest in Hr4 by lia.
  destruct (put_hole_step x s t h (Hole (b + n * 4096) rest) Hok Hin Ht Hr4) as [Hok1 Hs1].
  set (s1 := set_holes _ s) in *.
  destruct (new_hole_step _ s1 (Hole (h_base h) gap) (fl_insert (_memory_holes s) t (next_obj s)) Hok1 Hr1)
    as [Hok2 Hs2]; [by apply fl_insert_perm|].
  eexists. split_and!; [| |by eapply same_regions_trans].
  - cbv [mbind M_bind new_hole put_hole fresh modify mret M_ret]. do 3 f_equal.
    unfold set_hole_list, set_holes, set_next. cbn. f_equal. apply insert_insert_ne. intros ->.
    destruct (ok_hole_ptr _ _ Hok (next_obj s)); [eauto|]. lia.
  - eapply vm_ok_ext; [|exact Hok2]. intros j. cbn.
    rewrite (rng_split (h_base h) (h_size h) gap) by (apply Hr || lia). fold b.
    rewrite (rng_split b (h_size h - gap) n) by (apply Hr2 || lia).
    replace (h_size h - gap - n) with rest by lia. lia.
Qed.

Lemma cut_hole_run x s t h b n :
  vm_ok_with x s → t ∈ hole_ptrs s → holes s !! t = Some h → range_ok b n → contains h b n →
  ∃ s', cut_hole t h b n s = Ok (tt, s') ∧
    vm_ok_with (λ j, x j + Z.of_nat (rng b n j)) s' ∧ same_regions s s'.
Proof.
  intros Hok Hin Ht Hrb Hc. pose proof (ok_hole_range _ _ Hok _ _ Ht) as Hr.
  pose proof Hc as [Hc1 Hc2]. pose proof Hr as (Hm & ? & ? & ?). pose proof Hrb as (Hmb & ? & ? & ?).
  unfold cut_hole. rewrite (end_of_small b n), (end_of_small (h_base h) (h_size h)) by done.
  destruct ((b =? h_base h) && (n =? h_size h)) eqn:E1.
  { case_bool. subst b n. destruct (drop_hole_step x s t h Hok Hin Ht) as (-> & Hok1 & Hs). eauto. }
  destruct (Z.eqb_spec b (h_base h)) as [->|Hb].
  { destruct (range_ok_split _ _ n Hr) as [Hr1 Hr2]; [lia|]. rewrite end_of_small, u64_small by (done || lia).
    destruct (put_hole_step x s t h (Hole (h_base h + n * 4096) (h_size h - n)) Hok Hin Ht Hr2) as [Hok1 Hs].
    eexists. split_and!; [done| |done]. eapply vm_ok_ext; [|exact Hok1]. intros j. cbn.
    rewrite (rng_split (h_base h) (h_size h) n) by (done || lia). lia. }
  destruct (Z.eqb_spec (b + n * 4096) (h_base h + h_size h * 4096)) as [He|He].
  { destruct (range_ok_split _ _ (h_size h - n) Hr) as [Hr1 Hr2]; [lia|]. rewrite u64_small by lia.
    destruct (put_hole_step x s t h (Hole (h_base h) (h_size h - n)) Hok Hin Ht Hr1) as [Hok1 Hs].
    eexists. split_and!; [done| |done]. eapply vm_ok_ext; [|exact Hok1]. intros j. cbn.
    rewrite (rng_split (h_base h) (h_size h) (h_size h - n)) by (done || lia).
    replace (h_base h + (h_size h - n) * 4096) with b by lia.
    replace (h_size h - (h_size h - n)) with n by lia. lia. }
  rewrite (u64_small (b - h_base h)) by lia. change vm_page_size with 4096.
  assert (∃ gap, (b - h_base h) / 4096 = gap ∧ b = h_base h + gap * 4096) as (gap & -> & ->)
    by (eexists; split; [done|wrap_lia]).
  rewrite (u64_small (h_size h - n - gap)) by lia.
  apply (cut_middle x s t h gap n (h_size h - n - gap)); done || lia.
Qed.

Lemma bind_exact_run x s b n :
  vm_ok_with x s → range_ok b n → 0 < n →
  ∃ s1, merge_holes s = Ok (tt, s1) ∧ vm_ok_with x s1 ∧ same_regions s s1 ∧
  ((bind_exact b n s = Ok (None, s1) ∧
     ∀ p h, p ∈ hole_ptrs s1 → holes s1 !! p = Some h → ¬ contains h b n) ∨
   (∃ p h r s', p ∈ hole_ptrs s1 ∧ holes s1 !! p = Some h ∧ contains h b n ∧
     bind_exact b n s = Ok (Some r, s') ∧ vm_ok_with x s' ∧ bound s r b n s')).
Proof.
  intros Hok Hr Hn. destruct (merge_holes_run x s Hok) as (s1 & Hm & Hok1 & Hs1).
  exists s1. split_and!; [done..|]. unfold bind_exact.
  destruct (Z.eqb_spec n 0); [lia|]. destruct (Z.eqb_spec b 0); [unfold range_ok in Hr; lia|].
  run (eq_refl : lift (assertion true) s = Ok (tt, s)).
  run (eq_refl : lift (assertion true) s = Ok (tt, s)). run Hm.
  run (eq_refl : gets _memory_holes s1 = Ok (_memory_holes s1, s1)).
  destruct (find_target_run x s1 b n (fl_elems (_memory_holes s1)) Hok1 Hr)
    as [[Hf Hno]|(p & h & Hf & Hin & Hp & Hc)]; [done|left|right]; run Hf.
  - done.
  - destruct (cut_hole_run x s1 p h b n) as (s2 & Hcut & Hok2 & Hs2); [done..|].
    run (get_hole_run _ _ _ Hp). run Hcut.
    destruct (bind_tail Some x s s2 b n Hok) as (s' & -> & ? & ?); [by eapply same_regions_trans|done..|].
    exists p, h. eauto 10.
Qed.

(** ** Giving a range back *)

Record unbound (s : vm) (r : Z) (m : memory_mapping) (s' : vm) : Prop := {
  ub_arch : arch s' = arch s;
  ub_ctx : _vmm_ctx s' = _vmm_ctx s;
  ub_mappings : mappings s' = mappings s;
  ub_list : region_ptrs s ≡ₚ r :: region_ptrs s';
  ub_free j : free_cover s' j = (free_cover s j + rng (_base m) (_size m) j)%nat;
}.

Lemma unbind_region_run x s r m :
  vm_ok_with x s → r ∈ region_ptrs s → mappings s !! r = Some m →
  ∃ s', unbind_region r s = Ok (tt, s') ∧ vm_ok_with x s' ∧ unbound s r m s'.
Proof.
  intros Hok Hin Hm. destruct (ok_region_range _ _ Hok r m Hm) as [Hr _].
  pose (h := Hole (_base m) (_size m)).
  set (s1 := set_holes (<[next_obj s := h]> (holes s)) (set_next (next_obj s + 1) s)).
  assert (∀ p, p ∈ hole_ptrs s → is_Some (holes s1 !! p)) as Hl1.
  { intros p Hp. cbn. destruct (decide (p = next_obj s)) as [->|]; [rewrite lookup_insert_eq; eauto|].
    rewrite lookup_insert_ne by done. by apply (ok_holes _ _ Hok). }
  destruct (put_hole_list_run s1 (next_obj s)) as (l & Hput & Hl); [done|cbn; rewrite lookup_insert_eq; eauto|].
  destruct (new_hole_step x s h l Hok Hr Hl) as [Hok2 Hs2]. set (s2 := set_hole_list l _) in *.
  destruct (erase_region_step _ s2 r m Hok2 Hin Hm) as (Hok3 & Hs3 & Hl3). set (s3 := set_regions _ s2) in *.
  apply (vm_ok_ext _ x) in Hok3; [|intros j; cbn; lia].
  destruct (merge_holes_run x s3 Hok3) as (s' & Hmerge & Hok' & Hs').
  exists s'. split_and!; [|done|].
  - unfold unbind_region. run (get_mapping_run _ _ _ Hm).
    run (eq_refl : new_hole h s = Ok (next_obj s, s1)). run Hput.
    run (eq_refl : modify (λ s, set_regions (fl_erase (_mapped_regions s) r) s) s2 = Ok (tt, s3)). done.
  - destruct Hs' as [Ea Em Er Ec _].
    assert (region_ptrs s' = region_ptrs s3) as Hp by (unfold region_ptrs; by rewrite Er).
    split; [done|done|done|by rewrite Hp|].
    intros j. pose proof (ok_partition _ _ Hok j) as H1. pose proof (ok_partition _ _ Hok' j) as H2.
    rewrite (used_cover_split s r m _ j Hl3 Hm) in H1. unfold used_cover in H2. rewrite Hp in H2.
    rewrite (cover_ext (region_at s') (region_at s)) in H2; [lia|]. intros q _. unfold region_at. by rewrite Em.
Qed.

(** ** Filling in a fresh mapping *)

Lemma pages_loop_pure f g i l v s :
  (∀ i p, p ∈ l → f i p s = Ok (g i p, s)) → (length (vec_elems v) = i + length l)%nat →
  ∃ v', pages_loop f i l v s = Ok (v', s) ∧ vec_elems v' = take i (vec_elems v) ++ imap (λ k p, g (i + k)%nat p) l.
Proof.
  revert i v. induction l as [|p l IH]; intros i v Hf Hlen; cbn [pages_loop].
  - exists v. split; [done|]. cbn in *. rewrite app_nil_r, take_ge by lia. done.
  - run (Hf i p ltac:(set_solver)). cbn in Hlen.
    destruct (IH (Datatypes.S i) (vec_set v i (g i p))) as (v' & Hrun & Hv').
    + intros k q Hq. apply Hf. set_solver.
    + autorewrite with frg. rewrite length_insert. lia.
    + exists v'. split; [done|]. rewrite Hv'. autorewrite with frg.
      rewrite (take_S_r _ _ (g i p)) by (apply list_lookup_insert_eq; lia).
      rewrite take_insert_ge by lia. rewrite <- app_assoc. cbn. rewrite Nat.add_0_r. do 2 f_equal.
      apply imap_ext. intros k q _. cbn. f_equal. lia.
Qed.

Lemma for_pages_run r m f g s :
  mappings s !! r = Some m →
  (∀ i p, p ∈ vec_elems (_backing_pages m) → f i p s = Ok (g i p, s)) →
  ∃ v, for_pages r f s = Ok (tt, set_mappings (<[r := set_pages m v]> (mappings s)) s) ∧
    vec_elems v = imap g (vec_elems (_backing_pages m)).
Proof.
  intros Hm Hf. unfold for_pages. run (get_mapping_run _ _ _ Hm).
  destruct (pages_loop_pure f g 0 _ (_backing_pages m) s Hf) as (v & Hv & He); [done|]. run Hv.
  run (get_mapping_run _ _ _ Hm). exists v. split; [done|]. by rewrite He.
Qed.

Definition fresh_pages (m : memory_mapping) : Prop :=
  ∀ p, p ∈ vec_elems (_backing_pages m) → p = no_page.

Lemma memory_mapping_new_fresh b n : fresh_pages (memory_mapping_new b n).
Proof.
  intros p. cbn. autorewrite with frg. rewrite take_nil. cbn. intros Hp. by apply elem_of_replicate in Hp as [-> _].
Qed.

(** The object after [allocate] or [map_to]. *)
Definition filled (m m' : memory_mapping) (perms cache : Z) (g : nat → backing_page) : Prop :=
  _base m' = _base m ∧ _size m' = _size m ∧ _perms m' = perms ∧ _cache_mode m' = cache ∧
  _mapped m' = _mapped m ∧
  vec_elems (_backing_pages m') = imap (λ i _, g i) (vec_elems (_backing_pages m)).

Lemma mapping_allocate_run r m perms cache s :
  mappings s !! r = Some m → fresh_pages m →
  ∃ m', mapping_allocate r perms cache s = Ok (tt, set_mappings (<[r := m']> (mappings s)) s) ∧
    filled m m' perms cache (λ _, BackingPage 0 false true).
Proof.
  intros Hm Hf. unfold mapping_allocate. run (get_mapping_run _ _ _ Hm).
  set (m1 := set_perms m perms cache). set (s1 := set_mappings (<[r := m1]> (mappings s)) s).
  run (eq_refl : put_mapping r m1 s = Ok (tt, s1)).
  destruct (for_pages_run r m1 (λ _ page, lift (assertion (negb (_exists page) && negb (_allocated page)));;
    mret (BackingPage (_ptr page) (_exists page) true)) (λ _ _, BackingPage 0 false true) s1)
    as (v & Hrun & Hv).
  - apply lookup_insert_eq.
  - intros i p Hp. by rewrite (Hf p Hp).
  - rewrite Hrun. cbn [mappings s1 set_mappings]. rewrite insert_insert_eq. by eexists.
Qed.

Lemma mapping_map_to_run r m a perms cache s :
  mappings s !! r = Some m → fresh_pages m →
  ∃ m', mapping_map_to r a perms cache s = Ok (tt, set_mappings (<[r := m']> (mappings s)) s) ∧
    filled m m' perms cache (λ i, BackingPage (u64 (a + vm_page_size * Z.of_nat i)) true false).
Proof.
  intros Hm Hf. unfold mapping_map_to. run (get_mapping_run _ _ _ Hm).
  set (m1 := set_perms m perms cache). set (s1 := set_mappings (<[r := m1]> (mappings s)) s).
  run (eq_refl : put_mapping r m1 s = Ok (tt, s1)).
  destruct (for_pages_run r m1 (λ i page, lift (assertion (negb (_exists page) && negb (_allocated page)));;
    mret (BackingPage (u64 (a + vm_page_size * Z.of_nat i)) true false))
    (λ i _, BackingPage (u64 (a + vm_page_size * Z.of_nat i)) true false) s1)
    as (v & Hrun & Hv).
  - apply lookup_insert_eq.
  - intros i p Hp. by rewrite (Hf p Hp).
  - rewrite Hrun. cbn [mappings s1 set_mappings]. rewrite insert_insert_eq. by eexists.
Qed.

End space.
