(* ===== verification/VmTables.v ===== *)
(** * Address spaces and page tables

    The page tables of an address space hold what its regions say, the
    physical pages of the regions are owned by one page each, and the
    operations of mm/vm.cpp keep it so, against the interface of Arch.v. *)
From S2P Require Import Prelude Frigg Arch Vm VmSpace.
From stdpp Require Import base numbers option gmap list.
#[local] Open Scope Z_scope.

Section tables.
Context {S : Type} `{!ArchMM S}.
Context {L : Type} `{!FrgList L}.
Context {V : Type → Type} `{!FrgVector V}.

Notation vm := (vm S L V).
Notation memory_mapping := (memory_mapping V).
Implicit Types (s : vm) (m : memory_mapping) (h : memory_hole).

(** ** Page tables *)

Context `{!FrgListLaws L} `{!FrgVectorLaws V} `{!ArchMMLaws S}.

(** The physical page behind the page [v] of the region, if there is one. *)
Definition backing (m : memory_mapping) (v : Z) : option Z :=
  if decide (_base m / 4096 ≤ v) then
    match vec_elems (_backing_pages m) !! Z.to_nat (v - _base m / 4096) with
    | Some p => if _exists p then Some (_ptr p) else None
    | None => None
    end
  else None.

Definition in_region (m : memory_mapping) (v : Z) : Prop :=
  _base m / 4096 ≤ v < _base m / 4096 + _size m.

(** What the interface promises to keep, for every context and page handed out. *)
Record arch_step (g : am_ghost) (a : S) (g' : am_ghost) (a' : S) : Prop := {
  as_inv : am_inv g' a';
  as_ctx c : am_ctx g c → am_ctx g' c;
  as_frame q : am_frame g a q → am_frame g' a' q;
  as_kept : am_kept g a a';
}.

Lemma arch_step_refl g a : am_inv g a → arch_step g a g a.
Proof. by split; [| | |split]. Qed.
Lemma arch_step_trans g a g1 a1 g2 a2 :
  arch_step g a g1 a1 → arch_step g1 a1 g2 a2 → arch_step g a g2 a2.
Proof.
  intros [H1 C1 F1 K1] [H2 C2 F2 K2]. split; [auto..|].
  split; [by rewrite (kept_kernel _ _ _ K2), (kept_kernel _ _ _ K1)|intros ?; by apply K2, K1|].
  intros q x Hq Hx. rewrite (kept_byte _ _ _ K2) by auto. by apply K1.
Qed.

Lemma region_page (m : memory_mapping) i :
  range_ok (_base m) (_size m) → 0 ≤ i < _size m →
  u64 (_base m + i * vm_page_size) = (_base m / 4096 + i) * vm_page_size ∧ user_page (_base m / 4096 + i).
Proof.
  intros (Hb & ? & ? & ?) Hi. unfold vm_page_size, user_page. rewrite u64_small by lia. split; wrap_lia.
Qed.

Lemma backing_at m i p :
  0 ≤ i → vec_elems (_backing_pages m) !! Z.to_nat i = Some p →
  backing m (_base m / 4096 + i) = if _exists p then Some (_ptr p) else None.
Proof.
  intros Hi Hp. unfold backing. rewrite decide_True by lia.
  replace (_base m / 4096 + i - _base m / 4096) with i by lia. by rewrite Hp.
Qed.

(** The entry that [map_region] writes for the page [v], or the old one. *)
Definition new_entry (m : memory_mapping) (v old : Z) : Z :=
  match backing m v with
  | Some p => am_leaf p (_perms m) (_cache_mode m)
  | None => old
  end.

(** A region whose object is consistent. *)
Record region_ok (m : memory_mapping) : Prop := {
  rg_range : range_ok (_base m) (_size m);
  rg_len : length (vec_elems (_backing_pages m)) = Z.to_nat (_size m);
  rg_u64 p : p ∈ vec_elems (_backing_pages m) → is_u64 (_ptr p);
}.

Lemma map_body_run g s ctx m k :
  am_inv g (arch s) → am_ctx g ctx → region_ok m → 0 ≤ k < _size m → 3 ≤ am_room (arch s) →
  ∃ g' a', map_body ctx m k s = Ok (tt, set_arch a' s) ∧ arch_step g (arch s) g' a' ∧
    am_room (arch s) - 3 ≤ am_room a' ∧
    ∀ c v, am_ctx g c → user_page v →
      am_entry a' c v =
        if decide (c = ctx ∧ v = _base m / 4096 + k)
        then new_entry m v (am_entry (arch s) c v) else am_entry (arch s) c v.
Proof.
  intros Hinv Hctx [Hr Hlen Hu] Hk Hroom. unfold map_body, new_entry.
  destruct (vec_elems (_backing_pages m) !! Z.to_nat k) as [p|] eqn:Hp.
  2:{ apply lookup_ge_None in Hp. lia. }
  run (eq_refl : lift (access (Some p)) s = Ok (p, s)).
  destruct (region_page m k Hr Hk) as [Haddr Hup]. pose proof (backing_at m k p (proj1 Hk) Hp) as Hback.
  destruct (_exists p) eqn:Hex.
  - destruct (am_map_law g (arch s) ctx (_base m / 4096 + k) (_ptr p) (_perms m) (_cache_mode m))
      as (g1 & a1 & Hrun & Hi & Hc & Hf & He & Hrm & Hkp); [done|done|done| |lia|].
    { apply Hu. by eapply list_elem_of_lookup_2. }
    exists g1, a1. split_and!; [|by split|done|].
    + unfold on_arch, zoom. cbv [mbind M_bind]. rewrite Haddr, Hrun. done.
    + intros c v Hcc Hv. rewrite He by done. case_decide as Hd; [|done]. destruct Hd as [-> ->].
      by rewrite Hback.
  - exists g, (arch s). split_and!; [by destruct s|by apply arch_step_refl|lia|].
    intros c v _ _. case_decide as Hd; [|done]. destruct Hd as [-> ->]. by rewrite Hback.
Qed.

Lemma map_loop_run n g s ctx m k :
  am_inv g (arch s) → am_ctx g ctx → region_ok m → 0 ≤ k → k + Z.of_nat n ≤ _size m →
  3 * Z.of_nat n ≤ am_room (arch s) →
  ∃ g' a', for_each (map_body ctx m) (seqZ k (Z.of_nat n)) s = Ok (tt, set_arch a' s) ∧
    arch_step g (arch s) g' a' ∧ am_room (arch s) - 3 * Z.of_nat n ≤ am_room a' ∧
    ∀ c v, am_ctx g c → user_page v →
      am_entry a' c v =
        if decide (c = ctx ∧ _base m / 4096 + k ≤ v < _base m / 4096 + k + Z.of_nat n)
        then new_entry m v (am_entry (arch s) c v) else am_entry (arch s) c v.
Proof.
  intros Hinv Hctx Hr. revert g s k Hinv Hctx.
  induction n as [|n IH]; intros g s k Hinv Hctx Hk Hkn Hroom.
  - exists g, (arch s). split_and!; [by destruct s|by apply arch_step_refl|lia|].
    intros c v _ _. rewrite decide_False; [done|lia].
  - rewrite seqZ_cons by lia. cbn [for_each].
    replace (Z.pred (Z.of_nat (Datatypes.S n))) with (Z.of_nat n) by lia.
    replace (Z.succ k) with (k + 1) by lia.
    destruct (map_body_run g s ctx m k) as (g1 & a1 & Hbody & Hs1 & Hroom1 & He1); [done..|lia|lia|].
    run Hbody.
    destruct (IH g1 (set_arch a1 s) (k + 1)) as (g2 & a2 & Hrun & Hs2 & Hroom2 & He2);
      [apply Hs1|by apply Hs1|lia|lia|cbn; lia|].
    exists g2, a2. split_and!; [done|by eapply arch_step_trans|cbn in Hroom2; lia|].
    intros c v Hc Hv. rewrite He2 by (done || by apply Hs1). cbn [arch set_arch]. rewrite !He1 by done.
    destruct (decide (c = ctx ∧ v = _base m / 4096 + k)) as [[-> ->]|Hne].
    + rewrite decide_False by lia. by rewrite decide_True by lia.
    + destruct (decide (c = ctx ∧ _base m / 4096 + (k + 1) ≤ v < _)).
      * by rewrite decide_True by lia.
      * by rewrite decide_False by lia.
Qed.

Lemma unmap_body_run g s ctx m k :
  am_inv g (arch s) → am_ctx g ctx → region_ok m → 0 ≤ k < _size m →
  ∃ a', unmap_body ctx m k s = Ok (tt, set_arch a' s) ∧ arch_step g (arch s) g a' ∧
    am_room a' = am_room (arch s) ∧ (∀ q, am_frame g a' q ↔ am_frame g (arch s) q) ∧
    ∀ c v, am_ctx g c → user_page v →
      am_entry a' c v =
        if decide (c = ctx ∧ v = _base m / 4096 + k ∧ is_Some (backing m v))
        then 0 else am_entry (arch s) c v.
Proof.
  intros Hinv Hctx [Hr Hlen Hu] Hk. unfold unmap_body.
  destruct (vec_elems (_backing_pages m) !! Z.to_nat k) as [p|] eqn:Hp.
  2:{ apply lookup_ge_None in Hp. lia. }
  run (eq_refl : lift (access (Some p)) s = Ok (p, s)).
  destruct (region_page m k Hr Hk) as [Haddr Hup]. pose proof (backing_at m k p (proj1 Hk) Hp) as Hback.
  destruct (_exists p) eqn:Hex.
  - destruct (am_unmap_law g (arch s) ctx (_base m / 4096 + k)) as (r & a1 & Hrun & Hi & Hf & He & Hrm & Hkp); [done..|].
    exists a1. split_and!; [|split; [done|done|by intros q; rewrite Hf|done]|done|by intros q; rewrite Hf|].
    + unfold on_arch, zoom. cbv [mbind M_bind]. rewrite Haddr, Hrun. done.
    + intros c v Hcc Hv. rewrite He by done. repeat case_decide; try done; exfalso; [|naive_solver].
      destruct H as [-> ->]. apply H0. rewrite Hback. eauto.
  - exists (arch s). split_and!; [by destruct s|by apply arch_step_refl|done|done|].
    intros c v _ _. rewrite decide_False; [done|]. intros (-> & -> & [? Hb]). congruence.
Qed.

Lemma unmap_loop_run n g s ctx m k :
  am_inv g (arch s) → am_ctx g ctx → region_ok m → 0 ≤ k → k + Z.of_nat n ≤ _size m →
  ∃ a', for_each (unmap_body ctx m) (seqZ k (Z.of_nat n)) s = Ok (tt, set_arch a' s) ∧
    arch_step g (arch s) g a' ∧ am_room a' = am_room (arch s) ∧
    (∀ q, am_frame g a' q ↔ am_frame g (arch s) q) ∧
    ∀ c v, am_ctx g c → user_page v →
      am_entry a' c v =
        if decide (c = ctx ∧ _base m / 4096 + k ≤ v < _base m / 4096 + k + Z.of_nat n ∧ is_Some (backing m v))
        then 0 else am_entry (arch s) c v.
Proof.
  intros Hinv Hctx Hr. revert s k Hinv.
  induction n as [|n IH]; intros s k Hinv Hk Hkn.
  - exists (arch s). split_and!; [by destruct s|by apply arch_step_refl|lia|done|].
    intros c v _ _. rewrite decide_False; [done|lia].
  - rewrite seqZ_cons by lia. cbn [for_each].
    replace (Z.pred (Z.of_nat (Datatypes.S n))) with (Z.of_nat n) by lia.
    replace (Z.succ k) with (k + 1) by lia.
    destruct (unmap_body_run g s ctx m k) as (a1 & Hbody & Hs1 & Hroom1 & Hf1 & He1); [done..|lia|].
    run Hbody.
    destruct (IH (set_arch a1 s) (k + 1)) as (a2 & Hrun & Hs2 & Hroom2 & Hf2 & He2); [apply Hs1|lia|lia|].
    exists a2. split_and!; [done|by eapply arch_step_trans|cbn in Hroom2; lia|by intros q; rewrite Hf2; apply Hf1|].
    intros c v Hc Hv. rewrite He2 by done. cbn [arch set_arch]. rewrite !He1 by done.
    destruct (decide (c = ctx)) as [->|]; [|rewrite !decide_False by naive_solver; done].
    destruct (decide (is_Some (backing m v))) as [Hb|]; [|rewrite !decide_False by naive_solver; done].
    destruct (decide (v = _base m / 4096 + k)) as [Hv'|].
    + rewrite (decide_True (P := _ ∧ v = _ ∧ _)) by done. rewrite (decide_True (P := _ ∧ (_ + k ≤ _ < _) ∧ _)).
      * by case_decide.
      * split; [done|]. split; [lia|done].
    + rewrite (decide_False (P := _ ∧ v = _ ∧ _)) by naive_solver.
      destruct (decide (_base m / 4096 + (k + 1) ≤ v < _base m / 4096 + (k + 1) + Z.of_nat n)).
      * rewrite !decide_True; [done| |done]. split; [done|]. split; [lia|done].
      * rewrite !decide_False; [done|intros (_ & ? & _); lia..].
Qed.

(** ** The invariant that ties regions and page tables together

    A page that was allocated on demand owns its physical page; no two pages
    own the same one. The entry of every page of a mapped region is the one
    its backing page calls for, and every other user page has none. While an
    operation works on the region [d] its backing pages may be ahead of the
    tables. *)
Definition owned (p : backing_page) : Prop := _exists p = true ∧ _allocated p = true.
#[local] Instance owned_dec p : Decision (owned p).
Proof. unfold owned. apply _. Defined.

Record vm_mem (d : option Z) (g : am_ghost) (s : vm) : Prop := {
  mem_inv : am_inv g (arch s);
  mem_ctx : am_ctx g (_vmm_ctx s);
  mem_u64 r m p : mappings s !! r = Some m → p ∈ vec_elems (_backing_pages m) → is_u64 (_ptr p);
  mem_frame r m i p : mappings s !! r = Some m → vec_elems (_backing_pages m) !! i = Some p → owned p →
    am_frame g (arch s) (_ptr p) ∧ _ptr p ≠ 0;
  mem_unique r m i p r' m' i' p' :
    mappings s !! r = Some m → vec_elems (_backing_pages m) !! i = Some p → owned p →
    mappings s !! r' = Some m' → vec_elems (_backing_pages m') !! i' = Some p' → owned p' →
    _ptr p = _ptr p' → r = r' ∧ i = i';
  mem_tables r m v : r ∈ region_ptrs s → mappings s !! r = Some m → in_region m v →
    if decide (d = Some r) then backing m v = None → am_entry (arch s) (_vmm_ctx s) v = 0
    else am_entry (arch s) (_vmm_ctx s) v = if _mapped m then new_entry m v 0 else 0;
  mem_holes v : user_page v → used_cover s v = 0%nat → am_entry (arch s) (_vmm_ctx s) v = 0;
}.

(** What an operation does to the rest of the machine: nothing to the entries
    of other contexts. *)
Record vm_step (g : am_ghost) (s : vm) (g' : am_ghost) (s' : vm) : Prop := {
  vs_arch : arch_step g (arch s) g' (arch s');
  vs_ctx : _vmm_ctx s' = _vmm_ctx s;
  vs_other c v : am_ctx g c → c ≠ _vmm_ctx s → user_page v →
    am_entry (arch s') c v = am_entry (arch s) c v;
}.

Lemma vm_step_refl g s s' : am_inv g (arch s) → arch s' = arch s → _vmm_ctx s' = _vmm_ctx s → vm_step g s g s'.
Proof. intros Hi Ea Ec. split; [rewrite Ea; by apply arch_step_refl|done|by rewrite Ea]. Qed.

Lemma vm_step_trans g s g1 s1 g2 s2 : vm_step g s g1 s1 → vm_step g1 s1 g2 s2 → vm_step g s g2 s2.
Proof.
  intros [A1 C1 O1] [A2 C2 O2]. split; [by eapply arch_step_trans|congruence|].
  intros c v Hc Hne Hv. rewrite O2; [by apply O1|by apply A1|congruence|done].
Qed.

Lemma in_region_user m v : range_ok (_base m) (_size m) → in_region m v → user_page v.
Proof. intros (? & ? & ? & ?) [? ?]. unfold user_page. wrap_lia. Qed.

Lemma in_region_rng m v : in_region m v ↔ rng (_base m) (_size m) v = 1%nat.
Proof. unfold in_region, rng. case_decide; naive_solver. Qed.

(** At most one region covers a page. *)
Lemma region_unique s r r' m m' v :
  vm_ok s → r ∈ region_ptrs s → r' ∈ region_ptrs s →
  mappings s !! r = Some m → mappings s !! r' = Some m' → in_region m v → in_region m' v → r = r'.
Proof.
  intros Hok Hr Hr' Hm Hm' Hv Hv'. destruct (decide (r = r')) as [|Hne]; [done|exfalso].
  apply elem_of_Permutation in Hr as [l Hl]. pose proof (ok_partition _ _ Hok v) as Hp.
  rewrite (used_cover_split s r m l v Hl Hm) in Hp. rewrite Hl in Hr'. apply elem_of_cons in Hr' as [|Hr']; [done|].
  pose proof (cover_elem (region_at s) r' l v _ _ Hr' (region_at_some _ _ _ Hm')) as Hc.
  apply in_region_rng in Hv, Hv'. case_decide; lia.
Qed.

Lemma mem_dirty r g s : vm_mem None g s → vm_mem (Some r) g s.
Proof.
  intros []. split; try done. intros r' m v Hr' Hm Hv. specialize (mem_tables0 r' m v Hr' Hm Hv).
  rewrite decide_False in mem_tables0 by done. case_decide; [|done]. intros Hb. rewrite mem_tables0. unfold new_entry. rewrite Hb. by destruct (_mapped m).
Qed.

(** Only the holes changed. *)
Lemma same_regions_mem g s s' :
  vm_ok s → vm_ok s' → same_regions s s' → vm_mem None g s → vm_mem None g s'.
Proof.
  intros Hok Hok' [Ea Em Er Ec _] [Hi Hc Hu Hfr Hun Ht Hh].
  assert (region_ptrs s' = region_ptrs s) as Hp by (unfold region_ptrs; by rewrite Er).
  split; rewrite ?Ea, ?Ec, ?Em, ?Hp; try done.
  intros v Hv Hz. apply Hh; [done|]. rewrite <- Hz. unfold used_cover. rewrite Hp. apply cover_ext.
  intros q _. unfold region_at. by rewrite Em.
Qed.

(** A freshly bound region. *)
Lemma bound_mem g s r b n s' :
  vm_ok s → vm_ok s' → vm_mem None g s → bound s r b n s' → vm_mem None g s' ∧ vm_step g s g s'.
Proof.
  intros Hok Hok' Hmem [Ea Ec Hnew _ Hm Hl Hr Hf].
  pose proof (memory_mapping_new_fresh (V := V) b n) as Hfresh.
  assert (∀ i p, vec_elems (_backing_pages (memory_mapping_new b n)) !! i = Some p → ¬ owned p) as Hno.
  { intros i p Hp [He _]. apply list_elem_of_lookup_2 in Hp. rewrite (Hfresh p Hp) in He. done. }
  assert (∀ v, Z.of_nat (used_cover s' v) = Z.of_nat (used_cover s v) + Z.of_nat (rng b n v)) as Hused.
  { intros v. pose proof (ok_partition _ _ Hok v). pose proof (ok_partition _ _ Hok' v). rewrite (Hf v) in *. lia. }
  split; [|by apply vm_step_refl; [apply Hmem|..]].
  destruct Hmem as [Hi Hc Hu Hfr Hun Ht Hh]. split; rewrite ?Ea, ?Ec, ?Hm; try done.
  - intros r' m p. rewrite lookup_insert_Some. intros [[_ <-]|[_ Hm']] Hp; [|by eapply Hu].
    rewrite (Hfresh p Hp). cbn. unfold is_u64. lia.
  - intros r' m i p. rewrite lookup_insert_Some. intros [[_ <-]|[_ Hm']] Hp Ho; [|by eapply Hfr].
    by destruct (Hno i p Hp).
  - intros r1 m1 i1 p1 r2 m2 i2 p2. rewrite !lookup_insert_Some.
    intros [[_ <-]|[_ Hm1]] Hp1 Ho1; [by destruct (Hno i1 p1 Hp1)|].
    intros [[_ <-]|[_ Hm2]] Hp2 Ho2; [by destruct (Hno i2 p2 Hp2)|]. by eapply Hun.
  - intros r' m v Hin. rewrite lookup_insert_Some. cbn. intros [[<- <-]|[Hne Hm']] Hv.
    + cbn. apply Hh; [by eapply (in_region_user (memory_mapping_new b n))|].
      apply in_region_rng in Hv. cbn in Hv. pose proof (Hused v). pose proof (ok_partition _ _ Hok' v).
      case_decide; lia.
    + rewrite Hl in Hin. apply elem_of_cons in Hin as [->|Hin]; [done|]. by apply (Ht r' m v).
  - intros v Hv Hz. apply Hh; [done|]. pose proof (Hused v). lia.
Qed.

(** A region whose object is replaced, with the same range: what has to hold
    of the new object. *)
Lemma update_mem d d' g s g' a' r m m' :
  vm_mem d g s → mappings s !! r = Some m →
  _base m' = _base m → _size m' = _size m →
  arch_step g (arch s) g' a' →
  (∀ v, user_page v → (r ∈ region_ptrs s → ¬ in_region m v) →
    am_entry a' (_vmm_ctx s) v = am_entry (arch s) (_vmm_ctx s) v) →
  (∀ p, p ∈ vec_elems (_backing_pages m') → is_u64 (_ptr p)) →
  (∀ i p, vec_elems (_backing_pages m') !! i = Some p → owned p →
    vec_elems (_backing_pages m) !! i = Some p ∨
    (am_frame g' a' (_ptr p) ∧ _ptr p ≠ 0 ∧ ¬ am_frame g (arch s) (_ptr p) ∧
     ∀ i' p', vec_elems (_backing_pages m') !! i' = Some p' → owned p' → _ptr p' = _ptr p → i' = i)) →
  (∀ r', r' ≠ r → (d = Some r' ↔ d' = Some r')) →
  (∀ v, in_region m v → r ∈ region_ptrs s →
    if decide (d' = Some r) then backing m' v = None → am_entry a' (_vmm_ctx s) v = 0
    else am_entry a' (_vmm_ctx s) v = if _mapped m' then new_entry m' v 0 else 0) →
  vm_ok s →
  vm_mem d' g' (set_arch a' (set_mappings (<[r := m']> (mappings s)) s)).
Proof.
  intros Hmem Hm Hb Hn Hs He Hu Hpg Hd Htab Hok.
  pose proof Hmem as [Hi Hc Hu' Hfr Hun Ht Hh]. split; cbn; try apply Hs; try done.
  - intros r1 m1 p. rewrite lookup_insert_Some. intros [[_ <-]|[_ H1]] Hp; [by apply Hu|by eapply Hu'].
  - intros r1 m1 i p. rewrite lookup_insert_Some. intros [[_ <-]|[_ H1]] Hp Ho.
    + destruct (Hpg i p Hp Ho) as [Hold|(? & ? & _)]; [|done].
      destruct (Hfr r m i p Hm Hold Ho). split; [by apply Hs|done].
    + destruct (Hfr r1 m1 i p H1 Hp Ho). split; [by apply Hs|done].
  - intros r1 m1 i1 p1 r2 m2 i2 p2. rewrite !lookup_insert_Some.
    intros [[<- <-]|[Hn1 H1]] Hp1 Ho1 [[<- <-]|[Hn2 H2]] Hp2 Ho2 Heq.
    + split; [done|].
      destruct (Hpg i1 p1 Hp1 Ho1) as [Hold1|(_ & _ & Hnf1 & Hu1)]; [|symmetry; by eapply Hu1].
      destruct (Hpg i2 p2 Hp2 Ho2) as [Hold2|(_ & _ & Hnf2 & Hu2)]; [|by eapply Hu2].
      by destruct (Hun r m i1 p1 r m i2 p2).
    + destruct (Hpg i1 p1 Hp1 Ho1) as [Hold1|(_ & _ & Hnf1 & _)]; [by eapply Hun|].
      exfalso. apply Hnf1. rewrite Heq. by destruct (Hfr r2 m2 i2 p2).
    + destruct (Hpg i2 p2 Hp2 Ho2) as [Hold2|(_ & _ & Hnf2 & _)]; [by eapply Hun|].
      exfalso. apply Hnf2. rewrite <- Heq. by destruct (Hfr r1 m1 i1 p1).
    + by eapply Hun.
  - intros r1 m1 v Hin. change (r1 ∈ region_ptrs s) in Hin. rewrite lookup_insert_Some.
    intros [[<- <-]|[Hne H1]] Hv.
    + apply Htab; [|done]. unfold in_region in *. by rewrite <- Hb, <- Hn.
    + rewrite He; [|eapply in_region_user, Hv; by eapply ok_region_range|].
      * specialize (Ht r1 m1 v Hin H1 Hv). destruct (decide (d = Some r1)), (decide (d' = Some r1)); naive_solver.
      * intros Hin0 Hv0. apply Hne. symmetry. by eapply (region_unique s r1 r m1 m v).
  - intros v Hv Hz. assert (used_cover s v = 0%nat) as Hz'.
    { rewrite <- Hz. apply cover_ext. intros q _. unfold region_at. cbn.
      destruct (decide (q = r)) as [->|]; [|by rewrite lookup_insert_ne].
      rewrite lookup_insert_eq, Hm. cbn. congruence. }
    rewrite He; [by apply Hh|done|]. intros Hin Hv0. apply in_region_rng in Hv0.
    pose proof (cover_elem (region_at s) r _ v _ _ Hin (region_at_some _ _ _ Hm)) as Hle.
    unfold used_cover in Hz'. lia.
Qed.

(** ** Mapping and unmapping a region *)

Lemma mem_region_ok d g s r m : vm_ok s → vm_mem d g s → mappings s !! r = Some m → region_ok m.
Proof.
  intros Hok Hmem Hm. destruct (ok_region_range _ _ Hok r m Hm) as [Hr Hl]. split; [done|done|].
  intros p Hp. by eapply mem_u64.
Qed.

(** The result of an operation on the region [r]: its new object, and the rest. *)
Record region_step (g : am_ghost) (s : vm) (r : Z) (m' : memory_mapping) (g' : am_ghost) (s' : vm) : Prop := {
  rs_ok : vm_ok s';
  rs_step : vm_step g s g' s';
  rs_mappings : mappings s' = <[r := m']> (mappings s);
  rs_regions : _mapped_regions s' = _mapped_regions s;
  rs_holes : holes s' = holes s ∧ _memory_holes s' = _memory_holes s;
}.

Lemma region_step_intro g s r m m' g' a' :
  vm_ok s → mappings s !! r = Some m → _base m' = _base m → _size m' = _size m →
  length (vec_elems (_backing_pages m')) = length (vec_elems (_backing_pages m)) →
  arch_step g (arch s) g' a' →
  (∀ c v, am_ctx g c → c ≠ _vmm_ctx s → user_page v → am_entry a' c v = am_entry (arch s) c v) →
  region_step g s r m' g' (set_arch a' (set_mappings (<[r := m']> (mappings s)) s)).
Proof.
  intros Hok Hm Hb Hn Hl Hs Ho. split; [|split|..]; try done.
  pose proof (put_mapping_step _ s r m m' Hok Hm Hb Hn Hl) as [].
  split; done.
Qed.

Lemma map_region_run g s r m :
  vm_ok s → vm_mem (Some r) g s → r ∈ region_ptrs s → mappings s !! r = Some m →
  3 * _size m ≤ am_room (arch s) →
  ∃ g' s', map_region r s = Ok (tt, s') ∧ vm_mem None g' s' ∧ region_step g s r (set_mapped m true) g' s' ∧
    am_room (arch s) - 3 * _size m ≤ am_room (arch s').
Proof.
  intros Hok Hmem Hin Hm Hroom. pose proof (mem_region_ok _ _ _ _ _ Hok Hmem Hm) as Hr.
  pose proof Hr as [(_ & _ & Hn & _) _ _].
  destruct (map_loop_run (Z.to_nat (_size m)) g s (_vmm_ctx s) m 0) as (g' & a' & Hrun & Hs & Hrm & He);
    [apply Hmem|apply Hmem|done|lia|lia|lia|].
  rewrite Z2Nat.id, Z.add_0_r in * by lia.
  exists g', (set_arch a' (set_mappings (<[r := set_mapped m true]> (mappings s)) s)). split_and!.
  - unfold map_region. run (get_mapping_run _ _ _ Hm). run (eq_refl : gets _vmm_ctx s = Ok (_vmm_ctx s, s)).
    run Hrun. by run (get_mapping_run (set_arch a' s) _ _ Hm).
  - eapply (update_mem (Some r) None g s g' a' r m); try done.
    + intros v Hv Hnot. rewrite He by (done || apply Hmem). rewrite decide_False; [done|].
      intros [_ Hv']. by apply Hnot.
    + intros p Hp. eapply (mem_u64 _ _ _ Hmem); [exact Hm|exact Hp].
    + intros i p Hp _. by left.
    + intros r' Hne. split; congruence.
    + intros v Hv _. rewrite decide_False by done. cbn [_mapped set_mapped].
      pose proof (in_region_user m v (rg_range _ Hr) Hv) as Huv.
      rewrite He by (done || apply Hmem). rewrite decide_True by done.
      unfold new_entry. change (backing (set_mapped m true) v) with (backing m v).
      destruct (backing m v) eqn:Hb; [done|].
      pose proof (mem_tables _ _ _ Hmem r m v Hin Hm Hv) as Htab. rewrite decide_True in Htab by done. auto.
  - eapply region_step_intro; try done. intros c v Hc Hne Hv. rewrite He by done.
    by rewrite decide_False by naive_solver.
  - cbn. lia.
Qed.

Lemma unmap_region_run g s r m :
  vm_ok s → vm_mem None g s → r ∈ region_ptrs s → mappings s !! r = Some m → _mapped m = true →
  ∃ s', unmap_region r s = Ok (tt, s') ∧ vm_mem None g s' ∧ region_step g s r (set_mapped m false) g s' ∧
    (∀ q, am_frame g (arch s') q ↔ am_frame g (arch s) q).
Proof.
  intros Hok Hmem Hin Hm Hmap. pose proof (mem_region_ok _ _ _ _ _ Hok Hmem Hm) as Hr.
  pose proof Hr as [(_ & _ & Hn & _) _ _].
  destruct (unmap_loop_run (Z.to_nat (_size m)) g s (_vmm_ctx s) m 0) as (a' & Hrun & Hs & Hrm & Hfr & He);
    [apply Hmem|apply Hmem|done|lia|lia|].
  rewrite Z2Nat.id, Z.add_0_r in * by lia.
  exists (set_arch a' (set_mappings (<[r := set_mapped m false]> (mappings s)) s)). split_and!.
  - unfold unmap_region. run (get_mapping_run _ _ _ Hm). rewrite Hmap.
    run (eq_refl : lift (assertion true) s = Ok (tt, s)). run (eq_refl : gets _vmm_ctx s = Ok (_vmm_ctx s, s)).
    run Hrun. by run (get_mapping_run (set_arch a' s) _ _ Hm).
  - eapply (update_mem None None g s g a' r m); try done.
    + intros v Hv Hnot. rewrite He by (done || apply Hmem). rewrite decide_False; [done|].
      intros (_ & Hv' & _). by apply Hnot.
    + intros p Hp. eapply (mem_u64 _ _ _ Hmem); [exact Hm|exact Hp].
    + intros i p Hp _. by left.
    + intros v Hv _. rewrite decide_False by done. cbn [_mapped set_mapped].
      pose proof (in_region_user m v (rg_range _ Hr) Hv) as Huv.
      rewrite He by (done || apply Hmem). case_decide as Hd; [done|].
      pose proof (mem_tables _ _ _ Hmem r m v Hin Hm Hv) as Htab. rewrite decide_False in Htab by done.
      rewrite Htab, Hmap. unfold new_entry. destruct (backing m v) eqn:Hb; [|done].
      exfalso. apply Hd. split; [done|]. split; [done|]. eauto.
  - eapply region_step_intro; try done. intros c v Hc Hne Hv. rewrite He by done.
    by rewrite decide_False by naive_solver.
  - done.
Qed.

(** ** Placing a new region *)

(** A region with no physical page yet: the page tables are not touched. *)
Lemma map_loop_empty ctx m l s :
  (∀ p, p ∈ vec_elems (_backing_pages m) → _exists p = false) →
  Forall (λ i, 0 ≤ i < Z.of_nat (length (vec_elems (_backing_pages m)))) l →
  for_each (map_body ctx m) l s = Ok (tt, s).
Proof.
  intros Hno. induction 1 as [|i l Hi _ IH]; cbn [for_each]; [done|].
  destruct (lookup_lt_is_Some_2 (vec_elems (_backing_pages m)) (Z.to_nat i)) as [p Hp]; [lia|].
  assert (map_body ctx m i s = Ok (tt, s)) as Hb.
  { unfold map_body. rewrite Hp. run (eq_refl : lift (access (Some p)) s = Ok (p, s)).
    by rewrite (Hno p) by by eapply list_elem_of_lookup_2. }
  by run Hb.
Qed.

Lemma filled_pages m m' perms cache f p :
  filled m m' perms cache f → p ∈ vec_elems (_backing_pages m') → ∃ i, p = f i.
Proof.
  intros (_ & _ & _ & _ & _ & Hv) Hp. rewrite Hv in Hp. apply list_elem_of_lookup in Hp as [i Hp].
  rewrite list_lookup_imap in Hp. destruct (_ !! i); [|done]. injection Hp as <-. eauto.
Qed.

(** The state after a region was bound and filled, before it is mapped. *)
Lemma filled_mem g s r b n s1 m' perms cache f :
  vm_ok s → vm_ok s1 → vm_mem None g s → bound s r b n s1 →
  filled (memory_mapping_new b n) m' perms cache f →
  (∀ i, ¬ owned (f i) ∧ is_u64 (_ptr (f i))) →
  let s2 := set_mappings (<[r := m']> (mappings s1)) s1 in
  vm_ok s2 ∧ vm_mem None g s2 ∧ vm_step g s g s2 ∧ mappings s2 = <[r := m']> (mappings s) ∧
  region_ptrs s2 ≡ₚ r :: region_ptrs s ∧ _mapped m' = false.
Proof.
  intros Hok Hok1 Hmem Hbd Hf Hnot s2. destruct (bound_mem _ _ _ _ _ _ Hok Hok1 Hmem Hbd) as [Hmem1 Hs1].
  destruct Hbd as [Ea Ec Hnew _ Hm Hl Hr _]. pose proof Hf as (Hb & Hn & _ & _ & Hmp & Hv).
  set (m := memory_mapping_new b n) in *. cbn [_mapped m memory_mapping_new] in Hmp.
  assert (mappings s1 !! r = Some m) as Hlook by (rewrite Hm; apply lookup_insert_eq).
  split_and!; [|..|done].
  - eapply (put_mapping_step _ s1 r m m'); try done. by rewrite Hv, length_imap.
  - replace s2 with (set_arch (arch s1) s2) by by destruct s1.
    eapply (update_mem None None g s1 g (arch s1) r m); try done.
    + apply arch_step_refl, Hmem1.
    + intros p Hp. destruct (filled_pages _ _ _ _ _ _ Hf Hp) as [i ->]. apply Hnot.
    + intros i p Hp Ho. apply list_elem_of_lookup_2 in Hp.
      destruct (filled_pages _ _ _ _ _ _ Hf Hp) as [i' ->]. by destruct (Hnot i').
    + intros v Hv' Hin. rewrite decide_False, Hmp by done.
      by apply (mem_tables _ _ _ Hmem1 r m v Hin Hlook Hv').
  - eapply vm_step_trans; [exact Hs1|]. apply vm_step_refl; [apply Hmem1|done|done].
  - cbn. rewrite Hm. apply insert_insert_eq.
  - done.
Qed.

(** The region [r] was added: what [allocate], [map] and their variants with
    an address achieve. *)
Record placed (g : am_ghost) (s : vm) (r b n perms cache : Z) (f : nat → backing_page)
    (g' : am_ghost) (s' : vm) : Prop := {
  pl_ok : vm_ok s';
  pl_mem : vm_mem None g' s';
  pl_step : vm_step g s g' s';
  pl_new : mappings s !! r = None;
  pl_list : region_ptrs s' ≡ₚ r :: region_ptrs s;
  pl_object : ∃ m, mappings s' = <[r := m]> (mappings s) ∧ _base m = b ∧ _size m = n ∧
    _perms m = perms ∧ _cache_mode m = cache ∧ _mapped m = true ∧
    vec_elems (_backing_pages m) = imap (λ i _, f i) (replicate (Z.to_nat n) no_page);
  pl_range : range_ok b n;
  pl_free j : b / 4096 ≤ j < b / 4096 + n → free_cover s j = 1%nat ∧ used_cover s j = 0%nat;
}.

Lemma placed_intro g s r b n s1 m' perms cache f g' s' :
  vm_ok s → vm_ok s1 → bound s r b n s1 → filled (memory_mapping_new b n) m' perms cache f →
  let s2 := set_mappings (<[r := m']> (mappings s1)) s1 in
  vm_step g s g s2 → region_ptrs s2 ≡ₚ r :: region_ptrs s → mappings s2 = <[r := m']> (mappings s) →
  region_step g s2 r (set_mapped m' true) g' s' → vm_mem None g' s' →
  placed g s r b n perms cache f g' s'.
Proof.
  intros Hok Hok1 Hbd Hf s2 Hs2 Hl2 Hm2 [Hok' Hs' Hm' Hr' _] Hmem'.
  pose proof Hbd as [_ _ Hnew _ _ _ Hr Hfree].
  destruct Hf as (Hb & Hn & Hp & Hc & _ & Hv). split; try done.
  - by eapply vm_step_trans.
  - unfold region_ptrs in *. by rewrite Hr'.
  - exists (set_mapped m' true). split; [by rewrite Hm', Hm2, insert_insert_eq|]. split_and!; try done.
    cbn [_backing_pages set_mapped]. rewrite Hv. cbn [_backing_pages memory_mapping_new]. autorewrite with frg.
    rewrite take_nil. cbn. by rewrite Nat.sub_0_r.
  - intros j Hj. pose proof (Hfree j) as Hfj. pose proof (ok_partition _ _ Hok j) as Hpj.
    unfold rng in Hfj. rewrite decide_True in Hfj by done. case_decide; lia.
Qed.

(** The entry of a page that has a physical page, in a mapped region. *)
Lemma mapped_entry g s r m i p :
  vm_ok s → vm_mem None g s → r ∈ region_ptrs s → mappings s !! r = Some m → _mapped m = true →
  vec_elems (_backing_pages m) !! i = Some p → _exists p = true →
  am_entry (arch s) (_vmm_ctx s) (_base m / 4096 + Z.of_nat i) = am_leaf (_ptr p) (_perms m) (_cache_mode m).
Proof.
  intros Hok Hmem Hin Hm Hmp Hp He. destruct (ok_region_range _ _ Hok r m Hm) as [_ Hlen].
  pose proof (lookup_lt_Some _ _ _ Hp) as Hi.
  pose proof (mem_tables _ _ _ Hmem r m (_base m / 4096 + Z.of_nat i) Hin Hm) as Ht.
  rewrite decide_False, Hmp in Ht by done. rewrite Ht by (unfold in_region; lia).
  unfold new_entry. rewrite (backing_at m (Z.of_nat i) p) by (rewrite ?Nat2Z.id; done || lia). by rewrite He.
Qed.

(** The entries of a region placed over existing physical pages. *)
Lemma placed_entries g s r b n perms cache f g' s' i :
  placed g s r b n perms cache f g' s' → 0 ≤ i < n →
  (∀ k, _exists (f k) = true) →
  am_entry (arch s') (_vmm_ctx s') (b / 4096 + i) = am_leaf (_ptr (f (Z.to_nat i))) perms cache.
Proof.
  intros [Hok Hmem _ _ Hl (m & Hm & <- & Hn & <- & <- & Hmp & Hv) _ _] Hi Hf.
  assert (mappings s' !! r = Some m) as Hlook by (rewrite Hm; apply lookup_insert_eq).
  rewrite <- (Z2Nat.id i) at 1 by lia.
  apply (mapped_entry g' s' r); try done; [rewrite Hl; set_solver|].
  by rewrite Hv, list_lookup_imap, lookup_replicate_2 by lia.
Qed.

Lemma place_allocated g s r b n s1 perms cache :
  vm_ok s → vm_ok s1 → vm_mem None g s → bound s r b n s1 →
  ∃ s', (mapping_allocate r perms cache;; map_region r;; m ← get_mapping r; mret (_base m)) s1 = Ok (b, s') ∧
    placed g s r b n perms cache (λ _, BackingPage 0 false true) g s' ∧ arch s' = arch s.
Proof.
  intros Hok Hok1 Hmem Hbd.
  assert (mappings s1 !! r = Some (memory_mapping_new b n)) as Hlook
    by (rewrite (bd_mappings _ _ _ _ _ Hbd); apply lookup_insert_eq).
  destruct (mapping_allocate_run r _ perms cache s1 Hlook) as (m' & Hrun & Hf);
    [apply memory_mapping_new_fresh|].
  destruct (filled_mem g s r b n s1 m' perms cache _ Hok Hok1 Hmem Hbd Hf) as (Hok2 & Hmem2 & Hs2 & Hm2 & Hl2 & Hmp).
  { intros i. split; [by intros [? _]|cbn; unfold is_u64; lia]. }
  run Hrun. set (s2 := set_mappings _ s1) in *.
  assert (mappings s2 !! r = Some m') as Hlook2 by (rewrite Hm2; apply lookup_insert_eq).
  pose proof (mem_region_ok _ _ _ _ _ Hok2 Hmem2 Hlook2) as [(_ & _ & Hn0 & _) Hlen _].
  assert (∀ p, p ∈ vec_elems (_backing_pages m') → _exists p = false) as Hno.
  { intros p Hp. by destruct (filled_pages _ _ _ _ _ _ Hf Hp) as [i ->]. }
  set (s3 := set_arch (arch s2) (set_mappings (<[r := set_mapped m' true]> (mappings s2)) s2)).
  assert (map_region r s2 = Ok (tt, s3)) as Hmap.
  { unfold map_region. run (get_mapping_run _ _ _ Hlook2). run (eq_refl : gets _vmm_ctx s2 = Ok (_vmm_ctx s2, s2)).
    assert (for_each (map_body (_vmm_ctx s2) m') (seqZ 0 (_size m')) s2 = Ok (tt, s2)) as Hloop.
    { apply map_loop_empty; [done|]. apply Forall_forall. intros i Hi. apply elem_of_seqZ in Hi. lia. }
    run Hloop. run (get_mapping_run _ _ _ Hlook2). done. }
  run Hmap. run (get_mapping_run s3 r (set_mapped m' true) (lookup_insert_eq _ _ _)).
  exists s3. split; [by cbn; rewrite (proj1 Hf)|]. split; [|apply Hbd].
  apply (placed_intro g s r b n s1 m'); try done.
  - eapply region_step_intro; try done. apply arch_step_refl, Hmem2.
  - eapply (update_mem None None g s2 g (arch s2) r m'); try done.
    + apply arch_step_refl, Hmem2.
    + intros p Hp. eapply (mem_u64 _ _ _ Hmem2); [exact Hlook2|exact Hp].
    + intros i p Hp _. by left.
    + intros v Hv Hin. rewrite decide_False by done. cbn [_mapped set_mapped].
      pose proof (mem_tables _ _ _ Hmem2 r m' v Hin Hlook2 Hv) as Htab. rewrite decide_False, Hmp in Htab by done.
      rewrite Htab. unfold new_entry, backing. cbn [_base _backing_pages set_mapped]. case_decide; [|done].
      destruct (vec_elems _ !! _) as [p|] eqn:Hp; [|done]. by rewrite (Hno p) by by eapply list_elem_of_lookup_2.
Qed.

Lemma place_mapped g s r b n s1 a perms cache :
  vm_ok s → vm_ok s1 → vm_mem None g s → bound s r b n s1 → 3 * n ≤ am_room (arch s) →
  ∃ g' s', (mapping_map_to r a perms cache;; map_region r;; m ← get_mapping r; mret (_base m)) s1 = Ok (b, s') ∧
    placed g s r b n perms cache (λ i, BackingPage (u64 (a + vm_page_size * Z.of_nat i)) true false) g' s'.
Proof.
  intros Hok Hok1 Hmem Hbd Hroom.
  assert (mappings s1 !! r = Some (memory_mapping_new b n)) as Hlook
    by (rewrite (bd_mappings _ _ _ _ _ Hbd); apply lookup_insert_eq).
  destruct (mapping_map_to_run r _ a perms cache s1 Hlook) as (m' & Hrun & Hf);
    [apply memory_mapping_new_fresh|].
  destruct (filled_mem g s r b n s1 m' perms cache _ Hok Hok1 Hmem Hbd Hf) as (Hok2 & Hmem2 & Hs2 & Hm2 & Hl2 & Hmp).
  { intros i. split; [by intros [_ ?]|cbn; apply u64_range]. }
  run Hrun. set (s2 := set_mappings _ s1) in *.
  assert (mappings s2 !! r = Some m') as Hlook2 by (rewrite Hm2; apply lookup_insert_eq).
  pose proof Hf as (Hb & Hn & _).
  destruct (map_region_run g s2 r m') as (g' & s' & Hmap & Hmem' & Hrs & _);
    [done|by apply mem_dirty|rewrite Hl2; set_solver|done|cbn in Hn; rewrite Hn; cbn; by rewrite (bd_arch _ _ _ _ _ Hbd)|].
  assert (mappings s' !! r = Some (set_mapped m' true)) as Hlook3
    by (rewrite (rs_mappings _ _ _ _ _ _ Hrs); apply lookup_insert_eq).
  run Hmap. run (get_mapping_run _ _ _ Hlook3). exists g', s'. split; [by cbn; rewrite Hb|].
  by apply (placed_intro g s r b n s1 m').
Qed.

(** ** Touching a page *)

Definition with_page (m : memory_mapping) (i : nat) (p : backing_page) : memory_mapping :=
  set_pages m (vec_set (_backing_pages m) i p).

Lemma backing_with_page m i p v :
  (i < length (vec_elems (_backing_pages m)))%nat → _exists p = true →
  backing (with_page m i p) v = if decide (v = _base m / 4096 + Z.of_nat i) then Some (_ptr p) else backing m v.
Proof.
  intros Hi Hp. unfold backing, with_page. cbn [_base _backing_pages set_pages]. autorewrite with frg.
  destruct (decide (v = _base m / 4096 + Z.of_nat i)) as [->|Hne].
  - rewrite decide_True by lia.
    replace (Z.to_nat (_base m / 4096 + Z.of_nat i - _base m / 4096)) with i by lia.
    rewrite list_lookup_insert_eq by done. by rewrite Hp.
  - case_decide; [|done]. rewrite list_lookup_insert_ne by lia. done.
Qed.

Lemma mapping_touch_run g s r m i p :
  vm_ok s → vm_mem (Some r) g s → mappings s !! r = Some m →
  vec_elems (_backing_pages m) !! i = Some p → _exists p || _allocated p = true →
  (mapping_touch r (Z.of_nat i) s = Ok (false, s) ∧ (_exists p = true ∨ am_room (arch s) = 0)) ∨
  ∃ ptr s', mapping_touch r (Z.of_nat i) s = Ok (true, s') ∧ _exists p = false ∧
    ¬ am_frame g (arch s) ptr ∧ 0 < am_room (arch s) ∧ vm_mem (Some r) g s' ∧ region_step g s r (with_page m i (BackingPage ptr true true)) g s' ∧
    am_room (arch s') = am_room (arch s) - 1 ∧ (∀ x, 0 ≤ x < 4096 → am_byte (arch s') ptr x = 0).
Proof.
  intros Hok Hmem Hm Hp Hpa. unfold mapping_touch. run (get_mapping_run _ _ _ Hm). rewrite Nat2Z.id, Hp.
  run (eq_refl : lift (access (Some p)) s = Ok (p, s)). destruct (_exists p) eqn:He; [left; by eauto|].
  cbn in Hpa. rewrite Hpa. cbn [negb]. run (eq_refl : lift (assertion true) s = Ok (tt, s)).
  unfold on_arch, zoom. cbv [mbind M_bind].
  destruct (am_alloc_law g (arch s)) as [[-> Hr0]|(ptr & a' & -> & Hpos & Hptr & Hnf & Hinv & Hfr & Hent & Hrm & Hkp & Hz)];
    [apply Hmem|left|right].
  { split; [by destruct s|]. by right. }
  destruct (Z.eqb_spec ptr 0); [lia|].
  assert (i < length (vec_elems (_backing_pages m)))%nat as Hi by by eapply lookup_lt_Some.
  assert (arch_step g (arch s) g a') as Hs.
  { split; [done|done| |done]. intros q Hq. apply Hfr. by right. }
  set (m' := with_page m i (BackingPage ptr true true)).
  exists ptr, (set_arch a' (set_mappings (<[r := m']> (mappings s)) s)). split_and!; [done|done|done|done| | |done|done].
  - eapply (update_mem (Some r) (Some r) g s g a' r m); try done.
    + intros v Hv _. by apply Hent; [apply Hmem|].
    + intros q Hq. subst m'. cbn in Hq. autorewrite with frg in Hq.
      apply list_elem_of_lookup in Hq as [k Hq]. rewrite list_lookup_insert_Some in Hq.
      destruct Hq as [(_ & <- & _)|[_ Hq]]; [cbn; unfold is_u64; lia|].
      eapply (mem_u64 _ _ _ Hmem); [exact Hm|]. by eapply list_elem_of_lookup_2.
    + intros k q Hq Ho. subst m'. cbn in *. autorewrite with frg in *. rewrite list_lookup_insert_Some in Hq.
      destruct Hq as [(-> & <- & _)|[_ Hq]]; [right|by left]. cbn. split_and!; [apply Hfr; by left|lia|done|].
      intros k' q' Hq' Ho' Heq. autorewrite with frg in Hq'. rewrite list_lookup_insert_Some in Hq'.
      destruct Hq' as [(-> & _ & _)|[_ Hq']]; [done|]. exfalso. apply Hnf. rewrite <- Heq.
      by destruct (mem_frame _ _ _ Hmem r m k' q' Hm Hq' Ho').
    + intros v Hv Hin. rewrite decide_True by done. intros Hb. subst m'.
      rewrite backing_with_page in Hb by done. case_decide; [done|].
      pose proof (in_region_user m v (proj1 (ok_region_range _ _ Hok r m Hm)) Hv) as Huv.
      rewrite Hent by (done || apply Hmem).
      pose proof (mem_tables _ _ _ Hmem r m v Hin Hm Hv) as Htab. rewrite decide_True in Htab by done. auto.
  - eapply region_step_intro; try done.
    + subst m'. cbn. autorewrite with frg. apply length_insert.
    + intros c v Hc _ Hv. by apply Hent.
Qed.

(** ** Freeing the pages of a region *)

(** The frames that the remaining pages still own stay owned. *)
Lemma delete_loop_run g s l :
  am_inv g (arch s) →
  (∀ i p, l !! i = Some p → owned p → am_frame g (arch s) (_ptr p) ∧ _ptr p ≠ 0) →
  (∀ i p j q, l !! i = Some p → owned p → l !! j = Some q → owned q → _ptr p = _ptr q → i = j) →
  ∃ a', for_each delete_body l s = Ok (tt, set_arch a' s) ∧
    am_inv g a' ∧
    (∀ q, am_frame g a' q ↔ am_frame g (arch s) q ∧ ∀ p, p ∈ l → owned p → _ptr p ≠ q) ∧
    (∀ c v, am_ctx g c → user_page v → am_entry a' c v = am_entry (arch s) c v).
Proof.
  revert s. induction l as [|p l IH]; intros s Hinv Hown Huniq; cbn [for_each].
  - exists (arch s). split_and!; [by destruct s|done| |done]. intros q. split; [|by intros [? _]].
    intros Hq. split; [done|]. intros p Hp. by apply elem_of_nil in Hp.
  - destruct (decide (owned p)) as [Ho|Hno].
    + destruct (Hown 0%nat p eq_refl Ho) as [Hfp Hp0]. pose proof Ho as [He Ha].
      destruct (am_free_law g (arch s) (_ptr p) Hinv Hfp) as (a1 & Hfree & Hinv1 & Hfr1 & Hent1 & _).
      destruct (IH (set_arch a1 s) Hinv1) as (a2 & Hrun & Hinv2 & Hfr2 & Hent2).
      { intros i q Hq Hoq. destruct (Hown (Datatypes.S i) q Hq Hoq) as [Hfq ?]. split; [|done].
        cbn. apply Hfr1. split; [|done]. intros Heq. by specialize (Huniq (Datatypes.S i) q 0%nat p Hq Hoq eq_refl Ho Heq). }
      { intros i q j q' Hq Hoq Hq' Hoq' Heq.
        by specialize (Huniq (Datatypes.S i) q (Datatypes.S j) q' Hq Hoq Hq' Hoq' Heq) as [= ->]. }
      exists a2. split_and!; [|done| |].
      * assert (delete_body p s = Ok (tt, set_arch a1 s)) as Hb; [|by run Hb].
        unfold delete_body. rewrite He, Ha. destruct (Z.eqb_spec (_ptr p) 0); [done|]. cbn [andb negb].
        unfold on_arch, zoom. cbv [mbind M_bind]. by rewrite Hfree.
      * intros q. rewrite Hfr2. cbn. rewrite Hfr1. split.
        -- intros [[Hne Hq] Hl]. split; [done|]. intros p' [->|Hp']%elem_of_cons Ho'; [congruence|by apply Hl].
        -- intros [Hq Hl]. split; [split; [|done]|]; [|set_solver].
           intros ->. by apply (Hl p ltac:(set_solver) Ho).
      * intros c v Hc Hv. rewrite Hent2 by done. by apply Hent1.
    + assert (_exists p && _allocated p = false) as Hb.
      { unfold owned in Hno. destruct (_exists p), (_allocated p); naive_solver. }
      assert (delete_body p s = Ok (tt, s)) as Hrun0 by by unfold delete_body; rewrite Hb. run Hrun0.
      destruct (IH s Hinv) as (a2 & Hrun & Hinv2 & Hfr2 & Hent2).
      { intros i q Hq Hoq. by apply (Hown (Datatypes.S i)). }
      { intros i q j q' Hq Hoq Hq' Hoq' Heq.
        by specialize (Huniq (Datatypes.S i) q (Datatypes.S j) q' Hq Hoq Hq' Hoq' Heq) as [= ->]. }
      exists a2. split_and!; [done|done| |done]. intros q. rewrite Hfr2.
      split; intros [? Hl]; (split; [done|]); [|set_solver].
      intros p' [->|Hp']%elem_of_cons Ho'; [done|by apply Hl].
Qed.

(** ** Destroying a region *)

Lemma unbind_mem g s r m s' :
  vm_ok s → vm_ok s' → vm_mem None g s → r ∈ region_ptrs s → mappings s !! r = Some m →
  _mapped m = false → unbound s r m s' → vm_mem None g s'.
Proof.
  intros Hok Hok' [Hi Hc Hu Hfr Hun Ht Hh] Hin Hm Hmp [Ea Ec Em Hl Hf].
  split; rewrite ?Ea, ?Ec, ?Em; try done.
  - intros r' m' v Hin' Hm' Hv. apply (Ht r' m' v); [|done..]. rewrite Hl. set_solver.
  - intros v Hv Hz. destruct (decide (in_region m v)) as [Hv'|Hv'].
    + specialize (Ht r m v Hin Hm Hv'). rewrite decide_False, Hmp in Ht by done. done.
    + apply Hh; [done|]. pose proof (ok_partition _ _ Hok v). pose proof (ok_partition _ _ Hok' v).
      rewrite Hf in *. rewrite in_region_rng in Hv'. unfold rng in *. repeat case_decide; lia.
Qed.

Lemma mapping_delete_run g s r m :
  vm_ok s → vm_mem None g s → r ∉ region_ptrs s → mappings s !! r = Some m →
  ∃ a', let s' := set_mappings (delete r (mappings s)) (set_arch a' s) in
    mapping_delete r s = Ok (tt, s') ∧ vm_ok s' ∧ vm_mem None g s' ∧
    (∀ q, am_frame g a' q ↔ am_frame g (arch s) q ∧ ∀ p, p ∈ vec_elems (_backing_pages m) → owned p → _ptr p ≠ q) ∧
    (∀ c v, am_ctx g c → user_page v → am_entry a' c v = am_entry (arch s) c v).
Proof.
  intros Hok Hmem Hin Hm. pose proof Hmem as [Hi Hc Hu Hfr Hun Ht Hh].
  destruct (delete_loop_run g s (vec_elems (_backing_pages m)) Hi) as (a' & Hrun & Hi' & Hfr' & He').
  { intros i p Hp Ho. by eapply Hfr. }
  { intros i p j q Hp Ho Hq Ho' Heq. by destruct (Hun r m i p r m j q). }
  exists a'. cbv zeta. split_and!; [..|done|done].
  - unfold mapping_delete. run (get_mapping_run _ _ _ Hm). by run Hrun.
  - pose proof (delete_mapping_step _ s r Hok Hin) as []. split; done.
  - split; cbn [arch mappings _vmm_ctx set_mappings set_arch]; try done.
    + intros r' m' p Hm' Hp. apply lookup_delete_Some in Hm' as [_ Hm']. by eapply Hu.
    + intros r' m' i p Hm' Hp Ho. apply lookup_delete_Some in Hm' as [Hne Hm'].
      destruct (Hfr r' m' i p Hm' Hp Ho). split; [|done]. apply Hfr'. split; [done|].
      intros q Hq Hoq Heq. apply list_elem_of_lookup in Hq as [j Hq].
      by destruct (Hun r m j q r' m' i p).
    + intros r1 m1 i1 p1 r2 m2 i2 p2 H1 Hp1 Ho1 H2. apply lookup_delete_Some in H1 as [_ H1], H2 as [_ H2].
      by eapply Hun.
    + intros r' m' v Hin' Hm' Hv. apply lookup_delete_Some in Hm' as [_ Hm'].
      rewrite He'; [by apply (Ht r' m' v)|done|]. eapply in_region_user; [|done]. by eapply ok_region_range.
    + intros v Hv Hz. rewrite He' by done. apply Hh; [done|]. rewrite <- Hz. apply cover_ext.
      intros q Hq. unfold region_at. cbn. rewrite lookup_delete_ne; [done|]. by intros <-.
Qed.

Lemma destroy_run g s r m :
  vm_ok s → vm_mem None g s → r ∈ region_ptrs s → mappings s !! r = Some m → _mapped m = true →
  ∃ s', destroy r s = Ok (tt, s') ∧ vm_ok s' ∧ vm_mem None g s' ∧
    mappings s' = delete r (mappings s) ∧ region_ptrs s ≡ₚ r :: region_ptrs s' ∧
    _vmm_ctx s' = _vmm_ctx s ∧
    (∀ j, free_cover s' j = (free_cover s j + rng (_base m) (_size m) j)%nat) ∧
    (∀ q, am_frame g (arch s') q ↔
      am_frame g (arch s) q ∧ ∀ p, p ∈ vec_elems (_backing_pages m) → owned p → _ptr p ≠ q) ∧
    (∀ c v, am_ctx g c → c ≠ _vmm_ctx s → user_page v → am_entry (arch s') c v = am_entry (arch s) c v).
Proof.
  intros Hok Hmem Hin Hm Hmp. pose proof (ok_regions_nodup _ _ Hok) as Hnd.
  destruct (unmap_region_run g s r m Hok Hmem Hin Hm Hmp) as (s1 & Hr1 & Hmem1 & [Hok1 [Ha1 Hc1 Ho1] Hm1 Hl1 [Hh1 Hhl1]] & Hf1).
  assert (mappings s1 !! r = Some (set_mapped m false)) as Hlook1 by (rewrite Hm1; apply lookup_insert_eq).
  assert (region_ptrs s1 = region_ptrs s) as Hptr by (unfold region_ptrs; by rewrite Hl1).
  assert (r ∈ region_ptrs s1) as Hin1 by by rewrite Hptr.
  destruct (unbind_region_run _ s1 r _ Hok1 Hin1 Hlook1) as (s2 & Hr2 & Hok2 & Hub).
  pose proof (unbind_mem _ _ _ _ _ Hok1 Hok2 Hmem1 Hin1 Hlook1 eq_refl Hub) as Hmem2.
  destruct Hub as [Ea2 Ec2 Em2 El2 Ef2]. rewrite Hptr in El2.
  assert (r ∉ region_ptrs s2) as Hnin by (rewrite El2 in Hnd; by apply NoDup_cons in Hnd as [? _]).
  assert (mappings s2 !! r = Some (set_mapped m false)) as Hlook2 by by rewrite Em2.
  destruct (mapping_delete_run g s2 r _ Hok2 Hmem2 Hnin Hlook2) as (a' & Hr3 & Hok3 & Hmem3 & Hfr & He).
  eexists. unfold destroy. run Hr1. run Hr2. split_and!; [exact Hr3|exact Hok3|exact Hmem3|..].
  - cbn. rewrite Em2, Hm1. apply delete_insert_eq.
  - done.
  - cbn. congruence.
  - intros j. change (free_cover s2 j = (free_cover s j + rng (_base m) (_size m) j)%nat). rewrite Ef2. cbn.
    f_equal. unfold free_cover, hole_ptrs. rewrite Hhl1. apply cover_ext. intros q _. unfold hole_at. by rewrite Hh1.
  - cbn. intros q. rewrite Hfr, Ea2. by rewrite Hf1.
  - cbn. intros c v Hc Hne Hv. rewrite He by done. rewrite Ea2. by apply Ho1.
Qed.

End tables.
