(* ===== verification/VmProps.v ===== *)
(** * What an address space guarantees

    The properties of mm/vm.cpp, for every architecture that meets the
    interface of Arch.v and every container that meets Frigg.v, with witnesses
    that run the x86_64 code. *)
From S2P Require Import Prelude Frigg Pmm Paging Vmm Arch Vm VmSpace VmTables ArchX86.
From stdpp Require Import base numbers option gmap list.
#[local] Open Scope Z_scope.

Section props.
Context {S : Type} `{!ArchMM S}.
Context {L : Type} `{!FrgList L}.
Context {V : Type → Type} `{!FrgVector V}.
Context `{!FrgListLaws L} `{!FrgVectorLaws V} `{!ArchMMLaws S}.

Notation vm := (vm S L V).
Notation memory_mapping := (memory_mapping V).
Implicit Types (s : vm) (m : memory_mapping) (h : memory_hole).

(** The invariant between operations. *)
Definition vm_inv (g : am_ghost) (s : vm) : Prop := vm_ok s ∧ vm_mem None g s.

(** The state before the constructor runs. *)
Definition vm_start (a : S) : vm := Vm a ∅ ∅ 1 fl_empty fl_empty 0.

Lemma address_space_new_run g a :
  am_inv g a → 1 ≤ am_room a →
  ∃ g' s', address_space_new (vm_start a) = Ok (tt, s') ∧ vm_inv g' s' ∧
    region_ptrs s' = [] ∧ mappings s' = ∅ ∧ am_room (arch s') = am_room a - 1 ∧
    holes s' = {[1 := Hole vm_user_base (2 ^ 35 - 1)]} ∧ hole_ptrs s' = [1] ∧
    arch_step g a g' (arch s') ∧ ¬ am_ctx g (_vmm_ctx s').
Proof.
  intros Hinv Hroom.
  destruct (am_create_law g a Hinv Hroom) as (c & g' & a' & Hrun & Hinv' & Hc & Hnew & Hcc & Hff & _ & Hz & Hrm & Hkp).
  set (h := Hole vm_user_base (2 ^ 35 - 1)).
  set (s' := Vm a' ∅ {[1 := h]} 2 fl_empty (fl_push_back fl_empty 1) c : vm).
  assert (hole_ptrs s' = [1]) as Hh by (unfold hole_ptrs; cbn; by autorewrite with frg).
  assert (region_ptrs s' = []) as Hr by (unfold region_ptrs; cbn; by autorewrite with frg).
  exists g', s'. split_and!; try done.
  { unfold address_space_new, on_arch, zoom. cbv [mbind M_bind]. cbn [arch vm_start]. by rewrite Hrun. }
  split.
  - split; rewrite ?Hh, ?Hr; cbn [holes mappings next_obj s'].
    + apply NoDup_singleton.
    + apply NoDup_nil_2.
    + intros p ->%list_elem_of_singleton. rewrite lookup_singleton_eq. eauto.
    + intros p Hp. by apply elem_of_nil in Hp.
    + intros p h' [<- <-]%lookup_singleton_Some. unfold range_ok. cbn [h h_base h_size].
      change vm_user_base with 4096. split; [done|lia].
    + intros p m Hp. by rewrite lookup_empty in Hp.
    + intros p [? [<- _]%lookup_singleton_Some]. lia.
    + intros p [? Hp]. by rewrite lookup_empty in Hp.
    + lia.
    + intros j. unfold free_cover, used_cover. rewrite Hh, Hr. unfold cover. cbn.
      unfold hole_at. cbn. rewrite lookup_singleton_eq. cbn. unfold rng.
      change (vm_user_base / 4096) with 1. change (34359738367) with (2 ^ 35 - 1). repeat case_decide; lia.
  - split; rewrite ?Hr; cbn [arch mappings _vmm_ctx s']; try done.
    intros v Hv _. by apply Hz.
Qed.

(** C14. The constructor of an address space establishes the invariant: one
    hole covers the user half, there is no region, and the new context maps
    nothing. *)
Theorem address_space_new_spec (g : am_ghost) (a : S) :
  am_inv g a → 1 ≤ am_room a →
  ∃ g' s', address_space_new (vm_start a) = Ok (tt, s') ∧ vm_inv g' s' ∧ region_ptrs s' = [] ∧
    (∀ j, free_cover s' j = if decide (1 ≤ j < 2 ^ 35) then 1%nat else 0%nat) ∧
    (∀ v, user_page v → am_entry (arch s') (_vmm_ctx s') v = 0).
Proof.
  intros Hinv Hroom. destruct (address_space_new_run g a Hinv Hroom) as (g' & s' & Hrun & [Hok Hmem] & Hr & Hm & _).
  assert (∀ j, used_cover s' j = 0%nat) as Hz by (intros j; unfold used_cover; by rewrite Hr).
  exists g', s'. split_and!; [done|done|done|..].
  - intros j. pose proof (ok_partition _ _ Hok j) as Hp. rewrite Hz in Hp. case_decide; lia.
  - intros v Hv. by apply (mem_holes _ _ _ Hmem).
Qed.

(** ** Allocation *)

Lemma allocate_run (g : am_ghost) (s : vm) (n perms cache : Z) :
  vm_inv g s → 0 ≤ n →
  (allocate n perms cache s = Ok (0, s) ∧ ∀ p h, ¬ fits s n p h) ∨
  ∃ b r p h s', allocate n perms cache s = Ok (b, s') ∧ 0 < b ∧
    fits s n p h ∧ b + n * 4096 = h_base h + h_size h * 4096 ∧
    (∀ q h', fits s n q h' → h_base h' ≤ h_base h) ∧
    placed g s r b n perms cache (λ _, BackingPage 0 false true) g s' ∧ arch s' = arch s.
Proof.
  intros [Hok Hmem] Hn. unfold allocate.
  destruct (find_free_hole_run _ s n Hok) as [[Hf Hno]|(p & h & Hf & Hfit & Hmax)]; run Hf; [by left|right].
  pose proof Hfit as (Hin & Hp & Hle).
  destruct (bind_hole_run _ s p h n Hok Hin Hp) as (r & s1 & Hrun & Hok1 & Hbd); [done|]. run Hrun.
  destruct (place_allocated g s r _ n s1 perms cache Hok Hok1 Hmem Hbd) as (s' & Hrun' & Hpl & Ha).
  exists (h_base h + (h_size h - n) * 4096), r, p, h, s'. split_and!; try done; [|lia].
  destruct (bd_range _ _ _ _ _ Hbd) as (_ & ? & _). lia.
Qed.

(** C4. [allocate] on a consistent address space: if some hole has room for
    the pages it returns the address of a new region of exactly that many
    pages, at the end of the highest such hole, all of them free before, with
    every page allocated on demand; every other region keeps its object, no
    other context changes, the invariant holds again. Otherwise it returns 0
    and changes nothing. It always returns. *)
Theorem allocate_spec (g : am_ghost) (s : vm) (n perms cache : Z) :
  vm_inv g s → 0 ≤ n →
  (allocate n perms cache s = Ok (0, s) ∧ ∀ p h, ¬ fits s n p h) ∨
  ∃ b r p h s', allocate n perms cache s = Ok (b, s') ∧ 0 < b ∧
    fits s n p h ∧ b + n * 4096 = h_base h + h_size h * 4096 ∧
    (∀ q h', fits s n q h' → h_base h' ≤ h_base h) ∧
    placed g s r b n perms cache (λ _, BackingPage 0 false true) g s' ∧ arch s' = arch s.
Proof. apply allocate_run. Qed.

(** C5. [allocate_at] on a consistent address space, for a page-aligned range
    of user pages: if, once touching neighbours in the list are merged, one
    hole contains the range, the new region is exactly that range and was
    free, and the rest is as for [allocate]; otherwise it returns 0 and no
    region changes. *)
Theorem allocate_at_spec (g : am_ghost) (s : vm) (b n perms cache : Z) :
  vm_inv g s → range_ok b n → 0 < n →
  ∃ s1, merge_holes s = Ok (tt, s1) ∧ vm_inv g s1 ∧ same_regions s s1 ∧
  ((allocate_at b n perms cache s = Ok (0, s1) ∧
     ∀ p h, p ∈ hole_ptrs s1 → holes s1 !! p = Some h → ¬ contains h b n) ∨
   ∃ p h r s', p ∈ hole_ptrs s1 ∧ holes s1 !! p = Some h ∧ contains h b n ∧
     allocate_at b n perms cache s = Ok (b, s') ∧
     placed g s r b n perms cache (λ _, BackingPage 0 false true) g s' ∧ arch s' = arch s).
Proof.
  intros [Hok Hmem] Hr Hn.
  destruct (bind_exact_run _ s b n Hok Hr Hn) as (s1 & Hm & Hok1 & Hsr & Hcase).
  assert (vm_mem None g s1) as Hmem1 by by apply (same_regions_mem g s).
  exists s1. split_and!; [done|by split|done|]. unfold allocate_at.
  destruct Hcase as [[Hrun Hno]|(p & h & r & s' & Hin & Hp & Hc & Hrun & Hok' & Hbd)]; run Hrun; [by left|right].
  destruct (place_allocated g s r _ n s' perms cache Hok Hok' Hmem Hbd) as (s2 & Hrun' & Hpl & Ha).
  by exists p, h, r, s2.
Qed.

(** C6. [map] places an existing physical range: under the same condition as
    [allocate], and with physical memory left for page tables, the new
    region's pages are the consecutive physical pages from [a], and the page
    tables of this context hold exactly them, with the given permissions. *)
Theorem map_spec (g : am_ghost) (s : vm) (a n perms cache : Z) :
  vm_inv g s → 0 ≤ n → 3 * n ≤ am_room (arch s) →
  (Vm.map a n perms cache s = Ok (0, s) ∧ ∀ p h, ¬ fits s n p h) ∨
  ∃ b r g' s', Vm.map a n perms cache s = Ok (b, s') ∧ 0 < b ∧
    placed g s r b n perms cache (λ i, BackingPage (u64 (a + vm_page_size * Z.of_nat i)) true false) g' s' ∧
    ∀ i, 0 ≤ i < n →
      am_entry (arch s') (_vmm_ctx s') (b / 4096 + i) = am_leaf (u64 (a + vm_page_size * i)) perms cache.
Proof.
  intros [Hok Hmem] Hn Hroom. unfold Vm.map.
  destruct (find_free_hole_run _ s n Hok) as [[Hf Hno]|(p & h & Hf & (Hin & Hp & Hle) & _)]; run Hf; [by left|right].
  destruct (bind_hole_run _ s p h n Hok Hin Hp) as (r & s1 & Hrun & Hok1 & Hbd); [done|]. run Hrun.
  destruct (place_mapped g s r _ n s1 a perms cache Hok Hok1 Hmem Hbd Hroom) as (g' & s' & Hrun' & Hpl).
  eexists _, r, g', s'. split; [done|]. split; [destruct (bd_range _ _ _ _ _ Hbd) as (_ & ? & _); lia|].
  split; [done|].
  intros i Hi. rewrite (placed_entries _ _ _ _ _ _ _ _ _ _ i Hpl) by done. cbn. by rewrite Z2Nat.id by lia.
Qed.

Lemma map_at_run (g : am_ghost) (s : vm) (b a n perms cache : Z) :
  vm_inv g s → range_ok b n → 0 < n → 3 * n ≤ am_room (arch s) →
  (∃ s1, map_at b a n perms cache s = Ok (0, s1) ∧ vm_inv g s1 ∧ same_regions s s1) ∨
  ∃ r g' s', map_at b a n perms cache s = Ok (b, s') ∧
    placed g s r b n perms cache (λ i, BackingPage (u64 (a + vm_page_size * Z.of_nat i)) true false) g' s'.
Proof.
  intros [Hok Hmem] Hr Hn Hroom.
  destruct (bind_exact_run _ s b n Hok Hr Hn) as (s1 & Hm & Hok1 & Hsr & Hcase). unfold map_at.
  destruct Hcase as [[Hrun Hno]|(p & h & r & s' & Hin & Hp & Hc & Hrun & Hok' & Hbd)]; run Hrun; [left|right].
  - exists s1. split_and!; [done|split; [done|by apply (same_regions_mem g s)]|done].
  - destruct (place_mapped g s r _ n s' a perms cache Hok Hok' Hmem Hbd Hroom) as (g' & s2 & Hrun' & Hpl).
    by exists r, g', s2.
Qed.

(** C7. [destroy] of a mapped region removes its object and nothing else from
    the address space, makes its pages free again, takes its entries out of
    the page tables, gives back exactly the physical pages the region had
    allocated, leaves every other context alone, and keeps the invariant. *)
Theorem destroy_spec (g : am_ghost) (s : vm) (r : Z) (m : memory_mapping) :
  vm_inv g s → r ∈ region_ptrs s → mappings s !! r = Some m → _mapped m = true →
  ∃ s', destroy r s = Ok (tt, s') ∧ vm_inv g s' ∧
    mappings s' = delete r (mappings s) ∧ region_ptrs s ≡ₚ r :: region_ptrs s' ∧
    (∀ j, free_cover s' j = (free_cover s j + rng (_base m) (_size m) j)%nat) ∧
    (∀ v, in_region m v → am_entry (arch s') (_vmm_ctx s') v = 0) ∧
    (∀ q, am_frame g (arch s') q ↔
      am_frame g (arch s) q ∧ ∀ p, p ∈ vec_elems (_backing_pages m) → owned p → _ptr p ≠ q) ∧
    (∀ c v, am_ctx g c → c ≠ _vmm_ctx s → user_page v → am_entry (arch s') c v = am_entry (arch s) c v).
Proof.
  intros [Hok Hmem] Hin Hm Hmp. pose proof (ok_region_range _ _ Hok r m Hm) as [Hr _].
  destruct (destroy_run g s r m Hok Hmem Hin Hm Hmp) as (s' & Hrun & Hok' & Hmem' & Hmm & Hl & Hc & Hf & Hfr & He).
  exists s'. split_and!; try done. intros v Hv. apply (mem_holes _ _ _ Hmem'); [by eapply in_region_user|].
  pose proof (Hf v). apply in_region_rng in Hv. pose proof (ok_partition _ _ Hok' v). case_decide; lia.
Qed.

(** ** Faults *)

(** The address is not the end of a region. *)
Definition not_region_end (s : vm) (a : Z) : Prop :=
  ∀ r m, r ∈ region_ptrs s → mappings s !! r = Some m → a ≠ _base m + _size m * 4096.

Lemma find_region_run x s a l :
  vm_ok_with x s → (∀ p, p ∈ l → p ∈ region_ptrs s) →
  (find_region a l s = Ok (None, s) ∧
     ∀ p m, p ∈ l → mappings s !! p = Some m → ¬ (_base m ≤ a ≤ _base m + _size m * 4096)) ∨
  ∃ p m, find_region a l s = Ok (Some p, s) ∧ p ∈ l ∧ mappings s !! p = Some m ∧
    _base m ≤ a ≤ _base m + _size m * 4096.
Proof.
  intros Hok. induction l as [|p l IH]; intros Hl; cbn [find_region].
  - left. split; [done|]. intros p m Hin. by apply elem_of_nil in Hin.
  - destruct (ok_regions _ _ Hok p) as [m Hm]; [apply Hl; set_solver|]. run (get_mapping_run _ _ _ Hm).
    destruct (ok_region_range _ _ Hok p m Hm) as [Hr _]. rewrite end_of_small by done.
    destruct ((_base m <=? a) && (a <=? _base m + _size m * 4096)) eqn:Hb.
    + right. exists p, m. split_and!; [done|set_solver|done|lia|lia].
    + destruct IH as [[-> Hno]|(q & m' & -> & ? & ? & ?)]; [set_solver|left|right].
      * split; [done|]. intros q m' [->|Hq]%elem_of_cons Hm'; [|eauto].
        rewrite Hm in Hm'. injection Hm' as <-. lia.
      * exists q, m'. split_and!; [done|set_solver|done|lia|lia].
Qed.

Lemma in_region_addr m a :
  range_ok (_base m) (_size m) → in_region m (a / 4096) ↔ _base m ≤ a < _base m + _size m * 4096.
Proof. intros (Hb & ? & ? & ?). unfold in_region. split; wrap_lia. Qed.

(** The search takes a region that ends at [a] for the region of [a]: it
    compares with [<=]. *)
Definition found_past (s : vm) (a : Z) : Prop :=
  ∃ r m, region_for_address a s = Ok (Some r, s) ∧ r ∈ region_ptrs s ∧ mappings s !! r = Some m ∧
    a = _base m + _size m * 4096.

Lemma found_past_end s a : found_past s a → ¬ not_region_end s a.
Proof. intros (r & m & _ & Hin & Hm & Ha) Hne. by apply (Hne r m). Qed.

(** What the search finds, for any address. *)
Lemma region_for_address_cases s a :
  vm_ok s →
  found_past s a ∨
  (∃ r m, region_for_address a s = Ok (Some r, s) ∧ r ∈ region_ptrs s ∧ mappings s !! r = Some m ∧ in_region m (a / 4096)) ∨
  (region_for_address a s = Ok (None, s) ∧
     ∀ r m, r ∈ region_ptrs s → mappings s !! r = Some m → ¬ (_base m ≤ a ≤ _base m + _size m * 4096)).
Proof.
  intros Hok. destruct (find_region_run _ s a (region_ptrs s) Hok) as [[Hrun Hno]|(p & m & Hrun & Hp & Hm & Hp')];
    [done|by right; right|].
  destruct (decide (a = _base m + _size m * 4096)) as [E|]; [left|right; left]; exists p, m; split_and!; try done.
  pose proof (ok_region_range _ _ Hok p m Hm) as [Hr _]. apply in_region_addr; [done|lia].
Qed.

Lemma region_for_address_found s a r m :
  vm_ok s → r ∈ region_ptrs s → mappings s !! r = Some m → in_region m (a / 4096) →
  found_past s a ∨ region_for_address a s = Ok (Some r, s).
Proof.
  intros Hok Hin Hm Hv. destruct (region_for_address_cases s a Hok) as [|[(p & m' & -> & Hp & Hm' & Hv')|[_ Hno]]];
    [by left|right|].
  - do 3 f_equal. by apply (region_unique s p r m' m (a / 4096)).
  - exfalso. pose proof (ok_region_range _ _ Hok r m Hm) as [Hr _].
    pose proof (proj1 (in_region_addr m a Hr) Hv). apply (Hno r m Hin Hm). lia.
Qed.

Lemma region_for_address_outside s a :
  vm_ok s → used_cover s (a / 4096) = 0%nat → found_past s a ∨ region_for_address a s = Ok (None, s).
Proof.
  intros Hok Hz. destruct (region_for_address_cases s a Hok) as [|[(p & m & _ & Hp & Hm & Hv)|[-> _]]]; [by left| |by right].
  exfalso. pose proof (cover_elem (region_at s) p _ (a / 4096) _ _ Hp (region_at_some _ _ _ Hm)) as Hc.
  apply in_region_rng in Hv. unfold used_cover in Hz. lia.
Qed.

Lemma region_for_address_run s a r m :
  vm_ok s → not_region_end s a → r ∈ region_ptrs s → mappings s !! r = Some m → in_region m (a / 4096) →
  region_for_address a s = Ok (Some r, s).
Proof.
  intros Hok Hne Hin Hm Hv. destruct (region_for_address_found s a r m Hok Hin Hm Hv) as [Hf|]; [|done].
  by apply found_past_end in Hf.
Qed.

(** Looking up an address that is not the end of a region finds the one
    region that contains it, and finds none exactly when no region does. *)
Theorem region_for_address_spec (s : vm) (a : Z) :
  vm_ok s → not_region_end s a → 0 ≤ a →
  (∃ r m, region_for_address a s = Ok (Some r, s) ∧ r ∈ region_ptrs s ∧ mappings s !! r = Some m ∧
     in_region m (a / 4096)) ∨
  (region_for_address a s = Ok (None, s) ∧ used_cover s (a / 4096) = 0%nat).
Proof.
  intros Hok Hne Ha. destruct (region_for_address_cases s a Hok) as [Hf|[Hf|[Hrun Hno]]]; [by apply found_past_end in Hf|by left|right].
  split; [done|]. apply cover_zero. intros p b n Hp Hat.
  destruct (ok_regions _ _ Hok p Hp) as [m Hm]. rewrite (region_at_some _ _ _ Hm) in Hat. injection Hat as <- <-.
  pose proof (ok_region_range _ _ Hok p m Hm) as [Hr _]. specialize (Hno p m Hp Hm).
  unfold rng. rewrite decide_False; [done|]. intros Hv. apply Hno.
  pose proof (proj1 (in_region_addr m a Hr) Hv). lia.
Qed.

(** [memory_mapping::fault_hit] inside the region looks at the page of the address. *)
Lemma mapping_fault_hit_page s a r m p :
  vm_ok s → mappings s !! r = Some m → in_region m (a / 4096) →
  vec_elems (_backing_pages m) !! Z.to_nat (a / 4096 - _base m / 4096) = Some p →
  mapping_fault_hit r a s =
    (if _allocated p && negb (_exists p) then
       t ← mapping_touch r (Z.of_nat (Z.to_nat (a / 4096 - _base m / 4096)));
       mret (if t : bool then remap_valid else ignore)
     else if _exists p then mret invalid_access
     else if negb (_allocated p) && negb (_exists p) then mret not_mapped
     else mret invalid) s.
Proof.
  intros Hok Hm Hv Hp. pose proof (ok_region_range _ _ Hok r m Hm) as [Hr Hlen].
  pose proof (proj1 (in_region_addr m a Hr) Hv) as Ha. pose proof Hr as (Hb & Hb0 & Hn0 & Hend).
  unfold mapping_fault_hit. run (get_mapping_run _ _ _ Hm). rewrite end_of_small by done.
  destruct (Z.ltb_spec a (_base m)); [lia|]. destruct (Z.leb_spec (_base m + _size m * 4096) a); [lia|]. cbn [orb].
  replace (u64 (a - _base m) / vm_page_size) with (Z.of_nat (Z.to_nat (a / 4096 - _base m / 4096))).
  - rewrite Nat2Z.id, Hp. by run (eq_refl : lift (access (Some p)) s = Ok (p, s)).
  - change vm_page_size with 4096. rewrite u64_small by lia. wrap_lia.
Qed.

(** The end of a region counts as part of it: a fault at the first address
    after a region, which is the base of the next one when the two touch,
    stops the machine. *)
Theorem fault_hit_region_end (s : vm) (a r : Z) (m : memory_mapping) :
  vm_ok s → region_for_address a s = Ok (Some r, s) → mappings s !! r = Some m →
  a = _base m + _size m * 4096 → fault_hit a s = Panic.
Proof.
  intros Hok Hr Hm ->. unfold fault_hit. run Hr. unfold mapping_fault_hit. cbv [mbind M_bind].
  rewrite (get_mapping_run _ _ _ Hm). destruct (ok_region_range _ _ Hok r m Hm) as [Hrg _].
  rewrite end_of_small by done. destruct (Z.leb_spec (_base m + _size m * 4096) (_base m + _size m * 4096)); [|lia].
  by rewrite orb_true_r.
Qed.

Lemma fault_hit_past s a : vm_ok s → found_past s a → fault_hit a s = Panic.
Proof. intros Hok (r & m & Hr & _ & Hm & Ha). by apply (fault_hit_region_end s a r m). Qed.

(** C10. A fault on a page that is allocated but has no physical page yet, with
    physical memory enough for it and for the tables of its region. When the search for the region of the address comes
    first upon one that ends there, [fault_hit] panics: the base of a region that
    touches a lower one, listed earlier. Otherwise
    [fault_hit] returns true; the page now owns a fresh
    physical page, this context's entry for it is that page with the region's
    permissions, nothing changes in any other context, and the invariant holds
    again. *)
Theorem fault_hit_demand (g : am_ghost) (s : vm) (a r : Z) (m : memory_mapping) (p : backing_page) :
  vm_inv g s →
  r ∈ region_ptrs s → mappings s !! r = Some m → in_region m (a / 4096) →
  vec_elems (_backing_pages m) !! Z.to_nat (a / 4096 - _base m / 4096) = Some p →
  _allocated p = true → _exists p = false → 3 * _size m + 1 ≤ am_room (arch s) →
  (found_past s a ∧ fault_hit a s = Panic) ∨
  ∃ g' ptr s', region_for_address a s = Ok (Some r, s) ∧ fault_hit a s = Ok (true, s') ∧ vm_inv g' s' ∧ vm_step g s g' s' ∧
    ¬ am_frame g (arch s) ptr ∧ am_frame g' (arch s') ptr ∧
    am_entry (arch s') (_vmm_ctx s') (a / 4096) = am_leaf ptr (_perms m) (_cache_mode m) ∧
    mappings s' = <[r := set_mapped (with_page m (Z.to_nat (a / 4096 - _base m / 4096))
                                       (BackingPage ptr true true)) true]> (mappings s).
Proof.
  intros [Hok Hmem] Hin Hm Hv Hp Hal Hex Hroom. pose proof (ok_region_range _ _ Hok r m Hm) as [Hr Hlen].
  destruct (region_for_address_found s a r m Hok Hin Hm Hv) as [Hf|Hfa].
  { left. split; [done|by apply fault_hit_past]. }
  right. pose proof (proj1 (in_region_addr m a Hr) Hv) as Ha. pose proof Hr as (Hb & Hb0 & Hn0 & Hend).
  set (i := Z.to_nat (a / 4096 - _base m / 4096)) in *.
  destruct (mapping_touch_run g s r m i p Hok (mem_dirty r _ _ Hmem) Hm Hp) as [[_ [|]]|(ptr & s1 & Ht & _ & Hnf & _ & Hmem1 & Hrs & Hrm)];
    [by rewrite Hal, orb_true_r|congruence|lia|].
  destruct Hrs as [Hok1 Hs1 Hm1 Hl1 _]. set (m1 := with_page m i _) in *.
  assert (mappings s1 !! r = Some m1) as Hlook1 by (rewrite Hm1; apply lookup_insert_eq).
  assert (region_ptrs s1 = region_ptrs s) as Hptr by (unfold region_ptrs; by rewrite Hl1).
  destruct (map_region_run g s1 r m1 Hok1 Hmem1) as (g' & s' & Hmap & Hmem' & [Hok' Hs' Hm' Hl' _] & _);
    [by rewrite Hptr|done|cbn; lia|].
  assert (mappings s' !! r = Some (set_mapped m1 true)) as Hlook' by (rewrite Hm'; apply lookup_insert_eq).
  assert (vec_elems (_backing_pages m1) !! i = Some (BackingPage ptr true true)) as Hpg.
  { cbn. autorewrite with frg. apply list_lookup_insert_eq. by eapply lookup_lt_Some. }
  exists g', ptr, s'. split_and!; [done|..].
  - unfold fault_hit. run Hfa.
    assert (mapping_fault_hit r a s = Ok (remap_valid, s1)) as Hfault.
    { rewrite (mapping_fault_hit_page s a r m p Hok Hm Hv Hp), Hal, Hex. cbn [andb negb]. fold i. by run Ht. }
    run Hfault. by run Hmap.
  - by split.
  - by eapply vm_step_trans.
  - done.
  - by destruct (mem_frame _ _ _ Hmem' r (set_mapped m1 true) i _ Hlook' Hpg).
  - replace (a / 4096) with (_base m / 4096 + Z.of_nat i) by (subst i; unfold in_region in Hv; lia).
    apply (mapped_entry g' s' r (set_mapped m1 true) i (BackingPage ptr true true)); try done.
    unfold region_ptrs. rewrite Hl'. fold (region_ptrs s1). by rewrite Hptr.
  - by rewrite Hm', Hm1, insert_insert_eq.
Qed.

(** C11. The faults that [fault_hit] does not resolve. When the search for the
    region of the address comes upon a region that ends there, it panics. Otherwise nothing changes: outside
    every region, on a page that is present, and on a page that is neither
    present nor allocated it returns false; on an allocated page with physical memory exhausted
    it returns true although nothing was mapped. *)
Theorem fault_hit_unresolved (g : am_ghost) (s : vm) (a : Z) :
  vm_inv g s →
  (found_past s a ∧ fault_hit a s = Panic) ∨
  ((used_cover s (a / 4096) = 0%nat → fault_hit a s = Ok (false, s)) ∧
   ∀ r m p, r ∈ region_ptrs s → mappings s !! r = Some m → in_region m (a / 4096) →
     vec_elems (_backing_pages m) !! Z.to_nat (a / 4096 - _base m / 4096) = Some p →
     (_exists p = true → fault_hit a s = Ok (false, s)) ∧
     (_exists p = false → _allocated p = false → fault_hit a s = Ok (false, s)) ∧
     (_exists p = false → _allocated p = true → am_room (arch s) = 0 → fault_hit a s = Ok (true, s))).
Proof.
  intros [Hok Hmem]. destruct (region_for_address_cases s a Hok) as [Hf|Hno]; [left; split; [done|by apply fault_hit_past]|right].
  assert (¬ found_past s a) as Hnp.
  { intros Hf. destruct Hno as [(r & m & E & Hin & Hm & Hv)|[E _]].
    - destruct Hf as (r' & m' & E' & _ & Hm' & ->). rewrite E in E'. injection E' as <-. rewrite Hm in Hm'. injection Hm' as <-.
      pose proof (ok_region_range _ _ Hok r m Hm) as [Hr _]. apply (in_region_addr m _ Hr) in Hv. lia.
    - destruct Hf as (r' & m' & E' & _). rewrite E in E'. discriminate. }
  unfold fault_hit. split.
  - intros Hz. destruct (region_for_address_outside s a Hok Hz) as [|Hn]; [done|]. by run Hn.
  - intros r m p Hin Hm Hv Hp. destruct (region_for_address_found s a r m Hok Hin Hm Hv) as [|Hfa]; [done|]. run Hfa.
    pose proof (mapping_fault_hit_page s a r m p Hok Hm Hv Hp) as Hpage. split_and!.
    + intros He. rewrite He in Hpage. rewrite andb_false_r in Hpage. by run Hpage.
    + intros He Hal. rewrite He, Hal in Hpage. by run Hpage.
    + intros He Hal Hz. rewrite He, Hal in Hpage. cbn [andb negb] in Hpage.
      destruct (mapping_touch_run g s r m _ p Hok (mem_dirty r _ _ Hmem) Hm Hp)
        as [[Ht _]|(ptr & s1 & _ & _ & _ & Hpos & _)]; [by rewrite Hal, orb_true_r| |lia].
      rewrite (bind_run _ _ _ _ _ Ht) in Hpage. by run Hpage.
Qed.

End props.

(** ** Witnesses: the x86_64 architecture and lists *)
Section demo.
Import Instances.

Definition demo_vmm : vmm := Vmm demo_pmm demo_root demo_root 0.

Lemma demo_inv : am_inv (ArchMM := x86_arch_mm) demo_own demo_vmm ∧ am_room demo_vmm = 62.
Proof. split; [split; [apply demo_tables_ok|done]|apply demo_avail]. Qed.

Definition demo_start : vm vmm (list Z) list := vm_start demo_vmm.

#[local] Opaque demo_vmm demo_start.

(** A fresh address space. *)
Lemma demo_space :
  ∃ g s, address_space_new demo_start = Ok (tt, s) ∧ vm_inv g s ∧ am_room (arch s) = 61 ∧ region_ptrs s = [] ∧
    fits s 2 1 (Hole vm_user_base (2 ^ 35 - 1)).
Proof.
  destruct demo_inv as [Hinv Hroom].
  destruct (address_space_new_run (ArchMM0 := x86_arch_mm) (L := list Z) (V := list) demo_own demo_vmm Hinv)
    as (g & s & Hrun & Hvm & Hr & _ & Hrm & Hh & Hp & _); [rewrite Hroom; lia|].
  exists g, s. split; [exact Hrun|]. split; [exact Hvm|]. split; [rewrite Hrm, Hroom; reflexivity|].
  split; [exact Hr|]. split; [rewrite Hp; clear; left|].
  rewrite Hh. split; [apply lookup_singleton_eq|]. cbn [h_size]. lia.
Qed.

Lemma address_space_new_spec_witness :
  ∃ g s, address_space_new demo_start = Ok (tt, s) ∧ vm_inv g s ∧ free_cover s 1 = 1%nat.
Proof.
  destruct demo_inv as [Hinv Hroom].
  destruct (address_space_new_spec (ArchMM0 := x86_arch_mm) (L := list Z) (V := list) demo_own demo_vmm Hinv ltac:(lia))
    as (g & s & Hrun & Hvm & _ & Hf & _).
  exists g, s. split; [exact Hrun|]. split; [exact Hvm|]. by rewrite Hf.
Defined.

Lemma allocate_spec_witness :
  ∃ g s b s', address_space_new demo_start = Ok (tt, s) ∧ allocate 2 perm_write 0 s = Ok (b, s') ∧
    0 < b ∧ vm_inv g s'.
Proof.
  destruct demo_space as (g & s & Hrun & Hinv & _ & _ & Hfit).
  destruct (allocate_spec g s 2 perm_write 0 Hinv ltac:(lia))
    as [[_ Hno]|(b & r & p & h & s' & Hal & Hb & _ & _ & _ & Hpl & _)]; [by apply Hno in Hfit|].
  exists g, s, b, s'. split; [exact Hrun|]. split; [exact Hal|]. split; [exact Hb|]. split; apply Hpl.
Defined.

Lemma demo_range : range_ok 0x400000 2.
Proof. split; [done|lia]. Qed.

Lemma allocate_at_spec_witness :
  ∃ s s1, address_space_new demo_start = Ok (tt, s) ∧ merge_holes s = Ok (tt, s1) ∧
    value (allocate_at 0x400000 2 perm_write 0 s) = Some 0x400000.
Proof.
  destruct demo_space as (g & s & Hrun & Hinv & _).
  destruct (allocate_at_spec g s 0x400000 2 perm_write 0 Hinv demo_range ltac:(lia))
    as (s1 & Hm & _ & _ & Hcase).
  exists s, s1. split; [exact Hrun|]. split; [exact Hm|].
  assert (value ((address_space_new;; allocate_at 0x400000 2 perm_write 0) demo_start) = Some 0x400000) as Hv
    by (vm_compute; reflexivity).
  rewrite (bind_run _ _ _ _ _ Hrun) in Hv. exact Hv.
Defined.

Lemma map_spec_witness :
  ∃ s b s', address_space_new demo_start = Ok (tt, s) ∧ Vm.map 0xB8000 2 perm_write 0 s = Ok (b, s') ∧
    am_entry (arch s') (_vmm_ctx s') (b / 4096 + 1) = am_leaf 0xB9000 perm_write 0.
Proof.
  destruct demo_space as (g & s & Hrun & Hinv & Hroom & _ & Hfit).
  destruct (map_spec g s 0xB8000 2 perm_write 0 Hinv ltac:(lia) ltac:(rewrite Hroom; lia))
    as [[_ Hno]|(b & r & g' & s' & Hmap & _ & _ & He)]; [by apply Hno in Hfit|].
  exists s, b, s'. split; [exact Hrun|]. split; [exact Hmap|]. exact (He 1 ltac:(lia)).
Defined.

(** A space with one region of two pages. *)
Lemma demo_region :
  ∃ g s b r m, (address_space_new;; allocate 2 perm_write 0) demo_start = Ok (b, s) ∧ vm_inv g s ∧
    region_ptrs s = [r] ∧ mappings s !! r = Some m ∧ _base m = b ∧ _size m = 2 ∧ _mapped m = true ∧
    vec_elems (_backing_pages m) = [BackingPage 0 false true; BackingPage 0 false true] ∧
    _perms m = perm_write ∧ _cache_mode m = 0 ∧ am_room (arch s) = 61.
Proof.
  destruct demo_space as (g & s & Hrun & Hinv & Hroom & Hnil & Hfit).
  destruct (allocate_run g s 2 perm_write 0 Hinv ltac:(lia))
    as [[_ Hno]|(b & r & p & h & s' & Hal & Hb & _ & _ & _ & Hpl & Ha)]; [by apply Hno in Hfit|].
  destruct Hpl as [Hok Hmem _ _ Hl (m & Hm & Hbm & Hn & Hpm & Hcm & Hmp & Hv) _ _].
  rewrite Hnil in Hl. apply Permutation_singleton_r in Hl.
  exists g, s', b, r, m. run Hrun. split_and!; try done.
  - rewrite Hm. apply lookup_insert_eq.
  - rewrite Ha. done.
Qed.

Lemma destroy_spec_witness :
  ∃ g s r s', vm_inv g s ∧ r ∈ region_ptrs s ∧ destroy r s = Ok (tt, s') ∧ vm_inv g s'.
Proof.
  destruct demo_region as (g & s & b & r & m & _ & Hinv & Hr & Hm & _ & _ & Hmp & _).
  assert (r ∈ region_ptrs s) as Hin by (rewrite Hr; by apply list_elem_of_singleton).
  destruct (destroy_spec g s r m Hinv Hin Hm Hmp) as (s' & Hrun & Hinv' & _).
  exists g, s, r, s'. split; [exact Hinv|]. split; [exact Hin|]. split; [exact Hrun|exact Hinv'].
Defined.

Lemma demo_not_end g (s : vm vmm (list Z) list) b r (m : memory_mapping list) :
  vm_inv g s → region_ptrs s = [r] → mappings s !! r = Some m → _base m = b → _size m = 2 →
  not_region_end s (b + 16) ∧ 0 ≤ b + 16 ∧ in_region m ((b + 16) / 4096) ∧
  (b + 16) / 4096 - _base m / 4096 = 0.
Proof.
  intros [Hok _] Hr Hm Hb Hn. destruct (ok_region_range _ _ Hok r m Hm) as [(H1 & H2 & _) _].
  split_and!.
  - intros r' m' Hin Hm'. rewrite Hr in Hin. apply list_elem_of_singleton in Hin as ->.
    rewrite Hm in Hm'. injection Hm' as <-. lia.
  - lia.
  - unfold in_region. rewrite Hb, Hn in *. wrap_lia.
  - rewrite Hb in *. wrap_lia.
Qed.

Lemma region_for_address_spec_witness :
  ∃ (s : vm vmm (list Z) list) r m a, region_for_address a s = Ok (Some r, s) ∧ mappings s !! r = Some m ∧ in_region m (a / 4096).
Proof.
  destruct demo_region as (g & s & b & r & m & _ & Hinv & Hr & Hm & Hb & Hn & _).
  destruct (demo_not_end g s b r m Hinv Hr Hm Hb Hn) as (Hne & Ha & Hv & _).
  destruct (region_for_address_spec s (b + 16) (proj1 Hinv) Hne Ha) as [(r' & m' & Hrun & _ & Hm' & Hv')|[_ Hz]].
  - exists s, r', m', (b + 16). split; [exact Hrun|]. split; [exact Hm'|exact Hv'].
  - exfalso. apply in_region_rng in Hv.
    pose proof (cover_elem (region_at s) r (region_ptrs s) ((b + 16) / 4096) _ _
      ltac:(rewrite Hr; by apply list_elem_of_singleton) (region_at_some _ _ _ Hm)). unfold used_cover in Hz. lia.
Defined.

Lemma fault_hit_demand_witness :
  ∃ s b s' ptr, (address_space_new;; allocate 2 perm_write 0) demo_start = Ok (b, s) ∧
    fault_hit (b + 16) s = Ok (true, s') ∧
    am_entry (arch s') (_vmm_ctx s') ((b + 16) / 4096) = am_leaf ptr perm_write 0.
Proof.
  destruct demo_region as (g & s & b & r & m & Hrun & Hinv & Hr & Hm & Hb & Hn & _ & Hv & Hpm & Hcm & Hroom).
  destruct (demo_not_end g s b r m Hinv Hr Hm Hb Hn) as (Hne & Ha & Hreg & Hi).
  assert (r ∈ region_ptrs s) as Hin by (rewrite Hr; by apply list_elem_of_singleton).
  destruct (fault_hit_demand g s (b + 16) r m (BackingPage 0 false true) Hinv Hin Hm Hreg)
    as [[Hpast _]|(g' & ptr & s' & _ & Hf & _ & _ & _ & _ & He & _)]; [by rewrite Hi, Hv|reflexivity|reflexivity|lia|destruct (found_past_end _ _ Hpast Hne)|].
  exists s, b, s', ptr. split; [exact Hrun|]. split; [exact Hf|]. rewrite He, Hpm, Hcm. reflexivity.
Defined.

Lemma fault_hit_unresolved_witness :
  ∃ s, address_space_new demo_start = Ok (tt, s) ∧ fault_hit 0x5000 s = Ok (false, s).
Proof.
  destruct demo_space as (g & s & Hrun & Hinv & _ & Hnil & _).
  assert (not_region_end s 0x5000) as Hne by (intros r m Hin; rewrite Hnil in Hin; by apply elem_of_nil in Hin).
  destruct (fault_hit_unresolved g s 0x5000 Hinv) as [[Hpast _]|[Hnone _]]; [destruct (found_past_end _ _ Hpast Hne)|].
  exists s. split; [exact Hrun|]. apply Hnone. unfold used_cover. rewrite Hnil. reflexivity.
Defined.

(** Two allocations of one page; the second region ends where the first begins. *)
Definition two_regions : M (vm vmm (list Z) list) Z :=
  address_space_new;;
  b1 ← allocate 1 perm_write 0;
  allocate 1 perm_write 0;;
  mret b1.

Lemma demo_two_regions :
  ∃ g s b, two_regions demo_start = Ok (b, s) ∧ vm_inv g s ∧
    ∃ r m, region_for_address b s = Ok (Some r, s) ∧ mappings s !! r = Some m ∧
      b = _base m + _size m * 4096.
Proof.
  assert (value ((b ← two_regions; r ← region_for_address b;
      match r with Some r => m ← get_mapping r; mret (b =? _base m + _size m * 4096) | None => lift Fault end)
      demo_start) = Some true) as Hv by (vm_compute; reflexivity).
  destruct demo_space as (g & s & Hrun & Hinv & _).
  assert (∀ s, vm_inv g s → ∃ b s', allocate 1 perm_write 0 s = Ok (b, s') ∧ vm_inv g s') as Hstep.
  { intros s0 Hinv0. destruct (allocate_run g s0 1 perm_write 0 Hinv0 ltac:(lia))
      as [[Hal _]|(b & r & p & h & s' & Hal & _ & _ & _ & _ & Hpl & _)]; [by exists 0, s0|].
    exists b, s'. split; [exact Hal|]. split; apply Hpl. }
  destruct (Hstep s Hinv) as (b1 & s1 & H1 & Hinv1), (Hstep _ Hinv1) as (b2 & s2 & H2 & Hinv2).
  assert (two_regions demo_start = Ok (b1, s2)) as H by (unfold two_regions; run Hrun; run H1; by run H2).
  rewrite (bind_run _ _ _ _ _ H) in Hv.
  destruct (find_region_run _ s2 b1 (region_ptrs s2) (proj1 Hinv2)) as [[Hf _]|(r & m & Hf & _ & Hm & _)]; [done|..].
  - rewrite (bind_run _ _ _ _ _ (Hf : region_for_address b1 s2 = _)) in Hv. discriminate.
  - rewrite (bind_run _ _ _ _ _ (Hf : region_for_address b1 s2 = _)) in Hv. cbv beta iota in Hv.
    rewrite (bind_run _ _ _ _ _ (get_mapping_run _ _ _ Hm)) in Hv. injection Hv as Hv.
    exists g, s2, b1. split; [exact H|]. split; [exact Hinv2|]. exists r, m. split; [exact Hf|]. split; [exact Hm|].
    by apply Z.eqb_eq.
Qed.

Lemma fault_hit_region_end_witness :
  ∃ s b, two_regions demo_start = Ok (b, s) ∧ fault_hit b s = Panic.
Proof.
  destruct demo_two_regions as (g & s & b & Hrun & Hinv & r & m & Hr & Hm & Hb).
  exists s, b. split; [exact Hrun|].
  exact (fault_hit_region_end s b r m (proj1 Hinv) Hr Hm Hb).
Defined.

(** A hole that is put back above every other hole goes to the front of
    the list, where [merge_holes] does not join it with its lower neighbour:
    after allocating and destroying one page at the top of an address space,
    a range across the old boundary can no longer be bound, although every
    page of it is free. *)
Theorem destroy_fragments :
  value ((address_space_new;; allocate_at (vm_user_end - 0x2000) 2 perm_write 0) demo_start)
    = Some (vm_user_end - 0x2000) ∧
  value ((address_space_new;; b ← allocate 1 perm_write 0; destroy_at b;;
          allocate_at (vm_user_end - 0x2000) 2 perm_write 0) demo_start) = Some 0 ∧
  value ((address_space_new;; b ← allocate 1 perm_write 0; destroy_at b;;
          s ← get_st; mret (free_cover s (2 ^ 35 - 1), free_cover s (2 ^ 35 - 2))) demo_start)
    = Some (1%nat, 1%nat).
Proof. split_and!; vm_compute; reflexivity. Qed.
End demo.
