(* ===== verification/VmLoad.v ===== *)
(** * Loading data into an address space (mm/vm.cpp)

    [address_space::load] and what it takes: the pages that the data reaches
    get physical pages ([ensure_load_store], [touch]), the architecture copies
    the bytes through its window, and the region is mapped again. *)
From S2P Require Import Prelude Frigg Arch Vm VmSpace VmTables VmProps.
From stdpp Require Import base numbers option gmap list.
#[local] Open Scope Z_scope.

Section load.
Context {S : Type} `{!ArchMM S}.
Context {L : Type} `{!FrgList L}.
Context {V : Type → Type} `{!FrgVector V}.
Context `{!FrgListLaws L} `{!FrgVectorLaws V} `{!ArchMMLaws S} `{!ArchMMCopyLaws S}.

Notation vm := (vm S L V).
Notation memory_mapping := (memory_mapping V).
Implicit Types (s : vm) (m : memory_mapping).

(** The byte at the address [v] is [b]: the region there is mapped, and [b] is
    in the physical page behind it. *)
Definition vm_byte s (v b : Z) : Prop :=
  ∃ r m p, r ∈ region_ptrs s ∧ mappings s !! r = Some m ∧ in_region m (v / 4096) ∧ _mapped m = true ∧
    vec_elems (_backing_pages m) !! Z.to_nat (v / 4096 - _base m / 4096) = Some p ∧ owned p ∧
    am_byte (arch s) (_ptr p) (v mod 4096) = b.

(** The page tables lead there. *)
Lemma vm_byte_entry g s v b :
  vm_inv g s → vm_byte s v b →
  ∃ p perms cache, am_entry (arch s) (_vmm_ctx s) (v / 4096) = am_leaf p perms cache ∧
    am_frame g (arch s) p ∧ am_byte (arch s) p (v mod 4096) = b.
Proof.
  intros [Hok Hmem] (r & m & p & Hr & Hm & Hv & Hmp & Hp & Ho & Hb).
  exists (_ptr p), (_perms m), (_cache_mode m). split_and!; [|by destruct (mem_frame _ _ _ Hmem r m _ p Hm Hp Ho)|done].
  replace (v / 4096) with (_base m / 4096 + Z.of_nat (Z.to_nat (v / 4096 - _base m / 4096))) by (unfold in_region in Hv; lia).
  apply (mapped_entry g s r m _ p); try done. apply Ho.
Qed.

(** ** Regions *)
Lemma region_step_refl g s r m : vm_ok s → am_inv g (arch s) → mappings s !! r = Some m → region_step g s r m g s.
Proof. intros Hok Hi Hm. split; [done|by apply vm_step_refl| |done|done]. by rewrite insert_id. Qed.

Lemma region_step_trans g s r m1 g1 s1 m2 g2 s2 :
  region_step g s r m1 g1 s1 → region_step g1 s1 r m2 g2 s2 → region_step g s r m2 g2 s2.
Proof.
  intros [O1 V1 M1 R1 [H1 L1]] [O2 V2 M2 R2 [H2 L2]]. split; [done|by eapply vm_step_trans| | |].
  - by rewrite M2, M1, insert_insert_eq.
  - by rewrite R2.
  - by rewrite H2, L2.
Qed.

Lemma region_step_lookup g s r m g' s' : region_step g s r m g' s' → mappings s' !! r = Some m.
Proof. intros H. rewrite (rs_mappings _ _ _ _ _ _ H). apply lookup_insert_eq. Qed.

Lemma region_step_byte g s r m g' s' q x :
  region_step g s r m g' s' → am_frame g (arch s) q → 0 ≤ x < 4096 → am_byte (arch s') q x = am_byte (arch s) q x.
Proof. intros H. apply (as_kept _ _ _ _ (vs_arch _ _ _ _ (rs_step _ _ _ _ _ _ H))). Qed.

(** ** Touching a run of pages *)

(** The region [m'] is [m] with physical pages from page [i] on, [n] of them. *)
Record touched_run (s' : vm) (m m' : memory_mapping) (i n : Z) : Prop := {
  tr_same : _base m' = _base m ∧ _size m' = _size m ∧ _perms m' = _perms m ∧ _cache_mode m' = _cache_mode m ∧
    _mapped m' = _mapped m;
  tr_length : length (vec_elems (_backing_pages m')) = length (vec_elems (_backing_pages m));
  tr_page k p : vec_elems (_backing_pages m) !! k = Some p →
    ∃ p', vec_elems (_backing_pages m') !! k = Some p' ∧ (i ≤ Z.of_nat k < i + n → owned p') ∧
      (p' = p ∨ (_exists p = false ∧ owned p' ∧ ∀ x, 0 ≤ x < 4096 → am_byte (arch s') (_ptr p') x = 0));
}.

Lemma touched_none s m i : touched_run s m m i 0.
Proof. split; [done|done|]. intros k p Hp. exists p. split; [done|]. split; [lia|by left]. Qed.

(** One page in front of a run. *)
Lemma touched_cons g s1 g2 s2 r m m1 m2 i n p1 :
  vm_mem (Some r) g s1 → region_step g s1 r m2 g2 s2 → mappings s1 !! r = Some m1 → 0 ≤ i → 0 ≤ n →
  touched_run s1 m m1 i 1 → touched_run s2 m1 m2 (i + 1) n →
  vec_elems (_backing_pages m1) !! Z.to_nat i = Some p1 → owned p1 → touched_run s2 m m2 i (n + 1).
Proof.
  intros Hmem1 Hs2 Hm1 Hi Hn [E1 L1 P1] [E2 L2 P2] Hp1 Ho1. split.
  - destruct E1 as (?&?&?&?&?), E2 as (?&?&?&?&?). split_and!; congruence.
  - congruence.
  - intros k p Hp. destruct (P1 k p Hp) as (p' & Hp' & O' & C'). destruct (P2 k p' Hp') as (p'' & Hp'' & O'' & C'').
    exists p''. split; [done|].
    assert (owned p' → _exists p' = true) as Hex by by intros [].
    split.
    + intros Hk. destruct (decide (Z.of_nat k = i)) as [<-|Hne]; [|apply O''; lia].
      rewrite Nat2Z.id, Hp' in Hp1. injection Hp1 as ->. destruct C'' as [->|(Hex' & _)]; [done|].
      by rewrite Hex in Hex'.
    + destruct C'' as [->|(Hex' & Ho & Hz)].
      * destruct C' as [->|(Hex' & Ho & Hz)]; [by left|right]. split; [done|]. split; [done|]. intros x Hx.
        rewrite (region_step_byte _ _ _ _ _ _ _ _ Hs2); [by apply Hz| |done].
        by destruct (mem_frame _ _ _ Hmem1 r m1 k p' Hm1 Hp' Ho).
      * right. split; [|done]. destruct C' as [->|(_ & Ho' & _)]; [done|]. by rewrite Hex in Hex'.
Qed.

Lemma touch_loop_run n g s r m i t :
  vm_ok s → vm_mem (Some r) g s → mappings s !! r = Some m → 0 ≤ i → i + Z.of_nat n ≤ _size m → Z.of_nat n ≤ am_room (arch s) →
  (∀ k p, i ≤ k < i + Z.of_nat n → vec_elems (_backing_pages m) !! Z.to_nat k = Some p → _allocated p = true) →
  ∃ t' s' m', touch_loop r i n t s = Ok (t', s') ∧ vm_mem (Some r) g s' ∧ region_step g s r m' g s' ∧
    touched_run s' m m' i (Z.of_nat n) ∧ (t' = t ∧ s' = s ∨ t' = true) ∧ am_room (arch s) - Z.of_nat n ≤ am_room (arch s').
Proof.
  revert s m i t. induction n as [|n IH]; intros s m i t Hok Hmem Hm Hi Hn Hroom Hal.
  { exists t, s, m. split; [done|]. split; [done|]. split; [apply region_step_refl; [done|apply Hmem|done]|].
    split; [apply touched_none|]. split; [by left|lia]. }
  destruct (ok_region_range _ _ Hok r m Hm) as [Hrange Hlen]. pose proof Hrange as (_ & Hb0 & _ & Hend).
  destruct (lookup_lt_is_Some_2 (vec_elems (_backing_pages m)) (Z.to_nat i)) as [p Hp]; [lia|].
  pose proof (Hal i p ltac:(lia) Hp) as Hap.
  assert (u64 (i + 1) = i + 1) as Eu by (apply u64_small; lia).
  destruct (mapping_touch_run g s r m (Z.to_nat i) p Hok Hmem Hm Hp) as [[Ht Hc]|(ptr & s1 & Ht & Hex & Hnf & _ & Hmem1 & Hs1 & Hr1 & Hz)];
    [by rewrite Hap, orb_true_r| |]; rewrite Z2Nat.id in Ht by done.
  - destruct Hc as [Hex|]; [|lia]. destruct (IH s m (i + 1) (t || false) Hok Hmem Hm) as (t' & s' & m' & Hrun & Hmem' & Hs' & Htr & Ht' & Hr');
      [lia|lia|lia|intros k q Hk; apply Hal; lia|].
    exists t', s', m'. split; [cbn [touch_loop]; run Ht; by rewrite Eu|]. split; [done|]. split; [done|].
    split; [|split; [by rewrite orb_false_r in Ht'|lia]].
    replace (Z.of_nat (Datatypes.S n)) with (Z.of_nat n + 1) by lia.
    assert (owned p) as Ho by by split.
    eapply (touched_cons g s g s' r m m m' i (Z.of_nat n) p); try done; try lia.
    split; [done|done|]. intros k q Hq. exists q. split; [done|]. split; [|by left].
    intros Hk. assert (k = Z.to_nat i) as -> by lia. by rewrite Hp in Hq; injection Hq as <-.
  - set (m1 := with_page m (Z.to_nat i) (BackingPage ptr true true)) in *.
    pose proof (region_step_lookup _ _ _ _ _ _ Hs1) as Hm1.
    assert (∀ k, vec_elems (_backing_pages m1) !! k =
      if decide (k = Z.to_nat i) then Some (BackingPage ptr true true) else vec_elems (_backing_pages m) !! k) as Hlook.
    { intros k. cbn. autorewrite with frg. case_decide as Hk; [subst k; apply list_lookup_insert_eq; lia|by rewrite list_lookup_insert_ne]. }
    destruct (IH s1 m1 (i + 1) (t || true) (rs_ok _ _ _ _ _ _ Hs1) Hmem1 Hm1) as (t' & s' & m' & Hrun & Hmem' & Hs' & Htr & Ht' & Hr');
      [lia|cbn; lia|lia| |].
    { intros k q Hk. rewrite Hlook, decide_False by lia. apply Hal. lia. }
    exists t', s', m'. split; [cbn [touch_loop]; run Ht; by rewrite Eu|]. split; [done|]. split; [by eapply region_step_trans|].
    split; [|split; [rewrite orb_true_r in Ht'; right; by destruct Ht' as [[-> _]| ->]|lia]].
    replace (Z.of_nat (Datatypes.S n)) with (Z.of_nat n + 1) by lia.
    eapply (touched_cons g s1 g s' r m m1 m' i (Z.of_nat n) (BackingPage ptr true true)); try done; try lia.
    + split; [done|cbn; autorewrite with frg; apply length_insert|]. intros k q Hq. rewrite Hlook. case_decide as Hk.
      * exists (BackingPage ptr true true). split; [done|]. split; [done|]. right. subst k. rewrite Hp in Hq. injection Hq as <-. done.
      * exists q. split; [done|]. split; [lia|by left].
    + rewrite Hlook. by rewrite decide_True.
Qed.

(** ** The copy *)

(** The state of the architecture replaced by one with the same entries for
    this context. *)
Lemma arch_changed_mem d g s g' a' :
  vm_mem d g s → am_inv g' a' → (∀ c, am_ctx g c → am_ctx g' c) → (∀ q, am_frame g (arch s) q → am_frame g' a' q) →
  (∀ v, user_page v → am_entry a' (_vmm_ctx s) v = am_entry (arch s) (_vmm_ctx s) v) → vm_ok s →
  vm_mem d g' (set_arch a' s).
Proof.
  intros [Hi Hc Hu Hf Hn Ht Hh] Hi' Hcc Hff He Hok. split; cbn; try done.
  - by apply Hcc.
  - intros r m i p Hm Hp Ho. destruct (Hf r m i p Hm Hp Ho). split; [by apply Hff|done].
  - intros r m v Hr Hm Hv. rewrite He; [by apply (Ht r m v)|]. eapply in_region_user; [|exact Hv].
    by apply (ok_region_range _ _ Hok r m).
  - intros v Hv Hz. rewrite He by done. by apply Hh.
Qed.

Lemma arch_changed_ok s a' : vm_ok s → vm_ok (set_arch a' s).
Proof. by intros []. Qed.

Lemma mapping_ptrs_lookup m i : mapping_ptrs m !! i = _ptr <$> (vec_elems (_backing_pages m) !! i).
Proof. apply list_lookup_fmap. Qed.

(** The transfer that the pages of a region allow. *)
Lemma region_transfer d g s r m o n :
  vm_ok s → vm_mem d g s → mappings s !! r = Some m → am_ready (arch s) → am_ctx g (am_kernel (arch s)) →
  _size m ≤ 2 ^ 32 → 3 * _size m ≤ am_room (arch s) → 0 ≤ o → o + n ≤ 4096 * _size m →
  (∀ j, o ≤ j < o + n → ∃ p, vec_elems (_backing_pages m) !! Z.to_nat (j / 4096) = Some p ∧ owned p) →
  am_transfer g (arch s) (mapping_ptrs m) o n.
Proof.
  intros Hok Hmem Hm Hrd Hk Hsz Hroom Ho Hn Hp. destruct (ok_region_range _ _ Hok r m Hm) as [(_ & _ & Hn0 & _) Hlen].
  assert (length (mapping_ptrs m) = Z.to_nat (_size m)) as El by (unfold mapping_ptrs; by rewrite length_fmap).
  split; try done; rewrite ?El, ?Z2Nat.id by lia; try done; try lia.
  - apply Hmem.
  - apply Forall_forall. intros q (p & -> & Hin)%list_elem_of_fmap. by eapply (mem_u64 _ _ _ Hmem).
  - intros j Hj. destruct (Hp j Hj) as (p & Hlook & Hop). exists (_ptr p). rewrite mapping_ptrs_lookup, Hlook. split; [done|].
    by destruct (mem_frame _ _ _ Hmem r m _ p Hm Hlook Hop).
  - intros j j' Hj Hj'. destruct (Hp j Hj) as (p & Hlook & Hop). destruct (Hp j' Hj') as (p' & Hlook' & Hop').
    rewrite !mapping_ptrs_lookup, Hlook, Hlook'. intros [= E].
    destruct (mem_unique _ _ _ Hmem r m _ p r m _ p' Hm Hlook Hop Hm Hlook' Hop' E) as [_ Ei]. wrap_lia.
Qed.

(** The room and the state of the machine that a load needs. *)
Record load_ready (g : am_ghost) s (r : Z) m (n : Z) : Prop := {
  lr_ready : am_ready (arch s);
  lr_kernel : am_ctx g (am_kernel (arch s));
  lr_user : _vmm_ctx s ≠ am_kernel (arch s);
  lr_size : _size m ≤ 2 ^ 32;
  lr_room : (n + 4095) / 4096 + 6 * _size m ≤ am_room (arch s);
}.

(** A page of the region that already has a physical page. *)
Definition has_page m (k : Z) : Prop := ∃ p, vec_elems (_backing_pages m) !! Z.to_nat k = Some p ∧ owned p.

(** What [n] bytes at offset [o] ask of a region: they lie inside it, the run
    of pages that [ensure_load_store] provides is allocated, and every page
    the bytes reach is in that run or has a physical page already. The run is
    as long as [n] bytes from a page boundary need; a range that starts later
    in its first page may reach one page further, and that page
    [ensure_load_store] leaves as it is. *)
Record reachable m (o n : Z) : Prop := {
  rc_off : 0 ≤ o;
  rc_range : o + n ≤ 4096 * _size m;
  rc_alloc k p : o / 4096 ≤ k < o / 4096 + (n + 4095) / 4096 → vec_elems (_backing_pages m) !! Z.to_nat k = Some p → _allocated p = true;
  rc_last j : o ≤ j < o + n → j / 4096 < o / 4096 + (n + 4095) / 4096 ∨ has_page m (j / 4096);
}.

Lemma ensure_load_store_run g s r m o n :
  vm_ok s → vm_mem None g s → mappings s !! r = Some m → reachable m o n → 0 ≤ n →
  (n + 4095) / 4096 ≤ am_room (arch s) →
  ∃ t s' m', ensure_load_store r o n s = Ok (t, s') ∧ vm_mem (Some r) g s' ∧ region_step g s r m' g s' ∧
    touched_run s' m m' (o / 4096) ((n + 4095) / 4096) ∧ (t = false → s' = s) ∧
    am_room (arch s) - (n + 4095) / 4096 ≤ am_room (arch s').
Proof.
  intros Hok Hmem Hm [Ho Hr Hal _] Hn Hroom. destruct (ok_region_range _ _ Hok r m Hm) as [Hrange _].
  pose proof Hrange as (_ & Hb0 & Hn0 & Hend).
  assert (0 ≤ (n + 4095) / 4096) as Hq by (apply Z.div_pos; lia).
  destruct (touch_loop_run (Z.to_nat ((n + 4095) / 4096)) g s r m (o / 4096) false Hok (mem_dirty r _ _ Hmem) Hm)
    as (t & s' & m' & Hrun & Hmem' & Hs' & Htr & Ht & Hrm); rewrite ?Z2Nat.id by done; try done.
  { by apply Z.div_pos. }
  { clear -Ho Hr Hn Hal. destruct (decide (n = 0)) as [->|]; [|wrap_lia]. change ((0 + 4095) / 4096) with 0. wrap_lia. }
  rewrite Z2Nat.id in Htr, Hrm by done. exists t, s', m'. split; [|split; [done|split; [done|split; [done|split; [naive_solver|done]]]]].
  unfold ensure_load_store. destruct (Z.leb_spec 0 o); [|lia]. run (eq_refl : lift (assertion true) s = Ok (tt, s)).
  run (get_mapping_run _ _ _ Hm). change vm_page_size with 4096. rewrite !u64_small by lia.
  destruct (Z.ltb_spec (_size m) ((o + n + 4096 - 1) / 4096)); [wrap_lia|].
  replace (n + 4096 - 1) with (n + 4095) by lia. exact Hrun.
Qed.

Lemma touched_reached m m' s' i n k p :
  touched_run s' m m' i n → vec_elems (_backing_pages m) !! k = Some p → i ≤ Z.of_nat k < i + n →
  ∃ p', vec_elems (_backing_pages m') !! k = Some p' ∧ owned p'.
Proof. intros H Hp Hk. destruct (tr_page _ _ _ _ _ H k p Hp) as (p' & Hp' & Ho & _). exists p'. auto. Qed.

(** A page that is in the run, or that was there before, has a physical page
    afterwards. *)
Lemma touched_has m m' s' i n k :
  touched_run s' m m' i n → 0 ≤ i ≤ k → k < Z.of_nat (length (vec_elems (_backing_pages m))) →
  k < i + n ∨ has_page m k → has_page m' k.
Proof.
  intros H Hi Hk [Hn|(p & Hp & Ho)].
  - destruct (lookup_lt_is_Some_2 (vec_elems (_backing_pages m)) (Z.to_nat k)) as [p Hp]; [lia|].
    apply (touched_reached m m' s' i n _ p H Hp). lia.
  - destruct (tr_page _ _ _ _ _ H _ p Hp) as (p' & Hp' & _ & [->|(Hex & _)]); [by exists p|].
    destruct Ho as [Hx _]. by rewrite Hex in Hx.
Qed.

(** The bytes of the pages of [m] after [data] has been copied to offset [o]. *)
Record copied (g : am_ghost) (a : S) m (o : Z) (data : list Z) (a' : S) : Prop := {
  cp_in j b p : data !! j = Some b → vec_elems (_backing_pages m) !! Z.to_nat ((o + Z.of_nat j) / 4096) = Some p →
    am_byte a' (_ptr p) ((o + Z.of_nat j) mod 4096) = b;
  cp_out q x : am_frame g a q → 0 ≤ x < 4096 →
    (∀ j p, o ≤ j < o + Z.of_nat (length data) → vec_elems (_backing_pages m) !! Z.to_nat (j / 4096) = Some p → _ptr p = q → x ≠ j mod 4096) →
    am_byte a' q x = am_byte a q x;
}.

(** The pages are provided and the transfer is possible. *)
Record prepared (g : am_ghost) s (r : Z) m (o n : Z) (t : bool) s1 (m' : memory_mapping) : Prop := {
  pr_run : ensure_load_store r o n s = Ok (t, s1);
  pr_step : region_step g s r m' g s1;
  pr_touched : touched_run s1 m m' (o / 4096) ((n + 4095) / 4096);
  pr_dirty : vm_mem (Some r) g s1;
  pr_mem : vm_mem (if t then Some r else None) g s1;
  pr_transfer : am_transfer g (arch s1) (mapping_ptrs m') o n;
  pr_len : Z.of_nat (length (mapping_ptrs m')) = _size m;
  pr_user : _vmm_ctx s1 ≠ am_kernel (arch s1);
  pr_same : t = false → m' = m;
  pr_room : am_room (arch s) - (n + 4095) / 4096 ≤ am_room (arch s1);
}.

Lemma prepare_run g s r m o n :
  vm_inv g s → mappings s !! r = Some m → reachable m o n → 0 ≤ n → load_ready g s r m n →
  ∃ t s1 m', prepared g s r m o n t s1 m'.
Proof.
  intros [Hok Hmem] Hm Hrc Hn [Hrd Hk Hu Hsz Hroom]. destruct (ok_region_range _ _ Hok r m Hm) as [(_ & _ & Hn0 & _) Hlen].
  destruct (ensure_load_store_run g s r m o n Hok Hmem Hm Hrc Hn) as (t & s1 & m' & Hrun & Hmem1 & Hs1 & Htr & Ht & Hrm); [lia|].
  pose proof (region_step_lookup _ _ _ _ _ _ Hs1) as Hm1. destruct (tr_same _ _ _ _ _ Htr) as (Eb & En & _).
  pose proof (as_kept _ _ _ _ (vs_arch _ _ _ _ (rs_step _ _ _ _ _ _ Hs1))) as Hkp.
  exists t, s1, m'. split; try done.
  - destruct t; [done|by rewrite Ht].
  - apply (region_transfer (Some r) g s1 r m' o n); try done; rewrite ?En.
    + apply Hs1.
    + by apply Hkp.
    + by rewrite (kept_kernel _ _ _ Hkp).
    + done.
    + lia.
    + apply Hrc.
    + apply Hrc.
    + intros j Hj. pose proof (rc_last _ _ _ Hrc j Hj) as Hlast. pose proof (rc_off _ _ _ Hrc). pose proof (rc_range _ _ _ Hrc).
      by apply (touched_has m m' s1 (o / 4096) ((n + 4095) / 4096) (j / 4096) Htr); [clear Hlast; wrap_lia..|].
  - unfold mapping_ptrs. rewrite length_fmap, (tr_length _ _ _ _ _ Htr), Hlen. lia.
  - by rewrite (vs_ctx _ _ _ _ (rs_step _ _ _ _ _ _ Hs1)), (kept_kernel _ _ _ Hkp).
  - intros ->. specialize (Ht eq_refl). subst s1. rewrite Hm in Hm1. by injection Hm1.
Qed.

(** After the copy. *)
Lemma copied_mem g s r m o n t s1 m' g1 a' :
  prepared g s r m o n t s1 m' → am_transferred g (arch s1) (mapping_ptrs m') g1 a' →
  vm_mem (if t then Some r else None) g1 (set_arch a' s1).
Proof.
  intros Hp Hd. apply (arch_changed_mem _ g); [apply Hp|apply Hd|apply Hd|apply Hd| |apply (rs_ok _ _ _ _ _ _ (pr_step _ _ _ _ _ _ _ _ _ Hp))].
  intros v Hv. apply (ad_entry _ _ _ _ _ Hd); [apply (mem_ctx _ _ _ (pr_dirty _ _ _ _ _ _ _ _ _ Hp))|apply (pr_user _ _ _ _ _ _ _ _ _ Hp)|done].
Qed.

Lemma set_mapped_id m : _mapped m = true → set_mapped m true = m.
Proof. destruct m. cbn. by intros ->. Qed.

(** The region is mapped again when pages were added. *)
Lemma remap_run g s r m o n t s1 m' g1 a' :
  prepared g s r m o n t s1 m' → am_transferred g (arch s1) (mapping_ptrs m') g1 a' →
  r ∈ region_ptrs s → _mapped m = true → load_ready g s r m n →
  ∃ g' s', (if t then map_region r else mret tt) (set_arch a' s1) = Ok (tt, s') ∧
    region_step g1 (set_arch a' s1) r (set_mapped m' true) g' s' ∧ vm_mem None g' s' ∧
    am_room (arch s) - (n + 4095) / 4096 - 6 * _size m ≤ am_room (arch s').
Proof.
  intros Hp Hd Hr Hmp Hrd. pose proof (copied_mem _ _ _ _ _ _ _ _ _ _ _ Hp Hd) as Hmem2.
  destruct Hp as [_ Hs1 Htr _ _ _ El _ Hsame Hroom]. pose proof (region_step_lookup _ _ _ _ _ _ Hs1) as Hm1.
  destruct (tr_same _ _ _ _ _ Htr) as (Eb & En & _). pose proof (ad_room _ _ _ _ _ Hd) as Hr2. rewrite El in Hr2.
  pose proof (lr_room _ _ _ _ _ Hrd). assert (0 ≤ _size m) by (rewrite <- El; lia).
  assert (vm_ok (set_arch a' s1)) as Hok2 by apply arch_changed_ok, Hs1.
  destruct t.
  - destruct (map_region_run g1 (set_arch a' s1) r m' Hok2 Hmem2) as (g' & s' & Hmap & Hmem' & Hs' & Hroom'); [|done|cbn; rewrite En; lia|].
    { change (r ∈ region_ptrs s1). unfold region_ptrs. by rewrite (rs_regions _ _ _ _ _ _ Hs1). }
    cbn [arch set_arch] in Hroom'. rewrite En in Hroom'. exists g', s'. split_and!; try done. lia.
  - rewrite (Hsame eq_refl) in *. exists g1, (set_arch a' s1). rewrite (set_mapped_id m Hmp).
    split; [done|]. split; [by apply region_step_refl; [|apply Hd|]|]. split; [done|]. cbn [arch set_arch]. lia.
Qed.

(** ** Loading *)

(** What [load] leaves. *)
Record loaded (g : am_ghost) s (r : Z) m (a : Z) (data : list Z) (g' : am_ghost) (s' : vm) : Prop := {
  ld_inv : vm_inv g' s';
  ld_bytes j b : data !! j = Some b → vm_byte s' (a + Z.of_nat j) b;
  ld_zero v p : in_region m (v / 4096) → (a + Z.of_nat (length data) ≤ v ∨ v < a) →
    a / 4096 ≤ v / 4096 < a / 4096 + (Z.of_nat (length data) + 4095) / 4096 →
    vec_elems (_backing_pages m) !! Z.to_nat (v / 4096 - _base m / 4096) = Some p → _exists p = false → vm_byte s' v 0;
  ld_other v b : (a + Z.of_nat (length data) ≤ v ∨ v < a) → vm_byte s v b → vm_byte s' v b;
  ld_regions : _mapped_regions s' = _mapped_regions s;
  ld_mappings : ∃ m', mappings s' = <[r := m']> (mappings s) ∧ _base m' = _base m ∧ _size m' = _size m ∧ _perms m' = _perms m ∧ _cache_mode m' = _cache_mode m;
  ld_holes : holes s' = holes s ∧ _memory_holes s' = _memory_holes s;
  ld_ctx : _vmm_ctx s' = _vmm_ctx s;
  ld_ready : am_ready (arch s') ∧ am_kernel (arch s') = am_kernel (arch s);
  ld_ctxs c : am_ctx g c → am_ctx g' c;
  ld_entry c v : am_ctx g c → c ≠ _vmm_ctx s → c ≠ am_kernel (arch s) → user_page v →
    am_entry (arch s') c v = am_entry (arch s) c v;
  ld_room : am_room (arch s) - (Z.of_nat (length data) + 4095) / 4096 - 6 * _size m ≤ am_room (arch s');
}.


(** The call, before its effects on bytes are spelt out. *)
Lemma load_steps g s r m a data :
  vm_inv g s → region_for_address a s = Ok (Some r, s) → r ∈ region_ptrs s → mappings s !! r = Some m → _mapped m = true →
  in_region m (a / 4096) → reachable m (a - _base m) (Z.of_nat (length data)) →
  load_ready g s r m (Z.of_nat (length data)) → Forall (λ b, 0 ≤ b < 256) data →
  ∃ g1 g' s1 m' a' s', load a data s = Ok (tt, s') ∧ region_step g s r m' g s1 ∧
    touched_run s1 m m' ((a - _base m) / 4096) ((Z.of_nat (length data) + 4095) / 4096) ∧
    am_transferred g (arch s1) (mapping_ptrs m') g1 a' ∧ copied g (arch s1) m' (a - _base m) data a' ∧
    region_step g1 (set_arch a' s1) r (set_mapped m' true) g' s' ∧ vm_mem None g' s' ∧ vm_mem (Some r) g s1 ∧
    am_room (arch s) - (Z.of_nat (length data) + 4095) / 4096 - 6 * _size m ≤ am_room (arch s').
Proof.
  intros Hinv Hfa Hr Hm Hmp Hv Hrc Hrd Hb. pose proof Hinv as [Hok _]. pose proof (ok_region_range _ _ Hok r m Hm) as [Hrange _].
  pose proof Hrange as (_ & Hb0 & Hn0 & Hend). pose proof (rc_off _ _ _ Hrc). pose proof (rc_range _ _ _ Hrc).
  destruct (prepare_run g s r m (a - _base m) (Z.of_nat (length data)) Hinv Hm Hrc) as (t & s1 & m' & Hp); [lia|done|].
  destruct (am_load_law g (arch s1) (mapping_ptrs m') (a - _base m) data) as (g1 & a' & Hload & Hd & Hin & Hout); [apply Hp|done|].
  destruct (remap_run _ _ _ _ _ _ _ _ _ _ _ Hp Hd Hr Hmp Hrd) as (g' & s' & Hmap & Hs' & Hmem' & Hroom).
  destruct Hp as [Hrun Hs1 Htr Hdirty _ _ El _ _ _]. rewrite El in Hload. destruct (tr_same _ _ _ _ _ Htr) as (_ & En & _).
  exists g1, g', s1, m', a', s'. split.
  - unfold load. run Hfa. run (get_mapping_run _ _ _ Hm). rewrite s64_small by lia.
    assert (mapping_load r (a - _base m) data s = Ok (t, set_arch a' s1)) as Hml; [|by run Hml].
    unfold mapping_load. run Hrun. run (get_mapping_run _ _ _ (region_step_lookup _ _ _ _ _ _ Hs1)). rewrite En.
    unfold on_arch, zoom. cbv [mbind M_bind]. by rewrite Hload.
  - split; [done|]. split; [done|]. split; [done|]. split; [|done]. split.
    + intros j b p Hj Hp. apply (Hin j b); [done|]. by rewrite mapping_ptrs_lookup, Hp.
    + intros q x Hq Hx Hne'. apply Hout; [done..|]. intros j Hj. rewrite mapping_ptrs_lookup.
      intros (p & Hp & E)%fmap_Some. by apply (Hne' j p).
Qed.

(** A byte of an owned page, in the state after the region has been mapped. *)
Lemma mapped_byte g s r m g' s' v p b :
  vm_mem None g' s' → region_step g s r (set_mapped m true) g' s' → r ∈ region_ptrs s → in_region m (v / 4096) →
  vec_elems (_backing_pages m) !! Z.to_nat (v / 4096 - _base m / 4096) = Some p → owned p → am_frame g (arch s) (_ptr p) →
  am_byte (arch s) (_ptr p) (v mod 4096) = b → vm_byte s' v b.
Proof.
  intros Hmem Hs Hr Hv Hp Ho Hf <-. exists r, (set_mapped m true), p. split_and!; try done.
  - unfold region_ptrs. by rewrite (rs_regions _ _ _ _ _ _ Hs).
  - by eapply region_step_lookup.
  - apply (region_step_byte _ _ _ _ _ _ _ _ Hs); [done|apply Z.mod_pos_bound; lia].
Qed.

(** The pages of two addresses: the same page and the same offset only for the
    same address. *)
Lemma region_offset m v : range_ok (_base m) (_size m) → in_region m (v / 4096) →
  v / 4096 - _base m / 4096 = (v - _base m) / 4096 ∧ v mod 4096 = (v - _base m) mod 4096 ∧ 0 ≤ v - _base m < 4096 * _size m.
Proof. intros (Hb & ? & ? & ?) Hv. unfold in_region in Hv. wrap_lia. Qed.

Section loaded.
Context (g : am_ghost) (s : vm) (r : Z) (m : memory_mapping) (a : Z) (data : list Z).
Context (Hinv : vm_inv g s) (Hr : r ∈ region_ptrs s) (Hm : mappings s !! r = Some m) (Hv : in_region m (a / 4096)).
Context (Hrc : reachable m (a - _base m) (Z.of_nat (length data))) (c : Z).
Context (Hreach : ∀ j, a - _base m ≤ j < a - _base m + Z.of_nat (length data) →
  j / 4096 < (a - _base m) / 4096 + c ∨ has_page m (j / 4096)).
Context (g1 g' : am_ghost) (s1 s' : vm) (m' : memory_mapping) (a' : S).
Context (Hs1 : region_step g s r m' g s1).
Context (Htr : touched_run s1 m m' ((a - _base m) / 4096) c).
Context (Hd : am_transferred g (arch s1) (mapping_ptrs m') g1 a').
Context (Hcp : copied g (arch s1) m' (a - _base m) data a').
Context (Hs' : region_step g1 (set_arch a' s1) r (set_mapped m' true) g' s').
Context (Hmem' : vm_mem None g' s') (Hmem1 : vm_mem (Some r) g s1).
#[local] Set Default Proof Using "All".

Lemma loaded_range : range_ok (_base m) (_size m) ∧ length (vec_elems (_backing_pages m)) = Z.to_nat (_size m) ∧
  _base m' = _base m ∧ _size m' = _size m ∧ mappings s1 !! r = Some m' ∧ r ∈ region_ptrs (set_arch a' s1).
Proof.
  destruct Hinv as [Hok _]. destruct (ok_region_range _ _ Hok r m Hm). destruct (tr_same _ _ _ _ _ Htr) as (? & ? & _).
  split_and!; try done; [by eapply region_step_lookup|]. change (r ∈ region_ptrs s1). unfold region_ptrs.
  by rewrite (rs_regions _ _ _ _ _ _ Hs1).
Qed.

(** The pages that the copy reaches are owned. *)
Lemma loaded_owned j q :
  a - _base m ≤ j < a - _base m + Z.of_nat (length data) →
  vec_elems (_backing_pages m') !! Z.to_nat (j / 4096) = Some q → owned q.
Proof.
  intros Hj Hq. destruct loaded_range as (_ & Hlen & _).
  pose proof (Hreach j Hj) as Hlast. pose proof (rc_off _ _ _ Hrc). pose proof (rc_range _ _ _ Hrc).
  destruct (touched_has m m' s1 _ _ (j / 4096) Htr) as (q1 & Hq1 & Hoq1); [clear Hlast; wrap_lia..|done|]. congruence.
Qed.

(** A byte behind a page of the region that the copy has left alone. *)
Lemma loaded_kept v p b :
  in_region m (v / 4096) → (a + Z.of_nat (length data) ≤ v ∨ v < a) →
  vec_elems (_backing_pages m') !! Z.to_nat (v / 4096 - _base m / 4096) = Some p → owned p →
  am_byte (arch s1) (_ptr p) (v mod 4096) = b → vm_byte s' v b.
Proof.
  intros Hvr Hout Hp Ho Hb. destruct loaded_range as (Hrange & Hlen & Eb & En & Hm1 & Hr1).
  destruct (mem_frame _ _ _ Hmem1 r m' _ p Hm1 Hp Ho) as [Hf _].
  apply (mapped_byte g1 (set_arch a' s1) r m' g' s' v p); try done.
  - unfold in_region in *. by rewrite Eb, En.
  - by rewrite Eb.
  - by apply Hd.
  - cbn [arch set_arch]. rewrite <- Hb. apply (cp_out _ _ _ _ _ _ Hcp); [done|apply Z.mod_pos_bound; lia|].
    intros j q Hj Hq Eq Ex. destruct (region_offset m v Hrange Hvr) as (E1 & E2 & E3). rewrite E1 in Hp. rewrite E2 in Ex.
    destruct (mem_unique _ _ _ Hmem1 r m' _ q r m' _ p Hm1 Hq (loaded_owned j q Hj Hq) Hm1 Hp Ho Eq) as [_ Ei].
    pose proof (rc_off _ _ _ Hrc). wrap_lia.
Qed.

Lemma loaded_bytes j b : data !! j = Some b → vm_byte s' (a + Z.of_nat j) b.
Proof.
  intros Hj. pose proof (lookup_lt_Some _ _ _ Hj). destruct loaded_range as (Hrange & Hlen & Eb & En & Hm1 & Hr1).
  pose proof (rc_off _ _ _ Hrc). pose proof (rc_range _ _ _ Hrc). pose proof (Hreach (a - _base m + Z.of_nat j) ltac:(lia)) as Hlast.
  assert (in_region m ((a + Z.of_nat j) / 4096)) as Hvj by (apply in_region_addr; [done|lia]).
  destruct (region_offset m _ Hrange Hvj) as (E1 & E2 & _).
  replace (a + Z.of_nat j - _base m) with (a - _base m + Z.of_nat j) in * by lia.
  destruct (touched_has m m' s1 _ _ ((a - _base m + Z.of_nat j) / 4096) Htr) as (p & Hp & Ho); [clear Hlast; wrap_lia..|done|].
  destruct (mem_frame _ _ _ Hmem1 r m' _ p Hm1 Hp Ho) as [Hf _].
  apply (mapped_byte g1 (set_arch a' s1) r m' g' s' _ p); try done.
  - unfold in_region in *. by rewrite Eb, En.
  - by rewrite Eb, E1.
  - by apply Hd.
  - cbn [arch set_arch]. rewrite E2. by apply (cp_in _ _ _ _ _ _ Hcp).
Qed.

Lemma loaded_other v b : (a + Z.of_nat (length data) ≤ v ∨ v < a) → vm_byte s v b → vm_byte s' v b.
Proof.
  intros Hout (r0 & m0 & p & Hr0 & Hm0 & Hv0 & Hmp & Hp & Ho & Hb). destruct Hinv as [Hok Hmem].
  destruct (mem_frame _ _ _ Hmem r0 m0 _ p Hm0 Hp Ho) as [Hf0 _].
  assert (am_byte (arch s1) (_ptr p) (v mod 4096) = b) as Hb1.
  { rewrite <- Hb. apply (region_step_byte _ _ _ _ _ _ _ _ Hs1); [done|apply Z.mod_pos_bound; lia]. }
  destruct (decide (r0 = r)) as [->|Hne].
  - rewrite Hm in Hm0. injection Hm0 as <-. destruct (tr_page _ _ _ _ _ Htr _ p Hp) as (p' & Hp' & _ & [->|(Hex & _)]).
    + by apply (loaded_kept v p).
    + by destruct Ho as [Ho _]; rewrite Hex in Ho.
  - destruct loaded_range as (Hrange & Hlen & Eb & En & Hm1 & Hr1).
    assert (mappings s1 !! r0 = Some m0) as Hm01 by by rewrite (rs_mappings _ _ _ _ _ _ Hs1), lookup_insert_ne.
    exists r0, m0, p. split_and!; try done.
    + unfold region_ptrs. rewrite (rs_regions _ _ _ _ _ _ Hs'). cbn. by rewrite (rs_regions _ _ _ _ _ _ Hs1).
    + rewrite (rs_mappings _ _ _ _ _ _ Hs'), lookup_insert_ne by done. done.
    + pose proof (rs_step _ _ _ _ _ _ Hs1) as Hv1. pose proof (Z.mod_pos_bound v 4096 ltac:(lia)).
      destruct (mem_frame _ _ _ Hmem1 r0 m0 _ p Hm01 Hp Ho) as [Hf1 _].
      rewrite (region_step_byte _ _ _ _ _ _ _ _ Hs') by (done || by apply Hd). cbn [arch set_arch].
      rewrite (cp_out _ _ _ _ _ _ Hcp); [done..|]. intros j q Hj Hq Eq.
      by destruct (mem_unique _ _ _ Hmem1 r m' _ q r0 m0 _ p Hm1 Hq (loaded_owned j q Hj Hq) Hm01 Hp Ho Eq).
Qed.

Lemma loaded_zero v p :
  in_region m (v / 4096) → (a + Z.of_nat (length data) ≤ v ∨ v < a) →
  a / 4096 ≤ v / 4096 < a / 4096 + c →
  vec_elems (_backing_pages m) !! Z.to_nat (v / 4096 - _base m / 4096) = Some p → _exists p = false → vm_byte s' v 0.
Proof.
  intros Hvr Hout Hk Hp Hex. destruct loaded_range as (Hrange & _). destruct (region_offset m a Hrange Hv) as (Ea & _).
  destruct (tr_page _ _ _ _ _ Htr _ p Hp) as (p' & Hp' & Ho & Hz).
  assert (owned p') as Ho' by (apply Ho; unfold in_region in Hvr; lia). destruct Hz as [->|(_ & _ & Hz)].
  - by destruct Ho' as [E _]; rewrite Hex in E.
  - apply (loaded_kept v p'); try done. apply Hz. apply Z.mod_pos_bound. lia.
Qed.
End loaded.

Lemma load_run g s r m a data :
  vm_inv g s → region_for_address a s = Ok (Some r, s) → r ∈ region_ptrs s → mappings s !! r = Some m → _mapped m = true →
  in_region m (a / 4096) → reachable m (a - _base m) (Z.of_nat (length data)) →
  load_ready g s r m (Z.of_nat (length data)) → Forall (λ b, 0 ≤ b < 256) data →
  ∃ g' s', load a data s = Ok (tt, s') ∧ loaded g s r m a data g' s'.
Proof.
  intros Hinv Hfa Hr Hm Hmp Hv Hrc Hrd Hb.
  destruct (load_steps g s r m a data Hinv Hfa Hr Hm Hmp Hv Hrc Hrd Hb)
    as (g1 & g' & s1 & m' & a' & s' & Hrun & Hs1 & Htr & Hd & Hcp & Hs' & Hmem' & Hmem1 & Hroom).
  pose proof (rs_step _ _ _ _ _ _ Hs1) as [A1 C1 O1]. pose proof (rs_step _ _ _ _ _ _ Hs') as [A2 C2 O2]. cbn [arch set_arch _vmm_ctx] in A2, C2, O2.
  pose proof (as_kept _ _ _ _ A1) as K1. pose proof (as_kept _ _ _ _ A2) as K2.
  exists g', s'. split; [exact Hrun|]. split.
  - split; [apply Hs'|done].
  - eapply loaded_bytes; try done. apply Hrc.
  - eapply loaded_zero; try done. apply Hrc.
  - eapply loaded_other; try done. apply Hrc.
  - by rewrite (rs_regions _ _ _ _ _ _ Hs'), <- (rs_regions _ _ _ _ _ _ Hs1).
  - exists (set_mapped m' true). split; [|by destruct (tr_same _ _ _ _ _ Htr) as (? & ? & ? & ? & _)].
    rewrite (rs_mappings _ _ _ _ _ _ Hs'). cbn. by rewrite (rs_mappings _ _ _ _ _ _ Hs1), insert_insert_eq.
  - destruct (rs_holes _ _ _ _ _ _ Hs1), (rs_holes _ _ _ _ _ _ Hs'). cbn in *. split; congruence.
  - congruence.
  - split; [apply K2, Hd|]. by rewrite (kept_kernel _ _ _ K2), (ad_kernel _ _ _ _ _ Hd), (kept_kernel _ _ _ K1).
  - intros c Hc. by apply A2, Hd, A1.
  - intros c v Hc Hne1 Hne2 Hu. rewrite O2; [|by apply Hd, A1|congruence|done].
    rewrite (ad_entry _ _ _ _ _ Hd); [by apply O1|by apply A1|by rewrite (kept_kernel _ _ _ K1)|done].
  - done.
Qed.

(** C8. Loading data into the region that [region_for_address] finds for the
    address, and which contains it (at the base of a region that touches a lower
    one the lower one is found, which does not), when the data stays inside the region, the run of
    pages that [ensure_load_store] provides is allocated and every page the
    data reaches is in that run or has a physical page already (a range that
    starts inside a page may reach one page further than the run), with memory
    enough for the pages and tables, in a mapped region of an address space other than the kernel's: [load] returns, the
    bytes at the addresses from [a] on are those of the data, the rest of the
    pages it had to provide reads as zero, every other byte of the address
    space is unchanged, the invariant holds, and no other context but the
    kernel's has changed. *)
Theorem load_spec (g : am_ghost) (s : vm) (r : Z) (m : memory_mapping) (a : Z) (data : list Z) :
  vm_inv g s → region_for_address a s = Ok (Some r, s) → r ∈ region_ptrs s → mappings s !! r = Some m → _mapped m = true →
  in_region m (a / 4096) → reachable m (a - _base m) (Z.of_nat (length data)) →
  load_ready g s r m (Z.of_nat (length data)) → Forall (λ b, 0 ≤ b < 256) data →
  ∃ g' s', load a data s = Ok (tt, s') ∧ loaded g s r m a data g' s'.
Proof. apply load_run. Qed.

(** ** Storing *)

(** An address has one byte. *)
Lemma vm_byte_inj s v b b' : vm_ok s → vm_byte s v b → vm_byte s v b' → b = b'.
Proof.
  intros Hok (r & m & p & Hr & Hm & Hv & _ & Hp & _ & <-) (r' & m' & p' & Hr' & Hm' & Hv' & _ & Hp' & _ & <-).
  assert (r = r') as <- by by apply (region_unique s r r' m m' (v / 4096)). congruence.
Qed.

(** What [store] gives and leaves. *)
Record stored (g : am_ghost) s (a : Z) (data : list Z) (g' : am_ghost) (s' : vm) : Prop := {
  so_inv : vm_inv g' s';
  so_bytes j b : data !! j = Some b → vm_byte s' (a + Z.of_nat j) b;
  so_old j b : (j < length data)%nat → vm_byte s (a + Z.of_nat j) b → data !! j = Some b;
  so_other v b : vm_byte s v b → vm_byte s' v b;
  so_regions : _mapped_regions s' = _mapped_regions s;
  so_ctx : _vmm_ctx s' = _vmm_ctx s;
  so_ready : am_ready (arch s') ∧ am_kernel (arch s') = am_kernel (arch s);
}.

(** C9. Storing from the region that [region_for_address] finds for the
    address, under the conditions of loading (the region contains the address, the range
    stays inside it, and every page it reaches is in the allocated run
    that [ensure_load_store] provides or has a physical page): [store] returns as many
    bytes as asked for; they are the bytes of the address space, and zero where
    it had no page yet. No byte of the address space has changed and the
    invariant holds. *)
Theorem store_spec (g : am_ghost) (s : vm) (r : Z) (m : memory_mapping) (a : Z) (n : nat) :
  vm_inv g s → region_for_address a s = Ok (Some r, s) → r ∈ region_ptrs s → mappings s !! r = Some m → _mapped m = true →
  in_region m (a / 4096) → reachable m (a - _base m) (Z.of_nat n) → load_ready g s r m (Z.of_nat n) →
  ∃ data g' s', Vm.store a n s = Ok (Some data, s') ∧ length data = n ∧ stored g s a data g' s'.
Proof.
  intros Hinv Hfa Hr Hm Hmp Hv Hrc Hrd. pose proof Hinv as [Hok _]. pose proof (ok_region_range _ _ Hok r m Hm) as [Hrange Hlen].
  pose proof Hrange as (_ & Hb0 & Hn0 & Hend). pose proof (rc_off _ _ _ Hrc). pose proof (rc_range _ _ _ Hrc).
  destruct (prepare_run g s r m (a - _base m) (Z.of_nat n) Hinv Hm Hrc) as (t & s1 & m' & Hp); [lia|done|].
  destruct (am_store_law g (arch s1) (mapping_ptrs m') (a - _base m) n) as (g1 & a' & Hst & Hd & Hout); [apply Hp|].
  destruct (remap_run _ _ _ _ _ _ _ _ _ _ _ Hp Hd Hr Hmp Hrd) as (g' & s' & Hmap & Hs' & Hmem' & Hroom).
  destruct Hp as [Hrun Hs1 Htr Hdirty _ _ El _ _ _]. rewrite El in Hst. destruct (tr_same _ _ _ _ _ Htr) as (_ & En & _).
  set (data := _ <$> _) in Hst. assert (length data = n) as Hln by (subst data; rewrite length_fmap, length_seqZ; lia).
  assert (reachable m (a - _base m) (Z.of_nat (length (@nil Z)))) as Hrc0.
  { split; cbn [length]; [done|lia| |lia]. intros k p Hk. change ((Z.of_nat 0 + 4095) / 4096) with 0 in Hk. lia. }
  assert (copied g (arch s1) m' (a - _base m) [] a') as Hcp by (split; [done|intros q x Hq Hx _; by apply Hout]).
  assert (∀ v b, vm_byte s v b → vm_byte s' v b) as Hother.
  { intros v b. eapply (loaded_other g s r m a []); try done; [cbn; lia|]. cbn. lia. }
  assert (∀ j b, data !! j = Some b → vm_byte s' (a + Z.of_nat j) b) as Hin.
  { intros j b Hj. pose proof (lookup_lt_Some _ _ _ Hj) as Hjl. rewrite Hln in Hjl. subst data. rewrite list_lookup_fmap, lookup_seqZ_lt in Hj by lia.
    injection Hj as Hj. pose proof (rc_last _ _ _ Hrc (a - _base m + Z.of_nat j) ltac:(lia)) as Hlast.
    destruct (touched_has m m' s1 _ _ ((a - _base m + Z.of_nat j) / 4096) Htr) as (p & Hp & Ho); [clear Hlast; wrap_lia..|done|].
    rewrite mapping_ptrs_lookup, Hp in Hj. cbn in Hj.
    assert (in_region m ((a + Z.of_nat j) / 4096)) as Hvj by (apply in_region_addr; [done|lia]).
    destruct (region_offset m _ Hrange Hvj) as (E1 & E2 & _). replace (a + Z.of_nat j - _base m) with (a - _base m + Z.of_nat j) in E1, E2 by lia.
    eapply (loaded_kept g s r m a []); try done; [cbn; lia|cbn; lia|by rewrite E1|by rewrite E2]. }
  exists data, g', s'. split; [|split; [done|split; try done]].
  - unfold Vm.store. run Hfa. run (get_mapping_run _ _ _ Hm). rewrite s64_small by lia.
    assert (mapping_store r (a - _base m) n s = Ok ((t, data), set_arch a' s1)) as Hms; [|run Hms; cbn [fst snd]; by run Hmap].
    unfold mapping_store. run Hrun. run (get_mapping_run _ _ _ (region_step_lookup _ _ _ _ _ _ Hs1)). rewrite En.
    unfold on_arch, zoom. cbv [mbind M_bind]. by rewrite Hst.
  - split; [apply Hs'|done].
  - intros j b Hj Hb. destruct (lookup_lt_is_Some_2 data j Hj) as [c Hc]. rewrite Hc. f_equal.
    eapply (vm_byte_inj s'); [apply Hs'|by apply Hin|by apply Hother].
  - by rewrite (rs_regions _ _ _ _ _ _ Hs'), <- (rs_regions _ _ _ _ _ _ Hs1).
  - pose proof (vs_ctx _ _ _ _ (rs_step _ _ _ _ _ _ Hs')) as E. cbn in E. by rewrite E, (vs_ctx _ _ _ _ (rs_step _ _ _ _ _ _ Hs1)).
  - pose proof (as_kept _ _ _ _ (vs_arch _ _ _ _ (rs_step _ _ _ _ _ _ Hs1))) as K1.
    pose proof (as_kept _ _ _ _ (vs_arch _ _ _ _ (rs_step _ _ _ _ _ _ Hs'))) as K2. cbn in K2.
    split; [apply K2, Hd|]. by rewrite (kept_kernel _ _ _ K2), (ad_kernel _ _ _ _ _ Hd), (kept_kernel _ _ _ K1).
Qed.
End load.
