(* ===== verification/VmFit.v ===== *)
(** * Address spaces that never ran out of order

    As long as nothing is destroyed every hole is as long as it can be: a run
    of free pages lies in one hole, so that [allocate_at] succeeds for every
    free range. *)
From S2P Require Import Prelude Frigg Arch Vm VmSpace VmTables VmProps.
From stdpp Require Import base numbers option gmap list.
#[local] Open Scope Z_scope.

Section fit.
Context {S : Type} `{!ArchMM S}.
Context {L : Type} `{!FrgList L}.
Context {V : Type → Type} `{!FrgVector V}.
Context `{!FrgListLaws L} `{!FrgVectorLaws V} `{!ArchMMLaws S}.

Notation vm := (vm S L V).
Notation memory_mapping := (memory_mapping V).
Implicit Types (s : vm) (m : memory_mapping) (h : memory_hole).

Definition in_hole h (j : Z) : Prop := h_base h / 4096 ≤ j < h_base h / 4096 + h_size h.

Record tidy s : Prop := {
  td_size p h : p ∈ hole_ptrs s → holes s !! p = Some h → 0 < h_size h;
  td_max p h j : p ∈ hole_ptrs s → holes s !! p = Some h → in_hole h j → free_cover s (j + 1) ≠ 0%nat → in_hole h (j + 1);
}.

Lemma rng_hole h j : rng (h_base h) (h_size h) j = 1%nat ↔ in_hole h j.
Proof. unfold rng, in_hole. case_decide; naive_solver. Qed.

#[local] Instance cover_dec (f : Z → option (Z * Z)) j p :
  Decision (match f p with Some (b, n) => rng b n j = 1%nat | None => False end).
Proof. destruct (f p) as [[]|]; apply _. Defined.

Lemma cover_some (f : Z → option (Z * Z)) l j :
  cover f l j ≠ 0%nat → ∃ p b n, p ∈ l ∧ f p = Some (b, n) ∧ rng b n j = 1%nat.
Proof.
  intros H. destruct (decide (Exists (λ p, match f p with Some (b, n) => rng b n j = 1%nat | None => False end) l)) as [He|Hn].
  - apply Exists_exists in He as (p & Hp & Hr). destruct (f p) as [[b n]|] eqn:E; [by exists p, b, n|done].
  - exfalso. apply H, cover_zero. intros p b n Hp E. unfold rng. case_decide as Hd; [|done]. exfalso. apply Hn, Exists_exists.
    exists p. split; [done|]. rewrite E. unfold rng. by rewrite decide_True.
Qed.

Lemma free_in_hole s j : free_cover s j ≠ 0%nat → ∃ p h, p ∈ hole_ptrs s ∧ holes s !! p = Some h ∧ in_hole h j.
Proof.
  intros (p & b & n & Hp & Hh & Hr)%cover_some. unfold hole_at in Hh. destruct (holes s !! p) as [h|] eqn:E; [|done].
  injection Hh as <- <-. exists p, h. by rewrite <- rng_hole.
Qed.

Lemma in_hole_free s p h j : p ∈ hole_ptrs s → holes s !! p = Some h → in_hole h j → free_cover s j ≠ 0%nat.
Proof.
  intros Hp Hh Hj. apply rng_hole in Hj. pose proof (cover_elem (hole_at s) p _ j _ _ Hp (hole_at_some _ _ _ Hh)).
  unfold free_cover. lia.
Qed.

(** A free range lies in one hole. *)
Lemma tidy_finds s b n :
  vm_ok s → tidy s → range_ok b n → 0 < n → (∀ j, b / 4096 ≤ j < b / 4096 + n → free_cover s j ≠ 0%nat) →
  ∃ p h, p ∈ hole_ptrs s ∧ holes s !! p = Some h ∧ contains h b n.
Proof.
  intros Hok Ht (Hb & ? & ? & ?) Hn Hf. destruct (free_in_hole s (b / 4096)) as (p & h & Hp & Hh & Hj); [apply Hf; lia|].
  exists p, h. split_and!; [done|done|]. destruct (ok_hole_range _ _ Hok p h Hh) as (Hm & ? & ? & ?).
  assert (∀ k : nat, Z.of_nat k < n → in_hole h (b / 4096 + Z.of_nat k)) as Hall.
  { intros k. induction k as [|k IH]; intros Hk; [by rewrite Z.add_0_r|].
    replace (b / 4096 + Z.of_nat (Datatypes.S k)) with (b / 4096 + Z.of_nat k + 1) by lia.
    apply (td_max _ Ht p); [done|done|apply IH; lia|apply Hf; lia]. }
  specialize (Hall (Z.to_nat (n - 1)) ltac:(lia)). unfold in_hole, contains in *. wrap_lia.
Qed.

(** ** Merging finds nothing to do *)
Lemma tidy_distance s p q hp hq :
  vm_ok s → tidy s → p ∈ hole_ptrs s → q ∈ hole_ptrs s → holes s !! p = Some hp → holes s !! q = Some hq →
  distance_between (h_base hp) (h_size hp) (h_base hq) =? 0 = false.
Proof.
  intros Hok Ht Hp Hq Hhp Hhq. destruct (_ =? 0) eqn:E; [|done]. exfalso.
  pose proof (ok_hole_range _ _ Hok _ _ Hhp) as Hrp. pose proof (ok_hole_range _ _ Hok _ _ Hhq) as Hrq.
  pose proof (distance_zero _ _ _ _ Hrp Hrq E) as Hd. pose proof (td_size _ Ht p hp Hp Hhp). pose proof (td_size _ Ht q hq Hq Hhq).
  destruct Hrp as (? & ? & ? & ?).
  assert (in_hole hp (h_base hp / 4096 + h_size hp - 1 + 1)) as Hin; [|unfold in_hole in Hin; lia].
  apply (td_max _ Ht p hp _ Hp Hhp); [unfold in_hole; lia|]. eapply (in_hole_free s q hq); [done|done|].
  unfold in_hole. rewrite Hd. wrap_lia.
Qed.

Lemma tidy_merge_hole s l1 p l2 : vm_ok s → tidy s → hole_ptrs s = l1 ++ p :: l2 → merge_hole p s = Ok (tt, s).
Proof.
  intros Hok Ht Hl. destruct (holes_split_notin _ _ _ _ _ Hok Hl) as [Hni _].
  assert (p ∈ hole_ptrs s) as Hp by (rewrite Hl; set_solver). destruct (ok_holes _ _ Hok p Hp) as [h Hh].
  unfold merge_hole. run (eq_refl : gets _memory_holes s = Ok (_memory_holes s, s)).
  rewrite (fl_prev_elems _ l1 p l2), (fl_next_elems _ l1 p l2) by done.
  assert (merge_prev p (last l1) s = Ok (tt, s)) as H1.
  { destruct (last l1) as [q|] eqn:E; [|done]. apply last_Some in E as [l0 ->].
    assert (q ∈ hole_ptrs s) as Hq by (rewrite Hl; set_solver). destruct (ok_holes _ _ Hok q Hq) as [hq Hhq].
    cbn [merge_prev]. run (get_hole_run _ _ _ Hhq). run (get_hole_run _ _ _ Hh). by rewrite (tidy_distance s q p). }
  run H1. destruct l2 as [|q l2]; [done|]. cbn [head merge_next].
  assert (q ∈ hole_ptrs s) as Hq by (rewrite Hl; set_solver). destruct (ok_holes _ _ Hok q Hq) as [hq Hhq].
  run (get_hole_run _ _ _ Hh). run (get_hole_run _ _ _ Hhq). by rewrite (tidy_distance s p q).
Qed.

Lemma tidy_merge_from fuel s l1 l2 :
  vm_ok s → tidy s → hole_ptrs s = l1 ++ l2 → (length l2 ≤ fuel)%nat → merge_from fuel (head l2) s = Ok (tt, s).
Proof.
  intros Hok Ht. revert l1 l2. induction fuel as [|fuel IH]; intros l1 [|p l2] Hl Hlen; try done; [cbn in Hlen; lia|].
  cbn [head merge_from]. run (tidy_merge_hole s l1 p l2 Hok Ht Hl). run (eq_refl : gets _memory_holes s = Ok (_memory_holes s, s)).
  destruct (holes_split_notin _ _ _ _ _ Hok Hl) as [Hni _]. rewrite (fl_next_elems _ l1 p l2) by done.
  apply (IH (l1 ++ [p])); [by rewrite Hl, <- app_assoc|cbn in Hlen; lia].
Qed.

Lemma tidy_merge s : vm_ok s → tidy s → merge_holes s = Ok (tt, s).
Proof. intros Hok Ht. by apply (tidy_merge_from _ s [] (hole_ptrs s)). Qed.

(** ** Cutting keeps the holes long *)
Definition piece h (b n : Z) hq : Prop :=
  0 < h_size hq ∧ ((∀ j, in_hole hq j ↔ in_hole h j ∧ j < b / 4096) ∨ (∀ j, in_hole hq j ↔ in_hole h j ∧ b / 4096 + n ≤ j)).

Definition cut_from s (t : Z) h (b n : Z) s' : Prop := ∀ q hq,
  q ∈ hole_ptrs s' → holes s' !! q = Some hq →
  (q ∈ hole_ptrs s ∧ holes s !! q = Some hq) ∨ piece h b n hq.

Lemma cut_tidy s t h b n s' :
  vm_ok s → tidy s → t ∈ hole_ptrs s → holes s !! t = Some h → 0 < n → cut_from s t h b n s' →
  (∀ j, free_cover s j = free_cover s' j + rng b n j)%nat → tidy s'.
Proof.
  intros Hok Ht Hin Hh Hn Hcut Hfree. split.
  - intros q hq Hq Hhq. destruct (Hcut q hq Hq Hhq) as [[Hq0 Hh0]|[? _]]; [by eapply td_size|done].
  - intros q hq j Hq Hhq Hj Hf. pose proof (Hfree (j + 1)) as Hfj. pose proof (ok_partition _ _ Hok (j + 1)) as Hp.
    assert (¬ (b / 4096 ≤ j + 1 < b / 4096 + n)) as Hout.
    { intros Hr. unfold rng in Hfj. rewrite decide_True in Hfj by done. case_decide; lia. }
    assert (free_cover s (j + 1) ≠ 0%nat) as Hf0 by lia.
    destruct (Hcut q hq Hq Hhq) as [[Hq0 Hh0]|[_ [Hpc|Hpc]]].
    + by apply (td_max _ Ht q hq j).
    + apply Hpc in Hj as [Hj Hjb]. apply Hpc. split; [by apply (td_max _ Ht t h j)|lia].
    + apply Hpc in Hj as [Hj Hjb]. apply Hpc. split; [by apply (td_max _ Ht t h j)|lia].
Qed.

Lemma piece_below h b n : range_ok (h_base h) (h_size h) → b mod 4096 = 0 → contains h b n → 0 ≤ n → h_base h < b →
  piece h b n (Hole (h_base h) (b / 4096 - h_base h / 4096)).
Proof.
  intros (Hm & ? & ? & ?) Hb [Hc1 Hc2] Hn Hlt. split; cbn; [wrap_lia|]. left. intros j. unfold in_hole. cbn. wrap_lia.
Qed.

Lemma piece_above h b n : range_ok (h_base h) (h_size h) → b mod 4096 = 0 → contains h b n → 0 ≤ n →
  b + n * 4096 < h_base h + h_size h * 4096 →
  piece h b n (Hole (b + n * 4096) (h_base h / 4096 + h_size h - (b / 4096 + n))).
Proof.
  intros (Hm & ? & ? & ?) Hb [Hc1 Hc2] Hn Hlt. split; cbn; [wrap_lia|]. right. intros j. unfold in_hole. cbn. wrap_lia.
Qed.

Lemma cut_hole_pieces s t h b n s' :
  vm_ok s → t ∈ hole_ptrs s → holes s !! t = Some h → range_ok b n → 0 < n → contains h b n →
  cut_hole t h b n s = Ok (tt, s') → cut_from s t h b n s'.
Proof.
  intros Hok Hin Ht Hrb Hn Hc. pose proof (ok_hole_range _ _ Hok _ _ Ht) as Hr.
  pose proof Hc as [Hc1 Hc2]. pose proof Hr as (Hm & ? & ? & ?). pose proof Hrb as (Hmb & ? & ? & ?).
  unfold cut_hole. rewrite (end_of_small b n), (end_of_small (h_base h) (h_size h)) by done.
  destruct ((b =? h_base h) && (n =? h_size h)) eqn:E1.
  { intros [= <-] q hq Hq. cbn. intros [_ Hhq]%lookup_delete_Some. left. split; [|done].
    pose proof (fl_erase_perm _ _ Hin) as Hl. unfold hole_ptrs in *. rewrite Hl. cbn in Hq. set_solver. }
  destruct (Z.eqb_spec b (h_base h)) as [->|Hb].
  { intros [= <-] q hq Hq. cbn in *. intros [[<- <-]|[_ Hhq]]%lookup_insert_Some; [right|by left].
    destruct (Z.eqb_spec n (h_size h)); [done|]. rewrite end_of_small, u64_small by (done || lia).
    replace (h_size h - n) with (h_base h / 4096 + h_size h - (h_base h / 4096 + n)) by lia.
    apply piece_above; done || lia. }
  destruct (Z.eqb_spec (b + n * 4096) (h_base h + h_size h * 4096)) as [He|He].
  { intros [= <-] q hq Hq. cbn in *. intros [[<- <-]|[_ Hhq]]%lookup_insert_Some; [right|by left].
    rewrite u64_small by lia. replace (h_size h - n) with (b / 4096 - h_base h / 4096) by wrap_lia.
    apply piece_below; done || lia. }
  rewrite (u64_small (b - h_base h)) by lia. change vm_page_size with 4096.
  replace ((b - h_base h) / 4096) with (b / 4096 - h_base h / 4096) by wrap_lia.
  cbv [mbind M_bind new_hole put_hole fresh modify mret M_ret]. intros [= <-] q hq Hq. cbn in *.
  assert (next_obj s ≠ t) as Hnt by (intros E; destruct (ok_hole_ptr _ _ Hok t); [eauto|lia]).
  intros [[<- <-]|[Hqt [[<- <-]|[Hqn Hhq]]%lookup_insert_Some]]%lookup_insert_Some; [right|right|left].
  - rewrite u64_small by wrap_lia.
    replace (h_size h - n - (b / 4096 - h_base h / 4096)) with (h_base h / 4096 + h_size h - (b / 4096 + n)) by lia.
    apply piece_above; done || lia.
  - apply piece_below; done || lia.
  - split; [|done]. unfold hole_ptrs in *. cbn in Hq. rewrite fl_insert_perm in Hq by done. set_solver.
Qed.

(** ** Binding and placing *)

(** What comes after the cut leaves the holes alone. *)
Definition holes_are (H : gmap Z memory_hole) (l : L) s : Prop := holes s = H ∧ _memory_holes s = l.

Lemma keeps_holes_arch {A} H l (o : M S A) : keeps (holes_are H l) (on_arch o).
Proof. intros s a s' Hs. unfold on_arch, zoom. destruct (o (arch s)) as [[? ?]| | |]; [intros [= <- <-]; exact Hs|done..]. Qed.

Lemma keeps_pages_loop H l f : (∀ i p, keeps (holes_are H l) (f i p)) →
  ∀ ps i (v : V backing_page), keeps (holes_are H l) (pages_loop f i ps v).
Proof. intros Hf ps. induction ps as [|p ps IH]; intros i v; cbn [pages_loop]; [apply keeps_ret|]. apply keeps_bind; [apply Hf|intros ?; apply IH]. Qed.

#[local] Hint Resolve keeps_holes_arch keeps_pages_loop : keeps.

Lemma keeps_new_mapping H l b n : keeps (holes_are H l) (new_mapping b n).
Proof. intros s a s' Hs [= <- <-]. exact Hs. Qed.
Lemma keeps_put_region H l r : keeps (holes_are H l) (put_region r).
Proof.
  unfold put_region, find_succ_mapping, get_mapping, put_mapping. apply keeps_bind.
  - apply keeps_bind; [apply keeps_bind; auto with keeps|]. intros m. apply keeps_bind; [apply keeps_gets|]. intros rl.
    generalize (@None Z), PTRDIFF_MAX. induction (fl_elems rl) as [|p ps IH]; intros c best; cbn [find_succ]; [apply keeps_ret|].
    unfold mapping_range, get_mapping. repeat first [apply IH | keeps_step].
  - intros [p|]; apply keeps_modify; done.
Qed.
Lemma keeps_put_mapping H l r m : keeps (holes_are H l) (put_mapping r m).
Proof. by apply keeps_modify. Qed.
Lemma keeps_get_mapping H l r : keeps (holes_are H l) (get_mapping r).
Proof. unfold get_mapping. repeat keeps_step. Qed.
#[local] Hint Resolve keeps_put_mapping keeps_get_mapping : keeps.

Lemma keeps_place H l r perms cache : keeps (holes_are H l) (mapping_allocate r perms cache;; map_region r;; m ← get_mapping r; mret (_base m)).
Proof.
  unfold mapping_allocate, for_pages, map_region, map_body. repeat keeps_step.
  apply keeps_each. intros i. repeat keeps_step.
Qed.

Lemma keeps_bind_tail {A} (k : Z → A) H l b n : keeps (holes_are H l) (r ← new_mapping b n; put_region r;; mret (k r)).
Proof. apply keeps_bind; [apply keeps_new_mapping|]. intros r. apply keeps_bind; [apply keeps_put_region|]. intros _. apply keeps_ret. Qed.

Lemma bind_exact_tidy s b n :
  vm_ok s → tidy s → range_ok b n → 0 < n → (∀ j, b / 4096 ≤ j < b / 4096 + n → free_cover s j ≠ 0%nat) →
  ∃ r s', bind_exact b n s = Ok (Some r, s') ∧ vm_ok s' ∧ bound s r b n s' ∧ tidy s'.
Proof.
  intros Hok Ht Hr Hn Hf. destruct (bind_exact_run _ s b n Hok Hr Hn) as (s1 & Hm & _ & _ & Hcase).
  rewrite (tidy_merge s Hok Ht) in Hm. injection Hm as <-.
  destruct (tidy_finds s b n Hok Ht Hr Hn Hf) as (p & h & Hp & Hh & Hc).
  destruct Hcase as [[_ Hno]|(p' & h' & r & s' & _ & _ & _ & Hrun & Hok' & Hbd)]; [by destruct (Hno p h Hp Hh)|].
  exists r, s'. split_and!; [done..|].
  unfold bind_exact in Hrun. destruct (Z.eqb_spec n 0); [lia|]. destruct (Z.eqb_spec b 0); [unfold range_ok in Hr; lia|].
  rewrite (bind_run _ _ _ _ _ (eq_refl : lift (assertion (negb false)) s = Ok (tt, s))) in Hrun.
  rewrite (bind_run _ _ _ _ _ (eq_refl : lift (assertion (negb false)) s = Ok (tt, s))) in Hrun.
  rewrite (bind_run _ _ _ _ _ (tidy_merge s Hok Ht)) in Hrun.
  rewrite (bind_run _ _ _ _ _ (eq_refl : gets _memory_holes s = Ok (_memory_holes s, s))) in Hrun.
  destruct (find_target_run _ s b n (fl_elems (_memory_holes s)) Hok Hr) as [[Hft _]|(t & ht & Hft & Hin & Hht & Hct)]; [done| |];
    rewrite (bind_run _ _ _ _ _ Hft) in Hrun; [done|].
  rewrite (bind_run _ _ _ _ _ (get_hole_run _ _ _ Hht)) in Hrun.
  apply bind_M_Ok in Hrun as ([] & s2 & Hcut & Hrun).
  pose proof (cut_hole_pieces s t ht b n s2 Hok Hin Hht Hr Hn Hct Hcut) as Hpc.
  destruct (keeps_bind_tail Some _ _ _ _ _ _ _ (conj eq_refl eq_refl : holes_are (holes s2) (_memory_holes s2) s2) Hrun) as [E1 E2].
  assert (cut_from s t ht b n s') as Hpc4.
  { intros q hq. unfold hole_ptrs. rewrite E1, E2. apply Hpc. }
  eapply (cut_tidy s t ht b n); try done. apply Hbd.
Qed.

Lemma place_tidy g s r b n s1 perms cache :
  vm_ok s → vm_ok s1 → vm_mem None g s → bound s r b n s1 → tidy s1 →
  ∃ s', (mapping_allocate r perms cache;; map_region r;; m ← get_mapping r; mret (_base m)) s1 = Ok (b, s') ∧
    placed g s r b n perms cache (λ _, BackingPage 0 false true) g s' ∧ arch s' = arch s ∧ tidy s' ∧
    (∀ j, free_cover s j = free_cover s' j + rng b n j)%nat.
Proof.
  intros Hok Hok1 Hmem Hbd Ht1.
  destruct (place_allocated g s r b n s1 perms cache Hok Hok1 Hmem Hbd) as (s2 & Hrun' & Hpl & Ha).
  destruct (keeps_place _ _ _ _ _ _ _ _ (conj eq_refl eq_refl : holes_are (holes s1) (_memory_holes s1) s1) Hrun') as [E1 E2].
  assert (∀ p, hole_at s2 p = hole_at s1 p) as Ehat by (intros p; unfold hole_at; by rewrite E1).
  assert (∀ j, free_cover s2 j = free_cover s1 j) as Efree.
  { intros j. unfold free_cover, hole_ptrs. rewrite E2. by apply cover_ext. }
  exists s2. split_and!; [done|done|done| |].
  - split.
    + intros p h. unfold hole_ptrs. rewrite E1, E2. apply (td_size _ Ht1).
    + intros p h j. unfold hole_ptrs. rewrite E1, E2, Efree. apply (td_max _ Ht1).
  - intros j. rewrite Efree. apply Hbd.
Qed.

Lemma allocate_at_tidy g s b n perms cache :
  vm_inv g s → tidy s → range_ok b n → 0 < n → (∀ j, b / 4096 ≤ j < b / 4096 + n → free_cover s j ≠ 0%nat) →
  ∃ r s', allocate_at b n perms cache s = Ok (b, s') ∧
    placed g s r b n perms cache (λ _, BackingPage 0 false true) g s' ∧ arch s' = arch s ∧ tidy s' ∧
    (∀ j, free_cover s j = free_cover s' j + rng b n j)%nat.
Proof.
  intros [Hok Hmem] Ht Hr Hn Hf. destruct (bind_exact_tidy s b n Hok Ht Hr Hn Hf) as (r & s1 & Hrun & Hok1 & Hbd & Ht1).
  destruct (place_tidy g s r b n s1 perms cache Hok Hok1 Hmem Hbd Ht1) as (s2 & Hrun' & Hres).
  exists r, s2. split; [unfold allocate_at; by run Hrun|exact Hres].
Qed.

(** [allocate] takes the end of a hole. *)
Lemma allocate_tidy g s n perms cache :
  vm_inv g s → tidy s → 0 < n → (∃ p h, fits s n p h) →
  ∃ b r s', allocate n perms cache s = Ok (b, s') ∧
    placed g s r b n perms cache (λ _, BackingPage 0 false true) g s' ∧ arch s' = arch s ∧ tidy s' ∧
    (∀ j, free_cover s j = free_cover s' j + rng b n j)%nat.
Proof.
  intros [Hok Hmem] Ht Hn (p0 & h0 & Hfit). unfold allocate.
  destruct (find_free_hole_run _ s n Hok) as [[Hf Hno]|(p & h & Hf & (Hp & Hh & Hsz) & _)]; [by apply Hno in Hfit|].
  run Hf. destruct (bind_hole_run _ s p h n Hok Hp Hh) as (r & s1 & Hrun & Hok1 & Hbd); [lia|]. run Hrun.
  pose proof (ok_hole_range _ _ Hok _ _ Hh) as Hr. pose proof Hr as (Hm & ? & ? & ?).
  assert (tidy s1) as Ht1.
  { unfold bind_hole in Hrun. rewrite (bind_run _ _ _ _ _ (get_hole_run _ _ _ Hh)) in Hrun.
    rewrite (proj2 (Z.leb_le n (h_size h))) in Hrun by lia.
    rewrite (bind_run _ _ _ _ _ (eq_refl : lift (assertion true) s = Ok (tt, s))) in Hrun.
    set (b := h_base h + (h_size h - n) * 4096) in *.
    assert (∃ s2, cut_from s p h b n s2 ∧ holes s1 = holes s2 ∧ _memory_holes s1 = _memory_holes s2) as (s2 & Hpc & E1 & E2).
    { destruct (Z.eqb_spec (h_size h) n) as [E|Hne].
      - destruct (drop_hole_step _ s p h Hok Hp Hh) as (Hd & _). rewrite (bind_run _ _ _ _ _ Hd) in Hrun.
        eexists. split; [|by apply (keeps_bind_tail _ _ _ _ _ _ _ _ (conj eq_refl eq_refl) Hrun)].
        intros q hq Hq. cbn. intros [_ Hhq]%lookup_delete_Some. left. split; [|done].
        pose proof (fl_erase_perm _ _ Hp) as Hl. unfold hole_ptrs in *. rewrite Hl. cbn in Hq. set_solver.
      - rewrite (bind_run _ _ _ _ _ (eq_refl : put_hole p (Hole (h_base h) (h_size h - n)) s = Ok (tt, _))) in Hrun.
        eexists. split; [|by apply (keeps_bind_tail _ _ _ _ _ _ _ _ (conj eq_refl eq_refl) Hrun)].
        intros q hq Hq. cbn. intros [[<- <-]|[_ Hhq]]%lookup_insert_Some; [right|by left].
        replace (h_size h - n) with (b / 4096 - h_base h / 4096) by (subst b; wrap_lia).
        apply piece_below; [done|subst b; wrap_lia|unfold contains; subst b; lia|lia|subst b; lia]. }
    apply (cut_tidy s p h b n s1); try done; [|apply Hbd].
    intros q hq. unfold hole_ptrs. rewrite E1, E2. apply Hpc. }
  destruct (place_tidy g s r _ n s1 perms cache Hok Hok1 Hmem Hbd Ht1) as (s2 & Hrun' & Hres). eauto.
Qed.

(** The constructor leaves one hole. *)
Lemma tidy_start s h : holes s = {[1 := h]} → hole_ptrs s = [1] → 0 < h_size h → tidy s.
Proof.
  intros E1 E2 Hh. assert (∀ p h', p ∈ hole_ptrs s → holes s !! p = Some h' → h' = h) as Hone.
  { intros p h' Hp. rewrite E2 in Hp. apply list_elem_of_singleton in Hp as ->. rewrite E1, lookup_singleton_eq. by intros [= ->]. }
  split; intros p h'; intros; rewrite (Hone p h') in * by done; [done|].
  destruct (free_in_hole s (j + 1)) as (q & hq & Hq & Hhq & Hj); [done|]. by rewrite (Hone q hq) in Hj.
Qed.

(** Loading leaves the holes alone. *)
Lemma tidy_same s s' : holes s' = holes s → _memory_holes s' = _memory_holes s → tidy s → tidy s' ∧ ∀ j, free_cover s' j = free_cover s j.
Proof.
  intros E1 E2 Ht. assert (∀ j, free_cover s' j = free_cover s j) as Ef.
  { intros j. unfold free_cover, hole_ptrs. rewrite E2. apply cover_ext. intros p _. unfold hole_at. by rewrite E1. }
  split; [|done]. split.
  - intros p h. unfold hole_ptrs. rewrite E1, E2. apply Ht.
  - intros p h j. unfold hole_ptrs. rewrite E1, E2, Ef. apply (td_max _ Ht).
Qed.
End fit.
