(* ===== verification/Elf.v ===== *)
(** * The loader of programs (loader/elf64.cpp, loader/elf64.h, loader/elf_common.h)

    The file is in kernel memory; the segments go into the address space of a
    thread. A field of a header is read where the code reads it, as a
    little-endian number. *)
From S2P Require Import Prelude Frigg CString Arch Vmm Vm VmSpace VmTables VmProps VmLoad VmFit.
From stdpp Require Import base numbers option gmap list.
#[local] Open Scope Z_scope.

Definition ELF_IDENT_CLASS : Z := 4.
Definition ELF_IDENT_DATA : Z := 5.
(** The characters of [ELF_MAGIC]. *)
Definition ELF_MAGIC : list Z := [127; 69; 76; 70; 0].
Definition ELF_CLASS_64 : Z := 2.
Definition ELF_DATA_LSB : Z := 1.
Definition ELF_TYPE_EXEC : Z := 2.
Definition ELF_VER_CURRENT : Z := 1.
Definition ELF_PHDR_FLAG_R : Z := Z.shiftl 1 2.

(** The fields of [elf64_ehdr] at [ehdr] that are used. *)
Definition e_ident (ehdr i : Z) : M cmem Z := ld_le (ehdr + i) 1.
Definition e_type (ehdr : Z) : M cmem Z := ld_le (ehdr + 16) 2.
Definition e_version (ehdr : Z) : M cmem Z := ld_le (ehdr + 20) 4.
Definition e_entry (ehdr : Z) : M cmem Z := ld_le (ehdr + 24) 8.
Definition e_phoff (ehdr : Z) : M cmem Z := ld_le (ehdr + 32) 8.
Definition e_phnum (ehdr : Z) : M cmem Z := ld_le (ehdr + 56) 2.

Definition sizeof_elf64_phdr : Z := 56.

(** The program header at [p]. *)
Definition ld_phdr (p : Z) : M cmem elf64_phdr :=
  ty ← ld_le p 4; fl ← ld_le (p + 4) 4; off ← ld_le (p + 8) 8; va ← ld_le (p + 16) 8; pa ← ld_le (p + 24) 8;
  fsz ← ld_le (p + 32) 8; msz ← ld_le (p + 40) 8; al ← ld_le (p + 48) 8;
  mret (Phdr ty fl off va pa fsz msz al).

Record loader {S L : Type} {V : Type → Type} := Loader {
  kmem : cmem;                  (** the kernel's memory *)
  task_ip : Z;                  (** [_task->ip()] *)
  addr_space : vm S L V;        (** [_addr_space] *)
}.
Arguments loader : clear implicits.
Arguments Loader {S L V} _ _ _.

Section elf.
Context {S : Type} `{!ArchMM S}.
Context {L : Type} `{!FrgList L}.
Context {V : Type → Type} `{!FrgVector V}.
(** Where the string literal [ELF_MAGIC] is. *)
Context (elf_magic : Z).

Notation vm := (vm S L V).
Notation loader := (loader S L V).

Definition set_kmem (m : cmem) (t : loader) : loader := Loader m (task_ip t) (addr_space t).
Definition set_ip (ip : Z) (t : loader) : loader := Loader (kmem t) ip (addr_space t).
Definition set_addr_space (a : vm) (t : loader) : loader := Loader (kmem t) (task_ip t) a.

Definition on_kmem {A} (m : M cmem A) : M loader A := zoom kmem set_kmem m.
Definition on_addr_space {A} (m : M vm A) : M loader A := zoom addr_space set_addr_space m.

Definition elf64_check (ehdr : Z) : M cmem bool :=
  d ← strncmp ehdr elf_magic 4;
  if negb (d =? 0) then mret false else
  class ← e_ident ehdr ELF_IDENT_CLASS;
  if negb (class =? ELF_CLASS_64) then mret false else
  data ← e_ident ehdr ELF_IDENT_DATA;
  if negb (data =? ELF_DATA_LSB) then mret false else
  version ← e_version ehdr;
  if negb (version =? ELF_VER_CURRENT) then mret false else
  type ← e_type ehdr;
  mret (type =? ELF_TYPE_EXEC).

Definition segment_perms (ph : elf64_phdr) : Z :=
  let flags := perm_user in
  let flags := if has (p_flags ph) ELF_PHDR_FLAG_X then Z.lor flags perm_execute else flags in
  let flags := if has (p_flags ph) ELF_PHDR_FLAG_R then Z.lor flags perm_read else flags in
  if has (p_flags ph) ELF_PHDR_FLAG_W then Z.lor flags perm_write else flags.

Definition segment_pages (ph : elf64_phdr) : Z := u64 (p_memsz ph + vm_page_size - 1) / vm_page_size.

(** [load] from the kernel's memory: the buffer is read only when a region is
    found. *)
Definition load_from (address src : Z) (size : nat) : M loader () :=
  region ← on_addr_space (region_for_address address);
  match region with
  | None => mret tt
  | Some _ =>
      data ← on_kmem (read_block src size);
      on_addr_space (load address data)
  end.

(** The body of the loop. *)
Definition load_segment (file : Z) (ph : elf64_phdr) : M loader () :=
  if negb (p_type ph =? ELF_PHDR_TYPE_LOAD) then mret tt
  else
    on_addr_space (allocate_at (p_vaddr ph) (segment_pages ph) (segment_perms ph) 0);;
    load_from (p_vaddr ph) (u64 (file + p_offset ph)) (Z.to_nat (p_filesz ph)).

Definition elf64_load (file : Z) : M loader bool :=
  ok ← on_kmem (elf64_check file);
  if negb ok then mret false
  else
    phoff ← on_kmem (e_phoff file);
    phnum ← on_kmem (e_phnum file);
    for_each (λ i,
      ph ← on_kmem (ld_phdr (u64 (file + phoff) + sizeof_elf64_phdr * i));
      load_segment file ph) (seqZ 0 phnum);;
    entry ← on_kmem (e_entry file);
    modify (set_ip entry);;
    mret true.
End elf.
