(* ===== verification/ElfProps.v ===== *)
(** * What the loader of programs does

    [elf64_check] tells the files apart, and loading a well-formed file puts
    every byte of its segments where the program expects it. *)
From S2P Require Import Prelude Frigg CString Arch Vmm Vm VmSpace VmTables VmProps VmLoad VmFit Elf.
From stdpp Require Import base numbers option gmap list.
#[local] Open Scope Z_scope.

(** ** Fields of a file *)
Definition field (bytes : list Z) (o : Z) (n : nat) : Z := le_value (sub_bytes bytes (Z.to_nat o) n).

Definition phdr_of (bytes : list Z) (o : Z) : elf64_phdr :=
  Phdr (field bytes o 4) (field bytes (o + 4) 4) (field bytes (o + 8) 8) (field bytes (o + 16) 8)
    (field bytes (o + 24) 8) (field bytes (o + 32) 8) (field bytes (o + 40) 8) (field bytes (o + 48) 8).

(** The files that [elf64_check] accepts. *)
Definition elf_valid (bytes : list Z) : bool :=
  bool_decide (take 4 bytes = take 4 ELF_MAGIC) && (field bytes 4 1 =? ELF_CLASS_64) && (field bytes 5 1 =? ELF_DATA_LSB) &&
  (field bytes 20 4 =? ELF_VER_CURRENT) && (field bytes 16 2 =? ELF_TYPE_EXEC).

(** The program headers of the file. *)
Definition phdrs_of (bytes : list Z) : list elf64_phdr :=
  (λ i, phdr_of bytes (field bytes 32 8 + sizeof_elf64_phdr * i)) <$> seqZ 0 (field bytes 56 2).

Definition is_load (ph : elf64_phdr) : bool := p_type ph =? ELF_PHDR_TYPE_LOAD.

Lemma le_value_range l : Forall (λ b, 0 ≤ b < 256) l → 0 ≤ le_value l < 256 ^ Z.of_nat (length l).
Proof.
  induction 1 as [|b l Hb Hl IH]; [done|]. cbn [le_value foldr length].
  change (foldr _ 0 l) with (le_value l). rewrite Nat2Z.inj_succ, Z.pow_succ_r by lia. lia.
Qed.

Lemma field_range bytes o n : Forall (λ b, 0 ≤ b < 256) bytes → 0 ≤ field bytes o n < 256 ^ Z.of_nat n.
Proof.
  intros Hb. unfold field, sub_bytes.
  destruct (le_value_range (take n (drop (Z.to_nat o) bytes))) as [H1 H2]; [by apply Forall_take, Forall_drop|].
  split; [done|]. eapply Z.lt_le_trans; [exact H2|]. apply Z.pow_le_mono_r; [lia|]. rewrite length_take. lia.
Qed.

Lemma s8_eq a b : 0 ≤ a < 256 → 0 ≤ b < 256 → (s8 a - s8 b =? 0) = bool_decide (a = b).
Proof.
  intros Ha Hb. destruct (decide (a = b)) as [->|Hn]; [by rewrite Z.sub_diag, bool_decide_eq_true_2|].
  rewrite bool_decide_eq_false_2 by done. apply Z.eqb_neq. wrap_lia.
Qed.

(** [strncmp] of [n] characters compares them all, whatever they are. *)
Lemma strncmp_loop_run fuel m p q n i l1 l2 :
  seg m (p + i) l1 → seg m (q + i) l2 → Forall (λ b, 0 ≤ b < 256) l1 → Forall (λ b, 0 ≤ b < 256) l2 →
  length l1 = length l2 → 0 < len l1 → i + len l1 = n → 0 ≤ i → n < 2 ^ 63 → (length l1 ≤ fuel)%nat →
  ∃ d, strncmp_loop fuel p q n i m = Ok (d, m) ∧ (d =? 0) = bool_decide (l1 = l2).
Proof.
  revert i l1 l2. induction fuel as [|fuel IH]; intros i l1 l2 H1 H2 B1 B2 E Hl Hn Hi Hn' Hf; unfold len in *; [lia|].
  destruct l1 as [|a l1], l2 as [|b l2]; try (cbn in *; lia).
  destruct H1 as [La H1], H2 as [Lb H2]. apply Forall_cons in B1 as [Ha B1]. apply Forall_cons in B2 as [Hb B2]. cbn [length] in *.
  cbn [strncmp_loop]. run (ld_run _ _ _ La). run (ld_run _ _ _ Lb). rewrite u64_small by lia.
  destruct ((i <? n - 1) && (a =? b)) eqn:C.
  - case_bool. subst b. destruct (IH (i + 1) l1 l2) as (d & Hd & Hz); rewrite ?Z.add_assoc; try done; try lia.
    exists d. split; [exact Hd|]. rewrite Hz. apply bool_decide_ext. naive_solver.
  - eexists. split; [done|]. rewrite s8_eq by done. apply bool_decide_ext. split; [|naive_solver].
    intros ->. rewrite Z.eqb_refl, andb_true_r in C. case_bool.
    destruct l1; [|cbn in *; lia]. by destruct l2.
Qed.

Section file.
Context (elf_magic : Z) (m : cmem) (file : Z) (bytes : list Z).
Hypothesis Hseg : seg m file bytes.
Hypothesis Hmagic : seg m elf_magic ELF_MAGIC.
Hypothesis Hbytes : Forall (λ b, 0 ≤ b < 256) bytes.
Hypothesis Hlen : 64 ≤ len bytes.

Lemma ld_at o n : 0 ≤ o → o + Z.of_nat n ≤ len bytes → ld_le (file + o) n m = Ok (field bytes o n, m).
Proof.
  intros Ho Hn. unfold field. rewrite <- (Z2Nat.id o) at 1 by done. apply (ld_field m file bytes (Z.to_nat o) n Hseg). unfold len in Hn. lia.
Qed.

Lemma magic_run : ∃ d, strncmp file elf_magic 4 m = Ok (d, m) ∧ (d =? 0) = bool_decide (take 4 bytes = take 4 ELF_MAGIC).
Proof.
  unfold strncmp, with_fuel. pose proof (seg_size _ _ _ Hseg) as Hsz. unfold len in Hlen.
  apply strncmp_loop_run; rewrite ?Z.add_0_r; try done.
  - by apply seg_take.
  - by apply seg_take.
  - by apply Forall_take.
  - cbn. repeat constructor; lia.
  - rewrite length_take_le; [done|lia].
  - unfold len. rewrite length_take_le; lia.
  - unfold len. rewrite length_take_le; lia.
  - rewrite length_take_le; lia.
Qed.

(** [elf64_check] accepts exactly the valid files. *)
Lemma elf64_check_run : elf64_check elf_magic file m = Ok (elf_valid bytes, m).
Proof.
  unfold elf64_check, elf_valid, e_ident, e_version, e_type, ELF_IDENT_CLASS, ELF_IDENT_DATA.
  destruct magic_run as (d & Hd & <-). run Hd. destruct (d =? 0); [|done]. cbn [negb andb].
  run (ld_at 4 1 ltac:(lia) ltac:(lia)). destruct (field bytes 4 1 =? _); [|done]. cbn [negb andb].
  run (ld_at 5 1 ltac:(lia) ltac:(lia)). destruct (field bytes 5 1 =? _); [|done]. cbn [negb andb].
  run (ld_at 20 4 ltac:(lia) ltac:(lia)). destruct (field bytes 20 4 =? _); [|done]. cbn [negb andb].
  by run (ld_at 16 2 ltac:(lia) ltac:(lia)).
Qed.

Lemma ld_phdr_run o : 0 ≤ o → o + 56 ≤ len bytes → ld_phdr (file + o) m = Ok (phdr_of bytes o, m).
Proof.
  intros Ho Hl. unfold ld_phdr. rewrite <- !Z.add_assoc.
  run (ld_at o 4 ltac:(lia) ltac:(lia)). run (ld_at (o + 4) 4 ltac:(lia) ltac:(lia)).
  run (ld_at (o + 8) 8 ltac:(lia) ltac:(lia)). run (ld_at (o + 16) 8 ltac:(lia) ltac:(lia)).
  run (ld_at (o + 24) 8 ltac:(lia) ltac:(lia)). run (ld_at (o + 32) 8 ltac:(lia) ltac:(lia)).
  run (ld_at (o + 40) 8 ltac:(lia) ltac:(lia)). by run (ld_at (o + 48) 8 ltac:(lia) ltac:(lia)).
Qed.

Lemma read_file o n : 0 ≤ o → 0 ≤ n → o + n ≤ len bytes →
  read_block (file + o) (Z.to_nat n) m = Ok (sub_bytes bytes (Z.to_nat o) (Z.to_nat n), m).
Proof.
  intros Ho Hn Hl. unfold len in Hl.
  assert (length (sub_bytes bytes (Z.to_nat o) (Z.to_nat n)) = Z.to_nat n) as E
    by (unfold sub_bytes; rewrite length_take_le; [done|rewrite length_drop; lia]).
  rewrite <- E at 1. apply read_block_run, seg_take. rewrite <- (Z2Nat.id o) at 1 by done. apply seg_drop; [lia|done].
Qed.
End file.

(** ** One segment *)
Section segment.
Context {S : Type} `{!ArchMM S}.
Context {L : Type} `{!FrgList L}.
Context {V : Type → Type} `{!FrgVector V}.
Context `{!FrgListLaws L} `{!FrgVectorLaws V} `{!ArchMMLaws S} `{!ArchMMCopyLaws S}.

Notation vm := (vm S L V).
Notation loader := (loader S L V).
Implicit Types (s : vm).

(** An address space that programs can be loaded into. *)
Record loadable (g : am_ghost) s : Prop := {
  lo_inv : vm_inv g s;
  lo_tidy : tidy s;
  lo_ready : am_ready (arch s);
  lo_kernel : am_ctx g (am_kernel (arch s));
  lo_user : _vmm_ctx s ≠ am_kernel (arch s);
}.

(** A segment that lies in the file and in whole user pages. *)
Record seg_ok (bytes : list Z) (ph : elf64_phdr) : Prop := {
  sg_range : range_ok (p_vaddr ph) (segment_pages ph);
  sg_some : 0 < segment_pages ph ≤ 2 ^ 32;
  sg_mem : 0 ≤ p_filesz ph ≤ p_memsz ph;
  sg_small : p_memsz ph < 2 ^ 47;
  sg_off : 0 ≤ p_offset ph;
  sg_file : p_offset ph + p_filesz ph ≤ len bytes;
}.

Definition seg_data (bytes : list Z) (ph : elf64_phdr) : list Z :=
  sub_bytes bytes (Z.to_nat (p_offset ph)) (Z.to_nat (p_filesz ph)).

(** Its pages are free. *)
Definition seg_free s (ph : elf64_phdr) : Prop :=
  (∀ j, p_vaddr ph / 4096 ≤ j < p_vaddr ph / 4096 + segment_pages ph → free_cover s j ≠ 0%nat) ∧ not_region_end s (p_vaddr ph).

Definition seg_cost (ph : elf64_phdr) : Z := (p_filesz ph + 4095) / 4096 + 6 * segment_pages ph.

Definition has_region s (b n perms : Z) : Prop :=
  ∃ r m, r ∈ region_ptrs s ∧ mappings s !! r = Some m ∧ _base m = b ∧ _size m = n ∧ _perms m = perms.

(** The address space shows the segment. *)
Record shows s (bytes : list Z) (ph : elf64_phdr) : Prop := {
  sh_bytes k b : seg_data bytes ph !! k = Some b → vm_byte s (p_vaddr ph + Z.of_nat k) b;
  sh_zero v : p_vaddr ph + p_filesz ph ≤ v < p_vaddr ph + 4096 * ((p_filesz ph + 4095) / 4096) → vm_byte s v 0;
  sh_region : has_region s (p_vaddr ph) (segment_pages ph) (segment_perms ph);
}.

(** What is in the space stays; the new regions take pages that were free. *)
Record grown (g : am_ghost) s (g' : am_ghost) s' (cost : Z) : Prop := {
  gr_load : loadable g' s';
  gr_byte v b : vm_byte s v b → vm_byte s' v b;
  gr_region b n perms : has_region s b n perms → has_region s' b n perms;
  gr_ctxs c : am_ctx g c → am_ctx g' c;
  gr_kernel : am_kernel (arch s') = am_kernel (arch s) ∧ _vmm_ctx s' = _vmm_ctx s;
  gr_entry c v : am_ctx g c → c ≠ _vmm_ctx s → c ≠ am_kernel (arch s) → user_page v →
    am_entry (arch s') c v = am_entry (arch s) c v;
  gr_room : am_room (arch s) - cost ≤ am_room (arch s');
}.

Lemma grown_refl g s : loadable g s → grown g s g s 0.
Proof. intros H. split; try done. lia. Qed.

Lemma grown_trans g s g1 s1 g2 s2 c1 c2 : grown g s g1 s1 c1 → grown g1 s1 g2 s2 c2 → grown g s g2 s2 (c1 + c2).
Proof.
  intros [L1 B1 R1 C1 [K1 X1] E1 M1] [L2 B2 R2 C2 [K2 X2] E2 M2]. split; [done|auto|auto|auto|split; congruence| |lia].
  intros c v Hc Hn Hk Hv. rewrite E2; [by apply E1|by apply C1|congruence|congruence|done].
Qed.

Lemma shows_grown g s g' s' c bytes ph : grown g s g' s' c → shows s bytes ph → shows s' bytes ph.
Proof. intros G [H1 H2 H3]. split; [intros k b Hk; by apply (gr_byte _ _ _ _ _ G), H1|intros v Hv; by apply (gr_byte _ _ _ _ _ G), H2|by apply (gr_region _ _ _ _ _ G)]. Qed.

Lemma segment_pages_small bytes ph : seg_ok bytes ph → segment_pages ph = (p_memsz ph + 4095) / 4096.
Proof. intros H. unfold segment_pages. change vm_page_size with 4096. rewrite u64_small by (destruct H; lia). f_equal. lia. Qed.

Lemma seg_data_len bytes ph : seg_ok bytes ph → Z.of_nat (length (seg_data bytes ph)) = p_filesz ph.
Proof. intros []. unfold seg_data, sub_bytes, len in *. rewrite length_take_le; [lia|]. rewrite length_drop. lia. Qed.

(** A region that was just added holds no byte, and hides none. *)
Lemma placed_byte g s r b n perms cache f g' s' v c :
  placed g s r b n perms cache f g' s' → arch s' = arch s → vm_byte s v c → vm_byte s' v c ∧ ¬ (b ≤ v < b + n * 4096).
Proof.
  intros Hpl Ha (r0 & m0 & p & Hr0 & Hm0 & Hv0 & Hmp & Hp & Ho & Hb). destruct (pl_object _ _ _ _ _ _ _ _ _ _ Hpl) as (m & Hm & _).
  split.
  - exists r0, m0, p. rewrite Ha. split_and!; try done; [rewrite (pl_list _ _ _ _ _ _ _ _ _ _ Hpl); set_solver|].
    rewrite Hm, lookup_insert_ne; [done|]. intros <-. by rewrite (pl_new _ _ _ _ _ _ _ _ _ _ Hpl) in Hm0.
  - intros Hin. pose proof (pl_range _ _ _ _ _ _ _ _ _ _ Hpl) as (Hb0 & ? & ? & ?).
    destruct (pl_free _ _ _ _ _ _ _ _ _ _ Hpl (v / 4096)) as [_ Hu]; [wrap_lia|].
    pose proof (cover_elem (region_at s) r0 _ (v / 4096) _ _ Hr0 (region_at_some _ _ _ Hm0)) as Hc.
    apply in_region_rng in Hv0. unfold used_cover in Hu. lia.
Qed.

Lemma load_segment_space g s bytes ph :
  loadable g s → seg_ok bytes ph → seg_free s ph → seg_cost ph ≤ am_room (arch s) → Forall (λ b, 0 ≤ b < 256) bytes →
  ∃ s1 r g' s', allocate_at (p_vaddr ph) (segment_pages ph) (segment_perms ph) 0 s = Ok (p_vaddr ph, s1) ∧
    region_for_address (p_vaddr ph) s1 = Ok (Some r, s1) ∧
    load (p_vaddr ph) (seg_data bytes ph) s1 = Ok (tt, s') ∧ shows s' bytes ph ∧ grown g s g' s' (seg_cost ph) ∧
    (∀ j, free_cover s j = free_cover s' j + rng (p_vaddr ph) (segment_pages ph) j)%nat ∧
    (∀ a, not_region_end s a → a ≠ p_vaddr ph + segment_pages ph * 4096 → not_region_end s' a).
Proof.
  intros [Hinv Ht Hrd Hk Hu] Hs [Hfree Hend] Hcost Hby. pose proof (sg_range _ _ Hs) as Hr. pose proof Hr as (Hb0 & Hb1 & _ & Hb2).
  pose proof (segment_pages_small _ _ Hs) as Epg. pose proof (seg_data_len _ _ Hs) as El. destruct (sg_some _ _ Hs). destruct (sg_mem _ _ Hs).
  destruct (allocate_at_tidy g s _ _ (segment_perms ph) 0 Hinv Ht Hr) as (r & s1 & Hal & Hpl & Ha & Ht1 & Hf1); [done|done|].
  pose proof Hpl as [Hok1 Hmem1 Hst Hnew Hlist (m & Hm & Eb & En & Epm & _ & Emp & Epages) _ _].
  set (b := p_vaddr ph) in *. set (n := segment_pages ph) in *.
  assert (mappings s1 !! r = Some m) as Hlook by (rewrite Hm; apply lookup_insert_eq).
  assert (r ∈ region_ptrs s1) as Hin by (rewrite Hlist; set_solver).
  assert (not_region_end s1 b) as Hend1.
  { intros r' m' Hr'. rewrite Hm. intros [[<- <-]|[Hne Hm']]%lookup_insert_Some; [rewrite Eb, En; lia|].
    apply (Hend r' m'); [|done]. rewrite Hlist in Hr'. set_solver. }
  assert (in_region m (b / 4096)) as Hv by (unfold in_region; rewrite Eb, En; lia).
  assert (∀ k p, vec_elems (_backing_pages m) !! k = Some p → p = BackingPage 0 false true) as Hpg.
  { intros k p. rewrite Epages, list_lookup_imap. intros (x & _ & <-)%fmap_Some. done. }
  destruct (load_run g s1 r m b (seg_data bytes ph) (conj Hok1 Hmem1) (region_for_address_run s1 b r m Hok1 Hend1 Hin Hlook Hv) Hin Hlook Emp Hv) as (g' & s' & Hld & Hl).
  { rewrite El, Eb, Z.sub_diag. split; [done| | |].
    - rewrite En, Epg. wrap_lia.
    - intros k p _ Hp. by rewrite (Hpg _ _ Hp).
    - intros j Hj. left. wrap_lia. }
  { split; rewrite ?Ha; try done; [by rewrite (vs_ctx _ _ _ _ Hst)|by rewrite En|].
    rewrite El, En. exact Hcost. }
  { by apply Forall_take, Forall_drop. }
  destruct (ld_holes _ _ _ _ _ _ _ _ Hl) as [Eh1 Eh2]. destruct (tidy_same s1 s' Eh1 Eh2 Ht1) as [Ht' Ef'].
  destruct (ld_mappings _ _ _ _ _ _ _ _ Hl) as (m' & Hm' & Eb' & En' & Epm' & _).
  assert (region_ptrs s' = region_ptrs s1) as Erp by (unfold region_ptrs; by rewrite (ld_regions _ _ _ _ _ _ _ _ Hl)).
  exists s1, r, g', s'. split; [exact Hal|]. split; [by apply (region_for_address_run s1 b r m)|]. split; [exact Hld|]. split; [|split; [|split]].
  - split.
    + intros k c Hk'. by apply (ld_bytes _ _ _ _ _ _ _ _ Hl).
    + intros v Hvz. fold b in Hvz. assert (in_region m (v / 4096)) as Hvr by (unfold in_region; rewrite Eb, En, Epg; wrap_lia).
      destruct (lookup_lt_is_Some_2 (vec_elems (_backing_pages m)) (Z.to_nat (v / 4096 - _base m / 4096))) as [p Hp].
      { destruct (ok_region_range _ _ Hok1 r m Hlook) as [_ ->]. unfold in_region in Hvr. lia. }
      eapply (ld_zero _ _ _ _ _ _ _ _ Hl v p); [done|rewrite El; lia|rewrite El; wrap_lia|done|]. by rewrite (Hpg _ _ Hp).
    + exists r, m'. rewrite Erp, Hm', lookup_insert_eq. fold b n. split_and!; try done; congruence.
  - split.
    + destruct (ld_ready _ _ _ _ _ _ _ _ Hl) as [Hrd' Ek]. split; [apply Hl|done|done| |]; rewrite Ek, Ha; [by apply Hl|].
      by rewrite (ld_ctx _ _ _ _ _ _ _ _ Hl), (vs_ctx _ _ _ _ Hst).
    + intros v c Hvc. destruct (placed_byte _ _ _ _ _ _ _ _ _ _ _ _ Hpl Ha Hvc) as [Hvc' Hout].
      apply (ld_other _ _ _ _ _ _ _ _ Hl); [|done]. rewrite El. rewrite Epg in Hout. wrap_lia.
    + intros b0 n0 perms (r0 & m0 & Hr0 & Hm0 & ? & ? & ?).
      assert (r0 ≠ r) as Hne by (intros ->; congruence).
      exists r0, m0. rewrite Erp, Hlist, Hm', lookup_insert_ne, Hm, lookup_insert_ne by done. split; [set_solver|done].
    + apply Hl.
    + destruct (ld_ready _ _ _ _ _ _ _ _ Hl) as [_ ->]. rewrite Ha, (ld_ctx _ _ _ _ _ _ _ _ Hl). split; [done|apply Hst].
    + intros c v Hc Hne Hnk Hvu. rewrite <- Ha. apply (ld_entry _ _ _ _ _ _ _ _ Hl); rewrite ?Ha; try done. by rewrite (vs_ctx _ _ _ _ Hst).
    + pose proof (ld_room _ _ _ _ _ _ _ _ Hl) as Hro. rewrite El, En, Ha in Hro. unfold seg_cost. fold n. lia.
  - intros j. rewrite Ef'. apply Hf1.
  - intros a Hna Hne r' m0. rewrite Erp, Hlist, Hm'. intros Hr0 [[<- <-]|[Hne' Hm0]]%lookup_insert_Some; [congruence|].
    rewrite Hm, lookup_insert_ne in Hm0 by done. apply (Hna r' m0); [set_solver|done].
Qed.

(** ** All segments *)

(** A later segment neither overlaps an earlier one nor starts where it ends. *)
Definition apart (ph ph' : elf64_phdr) : Prop :=
  (p_vaddr ph + segment_pages ph * 4096 < p_vaddr ph' ∨ p_vaddr ph' + segment_pages ph' * 4096 ≤ p_vaddr ph).

Fixpoint segs_apart (l : list elf64_phdr) : Prop :=
  match l with [] => True | ph :: l' => Forall (apart ph) l' ∧ segs_apart l' end.

Definition segs_cost (l : list elf64_phdr) : Z := foldr (λ ph c, seg_cost ph + c) 0 l.

(** Segments that can be loaded one after the other. *)
Record segs_ok (bytes : list Z) s (l : list elf64_phdr) : Prop := {
  so_ok : Forall (seg_ok bytes) l;
  so_free : Forall (seg_free s) l;
  so_apart : segs_apart l;
  so_cost : segs_cost l ≤ am_room (arch s);
}.

Lemma seg_cost_nonneg bytes ph : seg_ok bytes ph → 0 ≤ seg_cost ph.
Proof. intros []. unfold seg_cost. assert (0 ≤ (p_filesz ph + 4095) / 4096) by (apply Z.div_pos; lia). lia. Qed.

Lemma segs_cost_nonneg bytes l : Forall (seg_ok bytes) l → 0 ≤ segs_cost l.
Proof. induction 1 as [|ph l H _ IH]; [done|]. pose proof (seg_cost_nonneg _ _ H). cbn. unfold segs_cost in IH. lia. Qed.

(** The rest of the segments after the first. *)
Lemma segs_ok_tail g bytes s ph l g' s' :
  segs_ok bytes s (ph :: l) → grown g s g' s' (seg_cost ph) →
  (∀ j, free_cover s j = free_cover s' j + rng (p_vaddr ph) (segment_pages ph) j)%nat →
  (∀ a, not_region_end s a → a ≠ p_vaddr ph + segment_pages ph * 4096 → not_region_end s' a) → segs_ok bytes s' l.
Proof.
  intros [Ho Hf [Ha Ha'] Hc] G Hcov Hend. apply Forall_cons in Ho as [Hp Ho]. apply Forall_cons in Hf as [_ Hf].
  split; [done| |done|].
  - apply Forall_forall. intros ph' Hin. rewrite Forall_forall in Hf, Ha, Ho. destruct (Hf ph' Hin) as [Hfree Hne]. specialize (Ha ph' Hin).
    destruct (sg_range _ _ Hp) as (? & ? & ? & ?). destruct (sg_range _ _ (Ho ph' Hin)) as (? & ? & ? & ?). unfold apart in Ha.
    pose proof (sg_some _ _ Hp). pose proof (sg_some _ _ (Ho ph' Hin)).
    split; [|apply Hend; [done|lia]]. intros j Hj. specialize (Hfree j Hj). specialize (Hcov j).
    unfold rng in Hcov. rewrite decide_False in Hcov by wrap_lia. lia.
  - pose proof (gr_room _ _ _ _ _ G). cbn in Hc. unfold segs_cost. lia.
Qed.

Section load.
Context (elf_magic : Z) (m : cmem) (file : Z) (bytes : list Z).
Hypothesis Hseg : seg m file bytes.
Hypothesis Hmagic : seg m elf_magic ELF_MAGIC.
Hypothesis Hbytes : Forall (λ b, 0 ≤ b < 256) bytes.
Hypothesis Hlen : 64 ≤ len bytes.
Hypothesis Hfile : 0 ≤ file ∧ file + len bytes < 2 ^ 64.

Lemma on_kmem_run {A} (o : M cmem A) (t : loader) a : kmem t = m → o m = Ok (a, m) → on_kmem o t = Ok (a, t).
Proof. intros Hm Ho. unfold on_kmem, zoom. rewrite Hm, Ho. by destruct t; cbn in *; subst. Qed.

Lemma on_addr_space_run {A} (o : M vm A) (t : loader) a s : o (addr_space t) = Ok (a, s) → on_addr_space o t = Ok (a, set_addr_space s t).
Proof. intros Ho. unfold on_addr_space, zoom. by rewrite Ho. Qed.

Lemma load_segment_run g (t : loader) ph l :
  kmem t = m → is_load ph = true → loadable g (addr_space t) → segs_ok bytes (addr_space t) (ph :: l) →
  ∃ g' s', load_segment file ph t = Ok (tt, set_addr_space s' t) ∧ shows s' bytes ph ∧
    grown g (addr_space t) g' s' (seg_cost ph) ∧ segs_ok bytes s' l.
Proof.
  intros Hm Hld Hlo Hok. pose proof Hok as [Ho Hf _ Hc]. apply Forall_cons in Ho as [Hp Ho]. apply Forall_cons in Hf as [Hf _].
  assert (seg_cost ph ≤ am_room (arch (addr_space t))) as Hc1.
  { pose proof (segs_cost_nonneg _ _ Ho). cbn in Hc. unfold segs_cost in *. lia. }
  destruct (load_segment_space g _ bytes ph Hlo Hp Hf Hc1 Hbytes) as (s1 & r & g' & s' & Hal & Hrf & Hl & Hsh & G & Hcov & Hend).
  exists g', s'. split; [|split; [done|split; [done|by eapply segs_ok_tail]]].
  unfold load_segment. unfold is_load in Hld. rewrite Hld. cbn [negb]. run (on_addr_space_run _ t _ _ Hal).
  unfold load_from. run (on_addr_space_run _ (set_addr_space s1 t) _ _ Hrf).
  destruct Hp as [_ _ [? ?] ? ? Hpf]. rewrite u64_small by lia.
  run (on_kmem_run _ (set_addr_space s1 (set_addr_space s1 t)) _ Hm (read_file m file bytes Hseg (p_offset ph) (p_filesz ph) ltac:(lia) ltac:(lia) Hpf)).
  rewrite (on_addr_space_run _ _ tt s'); [done|]. exact Hl.
Qed.

Lemma load_loop_run l g (t : loader) :
  kmem t = m → loadable g (addr_space t) →
  (∀ i, i ∈ l → 0 ≤ i ∧ field bytes 32 8 + sizeof_elf64_phdr * i + 56 ≤ len bytes) →
  let segs := filter is_load ((λ i, phdr_of bytes (field bytes 32 8 + sizeof_elf64_phdr * i)) <$> l) in
  segs_ok bytes (addr_space t) segs →
  ∃ g' s', for_each (λ i,
      ph ← on_kmem (ld_phdr (u64 (file + field bytes 32 8) + sizeof_elf64_phdr * i));
      load_segment file ph) l t = Ok (tt, set_addr_space s' t) ∧
    Forall (shows s' bytes) segs ∧ grown g (addr_space t) g' s' (segs_cost segs).
Proof using Hseg Hbytes Hfile FrgVectorLaws0 FrgListLaws0 ArchMMLaws0 ArchMMCopyLaws0.
  pose proof (field_range bytes 32 8 Hbytes) as [Hph0 _]. clear Hmagic Hlen. revert g t. induction l as [|i l IH]; intros g t Hm Hlo Hi segs Hok.
  { exists g, (addr_space t). split; [by destruct t|]. split; [apply Forall_nil_2|by apply grown_refl]. }
  destruct (Hi i ltac:(set_solver)) as [Hi0 Hi1]. unfold sizeof_elf64_phdr in *.
  set (ph := phdr_of bytes (field bytes 32 8 + 56 * i)) in *.
  assert (on_kmem (ld_phdr (u64 (file + field bytes 32 8) + 56 * i)) t = Ok (ph, t)) as Hph.
  { apply on_kmem_run; [done|]. rewrite u64_small by lia. rewrite <- Z.add_assoc. apply (ld_phdr_run m file bytes Hseg); lia. }
  cbn [for_each]. subst segs. cbn [fmap list_fmap] in *. rewrite filter_cons in *. fold ph in Hok |- *.
  destruct (is_load ph) eqn:El; cbn [decide] in *.
  - rewrite decide_True in * by done.
    destruct (load_segment_run g t ph _ Hm El Hlo Hok) as (g1 & s1 & H1 & Hsh & G1 & Hok1).
    destruct (IH g1 (set_addr_space s1 t) Hm (gr_load _ _ _ _ _ G1) ltac:(intros; apply Hi; set_solver) Hok1) as (g2 & s2 & H2 & Hall & G2).
    exists g2, s2. split; [|split].
    + rewrite (bind_run _ _ _ tt (set_addr_space s1 t)); [exact H2|]. by run Hph.
    + apply Forall_cons. split; [by eapply shows_grown|done].
    + cbn. by eapply grown_trans.
  - rewrite decide_False in * by naive_solver.
    destruct (IH g t Hm Hlo ltac:(intros; apply Hi; set_solver) Hok) as (g2 & s2 & H2 & Hall & G2).
    exists g2, s2. split; [|done]. rewrite (bind_run _ _ _ tt t); [exact H2|]. run Hph. unfold load_segment. unfold is_load in El. by rewrite El.
Qed.
End load.

Lemma elf64_load_run (elf_magic file : Z) (bytes : list Z) (g : am_ghost) (t : loader) :
  seg (kmem t) file bytes → seg (kmem t) elf_magic ELF_MAGIC → Forall (λ b, 0 ≤ b < 256) bytes → 64 ≤ len bytes →
  0 ≤ file ∧ file + len bytes < 2 ^ 64 → elf_valid bytes = true →
  field bytes 32 8 + sizeof_elf64_phdr * field bytes 56 2 ≤ len bytes →
  loadable g (addr_space t) → segs_ok bytes (addr_space t) (filter is_load (phdrs_of bytes)) →
  ∃ g' s', elf64_load elf_magic file t = Ok (true, Loader (kmem t) (field bytes 24 8) s') ∧
    Forall (shows s' bytes) (filter is_load (phdrs_of bytes)) ∧
    grown g (addr_space t) g' s' (segs_cost (filter is_load (phdrs_of bytes))).
Proof.
  intros Hseg Hmagic Hb Hlen Hfile Hv Hph Hlo Hok.
  assert (∀ o n, 0 ≤ o → o + Z.of_nat n ≤ len bytes → on_kmem (ld_le (file + o) n) t = Ok (field bytes o n, t)) as Hld.
  { intros o n Ho Hn. apply (on_kmem_run (kmem t)); [done|]. by apply ld_at. }
  destruct (load_loop_run (kmem t) file bytes Hseg Hb Hfile (seqZ 0 (field bytes 56 2)) g t eq_refl Hlo) as (g' & s' & Hrun & Hsh & G); [|done|].
  { intros i Hi%elem_of_seqZ. unfold sizeof_elf64_phdr in *. lia. }
  exists g', s'. split; [|done]. unfold elf64_load.
  run (on_kmem_run (kmem t) _ t _ eq_refl (elf64_check_run elf_magic (kmem t) file bytes Hseg Hmagic Hb Hlen)). rewrite Hv. cbn [negb].
  unfold e_phoff, e_phnum, e_entry. run (Hld 32 8%nat ltac:(lia) ltac:(lia)). run (Hld 56 2%nat ltac:(lia) ltac:(lia)). run Hrun.
  rewrite (bind_run _ _ _ (field bytes 24 8) (set_addr_space s' t)); [done|].
  apply (on_kmem_run (kmem t)); [done|]. apply ld_at; done || lia.
Qed.

(** C3. Loading a well-formed program: every loadable segment lies in the file
    and in free user pages, apart from the others, and there are enough
    physical pages. Then [elf64_load] returns true, the thread starts at the
    entry point, each segment has a region of its own with its permissions,
    whose bytes are those of the file, followed by zeros to the end of the page;
    what the address space held before is still there, and no other context but
    the kernel's has changed. *)
Theorem elf64_load_spec (elf_magic file : Z) (bytes : list Z) (g : am_ghost) (t : loader) :
  seg (kmem t) file bytes → seg (kmem t) elf_magic ELF_MAGIC → Forall (λ b, 0 ≤ b < 256) bytes → 64 ≤ len bytes →
  0 ≤ file ∧ file + len bytes < 2 ^ 64 → elf_valid bytes = true →
  field bytes 32 8 + sizeof_elf64_phdr * field bytes 56 2 ≤ len bytes →
  loadable g (addr_space t) → segs_ok bytes (addr_space t) (filter is_load (phdrs_of bytes)) →
  ∃ g' s', elf64_load elf_magic file t = Ok (true, Loader (kmem t) (field bytes 24 8) s') ∧
    Forall (shows s' bytes) (filter is_load (phdrs_of bytes)) ∧
    grown g (addr_space t) g' s' (segs_cost (filter is_load (phdrs_of bytes))).
Proof. apply elf64_load_run. Qed.

Lemma elf64_load_refused (elf_magic file : Z) (bytes : list Z) (t : loader) :
  seg (kmem t) file bytes → seg (kmem t) elf_magic ELF_MAGIC → Forall (λ b, 0 ≤ b < 256) bytes → 64 ≤ len bytes →
  elf_valid bytes = false → elf64_load elf_magic file t = Ok (false, t).
Proof.
  intros Hseg Hmagic Hb Hlen Hv. unfold elf64_load.
  run (on_kmem_run (kmem t) _ t _ eq_refl (elf64_check_run elf_magic (kmem t) file bytes Hseg Hmagic Hb Hlen)). by rewrite Hv.
Qed.

(** C13. Any other file is refused: [elf64_load] returns false and touches
    nothing. *)
Theorem elf64_load_refuses (elf_magic file : Z) (bytes : list Z) (t : loader) :
  seg (kmem t) file bytes → seg (kmem t) elf_magic ELF_MAGIC → Forall (λ b, 0 ≤ b < 256) bytes → 64 ≤ len bytes →
  elf_valid bytes = false → elf64_load elf_magic file t = Ok (false, t).
Proof. apply elf64_load_refused. Qed.
End segment.
