(* ===== verification/ElfX86.v ===== *)
(** * Programs in x86_64 address spaces

    The bytes of an address space, as the processor reads them through its page
    tables, and the loader on a small machine. *)
From S2P Require Import Prelude Frigg CString Pmm Paging Vmm Arch ArchX86 Window.
From S2P Require Import Vm VmSpace VmTables VmProps VmLoad VmFit Elf ElfProps.
From stdpp Require Import base numbers option gmap list.
#[local] Open Scope Z_scope.

(** ** Reading through the page tables *)

Lemma page_offs v : vmm_virt_to_offs (v / 4096 * 4096) = vmm_virt_to_offs v.
Proof. rewrite !vmm_virt_to_offs_fields. f_equal; wrap_lia. Qed.

Lemma leaf_page m r v : leaf m r (v / 4096 * 4096) = leaf m r v.
Proof. unfold leaf, walk. by rewrite page_offs. Qed.

(** The flags of an entry stay below the address. *)
Lemma vmm_flags_small flags cache : 0 ≤ vmm_arch_to_vmm_flags flags cache < 4096.
Proof.
  unfold vmm_arch_to_vmm_flags.
  destruct (has flags perm_write), (has flags perm_user), (has flags perm_execute), (has cache (Z.shiftl 1 0)),
    (has cache (Z.shiftl 1 1)), (has cache (Z.shiftl 1 2)); split; vm_compute; congruence.
Qed.

Lemma entry_frame q flags cache : aligned q → 0 ≤ q < 2 ^ 52 →
  Z.land (entry_of q (u64 (vmm_arch_to_vmm_flags flags cache))) MMU_ADDR_MASK = q.
Proof.
  intros Ha Hq. pose proof (vmm_flags_small flags cache). rewrite u64_small by lia. unfold entry_of. rewrite <- Z.lor_assoc.
  assert (0 ≤ Z.lor (vmm_arch_to_vmm_flags flags cache) VMM_FLAG_PRESENT < 2 ^ 12) as Hf.
  { apply lor_range; [lia|lia|]. vm_compute. split; congruence. }
  pose proof (ent_addr_flags q _ ltac:(lia) Ha Hf) as E. rewrite hw_addr by lia. done.
Qed.

(** The byte at [v], with the context [c] in the page table register. *)
Definition cpu_reads (a : vmm) (c v b : Z) : Prop := vload8 v (set_cr3 c a) = Ok (b, set_cr3 c a).

Section x86.
Context {L : Type} `{!FrgList L}.
Context {V : Type → Type} `{!FrgVector V}.
Context `{!FrgListLaws L} `{!FrgVectorLaws V}.

Lemma vm_byte_read (own : gmap Z (list Z)) (s : vm vmm L V) v b :
  vm_inv own s → am_ready (arch s) → lower v → vm_byte s v b → cpu_reads (arch s) (_vmm_ctx s) v b.
Proof.
  intros Hinv [Hlen _] Hv Hb. pose proof Hinv as [Hok Hmem]. destruct (vm_byte_entry _ s v b Hinv Hb) as (p & perms & cache & He & Hf & Hby).
  cbn in He, Hby. rewrite leaf_page in He. destruct (mem_inv _ _ _ Hmem) as [Htab _]. pose proof (mem_ctx _ _ _ Hmem) as Hc. cbn in Hc.
  assert (is_present (leaf (phys (mem (arch s))) (_vmm_ctx s) v) = true) as Hp by (rewrite He; apply is_present_lor).
  pose proof (translate_leaf own _ _ v Htab Hlen Hc Hv Hp) as Htr.
  destruct (frame_page _ _ _ Hf) as [Ha H0]. destruct Hf as (k & -> & Hk & _).
  rewrite He, entry_frame in Htr by (done || lia). unfold cpu_reads, vload8. cbn [mem cr3 set_cr3]. rewrite Htr. by rewrite Hby.
Qed.

(** What the processor reads of a segment that is there. *)
Definition cpu_shows (a : vmm) (c : Z) (bytes : list Z) (ph : elf64_phdr) : Prop :=
  (∀ k b, seg_data bytes ph !! k = Some b → cpu_reads a c (p_vaddr ph + Z.of_nat k) b) ∧
  (∀ v, p_vaddr ph + p_filesz ph ≤ v < p_vaddr ph + 4096 * ((p_filesz ph + 4095) / 4096) → cpu_reads a c v 0).

Lemma shows_cpu (own : gmap Z (list Z)) (s : vm vmm L V) bytes ph :
  loadable own s → seg_ok bytes ph → shows s bytes ph → cpu_shows (arch s) (_vmm_ctx s) bytes ph.
Proof.
  intros [Hinv _ Hrd _ _] Hs [S1 S2 _]. pose proof (sg_range _ _ Hs) as (? & ? & ? & ?).
  pose proof (segment_pages_small _ _ Hs) as Epg. pose proof (seg_data_len _ _ Hs) as El. destruct (sg_mem _ _ Hs). split.
  - intros k b Hk. pose proof (lookup_lt_Some _ _ _ Hk). eapply vm_byte_read; [exact Hinv|exact Hrd| |by apply S1].
    unfold lower. rewrite Epg in *. wrap_lia.
  - intros v Hvz. eapply vm_byte_read; [exact Hinv|exact Hrd| |by apply S2]. unfold lower. rewrite Epg in *. wrap_lia.
Qed.

(** C2. After the loader the processor, running on the tables of the new address
    space, reads the bytes of the program: at every address of a loadable
    segment the byte of the file, and zero from there to the end of the last
    page that the file reaches. *)
Theorem elf64_load_visible (elf_magic file : Z) (bytes : list Z) (own : gmap Z (list Z)) (t : loader vmm L V) :
  seg (kmem t) file bytes → seg (kmem t) elf_magic ELF_MAGIC → Forall (λ b, 0 ≤ b < 256) bytes → 64 ≤ len bytes →
  0 ≤ file ∧ file + len bytes < 2 ^ 64 → elf_valid bytes = true →
  field bytes 32 8 + sizeof_elf64_phdr * field bytes 56 2 ≤ len bytes →
  loadable own (addr_space t) → segs_ok bytes (addr_space t) (filter is_load (phdrs_of bytes)) →
  ∃ t', elf64_load elf_magic file t = Ok (true, t') ∧ task_ip t' = field bytes 24 8 ∧
    ∀ ph, ph ∈ phdrs_of bytes → is_load ph = true →
      (∀ k b, seg_data bytes ph !! k = Some b →
         cpu_reads (arch (addr_space t')) (_vmm_ctx (addr_space t')) (p_vaddr ph + Z.of_nat k) b) ∧
      (∀ v, p_vaddr ph + p_filesz ph ≤ v < p_vaddr ph + 4096 * ((p_filesz ph + 4095) / 4096) →
         cpu_reads (arch (addr_space t')) (_vmm_ctx (addr_space t')) v 0).
Proof.
  intros Hseg Hmagic Hb Hlen Hfile Hv Hph Hlo Hok.
  destruct (elf64_load_run elf_magic file bytes _ t Hseg Hmagic Hb Hlen Hfile Hv Hph Hlo Hok) as (g' & s' & Hrun & Hsh & G).
  eexists. split; [exact Hrun|]. split; [done|]. intros ph Hin Hld.
  assert (ph ∈ filter is_load (phdrs_of bytes)) as Hf by (apply list_elem_of_filter; split; [by rewrite Hld|done]).
  apply (shows_cpu g'); [apply G|exact (proj1 (Forall_forall _ _) (so_ok _ _ _ Hok) ph Hf)|exact (proj1 (Forall_forall _ _) Hsh ph Hf)].
Qed.
End x86.

(** ** A small program *)
Section demo.
Import Instances.
Fixpoint le_bytes (n : nat) (v : Z) : list Z :=
  match n with O => [] | S n' => v mod 256 :: le_bytes n' (v / 256) end.

(** Three bytes of code at 0x400000 in a segment of ten bytes. *)
Definition demo_program : list Z :=
  [127; 69; 76; 70; 2; 1; 1; 0; 0; 0; 0; 0; 0; 0; 0; 0] ++ le_bytes 2 2 ++ le_bytes 2 62 ++ le_bytes 4 1 ++
  le_bytes 8 0x400001 ++ le_bytes 8 64 ++ le_bytes 8 0 ++ le_bytes 4 0 ++ le_bytes 2 64 ++ le_bytes 2 56 ++ le_bytes 2 1 ++
  le_bytes 2 0 ++ le_bytes 2 0 ++ le_bytes 2 0 ++
  le_bytes 4 1 ++ le_bytes 4 5 ++ le_bytes 8 120 ++ le_bytes 8 0x400000 ++ le_bytes 8 0 ++ le_bytes 8 3 ++ le_bytes 8 10 ++
  le_bytes 8 4096 ++ [144; 235; 254].

Definition demo_phdr : elf64_phdr := Phdr 1 5 120 0x400000 0 3 10 4096.

Lemma demo_program_facts :
  Forall (λ b, 0 ≤ b < 256) demo_program ∧ len demo_program = 123 ∧ elf_valid demo_program = true ∧
  field demo_program 32 8 = 64 ∧ field demo_program 56 2 = 1 ∧ field demo_program 24 8 = 0x400001 ∧
  phdrs_of demo_program = [demo_phdr] ∧ seg_data demo_program demo_phdr = [144; 235; 254] ∧ elf_valid (replicate 64 0) = false.
Proof.
  split_and!; try reflexivity. apply Forall_forall. intros b Hb.
  assert (Forall (λ b, (0 <=? b) && (b <? 256) = true) demo_program) as Hf by (repeat (apply Forall_cons; split; [reflexivity|]); apply Forall_nil_2).
  rewrite Forall_forall in Hf. specialize (Hf b Hb). lia.
Qed.

Definition demo_kmem (file : list Z) : cmem := put_seg 0x100000 file (put_seg 0x200000 ELF_MAGIC ∅).

Lemma demo_kmem_segs file : len file ≤ 0x1000 → seg (demo_kmem file) 0x100000 file ∧ seg (demo_kmem file) 0x200000 ELF_MAGIC.
Proof. intros H. split; [apply put_seg_seg|]. apply put_seg_keep; [lia|]. apply put_seg_seg. Qed.

Lemma demo_ready : am_ready (ArchMM := x86_arch_mm) demo_vmm ∧ am_ctx (ArchMM := x86_arch_mm) demo_own (am_kernel (ArchMM := x86_arch_mm) demo_vmm).
Proof. split; [split; [change (8256 ≤ 2 ^ 40); lia|reflexivity]|apply demo_root_own]. Qed.

#[local] Opaque demo_vmm demo_start.

Lemma demo_loadable :
  ∃ g (s : vm vmm (list Z) list), address_space_new demo_start = Ok (tt, s) ∧ loadable g s ∧ am_room (arch s) = 61 ∧ region_ptrs s = [] ∧
    (∀ j, 1 ≤ j < 2 ^ 35 → free_cover s j ≠ 0%nat).
Proof.
  destruct demo_inv as [Hinv Hroom].
  destruct (address_space_new_run (ArchMM0 := x86_arch_mm) (L := list Z) (V := list) demo_own demo_vmm Hinv)
    as (g & s & Hrun & Hvm & Hr & _ & Hrm & Hh & Hp & Hst & Hnew); [rewrite Hroom; lia|].
  pose proof (as_kept _ _ _ _ Hst) as Hk. exists g, s. split; [exact Hrun|].
  destruct demo_ready as [Hready Hroot].
  split; [|split; [rewrite Hrm, Hroom; reflexivity|split; [exact Hr|]]].
  - split; [exact Hvm|apply (tidy_start s _ Hh Hp); cbn [h_size]; lia| | |].
    + apply Hk. exact Hready.
    + rewrite (kept_kernel _ _ _ Hk). apply Hst. exact Hroot.
    + rewrite (kept_kernel _ _ _ Hk). intros E. apply Hnew. rewrite E. exact Hroot.
  - intros j Hj. eapply (in_hole_free s 1); [rewrite Hp; clear; left|rewrite Hh; apply lookup_singleton_eq|].
    unfold in_hole. cbn [h_base h_size]. change (vm_user_base / 4096) with 1. lia.
Qed.

Lemma demo_segs (s : vm vmm (list Z) list) :
  am_room (arch s) = 61 → region_ptrs s = [] → (∀ j, 1 ≤ j < 2 ^ 35 → free_cover s j ≠ 0%nat) → segs_ok demo_program s [demo_phdr].
Proof.
  intros Hroom Hr Hf. destruct demo_program_facts as (_ & Hl & _).
  assert (segment_pages demo_phdr = 1) as Ep by reflexivity.
  split.
  - apply Forall_singleton. split; rewrite ?Ep, ?Hl; cbn [demo_phdr p_vaddr p_filesz p_memsz p_offset]; try lia. split; [done|lia].
  - apply Forall_singleton. split; [|intros r m Hin; rewrite Hr in Hin; by apply elem_of_nil in Hin].
    rewrite Ep. cbn [demo_phdr p_vaddr]. intros j Hj. apply Hf. wrap_lia.
  - split; [apply Forall_nil_2|done].
  - rewrite Hroom. unfold segs_cost, seg_cost. cbn [foldr]. rewrite Ep. cbn [demo_phdr p_filesz]. wrap_lia.
Qed.

Lemma elf64_load_spec_witness :
  ∃ (s s' : vm vmm (list Z) list), address_space_new demo_start = Ok (tt, s) ∧
    elf64_load 0x200000 0x100000 (Loader (demo_kmem demo_program) 0 s) = Ok (true, Loader (demo_kmem demo_program) 0x400001 s') ∧
    vm_byte s' 0x400002 254.
Proof.
  destruct demo_loadable as (g & s & Hrun & Hlo & Hroom & Hr & Hf).
  destruct demo_program_facts as (Hb & Hl & Hv & E1 & E2 & E3 & E4 & E5 & _). destruct (demo_kmem_segs demo_program ltac:(lia)) as [H1 H2].
  destruct (elf64_load_spec 0x200000 0x100000 demo_program g (Loader (demo_kmem demo_program) 0 s) H1 H2 Hb ltac:(lia) ltac:(lia) Hv)
    as (g' & s' & Hload & Hsh & _); [rewrite E1, E2; unfold sizeof_elf64_phdr; lia|exact Hlo|rewrite E4; by apply demo_segs|].
  rewrite E3 in Hload. exists s, s'. split; [exact Hrun|]. split; [exact Hload|].
  rewrite E4 in Hsh. change (filter is_load [demo_phdr]) with [demo_phdr] in Hsh. apply (proj1 (Forall_singleton _ _)) in Hsh. destruct Hsh as [Hin _ _].
  rewrite E5 in Hin. exact (Hin 2%nat 254 eq_refl).
Defined.

Lemma elf64_load_visible_witness :
  ∃ (s : vm vmm (list Z) list) t', address_space_new demo_start = Ok (tt, s) ∧
    elf64_load 0x200000 0x100000 (Loader (demo_kmem demo_program) 0 s) = Ok (true, t') ∧ task_ip t' = 0x400001 ∧
    cpu_reads (arch (addr_space t')) (_vmm_ctx (addr_space t')) 0x400001 235 ∧
    cpu_reads (arch (addr_space t')) (_vmm_ctx (addr_space t')) 0x400003 0.
Proof.
  destruct demo_loadable as (g & s & Hrun & Hlo & Hroom & Hr & Hf).
  destruct demo_program_facts as (Hb & Hl & Hv & E1 & E2 & E3 & E4 & E5 & _). destruct (demo_kmem_segs demo_program ltac:(lia)) as [H1 H2].
  destruct (elf64_load_visible 0x200000 0x100000 demo_program g (Loader (demo_kmem demo_program) 0 s) H1 H2 Hb ltac:(lia) ltac:(lia) Hv)
    as (t' & Hload & Hip & Hsh); [rewrite E1, E2; unfold sizeof_elf64_phdr; lia|exact Hlo|rewrite E4; by apply demo_segs|].
  exists s, t'. split; [exact Hrun|]. split; [exact Hload|]. split; [by rewrite Hip, E3|].
  destruct (Hsh demo_phdr) as [Hin Hz]; [rewrite E4; clear; left|reflexivity|]. rewrite E5 in Hin. split.
  - exact (Hin 1%nat 235 eq_refl).
  - apply Hz. cbn [demo_phdr p_vaddr p_filesz]. wrap_lia.
Defined.

Lemma elf64_load_refuses_witness :
  ∃ (s : vm vmm (list Z) list), address_space_new demo_start = Ok (tt, s) ∧
    elf64_load 0x200000 0x100000 (Loader (demo_kmem (replicate 64 0)) 0 s) = Ok (false, Loader (demo_kmem (replicate 64 0)) 0 s).
Proof.
  destruct demo_loadable as (g & s & Hrun & _). exists s. split; [exact Hrun|].
  destruct demo_program_facts as (_ & _ & _ & _ & _ & _ & _ & _ & Hv).
  assert (len (replicate 64 0) = 64) as Hl by (unfold len; by rewrite length_replicate).
  destruct (demo_kmem_segs (replicate 64 0) ltac:(lia)) as [H1 H2].
  apply (elf64_load_refuses 0x200000 0x100000 (replicate 64 0) (Loader (demo_kmem (replicate 64 0)) 0 s) H1 H2); [|lia|exact Hv].
  apply Forall_replicate. lia.
Defined.

(** Loading into a region of two pages. *)
Lemma demo_two_pages :
  ∃ g (s s1 : vm vmm (list Z) list) r m, address_space_new demo_start = Ok (tt, s) ∧
    allocate_at 0x400000 2 perm_write 0 s = Ok (0x400000, s1) ∧ vm_inv g s1 ∧ region_for_address 0x400ffe s1 = Ok (Some r, s1) ∧ r ∈ region_ptrs s1 ∧
    mappings s1 !! r = Some m ∧ _mapped m = true ∧ in_region m 0x400 ∧ _base m = 0x400000 ∧
    vec_elems (_backing_pages m) = [BackingPage 0 false true; BackingPage 0 false true] ∧
    reachable m (0x400ffe - _base m) 2 ∧ load_ready g s1 r m 2.
Proof.
  destruct demo_loadable as (g & s & Hrun & [Hinv Ht Hrd Hk Hu] & Hroom & Hr & Hf).
  destruct (allocate_at_tidy g s 0x400000 2 perm_write 0 Hinv Ht demo_range ltac:(lia)) as (r & s1 & Hal & Hpl & Ha & _).
  { intros j Hj. apply Hf. wrap_lia. }
  destruct Hpl as [Hok1 Hmem1 Hst _ Hlist (m & Hm & Eb & En & _ & _ & Emp & Epages) _ _].
  assert (mappings s1 !! r = Some m) as Hlook by (rewrite Hm; apply lookup_insert_eq).
  assert (region_ptrs s1 = [r]) as Hr1 by (rewrite Hr in Hlist; by apply Permutation_singleton_r in Hlist).
  assert (vec_elems (_backing_pages m) = [BackingPage 0 false true; BackingPage 0 false true]) as Epg by (rewrite Epages; reflexivity).
  exists g, s, s1, r, m. split; [exact Hrun|]. split; [exact Hal|]. split; [exact (conj Hok1 Hmem1)|]. split.
  { apply (region_for_address_run s1 0x400ffe r m); [exact Hok1| |rewrite Hr1; clear; left|exact Hlook|unfold in_region; rewrite Eb, En; wrap_lia].
    intros r' m' Hin Hm'. rewrite Hr1 in Hin. apply list_elem_of_singleton in Hin as ->. rewrite Hlook in Hm'. injection Hm' as <-. rewrite Eb, En. lia. }
  split; [rewrite Hr1; clear; left|]. split; [exact Hlook|]. split; [exact Emp|]. split; [unfold in_region; rewrite Eb, En; wrap_lia|].
  split; [exact Eb|]. split; [exact Epg|]. split.
  - rewrite Eb. split; [lia|rewrite En; lia| |intros j Hj; left; wrap_lia].
    intros k p Hk' Hp. rewrite Epg in Hp. apply list_elem_of_lookup_2 in Hp. clear -Hp.
    apply list_elem_of_In in Hp. destruct Hp as [<-|[<-|[]]]; reflexivity.
  - split; rewrite ?Ha, ?En; [exact Hrd|exact Hk|by rewrite (vs_ctx _ _ _ _ Hst)|lia|]. rewrite Hroom. wrap_lia.
Qed.

Lemma load_spec_witness :
  ∃ (s s1 s' : vm vmm (list Z) list), address_space_new demo_start = Ok (tt, s) ∧
    allocate_at 0x400000 2 perm_write 0 s = Ok (0x400000, s1) ∧ load 0x400ffe [72; 105] s1 = Ok (tt, s') ∧
    vm_byte s' 0x400fff 105 ∧ vm_byte s' 0x400000 0.
Proof.
  destruct demo_two_pages as (g & s & s1 & r & m & Hrun & Hal & Hinv & Hfa & Hr & Hlook & Emp & Hv & Eb & Epg & Hrc & Hrd).
  destruct (load_spec g s1 r m 0x400ffe [72; 105] Hinv Hfa Hr Hlook Emp Hv Hrc Hrd) as (g' & s' & Hld & Hl); [repeat constructor; lia|].
  exists s, s1, s'. split; [exact Hrun|]. split; [exact Hal|]. split; [exact Hld|]. split.
  - exact (ld_bytes _ _ _ _ _ _ _ _ Hl 1%nat 105 eq_refl).
  - eapply (ld_zero _ _ _ _ _ _ _ _ Hl 0x400000 (BackingPage 0 false true)); [exact Hv|lia|cbn [length]; clear; wrap_lia| |reflexivity].
    rewrite Epg, Eb. reflexivity.
Defined.

Lemma store_spec_witness :
  ∃ (s s1 s' : vm vmm (list Z) list) data, address_space_new demo_start = Ok (tt, s) ∧
    allocate_at 0x400000 2 perm_write 0 s = Ok (0x400000, s1) ∧ Vm.store 0x400ffe 2 s1 = Ok (Some data, s') ∧
    length data = 2%nat ∧ (∀ b, data !! 1%nat = Some b → vm_byte s' 0x400fff b).
Proof.
  destruct demo_two_pages as (g & s & s1 & r & m & Hrun & Hal & Hinv & Hfa & Hr & Hlook & Emp & Hv & Eb & Epg & Hrc & Hrd).
  destruct (store_spec g s1 r m 0x400ffe 2 Hinv Hfa Hr Hlook Emp Hv Hrc Hrd) as (data & g' & s' & Hst & Hlen & Hs).
  exists s, s1, s', data. split; [exact Hrun|]. split; [exact Hal|]. split; [exact Hst|]. split; [exact Hlen|].
  exact (so_bytes _ _ _ _ _ _ Hs 1%nat).
Defined.
(** The physical pages of the region at [a]. *)
Definition pages_at (a : Z) : M (vm vmm (list Z) list) (list bool) :=
  r ← region_for_address a;
  match r with
  | Some r => m ← get_mapping r; mret (_exists <$> vec_elems (_backing_pages m))
  | None => mret []
  end.

(** Two bytes across the boundary of two pages: the run that is provided is
    one page long, so the second page stays without a physical page, and the
    second byte is not in the address space. *)
Theorem load_leaves_page :
  value ((address_space_new;; allocate_at 0x400000 2 perm_write 0;; load 0x400fff [72; 105];; pages_at 0x400fff) demo_start)
    = Some [true; false].
Proof. vm_compute. reflexivity. Qed.
End demo.
