(* ===== verification/IpcQueue.v ===== *)
(** * Message queues (object/object.h, object/ipc_queue.cpp)

    A queue is a vector of owning pointers to messages with two cursors. A
    message is held by value: a [unique_ptr] is the message it owns, or
    nothing. An access outside of the vector is a fault. The abstract
    specification is a mailbox with one slot; the queue refines it. *)
From S2P Require Import Prelude Frigg.
From stdpp Require Import base numbers option list.
#[local] Open Scope Z_scope.

Record message := Message { data : Z; size : Z; sender : Z }.

#[global] Instance message_eq_dec : EqDecision message.
Proof. solve_decision. Defined.

Record ipc_queue {V : Type → Type} := IpcQueue {
  q_parent : Z;
  _has_new : bool;
  _n_messages : Z;
  _buffer : V (option message);
  _enqueue : Z;
  _dequeue : Z;
}.
Arguments ipc_queue : clear implicits.
Arguments IpcQueue {V} _ _ _ _ _ _.

Section queue.
Context {V : Type → Type} `{!FrgVector V}.
Notation queue := (ipc_queue V).

Definition ipc_queue_new (parent : Z) : queue := IpcQueue parent false 0 vec_empty 0 0.

Definition set_buffer (b : V (option message)) (q : queue) : queue :=
  IpcQueue (q_parent q) (_has_new q) (_n_messages q) b (_enqueue q) (_dequeue q).
Definition q_set_parent (p : Z) (q : queue) : queue :=
  IpcQueue p (_has_new q) (_n_messages q) (_buffer q) (_enqueue q) (_dequeue q).
Definition buffer_size (q : queue) : Z := Z.of_nat (length (vec_elems (_buffer q))).

(** [_buffer[i]] *)
Definition slot (i : Z) : M queue (option message) :=
  q ← get_st; lift (access (vec_elems (_buffer q) !! Z.to_nat i)).
Definition set_slot (i : Z) (m : option message) : M queue () :=
  modify (λ q, set_buffer (vec_set (_buffer q) (Z.to_nat i) m) q).

Definition send (msg : option message) : M queue () :=
  q ← get_st;
  (if buffer_size q =? _n_messages q then modify (λ q, set_buffer (vec_push (_buffer q) None) q) else mret tt);;
  here ← slot (_enqueue q);
  lift (assertion (negb (bool_decide (is_Some here))));;
  set_slot (_enqueue q) msg;;
  modify (λ q,
    let e := u64 (_enqueue q + 1) in
    IpcQueue (q_parent q) true (u64 (_n_messages q + 1)) (_buffer q)
      (if buffer_size q <=? e then 0 else e) (_dequeue q)).

Definition peek : M queue message :=
  q ← get_st;
  here ← slot (_dequeue q);
  lift (match here with Some m => Ok m | None => Panic end).

Definition pop : M queue (option message) :=
  q ← get_st;
  here ← slot (_dequeue q);
  lift (assertion (bool_decide (is_Some here)));;
  set_slot (_dequeue q) None;;
  modify (λ q, IpcQueue (q_parent q) (_has_new q) (u64 (_n_messages q - 1)) (_buffer q) (_enqueue q) (_dequeue q));;
  mret here.

Definition has_new : M queue bool :=
  had ← gets _has_new;
  modify (λ q, IpcQueue (q_parent q) false (_n_messages q) (_buffer q) (_enqueue q) (_dequeue q));;
  mret had.

Definition get_queue_size : M queue Z := gets _n_messages.

(** ** Sequences of operations *)
Inductive op := Send (m : message) | Peek | Pop | HasNew | Size.
Inductive reply := Done | Got (m : option message) | Flag (b : bool) | Count (n : Z).

Definition run_op (o : op) : M queue reply :=
  match o with
  | Send m => send (Some m);; mret Done
  | Peek => m ← peek; mret (Got (Some m))
  | Pop => m ← pop; mret (Got m)
  | HasNew => b ← has_new; mret (Flag b)
  | Size => n ← get_queue_size; mret (Count n)
  end.
End queue.

Fixpoint run_ops {S O R} (f : O → M S R) (l : list O) : M S (list R) :=
  match l with
  | [] => mret []
  | o :: l' => r ← f o; rs ← run_ops f l'; mret (r :: rs)
  end.

(** ** The specification: a mailbox of one slot

    [opened] says whether the slot has ever been used: before that, looking
    at the first message reads outside of the vector. *)
Record mailbox := Mailbox { opened : bool; content : option message; news : bool }.

Definition mailbox_new : mailbox := Mailbox false None false.

Definition mailbox_op (o : op) : M mailbox reply := λ b,
  match o with
  | Send m => match content b with None => Ok (Done, Mailbox true (Some m) true) | Some _ => Panic end
  | Peek =>
      match content b with
      | Some m => Ok (Got (Some m), b)
      | None => if opened b then Panic else Fault
      end
  | Pop =>
      match content b with
      | Some m => Ok (Got (Some m), Mailbox true None (news b))
      | None => if opened b then Panic else Fault
      end
  | HasNew => Ok (Flag (news b), Mailbox (opened b) (content b) false)
  | Size => Ok (Count (if content b then 1 else 0), b)
  end.

(** ** Refinement *)

(** A simulation of two components on the same operations. *)
Definition agree {S T R} (rel : S → T → Prop) (o1 : outcome (R * S)) (o2 : outcome (R * T)) : Prop :=
  match o1, o2 with
  | Ok (r1, s), Ok (r2, t) => r1 = r2 ∧ rel s t
  | Panic, Panic | Fault, Fault | Hang, Hang => True
  | _, _ => False
  end.

Lemma agree_run_ops {S T O R} (rel : S → T → Prop) (f : O → M S R) (g : O → M T R) l s t :
  (∀ o s t, rel s t → agree rel (f o s) (g o t)) → rel s t →
  agree rel (run_ops f l s) (run_ops g l t).
Proof.
  intros Hstep. revert s t. induction l as [|o l IH]; intros s t Hrel; [done|].
  cbn [run_ops]. cbv [mbind M_bind]. specialize (Hstep o s t Hrel). unfold agree in Hstep.
  destruct (f o s) as [[r1 s1]| | |], (g o t) as [[r2 t1]| | |]; try done.
  destruct Hstep as [-> Hrel1]. specialize (IH s1 t1 Hrel1). unfold agree in IH.
  destruct (run_ops f l s1) as [[? ?]| | |], (run_ops g l t1) as [[? ?]| | |]; try done.
  destruct IH as [-> ?]. done.
Qed.

Section refinement.
Context {V : Type → Type} `{!FrgVector V} `{!FrgVectorLaws V}.
Notation queue := (ipc_queue V).

Definition queue_rel (q : queue) (b : mailbox) : Prop :=
  _enqueue q = 0 ∧ _dequeue q = 0 ∧ _has_new q = news b ∧
  _n_messages q = (if content b then 1 else 0) ∧
  vec_elems (_buffer q) = (if opened b then [content b] else []) ∧
  (opened b = false → content b = None).

Lemma queue_rel_step (o : op) (q : queue) (b : mailbox) :
  queue_rel q b → agree queue_rel (run_op o q) (mailbox_op o b).
Proof using FrgVectorLaws0.
  destruct q as [par hn n buf e d], b as [op c nw].
  intros (He & Hd & Hn & Hc & Hb & Ho). cbn in *. subst e d hn n.
  assert (op = false ∧ c = None ∨ op = true) as [[-> ->]| ->] by (destruct op; naive_solver);
    [|destruct c as [m|]]; destruct o as [m'| | | |];
    unfold run_op, send, peek, pop, has_new, get_queue_size, slot, set_slot, buffer_size, mailbox_op, agree, queue_rel;
    cbv [mbind M_bind mret M_ret get_st gets modify lift access assertion set_buffer u64];
    cbn [_buffer _n_messages _enqueue _dequeue q_parent _has_new opened content news];
    change (Z.to_nat 0) with 0%nat.
  all: repeat (progress (rewrite ?vec_push_elems, ?vec_set_elems, ?Hb; cbn;
    change (Z.of_nat 0) with 0; change (Z.of_nat 1) with 1; change (Z.of_nat 2) with 2)).
  all: try done; split_and!; done.
Qed.

Lemma queue_rel_new p : queue_rel (ipc_queue_new p) mailbox_new.
Proof using FrgVectorLaws0. unfold queue_rel. cbn. by rewrite vec_empty_elems. Qed.

Lemma queue_rel_run p l : agree queue_rel (run_ops run_op l (ipc_queue_new p)) (run_ops mailbox_op l mailbox_new).
Proof using FrgVectorLaws0. apply agree_run_ops; [apply queue_rel_step|apply queue_rel_new]. Qed.

End refinement.

(** C33. A queue refines the mailbox: on every sequence of operations both give
    the same answers, and stop in the same way at the same operation. *)
Theorem ipc_queue_refines_mailbox (V : Type → Type) `{!FrgVector V} `{!FrgVectorLaws V} (parent : Z) (l : list op) :
  (fst <$> run_ops (run_op (V := V)) l (ipc_queue_new parent)) = (fst <$> run_ops mailbox_op l mailbox_new).
Proof.
  pose proof (queue_rel_run (V := V) parent l) as H. unfold agree in H.
  destruct (run_ops run_op l _) as [[r1 q]| | |], (run_ops mailbox_op l _) as [[r2 b]| | |]; try done.
  cbn. by destruct H as [-> _].
Qed.

Import Instances.

Definition demo_message : message := Message 4096 16 7.

Lemma ipc_queue_refines_mailbox_witness :
  (fst <$> run_ops (run_op (V := list)) [Send demo_message; Size; Pop; HasNew] (ipc_queue_new 0)) =
    Ok [Done; Count 1; Got (Some demo_message); Flag true] ∧
  (fst <$> run_ops (run_op (V := list)) [Send demo_message; Send demo_message] (ipc_queue_new 0)) = Panic.
Proof.
  split.
  - rewrite (ipc_queue_refines_mailbox list 0 [Send demo_message; Size; Pop; HasNew]). reflexivity.
  - rewrite (ipc_queue_refines_mailbox list 0 [Send demo_message; Send demo_message]). reflexivity.
Defined.

(** The capacity of a queue is one: whatever was done to it before, it
    holds no message or one; with none, [send] succeeds and [pop] then
    returns what was sent and leaves the queue empty; with one, the next
    [send] panics, although the vector is meant to grow. *)
Theorem ipc_queue_capacity (V : Type → Type) `{!FrgVector V} `{!FrgVectorLaws V} (parent : Z) (l : list op) rs
    (q : ipc_queue V) (m : message) :
  run_ops run_op l (ipc_queue_new parent) = Ok (rs, q) →
  (_n_messages q = 0 ∧ ∃ q1 q2, send (Some m) q = Ok (tt, q1) ∧ pop q1 = Ok (Some m, q2) ∧ _n_messages q2 = 0) ∨
  (_n_messages q = 1 ∧ send (Some m) q = Panic).
Proof.
  intros Hrun. pose proof (queue_rel_run (V := V) parent l) as H. rewrite Hrun in H. unfold agree in H.
  destruct (run_ops mailbox_op l _) as [[r2 b]| | |]; try done. destruct H as [_ Hq].
  pose proof (queue_rel_step (Send m) q b Hq) as Hs. unfold run_op in Hs. cbv [mbind M_bind] in Hs.
  destruct Hq as (_ & _ & _ & Hn & _). rewrite Hn. cbn [mailbox_op] in Hs. destruct (content b).
  - right. split; [done|]. by destruct (send (Some m) q) as [[[] q1]| | |].
  - left. split; [done|]. destruct (send (Some m) q) as [[[] q1]| | |]; try done. destruct Hs as [_ Hq1].
    pose proof (queue_rel_step Pop q1 _ Hq1) as Hp. unfold run_op in Hp. cbv [mbind M_bind] in Hp.
    cbn [mailbox_op content] in Hp. destruct (pop q1) as [[r q2]| | |] eqn:Hpop; try done.
    destruct Hp as [Hr (_ & _ & _ & Hn2 & _)]. injection Hr as ->. by exists q1, q2.
Qed.

Lemma ipc_queue_capacity_witness :
  ∃ q : ipc_queue list, run_ops run_op [Send demo_message] (ipc_queue_new 0) = Ok ([Done], q) ∧
    send (Some demo_message) q = Panic.
Proof.
  exists (IpcQueue 0 true 1 [Some demo_message] 0 0). split; [reflexivity|].
  destruct (ipc_queue_capacity list 0 [Send demo_message] [Done]
    (IpcQueue 0 true 1 [Some demo_message] 0 0) demo_message) as [[H _]|[_ H]];
    [reflexivity|discriminate H|exact H].
Defined.
