(* ===== verification/Object.v ===== *)
(** * Kernel objects and object groups (object/object.h, object/group.cpp, proc/groups.h)

    Objects live in a store and are named by pointers, 0 is the null pointer.
    [new] takes a fresh address; [delete] removes the object, so that a later
    use of its pointer is a fault. The constructor of a group does not
    initialise [_dont_lock]: its value is an argument. The locks are the
    sequential ones of Spinlock.v. *)
From S2P Require Import Prelude Frigg Spinlock IpcQueue.
From stdpp Require Import base numbers option gmap list.
#[local] Open Scope Z_scope.

Record object_group {H : Type → Type} := Group {
  g_parent : Z;
  _objects : H Z;
  _members : H bool;
  _next_id : Z;
  _lock : bool;
  _dont_lock : bool;
}.
Arguments object_group : clear implicits.
Arguments Group {H} _ _ _ _ _ _.

Inductive object_type := none_type | object_group_type | ipc_queue_type.

(** The classes derived from [base_object]. *)
Inductive object {H V : Type → Type} := OGroup (g : object_group H) | OQueue (q : ipc_queue V).
Arguments object : clear implicits.
Arguments OGroup {H V} _.
Arguments OQueue {H V} _.

Record store {H V : Type → Type} := Store { objs : gmap Z (object H V); next_ptr : Z }.
Arguments store : clear implicits.
Arguments Store {H V} _ _.

Section objects.
Context {H : Type → Type} `{!FrgHashMap H}.
Context {V : Type → Type} `{!FrgVector V}.
Notation store := (store H V).
Notation object := (object H V).
Notation object_group := (object_group H).

Definition type_of (o : object) : object_type :=
  match o with OGroup _ => object_group_type | OQueue _ => ipc_queue_type end.
Definition parent (o : object) : Z :=
  match o with OGroup g => g_parent g | OQueue q => q_parent q end.
Definition with_parent (p : Z) (o : object) : object :=
  match o with
  | OGroup g => OGroup (Group p (_objects g) (_members g) (_next_id g) (_lock g) (_dont_lock g))
  | OQueue q => OQueue (q_set_parent p q)
  end.

(** ** The store *)
Definition get_obj (p : Z) : M store object := s ← get_st; lift (access (objs s !! p)).
Definition put_obj (p : Z) (o : object) : M store () := modify (λ s, Store (<[p := o]> (objs s)) (next_ptr s)).
Definition drop_obj (p : Z) : M store () :=
  get_obj p;; modify (λ s, Store (delete p (objs s)) (next_ptr s)).
Definition new_obj (o : object) : M store Z := λ s,
  Ok (next_ptr s, Store (<[next_ptr s := o]> (objs s)) (next_ptr s + 1)).

Definition get_group (p : Z) : M store object_group :=
  o ← get_obj p; lift (match o with OGroup g => Ok g | OQueue _ => Fault end).
Definition put_group (p : Z) (g : object_group) : M store () := put_obj p (OGroup g).

(** [obj->set_parent(p)] *)
Definition set_parent (obj p : Z) : M store () := o ← get_obj obj; put_obj obj (with_parent p o).

(** ** [object_group] *)

Definition object_group_new (parent : Z) (garbage : bool) : object_group :=
  Group parent hm_empty hm_empty 0 false garbage.

Definition set_objects (m : H Z) (g : object_group) : object_group :=
  Group (g_parent g) m (_members g) (_next_id g) (_lock g) (_dont_lock g).
Definition set_members (m : H bool) (g : object_group) : object_group :=
  Group (g_parent g) (_objects g) m (_next_id g) (_lock g) (_dont_lock g).
Definition set_lock (b : bool) (g : object_group) : object_group :=
  Group (g_parent g) (_objects g) (_members g) (_next_id g) b (_dont_lock g).
Definition set_dont_lock (b : bool) (g : object_group) : object_group :=
  Group (g_parent g) (_objects g) (_members g) (_next_id g) (_lock g) b.
Definition set_next_id (n : Z) (g : object_group) : object_group :=
  Group (g_parent g) (_objects g) (_members g) n (_lock g) (_dont_lock g).

Definition take_lock (p : Z) : M store () :=
  g ← get_group p; '(_, b) ← lift (lock (_lock g)); put_group p (set_lock b g).
Definition release_lock (p : Z) : M store () :=
  g ← get_group p; '(_, b) ← lift (unlock (_lock g)); put_group p (set_lock b g).

(** [if (!_dont_lock) _lock.lock();] and its counterpart. *)
Definition maybe_lock (p : Z) : M store () :=
  g ← get_group p; if _dont_lock g then mret tt else take_lock p.
Definition maybe_unlock (p : Z) : M store () :=
  g ← get_group p; if _dont_lock g then mret tt else release_lock p.

(** [m[k] = x] and [m[k]] *)
Definition assign {A} (d : A) (m : H A) (k : Z) (x : A) : H A := hm_write (hm_index d m k) k x.
Definition subscript {A} (d : A) (m : H A) (k : Z) : A * H A := (default d (hm_map m !! k), hm_index d m k).

Definition add_object (p obj : Z) : M store Z :=
  maybe_lock p;;
  g ← get_group p;
  let h := _next_id g in
  put_group p (set_objects (assign 0 (_objects g) h obj) (set_next_id (u64 (h + 1)) g));;
  set_parent obj p;;
  maybe_unlock p;;
  mret h.

(** [delete]: the destructor of a group deletes what the group holds. A group
    that holds itself, directly or not, recurses until the stack overflows;
    that is the case when the depth exceeds the number of objects. *)
Fixpoint delete_loop (fuel : nat) (ptr : Z) : M store () :=
  if ptr =? 0 then mret tt
  else
    match fuel with
    | O => lift Fault
    | S fuel' =>
        o ← get_obj ptr;
        (match o with
         | OQueue _ => mret tt
         | OGroup g => for_each (delete_loop fuel') (snd <$> hm_entries (_objects g))
         end);;
        drop_obj ptr
    end.
Definition delete_object (ptr : Z) : M store () := λ s, delete_loop (S (size (objs s))) ptr s.

Definition remove_object (p handle : Z) : M store () :=
  maybe_lock p;;
  g ← get_group p;
  item ← lift (match hm_map (_objects g) !! handle with Some x => Ok x | None => Panic end);
  put_group p (set_objects (hm_remove (_objects g) handle) g);;
  delete_object item;;
  maybe_unlock p.

Definition get_object (p handle : Z) : M store Z :=
  g ← get_group p;
  let '(x, m) := subscript 0 (_objects g) handle in
  put_group p (set_objects m g);;
  mret x.

Definition check_membership (p id : Z) : M store bool :=
  g ← get_group p;
  let '(x, m) := subscript false (_members g) id in
  put_group p (set_members m g);;
  mret x.

Definition set_member (p id : Z) (b : bool) : M store () :=
  maybe_lock p;;
  g ← get_group p;
  put_group p (set_members (assign false (_members g) id b) g);;
  maybe_unlock p.
Definition add_member (p id : Z) : M store () := set_member p id true.
Definition remove_member (p id : Z) : M store () := set_member p id false.

(** The method [func] with its arguments is the routine [f]; the variant for
    methods without a result returns whether it was run. *)
Definition check_membership_and {A} (p t : Z) (f : M store A) : M store (option A) :=
  take_lock p;;
  is_member ← check_membership p t;
  if is_member : bool then
    g ← get_group p; put_group p (set_dont_lock true g);;
    r ← f;
    g ← get_group p; put_group p (set_dont_lock false g);;
    release_lock p;;
    mret (Some r)
  else release_lock p;; mret None.
Definition check_membership_and_void (p t : Z) (f : M store ()) : M store bool :=
  r ← check_membership_and p t f; mret (bool_decide (is_Some r)).
End objects.

(** ** [global_object_groups] *)
Record locked_group := LockedGroup { grp : Z; lg_lock : bool }.
Definition no_group : locked_group := LockedGroup 0 false.

Record groups {H V : Type → Type} := Groups {
  heap_objs : store H V;
  _groups : H locked_group;
  gg_next_id : Z;
  gg_lock : bool;
}.
Arguments groups : clear implicits.
Arguments Groups {H V} _ _ _ _.

Section groups.
Context {H : Type → Type} `{!FrgHashMap H}.
Context {V : Type → Type} `{!FrgVector V}.
Notation groups := (groups H V).

Definition set_heap (st : store H V) (s : groups) : groups := Groups st (_groups s) (gg_next_id s) (gg_lock s).
Definition set_groups (m : H locked_group) (s : groups) : groups :=
  Groups (heap_objs s) m (gg_next_id s) (gg_lock s).
Definition set_gg_lock (b : bool) (s : groups) : groups := Groups (heap_objs s) (_groups s) (gg_next_id s) b.
Definition on_heap {A} (m : M (store H V) A) : M groups A := zoom heap_objs set_heap m.

(** The lock of the table, and the lock of one entry. *)
Definition lock_table : M groups () := s ← get_st; '(_, b) ← lift (lock (gg_lock s)); modify (set_gg_lock b).
Definition unlock_table : M groups () := s ← get_st; '(_, b) ← lift (unlock (gg_lock s)); modify (set_gg_lock b).
Definition entry (id : Z) : M groups locked_group := s ← get_st; lift (access (hm_map (_groups s) !! id)).
Definition put_entry (id : Z) (e : locked_group) : M groups () :=
  modify (λ s, set_groups (hm_write (_groups s) id e) s).
Definition lock_entry (id : Z) : M groups () :=
  e ← entry id; '(_, b) ← lift (lock (lg_lock e)); put_entry id (LockedGroup (grp e) b).
Definition unlock_entry (id : Z) : M groups () :=
  e ← entry id; '(_, b) ← lift (unlock (lg_lock e)); put_entry id (LockedGroup (grp e) b).

(** [func] takes the group it is a method of. *)
Definition gg_check_membership_and {A} (t id : Z) (func : Z → M (store H V) A) : M groups (option A) :=
  s ← get_st;
  lift (assertion (bool_decide (is_Some (hm_map (_groups s) !! id))));;
  lock_entry id;;
  e ← entry id;
  lift (assertion (negb (grp e =? 0)));;
  r ← on_heap (check_membership_and (grp e) t (func (grp e)));
  unlock_entry id;;
  mret r.

Definition new_group (garbage : bool) (t : Z) : M groups Z :=
  lock_table;;
  id ← gets gg_next_id;
  modify (λ s, Groups (heap_objs s) (_groups s) (u64 (id + 1)) (gg_lock s));;
  p ← on_heap (new_obj (OGroup (object_group_new 0 garbage)));
  modify (λ s, set_groups (hm_insert (_groups s) id (LockedGroup p false)) s);;
  s ← get_st;
  let '(e, m) := subscript no_group (_groups s) id in
  modify (set_groups m);;
  on_heap (add_member (grp e) t);;
  unlock_table;;
  mret id.

Definition remove_group (t id : Z) : M groups bool :=
  lock_table;;
  s ← get_st;
  match hm_map (_groups s) !! id with
  | None => unlock_table;; mret false
  | Some _ =>
      lock_entry id;;
      e ← entry id;
      r ← (if grp e =? 0 then mret false
           else
             is_member ← on_heap (check_membership (grp e) t);
             if is_member : bool then
               s ← get_st;
               let '(e, m) := subscript no_group (_groups s) id in
               modify (set_groups m);;
               on_heap (delete_object (grp e));;
               mret true
             else mret false);
      unlock_entry id;;
      unlock_table;;
      mret r
  end.
End groups.

(** ** Running the operations of a group *)
Section runs.
Context {H : Type → Type} `{!FrgHashMap H} `{!FrgHashMapLaws H}.
Context {V : Type → Type} `{!FrgVector V}.
Notation store := (store H V).
Implicit Types (s : store) (g : object_group H).

(** The group [g] is at [p]. *)
Definition group_at s p g : Prop := objs s !! p = Some (OGroup g).
Definition with_group s p g : store := Store (<[p := OGroup g]> (objs s)) (next_ptr s).

(** The methods do not wait: the lock is free, or they do not take it. *)
Definition open_group g : Prop := _dont_lock g = true ∨ _lock g = false.

(** What a handle stands for, and who is a member. *)
Definition object_of g (h : Z) : Z := default 0 (hm_map (_objects g) !! h).
Definition member_of g (t : Z) : bool := default false (hm_map (_members g) !! t).

Lemma group_at_with s p g : group_at (with_group s p g) p g.
Proof. unfold group_at. cbn. by rewrite lookup_insert_eq. Qed.

Lemma with_group_twice s p g g' : with_group (with_group s p g) p g' = with_group s p g'.
Proof. unfold with_group. cbn. by rewrite insert_insert_eq. Qed.

Lemma get_group_run s p g : group_at s p g → get_group p s = Ok (g, s).
Proof. intros Hp. unfold get_group, get_obj. cbv [mbind M_bind get_st lift access]. by rewrite Hp. Qed.

Lemma maybe_lock_run s p g :
  group_at s p g → open_group g → ∃ g', maybe_lock p s = Ok (tt, with_group s p g') ∧
    g' = set_lock (_lock g') g ∧ (_dont_lock g = false → _lock g' = true) ∧ (_dont_lock g = true → g' = g).
Proof.
  intros Hp Ho. unfold maybe_lock. run (get_group_run s p g Hp). destruct (_dont_lock g) eqn:Hd.
  - exists g. split_and!; [|by destruct g|done|done]. unfold with_group. rewrite insert_id by done. by destruct s.
  - destruct Ho as [|Hl]; [congruence|]. exists (set_lock true g). split_and!; [|done|done|done].
    unfold take_lock. run (get_group_run s p g Hp). rewrite Hl. done.
Qed.

Lemma maybe_unlock_run s p g :
  group_at s p g → maybe_unlock p s = Ok (tt, with_group s p (if _dont_lock g then g else set_lock false g)).
Proof.
  intros Hp. unfold maybe_unlock. run (get_group_run s p g Hp). destruct (_dont_lock g) eqn:Hd.
  - unfold with_group. rewrite insert_id by done. by destruct s.
  - unfold release_lock. by run (get_group_run s p g Hp).
Qed.

(** An operation between [maybe_lock] and [maybe_unlock] leaves the lock as
    it was. *)
Lemma unlock_restores g (gl g' : object_group H) :
  open_group g → gl = set_lock (_lock gl) g → (_dont_lock g = true → gl = g) →
  _dont_lock g' = _dont_lock g → _lock g' = _lock gl →
  (if _dont_lock g' then g' else set_lock false g') = set_lock (_lock g) g'.
Proof.
  intros Ho Hgl Hd Hd' Hl'. rewrite Hd'. destruct (_dont_lock g) eqn:E.
  - specialize (Hd eq_refl). subst gl. rewrite <- Hl'. by destruct g'.
  - destruct Ho as [|Hl]; [congruence|by rewrite Hl].
Qed.

Lemma assign_map {A} (d : A) (m : H A) k x : hm_map (assign d m k x) = <[k := x]> (hm_map m).
Proof.
  unfold assign. rewrite hm_write_map; rewrite hm_index_map; [by rewrite insert_insert_eq|by rewrite lookup_insert_eq].
Qed.

(** The result of a method that changes the group at [p] to [g']. *)
Lemma set_member_run s p g t b :
  group_at s p g → open_group g →
  set_member p t b s = Ok (tt, with_group s p (set_members (assign false (_members g) t b) g)).
Proof.
  intros Hp Ho. unfold set_member. destruct (maybe_lock_run s p g Hp Ho) as (gl & Hrun & Hgl & _ & Hd). run Hrun.
  run (get_group_run _ p gl (group_at_with s p gl)).
  run (eq_refl : put_group p (set_members (assign false (_members gl) t b) gl) (with_group s p gl) = Ok (tt, _)).
  set (g' := set_members _ gl). fold (with_group (with_group s p gl) p g').
  rewrite with_group_twice, (maybe_unlock_run _ p g'), with_group_twice by apply group_at_with.
  rewrite (unlock_restores g gl); [|done..| |]; [|subst g'; by rewrite Hgl|done].
  subst g'. rewrite Hgl. by destruct g.
Qed.

Lemma add_object_run s p g q o :
  group_at s p g → open_group g → q ≠ p → objs s !! q = Some o →
  let g' := set_objects (assign 0 (_objects g) (_next_id g) q) (set_next_id (u64 (_next_id g + 1)) g) in
  add_object p q s = Ok (_next_id g, Store (<[q := with_parent p o]> (<[p := OGroup g']> (objs s))) (next_ptr s)).
Proof.
  intros Hp Ho Hqp Hq g'. unfold add_object. destruct (maybe_lock_run s p g Hp Ho) as (gl & Hrun & Hgl & _ & Hd). run Hrun.
  run (get_group_run _ p gl (group_at_with s p gl)).
  set (gl' := set_objects _ (set_next_id _ gl)).
  run (eq_refl : put_group p gl' (with_group s p gl) = Ok (tt, with_group (with_group s p gl) p gl')).
  rewrite with_group_twice.
  assert (set_parent q p (with_group s p gl') = Ok (tt, Store (<[q := with_parent p o]> (<[p := OGroup gl']> (objs s))) (next_ptr s))) as Hset.
  { unfold set_parent, get_obj, put_obj. cbv [mbind M_bind get_st lift access modify]. cbn.
    rewrite lookup_insert_ne, Hq by done. reflexivity. }
  run Hset. assert (group_at (Store (<[q := with_parent p o]> (<[p := OGroup gl']> (objs s))) (next_ptr s)) p gl') as Hat.
  { unfold group_at. cbn. rewrite lookup_insert_ne by done. by rewrite lookup_insert_eq. }
  run (maybe_unlock_run _ _ _ Hat). cbv [mret M_ret].
  rewrite (unlock_restores g gl); [|done..| |]; [|subst gl'; by rewrite Hgl|done].
  unfold with_group. cbn [objs next_ptr]. rewrite (insert_insert_ne _ p q) by done. rewrite insert_insert_eq.
  subst gl' g'. rewrite Hgl. by destruct g.
Qed.

Lemma get_object_run s p g h :
  group_at s p g →
  get_object p h s = Ok (object_of g h, with_group s p (set_objects (hm_index 0 (_objects g) h) g)).
Proof. intros Hp. unfold get_object. by run (get_group_run s p g Hp). Qed.

Lemma check_membership_run s p g t :
  group_at s p g →
  check_membership p t s = Ok (member_of g t, with_group s p (set_members (hm_index false (_members g) t) g)).
Proof. intros Hp. unfold check_membership. by run (get_group_run s p g Hp). Qed.

Lemma member_of_index g t t' : member_of (set_members (hm_index false (_members g) t) g) t' = member_of g t'.
Proof.
  unfold member_of. cbn. rewrite hm_index_map. destruct (decide (t = t')) as [->|Ht].
  - by rewrite lookup_insert_eq.
  - by rewrite lookup_insert_ne.
Qed.

Lemma object_of_assign g h x h' :
  object_of (set_objects (assign 0 (_objects g) h x) g) h' = if decide (h = h') then x else object_of g h'.
Proof.
  unfold object_of. cbn. rewrite assign_map. case_decide as Hh; [subst; by rewrite lookup_insert_eq|by rewrite lookup_insert_ne].
Qed.

(** ** Deleting objects *)
Lemma drop_obj_run s p o : objs s !! p = Some o → drop_obj p s = Ok (tt, Store (delete p (objs s)) (next_ptr s)).
Proof. intros Hp. unfold drop_obj, get_obj. cbv [mbind M_bind get_st lift access modify]. by rewrite Hp. Qed.

Lemma get_obj_run s p o : objs s !! p = Some o → get_obj p s = Ok (o, s).
Proof. intros Hp. unfold get_obj. cbv [mbind M_bind get_st lift access]. by rewrite Hp. Qed.

Definition held g : list Z := snd <$> hm_entries (_objects g).

(** What an object holds, in the order in which it is deleted: a queue itself,
    a group what its handles stand for and then itself, the null pointer
    nothing. No group holds itself, since the derivation is finite. *)
Inductive holds (m : gmap Z (object H V)) : Z → list Z → Prop :=
| holds_null : holds m 0 []
| holds_queue q qq : q ≠ 0 → m !! q = Some (OQueue qq) → holds m q [q]
| holds_group q g l : q ≠ 0 → m !! q = Some (OGroup g) → holds_list m (held g) l → holds m q (l ++ [q])
with holds_list (m : gmap Z (object H V)) : list Z → list Z → Prop :=
| holds_nil : holds_list m [] []
| holds_cons q l ql l' : holds m q l → holds_list m ql l' → holds_list m (q :: ql) (l ++ l').

Scheme holds_mut := Minimality for holds Sort Prop
  with holds_list_mut := Minimality for holds_list Sort Prop.
Combined Scheme holds_both_ind from holds_mut, holds_list_mut.

Lemma holds_self m q l : holds m q l → q ≠ 0 → q ∈ l.
Proof. intros [] Hq; [done|set_solver..]. Qed.

(** Everything held exists. *)
Lemma holds_dom m :
  (∀ q l, holds m q l → Forall (λ k, is_Some (m !! k)) l) ∧
  (∀ ql l, holds_list m ql l → Forall (λ k, is_Some (m !! k)) l).
Proof.
  apply holds_both_ind; intros; try apply Forall_app_2; repeat (apply Forall_cons; split); try done; by apply Forall_nil.
Qed.

Lemma holds_size s q l : holds (objs s) q l → NoDup l → (length l ≤ size (objs s))%nat.
Proof.
  intros Hl Hnd. pose proof (proj1 (holds_dom _) q l Hl) as Hd.
  rewrite <- size_dom, <- (size_list_to_set (C := gset Z) l Hnd). apply subseteq_size. intros k Hk.
  apply elem_of_list_to_set in Hk. apply elem_of_dom. rewrite Forall_forall in Hd. by apply Hd.
Qed.

(** What is held depends on the tables of the groups only. *)
Definition same_held (o o' : option (object H V)) : Prop :=
  match o, o' with
  | Some (OQueue _), Some (OQueue _) => True
  | Some (OGroup g), Some (OGroup g') => _objects g' = _objects g
  | _, _ => False
  end.

Lemma same_held_refl (o : object H V) : same_held (Some o) (Some o).
Proof. by destruct o. Qed.

Lemma same_held_parent p (o : object H V) : same_held (Some o) (Some (with_parent p o)).
Proof. by destruct o. Qed.

Lemma holds_stable m m' :
  (∀ q l, holds m q l → (∀ k, k ∈ l → same_held (m !! k) (m' !! k)) → holds m' q l) ∧
  (∀ ql l, holds_list m ql l → (∀ k, k ∈ l → same_held (m !! k) (m' !! k)) → holds_list m' ql l).
Proof.
  apply holds_both_ind.
  - intros _. constructor.
  - intros q qq H0 Hq Hs. specialize (Hs q ltac:(set_solver)). rewrite Hq in Hs. cbn in Hs.
    destruct (m' !! q) as [[|qq']|] eqn:E; [done|by econstructor|done].
  - intros q g l H0 Hq _ IH Hs. pose proof (Hs q ltac:(set_solver)) as Hg. rewrite Hq in Hg. cbn in Hg.
    destruct (m' !! q) as [[g'|]|] eqn:E; [|done..]. apply (holds_group m' q g' l H0 E).
    unfold held. rewrite Hg. apply IH. set_solver.
  - intros _. constructor.
  - intros q l ql l' _ IH1 _ IH2 Hs. constructor; [apply IH1|apply IH2]; set_solver.
Qed.

(** [s'] is [s] without the objects of [l]. *)
Definition without s (l : list Z) s' : Prop := ∀ k, objs s' !! k = if decide (k ∈ l) then None else objs s !! k.

(** Deleting an object that holds [l], each once, deletes [l] and nothing else. *)
Lemma delete_held_run m :
  (∀ q l, holds m q l → ∀ fuel s, NoDup l → (length l ≤ fuel)%nat → (∀ k, k ∈ l → objs s !! k = m !! k) →
     ∃ s', delete_loop fuel q s = Ok (tt, s') ∧ without s l s') ∧
  (∀ ql l, holds_list m ql l → ∀ fuel s, NoDup l → (length l ≤ fuel)%nat → (∀ k, k ∈ l → objs s !! k = m !! k) →
     ∃ s', for_each (delete_loop fuel) ql s = Ok (tt, s') ∧ without s l s').
Proof.
  apply holds_both_ind.
  - intros fuel s _ _ _. exists s. split; [by destruct fuel|]. intros k. by rewrite decide_False by set_solver.
  - intros q qq H0 Hq [|fuel] s _ Hf Hs; [cbn in Hf; lia|]. specialize (Hs q ltac:(set_solver)). rewrite Hq in Hs.
    exists (Store (delete q (objs s)) (next_ptr s)). split.
    + cbn [delete_loop]. rewrite (proj2 (Z.eqb_neq q 0) H0). run (get_obj_run s q _ Hs).
      cbv [mbind M_bind mret M_ret]. by apply (drop_obj_run s q (OQueue qq)).
    + intros k. cbn. case_decide as Hk; [apply list_elem_of_singleton in Hk as ->; apply lookup_delete_eq|].
      by rewrite lookup_delete_ne by set_solver.
  - intros q g l H0 Hq _ IH [|fuel] s Hnd Hf Hs; rewrite length_app in Hf; cbn in Hf; [lia|].
    apply NoDup_app in Hnd as (Hnd & Hql & _). pose proof (Hs q ltac:(set_solver)) as Hsq. rewrite Hq in Hsq.
    assert (q ∉ l) as Hnq by (intros Hin; apply (Hql q Hin); set_solver).
    destruct (IH fuel s Hnd ltac:(lia)) as (s1 & Hrun & Hs1); [intros k Hk; apply Hs; set_solver|].
    assert (objs s1 !! q = Some (OGroup g)) as Hq1 by by rewrite Hs1, decide_False.
    exists (Store (delete q (objs s1)) (next_ptr s1)). split.
    + cbn [delete_loop]. rewrite (proj2 (Z.eqb_neq q 0) H0). run (get_obj_run s q _ Hsq). run Hrun.
      by apply (drop_obj_run s1 q (OGroup g)).
    + intros k. cbn. destruct (decide (k = q)) as [->|Hk]; [rewrite lookup_delete_eq, decide_True by set_solver; done|].
      rewrite lookup_delete_ne, Hs1 by done. do 2 case_decide; set_solver.
  - intros fuel s _ _ _. exists s. split; [done|]. intros k. by rewrite decide_False by set_solver.
  - intros q l ql l' _ IH1 _ IH2 fuel s Hnd Hf Hs. rewrite length_app in Hf. apply NoDup_app in Hnd as (Hn1 & Hd & Hn2).
    destruct (IH1 fuel s Hn1 ltac:(lia)) as (s1 & E1 & W1); [intros k Hk; apply Hs; set_solver|].
    destruct (IH2 fuel s1 Hn2 ltac:(lia)) as (s2 & E2 & W2).
    { intros k Hk. rewrite W1, decide_False; [apply Hs; set_solver|]. intros Hk'. by apply (Hd k). }
    exists s2. split; [cbn [for_each]; run E1; exact E2|]. intros k. rewrite W2, W1. repeat case_decide; set_solver.
Qed.

Lemma delete_object_run s q l :
  holds (objs s) q l → NoDup l → ∃ s', delete_object q s = Ok (tt, s') ∧ without s l s'.
Proof.
  intros Hl Hnd. pose proof (holds_size s q l Hl Hnd). unfold delete_object.
  apply (proj1 (delete_held_run (objs s)) q l Hl); [done|lia|done].
Qed.

Definition queue_at s (q : Z) : Prop := q ≠ 0 ∧ ∃ qq, objs s !! q = Some (OQueue qq).

(** Every handle of the group stands for a queue of its own. *)
Definition holds_queues s g : Prop :=
  (∀ h q, hm_map (_objects g) !! h = Some q → queue_at s q) ∧
  (∀ h h' q, hm_map (_objects g) !! h = Some q → hm_map (_objects g) !! h' = Some q → h = h').

Lemma held_objects s g :
  holds_queues s g →
  NoDup (snd <$> hm_entries (_objects g)) ∧ Forall (queue_at s) (snd <$> hm_entries (_objects g)) ∧
  (∀ q, q ∈ snd <$> hm_entries (_objects g) ↔ ∃ h, hm_map (_objects g) !! h = Some q).
Proof.
  intros [Hq Hinj]. assert (∀ q, q ∈ snd <$> hm_entries (_objects g) ↔ ∃ h, hm_map (_objects g) !! h = Some q) as Hin.
  { intros q. rewrite hm_entries_map, list_elem_of_fmap. split.
    - intros ([h x] & -> & Hx). exists h. by apply elem_of_map_to_list in Hx.
    - intros [h Hh]. exists (h, q). split; [done|]. by apply elem_of_map_to_list. }
  split_and!; [| |done].
  - rewrite hm_entries_map. apply NoDup_fmap_2_strong; [|apply NoDup_map_to_list].
    intros [h x] [h' x'] Hx Hx' Heq. cbn in Heq. subst x'. apply elem_of_map_to_list in Hx, Hx'.
    by rewrite (Hinj h h' x).
  - apply Forall_forall. intros q [h Hh]%Hin. by apply (Hq h).
Qed.

Lemma queues_held s l : Forall (queue_at s) l → holds_list (objs s) l l.
Proof.
  induction 1 as [|q l [H0 [qq Hq]] _ IH]; [constructor|]. apply (holds_cons _ q [q]); [by apply (holds_queue _ q qq)|done].
Qed.

Lemma delete_group_run s p g :
  p ≠ 0 → group_at s p g → holds_queues s g →
  ∃ s', delete_object p s = Ok (tt, s') ∧
    ∀ k, objs s' !! k = if decide (k = p ∨ k ∈ held g) then None else objs s !! k.
Proof.
  intros H0 Hp Hg. destruct (held_objects s g Hg) as (Hnd & Hall & Hin). fold (held g) in *.
  assert (p ∉ held g) as Hpn.
  { intros [h Hh]%Hin. destruct (proj1 Hg h p Hh) as [_ [qq Hqq]]. unfold group_at in Hp. congruence. }
  destruct (delete_object_run s p (held g ++ [p])) as (s' & Hrun & Hs').
  - apply (holds_group _ p g); [done..|]. by apply queues_held.
  - apply NoDup_app. split_and!; [done| |apply NoDup_singleton]. intros k Hk Hk'. set_solver.
  - exists s'. split; [done|]. intros k. rewrite Hs'. do 2 case_decide; set_solver.
Qed.

(** Removing a handle deletes what its object holds, once the entry is gone. *)
Lemma remove_object_run s p g h q l :
  group_at s p g → open_group g → hm_map (_objects g) !! h = Some q → holds (objs s) q l → NoDup l → p ∉ l →
  ∃ s', remove_object p h s = Ok (tt, s') ∧
    without (with_group s p (set_objects (hm_remove (_objects g) h) g)) l s'.
Proof.
  intros Hp Ho Hh Hl Hnd Hpl. unfold remove_object.
  destruct (maybe_lock_run s p g Hp Ho) as (gl & Hrun & Hgl & _ & Hd). run Hrun.
  run (get_group_run _ p gl (group_at_with s p gl)).
  assert (_objects gl = _objects g) as Hog by by rewrite Hgl.
  rewrite Hog, Hh. run (eq_refl : lift (Ok q) (with_group s p gl) = Ok (q, with_group s p gl)).
  set (gl' := set_objects _ gl).
  run (eq_refl : put_group p gl' (with_group s p gl) = Ok (tt, with_group (with_group s p gl) p gl')).
  rewrite with_group_twice. destruct (delete_object_run (with_group s p gl') q l) as (s1 & Hdel & Hs1); [|done|].
  { apply (proj1 (holds_stable (objs s) _) q l Hl). intros k Hk. cbn. rewrite lookup_insert_ne by (intros ->; done).
    pose proof (proj1 (holds_dom _) q l Hl) as Hdom. rewrite Forall_forall in Hdom. destruct (Hdom k Hk) as [o ->]. apply same_held_refl. }
  run Hdel. assert (group_at s1 p gl') as Hp1 by (unfold group_at; rewrite Hs1, decide_False by done; apply group_at_with).
  rewrite (maybe_unlock_run s1 p gl' Hp1). eexists. split; [reflexivity|].
  rewrite (unlock_restores g gl); [|done..| |done]; [|subst gl'; by rewrite Hgl].
  replace (set_lock (_lock g) gl') with (set_objects (hm_remove (_objects g) h) g) by (subst gl'; rewrite Hgl; by destruct g).
  intros k. cbn. destruct (decide (k = p)) as [->|Hk]; [by rewrite !lookup_insert_eq, decide_False|].
  rewrite !lookup_insert_ne, Hs1 by done. cbn. by rewrite lookup_insert_ne.
Qed.

(** ** Fresh handles *)

(** Handles that stand for an object have been given out. *)
Definition handles_ok g : Prop := ∀ h, object_of g h ≠ 0 → 0 ≤ h < _next_id g.

Lemma handles_new (parent : Z) (garbage : bool) : handles_ok (object_group_new parent garbage).
Proof. intros h. unfold object_of. cbn. by rewrite hm_empty_map, lookup_empty. Qed.

Lemma handles_add g q :
  handles_ok g → 0 ≤ _next_id g < 2 ^ 64 - 1 →
  handles_ok (set_objects (assign 0 (_objects g) (_next_id g) q) (set_next_id (u64 (_next_id g + 1)) g)).
Proof.
  intros Hg Hn h. pose proof (object_of_assign (set_next_id (u64 (_next_id g + 1)) g) (_next_id g) q h) as E. cbn in E. cbn.
  rewrite E, u64_small by lia. case_decide as Hh; [lia|]. intros Ho. specialize (Hg h Ho). lia.
Qed.

Lemma handles_remove g h : handles_ok g → handles_ok (set_objects (hm_remove (_objects g) h) g).
Proof.
  intros Hg h' Ho. apply Hg. revert Ho. unfold object_of. cbn. rewrite hm_remove_map.
  destruct (decide (h = h')) as [->|Hh]; [by rewrite lookup_delete_eq|by rewrite lookup_delete_ne].
Qed.

Lemma handles_index g h : handles_ok g → handles_ok (set_objects (hm_index 0 (_objects g) h) g).
Proof.
  intros Hg h' Ho. apply Hg. revert Ho. unfold object_of. cbn. rewrite hm_index_map.
  destruct (decide (h = h')) as [->|Hh]; [by rewrite lookup_insert_eq|by rewrite lookup_insert_ne].
Qed.
End runs.
