(* ===== verification/GroupProps.v ===== *)
(** * Properties of object groups (object/group.cpp, proc/groups.h)

    Handles and their objects, membership as the condition for running a
    method, and what becomes of a group that is removed. The theorems hold
    for every hash map and vector that meet the laws of Frigg.v. *)
From S2P Require Import Prelude Frigg Spinlock IpcQueue Object.
From stdpp Require Import base numbers option gmap list.
#[local] Open Scope Z_scope.

Section group.
Context {H : Type → Type} `{!FrgHashMap H} `{!FrgHashMapLaws H}.
Context {V : Type → Type} `{!FrgVector V}.
Notation store := (store H V).
Notation groups := (groups H V).
Implicit Types (s : store) (g : object_group H).

Lemma take_lock_run s p g :
  group_at s p g → _lock g = false → take_lock p s = Ok (tt, with_group s p (set_lock true g)).
Proof. intros Hp Hl. unfold take_lock. run (get_group_run s p g Hp). by rewrite Hl. Qed.

Lemma release_lock_run s p g :
  group_at s p g → release_lock p s = Ok (tt, with_group s p (set_lock false g)).
Proof. intros Hp. unfold release_lock. by run (get_group_run s p g Hp). Qed.

(** The group after the test of membership, with the lock [b]. *)
Definition tested g (t : Z) (b : bool) : object_group H := set_members (hm_index false (_members g) t) (set_lock b g).

Lemma tested_members g t b t' : member_of (tested g t b) t' = member_of g t'.
Proof. exact (member_of_index (set_lock b g) t t'). Qed.

Lemma check_refused {A} s p g t (f : M store A) :
  group_at s p g → _lock g = false → member_of g t = false →
  check_membership_and p t f s = Ok (None, with_group s p (tested g t false)).
Proof.
  intros Hp Hl Hm. unfold check_membership_and. run (take_lock_run s p g Hp Hl).
  run (check_membership_run _ p _ t (group_at_with s p (set_lock true g))).
  change (member_of (set_lock true g) t) with (member_of g t). rewrite Hm, with_group_twice.
  run (release_lock_run _ p _ (group_at_with s p (set_members (hm_index false (_members (set_lock true g)) t) (set_lock true g)))).
  by rewrite with_group_twice.
Qed.

Lemma check_granted {A} s p g t (f : M store A) r s2 g2 :
  group_at s p g → _lock g = false → member_of g t = true →
  f (with_group s p (set_dont_lock true (tested g t true))) = Ok (r, s2) → group_at s2 p g2 →
  check_membership_and p t f s = Ok (Some r, with_group s2 p (set_lock false (set_dont_lock false g2))).
Proof.
  intros Hp Hl Hm Hf Hp2. unfold check_membership_and. run (take_lock_run s p g Hp Hl).
  run (check_membership_run _ p _ t (group_at_with s p (set_lock true g))).
  change (member_of (set_lock true g) t) with (member_of g t). rewrite Hm, with_group_twice.
  fold (tested g t true). run (get_group_run _ p _ (group_at_with s p (tested g t true))).
  run (eq_refl : put_group p (set_dont_lock true (tested g t true)) (with_group s p (tested g t true)) =
    Ok (tt, with_group (with_group s p (tested g t true)) p (set_dont_lock true (tested g t true)))).
  rewrite with_group_twice. run Hf. run (get_group_run s2 p g2 Hp2).
  run (eq_refl : put_group p (set_dont_lock false g2) s2 = Ok (tt, with_group s2 p (set_dont_lock false g2))).
  run (release_lock_run _ p _ (group_at_with s2 p (set_dont_lock false g2))). by rewrite with_group_twice.
Qed.

Lemma check_missing {A} s p t (f : M store A) : objs s !! p = None → check_membership_and p t f s = Fault.
Proof.
  intros Hp. unfold check_membership_and, take_lock, get_group, get_obj.
  cbv [mbind M_bind get_st lift access]. by rewrite Hp.
Qed.

Lemma object_of_value s p g h : group_at s p g → value (get_object p h s) = Some (object_of g h).
Proof. intros Hp. by rewrite (get_object_run s p g h Hp). Qed.

(** ** The table of groups *)
Implicit Types (gs : groups).

Lemma lock_entry_run gs id p :
  hm_map (_groups gs) !! id = Some (LockedGroup p false) →
  ∃ m, lock_entry id gs = Ok (tt, set_groups m gs) ∧ hm_map m = <[id := LockedGroup p true]> (hm_map (_groups gs)).
Proof.
  intros He. unfold lock_entry, entry. cbv [mbind M_bind get_st lift access lock]. rewrite He. cbn.
  eexists. split; [reflexivity|]. by rewrite hm_write_map by by rewrite He.
Qed.

Lemma unlock_entry_run gs id e :
  hm_map (_groups gs) !! id = Some e →
  ∃ m, unlock_entry id gs = Ok (tt, set_groups m gs) ∧
    hm_map m = <[id := LockedGroup (grp e) false]> (hm_map (_groups gs)).
Proof.
  intros He. unfold unlock_entry, entry. cbv [mbind M_bind get_st lift access unlock]. rewrite He. cbn.
  eexists. split; [reflexivity|]. by rewrite hm_write_map by by rewrite He.
Qed.

Lemma entry_run gs id e : hm_map (_groups gs) !! id = Some e → entry id gs = Ok (e, gs).
Proof. intros He. unfold entry. cbv [mbind M_bind get_st lift access]. by rewrite He. Qed.

Lemma on_heap_run {A} gs (m : M store A) a s' :
  m (heap_objs gs) = Ok (a, s') → on_heap m gs = Ok (a, set_heap s' gs).
Proof. intros Hm. unfold on_heap, zoom. by rewrite Hm. Qed.

Lemma lock_table_run gs : gg_lock gs = false → lock_table gs = Ok (tt, set_gg_lock true gs).
Proof. intros Hl. unfold lock_table. cbv [mbind M_bind get_st lift lock modify]. by rewrite Hl. Qed.

Lemma unlock_table_run gs : unlock_table gs = Ok (tt, set_gg_lock false gs).
Proof. done. Qed.

(** A call through the table, when the method's own call returns. *)
Lemma gg_check_run {A} gs t id p (f : Z → M store A) r s' :
  hm_map (_groups gs) !! id = Some (LockedGroup p false) → p ≠ 0 →
  check_membership_and p t (f p) (heap_objs gs) = Ok (r, s') →
  ∃ m, gg_check_membership_and t id f gs = Ok (r, set_groups m (set_heap s' gs)) ∧ hm_map m = hm_map (_groups gs).
Proof.
  intros He Hp Hc. unfold gg_check_membership_and.
  run (eq_refl : get_st gs = Ok (gs, gs)). rewrite bool_decide_eq_true_2 by by rewrite He.
  run (eq_refl : lift (assertion true) gs = Ok (tt, gs)).
  destruct (lock_entry_run gs id p He) as (m1 & Hrun & Hm1). run Hrun.
  assert (hm_map (_groups (set_groups m1 gs)) !! id = Some (LockedGroup p true)) as He1 by (cbn; by rewrite Hm1, lookup_insert_eq).
  run (entry_run _ id _ He1). cbn [grp]. rewrite (proj2 (Z.eqb_neq p 0) Hp).
  run (eq_refl : lift (assertion (negb false)) (set_groups m1 gs) = Ok (tt, set_groups m1 gs)).
  run (on_heap_run (set_groups m1 gs) _ r s' Hc).
  destruct (unlock_entry_run (set_heap s' (set_groups m1 gs)) id _ He1) as (m2 & Hrun2 & Hm2). run Hrun2.
  exists m2. split; [done|]. rewrite Hm2. cbn. rewrite Hm1, insert_insert_eq. by apply insert_id.
Qed.

(** ... and when the group does not exist any more. *)
Lemma gg_check_dangling {A} gs t id p b (f : Z → M store A) :
  hm_map (_groups gs) !! id = Some (LockedGroup p b) → p ≠ 0 → b = false → objs (heap_objs gs) !! p = None →
  gg_check_membership_and t id f gs = Fault.
Proof.
  intros He Hp -> Hn. unfold gg_check_membership_and.
  run (eq_refl : get_st gs = Ok (gs, gs)). rewrite bool_decide_eq_true_2 by by rewrite He.
  run (eq_refl : lift (assertion true) gs = Ok (tt, gs)).
  destruct (lock_entry_run gs id p He) as (m1 & Hrun & Hm1). run Hrun.
  assert (hm_map (_groups (set_groups m1 gs)) !! id = Some (LockedGroup p true)) as He1 by (cbn; by rewrite Hm1, lookup_insert_eq).
  run (entry_run _ id _ He1). cbn [grp]. rewrite (proj2 (Z.eqb_neq p 0) Hp).
  run (eq_refl : lift (assertion (negb false)) (set_groups m1 gs) = Ok (tt, set_groups m1 gs)).
  cbv [mbind M_bind on_heap zoom]. cbn [heap_objs set_groups]. by rewrite check_missing.
Qed.
(** The group that [new_group] makes. *)
Definition group_of (garbage : bool) (t : Z) : object_group H :=
  set_members (assign false (_members (object_group_new 0 garbage)) t true) (object_group_new 0 garbage).

Lemma group_of_members garbage t t' : member_of (group_of garbage t) t' = bool_decide (t' = t).
Proof.
  unfold member_of, group_of. cbn. rewrite assign_map, hm_empty_map. destruct (decide (t' = t)) as [->|Ht].
  - by rewrite lookup_insert_eq, bool_decide_eq_true_2.
  - by rewrite lookup_insert_ne, bool_decide_eq_false_2 by done.
Qed.

Lemma new_group_run gs garbage t :
  let st := heap_objs gs in
  let p := next_ptr st in
  gg_lock gs = false → hm_map (_groups gs) !! gg_next_id gs = None →
  ∃ m, new_group garbage t gs =
      Ok (gg_next_id gs, Groups (with_group (Store (objs st) (p + 1)) p (group_of garbage t)) m (u64 (gg_next_id gs + 1)) false) ∧
    hm_map m = <[gg_next_id gs := LockedGroup p false]> (hm_map (_groups gs)).
Proof.
  intros st p Hl Hid. set (id := gg_next_id gs) in *. set (m1 := hm_insert (_groups gs) id (LockedGroup p false)).
  assert (hm_map m1 = <[id := LockedGroup p false]> (hm_map (_groups gs))) as Hm1 by by apply hm_insert_map.
  exists (hm_index no_group m1 id). split.
  - unfold new_group. run (lock_table_run gs Hl).
    run (eq_refl : gets gg_next_id (set_gg_lock true gs) = Ok (id, set_gg_lock true gs)).
    cbv [modify on_heap zoom new_obj subscript].
    cbv [mbind M_bind get_st]. cbn [heap_objs set_gg_lock set_groups set_heap _groups gg_next_id gg_lock].
    fold st p m1. rewrite Hm1, lookup_insert_eq. cbn [default grp Datatypes.id from_option].
    set (g0 := object_group_new 0 garbage). set (s0 := Store _ (p + 1)).
    assert (add_member p t s0 = Ok (tt, with_group s0 p (group_of garbage t))) as Hadd.
    { apply set_member_run; [unfold group_at; cbn; by rewrite lookup_insert_eq|by right]. }
    rewrite Hadd. unfold with_group, s0. cbn. by rewrite insert_insert_eq.
  - rewrite hm_index_map, Hm1, lookup_insert_eq. cbn. by rewrite insert_insert_eq.
Qed.

(** A member adds an object through the table and looks it up again. *)
Lemma member_adds_run gs t id p g q o :
  hm_map (_groups gs) !! id = Some (LockedGroup p false) → p ≠ 0 → q ≠ p →
  group_at (heap_objs gs) p g → _lock g = false → member_of g t = true → objs (heap_objs gs) !! q = Some o →
  ∃ gs2, gg_check_membership_and t id (λ p, add_object p q) gs = Ok (Some (_next_id g), gs2) ∧
    value (gg_check_membership_and t id (λ p, get_object p (_next_id g)) gs2) = Some (Some q).
Proof.
  intros He Hn0 Hqp Hp Hl Hm Hq. set (h1 := heap_objs gs) in *. set (ga := set_dont_lock true (tested g t true)).
  assert (objs (with_group h1 p ga) !! q = Some o) as Hq1 by (cbn; by rewrite !lookup_insert_ne by done).
  pose proof (add_object_run (with_group h1 p ga) p ga q _ (group_at_with _ _ _) (or_introl eq_refl) Hqp Hq1) as Hadd.
  cbn zeta in Hadd. set (g2 := set_objects _ _) in Hadd. set (s2 := Store _ _) in Hadd.
  assert (group_at s2 p g2) as Hp2.
  { unfold group_at, s2. cbn. rewrite lookup_insert_ne by done. by rewrite lookup_insert_eq. }
  pose proof (check_granted h1 p g t (add_object p q) _ _ _ Hp Hl Hm Hadd Hp2) as Hc.
  destruct (gg_check_run gs t id p (λ p, add_object p q) _ _ He Hn0 Hc) as (m2 & Hrun & Hm2).
  eexists. split; [exact Hrun|]. set (g3 := set_lock false (set_dont_lock false g2)) in *.
  assert (member_of g3 t = true) as Hm3 by (unfold g3, g2; exact (eq_trans (tested_members g t true t) Hm)).
  set (gb := set_dont_lock true (tested g3 t true)).
  pose proof (check_granted (with_group s2 p g3) p g3 t (get_object p (_next_id g)) _ _ _ (group_at_with _ _ _) eq_refl Hm3
    (get_object_run _ p gb (_next_id g) (group_at_with _ p gb)) (group_at_with _ _ _)) as Hc3.
  destruct (gg_check_run (set_groups m2 (set_heap (with_group s2 p g3) gs)) t id p (λ p, get_object p (_next_id g)) _ _
    (eq_trans (f_equal (.!! id) Hm2) He) Hn0 Hc3) as (m4 & Hrun4 & _).
  rewrite Hrun4. cbn. unfold object_of. cbn. by rewrite assign_map, lookup_insert_eq.
Qed.
(** [remove_group] up to the test of membership. *)
Lemma remove_group_test gs t id p g :
  gg_lock gs = false → hm_map (_groups gs) !! id = Some (LockedGroup p false) → p ≠ 0 →
  group_at (heap_objs gs) p g →
  ∃ gs1 m1, hm_map m1 = <[id := LockedGroup p true]> (hm_map (_groups gs)) ∧
    gs1 = Groups (with_group (heap_objs gs) p (set_members (hm_index false (_members g) t) g)) m1 (gg_next_id gs) true ∧
    remove_group t id gs =
      (r ← (if member_of g t then
              s ← get_st;
              let '(e, m) := subscript no_group (_groups s) id in
              modify (set_groups m);; on_heap (delete_object (grp e));; mret true
            else mret false);
       unlock_entry id;; unlock_table;; mret r) gs1.
Proof.
  intros Hl He Hp Hg. destruct (lock_entry_run (set_gg_lock true gs) id p He) as (m1 & Hrun & Hm1).
  eexists _, m1. split_and!; [done|reflexivity|]. unfold remove_group. run (lock_table_run gs Hl).
  run (eq_refl : get_st (set_gg_lock true gs) = Ok (set_gg_lock true gs, set_gg_lock true gs)).
  change (_groups (set_gg_lock true gs)) with (_groups gs). rewrite He. run Hrun.
  assert (hm_map (_groups (set_groups m1 (set_gg_lock true gs))) !! id = Some (LockedGroup p true)) as He1
    by (cbn; by rewrite Hm1, lookup_insert_eq).
  run (entry_run _ id _ He1). cbn [grp]. rewrite (proj2 (Z.eqb_neq p 0) Hp).
  cbv [mbind M_bind]. rewrite (on_heap_run (set_groups m1 (set_gg_lock true gs)) _ _ _ (check_membership_run (heap_objs gs) p g t Hg)).
  by destruct (member_of g t).
Qed.

(** [remove_group] of a group that is gone. *)
Lemma remove_group_dangling gs t id p :
  gg_lock gs = false → hm_map (_groups gs) !! id = Some (LockedGroup p false) → p ≠ 0 →
  objs (heap_objs gs) !! p = None → remove_group t id gs = Fault.
Proof.
  intros Hl He Hp Hg. destruct (lock_entry_run (set_gg_lock true gs) id p He) as (m1 & Hrun & Hm1).
  unfold remove_group. run (lock_table_run gs Hl).
  run (eq_refl : get_st (set_gg_lock true gs) = Ok (set_gg_lock true gs, set_gg_lock true gs)).
  change (_groups (set_gg_lock true gs)) with (_groups gs). rewrite He. run Hrun.
  assert (hm_map (_groups (set_groups m1 (set_gg_lock true gs))) !! id = Some (LockedGroup p true)) as He1
    by (cbn; by rewrite Hm1, lookup_insert_eq).
  run (entry_run _ id _ He1). cbn [grp]. rewrite (proj2 (Z.eqb_neq p 0) Hp).
  cbv [mbind M_bind on_heap zoom check_membership get_group get_obj get_st lift access].
  cbn [heap_objs set_groups set_gg_lock]. by rewrite Hg.
Qed.

(** The end of [remove_group]: both locks are released. *)
Lemma remove_group_end gs r id p b :
  hm_map (_groups gs) !! id = Some (LockedGroup p b) →
  ∃ m, (unlock_entry id;; unlock_table;; mret r) gs = Ok (r : bool, Groups (heap_objs gs) m (gg_next_id gs) false) ∧
    hm_map m = <[id := LockedGroup p false]> (hm_map (_groups gs)).
Proof.
  intros He. destruct (unlock_entry_run gs id _ He) as (m & Hrun & Hm). exists m. split; [|done].
  by run Hrun.
Qed.
End group.

(** C32. Handles. In a group whose handles are below its counter (so in a new
    group, and after every operation here), with fewer than [2^64 - 1] given out,
    [add_object] returns a fresh handle: before it gave the null pointer, now it
    stands for the object, and no other handle changes its meaning; the object's parent
    is the group. [remove_object] of the handle deletes the object with all
    it holds, a group with its objects and theirs, and nothing else; the handle then gives the null
    pointer, and it is not given out again. The objects held are distinct, and
    the group is not one of them. *)
Theorem object_group_handles (H V : Type → Type) `{!FrgHashMap H} `{!FrgHashMapLaws H} `{!FrgVector V}
    (s : store H V) (p : Z) (g : object_group H) (q : Z) (l : list Z) :
  group_at s p g → open_group g → handles_ok g → 0 ≤ _next_id g < 2 ^ 64 - 1 →
  q ≠ 0 → holds (objs s) q l → NoDup l → p ∉ l →
  value (get_object p (_next_id g) s) = Some 0 ∧
  ∃ s1, add_object p q s = Ok (_next_id g, s1) ∧
    value (get_object p (_next_id g) s1) = Some q ∧
    (∀ h, h ≠ _next_id g → value (get_object p h s1) = value (get_object p h s)) ∧
    parent <$> objs s1 !! q = Some p ∧
    (∃ g1, group_at s1 p g1 ∧ handles_ok g1 ∧ _next_id g1 = _next_id g + 1) ∧
    ∃ s2, remove_object p (_next_id g) s1 = Ok (tt, s2) ∧
      q ∈ l ∧ (∀ k, k ∈ l → is_Some (objs s !! k) ∧ objs s2 !! k = None) ∧
      (∀ k, k ≠ p → k ∉ l → objs s2 !! k = objs s !! k) ∧
      value (get_object p (_next_id g) s2) = Some 0 ∧
      ∃ g2, group_at s2 p g2 ∧ handles_ok g2 ∧ _next_id g2 = _next_id g + 1.
Proof.
  intros Hp Ho Hok Hn H0 Hl Hnd Hpl. pose proof (holds_self _ q l Hl H0) as Hql.
  pose proof (proj1 (holds_dom _) q l Hl) as Hdom. rewrite Forall_forall in Hdom.
  destruct (Hdom q Hql) as [o Hq]. assert (q ≠ p) as Hqp by (intros ->; done).
  pose proof (add_object_run s p g q o Hp Ho Hqp Hq) as Hadd. cbn zeta in Hadd.
  pose proof (handles_add g q Hok Hn) as Hok1. set (g1 := set_objects _ _) in Hadd, Hok1. set (s1 := Store _ _) in Hadd.
  assert (group_at s1 p g1) as Hp1.
  { unfold group_at, s1. cbn. rewrite lookup_insert_ne by done. by rewrite lookup_insert_eq. }
  assert (∀ h, object_of g1 h = if decide (_next_id g = h) then q else object_of g h) as Hobj.
  { intros h. exact (object_of_assign (set_next_id (u64 (_next_id g + 1)) g) (_next_id g) q h). }
  assert (_next_id g1 = _next_id g + 1) as En by (apply u64_small; lia).
  assert (hm_map (_objects g1) !! _next_id g = Some q) as Hh by (unfold g1; cbn; by rewrite assign_map, lookup_insert_eq).
  assert (holds (objs s1) q l) as Hl1.
  { apply (proj1 (holds_stable (objs s) _) q l Hl). intros k Hk. destruct (Hdom k Hk) as [o' Ho']. rewrite Ho'. unfold s1. cbn.
    destruct (decide (k = q)) as [->|Hkq].
    - rewrite lookup_insert_eq. rewrite Hq in Ho'. injection Ho' as <-. apply same_held_parent.
    - rewrite !lookup_insert_ne, Ho' by (done || by intros ->). apply same_held_refl. }
  destruct (remove_object_run s1 p g1 (_next_id g) q l Hp1 Ho Hh Hl1 Hnd Hpl) as (s2 & Hrem & Hs2). set (g2 := set_objects (hm_remove _ _) g1) in Hs2.
  assert (group_at s2 p g2) as Hp2 by (unfold group_at; rewrite Hs2, decide_False by done; apply group_at_with).
  split.
  { rewrite (object_of_value s p g _ Hp). f_equal. destruct (decide (object_of g (_next_id g) = 0)) as [|Hne]; [done|].
    specialize (Hok _ Hne). lia. }
  exists s1. split_and!; [exact Hadd| | | |by exists g1|exists s2; split_and!; [exact Hrem|done| | | |]].
  - by rewrite (object_of_value s1 p g1), Hobj, decide_True.
  - intros h Hne. by rewrite (object_of_value s1 p g1), (object_of_value s p g), Hobj, decide_False.
  - unfold s1. cbn. rewrite lookup_insert_eq. by destruct o.
  - intros k Hk. split; [by apply Hdom|]. by rewrite Hs2, decide_True.
  - intros k Hkp Hkl. rewrite Hs2, decide_False by done. unfold s1. cbn. by rewrite !lookup_insert_ne by set_solver.
  - rewrite (object_of_value s2 p g2 _ Hp2). unfold object_of, g2. cbn. by rewrite hm_remove_map, lookup_delete_eq.
  - exists g2. split; [done|]. split; [by apply handles_remove|exact En].
Qed.

(** C31. A method is run through [check_membership_and] only for a member.
    For anyone else nothing is called and neither the objects nor the members
    change; for a member the method runs with the lock held and with locking
    turned off in the methods, and afterwards the lock is free again. *)
Theorem check_membership_and_spec (H V : Type → Type) `{!FrgHashMap H} `{!FrgHashMapLaws H} `{!FrgVector V}
    (A : Type) (s : store H V) (p t : Z) (g : object_group H) (f : M (store H V) A) :
  group_at s p g → _lock g = false →
  (member_of g t = false →
     ∃ g', check_membership_and p t f s = Ok (None, with_group s p g') ∧ _objects g' = _objects g ∧
       (∀ t', member_of g' t' = member_of g t') ∧ _lock g' = false ∧ _dont_lock g' = _dont_lock g) ∧
  (member_of g t = true →
     ∃ gl, _lock gl = true ∧ _dont_lock gl = true ∧ _objects gl = _objects g ∧
       (∀ t', member_of gl t' = member_of g t') ∧
       ∀ r s2 g2, f (with_group s p gl) = Ok (r, s2) → group_at s2 p g2 →
         check_membership_and p t f s = Ok (Some r, with_group s2 p (set_lock false (set_dont_lock false g2)))).
Proof.
  intros Hp Hl. split.
  - intros Hm. exists (tested g t false). split_and!; [by apply check_refused|done|apply tested_members|done|done].
  - intros Hm. exists (set_dont_lock true (tested g t true)).
    split_and!; [done|done|done|intros t'; exact (tested_members g t true t')|].
    intros r s2 g2 Hf Hg2. by eapply check_granted.
Qed.

(** A new group has a fresh number and its creator as the only member:
    whoever else calls a method through the table gets nothing, the creator
    can add an object and find it again, although the method's own lock is
    held during the call. *)
Theorem new_group_spec (H V : Type → Type) `{!FrgHashMap H} `{!FrgHashMapLaws H} `{!FrgVector V}
    (gs : groups H V) (garbage : bool) (t q : Z) (qq : ipc_queue V) :
  let st := heap_objs gs in
  let id := gg_next_id gs in
  gg_lock gs = false → hm_map (_groups gs) !! id = None →
  objs st !! next_ptr st = None → next_ptr st ≠ 0 → q ≠ 0 → objs st !! q = Some (OQueue qq) →
  ∃ gs1, new_group garbage t gs = Ok (id, gs1) ∧ gg_lock gs1 = false ∧ gg_next_id gs1 = u64 (id + 1) ∧
    (∀ k, k ≠ next_ptr st → objs (heap_objs gs1) !! k = objs st !! k) ∧
    (∀ t' A (f : Z → M (store H V) A), t' ≠ t → value (gg_check_membership_and t' id f gs1) = Some None) ∧
    (∃ gs2, gg_check_membership_and t id (λ p, add_object p q) gs1 = Ok (Some 0, gs2) ∧
       value (gg_check_membership_and t id (λ p, get_object p 0) gs2) = Some (Some q)).
Proof.
  intros st id Hl Hid Hfresh Hn0 Hq0 Hq. assert (q ≠ next_ptr st) as Hqp by (intros ->; congruence).
  destruct (new_group_run gs garbage t Hl Hid) as (m & Hnew & Hm). fold st id in Hnew, Hm.
  set (g1 := group_of garbage t) in *. set (h1 := with_group _ _ g1) in Hnew.
  set (gs1 := Groups h1 m (u64 (id + 1)) false) in *.
  assert (hm_map (_groups gs1) !! id = Some (LockedGroup (next_ptr st) false)) as He by (cbn; by rewrite Hm, lookup_insert_eq).
  assert (group_at h1 (next_ptr st) g1) as Hp1 by apply group_at_with.
  exists gs1. split_and!; [exact Hnew|done|done| | |].
  - intros k Hk. unfold gs1, h1. cbn. by rewrite !lookup_insert_ne by done.
  - intros t' A f Ht. assert (member_of g1 t' = false) as Hm' by (unfold g1; by rewrite group_of_members, bool_decide_eq_false_2).
    destruct (gg_check_run gs1 t' id _ f None _ He Hn0 (check_refused h1 _ g1 t' (f _) Hp1 eq_refl Hm')) as (m2 & Hrun & _).
    by rewrite Hrun.
  - apply (member_adds_run gs1 t id (next_ptr st) g1 q (OQueue qq)); [done..| |].
    + unfold g1. by rewrite group_of_members, bool_decide_eq_true_2.
    + unfold gs1, h1. cbn. by rewrite lookup_insert_ne.
Qed.

(** [remove_group]: whoever is not a member is refused and the group stays
    with its objects and members; for a member the group and every object it
    holds are deleted. The table keeps the pointer: every later call through
    the number of the group, by anyone and of any method, uses the deleted
    group, and so does removing it again. *)
Theorem remove_group_spec (H V : Type → Type) `{!FrgHashMap H} `{!FrgHashMapLaws H} `{!FrgVector V}
    (gs : groups H V) (t id p : Z) (g : object_group H) :
  gg_lock gs = false → hm_map (_groups gs) !! id = Some (LockedGroup p false) → p ≠ 0 →
  group_at (heap_objs gs) p g → holds_queues (heap_objs gs) g →
  ∃ gs', remove_group t id gs = Ok (member_of g t, gs') ∧ gg_lock gs' = false ∧
    (member_of g t = false →
       ∃ g', group_at (heap_objs gs') p g' ∧ _objects g' = _objects g ∧ ∀ t', member_of g' t' = member_of g t') ∧
    (member_of g t = true →
       objs (heap_objs gs') !! p = None ∧
       (∀ h q, hm_map (_objects g) !! h = Some q → objs (heap_objs gs') !! q = None) ∧
       (∀ t' A (f : Z → M (store H V) A), gg_check_membership_and t' id f gs' = Fault) ∧
       ∀ t', remove_group t' id gs' = Fault).
Proof.
  intros Hl He Hp Hg Hq. destruct (remove_group_test gs t id p g Hl He Hp Hg) as (gs1 & m1 & Hm1 & Hgs1 & Hrun).
  rewrite Hrun. clear Hrun. set (g1 := set_members _ g) in Hgs1.
  assert (hm_map (_groups gs1) !! id = Some (LockedGroup p true)) as He1 by (subst gs1; cbn; by rewrite Hm1, lookup_insert_eq).
  destruct (member_of g t) eqn:Hm.
  - assert (group_at (heap_objs gs1) p g1) as Hg1 by (subst gs1; apply group_at_with).
    assert (holds_queues (heap_objs gs1) g1) as Hq1.
    { split; [|apply Hq]. intros h q Hh. destruct (proj1 Hq h q Hh) as [H0 [qq Hqq]]. split; [done|]. exists qq.
      subst gs1. cbn. rewrite lookup_insert_ne; [done|]. intros ->. unfold group_at in Hg. congruence. }
    destruct (delete_group_run (heap_objs gs1) p g1 Hp Hg1 Hq1) as (s2 & Hdel & Hs2).
    set (gs2 := set_groups (hm_index no_group (_groups gs1) id) gs1).
    assert (hm_map (_groups (set_heap s2 gs2)) !! id = Some (LockedGroup p true)) as He2.
    { cbn. by rewrite hm_index_map, lookup_insert_eq, He1. }
    destruct (remove_group_end (set_heap s2 gs2) true id p true He2) as (m & Hend & Hm2).
    assert (objs s2 !! p = None) as Hgone by (rewrite Hs2; by rewrite decide_True by auto).
    eexists. split.
    { cbv [subscript]. erewrite bind_run; [exact Hend|]. run (eq_refl : get_st gs1 = Ok (gs1, gs1)). rewrite He1.
      run (eq_refl : modify (set_groups (hm_index no_group (_groups gs1) id)) gs1 = Ok (tt, gs2)).
      run (on_heap_run gs2 _ _ _ Hdel). reflexivity. }
    split_and!; [done|done|]. intros _. split_and!.
    + exact Hgone.
    + intros h q Hh. cbn. rewrite Hs2, decide_True; [done|]. right.
      apply (held_objects _ _ Hq1). by exists h.
    + intros t' A f. apply (gg_check_dangling _ t' id p false f); [cbn; by rewrite Hm2, lookup_insert_eq|done..].
    + intros t'. apply (remove_group_dangling _ t' id p); [done|cbn; by rewrite Hm2, lookup_insert_eq|done..].
  - destruct (remove_group_end gs1 false id p true He1) as (m & Hend & _).
    eexists. split; [exact Hend|]. split_and!; [done| |done]. intros _. exists g1. split_and!.
    + subst gs1. apply group_at_with.
    + done.
    + intros t'. apply (member_of_index g t).
Qed.

(** ** Witnesses *)
Import Instances.

Definition demo_queue : ipc_queue list := ipc_queue_new 0.
Definition demo_group : object_group (gmap Z) := Group 0 ∅ {[ 7 := true ]} 3 false false.
Definition demo_store : store (gmap Z) list := Store {[ 16 := OGroup demo_group; 32 := OQueue demo_queue ]} 64.
Definition demo_groups : groups (gmap Z) list := Groups demo_store {[ 0 := LockedGroup 16 false ]} 1 false.

(** A group at 48 that holds the queue at 32. *)
Definition demo_inner : object_group (gmap Z) := Group 0 {[ 0 := 32 ]} ∅ 1 false false.
Definition demo_nested : store (gmap Z) list :=
  Store {[ 16 := OGroup demo_group; 32 := OQueue demo_queue; 48 := OGroup demo_inner ]} 64.

Lemma object_group_handles_witness :
  ∃ s1 s2, add_object 16 48 demo_nested = Ok (3, s1) ∧ value (get_object 16 3 s1) = Some 48 ∧
    remove_object 16 3 s1 = Ok (tt, s2) ∧ objs s2 !! 48 = None ∧ objs s2 !! 32 = None.
Proof.
  destruct (object_group_handles (gmap Z) list demo_nested 16 demo_group 48 [32; 48])
    as (_ & s1 & Hadd & Hget & _ & _ & _ & s2 & Hrem & _ & Hgone & _);
    [reflexivity|by right|by intros h [] |cbn; lia|done| | |set_solver|].
  - apply (holds_group _ 48 demo_inner [32]); [done|reflexivity|]. change (held demo_inner) with [32].
    apply (holds_cons _ 32 [32] [] []); [|constructor]. apply (holds_queue _ 32 demo_queue); [done|reflexivity].
  - repeat (apply NoDup_cons; split; [set_solver|]). apply NoDup_nil_2.
  - exists s1, s2. split; [exact Hadd|]. split; [exact Hget|]. split; [exact Hrem|].
    split; apply Hgone; set_solver.
Defined.

Lemma check_membership_and_spec_witness :
  ∃ g', check_membership_and 16 8 (get_object 16 3) demo_store = Ok (None, with_group demo_store 16 g').
Proof.
  destruct (check_membership_and_spec (gmap Z) list Z demo_store 16 8 demo_group (get_object 16 3)) as [H _];
    [reflexivity|reflexivity|]. destruct (H eq_refl) as (g' & Hc & _). exists g'. exact Hc.
Defined.

Lemma new_group_spec_witness :
  ∃ gs1 gs2, new_group true 5 demo_groups = Ok (1, gs1) ∧
    gg_check_membership_and 5 1 (λ p, add_object p 32) gs1 = Ok (Some 0, gs2).
Proof.
  destruct (new_group_spec (gmap Z) list demo_groups true 5 32 demo_queue) as (gs1 & Hnew & _ & _ & _ & _ & gs2 & Hadd & _);
    [reflexivity|reflexivity|reflexivity|discriminate|done|reflexivity|].
  exists gs1, gs2. split; [exact Hnew|exact Hadd].
Defined.

Lemma remove_group_spec_witness :
  ∃ gs', remove_group 7 0 demo_groups = Ok (true, gs') ∧
    gg_check_membership_and 7 0 (λ p, get_object p 0) gs' = Fault.
Proof.
  destruct (remove_group_spec (gmap Z) list demo_groups 7 0 16 demo_group) as (gs' & Hrem & _ & _ & Hyes);
    [reflexivity|reflexivity|done|reflexivity|split; intros ?; [intros ? [=]|intros ?? [=]]|].
  exists gs'. split; [exact Hrem|]. destruct (Hyes eq_refl) as (_ & _ & Huse & _). apply Huse.
Defined.
