(* ===== verification/Cpu.v ===== *)
(** * Descriptor tables and tasks (cpu/gdt.cpp, irq/idt.cpp, task/task.cpp)

    The tables the processor reads: the segment descriptors as 32-bit words,
    the interrupt gates and the task state segment as records; and the saved
    registers of a task. Instructions that load a table into the processor
    return the operand they load. *)
From S2P Require Import Prelude.
From stdpp Require Import base numbers option list.
#[local] Open Scope Z_scope.

(** ** Task state segment *)
Record tss := Tss {
  t_rsp : list Z;             (** 4 *)
  t_ist : list Z;             (** 7 *)
  t_io_bitmap_offset : Z;
  t_io_bitmap : list Z;       (** 8193 *)
}.
Definition sizeof_tss : Z := 4 + 4 * 8 + 8 + 7 * 8 + 8 + 2 + 2 + 8193.
Definition offsetof_io_bitmap : Z := 4 + 4 * 8 + 8 + 7 * 8 + 8 + 2 + 2.

(** What [memset] leaves of a new segment. *)
Definition tss_create_new : tss := Tss (replicate 4 0) (replicate 7 0) 0 (replicate 8193 0).

Definition tss_update_stack (t : tss) (stack : Z) (ring : nat) : outcome tss :=
  if decide (ring < length (t_rsp t))%nat
  then Ok (Tss (<[ring := stack]> (t_rsp t)) (t_ist t) (t_io_bitmap_offset t) (t_io_bitmap t)) else Fault.

Definition tss_update_io_bitmap (t : tss) (bitmap : list Z) : tss :=
  Tss (t_rsp t) (t_ist t) (u16 offsetof_io_bitmap)
    (<[8192%nat := 0xFF]> (take 8192 bitmap ++ drop 8192 (t_io_bitmap t))).

(** ** Segment descriptors *)
Definition SEGMENT_COUNT : Z := 6.

(** [gdt[i] = w] *)
Definition put_word (i : nat) (w : Z) (gdt : list Z) : list Z := <[i := u32 w]> gdt.

Definition create_null_seg (idx : nat) (gdt : list Z) : list Z :=
  put_word (idx * 2 + 1) 0 (put_word (idx * 2) 0 gdt).
Definition create_kern_code64_seg (idx : nat) (gdt : list Z) : list Z :=
  put_word (idx * 2 + 1) 0xa09800 (put_word (idx * 2) 0 gdt).
Definition create_user_code64_seg (idx : nat) (gdt : list Z) : list Z :=
  put_word (idx * 2 + 1) 0xa0f800 (put_word (idx * 2) 0 gdt).
Definition create_user_data_seg (idx : nat) (gdt : list Z) : list Z :=
  put_word (idx * 2 + 1) 0xa0f200 (put_word (idx * 2) 0 gdt).
Definition create_user_tss_seg (tss : Z) (idx : nat) (gdt : list Z) : list Z :=
  let size := sizeof_tss in
  put_word (idx * 2 + 3) 0
    (put_word (idx * 2 + 2) (Z.shiftr tss 32)
      (put_word (idx * 2 + 1)
        (Z.lor (Z.lor (Z.lor (Z.land (Z.shiftr tss 16) 0xFF) 0x8900) (Z.land size 0x000F0000)) (Z.land tss 0xFF000000))
        (put_word (idx * 2) (Z.lor (Z.land size 0xFFFF) (Z.shiftl (Z.land tss 0xFFFF) 16)) gdt))).

(** The words of the table; the storage [gdt] comes from [pmm_alloc]. *)
Definition gdt_create_new (tss : Z) (gdt : list Z) : list Z :=
  create_user_tss_seg tss 4 (create_user_data_seg 3 (create_user_code64_seg 2
    (create_kern_code64_seg 1 (create_null_seg 0 gdt)))).

(** The operand of [lgdt]: limit and base. *)
Definition gdt_load (gdt : Z) : Z * Z := (u16 (SEGMENT_COUNT * 8 - 1), gdt).

(** The operands of [wrmsr], and what [rdmsr] of them gives back. *)
Definition gdt_load_base (base : Z) : Z * Z := (u32 base, u32 (Z.shiftr base 32)).
Definition gdt_get_base (lohi : Z * Z) : Z := let '(lo, hi) := lohi in Z.lor (u64 (Z.shiftl hi 32)) lo.

(** ** Interrupt gates *)
Definition IDT_ENTRIES : Z := 256.
Record idt_entry_t := IdtEntry {
  offset_low : Z; selector : Z; zero_1 : Z; attrib : Z; offset_mid : Z; offset_high : Z; zero_2 : Z;
}.

Definition idt_set_gate (idx : nat) (offset selector flags : Z) (idt : list idt_entry_t) : list idt_entry_t :=
  <[idx := IdtEntry (Z.land offset 0xFFFF) selector 0 flags (Z.land (Z.shiftr offset 16) 0xFFFF)
            (Z.land (Z.shiftr offset 32) 0xFFFFFFFF) 0]> idt.

Definition gate_flags (i : nat) : Z := u8 (Z.lor 0x8E (if decide (i = 48%nat) then 96 else 0)).

Fixpoint idt_init_loop (i : nat) (handlers : list Z) (idt : list idt_entry_t) : list idt_entry_t :=
  match handlers with
  | [] => idt
  | h :: hs => idt_init_loop (S i) hs (idt_set_gate i h 0x08 (gate_flags i) idt)
  end.
(** The table after the loop, and the limit of the operand of [lidt]. *)
Definition idt_init (handlers : list Z) (idt : list idt_entry_t) : list idt_entry_t * Z :=
  (idt_init_loop 0 handlers idt, u16 (IDT_ENTRIES * 16 - 1)).

(** ** Tasks *)
Record irq_cpu_state_t := IrqState {
  i_ds : Z;
  i_r15 : Z; i_r14 : Z; i_r13 : Z; i_r12 : Z; i_r11 : Z; i_r10 : Z; i_r9 : Z; i_r8 : Z;
  i_rdi : Z; i_rsi : Z; i_rbp : Z; i_rdx : Z; i_rcx : Z; i_rbx : Z; i_rax : Z;
  i_int_no : Z; i_err : Z;
  i_rip : Z; i_cs : Z; i_rflags : Z; i_rsp : Z; i_ss : Z;
}.
Record ctx_cpu_state_t := CtxState {
  r15 : Z; r14 : Z; r13 : Z; r12 : Z; r11 : Z; r10 : Z; r9 : Z; r8 : Z;
  rdi : Z; rsi : Z; rbp : Z; rdx : Z; rcx : Z; rbx : Z; rax : Z;
  ss : Z; rsp : Z; rflags : Z; cs : Z; rip : Z;
}.
Record arch_task := Task { state_of : ctx_cpu_state_t; vmm_ctx_of : Z; io_bitmap_of : list Z }.

(** The constructor sets five registers; the rest of the storage is [t]. *)
Definition arch_task_new (t : arch_task) : arch_task :=
  let c := state_of t in
  Task (CtxState (r15 c) (r14 c) (r13 c) (r12 c) (r11 c) (r10 c) (r9 c) (r8 c) (rdi c) (rsi c) (rbp c) (rdx c) (rcx c)
          (rbx c) (rax c) 0x1b 0 0x202 0x13 0) (vmm_ctx_of t) (io_bitmap_of t).

Definition load_irq_state (s : irq_cpu_state_t) (t : arch_task) : arch_task :=
  Task (CtxState (i_r15 s) (i_r14 s) (i_r13 s) (i_r12 s) (i_r11 s) (i_r10 s) (i_r9 s) (i_r8 s)
          (i_rdi s) (i_rsi s) (i_rbp s) (i_rdx s) (i_rcx s) (i_rbx s) (i_rax s)
          (i_ss s) (i_rsp s) (i_rflags s) (i_cs s) (i_rip s)) (vmm_ctx_of t) (io_bitmap_of t).

(** [enter]: the new task state segment, and the operands of [ctx_switch]. *)
Definition enter (t : arch_task) (d : tss) : tss * ctx_cpu_state_t * Z :=
  (tss_update_io_bitmap d (io_bitmap_of t), state_of t, vmm_ctx_of t).

(** ** What the processor reads *)

(** The address in a gate, and the ring that may call it. *)
Definition gate_offset (e : idt_entry_t) : Z :=
  Z.lor (Z.lor (offset_low e) (Z.shiftl (offset_mid e) 16)) (Z.shiftl (offset_high e) 32).
Definition gate_dpl (e : idt_entry_t) : Z := Z.land (Z.shiftr (attrib e) 5) 3.
Definition gate_present (e : idt_entry_t) : bool := Z.testbit (attrib e) 7.

(** Fields of the descriptor at index [i] of the table. *)
Definition desc (gdt : list Z) (i : nat) : option (Z * Z) :=
  lo ← gdt !! (i * 2)%nat; hi ← gdt !! (i * 2 + 1)%nat; mret (lo, hi).
Definition desc_dpl (d : Z * Z) : Z := Z.land (Z.shiftr d.2 13) 3.
Definition desc_present (d : Z * Z) : bool := Z.testbit d.2 15.
Definition desc_code (d : Z * Z) : bool := Z.testbit d.2 12 && Z.testbit d.2 11.
Definition desc_data (d : Z * Z) : bool := Z.testbit d.2 12 && negb (Z.testbit d.2 11) && Z.testbit d.2 9.
Definition desc_long (d : Z * Z) : bool := Z.testbit d.2 21.

(** The base of the 16-byte descriptor at index [i]. *)
Definition tss_base (gdt : list Z) (i : nat) : option Z :=
  w0 ← gdt !! (i * 2)%nat; w1 ← gdt !! (i * 2 + 1)%nat; w2 ← gdt !! (i * 2 + 2)%nat;
  mret (Z.lor (Z.lor (Z.shiftr w0 16) (Z.shiftl (Z.land w1 0xFF) 16))
          (Z.lor (Z.land w1 0xFF000000) (Z.shiftl w2 32))).

(** The descriptor a selector names, and its privilege. *)
Definition selector_index (sel : Z) : nat := Z.to_nat (Z.shiftr sel 3).
Definition selector_rpl (sel : Z) : Z := Z.land sel 3.

(** ** Bits of fields *)
Lemma shiftl_bit x k n : 0 ≤ n → Z.testbit (Z.shiftl x k) n = negb (n <? k) && Z.testbit x (n - k).
Proof.
  intros Hn. rewrite Z.shiftl_spec by done. destruct (Z.ltb_spec n k); cbn; [|done].
  apply Z.testbit_neg_r. lia.
Qed.

Lemma ones_bit k n : 0 ≤ k → 0 ≤ n → Z.testbit (Z.ones k) n = (n <? k).
Proof.
  intros Hk Hn. destruct (Z.ltb_spec n k); [apply Z.ones_spec_low; lia|apply Z.ones_spec_high; lia].
Qed.

(** A mask of [w] ones from bit [k]. *)
Lemma mask_bit k w n : 0 ≤ k → 0 ≤ w → 0 ≤ n → Z.testbit (Z.shiftl (Z.ones w) k) n = negb (n <? k) && (n <? k + w).
Proof.
  intros Hk Hw Hn. rewrite shiftl_bit by done. destruct (Z.ltb_spec n k); cbn; [done|].
  rewrite ones_bit by lia. lia.
Qed.

Lemma gate_offset_set offset sel flags :
  is_u64 offset →
  gate_offset (IdtEntry (Z.land offset 0xFFFF) sel 0 flags (Z.land (Z.shiftr offset 16) 0xFFFF)
                 (Z.land (Z.shiftr offset 32) 0xFFFFFFFF) 0) = offset.
Proof.
  intros Ho. unfold gate_offset. cbn [offset_low offset_mid offset_high].
  change 0xFFFF with (Z.ones 16). change 0xFFFFFFFF with (Z.ones 32).
  apply Z.bits_inj'. intros n Hn. rewrite !Z.lor_spec, !shiftl_bit by lia.
  rewrite Z.land_spec, ones_bit by lia.
  destruct (Z.ltb_spec n 16), (Z.ltb_spec n 32); cbn; rewrite ?andb_false_r, ?andb_true_r, ?orb_false_r; try lia; try done.
  - rewrite Z.land_spec, Z.shiftr_spec, ones_bit by lia. replace (n - 16 + 16) with n by lia.
    destruct (Z.ltb_spec (n - 16) 16); [|lia]. by rewrite andb_true_r.
  - rewrite !Z.land_spec, !Z.shiftr_spec, !ones_bit by lia. replace (n - 16 + 16) with n by lia.
    replace (n - 32 + 32) with n by lia. destruct (Z.ltb_spec (n - 16) 16); [lia|]. rewrite andb_false_r. cbn.
    destruct (Z.ltb_spec (n - 32) 32); rewrite ?andb_true_r, ?andb_false_r; [done|].
    symmetry. apply (testbit_high offset 64); unfold is_u64 in Ho; lia.
Qed.

(** The low 32 bits of a segment base, from the first two words. *)
Lemma tss_base_words tss size :
  is_u64 tss → 0 ≤ size < 2 ^ 16 →
  let w0 := u32 (Z.lor (Z.land size 0xFFFF) (Z.shiftl (Z.land tss 0xFFFF) 16)) in
  let w1 := u32 (Z.lor (Z.lor (Z.lor (Z.land (Z.shiftr tss 16) 0xFF) 0x8900) (Z.land size 0x000F0000)) (Z.land tss 0xFF000000)) in
  Z.lor (Z.lor (Z.shiftr w0 16) (Z.shiftl (Z.land w1 0xFF) 16))
    (Z.lor (Z.land w1 0xFF000000) (Z.shiftl (u32 (Z.shiftr tss 32)) 32)) = tss.
Proof.
  intros Ht Hs w0 w1. unfold is_u64 in Ht.
  assert (Z.land size 0xF0000 = 0) as Hz.
  { apply Z.bits_inj'. intros n Hn. change 0xF0000 with (Z.shiftl (Z.ones 4) 16).
    rewrite Z.land_spec, mask_bit, Z.bits_0 by lia. destruct (Z.ltb_spec n 16); cbn; [by rewrite andb_false_r|].
    by rewrite (testbit_high size 16) by lia. }
  subst w0 w1. rewrite Hz, Z.lor_0_r.
  change 0xFF000000 with (Z.shiftl (Z.ones 8) 24). change 0xFF with (Z.ones 8). change 0xFFFF with (Z.ones 16).
  change 0x8900 with (Z.shiftl 0x89 8).
  apply Z.bits_inj'. intros n Hn. rewrite !Z.lor_spec, Z.shiftr_spec, !shiftl_bit, !Z.land_spec, mask_bit by lia.
  unfold u32.
  destruct (decide (n < 16)).
  { rewrite Z.mod_pow2_bits_low, !Z.lor_spec, shiftl_bit, !Z.land_spec, !ones_bit by lia.
    rewrite (testbit_high size 16 (n + 16)) by lia. replace (n + 16 - 16) with n by lia.
    replace (n <? 16) with true by lia. replace (n <? 24) with true by lia. replace (n <? 32) with true by lia.
    replace (n + 16 <? 16) with false by lia. cbn. by rewrite !andb_false_r, !andb_true_r, !orb_false_r. }
  rewrite (Z.mod_pow2_bits_high _ 32 (n + 16)) by lia. cbn [orb].
  destruct (decide (n < 24)).
  { rewrite ones_bit, Z.mod_pow2_bits_low, !Z.lor_spec by lia.
    rewrite (shiftl_bit 137 8), !Z.land_spec, Z.shiftr_spec, mask_bit, ones_bit by lia. replace (n - 16 + 16) with n by lia.
    replace (n <? 16) with false by lia. replace (n <? 24) with true by lia. replace (n <? 32) with true by lia.
    replace (n - 16 <? 8) with true by lia. replace (n - 16 <? 24) with true by lia. cbn.
    by rewrite !andb_false_r, !andb_true_r, !orb_false_r. }
  rewrite ones_bit by lia. replace (n - 16 <? 8) with false by lia. rewrite !andb_false_r. cbn [orb].
  destruct (decide (n < 32)).
  { rewrite Z.mod_pow2_bits_low, !Z.lor_spec by lia.
    rewrite (shiftl_bit 137 8), !Z.land_spec, Z.shiftr_spec, mask_bit, ones_bit by lia.
    rewrite (testbit_high 137 8 (n - 8)) by lia.
    replace (n <? 8) with false by lia.
    replace (n <? 24) with false by lia. replace (n <? 32) with true by lia. replace (n <? 24 + 8) with true by lia. cbn.
    by rewrite !andb_false_r, !andb_true_r, !orb_false_r. }
  rewrite (Z.mod_pow2_bits_high _ 32 n) by lia. replace (n <? 32) with false by lia. cbn [orb andb negb].
  destruct (decide (n < 64)).
  - rewrite Z.mod_pow2_bits_low, Z.shiftr_spec by lia. by replace (n - 32 + 32) with n by lia.
  - rewrite Z.mod_pow2_bits_high by lia. symmetry. apply (testbit_high tss 64); lia.
Qed.

(** ** The tables the kernel builds *)
Lemma idt_init_loop_lookup i hs idt j :
  (i + length hs ≤ length idt)%nat →
  idt_init_loop i hs idt !! j =
    if decide (i ≤ j < i + length hs)%nat then
      (λ h, IdtEntry (Z.land h 0xFFFF) 0x08 0 (gate_flags j) (Z.land (Z.shiftr h 16) 0xFFFF)
              (Z.land (Z.shiftr h 32) 0xFFFFFFFF) 0) <$> hs !! (j - i)%nat
    else idt !! j.
Proof.
  revert i idt. induction hs as [|h hs IH]; intros i idt Hlen; cbn [idt_init_loop length] in *.
  { rewrite decide_False by lia. done. }
  unfold idt_set_gate. rewrite IH by (rewrite length_insert; lia).
  destruct (decide (S i ≤ j < S i + length hs)%nat) as [Hj|Hj].
  - rewrite decide_True by lia. replace (j - i)%nat with (S (j - S i)) by lia. done.
  - destruct (decide (j = i)) as [->|Hne].
    + rewrite decide_True by lia. rewrite list_lookup_insert_eq by lia. by rewrite Nat.sub_diag.
    + rewrite decide_False by lia. by rewrite list_lookup_insert_ne by lia.
Qed.

Lemma gate_flags_cases i :
  Z.testbit (gate_flags i) 7 = true ∧ Z.land (Z.shiftr (gate_flags i) 5) 3 = if decide (i = 48)%nat then 3 else 0.
Proof. unfold gate_flags. by destruct (decide (i = 48)%nat). Qed.

(** The interrupt table: gate [i] leads to handler [i] through the kernel
    code segment, every gate is present, and only gate 0x30, the system call,
    can be called from user mode. *)
Theorem idt_init_spec (handlers : list Z) (idt : list idt_entry_t) (i : nat) (h : Z) :
  length idt = 256%nat → (length handlers ≤ 256)%nat → Forall is_u64 handlers → handlers !! i = Some h →
  ∃ e, (idt_init handlers idt).1 !! i = Some e ∧ gate_offset e = h ∧ selector e = 0x08 ∧
    gate_present e = true ∧ gate_dpl e = (if decide (i = 48)%nat then 3 else 0).
Proof.
  intros Hlen Hh Hall Hi. pose proof (lookup_lt_Some _ _ _ Hi) as Hlt.
  destruct (gate_flags_cases i) as [Hp Hd].
  eexists. split_and!.
  - unfold idt_init. cbn [fst]. rewrite idt_init_loop_lookup by lia. rewrite decide_True by lia.
    rewrite Nat.sub_0_r, Hi. reflexivity.
  - apply gate_offset_set. by eapply Forall_lookup_1.
  - done.
  - exact Hp.
  - exact Hd.
Qed.

Definition demo_gate : idt_entry_t := IdtEntry 0 0 0 0 0 0 0.

Lemma idt_init_spec_witness :
  ∃ e, (idt_init (replicate 49 0xFFFFFFFF80001234) (replicate 256 demo_gate)).1 !! 48%nat = Some e ∧
    gate_offset e = 0xFFFFFFFF80001234 ∧ gate_dpl e = 3.
Proof.
  destruct (idt_init_spec (replicate 49 0xFFFFFFFF80001234) (replicate 256 demo_gate) 48 0xFFFFFFFF80001234)
    as (e & He & Ho & _ & _ & Hd); [reflexivity|cbn; lia| |reflexivity|].
  { apply Forall_replicate. unfold is_u64. lia. }
  exists e. split_and!; [exact He|exact Ho|exact Hd].
Defined.

(** Reading the words back. *)
Lemma gdt_words tss gdt :
  length gdt = 12%nat →
  gdt_create_new tss gdt =
    [0; 0; 0; 0xa09800; 0; 0xa0f800; 0; 0xa0f200;
     u32 (Z.lor (Z.land sizeof_tss 0xFFFF) (Z.shiftl (Z.land tss 0xFFFF) 16));
     u32 (Z.lor (Z.lor (Z.lor (Z.land (Z.shiftr tss 16) 0xFF) 0x8900) (Z.land sizeof_tss 0x000F0000)) (Z.land tss 0xFF000000));
     u32 (Z.shiftr tss 32); 0].
Proof. intros Hlen. do 12 (destruct gdt as [|? gdt]; [done|]). by destruct gdt. Qed.

(** The segment table agrees with the selectors in use: the task register
    selector 0x20 names a descriptor with the address of the task state
    segment; the gates' selector is 64-bit kernel code; the selectors of a new
    task are 64-bit user code and writable user data of ring 3. *)
Theorem gdt_selectors (tss : Z) (gdt : list Z) (t : arch_task) :
  length gdt = 12%nat → is_u64 tss →
  let g := gdt_create_new tss gdt in
  let c := state_of (arch_task_new t) in
  tss_base g (selector_index 0x20) = Some tss ∧
  (∃ d, desc g (selector_index 0x08) = Some d ∧ desc_code d ∧ desc_long d ∧ desc_present d ∧ desc_dpl d = 0) ∧
  (∃ d, desc g (selector_index (cs c)) = Some d ∧ desc_code d ∧ desc_long d ∧ desc_present d ∧
     desc_dpl d = 3 ∧ selector_rpl (cs c) = 3) ∧
  (∃ d, desc g (selector_index (ss c)) = Some d ∧ desc_data d ∧ desc_present d ∧
     desc_dpl d = 3 ∧ selector_rpl (ss c) = 3).
Proof.
  intros Hlen Ht g c. subst g. rewrite gdt_words by done. split_and!.
  - change (selector_index 0x20) with 4%nat. unfold tss_base. cbn [Nat.mul Nat.add lookup list_lookup].
    apply (f_equal Some). apply tss_base_words; [done|]. unfold sizeof_tss. lia.
  - eexists. split; [reflexivity|]. by vm_compute.
  - eexists. split; [reflexivity|]. by vm_compute.
  - eexists. split; [reflexivity|]. by vm_compute.
Qed.

Definition demo_task : arch_task := Task (CtxState 0 0 0 0 0 0 0 0 0 0 0 0 0 0 0 0 0 0 0 0) 0 (replicate 8192 0).

Lemma gdt_selectors_witness :
  tss_base (gdt_create_new 0xFFFF800002345678 (replicate 12 0)) (selector_index 0x20) = Some 0xFFFF800002345678.
Proof. apply (gdt_selectors 0xFFFF800002345678 (replicate 12 0) demo_task); [reflexivity|unfold is_u64; lia]. Defined.

(** The general registers in the order of the saved state. *)
Definition irq_regs (s : irq_cpu_state_t) : list Z :=
  [i_rax s; i_rbx s; i_rcx s; i_rdx s; i_rsi s; i_rdi s; i_rbp s; i_rsp s; i_r8 s; i_r9 s; i_r10 s; i_r11 s; i_r12 s;
   i_r13 s; i_r14 s; i_r15 s; i_rip s; i_rflags s; i_cs s; i_ss s].
Definition ctx_regs (c : ctx_cpu_state_t) : list Z :=
  [rax c; rbx c; rcx c; rdx c; rsi c; rdi c; rbp c; rsp c; r8 c; r9 c; r10 c; r11 c; r12 c;
   r13 c; r14 c; r15 c; rip c; rflags c; cs c; ss c].

(** A task that was interrupted and is entered again continues where it
    was: every register has its value at the interrupt, the address space is
    the task's own, and the task state segment has the task's port
    permissions followed by the terminating byte. *)
Theorem task_resume (s : irq_cpu_state_t) (t : arch_task) (d : tss) :
  length (io_bitmap_of t) = 8192%nat → length (t_io_bitmap d) = 8193%nat →
  let '(d', c, ctx) := enter (load_irq_state s t) d in
  ctx_regs c = irq_regs s ∧ ctx = vmm_ctx_of t ∧ t_rsp d' = t_rsp d ∧
  (∀ i, (i < 8192)%nat → t_io_bitmap d' !! i = io_bitmap_of t !! i) ∧ t_io_bitmap d' !! 8192%nat = Some 0xFF.
Proof.
  intros Hb Hd. unfold enter, tss_update_io_bitmap. cbn [io_bitmap_of load_irq_state state_of vmm_ctx_of t_io_bitmap t_rsp].
  split_and!; [done..| |].
  - intros i Hi. rewrite list_lookup_insert_ne by lia. rewrite lookup_app_l by (rewrite length_take; lia).
    by apply lookup_take_lt.
  - apply list_lookup_insert_eq. rewrite length_app, length_take, length_drop, Hb, Hd.
    by apply Nat.ltb_lt.
Qed.

Definition demo_irq : irq_cpu_state_t := IrqState 0 15 14 13 12 11 10 9 8 1 2 3 4 5 6 7 0x31 0 0x401000 0x13 0x202 0x7000 0x1b.

Lemma task_resume_witness :
  let '(d', c, _) := enter (load_irq_state demo_irq demo_task) tss_create_new in
  rip c = 0x401000 ∧ t_io_bitmap d' !! 8192%nat = Some 0xFF.
Proof.
  pose proof (task_resume demo_irq demo_task tss_create_new (length_replicate _ _) (length_replicate _ _)) as H.
  revert H. unfold enter. intros (_ & _ & _ & _ & H). split; [reflexivity|exact H].
Defined.
