(* ===== verification/Sched.v ===== *)
(** * The scheduler (proc/scheduler.h, proc/scheduler.cpp, generic_irq.cpp)

    Threads are objects in a store, found by number through a hash map and
    listed in an intrusive list of those that may run. Every address space is
    a [vm] of Vm.v; all of them share the state of the machine. The number of
    the processor that runs the code is an argument. Calls that do not return
    ([enter], [arch_task_idle_cpu]) are the result of [sched_resched]; the
    other calls into the architecture are recorded in order. *)
From S2P Require Import Prelude Frigg Arch Spinlock Cpu Vm.
From stdpp Require Import base numbers option gmap list.
#[local] Open Scope Z_scope.

Inductive state := stopped | running | blocked_ipc | blocked_irq.
#[global] Instance state_eq_dec : EqDecision state.
Proof. solve_decision. Defined.

Record thread := Thread {
  _task : arch_task;
  _addr_space : Z;
  _id : Z;
  _state : state;
  _running_on : Z;
  _access_lock : bool;
  _identity : list Z;
}.

(** The constructor; the identity is 64 bytes of zeros. *)
Definition thread_new (task : arch_task) (addr_space : Z) : thread :=
  Thread task addr_space 0 stopped (-1) false (replicate 64 0).

Definition set_task (x : arch_task) (t : thread) : thread :=
  Thread x (_addr_space t) (_id t) (_state t) (_running_on t) (_access_lock t) (_identity t).
Definition set_state (x : state) (t : thread) : thread :=
  Thread (_task t) (_addr_space t) (_id t) x (_running_on t) (_access_lock t) (_identity t).
Definition set_running_on (x : Z) (t : thread) : thread :=
  Thread (_task t) (_addr_space t) (_id t) (_state t) x (_access_lock t) (_identity t).
Definition set_access (x : bool) (t : thread) : thread :=
  Thread (_task t) (_addr_space t) (_id t) (_state t) (_running_on t) x (_identity t).
Definition set_identity (x : list Z) (t : thread) : thread :=
  Thread (_task t) (_addr_space t) (_id t) (_state t) (_running_on t) (_access_lock t) x.

Record sched_cpu_data := CpuData { current_thread : Z; cpu_running : bool }.

Inductive arch_call := DropContext | AckInterrupt (irq : Z).

(** How [sched_resched] ends. *)
Inductive resched_end := Returned | Entered (p : Z) | Idle.

Record sched {S L : Type} {V H : Type → Type} := Sched {
  machine : S;
  spaces : gmap Z (vm S L V);
  thread_objs : gmap Z thread;
  threads : H Z;
  schedule : L;
  next_id : Z;
  idx : Z;
  sched_procs : V sched_cpu_data;
  ready : bool;
  threads_lock : bool;
  calls : list arch_call;
}.
Arguments sched : clear implicits.
Arguments Sched {S L V H} _ _ _ _ _ _ _ _ _ _ _.

Section sched.
Context {S : Type} `{!ArchMM S}.
Context {L : Type} `{!FrgList L}.
Context {V : Type → Type} `{!FrgVector V}.
Context {H : Type → Type} `{!FrgHashMap H}.
Notation sched := (sched S L V H).

Definition set_vm (m : S) (v : gmap Z (vm S L V)) (s : sched) : sched :=
  Sched m v (thread_objs s) (threads s) (schedule s) (next_id s) (idx s) (sched_procs s) (ready s) (threads_lock s) (calls s).
Definition set_thread_objs (x : gmap Z thread) (s : sched) : sched :=
  Sched (machine s) (spaces s) x (threads s) (schedule s) (next_id s) (idx s) (sched_procs s) (ready s) (threads_lock s) (calls s).
Definition set_threads (x : H Z) (s : sched) : sched :=
  Sched (machine s) (spaces s) (thread_objs s) x (schedule s) (next_id s) (idx s) (sched_procs s) (ready s) (threads_lock s) (calls s).
Definition set_schedule (x : L) (s : sched) : sched :=
  Sched (machine s) (spaces s) (thread_objs s) (threads s) x (next_id s) (idx s) (sched_procs s) (ready s) (threads_lock s) (calls s).
Definition set_next_thread_id (x : Z) (s : sched) : sched :=
  Sched (machine s) (spaces s) (thread_objs s) (threads s) (schedule s) x (idx s) (sched_procs s) (ready s) (threads_lock s) (calls s).
Definition set_idx (x : Z) (s : sched) : sched :=
  Sched (machine s) (spaces s) (thread_objs s) (threads s) (schedule s) (next_id s) x (sched_procs s) (ready s) (threads_lock s) (calls s).
Definition set_procs (x : V sched_cpu_data) (s : sched) : sched :=
  Sched (machine s) (spaces s) (thread_objs s) (threads s) (schedule s) (next_id s) (idx s) x (ready s) (threads_lock s) (calls s).
Definition set_ready (x : bool) (s : sched) : sched :=
  Sched (machine s) (spaces s) (thread_objs s) (threads s) (schedule s) (next_id s) (idx s) (sched_procs s) x (threads_lock s) (calls s).
Definition set_threads_lock (x : bool) (s : sched) : sched :=
  Sched (machine s) (spaces s) (thread_objs s) (threads s) (schedule s) (next_id s) (idx s) (sched_procs s) (ready s) x (calls s).
Definition add_call (x : arch_call) (s : sched) : sched :=
  Sched (machine s) (spaces s) (thread_objs s) (threads s) (schedule s) (next_id s) (idx s) (sched_procs s) (ready s)
    (threads_lock s) (calls s ++ [x]).

(** ** Objects, locks, address spaces *)
Definition get_thread (p : Z) : M sched thread := s ← get_st; lift (access (thread_objs s !! p)).
Definition put_thread (p : Z) (t : thread) : M sched () :=
  modify (λ s, set_thread_objs (<[p := t]> (thread_objs s)) s).
Definition update_thread (p : Z) (f : thread → thread) : M sched () := t ← get_thread p; put_thread p (f t).

Definition lock_threads : M sched () :=
  s ← get_st; '(_, b) ← lift (lock (threads_lock s)); modify (set_threads_lock b).
Definition unlock_threads : M sched () :=
  s ← get_st; '(_, b) ← lift (unlock (threads_lock s)); modify (set_threads_lock b).

(** [threads[id]]: the pointer, after the entry has been made if there was
    none. *)
Definition thread_at (id : Z) : M sched Z :=
  s ← get_st;
  modify (set_threads (hm_index 0 (threads s) id));;
  mret (default 0 (hm_map (threads s) !! id)).

Definition cpu_data_of (cpu : Z) : M sched sched_cpu_data :=
  s ← get_st; lift (access (vec_elems (sched_procs s) !! Z.to_nat cpu)).
Definition put_cpu_data (cpu : Z) (d : sched_cpu_data) : M sched () :=
  modify (λ s, set_procs (vec_set (sched_procs s) (Z.to_nat cpu) d) s).

(** A method of the address space at [p], on the machine as it is now. *)
Definition on_space {A} (p : Z) (m : M (vm S L V) A) : M sched A := λ s,
  match spaces s !! p with
  | None => Fault
  | Some v =>
      match m (set_arch (machine s) v) with
      | Ok (a, v') => Ok (a, set_vm (arch v') (<[p := v']> (spaces s)) s)
      | Panic => Panic
      | Fault => Fault
      | Hang => Hang
      end
  end.

(** ** Operations *)
Definition allocate_id : M sched Z :=
  id ← gets next_id; modify (set_next_thread_id (u64 (id + 1)));; mret id.

(** One traversal of the list: position and number of the first thread that
    runs nowhere, from position [from] on. *)
Fixpoint find_idle (l : list Z) (i from : Z) : M sched (option (Z * Z)) :=
  match l with
  | [] => mret None
  | p :: l' =>
      if i <? from then find_idle l' (i + 1) from
      else
        t ← get_thread p;
        if _running_on t =? -1 then mret (Some (i, _id t)) else find_idle l' (i + 1) from
  end.

Fixpoint traverse (n : nat) : M sched (option Z) :=
  match n with
  | O => mret None
  | Datatypes.S n' =>
      s ← get_st;
      r ← find_idle (fl_elems (schedule s)) 0 (idx s);
      match r with
      | Some (i, id) => modify (set_idx i);; mret (Some id)
      | None => modify (set_idx 0);; traverse n'
      end
  end.
Definition get_next_thread_to_run : M sched (option Z) := traverse 2.

Definition sched_init (n_cpus : Z) : M sched () :=
  if n_cpus =? 0 then lift Panic
  else
    for_each (λ _, modify (λ s, set_procs (vec_push (sched_procs s) (CpuData 0 false)) s)) (seqZ 0 n_cpus);;
    modify (set_ready true).

Definition sched_ready : M sched bool := gets ready.

Definition sched_resched (cpu irq : Z) (irq_state : irq_cpu_state_t) (resched : bool) : M sched resched_end :=
  data ← cpu_data_of cpu;
  lock_threads;;
  (if cpu_running data && negb resched then
     p ← thread_at (current_thread data);
     update_thread p (λ t, set_task (load_irq_state irq_state (_task t)) t);;
     p ← thread_at (current_thread data);
     update_thread p (set_running_on (-1))
   else mret tt);;
  next_thread ← get_next_thread_to_run;
  match next_thread with
  | Some id =>
      if cpu_running data && (id =? current_thread data) then
        put_cpu_data cpu (CpuData (current_thread data) true);;
        p ← thread_at id;
        update_thread p (set_running_on cpu);;
        unlock_threads;;
        mret Returned
      else
        modify (add_call DropContext);;
        modify (add_call (AckInterrupt irq));;
        put_cpu_data cpu (CpuData id true);;
        p ← thread_at id;
        update_thread p (set_running_on cpu);;
        unlock_threads;;
        p ← thread_at id;
        get_thread p;;
        mret (Entered p)
  | None =>
      modify (add_call DropContext);;
      modify (add_call (AckInterrupt irq));;
      put_cpu_data cpu (CpuData (current_thread data) false);;
      unlock_threads;;
      mret Idle
  end.

Definition sched_add (t : Z) : M sched Z :=
  lock_threads;;
  th ← get_thread t;
  lift (assertion (bool_decide (_state th = stopped)));;
  id ← allocate_id;
  modify (λ s, set_threads (hm_write (hm_index 0 (threads s) id) id t) s);;
  unlock_threads;;
  mret id.

(** The loop of [sched_remove] and [sched_block]: take the first thread with
    the number off the list. *)
Fixpoint erase_by_id (id : Z) (l : list Z) : M sched () :=
  match l with
  | [] => mret tt
  | p :: l' =>
      t ← get_thread p;
      if _id t =? id then modify (λ s, set_schedule (fl_erase (schedule s) p) s)
      else erase_by_id id l'
  end.

(** [delete]: the members of a thread own its task and its address space. *)
Definition delete_thread (p : Z) : M sched () :=
  if p =? 0 then mret tt
  else
    t ← get_thread p;
    (if _addr_space t =? 0 then mret tt
     else
       on_space (_addr_space t) address_space_delete;;
       modify (λ s, set_vm (machine s) (delete (_addr_space t) (spaces s)) s));;
    modify (λ s, set_thread_objs (delete p (thread_objs s)) s).

Definition sched_remove (id : Z) : M sched () :=
  lock_threads;;
  s ← get_st;
  erase_by_id id (fl_elems (schedule s));;
  s ← get_st;
  (match hm_map (threads s) !! id with
   | Some p => modify (set_threads (hm_remove (threads s) id));; delete_thread p
   | None => mret tt
   end);;
  unlock_threads.

(** The list writes the hook inside the thread it is given. *)
Definition sched_run (id : Z) : M sched () :=
  lock_threads;;
  p ← thread_at id;
  get_thread p;;
  modify (λ s, set_schedule (fl_push_back (schedule s) p) s);;
  unlock_threads.

(** [sched_stop] and [sched_block] call each other; [fuel] bounds the depth
    of the calls. *)
Fixpoint sched_block (fuel : nat) (id : Z) (reason : state) : M sched () :=
  match fuel with
  | O => lift Hang
  | Datatypes.S fuel' =>
      lock_threads;;
      s ← get_st;
      erase_by_id id (fl_elems (schedule s));;
      sched_block fuel' id stopped;;
      p ← thread_at id;
      update_thread p (set_state reason);;
      unlock_threads
  end.
Definition sched_stop (fuel : nat) (id : Z) : M sched () := sched_block fuel id stopped.

Definition sched_page_fault (cpu address : Z) : M sched () :=
  data ← cpu_data_of cpu;
  lift (assertion (cpu_running data));;
  p ← thread_at (current_thread data);
  t ← get_thread p;
  handled ← on_space (_addr_space t) (fault_hit address);
  if handled : bool then mret tt else lift Panic.

(** The guard that is returned is the pointer; its destructor is
    [thread_release]. *)
Definition sched_get (id : Z) : M sched Z :=
  p ← thread_at id;
  lift (assertion (negb (p =? 0)));;
  t ← get_thread p;
  '(_, b) ← lift (lock (_access_lock t));
  update_thread p (set_access b);;
  mret p.
Definition thread_release (p : Z) : M sched () :=
  t ← get_thread p;
  '(_, b) ← lift (unlock (_access_lock t));
  update_thread p (set_access b).

Definition sched_this (cpu : Z) : M sched Z :=
  data ← cpu_data_of cpu;
  lift (assertion (cpu_running data));;
  sched_get (current_thread data).

(** ** generic_irq.cpp *)
Definition page_fault_sink (cpu address : Z) : M sched () := sched_page_fault cpu address.
Definition timer_irq_sink (cpu irq : Z) (irq_state : irq_cpu_state_t) : M sched resched_end :=
  b ← sched_ready;
  if b : bool then sched_resched cpu irq irq_state false else mret Returned.
Definition resched_signal_sink (cpu irq : Z) (irq_state : irq_cpu_state_t) : M sched resched_end :=
  sched_resched cpu irq irq_state true.

(** ** Running the accesses *)
Implicit Types (s : sched).

Lemma get_thread_run s p t : thread_objs s !! p = Some t → get_thread p s = Ok (t, s).
Proof. intros Hp. unfold get_thread. cbv [mbind M_bind get_st lift access]. by rewrite Hp. Qed.

Lemma update_thread_run s p t f :
  thread_objs s !! p = Some t → update_thread p f s = Ok (tt, set_thread_objs (<[p := f t]> (thread_objs s)) s).
Proof. intros Hp. unfold update_thread. by run (get_thread_run s p t Hp). Qed.
End sched.
