(* ===== verification/SchedProps.v ===== *)
(** * Properties of the scheduler

    Which thread is chosen; that a running thread keeps its processor at every
    timer interrupt; what the missing thread numbers mean for the thread that
    is entered; that [sched_block] and [sched_stop] do not return; how a page
    fault reaches the address space of the current thread. *)
From S2P Require Import Prelude Frigg Arch Spinlock Cpu Vm Sched Pmm Paging Vmm ArchX86.
From stdpp Require Import base numbers option gmap list.
#[local] Open Scope Z_scope.

Section props.
Context {S : Type} `{!ArchMM S}.
Context {L : Type} `{!FrgList L} `{!FrgListLaws L}.
Context {V : Type → Type} `{!FrgVector V} `{!FrgVectorLaws V}.
Context {H : Type → Type} `{!FrgHashMap H} `{!FrgHashMapLaws H}.
Notation sched := (sched S L V H).
Implicit Types (s : sched) (t : thread).

Definition listed s : list Z := fl_elems (schedule s).
Definition live s : Prop := ∀ p, p ∈ listed s → is_Some (thread_objs s !! p).

(** The thread at position [i] of the list runs nowhere. *)
Definition idle_at s (l : list Z) (i : nat) : Prop :=
  ∃ p t, l !! i = Some p ∧ thread_objs s !! p = Some t ∧ _running_on t = -1.

Lemma find_idle_run s l i from :
  0 ≤ i → (∀ p, p ∈ l → is_Some (thread_objs s !! p)) →
  (find_idle l i from s = Ok (None, s) ∧ ∀ k, from ≤ i + Z.of_nat k → ¬ idle_at s l k) ∨
  (∃ k p t, find_idle l i from s = Ok (Some (i + Z.of_nat k, _id t), s) ∧ l !! k = Some p ∧
     thread_objs s !! p = Some t ∧ _running_on t = -1 ∧ from ≤ i + Z.of_nat k ∧
     ∀ j, (j < k)%nat → from ≤ i + Z.of_nat j → ¬ idle_at s l j).
Proof.
  revert i. induction l as [|p l IH]; intros i Hi Hl.
  { left. split; [done|]. intros k _ (? & ? & Hk & _). by rewrite lookup_nil in Hk. }
  destruct (Hl p) as [t Ht]; [set_solver|]. specialize (IH (i + 1) ltac:(lia) ltac:(set_solver)).
  assert (∀ k, idle_at s (p :: l) (Datatypes.S k) ↔ idle_at s l k) as Hsucc by done.
  assert (∀ r, find_idle l (i + 1) from s = r → (from ≤ i → ¬ idle_at s (p :: l) 0) →
    (r = Ok (None, s) ∧ ∀ k, from ≤ i + Z.of_nat k → ¬ idle_at s (p :: l) k) ∨
    (∃ k p0 t0, r = Ok (Some (i + Z.of_nat k, _id t0), s) ∧ (p :: l) !! k = Some p0 ∧
       thread_objs s !! p0 = Some t0 ∧ _running_on t0 = -1 ∧ from ≤ i + Z.of_nat k ∧
       ∀ j, (j < k)%nat → from ≤ i + Z.of_nat j → ¬ idle_at s (p :: l) j)) as Hskip.
  { intros r <- H0. destruct IH as [[Hrun Hno]|(k & q & u & Hrun & Hk & Hq & Hu & Hfrom & Hbefore)]; [left|right].
    - split; [done|]. intros [|k] Hk; [apply H0; lia|rewrite Hsucc; apply Hno; lia].
    - exists (Datatypes.S k), q, u. split_and!; [|done|done|done|lia|].
      + rewrite Hrun. by replace (i + 1 + Z.of_nat k) with (i + Z.of_nat (Datatypes.S k)) by lia.
      + intros [|j] Hj Hf; [apply H0; lia|rewrite Hsucc; apply Hbefore; lia]. }
  cbn [find_idle]. destruct (Z.ltb_spec i from) as [Hlt|Hge]; [apply Hskip; [done|lia]|].
  run (get_thread_run s p t Ht). destruct (Z.eqb_spec (_running_on t) (-1)) as [Hr|Hr].
  - right. exists 0%nat, p, t. split_and!; [by rewrite Z.add_0_r|done..|lia|]. lia.
  - apply Hskip; [done|]. intros _ (p' & t' & Hp' & Ht' & Hr'). cbn in Hp'. simplify_eq.
Qed.

(** C28. [get_next_thread_to_run] chooses the first thread that runs nowhere,
    searching from position [idx] and then from the start, and remembers its
    position; it returns nothing exactly when every listed thread is running. *)
Theorem get_next_thread_to_run_spec s :
  live s → 0 ≤ idx s →
  (∃ i p t, get_next_thread_to_run s = Ok (Some (_id t), set_idx (Z.of_nat i) s) ∧ listed s !! i = Some p ∧
     thread_objs s !! p = Some t ∧ _running_on t = -1 ∧
     ((idx s ≤ Z.of_nat i ∧ ∀ j, (j < i)%nat → idx s ≤ Z.of_nat j → ¬ idle_at s (listed s) j) ∨
      (Z.of_nat i < idx s ∧ ∀ j, (j < i)%nat ∨ idx s ≤ Z.of_nat j → ¬ idle_at s (listed s) j))) ∨
  (get_next_thread_to_run s = Ok (None, set_idx 0 s) ∧ ∀ j, ¬ idle_at s (listed s) j).
Proof.
  intros Hlive Hidx. unfold get_next_thread_to_run. cbn [traverse].
  run (eq_refl : get_st s = Ok (s, s)). fold (listed s).
  destruct (find_idle_run s (listed s) 0 (idx s) ltac:(done) Hlive)
    as [[Hrun Hno]|(k & p & t & Hrun & Hk & Hp & Ht & Hfrom & Hbefore)]; run Hrun.
  2: { left. exists k, p, t. split_and!; [done|done|done|done|]. left. split; [lia|]. intros j Hj Hf. apply Hbefore; lia. }
  run (eq_refl : modify (set_idx 0) s = Ok (tt, set_idx 0 s)).
  run (eq_refl : get_st (set_idx 0 s) = Ok (set_idx 0 s, set_idx 0 s)). fold (listed (set_idx 0 s)).
  destruct (find_idle_run (set_idx 0 s) (listed s) 0 0 ltac:(done) Hlive)
    as [[Hrun2 Hno2]|(k & p & t & Hrun2 & Hk & Hp & Ht & _ & Hbefore)]; run Hrun2.
  - right. split; [done|]. intros j. apply (Hno2 j). lia.
  - left. exists k, p, t. split_and!; [done|done|done|done|]. right. split.
    + destruct (decide (Z.of_nat k < idx s)) as [|Hge]; [done|]. exfalso. apply (Hno k); [lia|]. by exists p, t.
    + intros j [Hj|Hj]; [apply (Hbefore j); lia|apply Hno; lia].
Qed.

(** ** The thread that has the processor *)

Lemma lock_threads_run s : threads_lock s = false → lock_threads s = Ok (tt, set_threads_lock true s).
Proof. intros Hl. unfold lock_threads. cbv [mbind M_bind get_st lift lock modify]. by rewrite Hl. Qed.

(** [threads[id]] of a thread that is there. *)
Lemma thread_at_run s id p :
  hm_map (threads s) !! id = Some p →
  ∃ m, thread_at id s = Ok (p, set_threads m s) ∧ hm_map m = hm_map (threads s).
Proof.
  intros Hp. exists (hm_index 0 (threads s) id). split.
  - unfold thread_at. cbv [mbind M_bind get_st modify]. by rewrite Hp.
  - rewrite hm_index_map, Hp. cbn. by apply insert_id.
Qed.

Lemma cpu_data_run s cpu d : vec_elems (sched_procs s) !! Z.to_nat cpu = Some d → cpu_data_of cpu s = Ok (d, s).
Proof. intros Hd. unfold cpu_data_of. cbv [mbind M_bind get_st lift access]. by rewrite Hd. Qed.

(** The thread [p] with number [cur] has the processor, and [idx] is its
    place in the list. *)
Record holds_cpu (cpu cur p : Z) s : Prop := {
  hc_lock : threads_lock s = false;
  hc_data : vec_elems (sched_procs s) !! Z.to_nat cpu = Some (CpuData cur true);
  hc_thread : hm_map (threads s) !! cur = Some p;
  hc_list : 0 ≤ idx s ∧ listed s !! Z.to_nat (idx s) = Some p;
  hc_id : ∃ t, thread_objs s !! p = Some t ∧ _id t = cur;
}.

(** The first position that a search from [from] looks at. *)
Lemma find_idle_here s l i from p t :
  i ≤ from → l !! Z.to_nat (from - i) = Some p → thread_objs s !! p = Some t → _running_on t = -1 →
  find_idle l i from s = Ok (Some (from, _id t), s).
Proof.
  revert i. induction l as [|q l IH]; intros i Hi Hl Hp Hr; [by rewrite lookup_nil in Hl|].
  cbn [find_idle]. destruct (Z.ltb_spec i from) as [Hlt|Hge].
  - apply IH; [lia| |done|done]. replace (Z.to_nat (from - i)) with (Datatypes.S (Z.to_nat (from - (i + 1)))) in Hl by lia. done.
  - assert (from = i) as -> by lia. rewrite Z.sub_diag in Hl. cbn in Hl. injection Hl as ->.
    run (get_thread_run s p t Hp). by rewrite Hr.
Qed.

(** One timer interrupt. *)
Lemma resched_keeps_current cpu cur p s irq st :
  holds_cpu cpu cur p s →
  ∃ s', sched_resched cpu irq st false s = Ok (Returned, s') ∧ holds_cpu cpu cur p s' ∧
    calls s' = calls s ∧ (∀ q, q ≠ p → thread_objs s' !! q = thread_objs s !! q).
Proof.
  intros [Hlock Hdata Hthread [Hidx Hlist] (t & Ht & Hid)]. unfold sched_resched.
  run (cpu_data_run s cpu _ Hdata). run (lock_threads_run s Hlock). cbn [cpu_running current_thread andb negb].
  set (s0 := set_threads_lock true s).
  destruct (thread_at_run s0 cur p Hthread) as (m1 & Hrun1 & Hm1).
  set (t1 := set_task (load_irq_state st (_task t)) t). set (s1 := set_thread_objs (<[p := t1]> (thread_objs s)) (set_threads m1 s0)).
  destruct (thread_at_run s1 cur p (eq_trans (f_equal (.!! cur) Hm1) Hthread)) as (m2 & Hrun2 & Hm2).
  set (t2 := set_running_on (-1) t1). set (s2 := set_thread_objs (<[p := t2]> (thread_objs s1)) (set_threads m2 s1)).
  assert (thread_objs s2 !! p = Some t2) as Ht2 by apply lookup_insert_eq.
  erewrite bind_run.
  2: { run Hrun1. run (update_thread_run (set_threads m1 s0) p t (λ t, set_task (load_irq_state st (_task t)) t) Ht).
       run Hrun2. apply (update_thread_run (set_threads m2 s1) p t1). apply lookup_insert_eq. }
  fold s2. assert (get_next_thread_to_run s2 = Ok (Some cur, set_idx (idx s) s2)) as Hnext.
  { unfold get_next_thread_to_run. cbn [traverse]. run (eq_refl : get_st s2 = Ok (s2, s2)).
    run (find_idle_here s2 (fl_elems (schedule s2)) 0 (idx s) p t2 Hidx ltac:(rewrite Z.sub_0_r; exact Hlist) Ht2 eq_refl).
    change (_id t2) with (_id t). by rewrite Hid. }
  run Hnext. rewrite Z.eqb_refl. set (s3 := set_procs (vec_set (sched_procs s) (Z.to_nat cpu) (CpuData cur true)) (set_idx (idx s) s2)).
  run (eq_refl : put_cpu_data cpu (CpuData cur true) (set_idx (idx s) s2) = Ok (tt, s3)).
  assert (hm_map m2 = hm_map (threads s)) as Hm2' by exact (eq_trans Hm2 Hm1).
  destruct (thread_at_run s3 cur p (eq_trans (f_equal (.!! cur) Hm2') Hthread)) as (m4 & Hrun4 & Hm4). run Hrun4.
  run (update_thread_run (set_threads m4 s3) p t2 (set_running_on cpu) Ht2). eexists. split; [reflexivity|].
  split_and!; [split|done|].
  - done.
  - cbn. rewrite vec_set_elems. apply list_lookup_insert_eq. by apply lookup_lt_Some in Hdata.
  - exact (eq_trans (f_equal (.!! cur) (eq_trans Hm4 Hm2')) Hthread).
  - done.
  - exists (set_running_on cpu t2). split; [apply lookup_insert_eq|done].
  - intros q Hq. cbn. by rewrite !lookup_insert_ne by done.
Qed.

(** C29. There is no rotation among the threads: a thread that has the
    processor is chosen again at every timer interrupt, whatever else is
    waiting in the list, and no other thread is touched. *)
Theorem sched_no_rotation cpu cur p s (ticks : list (Z * irq_cpu_state_t)) :
  holds_cpu cpu cur p s →
  ∃ s', for_each (λ '(irq, st), r ← sched_resched cpu irq st false;
                   lift (match r with Returned => Ok tt | _ => Panic end)) ticks s = Ok (tt, s') ∧
    holds_cpu cpu cur p s' ∧ ∀ q, q ≠ p → thread_objs s' !! q = thread_objs s !! q.
Proof.
  revert s. induction ticks as [|[irq st] ticks IH]; intros s Hs; [by exists s|].
  destruct (resched_keeps_current cpu cur p s irq st Hs) as (s1 & Hrun & Hs1 & _ & Hq1).
  destruct (IH s1 Hs1) as (s' & Hrun' & Hs' & Hq'). exists s'. split_and!; [|done|].
  - cbn [for_each]. erewrite bind_run; [exact Hrun'|]. by run Hrun.
  - intros q Hq. rewrite Hq', Hq1 by done. done.
Qed.

(** ** Blocking *)
Lemma erase_by_id_run s id l :
  (∀ p, p ∈ l → is_Some (thread_objs s !! p)) →
  ∃ s', erase_by_id id l s = Ok (tt, s') ∧ threads_lock s' = threads_lock s.
Proof.
  induction l as [|p l IH]; intros Hl; [by exists s|].
  destruct (Hl p) as [t Ht]; [set_solver|]. cbn [erase_by_id]. run (get_thread_run s p t Ht).
  destruct (_id t =? id); [by eexists|]. apply IH. set_solver.
Qed.

Lemma sched_block_locked fuel id reason s : threads_lock s = true → sched_block fuel id reason s = Hang.
Proof.
  intros Hl. destruct fuel; [done|]. cbn [sched_block]. unfold lock_threads.
  cbv [mbind M_bind get_st lift lock modify]. by rewrite Hl.
Qed.

(** [sched_block] and [sched_stop] never return: the thread that calls them
    holds the lock when the nested call waits for it. This holds at every
    depth of the mutual recursion. *)
Theorem sched_block_hangs fuel id reason s :
  live s → sched_block fuel id reason s = Hang ∧ sched_stop fuel id s = Hang.
Proof.
  intros Hlive. assert (∀ r, sched_block fuel id r s = Hang) as Hb; [|by split; [|apply Hb]].
  intros r. destruct (threads_lock s) eqn:Hl; [by apply sched_block_locked|].
  destruct fuel as [|fuel]; [done|]. cbn [sched_block]. run (lock_threads_run s Hl).
  run (eq_refl : get_st (set_threads_lock true s) = Ok (set_threads_lock true s, set_threads_lock true s)).
  destruct (erase_by_id_run (set_threads_lock true s) id (listed s) Hlive) as (s1 & Hrun & Hl1). run Hrun.
  cbv [mbind M_bind]. by rewrite sched_block_locked.
Qed.

(** ** Page faults *)

(** A page fault goes to the address space of the thread that runs on the
    processor: when that resolves it, the handler returns with the new state
    of the machine and of this address space and nothing else changed;
    otherwise the machine stops. *)
Theorem page_fault_sink_spec cpu a s cur p t v :
  vec_elems (sched_procs s) !! Z.to_nat cpu = Some (CpuData cur true) → hm_map (threads s) !! cur = Some p →
  thread_objs s !! p = Some t → spaces s !! _addr_space t = Some v →
  (∀ v', fault_hit a (set_arch (machine s) v) = Ok (true, v') →
     ∃ s', page_fault_sink cpu a s = Ok (tt, s') ∧ machine s' = arch v' ∧
       spaces s' = <[_addr_space t := v']> (spaces s) ∧ thread_objs s' = thread_objs s ∧
       schedule s' = schedule s ∧ hm_map (threads s') = hm_map (threads s)) ∧
  (∀ v', fault_hit a (set_arch (machine s) v) = Ok (false, v') → page_fault_sink cpu a s = Panic).
Proof.
  intros Hd Hcur Hp Hv. destruct (thread_at_run s cur p Hcur) as (m & Hrun & Hm).
  unfold page_fault_sink, sched_page_fault. run (cpu_data_run s cpu _ Hd). cbn [cpu_running current_thread].
  run (eq_refl : lift (assertion true) s = Ok (tt, s)). run Hrun. run (get_thread_run (set_threads m s) p t Hp).
  split; intros v' Hf; cbv [mbind M_bind on_space]; cbn [spaces machine set_threads]; rewrite Hv, Hf; [|done].
  eexists. split; [reflexivity|]. by cbn.
Qed.

(** ** Thread numbers *)
Definition ids_zero s : Prop := ∀ p t, thread_objs s !! p = Some t → _id t = 0.

(** What changes the threads of the scheduler. *)
Inductive sop :=
| Make (p : Z) (task : arch_task) (space : Z)
| Add (p : Z)
| Remove (id : Z)
| Run (id : Z)
| Block (fuel : nat) (id : Z) (reason : state)
| Tick (cpu irq : Z) (st : irq_cpu_state_t) (resched : bool)
| PageFault (cpu a : Z)
| Access (id : Z).

Definition run_sop (o : sop) : M sched () :=
  match o with
  | Make p task space => put_thread p (thread_new task space)
  | Add p => sched_add p;; mret tt
  | Remove id => sched_remove id
  | Run id => sched_run id
  | Block fuel id reason => sched_block fuel id reason
  | Tick cpu irq st resched => sched_resched cpu irq st resched;; mret tt
  | PageFault cpu a => page_fault_sink cpu a
  | Access id => p ← sched_get id; thread_release p
  end.

Lemma keeps_ids_other (f : sched → sched) :
  (∀ s, thread_objs (f s) = thread_objs s) → keeps ids_zero (modify f).
Proof. intros Hf. apply keeps_modify. intros s Hs p t. rewrite Hf. apply Hs. Qed.

Lemma keeps_ids_update p (f : thread → thread) : (∀ t, _id (f t) = _id t) → keeps ids_zero (update_thread p f).
Proof.
  intros Hf s a s' Hs Hrun. destruct (thread_objs s !! p) as [t|] eqn:Ht.
  - rewrite (update_thread_run s p t f Ht) in Hrun. injection Hrun as _ <-. intros q u Hq. cbn in Hq.
    destruct (decide (q = p)) as [->|Hne].
    + rewrite lookup_insert_eq in Hq. injection Hq as <-. rewrite Hf. by eapply Hs.
    + rewrite lookup_insert_ne in Hq by done. by eapply Hs.
  - unfold update_thread, get_thread in Hrun. cbv [mbind M_bind get_st lift access] in Hrun. by rewrite Ht in Hrun.
Qed.

Lemma keeps_ids_put p t : _id t = 0 → keeps ids_zero (put_thread p t).
Proof.
  intros Ht. apply keeps_modify. intros s Hs q u Hq. cbn in Hq. destruct (decide (q = p)) as [->|Hne].
  - rewrite lookup_insert_eq in Hq. by injection Hq as <-.
  - rewrite lookup_insert_ne in Hq by done. by eapply Hs.
Qed.

Lemma keeps_ids_delete p : keeps ids_zero (modify (λ s, set_thread_objs (delete p (thread_objs s)) s)).
Proof. apply keeps_modify. intros s Hs q u Hq. cbn in Hq. apply lookup_delete_Some in Hq as [_ Hq]. by eapply Hs. Qed.

Lemma keeps_ids_space {A} p (m : M (vm S L V) A) : keeps ids_zero (on_space p m).
Proof.
  intros s a s' Hs Hrun. unfold on_space in Hrun. destruct (spaces s !! p) as [v|]; [|done].
  destruct (m _) as [[x v']| | |]; try done. injection Hrun as _ <-. exact Hs.
Qed.

#[local] Hint Resolve keeps_ids_update keeps_ids_delete keeps_ids_space : keeps.
#[local] Hint Extern 1 (keeps ids_zero (modify _)) => (apply keeps_ids_other; reflexivity) : keeps.

Lemma keeps_ids_thread_at id : keeps ids_zero (thread_at id).
Proof. unfold thread_at. repeat keeps_step. Qed.
Lemma keeps_ids_lock : keeps ids_zero lock_threads.
Proof. unfold lock_threads. repeat keeps_step. Qed.
Lemma keeps_ids_unlock : keeps ids_zero unlock_threads.
Proof. unfold unlock_threads. repeat keeps_step. Qed.
Lemma keeps_ids_get p : keeps ids_zero (get_thread p).
Proof. unfold get_thread. repeat keeps_step. Qed.
Lemma keeps_ids_data cpu : keeps ids_zero (cpu_data_of cpu).
Proof. unfold cpu_data_of. repeat keeps_step. Qed.
Lemma keeps_ids_put_data cpu d : keeps ids_zero (put_cpu_data cpu d).
Proof. unfold put_cpu_data. repeat keeps_step. Qed.
#[local] Hint Resolve keeps_ids_thread_at keeps_ids_lock keeps_ids_unlock keeps_ids_get keeps_ids_data keeps_ids_put_data : keeps.

Lemma keeps_ids_find l i from : keeps ids_zero (find_idle l i from).
Proof. revert i. induction l; intros i; cbn [find_idle]; repeat keeps_step. Qed.
Lemma keeps_ids_erase id l : keeps ids_zero (erase_by_id id l).
Proof. induction l; cbn [erase_by_id]; repeat keeps_step. Qed.
#[local] Hint Resolve keeps_ids_find keeps_ids_erase : keeps.

Lemma keeps_ids_next : keeps ids_zero get_next_thread_to_run.
Proof. unfold get_next_thread_to_run. generalize 2%nat. intros n. induction n; cbn [traverse]; repeat keeps_step. Qed.
#[local] Hint Resolve keeps_ids_next : keeps.

Lemma keeps_ids_block fuel id reason : keeps ids_zero (sched_block fuel id reason).
Proof. revert reason. induction fuel; intros reason; cbn [sched_block]; repeat keeps_step. Qed.
#[local] Hint Resolve keeps_ids_block : keeps.

Lemma keeps_ids_sop o : keeps ids_zero (run_sop o).
Proof.
  destruct o; unfold run_sop; [by apply keeps_ids_put|..];
    unfold sched_get, thread_release, sched_add, sched_remove, sched_run, sched_resched, page_fault_sink, sched_page_fault, allocate_id, delete_thread;
    repeat keeps_step.
Qed.

Lemma next_id_zero s id s' : ids_zero s → get_next_thread_to_run s = Ok (Some id, s') → id = 0.
Proof.
  intros Hs. assert (∀ l i from s r s', ids_zero s → find_idle l i from s = Ok (Some r, s') → r.2 = 0) as Hfind.
  { clear s s' Hs. induction l as [|p l IH]; intros i from s r s' Hs Hrun; [done|]. cbn [find_idle] in Hrun.
    destruct (i <? from); [by eapply IH|]. destruct (thread_objs s !! p) as [t|] eqn:Ht.
    - rewrite (bind_run _ _ _ _ _ (get_thread_run s p t Ht)) in Hrun.
      destruct (_running_on t =? -1); [|by eapply IH]. injection Hrun as <- _. by apply (Hs p).
    - unfold get_thread in Hrun. cbv [mbind M_bind get_st lift access] in Hrun. by rewrite Ht in Hrun. }
  unfold get_next_thread_to_run. generalize 2%nat. intros n. revert s Hs.
  induction n as [|n IH]; intros s Hs Hrun; cbn [traverse] in Hrun; [done|]. apply bind_M_Ok in Hrun as (x & s1 & Hx & Hrun).
  injection Hx as <- <-. apply bind_M_Ok in Hrun as (r & s2 & Hr & Hrun).
  pose proof (keeps_ids_find _ _ _ _ _ _ Hs Hr) as Hs2. destruct r as [[i id']|].
  - injection Hrun as <- _. exact (Hfind _ _ _ _ _ _ Hs Hr).
  - apply (IH (set_idx 0 s2)); [exact Hs2|exact Hrun].
Qed.

Lemma thread_at_result id p s s' : thread_at id s = Ok (p, s') → hm_map (threads s') !! id = Some p.
Proof. intros [= <- <-]. cbn. by rewrite hm_index_map, lookup_insert_eq. Qed.

Lemma resched_enters_zero cpu irq st b s q s' :
  ids_zero s → sched_resched cpu irq st b s = Ok (Entered q, s') → hm_map (threads s') !! 0 = Some q.
Proof.
  intros Hs Hrun. unfold sched_resched in Hrun. apply bind_M_Ok in Hrun as (d & s1 & H1 & Hrun).
  pose proof (keeps_ids_data _ _ _ _ Hs H1) as Hs1. apply bind_M_Ok in Hrun as ([] & s2 & H2 & Hrun).
  pose proof (keeps_ids_lock _ _ _ Hs1 H2) as Hs2. apply bind_M_Ok in Hrun as ([] & s3 & H3 & Hrun).
  assert (ids_zero s3) as Hs3.
  { eapply (_ : keeps ids_zero _); [exact Hs2|exact H3]. Unshelve. repeat keeps_step. }
  apply bind_M_Ok in Hrun as (n & s4 & H4 & Hrun). destruct n as [id|]; [|inv_ok; done].
  pose proof (next_id_zero _ _ _ Hs3 H4) as ->. destruct (cpu_running d && (0 =? current_thread d)); [by inv_ok|].
  do 6 (apply bind_M_Ok in Hrun as (? & ? & ? & Hrun)).
  apply bind_M_Ok in Hrun as (p & s5 & Hat & Hrun). apply bind_M_Ok in Hrun as (t6 & s6 & Hget & Hrun).
  assert (s6 = s5) as ->.
  { unfold get_thread in Hget. apply bind_M_Ok in Hget as (? & ? & [= <- <-] & Hget).
    unfold lift in Hget. destruct (access _); by simplify_eq. }
  injection Hrun as <- <-. by eapply thread_at_result.
Qed.

(** No operation of the scheduler gives a thread its number: after any
    sequence of operations every thread still has the number 0 of its
    constructor. So whichever threads are in the list, a processor that enters
    a thread enters the first one that was added. *)
Theorem thread_numbers (l : list sop) s s' cpu irq st b q s'' :
  thread_objs s = ∅ → for_each run_sop l s = Ok (tt, s') →
  ids_zero s' ∧
  (sched_resched cpu irq st b s' = Ok (Entered q, s'') → hm_map (threads s'') !! 0 = Some q).
Proof.
  intros Hempty Hrun. assert (ids_zero s) as Hs by (intros p t; by rewrite Hempty, lookup_empty).
  pose proof (keeps_each ids_zero run_sop l keeps_ids_sop _ _ _ Hs Hrun) as Hs'.
  split; [done|]. intros Hq. by eapply resched_enters_zero.
Qed.
End props.

(** ** Witnesses: x86_64, lists and maps *)
Section demo.
Import Instances.

Definition demo_sched : sched vmm (list Z) list (gmap Z) :=
  Sched (Vmm demo_pmm demo_root demo_root 0) ∅ ∅ ∅ [] 0 0 [CpuData 0 false] true false [].

(** Two threads at 16 and 32 with numbers 0 and 1. *)
Definition demo_threads : list sop := [Make 16 demo_task 0; Make 32 demo_task 0; Add 16; Add 32].
Definition two_threads : sched vmm (list Z) list (gmap Z) :=
  Sched (Vmm demo_pmm demo_root demo_root 0) ∅
    {[ 16 := thread_new demo_task 0; 32 := thread_new demo_task 0 ]} {[ 0 := 16; 1 := 32 ]} [32; 16] 2 0
    [CpuData 0 false] true false [].

#[local] Opaque demo_pmm demo_task.

Lemma demo_live : live two_threads.
Proof. intros p Hp. apply list_elem_of_In in Hp. destruct Hp as [<-|[<-|[]]]; eexists; reflexivity. Qed.

Lemma get_next_thread_to_run_spec_witness :
  ∃ i p, listed two_threads !! i = Some p ∧
    get_next_thread_to_run two_threads = Ok (Some 0, set_idx (Z.of_nat i) two_threads).
Proof.
  destruct (get_next_thread_to_run_spec two_threads demo_live ltac:(reflexivity)) as [(i & p & t & Hrun & Hi & Hp & _)|[_ Hno]].
  - exists i, p. split; [exact Hi|]. rewrite Hrun. do 2 f_equal.
    change (listed two_threads) with [32; 16] in Hi. destruct i as [|[|i]]; [| |discriminate Hi];
      injection Hi as <-; injection Hp as <-; reflexivity.
  - destruct (Hno 0%nat). exists 32, (thread_new demo_task 0). split_and!; reflexivity.
Defined.

Definition current_demo : sched vmm (list Z) list (gmap Z) :=
  Sched (Vmm demo_pmm demo_root demo_root 0) ∅
    {[ 16 := set_running_on 0 (thread_new demo_task 0); 32 := thread_new demo_task 0 ]} {[ 0 := 16; 1 := 32 ]} [16; 32] 2 0
    [CpuData 0 true] true false [].

Lemma demo_holds : holds_cpu 0 0 16 current_demo.
Proof. split; [reflexivity..| |]; [split; reflexivity|]. eexists. split; reflexivity. Qed.

Lemma sched_no_rotation_witness :
  ∃ s', for_each (λ '(irq, st), r ← sched_resched 0 irq st false;
                   lift (match r with Returned => Ok tt | _ => Panic end)) [(0x31, demo_irq); (0x31, demo_irq)] current_demo
      = Ok (tt, s') ∧ thread_objs s' !! 32 = Some (thread_new demo_task 0).
Proof.
  destruct (sched_no_rotation 0 0 16 current_demo [(0x31, demo_irq); (0x31, demo_irq)] demo_holds) as (s' & Hrun & _ & Hother).
  exists s'. split; [exact Hrun|]. rewrite Hother by discriminate. reflexivity.
Defined.

Lemma sched_block_hangs_witness : sched_block 5 0 blocked_ipc two_threads = Hang.
Proof. exact (proj1 (sched_block_hangs 5 0 blocked_ipc two_threads demo_live)). Defined.

(** A thread with an address space that has no regions: the fault at 4096 is
    not resolved. *)
Definition fault_demo : sched vmm (list Z) list (gmap Z) :=
  Sched (Vmm demo_pmm demo_root demo_root 0) {[ 64 := Vm (Vmm demo_pmm demo_root demo_root 0) ∅ ∅ 1 [] [] 0 ]}
    {[ 16 := thread_new demo_task 64 ]} {[ 0 := 16 ]} [16] 1 0 [CpuData 0 true] true false [].

Lemma page_fault_sink_spec_witness : page_fault_sink (S := vmm) 0 4096 fault_demo = Panic.
Proof.
  destruct (page_fault_sink_spec 0 4096 fault_demo 0 16 (thread_new demo_task 64)
    (Vm (Vmm demo_pmm demo_root demo_root 0) ∅ ∅ 1 [] [] 0)) as [_ Hno]; [reflexivity..|].
  eapply Hno. reflexivity.
Defined.

Lemma thread_numbers_witness :
  ∃ s' s'', for_each run_sop (demo_threads ++ [Run 1]) demo_sched = Ok (tt, s') ∧ schedule s' = [32] ∧
    sched_resched 0 0x31 demo_irq false s' = Ok (Entered 16, s'') ∧ hm_map (threads s'') !! 0 = Some 16.
Proof.
  assert (∃ s', for_each run_sop (demo_threads ++ [Run 1]) demo_sched = Ok (tt, s') ∧ schedule s' = [32] ∧
    ∃ s'', sched_resched 0 0x31 demo_irq false s' = Ok (Entered 16, s'')) as (s' & Hrun & Hl & s'' & Henter).
  { eexists. split; [vm_compute; reflexivity|]. split; [reflexivity|]. eexists. vm_compute. reflexivity. }
  exists s', s''. split; [exact Hrun|]. split; [exact Hl|]. split; [exact Henter|].
  exact (proj2 (thread_numbers (demo_threads ++ [Run 1]) demo_sched s' 0 0x31 demo_irq false 16 s'' eq_refl Hrun) Henter).
Defined.
End demo.
