(* ===== verification/Irq.v ===== *)
(** * Interrupts (irq/isr.cpp)

    The dispatcher of x86_64 over the scheduler of Sched.v and the machine of
    Vmm.v. A handler is a number; what the handlers do is an argument, as are
    the number of the processor, the faulting address and the registers at the
    interrupt. A call of [irq_eoi], from the dispatcher or through
    [arch_cpu_ack_interrupt], is an [AckInterrupt] in the trace of the
    scheduler; [irq_eoi] says what it writes. A machine check ends in a panic
    after its registers were logged. *)
From S2P Require Import Prelude Frigg Arch Spinlock Cpu Vm Sched SchedProps Pmm Paging Vmm ArchX86.
From stdpp Require Import base numbers option gmap list.
#[local] Open Scope Z_scope.

(** ** Acknowledging *)
Inductive eoi_write := OutByte (port val : Z) | LapicEoi.

Definition irq_eoi (irq : Z) : list eoi_write :=
  (if (0x20 <=? irq) && (irq <? 0x30) then
     (if 0x28 <=? irq then [OutByte 0xA0 0x20] else []) ++ [OutByte 0x20 0x20]
   else []) ++
  (if 0x30 <=? irq then [LapicEoi] else []).

(** ** State *)
Record interrupts {L : Type} {V H : Type → Type} := Interrupts {
  irq_sched : sched vmm L V H;
  irq_handlers : list (option Z);
  spurious_pic : list Z;    (** for every processor's data *)
}.
Arguments interrupts : clear implicits.
Arguments Interrupts {L V H} _ _ _.

Section irq.
Context {L : Type} `{!FrgList L} `{!FrgListLaws L}.
Context {V : Type → Type} `{!FrgVector V} `{!FrgVectorLaws V}.
Context {H : Type → Type} `{!FrgHashMap H} `{!FrgHashMapLaws H}.
Notation sched := (sched vmm L V H).
Notation interrupts := (interrupts L V H).
(** What the handler with a number does, and its result. *)
Context (run_handler : Z → irq_cpu_state_t → M interrupts Z).
Implicit Types (s : interrupts) (c : sched).

Definition set_irq_sched c s : interrupts := Interrupts c (irq_handlers s) (spurious_pic s).
Definition set_handlers (h : list (option Z)) s : interrupts := Interrupts (irq_sched s) h (spurious_pic s).
Definition set_spurious (l : list Z) s : interrupts := Interrupts (irq_sched s) (irq_handlers s) l.

Definition in_sched {A} (m : M sched A) : M interrupts A := zoom irq_sched set_irq_sched m.
Definition on_machine {A} (m : M vmm A) : M interrupts A :=
  in_sched (zoom machine (λ a c, set_vm a (spaces c) c) m).

(** [irq_handlers[irq]] *)
Definition handler_of (irq : Z) : M interrupts (option Z) :=
  s ← get_st; lift (access (irq_handlers s !! Z.to_nat irq)).

Definition isr_register_handler (irq handler : Z) : M interrupts Z :=
  h ← handler_of irq;
  match h with
  | Some _ => mret 0
  | None => modify (λ s, set_handlers (<[Z.to_nat irq := Some handler]> (irq_handlers s)) s);; mret 1
  end.
Definition isr_unregister_handler (irq : Z) : M interrupts Z :=
  h ← handler_of irq;
  match h with
  | None => mret 0
  | Some _ => modify (λ s, set_handlers (<[Z.to_nat irq := None]> (irq_handlers s)) s);; mret 1
  end.

Definition arch_cpu_ack_interrupt (irq : Z) : M interrupts () := in_sched (modify (add_call (AckInterrupt irq))).
Definition exit_interrupt (irq : Z) (restore_ctx : bool) : M interrupts () :=
  in_sched (modify (add_call (AckInterrupt irq)));;
  (if restore_ctx then on_machine vmm_restore_context else mret tt).

Definition count_spurious (cpu irq : Z) : M interrupts () :=
  if (0x20 <=? irq) && (irq <? 0x30) then
    s ← get_st;
    n ← lift (access (spurious_pic s !! Z.to_nat cpu));
    modify (λ s, set_spurious (<[Z.to_nat cpu := n + 1]> (spurious_pic s)) s)
  else mret tt.

Definition call_handler (irq : Z) (state : irq_cpu_state_t) : M interrupts Z :=
  h ← handler_of irq;
  match h with Some f => run_handler f state | None => mret 0 end.

(** An exception that no handler took. *)
Definition unhandled (cpu cr2 irq : Z) (state : irq_cpu_state_t) : M interrupts () :=
  if irq <? 0x20 then
    if i_cs state =? 0x08 then lift Panic
    else if irq =? 0x0E then in_sched (page_fault_sink cpu cr2)
    else lift Panic
  else mret tt.

Definition dispatch_interrupt (cpu cr2 : Z) (state : irq_cpu_state_t) : M interrupts resched_end :=
  on_machine vmm_save_context;;
  on_machine (k ← arch_mm_get_ctx_kernel; vmm_set_context k);;
  let irq := u32 (i_int_no state) in
  count_spurious cpu irq;;
  success ← call_handler irq state;
  r ← (if irq =? 0x31 then in_sched (timer_irq_sink cpu (u8 irq) state) else mret Returned);
  match r with
  | Returned =>
      let success := if irq =? 0x31 then 1 else success in
      (if irq =? 18 then lift Panic else mret tt);;
      (if success =? 0 then unhandled cpu cr2 irq state else mret tt);;
      exit_interrupt (u8 irq) true;;
      mret Returned
  | Entered p => mret (Entered p)
  | Idle => mret Idle
  end.

(** ** What the scheduler leaves alone *)

(** The contexts of the machine, and the trace. *)
Definition contexts (m : vmm) : Z * Z * Z := (kernel_pml4 m, cr3 m, saved_vmm_ctx m).
Definition fixed (l : list arch_call) (x : Z * Z * Z) c : Prop := calls c = l ∧ contexts (machine c) = x.

Lemma keeps_on_mem {A} (m : M pmm A) x : keeps (λ a, contexts a = x) (on_mem m).
Proof.
  intros s a s' Hs Hrun. unfold on_mem, zoom in Hrun. destruct (m (mem s)) as [[b p]| | |]; try done.
  by injection Hrun as _ <-.
Qed.

Definition vm_contexts (x : Z * Z * Z) (v : vm vmm L V) : Prop := contexts (arch v) = x.

Lemma keeps_on_arch {A} (m : M vmm A) x : keeps (λ a, contexts a = x) m → keeps (vm_contexts x) (on_arch (L := L) (V := V) m).
Proof.
  intros Hm s a s' Hs Hrun. unfold on_arch, zoom in Hrun. destruct (m (arch s)) as [[b p]| | |] eqn:E; try done.
  injection Hrun as _ <-. exact (Hm _ _ _ Hs E).
Qed.

#[local] Hint Resolve keeps_on_mem keeps_on_arch : keeps.
#[local] Hint Extern 1 (keeps (vm_contexts _) (modify _)) => (apply keeps_modify; intros ? Hk; exact Hk) : keeps.
#[local] Hint Extern 1 (keeps (fixed _ _) (modify _)) => (apply keeps_modify; intros ? Hk; exact Hk) : keeps.

Lemma keeps_alloc n x : keeps (vm_contexts x) (on_arch (L := L) (V := V) (am_alloc_phys n)).
Proof. apply keeps_on_arch. apply keeps_on_mem. Qed.
#[local] Hint Resolve keeps_alloc : keeps.

Lemma keeps_find_region a x l : keeps (vm_contexts x) (find_region (L := L) (V := V) a l).
Proof. induction l as [|p l IH]; cbn [find_region]; unfold get_mapping; repeat keeps_step. Qed.
Lemma keeps_touch r i x : keeps (vm_contexts x) (mapping_touch (L := L) (V := V) r i).
Proof. unfold mapping_touch, get_mapping, put_mapping. repeat keeps_step. Qed.
Lemma keeps_map_region r x : keeps (vm_contexts x) (map_region (L := L) (V := V) r).
Proof.
  unfold map_region, get_mapping, put_mapping. repeat keeps_step. apply keeps_each. intros i. unfold map_body.
  repeat keeps_step. apply keeps_on_arch. cbn. unfold arch_mm_map. apply keeps_on_mem.
Qed.
#[local] Hint Resolve keeps_find_region keeps_touch keeps_map_region : keeps.

Lemma keeps_fault_hit a x : keeps (vm_contexts x) (fault_hit (L := L) (V := V) a).
Proof. unfold fault_hit, region_for_address, mapping_fault_hit, get_mapping. repeat keeps_step. Qed.
#[local] Hint Resolve keeps_fault_hit : keeps.

Lemma keeps_on_space {A} p (m : M (vm vmm L V) A) l x :
  (∀ y, keeps (vm_contexts y) m) → keeps (fixed l x) (on_space (H := H) p m).
Proof.
  intros Hm s a s' [Hs1 Hs2] Hrun. unfold on_space in Hrun. destruct (spaces s !! p) as [v|]; [|done].
  destruct (m _) as [[b v']| | |] eqn:E; try done. injection Hrun as _ <-. split; [exact Hs1|]. cbn.
  exact (Hm x (set_arch (machine s) v) _ _ Hs2 E).
Qed.
#[local] Hint Resolve keeps_on_space : keeps.

Lemma keeps_lock l x : keeps (fixed l x) (lock_threads (S := vmm) (L := L) (V := V) (H := H)).
Proof. unfold lock_threads. repeat keeps_step. Qed.
Lemma keeps_unlock l x : keeps (fixed l x) (unlock_threads (S := vmm) (L := L) (V := V) (H := H)).
Proof. unfold unlock_threads. repeat keeps_step. Qed.
Lemma keeps_thread_at id l x : keeps (fixed l x) (thread_at (S := vmm) (L := L) (V := V) (H := H) id).
Proof. unfold thread_at. repeat keeps_step. Qed.
Lemma keeps_update p f l x : keeps (fixed l x) (update_thread (S := vmm) (L := L) (V := V) (H := H) p f).
Proof. unfold update_thread, get_thread, put_thread. repeat keeps_step. Qed.
Lemma keeps_data cpu l x : keeps (fixed l x) (cpu_data_of (S := vmm) (L := L) (V := V) (H := H) cpu).
Proof. unfold cpu_data_of. repeat keeps_step. Qed.
Lemma keeps_put_data cpu d l x : keeps (fixed l x) (put_cpu_data (S := vmm) (L := L) (V := V) (H := H) cpu d).
Proof. unfold put_cpu_data. repeat keeps_step. Qed.
#[local] Hint Resolve keeps_lock keeps_unlock keeps_thread_at keeps_update keeps_data keeps_put_data : keeps.

Lemma keeps_find_idle q i from l x : keeps (fixed l x) (find_idle (S := vmm) (L := L) (V := V) (H := H) q i from).
Proof. revert i. induction q as [|p q IH]; intros i; cbn [find_idle]; unfold get_thread; repeat keeps_step. Qed.
#[local] Hint Resolve keeps_find_idle : keeps.
Lemma keeps_next l x : keeps (fixed l x) (get_next_thread_to_run (S := vmm) (L := L) (V := V) (H := H)).
Proof. unfold get_next_thread_to_run. generalize 2%nat. intros n. induction n; cbn [traverse]; repeat keeps_step. Qed.
#[local] Hint Resolve keeps_next : keeps.

Lemma keeps_fault cpu a l x : keeps (fixed l x) (page_fault_sink (L := L) (V := V) (H := H) cpu a).
Proof. unfold page_fault_sink, sched_page_fault, get_thread. repeat keeps_step. Qed.

(** Each way [sched_resched] ends has acknowledged the interrupt unless it
    returns, and no way touches the contexts. *)
Definition acknowledged (irq : Z) (r : resched_end) (l l' : list arch_call) : Prop :=
  match r with Returned => l' = l | _ => l' = l ++ [DropContext; AckInterrupt irq] end.

Lemma resched_acks cpu irq st b c r c' :
  sched_resched cpu irq st b c = Ok (r, c') → acknowledged irq r (calls c) (calls c') ∧ contexts (machine c') = contexts (machine c).
Proof.
  (* one step of the routine that keeps [fixed] *)
  assert (∀ {A B} (m : M sched A) (f : A → M sched B) l x c o, (∀ l x, keeps (fixed l x) m) → fixed l x c → (m ≫= f) c = Ok o →
    ∃ a c', fixed l x c' ∧ f a c' = Ok o) as pass.
  { intros A B m f l x c0 [z c2] Hm Hc E. apply bind_M_Ok in E as (a & c1 & E1 & E2). exists a, c1. split; [by eapply Hm|done]. }
  intros Hrun. cut (∀ l x, fixed l x c → acknowledged irq r l (calls c') ∧ contexts (machine c') = x).
  { intros Hall. by apply Hall. }
  intros l x Hc. unfold sched_resched in Hrun.
  eapply pass in Hrun as (d & c1 & Hc1 & Hrun); [|auto with keeps|done].
  eapply pass in Hrun as (u & c2 & Hc2 & Hrun); [|auto with keeps|done].
  eapply pass in Hrun as (u' & c3 & Hc3 & Hrun); [|intros; repeat keeps_step|done].
  eapply pass in Hrun as (next & c4 & [Hl4 Hx4] & Hrun); [|auto with keeps|done].
  assert (fixed (l ++ [DropContext; AckInterrupt irq]) x (add_call (AckInterrupt irq) (add_call DropContext c4))) as Hadd.
  { split; [|exact Hx4]. cbn. by rewrite Hl4, <- app_assoc. }
  destruct next as [id|]; [destruct (_ && _)|].
  - assert (fixed l x c4) as Hc4 by done.
    do 4 (eapply pass in Hrun as (? & ? & Hc5 & Hrun); [|auto with keeps|eassumption]; clear Hc4; rename Hc5 into Hc4).
    injection Hrun as <- <-. exact Hc4.
  - do 2 (erewrite bind_run in Hrun; [|reflexivity]). rename Hadd into Hc4.
    do 5 (eapply pass in Hrun as (? & ? & Hc5 & Hrun); [|auto with keeps|eassumption]; clear Hc4; rename Hc5 into Hc4).
    eapply pass in Hrun as (? & ? & Hc5 & Hrun); [|intros; unfold get_thread; repeat keeps_step|eassumption].
    injection Hrun as <- <-. exact Hc5.
  - do 2 (erewrite bind_run in Hrun; [|reflexivity]). rename Hadd into Hc4.
    do 2 (eapply pass in Hrun as (? & ? & Hc5 & Hrun); [|auto with keeps|eassumption]; clear Hc4; rename Hc5 into Hc4).
    injection Hrun as <- <-. exact Hc4.
Qed.
(** ** The dispatcher *)
Definition sfixed (l : list arch_call) (x : Z * Z * Z) s : Prop := fixed l x (irq_sched s).

Lemma keeps_in_sched {A} (m : M sched A) l x : keeps (fixed l x) m → keeps (sfixed l x) (in_sched m).
Proof.
  intros Hm s a s' Hs Hrun. unfold in_sched, zoom in Hrun. destruct (m (irq_sched s)) as [[b c]| | |] eqn:E; try done.
  injection Hrun as _ <-. exact (Hm _ _ _ Hs E).
Qed.
#[local] Hint Resolve keeps_in_sched keeps_fault : keeps.
#[local] Hint Extern 1 (keeps (sfixed _ _) (modify _)) => (apply keeps_modify; intros ? Hk; exact Hk) : keeps.

Lemma keeps_spurious cpu irq l x : keeps (sfixed l x) (count_spurious cpu irq).
Proof. unfold count_spurious. repeat keeps_step. Qed.
Lemma keeps_unhandled cpu cr2 irq st l x : keeps (sfixed l x) (unhandled cpu cr2 irq st).
Proof. unfold unhandled. repeat keeps_step. Qed.

Lemma timer_acks cpu irq st s r s' :
  in_sched (timer_irq_sink cpu irq st) s = Ok (r, s') →
  acknowledged irq r (calls (irq_sched s)) (calls (irq_sched s')) ∧
  contexts (machine (irq_sched s')) = contexts (machine (irq_sched s)).
Proof.
  unfold in_sched, zoom. intros Hrun. destruct (timer_irq_sink _ _ _ _) as [[r' c]| | |] eqn:E; try done.
  injection Hrun as <- <-. cbn [irq_sched set_irq_sched]. unfold timer_irq_sink in E.
  erewrite bind_run in E; [|reflexivity]. destruct (ready (irq_sched s)); [by eapply resched_acks|]. by injection E as <- <-.
Qed.

(** Entering the dispatcher saves the context and switches to the kernel's. *)
Definition in_kernel (m : vmm) : vmm := Vmm (mem m) (kernel_pml4 m) (kernel_pml4 m) (cr3 m).
Definition entered s : interrupts :=
  set_irq_sched (set_vm (in_kernel (machine (irq_sched s))) (spaces (irq_sched s)) (irq_sched s)) s.

Lemma exit_run irq s :
  exit_interrupt irq true s = Ok (tt, set_irq_sched (set_vm
    (Vmm (mem (machine (irq_sched s))) (kernel_pml4 (machine (irq_sched s))) (saved_vmm_ctx (machine (irq_sched s))) 0)
    (spaces (irq_sched s)) (add_call (AckInterrupt irq) (irq_sched s))) s).
Proof. reflexivity. Qed.

Lemma handler_run irq s o : irq_handlers s !! Z.to_nat irq = Some o → handler_of irq s = Ok (o, s).
Proof. intros E. unfold handler_of. cbv [mbind M_bind get_st lift access]. by rewrite E. Qed.

(** C20. A page fault from user mode that no handler takes goes to the address
    space of the running thread, in the kernel's context: when it resolves the
    fault, the dispatcher returns to the interrupted context with the memory
    and the address space that leaves behind; when it does not, and for a
    fault from kernel mode, the machine stops. *)
Theorem dispatch_page_fault cpu a st s cur p t v :
  let c := irq_sched s in
  i_int_no st = 14 → irq_handlers s !! 14%nat = Some None →
  vec_elems (sched_procs c) !! Z.to_nat cpu = Some (CpuData cur true) → hm_map (threads c) !! cur = Some p →
  thread_objs c !! p = Some t → spaces c !! _addr_space t = Some v →
  (i_cs st = 0x08 → dispatch_interrupt cpu a st s = Panic) ∧
  (i_cs st ≠ 0x08 →
   (∀ v', fault_hit a (set_arch (in_kernel (machine c)) v) = Ok (false, v') → dispatch_interrupt cpu a st s = Panic) ∧
   (∀ v', fault_hit a (set_arch (in_kernel (machine c)) v) = Ok (true, v') →
    ∃ s', dispatch_interrupt cpu a st s = Ok (Returned, s') ∧
      machine (irq_sched s') = Vmm (mem (arch v')) (kernel_pml4 (machine c)) (cr3 (machine c)) 0 ∧
      spaces (irq_sched s') = <[_addr_space t := v']> (spaces c) ∧ thread_objs (irq_sched s') = thread_objs c ∧
      schedule (irq_sched s') = schedule c)).
Proof.
  intros c Hirq Hh Hd Hcur Hp Hv.
  assert (dispatch_interrupt cpu a st s =
    (unhandled cpu a 14 st;; exit_interrupt 14 true;; mret Returned) (entered s)) as ->.
  { unfold dispatch_interrupt. do 2 (erewrite bind_run; [|reflexivity]). rewrite Hirq. fold (entered s).
    change (u32 14) with 14. change (u8 14) with 14. erewrite bind_run; [|reflexivity].
    assert (call_handler 14 st (entered s) = Ok (0, entered s)) as Hc
      by (unfold call_handler; by run (handler_run 14 (entered s) None Hh)).
    run Hc. reflexivity. }
  set (ck := set_vm (in_kernel (machine c)) (spaces c) c).
  destruct (page_fault_sink_spec cpu a ck cur p t v Hd Hcur Hp Hv) as [Hyes Hno].
  unfold unhandled. change (14 <? 0x20) with true. change (14 =? 0x0E) with true. cbv iota.
  split; intros Hcs; [by rewrite Hcs|]. destruct (Z.eqb_spec (i_cs st) 0x08); [done|]. split; intros v' Hf.
  - specialize (Hno v' Hf). cbv [mbind M_bind in_sched zoom]. change (irq_sched (entered s)) with ck. by rewrite Hno.
  - destruct (Hyes v' Hf) as (c' & Hrun & Hm & Hs & Ht & Hq & _).
    assert (contexts (arch v') = (kernel_pml4 (machine c), kernel_pml4 (machine c), cr3 (machine c))) as Hx
      by (apply (keeps_fault_hit a _ (set_arch (in_kernel (machine c)) v) true v'); [done|exact Hf]).
    assert (in_sched (page_fault_sink cpu a) (entered s) = Ok (tt, set_irq_sched c' (entered s))) as Hrun'.
    { unfold in_sched, zoom. change (irq_sched (entered s)) with ck. by rewrite Hrun. }
    run Hrun'. rewrite (bind_run _ _ _ _ _ (exit_run 14 _)). eexists. split; [reflexivity|].
    cbn [irq_sched set_irq_sched machine set_vm spaces thread_objs schedule add_call]. rewrite Hm.
    injection Hx as Hk _ Hsv. rewrite Hk, Hsv. done.
Qed.

(** ** Handlers *)

(** A handler is registered exactly when the interrupt has none, and
    unregistering gives back the state before. *)
Theorem isr_register_roundtrip irq f s o :
  irq_handlers s !! Z.to_nat irq = Some o →
  match o with
  | None =>
      (isr_register_handler irq f;; isr_unregister_handler irq) s = Ok (1, s) ∧
      ∃ s', isr_register_handler irq f s = Ok (1, s') ∧ irq_handlers s' = <[Z.to_nat irq := Some f]> (irq_handlers s) ∧
        ∀ g, isr_register_handler irq g s' = Ok (0, s')
  | Some _ => isr_register_handler irq f s = Ok (0, s)
  end.
Proof.
  intros E. destruct o as [g|]; [unfold isr_register_handler; by run (handler_run _ _ _ E)|].
  set (s' := set_handlers (<[Z.to_nat irq := Some f]> (irq_handlers s)) s).
  assert (isr_register_handler irq f s = Ok (1, s')) as Hr by (unfold isr_register_handler; by run (handler_run _ _ _ E)).
  assert (irq_handlers s' !! Z.to_nat irq = Some (Some f)) as E'
    by (apply list_lookup_insert_eq; by eapply lookup_lt_Some).
  split.
  - run Hr. unfold isr_unregister_handler. run (handler_run _ _ _ E'). unfold s', set_handlers.
    cbv [mbind M_bind modify mret M_ret]. cbn. rewrite list_insert_insert_eq, list_insert_id by done. by destruct s.
  - exists s'. split; [exact Hr|]. split; [done|]. intros h. unfold isr_register_handler. by run (handler_run _ _ _ E').
Qed.

(** Handlers do their work elsewhere: they acknowledge nothing and do not
    switch contexts. *)
Context (Hhandlers : ∀ f st l x, keeps (sfixed l x) (run_handler f st)).

Lemma keeps_handler irq st l x : keeps (sfixed l x) (call_handler irq st).
Proof. unfold call_handler, handler_of. repeat keeps_step. Qed.

(** However an interrupt ends, it is acknowledged exactly once. When the
    dispatcher returns, the context that was interrupted is active again and
    no context is saved; when it does not, the kernel's context is active and
    the saved context was dropped before the acknowledgement. *)
Theorem dispatch_acknowledges cpu cr2 st s r s' :
  0 ≤ i_int_no st < 256 →
  dispatch_interrupt cpu cr2 st s = Ok (r, s') →
  let m := machine (irq_sched s) in let m' := machine (irq_sched s') in
  match r with
  | Returned =>
      calls (irq_sched s') = calls (irq_sched s) ++ [AckInterrupt (i_int_no st)] ∧
      cr3 m' = cr3 m ∧ saved_vmm_ctx m' = 0
  | _ =>
      calls (irq_sched s') = calls (irq_sched s) ++ [DropContext; AckInterrupt (i_int_no st)] ∧
      cr3 m' = kernel_pml4 m
  end ∧ kernel_pml4 m' = kernel_pml4 m.
Proof.
  intros Hi Hrun m m'. unfold dispatch_interrupt in Hrun. do 2 (erewrite bind_run in Hrun; [|reflexivity]).
  rewrite (u32_small (i_int_no st)) in Hrun by lia.
  assert (u8 (i_int_no st) = i_int_no st) as E8 by (apply Z.mod_small; lia). rewrite E8 in Hrun.
  set (l := calls (irq_sched s)). set (x := (kernel_pml4 m, kernel_pml4 m, cr3 m)).
  assert (sfixed l x (entered s)) as H0 by done.
  apply bind_M_Ok in Hrun as (u & s1 & E1 & Hrun). pose proof (keeps_spurious _ _ l x _ _ _ H0 E1) as H1. clear H0 E1.
  apply bind_M_Ok in Hrun as (ok & s2 & E2 & Hrun). pose proof (keeps_handler _ _ l x _ _ _ H1 E2) as [H2 X2]. clear H1 E2.
  apply bind_M_Ok in Hrun as (r2 & s3 & E3 & Hrun).
  assert (acknowledged (i_int_no st) r2 l (calls (irq_sched s3)) ∧ contexts (machine (irq_sched s3)) = x) as [Ha Hx].
  { destruct (i_int_no st =? 0x31); [|injection E3 as <- <-; by split].
    apply timer_acks in E3 as [Ha Hc]. by rewrite H2, X2 in *. }
  destruct r2 as [|p|].
  2,3: injection Hrun as <- <-; injection Hx as Hk Hc Hs; split; [split; [exact Ha|exact Hc]|exact Hk].
  apply bind_M_Ok in Hrun as (? & s4 & E4 & Hrun). assert (s4 = s3) as -> by (destruct (_ =? 18); [discriminate|by injection E4]).
  apply bind_M_Ok in Hrun as (? & s5 & E5 & Hrun).
  assert (sfixed l x s5) as [Hl5 Hx5].
  { destruct (_ =? 0); [|injection E5 as _ <-; by split]. eapply keeps_unhandled; [|exact E5]. by split. }
  rewrite (bind_run _ _ _ _ _ (exit_run (i_int_no st) s5)) in Hrun. injection Hrun as <- <-.
  injection Hx5 as Hk Hc Hs. unfold m'. cbn. rewrite Hl5, Hk, Hs. done.
Qed.
End irq.

(** ** A timer interrupt and a page fault *)
Section demo.
Import Instances.

Definition no_work (f : Z) (st : irq_cpu_state_t) : M (interrupts (list Z) list (gmap Z)) Z := mret 0.
Definition demo_state (no cs : Z) : irq_cpu_state_t := IrqState 0 0 0 0 0 0 0 0 0 0 0 0 0 0 0 0 no 0 0 cs 0 0 0.
Definition demo_interrupts (c : sched vmm (list Z) list (gmap Z)) : interrupts (list Z) list (gmap Z) :=
  Interrupts c (replicate 256 None) [0].

#[local] Opaque demo_pmm demo_task.

Lemma dispatch_acknowledges_witness :
  ∃ s', dispatch_interrupt no_work 0 0 (demo_state 0x31 0x23) (demo_interrupts current_demo) = Ok (Returned, s') ∧
    calls (irq_sched s') = [AckInterrupt 0x31] ∧ cr3 (machine (irq_sched s')) = demo_root.
Proof.
  assert (∃ s', dispatch_interrupt no_work 0 0 (demo_state 0x31 0x23) (demo_interrupts current_demo) = Ok (Returned, s'))
    as [s' H] by (eexists; vm_compute; reflexivity).
  exists s'. split; [exact H|].
  destruct (dispatch_acknowledges no_work (λ f st l x, keeps_ret _ 0) 0 0 (demo_state 0x31 0x23) (demo_interrupts current_demo)
    Returned s') as [(Ha & Hc & _) _]; [by split|exact H|]. split; [exact Ha|exact Hc].
Defined.

#[local] Transparent demo_pmm.

(** The page at 0x400000 is allocated and not there yet. *)
Definition demo_lazy : vm vmm (list Z) list :=
  Vm (Vmm demo_pmm demo_root demo_root 0) {[ 1 := Mapping 0x400000 1 [BackingPage 0 false true] 11 0 true ]} ∅ 2 [1] [] demo_root.
Definition lazy_sched : sched vmm (list Z) list (gmap Z) :=
  Sched (Vmm demo_pmm demo_root 0x5000 0) {[ 64 := demo_lazy ]}
    {[ 16 := thread_new demo_task 64 ]} {[ 0 := 16 ]} [16] 1 0 [CpuData 0 true] true false [].

Lemma dispatch_page_fault_witness :
  ∃ s', dispatch_interrupt no_work 0 0x400010 (demo_state 14 0x23) (demo_interrupts lazy_sched) = Ok (Returned, s') ∧
    cr3 (machine (irq_sched s')) = 0x5000.
Proof.
  destruct (value_Some (fault_hit 0x400010 (set_arch (in_kernel (Vmm demo_pmm demo_root 0x5000 0)) demo_lazy)) true) as [v' Hf];
    [vm_compute; reflexivity|].
  destruct (dispatch_page_fault no_work 0 0x400010 (demo_state 14 0x23) (demo_interrupts lazy_sched) 0 16
    (thread_new demo_task 64) demo_lazy) as [_ Hu]; [reflexivity..|].
  destruct Hu as [_ Hyes]; [by cbn|]. destruct (Hyes v' Hf) as (s' & Hrun & Hm & _).
  exists s'. split; [exact Hrun|]. by rewrite Hm.
Defined.

Lemma isr_register_roundtrip_witness :
  (isr_register_handler 0x40 7;; isr_unregister_handler 0x40) (demo_interrupts lazy_sched) = Ok (1, demo_interrupts lazy_sched).
Proof. exact (proj1 (isr_register_roundtrip 0x40 7 (demo_interrupts lazy_sched) None eq_refl)). Defined.
End demo.
