(* ===== verification/Syscall.v ===== *)
(** * Log messages and system calls (lib/kmesg.cpp, syscall.cpp)

    A log message is formatted twice into buffers on the stack; the model
    returns the characters that go to the console, or a fault when a buffer
    would be overrun. [kmesg] holds a lock from its first line to its last;
    the model leaves it out: a message is printed as a whole, and the wait of a processor
    that logs while another does, or while its own message was interrupted, is
    not modelled. The system calls act on the scheduler's state and on the
    characters written so far. A string of frigg is the list of its
    characters, followed in memory by a terminator; [resize] is its method. *)
From S2P Require Import Prelude Frigg Arch Spinlock CString Printf Cpu Vm Sched Pmm Paging Vmm ArchX86 Heap.
From stdpp Require Import base numbers option gmap list.
#[local] Open Scope Z_scope.

(** ** kmesg *)

(** What a routine that reads up to the terminator sees. *)
Fixpoint c_string (l : list Z) : list Z :=
  match l with
  | [] => []
  | c :: l' => if c =? 0 then [] else c :: c_string l'
  end.

(** A buffer of [n] bytes. *)
Definition into_buffer (n : Z) (o : outcome (list Z)) : outcome (list Z) :=
  l ← o; if n <? len l then Fault else Ok (c_string l).

Definition fmt_string : list Z := [37; 115].
(** ["%s: %s\n"] *)
Definition fmt_message : list Z := [37; 115; 58; 32; 37; 115; 10].

Definition kmesg (src fmt : list Z) (args : list varg) : outcome (list Z) :=
  fmt_buf ← into_buffer (1024 + 16) (vsnprintf 1024 fmt args);
  into_buffer (1162 + 16) (snprintf 1162 fmt_message [VStr src; VStr fmt_buf]).

(** ** System calls *)
Definition duck_error_none : Z := 0.
Definition duck_error_fault : Z := 1.
Definition duck_error_out_of_range : Z := 2.
Definition duck_error_invalid_call : Z := 3.
Definition duck_call_set_identity : Z := 1.
Definition duck_call_debug_log : Z := 2.

Record sys {S L : Type} {V H : Type → Type} := Sys { sys_sched : sched S L V H; console : list Z }.
Arguments sys : clear implicits.
Arguments Sys {S L V H} _ _.

(** ["syscall"], ["in duck_set_identity"], ["in duck_debug_log"] *)
Definition str_syscall : list Z := [115; 121; 115; 99; 97; 108; 108].
Definition str_in_set_identity : list Z :=
  [105; 110; 32; 100; 117; 99; 107; 95; 115; 101; 116; 95; 105; 100; 101; 110; 116; 105; 116; 121].
Definition str_in_debug_log : list Z :=
  [105; 110; 32; 100; 117; 99; 107; 95; 100; 101; 98; 117; 103; 95; 108; 111; 103].

Section sys.
Context {S : Type} `{!ArchMM S}.
Context {L : Type} `{!FrgList L}.
Context {V : Type → Type} `{!FrgVector V}.
Context {H : Type → Type} `{!FrgHashMap H}.
(** [frg::string::resize], and what the stack holds where the buffer of
    [duck_debug_log] lies. *)
Context (resize : list Z → nat → list Z) (garbage : nat → list Z).
Notation sys := (sys S L V H).

Definition set_sched (x : sched S L V H) (s : sys) : sys := Sys x (console s).
Definition on_sched {A} (m : M (sched S L V H) A) : M sys A := zoom sys_sched set_sched m.
Definition log (o : outcome (list Z)) : M sys () :=
  l ← lift o; modify (λ s, Sys (sys_sched s) (console s ++ l)).

(** [thread->_addr_space->store(address, data, length)] *)
Definition fetch (p address : Z) (n : nat) : M sys (option (list Z)) :=
  t ← on_sched (get_thread p); on_sched (on_space (_addr_space t) (store address n)).

Definition duck_set_identity (cpu ident length : Z) : M sys Z :=
  log (kmesg str_syscall str_in_set_identity []);;
  p ← on_sched (sched_this cpu);
  r ← (if 64 <? length then mret duck_error_out_of_range
       else
         on_sched (update_thread p (λ t, set_identity (resize (_identity t) (Z.to_nat length)) t));;
         data ← fetch p ident (Z.to_nat length);
         (match data with
          | Some l => on_sched (update_thread p (set_identity l))
          | None => mret tt
          end);;
         mret duck_error_none);
  on_sched (thread_release p);;
  mret r.

Definition duck_debug_log (cpu message length : Z) : M sys Z :=
  log (kmesg str_syscall str_in_debug_log []);;
  p ← on_sched (sched_this cpu);
  r ← (if 512 <? length then mret duck_error_out_of_range
       else
         data ← fetch p message (Z.to_nat length);
         t ← on_sched (get_thread p);
         log (kmesg (c_string (_identity t)) fmt_string
                [VStr (c_string (default (garbage (Z.to_nat length)) data))]);;
         mret duck_error_none);
  on_sched (thread_release p);;
  mret r.

(** [arg0] to [arg2] are read, the others are not used. *)
Definition syscall_invoke (cpu arg0 arg1 arg2 : Z) : M sys Z :=
  if arg0 =? duck_call_set_identity then duck_set_identity cpu arg1 arg2
  else if arg0 =? duck_call_debug_log then duck_debug_log cpu arg1 arg2
  else mret duck_error_invalid_call.
End sys.

(** ** What is printed *)
Lemma c_string_chars l l' : chars l → c_string (l ++ 0 :: l') = l.
Proof. induction 1 as [|c l Hc _ IH]; cbn; [done|]. rewrite (proj2 (Z.eqb_neq c 0)) by lia. by rewrite IH. Qed.

Lemma vsnprintf_string n l :
  chars l → len l < n → vsnprintf n fmt_string [VStr l] = Ok (l ++ [0]).
Proof.
  intros Hc Hl. pose proof (len_pos l). unfold vsnprintf, fmt_string. cbn [length].
  rewrite loop_string, put_all_run by (done || lia). cbn.
  by rewrite (proj2 (Z.eqb_neq (n - len l) 0)) by lia.
Qed.

Lemma snprintf_message n src msg :
  chars src → chars msg → len src + len msg < n →
  snprintf n fmt_message [VStr src; VStr msg] = Ok (src ++ [58; 32] ++ msg ++ [10; 0]).
Proof.
  intros Hs Hm Hl. pose proof (len_pos src). pose proof (len_pos msg).
  unfold snprintf, vsnprintf, fmt_message. cbn [length].
  rewrite loop_string, put_all_run, !loop_plain, loop_string, put_all_run, loop_plain by (done || lia). cbn.
  rewrite (proj2 (Z.eqb_neq (n - len src - len msg) 0)) by lia. by rewrite <- !app_assoc.
Qed.

(** A message that fits is written as it is. *)
Lemma kmesg_run src msg :
  chars src → chars msg → len msg < 1024 → len src + len msg < 1162 →
  kmesg src fmt_string [VStr msg] = Ok (src ++ [58; 32] ++ msg ++ [10]).
Proof.
  intros Hs Hm Hl Hl2. unfold kmesg, into_buffer. rewrite vsnprintf_string by done. cbn [mbind outcome_bind].
  rewrite len_app. change (len [0]) with 1. destruct (Z.ltb_spec (1024 + 16) (len msg + 1)); [lia|].
  cbn [mbind outcome_bind]. rewrite c_string_chars by done. rewrite snprintf_message by done. cbn [mbind outcome_bind].
  rewrite !len_app. change (len [58; 32]) with 2. change (len [10; 0]) with 2.
  destruct (Z.ltb_spec (1162 + 16) (len src + (2 + (len msg + 2)))); [lia|].
  replace (src ++ [58; 32] ++ msg ++ [10; 0]) with ((src ++ [58; 32] ++ msg ++ [10]) ++ [0]) by by rewrite <- !app_assoc.
  rewrite c_string_chars; [done|]. repeat apply Forall_app_2; [done| |done|];
    repeat (apply Forall_cons; split; [lia|]); by apply Forall_nil.
Qed.

Lemma c_string_ok l : Forall (λ c, 0 ≤ c < 256) l → chars (c_string l) ∧ len (c_string l) ≤ len l.
Proof.
  induction 1 as [|c l Hc _ [IH1 IH2]]; [split; [by apply Forall_nil|done]|]. cbn [c_string]. rewrite len_cons.
  pose proof (len_pos l). destruct (Z.eqb_spec c 0); [split; [by apply Forall_nil|change (len []) with 0; lia]|].
  rewrite len_cons. split; [apply Forall_cons; split; [lia|done]|lia].
Qed.

Section calls.
Context {S : Type} `{!ArchMM S}.
Context {L : Type} `{!FrgList L}.
Context {V : Type → Type} `{!FrgVector V}.
Context {H : Type → Type} `{!FrgHashMap H} `{!FrgHashMapLaws H}.
Context (resize : list Z → nat → list Z) (garbage : nat → list Z).
Notation sys := (sys S L V H).
Implicit Types (s : sys).

(** [p] is the thread that made the call, with nobody else looking at it. *)
Record caller (cpu p : Z) (t : thread) (c : sched S L V H) : Prop := {
  cl_cur : ∃ cur, vec_elems (sched_procs c) !! Z.to_nat cpu = Some (CpuData cur true) ∧ hm_map (threads c) !! cur = Some p;
  cl_null : p ≠ 0;
  cl_obj : thread_objs c !! p = Some t;
  cl_free : _access_lock t = false;
}.

Lemma on_sched_run {A} s (m : M (sched S L V H) A) a c : m (sys_sched s) = Ok (a, c) → on_sched m s = Ok (a, set_sched c s).
Proof. intros Hm. unfold on_sched, zoom. by rewrite Hm. Qed.

Lemma sched_this_run cpu p t c :
  caller cpu p t c →
  ∃ m, sched_this cpu c = Ok (p, set_thread_objs (<[p := set_access true t]> (thread_objs c)) (set_threads m c)) ∧
    hm_map m = hm_map (threads c).
Proof.
  intros [(cur & Hd & Hc) Hp Ht Hf]. exists (hm_index 0 (threads c) cur). split.
  - unfold sched_this, cpu_data_of, sched_get, thread_at, update_thread, get_thread.
    cbv [mbind M_bind mret M_ret get_st lift access modify assertion lock]. rewrite Hd. cbn [cpu_running current_thread].
    rewrite Hc. cbn [default from_option Datatypes.id]. rewrite (proj2 (Z.eqb_neq p 0) Hp). cbn [negb].
    cbn [thread_objs set_threads]. rewrite Ht. cbn. rewrite Hf. cbn. by rewrite Ht.
  - rewrite hm_index_map, Hc. cbn. by apply insert_id.
Qed.

Lemma thread_release_run p t (c : sched S L V H) :
  thread_objs c !! p = Some t →
  thread_release p c = Ok (tt, set_thread_objs (<[p := set_access false t]> (thread_objs c)) c).
Proof.
  intros Ht. unfold thread_release, update_thread, get_thread. cbv [mbind M_bind get_st lift access unlock modify].
  rewrite Ht. cbn. by rewrite Ht.
Qed.

Lemma release_access t : _access_lock t = false → set_access false (set_access true t) = t.
Proof. intros Hf. destruct t. cbn in *. by subst. Qed.

(** A call that gives up after it has found the thread. *)
Lemma refused_call s cpu p t (msg : outcome (list Z)) l r :
  caller cpu p t (sys_sched s) → msg = Ok l →
  ∃ m, (log msg;; p ← on_sched (sched_this cpu); x ← mret r; on_sched (thread_release p);; mret x) s
      = Ok (r : Z, Sys (set_threads m (sys_sched s)) (console s ++ l)) ∧ hm_map m = hm_map (threads (sys_sched s)).
Proof.
  intros Hc ->. destruct (sched_this_run cpu p t (sys_sched s) Hc) as (m & Hrun & Hm). exists m. split; [|done].
  run (eq_refl : log (Ok l) s = Ok (tt, Sys (sys_sched s) (console s ++ l))).
  run (on_sched_run (Sys (sys_sched s) (console s ++ l)) _ _ _ Hrun).
  erewrite (bind_run (mret r)); [|reflexivity].
  erewrite bind_run; [|apply on_sched_run, thread_release_run, lookup_insert_eq].
  cbv [mret M_ret]. do 2 f_equal. cbn. rewrite insert_insert_eq, release_access by apply Hc.
  rewrite insert_id by apply Hc. by destruct (sys_sched s).
Qed.
End calls.

(** What the system calls refuse: an unknown number gives
    [duck_error_invalid_call] and changes nothing; a length over 64 or 512
    gives [duck_error_out_of_range], the thread is left as it was, with its
    lock released, and only the trace line is printed. *)
Theorem syscall_refusals {S L : Type} {V H : Type → Type} `{!ArchMM S} `{!FrgList L} `{!FrgVector V} `{!FrgHashMap H}
    `{!FrgHashMapLaws H} (resize : list Z → nat → list Z) (garbage : nat → list Z)
    (s : sys S L V H) (cpu p : Z) (t : thread) (call a n : Z) :
  caller cpu p t (sys_sched s) →
  (call ≠ 1 → call ≠ 2 → syscall_invoke resize garbage cpu call a n s = Ok (duck_error_invalid_call, s)) ∧
  (call = 1 ∧ 64 < n ∨ call = 2 ∧ 512 < n →
     ∃ c l, syscall_invoke resize garbage cpu call a n s = Ok (duck_error_out_of_range, Sys c (console s ++ l)) ∧
       thread_objs c = thread_objs (sys_sched s) ∧ machine c = machine (sys_sched s) ∧
       hm_map (threads c) = hm_map (threads (sys_sched s))).
Proof.
  intros Hc. unfold syscall_invoke, duck_call_set_identity, duck_call_debug_log. split.
  - intros H1 H2. by rewrite (proj2 (Z.eqb_neq call 1) H1), (proj2 (Z.eqb_neq call 2) H2).
  - intros [[-> Hn]|[-> Hn]]; cbn [Z.eqb Pos.eqb].
    + unfold duck_set_identity. rewrite (proj2 (Z.ltb_lt 64 n) Hn). cbv iota.
      destruct (refused_call s cpu p t (kmesg str_syscall str_in_set_identity [])
        (str_syscall ++ [58; 32] ++ str_in_set_identity ++ [10]) duck_error_out_of_range Hc) as (m & Hrun & Hm); [by vm_compute|].
      rewrite Hrun. eexists (set_threads m (sys_sched s)), _.
      split; [reflexivity|]. split; [reflexivity|]. split; [reflexivity|exact Hm].
    + unfold duck_debug_log. rewrite (proj2 (Z.ltb_lt 512 n) Hn). cbv iota.
      destruct (refused_call s cpu p t (kmesg str_syscall str_in_debug_log [])
        (str_syscall ++ [58; 32] ++ str_in_debug_log ++ [10]) duck_error_out_of_range Hc) as (m & Hrun & Hm); [by vm_compute|].
      rewrite Hrun. eexists (set_threads m (sys_sched s)), _.
      split; [reflexivity|]. split; [reflexivity|]. split; [reflexivity|exact Hm].
Qed.

(** C30. [duck_debug_log] of at most 512 bytes that can be read prints the bytes at the caller's address up to
    the first terminator among them, or all of them when there is none, under the
    caller's identity, on a line of its own after the trace line, and
    succeeds; the caller's address space and the machine are as the read
    left them. *)
Theorem debug_log_prints {S L : Type} {V H : Type → Type} `{!ArchMM S} `{!FrgList L} `{!FrgVector V} `{!FrgHashMap H}
    `{!FrgHashMapLaws H} (resize : list Z → nat → list Z) (garbage : nat → list Z)
    (s : sys S L V H) (cpu p a n : Z) (t : thread) (v v' : vm S L V) (data : list Z) :
  caller cpu p t (sys_sched s) → 0 ≤ n ≤ 512 →
  spaces (sys_sched s) !! _addr_space t = Some v →
  store a (Z.to_nat n) (set_arch (machine (sys_sched s)) v) = Ok (Some data, v') →
  Forall (λ c, 0 ≤ c < 256) data → len data = n → Forall (λ c, 0 ≤ c < 256) (_identity t) → len (_identity t) ≤ 64 →
  ∃ c, syscall_invoke resize garbage cpu duck_call_debug_log a n s =
      Ok (duck_error_none, Sys c (console s ++ (str_syscall ++ [58; 32] ++ str_in_debug_log ++ [10]) ++
                                   c_string (_identity t) ++ [58; 32] ++ c_string data ++ [10])) ∧
    machine c = arch v' ∧ spaces c = <[_addr_space t := v']> (spaces (sys_sched s)) ∧
    thread_objs c = thread_objs (sys_sched s).
Proof.
  intros Hc Hn Hv Hst Hdata Hlen Hid Hidl. destruct (c_string_ok _ Hid) as [Hic Hil], (c_string_ok _ Hdata) as [Hdc Hdl].
  destruct (sched_this_run cpu p t (sys_sched s) Hc) as (m & Hrun & Hm).
  set (c1 := set_thread_objs (<[p := set_access true t]> (thread_objs (sys_sched s))) (set_threads m (sys_sched s))) in Hrun.
  set (tr := str_syscall ++ [58; 32] ++ str_in_debug_log ++ [10]).
  set (c2 := set_vm (arch v') (<[_addr_space t := v']> (spaces (sys_sched s))) c1).
  assert (thread_objs c1 !! p = Some (set_access true t)) as Hp1 by apply lookup_insert_eq.
  eexists. split.
  - unfold syscall_invoke. change (duck_call_debug_log =? duck_call_set_identity) with false. rewrite Z.eqb_refl.
    unfold duck_debug_log. replace (kmesg str_syscall str_in_debug_log []) with (Ok tr) by by vm_compute.
    run (eq_refl : log (Ok tr) s = Ok (tt, Sys (sys_sched s) (console s ++ tr))).
    run (on_sched_run (Sys (sys_sched s) (console s ++ tr)) _ _ _ Hrun).
    destruct (Z.ltb_spec 512 n); [lia|]. unfold fetch.
    set (s1 := set_sched c1 _).
    assert (on_sched (get_thread p) s1 = Ok (set_access true t, s1)) as Hget.
    { exact (on_sched_run s1 _ _ _ (get_thread_run c1 p _ Hp1)). }
    assert (on_sched (on_space (_addr_space (set_access true t)) (store a (Z.to_nat n))) s1 =
      Ok (Some data, set_sched c2 s1)) as Hfetch.
    { apply on_sched_run. unfold on_space. cbn. by rewrite Hv, Hst. }
    assert (on_sched (get_thread p) (set_sched c2 s1) = Ok (set_access true t, set_sched c2 s1)) as Hget2.
    { exact (on_sched_run (set_sched c2 s1) _ _ _ (get_thread_run c2 p _ Hp1)). }
    erewrite bind_run.
    2: { erewrite bind_run; [|run Hget; exact Hfetch]. run Hget2. cbn [default from_option Datatypes.id _identity set_access].
         rewrite kmesg_run by (done || lia). reflexivity. }
    erewrite bind_run; [|apply on_sched_run, thread_release_run; exact (lookup_insert_eq _ _ _)].
    cbv [mret M_ret]. cbn. rewrite <- !app_assoc. reflexivity.
  - cbn. split_and!; [done|done|]. rewrite insert_insert_eq, release_access by apply Hc. apply insert_id, Hc.
Qed.

(** ** Witnesses *)
Section demo.
Import Instances.

Definition demo_machine : vmm := Vmm demo_pmm demo_root demo_root 0.

(** An address space with the bytes of "hi" at 0x400000. *)
Definition demo_vm : vm vmm (list Z) list :=
  match (address_space_new;; allocate_at 0x400000 1 perm_rw 0;; load 0x400000 [104; 105])
          (Vm demo_machine ∅ ∅ 1 [] [] 0) with
  | Ok (_, v) => v
  | _ => Vm demo_machine ∅ ∅ 1 [] [] 0
  end.

Definition demo_caller : thread := Thread demo_task 64 0 stopped 0 false [97; 98; 0].
Definition demo_sys : sys vmm (list Z) list (gmap Z) :=
  Sys (Sched (arch demo_vm) {[ 64 := demo_vm ]} {[ 16 := demo_caller ]} {[ 0 := 16 ]} [16] 1 0
         [CpuData 0 true] true false []) [].
Definition demo_resize (l : list Z) (n : nat) : list Z := take n l ++ replicate (n - length l) 0.
Definition demo_garbage (n : nat) : list Z := replicate n 1.

#[local] Opaque demo_vm demo_task.

Lemma demo_calls : caller 0 16 demo_caller (sys_sched demo_sys).
Proof. split; [exists 0; split; reflexivity|discriminate|reflexivity|reflexivity]. Qed.

Lemma syscall_refusals_witness :
  (∃ c l, syscall_invoke demo_resize demo_garbage 0 2 4096 513 demo_sys = Ok (duck_error_out_of_range, Sys c l)) ∧
  syscall_invoke demo_resize demo_garbage 0 3 0 0 demo_sys = Ok (duck_error_invalid_call, demo_sys).
Proof.
  split.
  - destruct (syscall_refusals demo_resize demo_garbage demo_sys 0 16 demo_caller 2 4096 513 demo_calls) as [_ Hlong].
    destruct Hlong as (c & l & Hrun & _); [right; split; [reflexivity|lia]|]. exists c, (console demo_sys ++ l). exact Hrun.
  - apply (syscall_refusals demo_resize demo_garbage demo_sys 0 16 demo_caller 3 0 0 demo_calls); discriminate.
Defined.

(** Three bytes, the last of them the terminator. *)
Lemma debug_log_prints_witness :
  ∃ c, syscall_invoke demo_resize demo_garbage 0 duck_call_debug_log 0x400000 3 demo_sys =
      Ok (duck_error_none, Sys c ((str_syscall ++ [58; 32] ++ str_in_debug_log ++ [10]) ++ [97; 98; 58; 32; 104; 105; 10])).
Proof.
  assert (∃ v', store 0x400000 (Z.to_nat 3) (set_arch (machine (sys_sched demo_sys)) demo_vm) = Ok (Some [104; 105; 0], v'))
    as [v' Hst] by (apply value_Some; vm_compute; reflexivity).
  destruct (debug_log_prints demo_resize demo_garbage demo_sys 0 16 0x400000 3 demo_caller demo_vm v' [104; 105; 0]
    demo_calls ltac:(lia) ltac:(reflexivity) Hst) as (c & Hrun & _); [| | | |].
  - repeat (apply Forall_cons; split; [lia|]). by apply Forall_nil.
  - reflexivity.
  - repeat (apply Forall_cons; split; [lia|]). by apply Forall_nil.
  - done.
  - exists c. exact Hrun.
Defined.
End demo.
