(* ===== verification/PrintSpec.v ===== *)
(** * What a formatted message shows (lib/vsnprintf.cpp, lib/kmesg.cpp)

    A reference for the conversions that the kernel's messages use. A message
    is a list of pieces; each stands for a part of a format string, for the
    arguments that it takes and for the text that a reader should see. The text
    is given by a relation: a number is shown by digits that stand for it. *)
From S2P Require Import Prelude CString Printf Syscall.
From stdpp Require Import base numbers option list strings sets.
#[local] Open Scope Z_scope.

(** The characters of a literal of the source. *)
Definition txt (s : string) : list Z := (λ a, Z.of_N (Ascii.N_of_ascii a)) <$> String.list_ascii_of_string s.

Inductive piece :=
| Text (l : list Z)      (** the format itself *)
| Str (l : list Z)       (** [%s] *)
| Dec (z : Z)            (** [%d] *)
| LDec (z : Z)           (** [%ld] *)
| LUns (z : Z)           (** [%lu] *)
| LHex (z : Z)           (** [%lx] *)
| LHex16 (z : Z)         (** [%016lx] *)
| Hex16 (z : Z).         (** [%016x] *)

Definition piece_fmt (p : piece) : list Z :=
  match p with
  | Text l => l
  | Str _ => txt "%s"
  | Dec _ => txt "%d"
  | LDec _ => txt "%ld"
  | LUns _ => txt "%lu"
  | LHex _ => txt "%lx"
  | LHex16 _ => txt "%016lx"
  | Hex16 _ => txt "%016x"
  end.

Definition piece_args (p : piece) : list varg :=
  match p with
  | Text _ => []
  | Str l => [VStr l]
  | Dec z | Hex16 z => [VInt z]
  | LDec z | LUns z | LHex z | LHex16 z => [VLong z]
  end.

Definition fmt_of (ps : list piece) : list Z := ps ≫= piece_fmt.
Definition args_of (ps : list piece) : list varg := ps ≫= piece_args.

(** The arguments are values of their types. *)
Definition proper (p : piece) : Prop :=
  match p with
  | Text l => chars l ∧ Forall (λ c, c ≠ 37) l
  | Str l => chars l
  | Dec z => - 2 ^ 31 ≤ z < 2 ^ 31
  | LDec z | LUns z | LHex z | LHex16 z => is_u64 z
  | Hex16 z => 0 ≤ z < 2 ^ 31
  end.

(** ** Texts of numbers *)
Definition digits (base z : Z) (l : list Z) : Prop :=
  number_in base l = z ∧ (0 < length l ≤ 22)%nat ∧ Forall (.∈ digits_lower) l.

(** A signed number is shown from its low 32 bits when these are negative. *)
Definition signed (z : Z) (l : list Z) : Prop :=
  if s32 z <? 0 then ∃ d, l = 45 :: d ∧ digits 10 (- s32 z) d else digits 10 (u64 z) l.

Definition shows (p : piece) (l : list Z) : Prop :=
  match p with
  | Text t | Str t => l = t
  | Dec z | LDec z => signed z l
  | LUns z => digits 10 z l
  | LHex z => digits 16 z l
  | LHex16 z | Hex16 z => digits 16 z l ∧ length l = 16%nat
  end.

(** The room a piece may need. *)
Definition room (p : piece) : Z :=
  match p with
  | Text l | Str l => len l
  | _ => 23
  end.
Definition room_of (ps : list piece) : Z := foldr (λ p r, room p + r) 0 ps.

(** A message, and the text that shows it. *)
Definition message_text (ps : list piece) (l : list Z) : Prop := ∃ ls, Forall2 shows ps ls ∧ l = concat ls.

Lemma digits_chars base z l : digits base z l → chars l.
Proof. intros (_ & _ & Hl). apply digits_lower_range in Hl. apply (Forall_impl _ _ _ Hl). lia. Qed.

Lemma shows_ok p l : proper p → shows p l → chars l ∧ len l ≤ room p.
Proof.
  assert (∀ b z d, digits b z d → chars d ∧ len d ≤ 22) as Hd.
  { intros b z d H. split; [by eapply digits_chars|]. destruct H as (_ & H & _). unfold len. lia. }
  assert (∀ z, signed z l → chars l ∧ len l ≤ 23) as Hs.
  { intros z. unfold signed. destruct (_ <? _); [|intros H; apply Hd in H as [? ?]; split; [done|lia]].
    intros (d & -> & [Hc Hl]%Hd). rewrite len_cons. split; [apply Forall_cons; split; [lia|done]|lia]. }
  destruct p; cbn [proper shows room]; intros Hp H; try (by subst); eauto.
  - by subst; destruct Hp.
  - apply Hd in H as [? ?]; split; [done|lia].
  - apply Hd in H as [? ?]; split; [done|lia].
  - destruct H as [[? ?]%Hd _]; split; [done|lia].
  - destruct H as [[? ?]%Hd _]; split; [done|lia].
Qed.

Lemma number_in_zeros base n l : number_in base (replicate n 48 ++ l) = number_in base l.
Proof. unfold number_in. induction n as [|n IH]; [done|]. cbn [replicate app foldl]. exact IH. Qed.

(** [num_fmt] of an unsigned number, padded with zeros. *)
Lemma num_fmt_digits i base pad pad_with signed len :
  0 ≤ i < 2 ^ 64 → 10 ≤ base ≤ 16 → 0 ≤ pad ≤ 20 → pad_with = 48 ∨ pad = 0 → signed = false ∨ 0 ≤ s32 i →
  len = -1 ∨ (0 < len ∧ i < base ^ len) →
  ∃ l, num_fmt NUM_BUF_LEN i base pad pad_with signed false len = Ok l ∧ digits base i l ∧
    (pad ≤ Z.of_nat (length l)) ∧ (0 < len → Z.of_nat (length l) ≤ Z.max pad len).
Proof.
  intros Hi Hb Hp Hw Hs Hl. unfold num_fmt.
  assert ((s32 i <? 0) && signed = false) as ->.
  { destruct Hs as [-> | Hs]; [apply andb_false_r|]. by rewrite (proj2 (Z.ltb_ge _ _) Hs). }
  set (k := if len =? -1 then 20%nat else Nat.min 20 (Z.to_nat len)).
  assert (i < base ^ Z.of_nat k) as Hik.
  { assert (i < base ^ 20) as H20.
    { apply Z.lt_le_trans with (10 ^ 20); [lia|]. apply Z.pow_le_mono_l. lia. }
    subst k. destruct (Z.eqb_spec len (-1)); [done|]. destruct Hl as [|[Hl1 Hl2]]; [done|].
    destruct (Nat.min_spec 20 (Z.to_nat len)) as [[_ ->]|[_ ->]]; [done|by rewrite Z2Nat.id by lia]. }
  assert (0 < k ≤ 20)%nat as Hk by (subst k; destruct (Z.eqb_spec len (-1)); lia).
  destruct (num_digits_run k 48 i base pad len 48 []) as (l & Hrun & Hlen & Hnum & Hr); [lia..| |].
  { subst k. destruct (Z.eqb_spec len (-1)); [by left|right; lia]. }
  change (Z.to_nat NUM_BUF_LEN) with 48%nat. change NUM_BUF_LEN with 48.
  rewrite Hrun, app_nil_r. cbn [mbind outcome_bind]. rewrite num_pad_run by lia. cbn [mbind outcome_bind andb].
  eexists; split; [reflexivity|]. rewrite length_app, length_replicate. unfold digits. split_and!.
  - destruct Hw as [-> | ->]; [by rewrite number_in_zeros|]. by replace (Z.to_nat _) with 0%nat by lia.
  - rewrite length_app, length_replicate. lia.
  - rewrite length_app, length_replicate. lia.
  - apply Forall_app. split; [|done]. destruct Hw as [-> | ->].
    + apply Forall_replicate. by left.
    + replace (Z.to_nat _) with 0%nat by lia. by apply Forall_nil.
  - lia.
  - subst k. destruct (Z.eqb_spec len (-1)); lia.
Qed.


(** A negative number, without padding. *)
Lemma num_fmt_negative z :
  s32 z < 0 → ∃ d, num_fmt NUM_BUF_LEN (u64 z) 10 0 32 true false (-1) = Ok (45 :: d) ∧ digits 10 (- s32 z) d.
Proof.
  intros Hn. assert (s32 (u64 z) = s32 z) as Hs by wrap_lia. unfold num_fmt.
  rewrite Hs, (proj2 (Z.ltb_lt (s32 z) 0) Hn). cbn [andb]. rewrite (u32_small (- s32 z)) by wrap_lia.
  destruct (num_digits_run 20 48 (- s32 z) 10 0 (-1) 48 []) as (d & Hrun & Hlen & Hnum & Hr); [lia..|wrap_lia|lia|lia|by left|].
  change (Z.to_nat NUM_BUF_LEN) with 48%nat. change NUM_BUF_LEN with 48.
  rewrite Hrun, app_nil_r. cbn [mbind outcome_bind]. replace (0 `max` _) with 0 by lia.
  rewrite num_pad_run by lia. cbn [mbind outcome_bind replicate app Z.to_nat].
  exists d. split; [|split_and!; [done|lia|lia|done]]. unfold put_front.
  rewrite (proj2 (Z.eqb_neq (48 - Z.of_nat (length d) - 0) 0)), (proj2 (Z.leb_gt (48 - Z.of_nat (length d) - 0) 1)) by lia. done.
Qed.

Lemma num_fmt_signed z : ∃ l, num_fmt NUM_BUF_LEN (u64 z) 10 0 32 true false (-1) = Ok l ∧ signed z l.
Proof.
  unfold signed. destruct (Z.ltb_spec (s32 z) 0) as [Hn|Hn].
  - destruct (num_fmt_negative z Hn) as (d & H & Hd). exists (45 :: d). split; [done|by exists d].
  - pose proof (u64_range z). assert (s32 (u64 z) = s32 z) as Hs by wrap_lia.
    destruct (num_fmt_digits (u64 z) 10 0 32 true (-1)) as (l & Hl & Hd & _); [lia|lia|lia|by right|right; lia|by left|].
    by exists l.
Qed.

(** ** One conversion *)
Definition conversion (p : piece) : option (Z * Z * Z * bool) :=
  match p with
  | Text _ => None
  | Str _ => Some (115, 0, 32, false)
  | Dec _ => Some (100, 0, 32, false)
  | LDec _ => Some (100, 0, 32, true)
  | LUns _ => Some (117, 0, 32, true)
  | LHex _ => Some (120, 0, 32, true)
  | LHex16 _ => Some (120, 16, 48, true)
  | Hex16 _ => Some (120, 16, 48, false)
  end.

Lemma loop_percent fuel fmt1 st sp args pad_with fmt2 pad fmt3 wide d fmt5 :
  sp ≠ 0 → match fmt1 with 48 :: fmt' => (48, fmt') | _ => (32, fmt1) end = (pad_with, fmt2) →
  read_padding fmt2 0 = (pad, fmt3) → read_wide fmt3 false = (wide, d :: fmt5) →
  vsnprintf_loop (S fuel) (37 :: fmt1) (Out st sp false) args =
    ('(o, args') ← convert d pad pad_with wide (Out st sp false) args; vsnprintf_loop fuel fmt5 o args').
Proof.
  intros Hs H1 H2 H3. cbn [vsnprintf_loop space ended]. rewrite (proj2 (Z.eqb_neq sp 0) Hs).
  cbn [orb]. change (37 =? 37) with true. cbn [negb]. rewrite H1, H2, H3. reflexivity.
Qed.

Lemma loop_conversion p c pad pad_with wide fuel fmt st sp args :
  conversion p = Some (c, pad, pad_with, wide) → sp ≠ 0 →
  vsnprintf_loop (S fuel) (piece_fmt p ++ fmt) (Out st sp false) args =
    ('(o, args') ← convert c pad pad_with wide (Out st sp false) args; vsnprintf_loop fuel fmt o args').
Proof.
  intros Hc Hs. destruct p; [done|..]; injection Hc as <- <- <- <-.
  - assert (piece_fmt _ ++ fmt = 37 :: 115 :: fmt) as -> by reflexivity.
    apply (loop_percent _ _ _ _ _ 32 (115 :: fmt) 0 (115 :: fmt)); [exact Hs|reflexivity..].
  - assert (piece_fmt _ ++ fmt = 37 :: 100 :: fmt) as -> by reflexivity.
    apply (loop_percent _ _ _ _ _ 32 (100 :: fmt) 0 (100 :: fmt)); [exact Hs|reflexivity..].
  - assert (piece_fmt _ ++ fmt = 37 :: 108 :: 100 :: fmt) as -> by reflexivity.
    apply (loop_percent _ _ _ _ _ 32 (108 :: 100 :: fmt) 0 (108 :: 100 :: fmt)); [exact Hs|reflexivity..].
  - assert (piece_fmt _ ++ fmt = 37 :: 108 :: 117 :: fmt) as -> by reflexivity.
    apply (loop_percent _ _ _ _ _ 32 (108 :: 117 :: fmt) 0 (108 :: 117 :: fmt)); [exact Hs|reflexivity..].
  - assert (piece_fmt _ ++ fmt = 37 :: 108 :: 120 :: fmt) as -> by reflexivity.
    apply (loop_percent _ _ _ _ _ 32 (108 :: 120 :: fmt) 0 (108 :: 120 :: fmt)); [exact Hs|reflexivity..].
  - assert (piece_fmt _ ++ fmt = 37 :: 48 :: 49 :: 54 :: 108 :: 120 :: fmt) as -> by reflexivity.
    apply (loop_percent _ _ _ _ _ 48 (49 :: 54 :: 108 :: 120 :: fmt) 16 (108 :: 120 :: fmt)); [exact Hs|reflexivity..].
  - assert (piece_fmt _ ++ fmt = 37 :: 48 :: 49 :: 54 :: 120 :: fmt) as -> by reflexivity.
    apply (loop_percent _ _ _ _ _ 48 (49 :: 54 :: 120 :: fmt) 16 (120 :: fmt)); [exact Hs|reflexivity..].
Qed.

(** What the arms of the [switch] have in common. *)
Lemma convert_number c pad pad_with (wide : bool) o i args base sgn n l :
  (c, base, sgn, n) ∈ [(100, 10, true, -1); (117, 10, false, -1); (120, 16, false, if wide then 16 else 8)] →
  num_fmt NUM_BUF_LEN (u64 i) base pad pad_with sgn false n = Ok l →
  convert c pad pad_with wide o ((if wide then VLong i else VInt i) :: args) = Ok (put_all o l, args).
Proof.
  intros Hc Hl.
  assert (arg_num wide ((if wide then VLong i else VInt i) :: args) = Ok (u64 i, args)) as Ha by by destruct wide.
  revert Hl. unfold convert. generalize num_fmt. intros nf Hl. rewrite Ha. clear Ha.
  repeat (apply elem_of_cons in Hc as [[= -> -> -> ->]|Hc]; [cbn [Z.eqb Pos.eqb orb mbind outcome_bind]; rewrite Hl; reflexivity|]).
  by apply not_elem_of_nil in Hc.
Qed.

Lemma convert_string pad pad_with wide o t args : convert 115 pad pad_with wide o (VStr t :: args) = Ok (put_all o t, args).
Proof. reflexivity. Qed.

Lemma piece_text p c pad pad_with wide o args :
  conversion p = Some (c, pad, pad_with, wide) → proper p →
  ∃ l, shows p l ∧ convert c pad pad_with wide o (piece_args p ++ args) = Ok (put_all o l, args).
Proof.
  intros Hc Hp. destruct p as [|t|z|z|z|z|z|z]; [done|..]; injection Hc as <- <- <- <-; cbn [proper] in Hp; unfold is_u64 in Hp;
    cbn [piece_args app].
  - exists t. split; [done|]. apply convert_string.
  - destruct (num_fmt_signed z) as (l & Hl & Hs). exists l. split; [done|].
    apply (convert_number 100 0 32 false o z args 10 true (-1) l); [|done]. set_solver.
  - destruct (num_fmt_signed z) as (l & Hl & Hs). exists l. split; [done|].
    apply (convert_number 100 0 32 true o z args 10 true (-1) l); [|done]. set_solver.
  - destruct (num_fmt_digits z 10 0 32 false (-1)) as (l & Hl & Hs & _); [lia|lia|lia|by right|by left|by left|].
    exists l. split; [done|]. apply (convert_number 117 0 32 true o z args 10 false (-1) l); [set_solver|by rewrite u64_small].
  - destruct (num_fmt_digits z 16 0 32 false 16) as (l & Hl & Hs & _); [lia|lia|lia|by right|by left|right; lia|].
    exists l. split; [done|]. apply (convert_number 120 0 32 true o z args 16 false 16 l); [set_solver|by rewrite u64_small].
  - destruct (num_fmt_digits z 16 16 48 false 16) as (l & Hl & Hs & Hn & Hm); [lia|lia|lia|by left|by left|right; lia|].
    exists l. split; [split; [done|lia]|].
    apply (convert_number 120 16 48 true o z args 16 false 16 l); [set_solver|by rewrite u64_small].
  - destruct (num_fmt_digits z 16 16 48 false 8) as (l & Hl & Hs & Hn & Hm); [lia|lia|lia|by left|by left|right; lia|].
    exists l. split; [split; [done|lia]|].
    apply (convert_number 120 16 48 false o z args 16 false 8 l); [set_solver|rewrite u64_small by lia; done].
Qed.

Lemma convert_piece p c pad pad_with wide st sp args :
  conversion p = Some (c, pad, pad_with, wide) → proper p → room p < sp →
  ∃ l, shows p l ∧ convert c pad pad_with wide (Out st sp false) (piece_args p ++ args) =
    Ok (Out (st ++ l) (sp - len l) false, args).
Proof.
  intros Hc Hp Hr. destruct (piece_text p c pad pad_with wide (Out st sp false) args Hc Hp) as (l & Hl & ->).
  exists l. split; [done|]. destruct (shows_ok p l Hp Hl). by rewrite put_all_run by (done || lia).
Qed.

(** ** A whole message *)
Lemma loop_text fuel t fmt st sp args :
  Forall (λ c, c ≠ 37) t → sp ≠ 0 →
  vsnprintf_loop (length t + fuel) (t ++ fmt) (Out st sp false) args = vsnprintf_loop fuel fmt (Out (st ++ t) sp false) args.
Proof.
  intros Ht Hs. revert st. induction Ht as [|c t Hc _ IH]; intros st; cbn [length app Nat.add]; [by rewrite app_nil_r|].
  rewrite loop_plain, IH by done. by rewrite <- app_assoc.
Qed.

Lemma room_nonneg p : 0 ≤ room p.
Proof. destruct p; cbn; try lia; apply len_pos. Qed.
Lemma room_of_nonneg ps : 0 ≤ room_of ps.
Proof. induction ps as [|p ps IH]; [done|]. change (room_of (p :: ps)) with (room p + room_of ps). pose proof (room_nonneg p). lia. Qed.

Lemma loop_pieces ps fuel st sp :
  Forall proper ps → room_of ps < sp → (length (fmt_of ps) ≤ fuel)%nat →
  ∃ ls sp', Forall2 shows ps ls ∧ 0 < sp' ∧
    vsnprintf_loop fuel (fmt_of ps) (Out st sp false) (args_of ps) = Ok (Out (st ++ concat ls) sp' false).
Proof.
  intros Hps. revert fuel st sp. induction Hps as [|p ps Hp _ IH]; intros fuel st sp Hr Hf.
  { exists [], sp. split_and!; [by apply Forall2_nil|cbn in Hr; lia|]. destruct fuel; cbn; by rewrite app_nil_r. }
  change (room_of (p :: ps)) with (room p + room_of ps) in Hr. pose proof (room_nonneg p). pose proof (room_of_nonneg ps).
  change (fmt_of (p :: ps)) with (piece_fmt p ++ fmt_of ps) in *. change (args_of (p :: ps)) with (piece_args p ++ args_of ps).
  rewrite length_app in Hf. destruct (conversion p) as [[[[c pad] pad_with] wide]|] eqn:Hc.
  - destruct fuel as [|fuel]; [destruct p; cbn in Hf; lia || done|].
    rewrite (loop_conversion _ _ _ _ _ _ _ _ _ _ Hc) by lia.
    destruct (convert_piece p c pad pad_with wide st sp (args_of ps) Hc Hp ltac:(lia)) as (l & Hl & ->).
    cbn [mbind outcome_bind]. destruct (shows_ok p l Hp Hl) as [_ Hlen].
    destruct (IH fuel (st ++ l) (sp - len l)) as (ls & sp' & Hls & Hsp & ->); [lia|destruct p; cbn in Hf; lia || done|].
    exists (l :: ls), sp'. split_and!; [by constructor|done|]. cbn [concat]. by rewrite app_assoc.
  - destruct p as [t|t|z|z|z|z|z|z]; [|done..]. destruct Hp as [_ Ht]. cbn [piece_fmt piece_args app] in *.
    replace fuel with (length t + (fuel - length t))%nat by lia. rewrite loop_text by (done || lia).
    destruct (IH (fuel - length t)%nat (st ++ t) sp) as (ls & sp' & Hls & Hsp & ->); [lia..|].
    exists (t :: ls), sp'. split_and!; [by constructor|done|]. cbn [concat]. by rewrite app_assoc.
Qed.

Lemma message_ok ps l : Forall proper ps → message_text ps l → chars l ∧ len l ≤ room_of ps.
Proof.
  intros Hps (ls & Hls & ->). induction Hls as [|p l ps ls Hl _ IH]; [split; [by apply Forall_nil|done]|].
  apply Forall_cons in Hps as [Hp Hps]. destruct (IH Hps) as [IH1 IH2]. destruct (shows_ok p l Hp Hl) as [Hc Hr].
  cbn [concat]. change (room_of (p :: ps)) with (room p + room_of ps). split; [by apply Forall_app|]. rewrite len_app. lia.
Qed.

(** Formatting a message whose arguments have the types that its format names
    gives a text that shows it, when there is room for the conversions. *)
Theorem vsnprintf_shows (n : Z) (ps : list piece) :
  Forall proper ps → room_of ps < n →
  ∃ l, message_text ps l ∧ vsnprintf n (fmt_of ps) (args_of ps) = Ok (l ++ [0]).
Proof.
  intros Hps Hr. unfold vsnprintf.
  destruct (loop_pieces ps (length (fmt_of ps)) [] n Hps Hr (le_n _)) as (ls & sp' & Hls & Hsp & ->).
  exists (concat ls). split; [by exists ls|]. cbn [mbind outcome_bind stored space app].
  by rewrite (proj2 (Z.eqb_neq sp' 0)) by lia.
Qed.

Lemma kmesg_shows_text src ps :
  chars src → Forall proper ps → room_of ps < 1024 → len src + room_of ps < 1162 →
  ∃ l, message_text ps l ∧ kmesg src (fmt_of ps) (args_of ps) = Ok (src ++ [58; 32] ++ l ++ [10]).
Proof.
  intros Hs Hps Hr Hl. destruct (vsnprintf_shows 1024 ps Hps Hr) as (l & Hm & Hv). exists l. split; [done|].
  destruct (message_ok ps l Hps Hm) as [Hc Hlen]. pose proof (kmesg_run src l Hs Hc) as Hk.
  rewrite <- Hk by lia. unfold kmesg at 1 2. by rewrite Hv, (vsnprintf_string 1024 l Hc) by lia.
Qed.
