(* ===== verification/Cmdline.v ===== *)
(** * The kernel command line (util/cmdline.cpp)

    A string is the list of its characters before the terminator, a pointer
    into it is the rest of the list. [strchr(...) + 1] of a missing character
    is a pointer to no string, [None]; reading through it is a fault. The
    array of arguments has the size it was allocated with, and a store outside
    of it is a fault. Memory from [kcalloc] is assumed to be there. *)
From S2P Require Import Prelude CString.
From stdpp Require Import base numbers option list sets.
#[local] Open Scope Z_scope.

Record cmd_arg_t := CmdArg { key : option (list Z); values : option (list (list Z)); value_count : Z }.
(** An entry of the array as [kcalloc] leaves it. *)
Definition no_arg : cmd_arg_t := CmdArg None None 0.

Record cmdline := Cmdline { arg_list : list cmd_arg_t; arg_count : Z }.

Definition count_chars (str : list Z) (chr : Z) : nat := length (filter (λ c, c = chr) str).

(** [strchr]: the rest of the string from the character on. *)
Fixpoint find_char (str : list Z) (chr : Z) : option (list Z) :=
  match str with
  | [] => None
  | c :: str' => if c =? chr then Some str else find_char str' chr
  end.
(** [strchr(str, chr) + 1] *)
Definition after_char (str : list Z) (chr : Z) : option (list Z) := tail <$> find_char str chr.
(** The characters up to the next [chr], or to the end. *)
Definition up_to (str : list Z) (chr : Z) : list Z :=
  match find_char str chr with
  | Some rest => take (length str - length rest) str
  | None => take (length str) str
  end.

Fixpoint values_loop (param_count : nat) (param : option (list Z)) : outcome (list (list Z)) :=
  match param_count with
  | O => Ok []
  | S n =>
      p ← access param;
      rest ← values_loop n (after_char p 44);
      Ok (up_to p 44 :: rest)
  end.

Definition parse_arg (str : list Z) : M cmdline () :=
  arg ← lift (match find_char str 61 with
              | Some rest =>
                  let name := take (length str - length rest) str in
                  let params := tail rest in
                  let param_count := (count_chars params 44 + 1)%nat in
                  match params with
                  | [] => Ok (CmdArg (Some name) None 0)
                  | _ =>
                      l ← values_loop param_count (Some params);
                      Ok (CmdArg (Some name) (Some l) (Z.of_nat param_count))
                  end
              | None => Ok (CmdArg (Some str) None 0)
              end);
  s ← get_st;
  lift (access (arg_list s !! Z.to_nat (arg_count s)));;
  put_st (Cmdline (<[Z.to_nat (arg_count s) := arg]> (arg_list s)) (arg_count s + 1)).

Fixpoint cmdline_loop (cmd_arg_count : nat) (c : option (list Z)) : M cmdline () :=
  match cmd_arg_count with
  | O => mret tt
  | S n =>
      str ← lift (access c);
      match str with
      | [] => mret tt
      | _ => parse_arg (up_to str 32);; cmdline_loop n (after_char str 32)
      end
  end.

Definition cmdline_init (line : list Z) : M cmdline () :=
  let cmd_arg_count := (count_chars line 32 + 1)%nat in
  modify (λ s, Cmdline (replicate cmd_arg_count no_arg) (arg_count s));;
  cmdline_loop cmd_arg_count (Some line).

(** ** Queries: [strcmp] is 0 exactly for equal strings (see CString.v); a
    missing key is a null pointer *)
Fixpoint first_arg (l : list cmd_arg_t) (name : list Z) : outcome (option cmd_arg_t) :=
  match l with
  | [] => Ok None
  | a :: l' => k ← access (key a); if decide (name = k) then Ok (Some a) else first_arg l' name
  end.
Definition used_args (s : cmdline) : list cmd_arg_t := take (Z.to_nat (arg_count s)) (arg_list s).

Definition cmdline_is_enabled (s : cmdline) (name : list Z) : outcome Z :=
  a ← first_arg (used_args s) name; Ok (match a with Some _ => 1 | None => 0 end).
Definition cmdline_get_value_count (s : cmdline) (name : list Z) : outcome Z :=
  a ← first_arg (used_args s) name; Ok (match a with Some a => value_count a | None => 0 end).
Definition cmdline_get_values (s : cmdline) (name : list Z) : outcome (option (list (list Z))) :=
  a ← first_arg (used_args s) name; Ok (match a with Some a => values a | None => None end).

Fixpoint has_value (l : list cmd_arg_t) (name value : list Z) : outcome Z :=
  match l with
  | [] => Ok 0
  | a :: l' =>
      k ← access (key a);
      if decide (name = k) then
        (* the loop over the values does not run when there are none *)
        if decide (value ∈ take (Z.to_nat (value_count a)) (default [] (values a))) then Ok 1 else has_value l' name value
      else has_value l' name value
  end.
Definition cmdline_has_value (s : cmdline) (name value : list Z) : outcome Z := has_value (used_args s) name value.

(** ** The specification: splitting at a character *)
Fixpoint split_at (chr : Z) (l : list Z) : list Z * list (list Z) :=
  match l with
  | [] => ([], [])
  | c :: l' => let '(w, ws) := split_at chr l' in if c =? chr then ([], w :: ws) else (c :: w, ws)
  end.
Definition split (chr : Z) (l : list Z) : list (list Z) := let '(w, ws) := split_at chr l in w :: ws.

(** The words of a command line; a space at the end does not start one. *)
Fixpoint drop_last_empty (l : list (list Z)) : list (list Z) :=
  match l with
  | [] => []
  | [w] => match w with [] => [] | _ => [w] end
  | w :: l' => w :: drop_last_empty l'
  end.
Definition words (l : list Z) : list (list Z) := drop_last_empty (split 32 l).

(** Key and values of a word: what is before the first ["="], and what is
    after it split at the commas; nothing after it is no value. *)
Definition word_key (w : list Z) : list Z := (split_at 61 w).1.
Definition word_values (w : list Z) : list (list Z) :=
  match after_char w 61 with
  | None | Some [] => []
  | Some params => split 44 params
  end.
Definition arg_of (w : list Z) (a : cmd_arg_t) : Prop :=
  key a = Some (word_key w) ∧ default [] (values a) = word_values w ∧ value_count a = Z.of_nat (length (word_values w)).

(** ** Splitting *)

(** A string without the character, or its first piece and the rest. *)
Lemma find_char_cases chr l :
  (chr ∉ l ∧ find_char l chr = None ∧ split chr l = [l] ∧ count_chars l chr = 0%nat ∧ split_at chr l = (l, [])) ∨
  (∃ w r, l = w ++ chr :: r ∧ chr ∉ w ∧ find_char l chr = Some (chr :: r) ∧ split chr l = w :: split chr r ∧
     count_chars l chr = S (count_chars r chr) ∧ (split_at chr l).1 = w).
Proof.
  unfold split, count_chars. induction l as [|c l IH]; cbn [find_char split_at].
  { left. split_and!; [set_solver|done..]. }
  destruct (Z.eqb_spec c chr) as [->|Hc].
  - right. exists [], l. rewrite filter_cons_True by done. destruct (split_at chr l) as [w ws].
    split_and!; [done|set_solver|done..].
  - rewrite filter_cons_False by done. destruct IH as [(Hn & Hf & Hs & Hcnt & Hsp)|(w & r & -> & Hw & Hf & Hs & Hcnt & Hsp)].
    + left. rewrite Hsp. split_and!; [set_solver|done..].
    + right. exists (c :: w), r. destruct (split_at chr (w ++ chr :: r)) as [w' ws]. cbn in Hsp. subst w'.
      injection Hs as ->. split_and!; [done|set_solver|done..].
Qed.

Lemma up_to_piece chr w r : find_char (w ++ chr :: r) chr = Some (chr :: r) → up_to (w ++ chr :: r) chr = w.
Proof.
  intros Hf. unfold up_to. rewrite Hf. rewrite length_app. cbn [length].
  replace (length w + S (length r) - S (length r))%nat with (length w) by lia. apply take_app_length.
Qed.

Lemma up_to_all chr l : find_char l chr = None → up_to l chr = l.
Proof. intros Hf. unfold up_to. rewrite Hf. by apply take_ge. Qed.

Lemma values_loop_run p : values_loop (count_chars p 44 + 1) (Some p) = Ok (split 44 p).
Proof.
  induction p as [p IH] using (induction_ltof1 _ (@length Z)). unfold ltof in IH.
  destruct (find_char_cases 44 p) as [(_ & Hf & Hs & Hc & _)|(w & r & -> & _ & Hf & Hs & Hc & _)]; rewrite Hs, Hc.
  - cbn. by rewrite up_to_all.
  - change (S (count_chars r 44) + 1)%nat with (S (count_chars r 44 + 1)).
    cbn [values_loop access mbind outcome_bind]. unfold after_char. rewrite Hf. cbn [fmap option_fmap option_map tail].
    rewrite IH by (rewrite length_app; cbn; lia). cbn. by rewrite up_to_piece.
Qed.

Lemma split_length chr l : length (split chr l) = (count_chars l chr + 1)%nat.
Proof.
  induction l as [l IH] using (induction_ltof1 _ (@length Z)). unfold ltof in IH.
  destruct (find_char_cases chr l) as [(_ & _ & Hs & Hc & _)|(w & r & -> & _ & _ & Hs & Hc & _)]; rewrite Hs, Hc; [done|].
  cbn [length]. rewrite IH by (rewrite length_app; cbn; lia). lia.
Qed.

(** ** Parsing *)
Lemma parse_arg_run str s :
  0 ≤ arg_count s < Z.of_nat (length (arg_list s)) →
  ∃ a, parse_arg str s = Ok (tt, Cmdline (<[Z.to_nat (arg_count s) := a]> (arg_list s)) (arg_count s + 1)) ∧ arg_of str a.
Proof.
  intros Hr. assert (is_Some (arg_list s !! Z.to_nat (arg_count s))) as [x Hx] by (apply lookup_lt_is_Some; lia).
  assert (∀ arg : cmd_arg_t, (s ← get_st; lift (access (arg_list s !! Z.to_nat (arg_count s)));;
    put_st (Cmdline (<[Z.to_nat (arg_count s) := arg]> (arg_list s)) (arg_count s + 1))) s =
    Ok (tt, Cmdline (<[Z.to_nat (arg_count s) := arg]> (arg_list s)) (arg_count s + 1))) as Hend.
  { intros arg. cbv [mbind M_bind get_st lift access put_st]. by rewrite Hx. }
  unfold parse_arg, arg_of, word_key, word_values, after_char.
  destruct (find_char_cases 61 str) as [(_ & Hf & _ & _ & Hk)|(w & r & -> & _ & Hf & _ & _ & Hk)]; rewrite Hf, Hk.
  - eexists. split; [apply Hend|]. done.
  - cbn [tail fmap option_fmap option_map]. rewrite length_app. cbn [length].
    replace (length w + S (length r) - S (length r))%nat with (length w) by lia. rewrite take_app_length.
    destruct r as [|c r]; [eexists; split; [apply Hend|done]|]. rewrite values_loop_run.
    eexists. split; [apply Hend|]. cbn. split_and!; [done..|]. by rewrite split_length.
Qed.

(** The state after the words [ws] have been parsed from entry [n] on. *)
Definition parsed (n : nat) (ws : list (list Z)) (s s' : cmdline) : Prop :=
  arg_count s' = arg_count s + Z.of_nat (length ws) ∧ length (arg_list s') = length (arg_list s) ∧
  (∀ i, (i < n)%nat → arg_list s' !! i = arg_list s !! i) ∧
  ∀ i w, ws !! i = Some w → ∃ a, arg_list s' !! (n + i)%nat = Some a ∧ arg_of w a.

Lemma drop_last_empty_cons w c r : drop_last_empty (w :: split c r) = w :: drop_last_empty (split c r).
Proof. unfold split. by destruct (split_at c r). Qed.

Lemma cmdline_loop_step n l s :
  l ≠ [] → cmdline_loop (S n) (Some l) s = (parse_arg (up_to l 32);; cmdline_loop n (after_char l 32)) s.
Proof. by destruct l. Qed.

Lemma parsed_cons n w a ws s s' :
  Z.of_nat n = arg_count s → (n < length (arg_list s))%nat → arg_of w a →
  parsed (S n) ws (Cmdline (<[n := a]> (arg_list s)) (arg_count s + 1)) s' → parsed n (w :: ws) s s'.
Proof.
  intros Hn Hlt Ha (Hc & Hl & Hb & Hw). cbn in *. rewrite length_insert in Hl. unfold parsed. cbn [length].
  split_and!; [lia|done| |].
  - intros i Hi. rewrite Hb by lia. by rewrite list_lookup_insert_ne by lia.
  - intros [|i] x Hx.
    + injection Hx as <-. exists a. rewrite Nat.add_0_r, Hb by lia. by rewrite list_lookup_insert_eq.
    + rewrite Nat.add_succ_r. by apply (Hw i x).
Qed.

Lemma parsed_nil n s : parsed n [] s s.
Proof. unfold parsed. cbn [length]. split_and!; [lia|done|done|]. intros i w Hw. by rewrite lookup_nil in Hw. Qed.

Lemma cmdline_loop_run l n s :
  Z.of_nat n = arg_count s → (n + length (words l) ≤ length (arg_list s))%nat →
  ∃ s', cmdline_loop (count_chars l 32 + 1) (Some l) s = Ok (tt, s') ∧ parsed n (words l) s s'.
Proof.
  revert n s. induction l as [l IH] using (induction_ltof1 _ (@length Z)). unfold ltof in IH. intros n s Hn Hroom.
  rewrite Nat.add_comm. cbn [Nat.add]. destruct (decide (l = [])) as [->|Hne].
  { exists s. split; [done|apply parsed_nil]. }
  rewrite cmdline_loop_step by done. unfold words in *.
  destruct (find_char_cases 32 l) as [(_ & Hf & Hs & Hc & _)|(w & r & -> & _ & Hf & Hs & Hc & _)]; rewrite Hc, Hs in *.
  - assert (drop_last_empty [l] = [l]) as Hd by by destruct l. rewrite Hd in *. cbn [length] in Hroom.
    destruct (parse_arg_run l s) as (a & Hrun & Ha); [lia|]. rewrite up_to_all by done. run Hrun.
    eexists. split; [reflexivity|]. apply (parsed_cons n l a); [done|lia|done|].
    rewrite <- Hn, Nat2Z.id. apply parsed_nil.
  - rewrite drop_last_empty_cons in *. cbn [length] in Hroom. rewrite up_to_piece by done.
    destruct (parse_arg_run w s) as (a & Hrun & Ha); [lia|]. run Hrun. unfold after_char. rewrite Hf. cbn [fmap option_fmap option_map tail].
    replace (S (count_chars r 32)) with (count_chars r 32 + 1)%nat by lia. rewrite <- Hn, Nat2Z.id.
    destruct (IH r ltac:(rewrite length_app; cbn; lia) (S n) (Cmdline (<[n := a]> (arg_list s)) (Z.of_nat n + 1)))
      as (s' & Hrun' & Hp); [cbn; lia|cbn [arg_list]; rewrite length_insert; lia|].
    exists s'. split; [exact Hrun'|]. apply (parsed_cons n w a); [done|lia|done|]. by rewrite <- Hn.
Qed.

Lemma words_length l : (length (words l) ≤ count_chars l 32 + 1)%nat.
Proof.
  unfold words. rewrite <- split_length. generalize (split 32 l). intros ws.
  induction ws as [|w [|w' ws] IH]; [done|destruct w; cbn; lia|]. cbn [drop_last_empty length] in *. lia.
Qed.

(** The parsed arguments are those of the words. *)
Lemma cmdline_init_run l s :
  arg_count s = 0 → ∃ s', cmdline_init l s = Ok (tt, s') ∧ Forall2 arg_of (words l) (used_args s').
Proof.
  intros H0. unfold cmdline_init. pose proof (words_length l) as Hw.
  set (s0 := Cmdline (replicate (count_chars l 32 + 1) no_arg) (arg_count s)).
  destruct (cmdline_loop_run l 0 s0) as (s' & Hrun & Hc & Hl & _ & Ha); [done|cbn; rewrite length_replicate; lia|].
  exists s'. split; [by run (eq_refl : modify (λ s, Cmdline (replicate (count_chars l 32 + 1) no_arg) (arg_count s)) s = Ok (tt, s0))|].
  apply Forall2_same_length_lookup_2.
  - unfold used_args. rewrite length_take, Hl, Hc. cbn [arg_list s0 arg_count]. rewrite length_replicate, H0. lia.
  - intros i w a Hi Hai. destruct (Ha i w Hi) as (a' & Ha' & Hof). unfold used_args in Hai.
    apply lookup_take_Some in Hai as [Hai _]. rewrite Nat.add_0_l in Ha'. by simplify_eq.
Qed.

(** ** Queries *)
Lemma first_arg_run ws l name :
  Forall2 arg_of ws l →
  (name ∉ word_key <$> ws ∧ first_arg l name = Ok None) ∨
  (∃ ws1 w ws2 a, ws = ws1 ++ w :: ws2 ∧ name ∉ word_key <$> ws1 ∧ word_key w = name ∧
     first_arg l name = Ok (Some a) ∧ arg_of w a).
Proof.
  induction 1 as [|w a ws l Ha _ IH]; [left; split; [set_solver|done]|].
  pose proof Ha as (Hk & _). cbn [first_arg]. rewrite Hk. cbn [access mbind outcome_bind].
  case_decide as Hd; [right; exists [], w, ws, a; split_and!; [done|set_solver|done..]|].
  destruct IH as [[Hn Hf]|(ws1 & w' & ws2 & a' & -> & Hn & Hw & Hf & Ha')].
  - left. split; [set_solver|done].
  - right. exists (w :: ws1), w', ws2, a'. split_and!; [done|set_solver|done..].
Qed.

Lemma has_value_run ws l name v :
  Forall2 arg_of ws l →
  has_value l name v = Ok (if decide (Exists (λ w, word_key w = name ∧ v ∈ word_values w) ws) then 1 else 0).
Proof.
  induction 1 as [|w a ws l (Hk & Hv & Hc) _ IH].
  { rewrite decide_False; [done|]. intros He. by apply Exists_nil in He. }
  cbn [has_value]. rewrite Hk, Hv, Hc, Nat2Z.id, firstn_all, IH. cbn [access mbind outcome_bind].
  pose proof (Exists_cons (λ w, word_key w = name ∧ v ∈ word_values w) w ws) as Hex.
  destruct (decide (Exists _ (w :: ws))) as [H1|H1], (decide (Exists _ ws)) as [H2|H2];
    rewrite Hex in H1; repeat case_decide; naive_solver.
Qed.

(** The command line: [cmdline_init] returns on every string and never
    reads past it; afterwards an option is enabled exactly when it is the key
    of one of the words, it has a value exactly when one of the words with
    that key lists it, and the values that are returned are those of the first
    such word. *)
Theorem cmdline_spec (line name : list Z) (s : cmdline) :
  arg_count s = 0 →
  ∃ s', cmdline_init line s = Ok (tt, s') ∧
    cmdline_is_enabled s' name = Ok (if decide (name ∈ word_key <$> words line) then 1 else 0) ∧
    (∀ v, cmdline_has_value s' name v =
       Ok (if decide (Exists (λ w, word_key w = name ∧ v ∈ word_values w) (words line)) then 1 else 0)) ∧
    (∀ ws1 w ws2, words line = ws1 ++ w :: ws2 → word_key w = name → name ∉ word_key <$> ws1 →
       cmdline_get_value_count s' name = Ok (Z.of_nat (length (word_values w))) ∧
       (default [] <$> cmdline_get_values s' name) = Ok (word_values w)).
Proof.
  intros H0. destruct (cmdline_init_run line s H0) as (s' & Hrun & Hall). exists s'. split; [done|].
  split; [|split; [intros v; by apply has_value_run|]];
    unfold cmdline_is_enabled, cmdline_get_value_count, cmdline_get_values;
    destruct (first_arg_run _ _ name Hall) as [[Hn Hf]|(u1 & u & u2 & a & Hu & Hn & Hk & Hf & Hka & Hv & Hc)]; rewrite Hf; cbn.
  - by rewrite decide_False.
  - rewrite decide_True; [done|]. rewrite Hu, fmap_app. set_solver.
  - intros ws1 w ws2 Hw Hwk _. exfalso. apply Hn. rewrite Hw, fmap_app. set_solver.
  - intros ws1 w ws2 Hw Hwk Hw1. assert (u = w) as ->; [|by rewrite Hc, Hv].
    rewrite Hu in Hw. apply app_eq_inv in Hw as [(k & -> & Hk2)|(k & -> & Hk2)]; destruct k as [|x k]; cbn in Hk2; try by simplify_eq.
    all: injection Hk2 as -> ->; rewrite fmap_app in *; set_solver.
Qed.

(** "d=e9,v q" *)
Definition demo_line : list Z := [100; 61; 101; 57; 44; 118; 32; 113].

Lemma cmdline_spec_witness :
  ∃ s', cmdline_init demo_line (Cmdline [] 0) = Ok (tt, s') ∧ cmdline_has_value s' [100] [118] = Ok 1 ∧
    cmdline_get_value_count s' [100] = Ok 2.
Proof.
  destruct (cmdline_spec demo_line [100] (Cmdline [] 0) eq_refl) as (s' & Hrun & _ & Hv & Hc). exists s'.
  split; [exact Hrun|]. split; [rewrite Hv; vm_compute; reflexivity|].
  destruct (Hc [] [100; 61; 101; 57; 44; 118] [[113]]) as [Hn _]; [reflexivity|reflexivity|apply not_elem_of_nil|exact Hn].
Defined.
