(* ===== verification/Initrd.v ===== *)
(** * The initial ramdisk (util/initrd.h, util/initrd.cpp)

    Reading a file of a tar archive in memory, with the string routines of
    CString.v over the same memory. The address that [kmalloc] returns for the
    file is an argument. The string literal of the signature is a list. *)
From S2P Require Import Prelude CString.
From stdpp Require Import base numbers option gmap list.
#[local] Open Scope Z_scope.

Definition USTAR_BLOCK_SIZE : Z := 512.

(** Offsets of the fields of [ustar_entry_t] that are read. *)
Definition off_name : Z := 0.
Definition off_size : Z := 100 + 8 + 8 + 8.
Definition off_signature : Z := off_size + 12 + 12 + 8 + 1 + 100.

Record initrd := Initrd { initrd_buf : Z; initrd_size : Z }.
Definition initrd_init (buf size : Z) : initrd := Initrd buf size.

(** The loop of [oct_to_dec]; [fuel] bounds the characters it reads. *)
Fixpoint oct_loop (fuel : nat) (string integer multiplier i : Z) : M cmem Z :=
  if 0 <? i then
    match fuel with
    | O => lift Hang
    | S fuel' =>
        c ← ld (u64 (string + i));
        if (48 <=? s8 c) && (s8 c <=? 55) then
          oct_loop fuel' string (u64 (integer + u64 ((s8 c - 48) * multiplier))) (u64 (multiplier * 8)) (i - 1)
        else mret integer
    end
  else mret integer.

Definition oct_to_dec (string : Z) : M cmem Z :=
  n ← strlen string;
  with_fuel (λ f, oct_loop f string 0 1 (u64 (n - 1))).

(** [memcmp] with a literal. *)
Fixpoint memcmp_literal (p : Z) (l : list Z) : M cmem Z :=
  match l with
  | [] => mret 0
  | c :: l' =>
      b ← ld p;
      if c <? b then mret 1 else if b <? c then mret (-1) else memcmp_literal (p + 1) l'
  end.
(** ["ustar"] *)
Definition ustar : list Z := [117; 115; 116; 97; 114].

(** The search: the block of the entry with the name, or nothing. *)
Fixpoint find_entry (fuel : nat) (rd : initrd) (path block : Z) : M cmem (option Z) :=
  match fuel with
  | O => lift Hang
  | S fuel' =>
      let entry := u64 (initrd_buf rd + u64 (block * USTAR_BLOCK_SIZE)) in
      if u64 (initrd_buf rd + initrd_size rd) <? entry then mret None
      else
        d ← memcmp_literal (entry + off_signature) ustar;
        if negb (d =? 0) then mret None
        else
          d ← strcmp (entry + off_name) path;
          if d =? 0 then mret (Some block)
          else
            file_size ← oct_to_dec (entry + off_size);
            let block := u64 (block + u64 (file_size + USTAR_BLOCK_SIZE - 1) / USTAR_BLOCK_SIZE) in
            find_entry fuel' rd path (u64 (block + 1))
  end.

(** The number of blocks bounds the number of entries. *)
Definition initrd_read_file (rd : initrd) (path dst : Z) : M cmem Z :=
  r ← find_entry (Z.to_nat (initrd_size rd / USTAR_BLOCK_SIZE) + 2) rd path 0;
  match r with
  | None => mret 0
  | Some off =>
      let entry := u64 (initrd_buf rd + u64 (off * USTAR_BLOCK_SIZE)) in
      file_size ← oct_to_dec (entry + off_size);
      let data := u64 (initrd_buf rd + u64 (u64 (off + 1) * USTAR_BLOCK_SIZE)) in
      memcpy dst data file_size;;
      mret file_size
  end.

(** ** Octal numbers *)
Definition octal (c : Z) : Prop := 48 ≤ c ≤ 55.
Definition oct_value (l : list Z) : Z := foldl (λ r c, r * 8 + (c - 48)) 0 l.

Lemma oct_value_snoc l c : oct_value (l ++ [c]) = oct_value l * 8 + (c - 48).
Proof. unfold oct_value. by rewrite foldl_app. Qed.

Lemma oct_value_range l : Forall octal l → 0 ≤ oct_value l < 8 ^ len l.
Proof.
  induction l as [|c l IH] using rev_ind; intros Hl; [done|]. apply Forall_app in Hl as [Hl Hc].
  apply Forall_cons in Hc as [Hc _]. specialize (IH Hl). unfold octal in Hc.
  rewrite oct_value_snoc, len_app. change (len [c]) with 1. rewrite Z.pow_add_r by (pose proof (len_pos l); lia).
  change (8 ^ 1) with 8. lia.
Qed.

Lemma s8_small c : 0 ≤ c < 128 → s8 c = c.
Proof. intros Hc. unfold s8. rewrite Z.mod_small; lia. Qed.

(** The loop at the end of [l], which begins one after the string. *)
Lemma oct_loop_run fuel m string l k n :
  is_u64 string → string + len l + 1 < 2 ^ 64 →
  seg m (string + 1) l → Forall octal l → (length l ≤ fuel)%nat →
  len l + Z.of_nat k ≤ 20 → 0 ≤ n < 8 ^ Z.of_nat k →
  oct_loop fuel string n (8 ^ Z.of_nat k) (len l) m = Ok (n + oct_value l * 8 ^ Z.of_nat k, m).
Proof.
  intros Hs Hend. unfold is_u64 in Hs. revert fuel k n. induction l as [|c l IH] using rev_ind; intros fuel k n Hseg Hl Hfuel Hk Hn.
  { change (len []) with 0. change (oct_value []) with 0. rewrite Z.mul_0_l, Z.add_0_r. by destruct fuel. }
  apply seg_app in Hseg as [Hseg [Hc _]]. apply Forall_app in Hl as [Hl Hoc]. apply Forall_cons in Hoc as [Hoc _].
  rewrite length_app, len_app in *. change (len [c]) with 1 in *. cbn [length] in Hfuel. pose proof (len_pos l) as Hp.
  unfold octal in Hoc. destruct fuel as [|fuel]; [lia|]. cbn [oct_loop].
  destruct (Z.ltb_spec 0 (len l + 1)); [|lia]. rewrite (u64_small (string + (len l + 1))) by lia.
  replace (string + (len l + 1)) with (string + 1 + len l) by lia. run (ld_run _ _ _ Hc). rewrite s8_small by lia.
  destruct (Z.leb_spec 48 c), (Z.leb_spec c 55); try lia. cbn [andb].
  assert (8 ^ Z.of_nat k * 8 = 8 ^ Z.of_nat (S k)) as Hpow by (rewrite Nat2Z.inj_succ, Z.pow_succ_r by lia; lia).
  assert (8 ^ Z.of_nat (S k) ≤ 8 ^ 20) as Hb by (apply Z.pow_le_mono_r; lia).
  change (8 ^ 20) with 1152921504606846976 in Hb.
  pose proof (Z.pow_pos_nonneg 8 (Z.of_nat k) ltac:(lia) ltac:(lia)).
  rewrite (u64_small ((c - 48) * 8 ^ Z.of_nat k)) by nia. rewrite (u64_small (n + _)) by nia. rewrite (u64_small (8 ^ Z.of_nat k * 8)) by lia.
  rewrite Hpow. replace (len l + 1 - 1) with (len l) by lia.
  rewrite IH by (try done; try lia; rewrite <- Hpow; nia). do 2 f_equal. rewrite oct_value_snoc, <- Hpow. ring.
Qed.

(** [oct_to_dec] of a string reads all its characters but the first. *)
Lemma oct_to_dec_run m p c l :
  is_u64 p → p + len l + 1 < 2 ^ 64 → str_at m p (c :: l) → Forall octal l → len l ≤ 20 →
  oct_to_dec p m = Ok (oct_value l, m).
Proof.
  intros Hp Hend Hs Ho Hl. unfold oct_to_dec. run (strlen_run m p (c :: l) Hs). rewrite len_cons.
  replace (len l + 1 - 1) with (len l) by lia. pose proof (len_pos l). rewrite u64_small by lia. unfold with_fuel.
  destruct Hs as [_ [_ Hseg]]. apply seg_app in Hseg as [Hseg _].
  rewrite (oct_loop_run (S (size m)) m p l 0 0); [f_equal; f_equal; cbn; lia|done..| |lia|cbn; lia].
  pose proof (seg_size _ _ _ Hseg). lia.
Qed.

Lemma memcmp_literal_run m p l : seg m p l → memcmp_literal p l m = Ok (0, m).
Proof.
  revert p. induction l as [|c l IH]; intros p Hs; [done|]. destruct Hs as [Hc Hs]. cbn [memcmp_literal].
  run (ld_run _ _ _ Hc). rewrite Z.ltb_irrefl. by apply IH.
Qed.

(** ** Copying between blocks that do not overlap *)
Lemma copy_run m d s l k :
  seg m (s + k) l → Forall (λ c, 0 ≤ c < 256) l → mapped m (d + k) (len l) →
  (d + k + len l ≤ s + k ∨ s + k + len l ≤ d + k) →
  ∃ m', for_each (λ i, c ← ld (s + i); st (d + i) c) (seqZ k (len l)) m = Ok (tt, m') ∧
    seg m' (d + k) l ∧ same_outside m m' (d + k) (len l).
Proof.
  revert m k. induction l as [|c l IH]; intros m k Hs Hl Hm Hdis.
  { exists m. split_and!; [done|done|apply same_outside_refl]. }
  destruct Hs as [Hc Hs]. apply Forall_cons in Hl as [Hb Hl]. rewrite len_cons in *. pose proof (len_pos l).
  rewrite seqZ_cons by lia. cbn [for_each].
  assert (is_Some (m !! (d + k))) as Hd by (rewrite <- (Z.add_0_r (d + k)); apply Hm; lia).
  erewrite bind_run; [|run (ld_run _ _ _ Hc); apply (st_run m (d + k) c Hd)]. rewrite byte_small by done.
  replace (Z.pred (len l + 1)) with (len l) by lia. change (Z.succ k) with (k + 1).
  assert (same_outside m (<[d + k := c]> m) (d + k) 1) as Ho1 by apply insert_same_outside.
  destruct (IH (<[d + k := c]> m) (k + 1)) as (m' & Hrun & Hs' & Ho).
  - rewrite Z.add_assoc. eapply seg_outside; [exact Ho1| |exact Hs]. lia.
  - done.
  - intros i Hi. rewrite Z.add_assoc. apply (insert_same_shape m (d + k) c Hd). rewrite <- Z.add_assoc. apply Hm. lia.
  - lia.
  - exists m'. split_and!; [exact Hrun| |].
    + split; [|by rewrite <- Z.add_assoc]. rewrite Ho by lia. apply lookup_insert_eq.
    + eapply same_outside_trans; [eapply same_outside_sub; [exact Ho1|lia..]|]. eapply same_outside_sub; [exact Ho|lia..].
Qed.

Lemma memcpy_run m d s l :
  seg m s l → Forall (λ c, 0 ≤ c < 256) l → mapped m d (len l) → (d + len l ≤ s ∨ s + len l ≤ d) →
  ∃ m', memcpy d s (len l) m = Ok (d, m') ∧ seg m' d l ∧ same_outside m m' d (len l).
Proof.
  intros Hs Hl Hm Hdis. destruct (copy_run m d s l 0) as (m' & Hrun & H1 & H2); rewrite ?Z.add_0_r in *; [done|done|done|lia|].
  exists m'. split_and!; [|done|done]. unfold memcpy. by run Hrun.
Qed.

(** ** Archives *)

(** A file of an archive: its name, the digits of its size field after the
    first one, its contents. *)
Record file := File { f_name : list Z; f_digits : list Z; f_data : list Z }.

Record entry_at (m : cmem) (p : Z) (f : file) : Prop := {
  ea_name : str_at m (p + off_name) (f_name f);
  ea_size : ∃ c, str_at m (p + off_size) (c :: f_digits f);
  ea_octal : Forall octal (f_digits f) ∧ len (f_digits f) ≤ 20 ∧ oct_value (f_digits f) = len (f_data f);
  ea_signature : seg m (p + off_signature) ustar;
  ea_data : seg m (p + USTAR_BLOCK_SIZE) (f_data f) ∧ Forall (λ c, 0 ≤ c < 256) (f_data f);
}.

(** Header and contents, in blocks. *)
Definition blocks (f : file) : Z := (len (f_data f) + 511) / 512 + 1.

Fixpoint archive_at (m : cmem) (rd : initrd) (block : Z) (fs : list file) : Prop :=
  match fs with
  | [] => True
  | f :: fs' =>
      512 * block ≤ initrd_size rd ∧ entry_at m (initrd_buf rd + 512 * block) f ∧
      archive_at m rd (block + blocks f) fs'
  end.
Definition total (fs : list file) : Z := foldr (λ f n, blocks f + n) 0 fs.

(** Where the files end: past the image, or at a block without signature. *)
Definition archive_end (m : cmem) (rd : initrd) (block : Z) : Prop :=
  initrd_size rd < 512 * block ∨ m !! (initrd_buf rd + 512 * block + off_signature) = Some 0.

(** The image lies in the address space. *)
Definition placed (rd : initrd) : Prop :=
  0 ≤ initrd_buf rd ∧ 0 ≤ initrd_size rd < 2 ^ 62 ∧ initrd_buf rd + initrd_size rd + 2 ^ 62 < 2 ^ 64.

Lemma blocks_pos f : 1 ≤ blocks f.
Proof. unfold blocks. pose proof (len_pos (f_data f)). pose proof (Z.div_pos (len (f_data f) + 511) 512). lia. Qed.

Lemma entry_size_run m p f :
  0 ≤ p → p + 2 ^ 61 < 2 ^ 64 → entry_at m p f →
  oct_to_dec (p + off_size) m = Ok (len (f_data f), m) ∧ len (f_data f) < 2 ^ 60.
Proof.
  intros Hp Hend [_ [c Hc] (Ho & Hl & Hv) _ _]. unfold off_size in *. split.
  - rewrite <- Hv. apply (oct_to_dec_run m _ c (f_digits f)); unfold is_u64; try done; lia.
  - rewrite <- Hv. pose proof (oct_value_range _ Ho) as [_ Hr]. apply Z.lt_le_trans with (1 := Hr).
    change (2 ^ 60) with (8 ^ 20). apply Z.pow_le_mono_r; lia.
Qed.

(** Looking at one entry. *)
Lemma find_entry_step fuel rd m path name f block :
  placed rd → 0 ≤ block → 512 * block ≤ initrd_size rd → str_at m path name →
  entry_at m (initrd_buf rd + 512 * block) f →
  find_entry (S fuel) rd path block m =
    if decide (f_name f = name) then Ok (Some block, m) else find_entry fuel rd path (block + blocks f) m.
Proof.
  intros (Hb & Hs & Hend) Hblk Hin Hpath He. pose proof (blocks_pos f). cbn [find_entry]. unfold USTAR_BLOCK_SIZE.
  rewrite (u64_small (block * 512)) by lia. rewrite (u64_small (initrd_buf rd + block * 512)) by lia.
  rewrite (u64_small (initrd_buf rd + initrd_size rd)) by lia. replace (block * 512) with (512 * block) by lia.
  set (p := initrd_buf rd + 512 * block) in *. destruct (Z.ltb_spec (initrd_buf rd + initrd_size rd) p); [lia|].
  destruct (entry_size_run m p f ltac:(lia) ltac:(lia) He) as [Hsize Hbound]. pose proof (len_pos (f_data f)).
  destruct He as [Hname _ _ Hsig _]. run (memcmp_literal_run m (p + off_signature) ustar Hsig). cbn [Z.eqb negb].
  run (strcmp_run m (p + off_name) path _ _ Hname Hpath).
  pose proof (cmp_zero (f_name f) name (proj1 Hname) (proj1 Hpath)) as Hcmp.
  destruct (Z.eqb_spec (cmp (f_name f) name) 0) as [Hz|Hz]; case_decide; try tauto. run Hsize.
  rewrite (u64_small (len _ + 512 - 1)) by lia. replace (len (f_data f) + 512 - 1) with (len (f_data f) + 511) by lia.
  assert (0 ≤ (len (f_data f) + 511) / 512 ≤ len (f_data f) + 511) by (Z.to_euclidean_division_equations; lia).
  unfold blocks in *. rewrite (u64_small (block + _)) by lia. rewrite u64_small by lia. by rewrite Z.add_assoc.
Qed.

Lemma find_entry_run fuel rd m path name fs rest block :
  placed rd → 0 ≤ block → str_at m path name → archive_at m rd block (fs ++ rest) → name ∉ f_name <$> fs →
  find_entry (length fs + fuel) rd path block m = find_entry fuel rd path (block + total fs) m.
Proof.
  intros Hrd Hb Hpath. revert block Hb. induction fs as [|f fs IH]; intros block Hb Har Hnot; cbn [total foldr length Nat.add].
  { by rewrite Z.add_0_r. }
  destruct Har as (Hin & He & Har). pose proof (blocks_pos f).
  rewrite (find_entry_step (length fs + fuel) rd m path name f) by done. rewrite decide_False by set_solver.
  rewrite IH by (done || lia || set_solver). f_equal. unfold total. lia.
Qed.

Lemma archive_app m rd block fs rest :
  archive_at m rd block (fs ++ rest) → archive_at m rd (block + total fs) rest.
Proof.
  revert block. induction fs as [|f fs IH]; intros block; cbn [app total foldr]; [by rewrite Z.add_0_r|].
  intros (_ & _ & Har). rewrite Z.add_assoc. by apply IH.
Qed.

Lemma total_length fs : Z.of_nat (length fs) ≤ total fs.
Proof.
  induction fs as [|f fs IH]; [done|]. pose proof (blocks_pos f).
  change (total (f :: fs)) with (blocks f + total fs). cbn [length]. lia.
Qed.

(** Enough iterations for the entries that are looked at. *)
Lemma iterations m rd fs f :
  0 ≤ initrd_size rd → archive_at m rd 0 (fs ++ [f]) → (length fs < Z.to_nat (initrd_size rd / 512) + 2)%nat.
Proof.
  intros Hs Har. apply archive_app in Har as (Hin & _). pose proof (total_length fs).
  assert (total fs ≤ initrd_size rd / 512) by (apply Z.div_le_lower_bound; lia). lia.
Qed.

Lemma archive_prefix m rd block fs rest : archive_at m rd block (fs ++ rest) → archive_at m rd block fs.
Proof. revert block. induction fs as [|f fs IH]; intros block; cbn; [done|]. intros (? & ? & ?). auto. Qed.

Lemma total_app fs rest : total (fs ++ rest) = total fs + total rest.
Proof. induction fs as [|f fs IH]; [done|]. change (total ((f :: fs) ++ rest)) with (blocks f + total (fs ++ rest)). rewrite IH. unfold total. cbn. lia. Qed.

Lemma total_bound m rd fs : placed rd → archive_at m rd 0 fs → 0 ≤ 512 * total fs ≤ initrd_size rd + 2 ^ 61.
Proof.
  intros (Hb & Hs & Hend) Har. pose proof (total_length fs). split; [lia|].
  destruct fs as [|f fs _] using rev_ind; [cbn; lia|]. apply archive_app in Har as (Hin & He & _). rewrite Z.add_0_l in *.
  pose proof (total_length fs).
  destruct (entry_size_run m (initrd_buf rd + 512 * total fs) f ltac:(lia) ltac:(lia) He) as [_ Hbound].
  rewrite total_app. change (total [f]) with (blocks f + 0). unfold blocks. Z.to_euclidean_division_equations. lia.
Qed.

(** The search, with all of its iterations. *)
Lemma initrd_find rd m path name fs f :
  placed rd → str_at m path name → name ∉ f_name <$> fs → archive_at m rd 0 (fs ++ [f]) → f_name f = name →
  find_entry (Z.to_nat (initrd_size rd / 512) + 2) rd path 0 m = Ok (Some (total fs), m).
Proof.
  intros Hrd Hpath Hnot Har Hf. pose proof (iterations m rd fs f ltac:(apply Hrd) Har).
  replace (Z.to_nat (initrd_size rd / 512) + 2)%nat
    with (length fs + S (Z.to_nat (initrd_size rd / 512) + 1 - length fs))%nat by lia.
  rewrite (find_entry_run _ rd m path name fs [f]) by done.
  apply archive_app in Har as (Hin & He & _). pose proof (total_length fs).
  rewrite (find_entry_step _ rd m path name f) by (done || lia). by rewrite decide_True.
Qed.

Lemma initrd_find_none rd m path name fs :
  placed rd → str_at m path name → name ∉ f_name <$> fs → archive_at m rd 0 fs → archive_end m rd (total fs) →
  find_entry (Z.to_nat (initrd_size rd / 512) + 2) rd path 0 m = Ok (None, m).
Proof.
  intros Hrd Hpath Hnot Har Hstop. pose proof (total_bound m rd fs Hrd Har) as Ht. destruct Hrd as (Hb & Hs & Hend).
  assert (length fs < Z.to_nat (initrd_size rd / 512) + 2)%nat as Hlen.
  { destruct fs as [|f fs _] using rev_ind; [cbn; lia|].
    pose proof (archive_app _ _ _ _ _ Har) as (Hin & _). rewrite Z.add_0_l in Hin. pose proof (total_length fs).
    assert (total fs ≤ initrd_size rd / 512) by (apply Z.div_le_lower_bound; lia). rewrite length_app. cbn. lia. }
  replace (Z.to_nat (initrd_size rd / 512) + 2)%nat
    with (length fs + S (Z.to_nat (initrd_size rd / 512) + 1 - length fs))%nat by lia.
  rewrite (find_entry_run _ rd m path name fs []); [|done|done|done|by rewrite app_nil_r|done].
  cbn [find_entry]. unfold USTAR_BLOCK_SIZE. rewrite Z.add_0_l. rewrite (u64_small (total fs * 512)) by lia.
  rewrite (u64_small (initrd_buf rd + total fs * 512)) by lia. rewrite (u64_small (initrd_buf rd + initrd_size rd)) by lia.
  destruct (Z.ltb_spec (initrd_buf rd + initrd_size rd) (initrd_buf rd + total fs * 512)); [done|].
  destruct Hstop as [|Hz]; [lia|]. replace (512 * total fs) with (total fs * 512) in Hz by lia.
  unfold ustar. cbn [memcmp_literal]. erewrite bind_run; [|run (ld_run _ _ _ Hz); reflexivity]. done.
Qed.

(** Reading from an archive: [initrd_read_file] returns the size of the
    first file with the name and leaves its contents, and nothing else, at the
    destination; when no file has the name it returns 0 and changes nothing.
    It stops on every archive. *)
Theorem initrd_read_file_spec (rd : initrd) (m : cmem) (path dst : Z) (name : list Z) (fs : list file) :
  placed rd → str_at m path name → name ∉ f_name <$> fs →
  (archive_at m rd 0 fs → archive_end m rd (total fs) → initrd_read_file rd path dst m = Ok (0, m)) ∧
  (∀ f rest, f_name f = name → archive_at m rd 0 (fs ++ f :: rest) → mapped m dst (len (f_data f)) →
     (let data := initrd_buf rd + 512 * (total fs + 1) in
      dst + len (f_data f) ≤ data ∨ data + len (f_data f) ≤ dst) →
     ∃ m', initrd_read_file rd path dst m = Ok (len (f_data f), m') ∧ seg m' dst (f_data f) ∧
       same_outside m m' dst (len (f_data f))).
Proof.
  intros Hrd Hpath Hnot. unfold initrd_read_file, USTAR_BLOCK_SIZE. split.
  - intros Har Hstop. by run (initrd_find_none rd m path name fs Hrd Hpath Hnot Har Hstop).
  - intros f rest Hf Har Hdst Hdis.
    assert (archive_at m rd 0 (fs ++ [f])) as Har1 by (apply (archive_prefix m rd 0 (fs ++ [f]) rest); by rewrite <- app_assoc).
    run (initrd_find rd m path name fs f Hrd Hpath Hnot Har1 Hf).
    apply archive_app in Har as (Hin & He & _). rewrite Z.add_0_l in Hin, He. destruct Hrd as (Hb & Hs & Hend).
    pose proof (total_length fs).
    destruct (entry_size_run m (initrd_buf rd + 512 * total fs) f ltac:(lia) ltac:(lia) He) as [Hsize _]. destruct He as [_ _ _ _ [Hdata Hbytes]].
    rewrite (u64_small (total fs * 512)) by lia. rewrite (u64_small (initrd_buf rd + total fs * 512)) by lia.
    replace (total fs * 512) with (512 * total fs) by lia. run Hsize.
    rewrite (u64_small (total fs + 1)) by lia. rewrite (u64_small ((total fs + 1) * 512)) by lia.
    rewrite (u64_small (initrd_buf rd + _)) by lia. unfold USTAR_BLOCK_SIZE in Hdata.
    replace (initrd_buf rd + 512 * total fs + 512) with (initrd_buf rd + (total fs + 1) * 512) in Hdata by lia.
    destruct (memcpy_run m dst _ _ Hdata Hbytes Hdst) as (m' & Hrun & Hseg & Ho); [lia|].
    exists m'. split_and!; [by run Hrun|done|done].
Qed.

(** ** A small archive: the file "a" with the contents "hi" *)
Fixpoint assoc (k : Z) (l : list (Z * Z)) : option Z :=
  match l with [] => None | (j, b) :: l' => if j =? k then Some b else assoc k l' end.

Lemma lookup_assoc l k : (list_to_map l : cmem) !! k = assoc k l.
Proof.
  induction l as [|[j b] l IH]; cbn; [apply lookup_empty|]. destruct (Z.eqb_spec j k) as [->|Hne].
  - by rewrite lookup_insert_eq.
  - by rewrite lookup_insert_ne.
Qed.

Definition bytes_at (base : Z) (l : list Z) : list (Z * Z) := zip (seqZ base (len l)) l.
Definition demo_file : file := File [97] [48; 48; 48; 48; 48; 48; 48; 48; 48; 50] [104; 105].
(** The bytes of the image that are read. *)
Definition demo_ramdisk : cmem := list_to_map (
  bytes_at 0x10000 [97; 0] ++ bytes_at (0x10000 + off_size) (48 :: f_digits demo_file ++ [0]) ++
  bytes_at (0x10000 + off_signature) ustar ++ bytes_at 0x10200 [104; 105] ++ bytes_at (0x10400 + off_signature) [0] ++
  bytes_at 0x100 [97; 0; 98; 0] ++ bytes_at 0x200 [1; 2; 3]).
Definition demo_rd : initrd := initrd_init 0x10000 1536.

(** Bytes of a concrete memory. *)
Ltac byte_solve := unfold demo_ramdisk; rewrite lookup_assoc; vm_compute; reflexivity.
Ltac seg_solve := cbn [seg app f_data f_digits demo_file ustar]; repeat (split; [byte_solve|]); exact I.

Lemma demo_entry : entry_at demo_ramdisk 0x10000 demo_file.
Proof.
  assert (Forall octal (f_digits demo_file)) as Hoct by (repeat (apply Forall_cons; split; [unfold octal; lia|]); by apply Forall_nil).
  split.
  - split; [apply Forall_cons; split; [lia|by apply Forall_nil]|]. seg_solve.
  - exists 48. split; [repeat (apply Forall_cons; split; [lia|]); by apply Forall_nil|]. seg_solve.
  - split_and!; [exact Hoct|done|reflexivity].
  - seg_solve.
  - split; [seg_solve|]. repeat (apply Forall_cons; split; [lia|]); by apply Forall_nil.
Qed.

Lemma demo_path c p : (p, c) = (0x100, 97) ∨ (p, c) = (0x102, 98) → str_at demo_ramdisk p [c].
Proof.
  intros [[= -> ->]|[= -> ->]]; (split; [apply Forall_cons; split; [lia|by apply Forall_nil]|]); seg_solve.
Qed.

Lemma initrd_read_file_spec_witness :
  (∃ m', initrd_read_file demo_rd 0x100 0x200 demo_ramdisk = Ok (2, m') ∧ seg m' 0x200 [104; 105]) ∧
  initrd_read_file demo_rd 0x102 0x200 demo_ramdisk = Ok (0, demo_ramdisk).
Proof.
  assert (placed demo_rd) as Hrd by (unfold placed; cbn; lia).
  split.
  - destruct (proj2 (initrd_read_file_spec demo_rd demo_ramdisk 0x100 0x200 [97] [] Hrd
      (demo_path 97 0x100 (or_introl eq_refl)) (not_elem_of_nil _)) demo_file [] eq_refl) as (m' & Hrun & Hseg & _).
    + split_and!; [cbn; lia|exact demo_entry|exact I].
    + intros i Hi. unfold len in Hi. cbn in Hi. assert (i = 0 ∨ i = 1) as [-> | ->] by lia; eexists; byte_solve.
    + left. vm_compute. discriminate.
    + exists m'. split; [exact Hrun|exact Hseg].
  - apply (initrd_read_file_spec demo_rd demo_ramdisk 0x102 0x200 [98] [demo_file] Hrd (demo_path 98 0x102 (or_intror eq_refl))).
    + cbn. intros [=]%list_elem_of_singleton.
    + split_and!; [cbn; lia|exact demo_entry|exact I].
    + right. vm_compute. reflexivity.
Defined.
