(* ===== verification/Vga.v ===== *)
(** * The text console (io/vga.cpp)

    The video memory is an array of two bytes per character cell; a store or
    load outside of it is a fault. Writes to the ports of the controller are
    recorded. [vga_init] reads two registers, whose values are arguments. *)
From S2P Require Import Prelude.
From stdpp Require Import base numbers option list.
#[local] Open Scope Z_scope.

Definition WIDTH : Z := 80.
Definition HEIGHT : Z := 25.

Record vga := Vga { vx : Z; vy : Z; vram : list Z; outs : list (Z * Z) }.
Definition set_pos (x y : Z) (s : vga) : vga := Vga x y (vram s) (outs s).
Definition set_vram (v : list Z) (s : vga) : vga := Vga (vx s) (vy s) v (outs s).

Definition load_byte (i : Z) : M vga Z := s ← get_st; lift (access (vram s !! Z.to_nat i)).
Definition store_byte (i b : Z) : M vga () :=
  load_byte i;; modify (λ s, set_vram (<[Z.to_nat i := u8 b]> (vram s)) s).
Definition outb (port val : Z) : M vga () := modify (λ s, Vga (vx s) (vy s) (vram s) (outs s ++ [(port, u8 val)])).

Definition copy_line (y1 y2 : Z) : M vga () :=
  for_each (λ i, b ← load_byte (y2 * WIDTH * 2 + i); store_byte (y1 * WIDTH * 2 + i) b) (seqZ 0 (WIDTH * 2)).
Definition clear_bytes (from n : Z) : M vga () := for_each (λ i, store_byte (from + i) 0) (seqZ 0 n).

Definition vga_init (r0A r0B : Z) : M vga () :=
  modify (set_pos 0 0);;
  outb 0x3D4 0x0A;; outb 0x3D5 (Z.lor (Z.land r0A 0xC0) 0);;
  outb 0x3D4 0x0B;; outb 0x3D5 (Z.lor (Z.land r0B 0xE0) 15);;
  clear_bytes 0 (WIDTH * 2 * HEIGHT).

(** [y++] with the scrolling that follows. *)
Definition next_line : M vga () :=
  s ← get_st;
  let y := vy s + 1 in
  if HEIGHT <=? y then
    for_each (λ j, copy_line j (j + 1)) (seqZ 0 (HEIGHT - 1));;
    clear_bytes (WIDTH * 2 * (HEIGHT - 1)) 0xA0;;
    modify (set_pos 0 (HEIGHT - 1))
  else modify (set_pos 0 y).

(** A character that is neither a line feed nor a tab. *)
Definition put_visible (c : Z) : M vga () :=
  s ← get_st;
  store_byte ((vy s * WIDTH + vx s) * 2) c;;
  store_byte ((vy s * WIDTH + vx s) * 2 + 1) 0x7;;
  (if WIDTH <=? vx s + 1 then next_line else modify (set_pos (vx s + 1) (vy s)));;
  s ← get_st;
  let pos := u16 (vy s * WIDTH + vx s) in
  outb 0x3D4 0x0F;; outb 0x3D5 (Z.land pos 0xFF);;
  outb 0x3D4 0x0E;; outb 0x3D5 (Z.land (Z.shiftr pos 8) 0xFF).

(** A tab calls [vga_putch] with eight spaces. *)
Definition vga_putch (c : Z) : M vga () :=
  if c =? 10 then next_line
  else if c =? 9 then for_each (λ _, put_visible 32) (seqZ 0 8)
  else put_visible c.

(** ** The specification: a terminal

    Rows of cells, a cell being a character with its colours. *)
Record terminal := Terminal { tx : Z; ty : Z; rows : list Z }.

Definition scrolled (v : list Z) : list Z := drop 160 v ++ replicate 160 0.
Definition term_newline (t : terminal) : terminal :=
  if 24 <=? ty t then Terminal 0 24 (scrolled (rows t)) else Terminal 0 (ty t + 1) (rows t).
Definition term_visible (c : Z) (t : terminal) : terminal :=
  let i := Z.to_nat ((ty t * 80 + tx t) * 2) in
  let t' := Terminal (tx t) (ty t) (<[S i := 7]> (<[i := u8 c]> (rows t))) in
  if tx t <? 79 then Terminal (tx t + 1) (ty t) (rows t') else term_newline t'.
Fixpoint times {A} (n : nat) (f : A → A) (x : A) : A := match n with O => x | S n' => times n' f (f x) end.
Definition term_put (c : Z) (t : terminal) : terminal :=
  if c =? 10 then term_newline t else if c =? 9 then times 8 (term_visible 32) t else term_visible c t.

Definition view (s : vga) : terminal := Terminal (vx s) (vy s) (vram s).
Definition vga_ok (s : vga) : Prop := 0 ≤ vx s < 80 ∧ 0 ≤ vy s < 25 ∧ length (vram s) = 4000%nat ∧ Forall (λ b, 0 ≤ b < 256) (vram s).

(** ** Memory *)
Lemma store_byte_run s i b :
  0 ≤ i < Z.of_nat (length (vram s)) → store_byte i b s = Ok (tt, set_vram (<[Z.to_nat i := u8 b]> (vram s)) s).
Proof.
  intros Hi. assert (is_Some (vram s !! Z.to_nat i)) as [x Hx] by (apply lookup_lt_is_Some; lia).
  unfold store_byte, load_byte. cbv [mbind M_bind get_st lift access modify]. by rewrite Hx.
Qed.

Lemma load_byte_run s i b : vram s !! Z.to_nat i = Some b → load_byte i s = Ok (b, s).
Proof. intros Hb. unfold load_byte. cbv [mbind M_bind get_st lift access]. by rewrite Hb. Qed.

(** Cell by cell, [t] bytes have moved up by [d]. *)
Definition shifted (d t : nat) (v v' : list Z) : Prop :=
  length v' = length v ∧ ∀ k, v' !! k = if decide (k < t)%nat then v !! (k + d)%nat else v !! k.

Lemma shifted_step d t v v' b :
  shifted d t v v' → v !! (t + d)%nat = Some b → shifted d (S t) v (<[t := b]> v').
Proof.
  intros [Hl Hk] Hb. pose proof (lookup_lt_Some _ _ _ Hb). split; [by rewrite length_insert|]. intros k.
  destruct (decide (k = t)) as [->|Hne].
  - rewrite list_lookup_insert_eq by lia. rewrite decide_True by lia. done.
  - rewrite list_lookup_insert_ne by done. rewrite Hk. do 2 case_decide; try done; lia.
Qed.

Lemma copy_line_run s v j :
  0 ≤ j < 24 → length v = 4000%nat → Forall (λ b, 0 ≤ b < 256) v → shifted 160 (Z.to_nat (j * 160)) v (vram s) →
  ∃ s', copy_line j (j + 1) s = Ok (tt, s') ∧ shifted 160 (Z.to_nat ((j + 1) * 160)) v (vram s') ∧
    vx s' = vx s ∧ vy s' = vy s ∧ outs s' = outs s.
Proof.
  intros Hj Hlen Hb. unfold copy_line, WIDTH.
  assert (∀ n k s, Z.of_nat n = 160 - k → 0 ≤ k → shifted 160 (Z.to_nat (j * 160 + k)) v (vram s) →
    ∃ s', for_each (λ i, b ← load_byte ((j + 1) * 80 * 2 + i); store_byte (j * 80 * 2 + i) b) (seqZ k (Z.of_nat n)) s = Ok (tt, s') ∧
      shifted 160 (Z.to_nat ((j + 1) * 160)) v (vram s') ∧ vx s' = vx s ∧ vy s' = vy s ∧ outs s' = outs s) as Hloop.
  { induction n as [|n IH]; intros k s' Hn Hk Hs.
    - exists s'. replace (j * 160 + k) with ((j + 1) * 160) in Hs by lia. split; [reflexivity|]. split; [exact Hs|]. done.
    - rewrite seqZ_cons by lia. cbn [for_each].
      destruct (lookup_lt_is_Some_2 v (Z.to_nat (j * 160 + k) + 160)) as [b Hbv]; [lia|].
      assert (vram s' !! Z.to_nat ((j + 1) * 80 * 2 + k) = Some b) as Hld.
      { destruct Hs as [_ Hs]. rewrite Hs, decide_False by lia. rewrite <- Hbv. f_equal. lia. }
      assert (0 ≤ b < 256) as Hbb by exact (Forall_lookup_1 _ _ _ _ Hb Hbv).
      erewrite bind_run; [|run (load_byte_run _ _ _ Hld); apply store_byte_run; destruct Hs as [Hl _]; lia].
      replace (u8 b) with b by (unfold u8; rewrite Z.mod_small; lia).
      replace (Z.pred (Z.of_nat (S n))) with (Z.of_nat n) by lia.
      destruct (IH (Z.succ k) (set_vram (<[Z.to_nat (j * 80 * 2 + k) := b]> (vram s')) s')) as (s1 & Hrun & H1 & H2); [lia|lia| |].
      + cbn [vram set_vram]. replace (Z.to_nat (j * 160 + Z.succ k)) with (S (Z.to_nat (j * 160 + k))) by lia.
        replace (Z.to_nat (j * 80 * 2 + k)) with (Z.to_nat (j * 160 + k)) by lia. by apply shifted_step.
      + exists s1. rewrite Hrun. split; [reflexivity|]. split; [exact H1|exact H2]. }
  intros Hs. apply (Hloop 160%nat 0 s); [done|done|]. by rewrite Z.add_0_r.
Qed.

Lemma scroll_loop s n j :
  Z.of_nat n = 24 - j → 0 ≤ j → ∀ v, length v = 4000%nat → Forall (λ b, 0 ≤ b < 256) v →
  shifted 160 (Z.to_nat (j * 160)) v (vram s) →
  ∃ s', for_each (λ j, copy_line j (j + 1)) (seqZ j (Z.of_nat n)) s = Ok (tt, s') ∧ shifted 160 (24 * 160) v (vram s') ∧
    vx s' = vx s ∧ vy s' = vy s ∧ outs s' = outs s.
Proof.
  intros Hn Hj v Hlen Hb. revert s j Hn Hj. induction n as [|n IH]; intros s j Hn Hj Hs.
  - exists s. replace (Z.to_nat (j * 160)) with (24 * 160)%nat in Hs by lia. split; [reflexivity|]. split; [exact Hs|]. done.
  - rewrite seqZ_cons by lia. cbn [for_each]. destruct (copy_line_run s v j) as (s1 & H1 & Hs1 & Hx & Hy & Ho); [lia|done..|].
    run H1. replace (Z.pred (Z.of_nat (S n))) with (Z.of_nat n) by lia.
    destruct (IH s1 (Z.succ j)) as (s2 & H2 & Hs2 & Hx2 & Hy2 & Ho2); [lia|lia|exact Hs1|].
    exists s2. rewrite H2, Hx2, Hy2, Ho2. done.
Qed.

Lemma clear_bytes_run s from n :
  0 ≤ from → 0 ≤ n → from + n ≤ Z.of_nat (length (vram s)) →
  ∃ s', clear_bytes from n s = Ok (tt, s') ∧ length (vram s') = length (vram s) ∧
    (∀ k, vram s' !! k = if decide (Z.to_nat from ≤ k < Z.to_nat (from + n))%nat then Some 0 else vram s !! k) ∧
    vx s' = vx s ∧ vy s' = vy s ∧ outs s' = outs s.
Proof.
  intros Hf. revert n. apply (natlike_ind (λ n, from + n ≤ _ → _)).
  - intros _. exists s. split; [reflexivity|]. split; [done|]. split; [|done].
    intros k. rewrite decide_False by lia. done.
  - intros n Hn IH Hlen. destruct IH as (s1 & H1 & Hl1 & Hk & Hx & Hy & Ho); [lia|].
    exists (set_vram (<[Z.to_nat (from + n) := 0]> (vram s1)) s1). split.
    { unfold clear_bytes in *. replace (Z.succ n) with (n + 1) by lia. rewrite seqZ_app by lia. rewrite for_each_app.
      run H1. change (seqZ (0 + n) 1) with [0 + n]. cbn [for_each].
      replace (from + (0 + n)) with (from + n) by lia. erewrite bind_run; [|apply store_byte_run; lia]. done. }
    cbn [vram set_vram vx vy outs]. rewrite length_insert. split; [done|]. split; [|done]. intros k.
    destruct (decide (k = Z.to_nat (from + n))) as [->|Hne].
    + rewrite list_lookup_insert_eq by lia. rewrite decide_True by lia. done.
    + rewrite list_lookup_insert_ne by done. rewrite Hk. do 2 case_decide; try done; lia.
Qed.

(** ** The lines *)
Lemma scrolled_ok v : length v = 4000%nat → Forall (λ b, 0 ≤ b < 256) v →
  length (scrolled v) = 4000%nat ∧ Forall (λ b, 0 ≤ b < 256) (scrolled v).
Proof.
  intros Hl Hb. unfold scrolled. rewrite length_app, length_drop, length_replicate. split; [lia|].
  apply Forall_app. split; [by apply Forall_drop|]. apply Forall_replicate. lia.
Qed.

Lemma scrolled_shift v v1 v2 :
  length v = 4000%nat → shifted 160 (24 * 160) v v1 → length v2 = length v1 →
  (∀ k, v2 !! k = if decide (3840 ≤ k < 4000)%nat then Some 0 else v1 !! k) → v2 = scrolled v.
Proof.
  intros Hl [Hl1 Hs] Hl2 Hk. apply list_eq. intros k. rewrite Hk. unfold scrolled.
  destruct (lt_dec k (24 * 160)) as [Hlt|Hlt].
  - rewrite decide_False by lia. rewrite Hs, decide_True by lia.
    rewrite lookup_app_l by (rewrite length_drop; lia). rewrite lookup_drop. f_equal. lia.
  - rewrite lookup_app_r by (rewrite length_drop; lia). rewrite length_drop, Hl.
    case_decide.
    + symmetry. apply lookup_replicate_2. lia.
    + rewrite (lookup_ge_None_2 v1) by lia. symmetry. apply lookup_ge_None_2. rewrite length_replicate. lia.
Qed.

(** What a routine of the console does to the terminal. *)
Definition does (m : M vga ()) (f : terminal → terminal) : Prop :=
  ∀ s, vga_ok s → ∃ s', m s = Ok (tt, s') ∧ vga_ok s' ∧ view s' = f (view s).

Lemma does_seq m1 m2 f1 f2 : does m1 f1 → does m2 f2 → does (m1;; m2) (λ t, f2 (f1 t)).
Proof.
  intros H1 H2 s Hs. destruct (H1 s Hs) as (s1 & E1 & Hs1 & V1), (H2 s1 Hs1) as (s2 & E2 & Hs2 & V2).
  exists s2. run E1. by rewrite E2, V2, V1.
Qed.

Lemma does_times m f l : does m f → does (for_each (λ _ : Z, m) l) (times (length l) f).
Proof.
  intros Hm. induction l as [|x l IH].
  - intros s Hs. exists s. split; [reflexivity|]. done.
  - exact (does_seq _ _ _ _ Hm IH).
Qed.

Lemma next_line_run : does next_line term_newline.
Proof.
  intros s (Hx & Hy & Hl & Hb). unfold next_line, term_newline, HEIGHT, WIDTH. cbn [ty view].
  cbv [mbind M_bind get_st].
  destruct (Z.leb_spec 25 (vy s + 1)), (Z.leb_spec 24 (vy s)); [|lia|lia|].
  - destruct (scroll_loop s 24 0) with (v := vram s) as (s1 & H1 & Hs1 & _ & _ & Ho1); [lia|lia|done|done|by split|].
    change (25 - 1) with (Z.of_nat 24). rewrite H1.
    destruct (clear_bytes_run s1 3840 160) as (s2 & H2 & Hl2 & Hk & _ & _ & Ho2); [lia|lia|destruct Hs1; lia|].
    change (80 * 2 * Z.of_nat 24) with 3840. change 0xA0 with 160. rewrite H2.
    assert (vram s2 = scrolled (vram s)) as Hv by (by eapply scrolled_shift).
    destruct (scrolled_ok (vram s)) as [? ?]; [done..|].
    exists (set_pos 0 24 s2). split; [reflexivity|]. unfold vga_ok, view. cbn. rewrite Hv. split; [|done]. split_and!; try lia; done.
  - exists (set_pos 0 (vy s + 1) s). split; [reflexivity|]. unfold vga_ok, view. cbn. split; [|done]. split_and!; try lia; done.
Qed.

Lemma vga_ok_store s i b : vga_ok s → vga_ok (set_vram (<[i := u8 b]> (vram s)) s).
Proof.
  intros (Hx & Hy & Hl & Hb). unfold vga_ok. cbn. rewrite length_insert. split_and!; try done; try lia.
  apply Forall_insert; [done|]. unfold u8. apply Z.mod_pos_bound. lia.
Qed.

Lemma put_visible_run c : does (put_visible c) (term_visible c).
Proof.
  intros s Hs. unfold put_visible. pose proof Hs as (Hx & Hy & Hl & Hb).
  erewrite bind_run; [|reflexivity]. unfold WIDTH.
  erewrite bind_run; [|apply store_byte_run; lia].
  set (i := (vy s * 80 + vx s) * 2). set (s1 := set_vram _ s).
  assert (vga_ok s1) as Hs1 by (by apply vga_ok_store).
  erewrite bind_run; [|apply store_byte_run; unfold s1; cbn; rewrite length_insert; lia].
  set (s2 := set_vram _ s1). assert (vga_ok s2) as Hs2 by (by apply vga_ok_store).
  assert (rows (view s2) = <[S (Z.to_nat i) := 7]> (<[Z.to_nat i := u8 c]> (vram s))) as Hv.
  { cbn. change (u8 7) with 7. f_equal. lia. }
  assert (∃ s3, (if 80 <=? vx s + 1 then next_line else modify (set_pos (vx s + 1) (vy s))) s2 = Ok (tt, s3) ∧ vga_ok s3 ∧
    view s3 = term_visible c (view s)) as (s3 & H3 & Hs3 & V3).
  { unfold term_visible. cbn [tx ty rows view]. fold i. rewrite <- Hv.
    destruct (Z.leb_spec 80 (vx s + 1)), (Z.ltb_spec (vx s) 79); [lia|exact (next_line_run s2 Hs2)| |lia].
    exists (set_pos (vx s + 1) (vy s) s2). split; [reflexivity|]. split; [|done].
    destruct Hs2 as (? & ? & ? & ?). unfold vga_ok. cbn. split_and!; try done; lia. }
  run H3. eexists (Vga _ _ _ _). split; [reflexivity|]. split; [exact Hs3|]. rewrite <- V3. reflexivity.
Qed.

Lemma vga_putch_run c : does (vga_putch c) (term_put c).
Proof.
  unfold vga_putch, term_put.
  destruct (c =? 10); [apply next_line_run|]. destruct (c =? 9); [|apply put_visible_run].
  exact (does_times _ _ (seqZ 0 8) (put_visible_run 32)).
Qed.

(** The screen after [vga_init]. *)
Definition blank : terminal := Terminal 0 0 (replicate 4000 0).

Lemma vga_init_run r0A r0B s :
  length (vram s) = 4000%nat → ∃ s', vga_init r0A r0B s = Ok (tt, s') ∧ vga_ok s' ∧ view s' = blank.
Proof.
  intros Hl. unfold vga_init. do 5 (erewrite bind_run; [|reflexivity]).
  match goal with |- context [clear_bytes _ _ ?s1] => set (t := s1) end.
  destruct (clear_bytes_run t 0 4000) as (s' & H & Hl' & Hk & Hx & Hy & _); [lia|lia|cbn; lia|].
  assert (vram s' = replicate 4000 0) as Hv.
  { apply list_eq. intros k. rewrite Hk. case_decide.
    - symmetry. apply lookup_replicate_2. lia.
    - rewrite lookup_ge_None_2 by (cbn; lia). symmetry. apply lookup_ge_None_2. rewrite length_replicate. lia. }
  exists s'. split; [exact H|]. unfold vga_ok, view. rewrite Hv, Hx, Hy. split; [|reflexivity].
  split_and!; [cbn; lia..|reflexivity|]. apply Forall_replicate. lia.
Qed.

Lemma putch_string_run str : does (for_each vga_putch str) (λ t, foldl (λ t c, term_put c t) t str).
Proof.
  induction str as [|c str IH].
  - intros s Hs. exists s. split; [reflexivity|]. done.
  - exact (does_seq _ _ _ _ (vga_putch_run c) IH).
Qed.

(** Whatever is printed after [vga_init], the console accesses no byte
    outside of the 80 by 25 cells, its cursor stays on the screen, and what
    is shown is what the terminal shows that starts blank: line feeds and
    full lines move to the next line, the last line scrolls, a tab is eight
    spaces. *)
Theorem vga_console_spec r0A r0B str s :
  length (vram s) = 4000%nat →
  ∃ s', (vga_init r0A r0B;; for_each vga_putch str) s = Ok (tt, s') ∧ vga_ok s' ∧
    view s' = foldl (λ t c, term_put c t) blank str.
Proof.
  intros Hl. destruct (vga_init_run r0A r0B s Hl) as (s1 & H1 & Hs1 & V1).
  destruct (putch_string_run str s1 Hs1) as (s2 & H2 & Hs2 & V2).
  exists s2. run H1. rewrite H2, V2, V1. done.
Qed.

Definition demo_vga : vga := Vga 79 24 (replicate 4000 1) [].

Lemma vga_console_spec_witness :
  ∃ s', (vga_init 0 0;; for_each vga_putch [72; 9; 10; 105]) demo_vga = Ok (tt, s') ∧ vx s' = 1 ∧ vy s' = 1.
Proof.
  destruct (vga_console_spec 0 0 [72; 9; 10; 105] demo_vga) as (s' & H & _ & V); [reflexivity|].
  exists s'. rewrite H. split; [reflexivity|].
  assert (tx (view s') = 1 ∧ ty (view s') = 1) as [Hx Hy] by (rewrite V; split; vm_compute; reflexivity). by split.
Defined.
