(* ===== verification/GenFb.v ===== *)
(** * The frame buffer console (genfb/genfb.cpp)

    The shadow buffer and the frame buffer are lists of bytes; an access past
    the end of either, or of the font, is a fault. The heap that provides the
    shadow buffer and the kernel's page tables, in which the frame buffer is
    mapped, are those of Heap.v; [fb] is the memory of the device. The two
    ways to copy and to fill (the assembly routines, or those of string.cpp
    when they are not linked) go upwards byte by byte and are one function
    here. [genfb_lock] is left out: one processor prints at a time. *)
From S2P Require Import Prelude Vmm Arch Heap Font.
From stdpp Require Import base numbers option list.
#[local] Open Scope Z_scope.

Record video_mode := VideoMode { mode_addr : Z; mode_pitch : Z; mode_width : Z; mode_height : Z; mode_bpp : Z }.

Record genfb := Genfb {
  mode_info : option video_mode;
  vid_back : list Z;
  vid_front : list Z;
  disp_w : Z; disp_h : Z;
  disp_x : Z; disp_y : Z;
  is_working : Z;
  fb_heap : heap;
}.

Definition BG_BYTE_COLOR : Z := 0xF8.
Definition BG_COLOR : Z := 0xF8F8F8F8.
Definition FG_COLOR : Z := 0x38383838.
Definition cache_wc : Z := 2.

Definition set_mode (m : video_mode) (w h : Z) (s : genfb) : genfb :=
  Genfb (Some m) (vid_back s) (vid_front s) w h (disp_x s) (disp_y s) (is_working s) (fb_heap s).
Definition set_buffers (back front : list Z) (s : genfb) : genfb :=
  Genfb (mode_info s) back front (disp_w s) (disp_h s) (disp_x s) (disp_y s) (is_working s) (fb_heap s).
Definition set_cursor (x y : Z) (s : genfb) : genfb :=
  Genfb (mode_info s) (vid_back s) (vid_front s) (disp_w s) (disp_h s) x y (is_working s) (fb_heap s).
Definition set_working (s : genfb) : genfb :=
  Genfb (mode_info s) (vid_back s) (vid_front s) (disp_w s) (disp_h s) (disp_x s) (disp_y s) 1 (fb_heap s).
Definition set_fb_heap (h : heap) (s : genfb) : genfb :=
  Genfb (mode_info s) (vid_back s) (vid_front s) (disp_w s) (disp_h s) (disp_x s) (disp_y s) (is_working s) h.
Definition on_heap {A} (m : M heap A) : M genfb A := zoom fb_heap set_fb_heap m.

(** ** Buffers *)

(** An [int] that is passed as a [size_t]. *)
Definition int_size (n : Z) : Z := u64 (s32 n).

Definition fill (off n b : Z) (buf : list Z) : outcome (list Z) :=
  if off + n <=? Z.of_nat (length buf)
  then Ok (take (Z.to_nat off) buf ++ replicate (Z.to_nat n) b ++ drop (Z.to_nat (off + n)) buf) else Fault.

(** Copying upwards inside of one buffer. *)
Fixpoint copy_within (n : nat) (dst src : Z) (buf : list Z) : outcome (list Z) :=
  match n with
  | O => Ok buf
  | S n' =>
      b ← access (buf !! Z.to_nat src);
      access (buf !! Z.to_nat dst);;
      copy_within n' (dst + 1) (src + 1) (<[Z.to_nat dst := b]> buf)
  end.

(** Copying the first bytes of one buffer over those of another. *)
Definition copy_over (n : Z) (src dst : list Z) : outcome (list Z) :=
  if (n <=? Z.of_nat (length src)) && (n <=? Z.of_nat (length dst))
  then Ok (take (Z.to_nat n) src ++ drop (Z.to_nat n) dst) else Fault.

(** [buf[i] = col], for a [uint32_t*]. *)
Definition store32 (i col : Z) (buf : list Z) : outcome (list Z) :=
  if 4 * i + 4 <=? Z.of_nat (length buf)
  then Ok (list_inserts (Z.to_nat (4 * i)) [u8 col; u8 (Z.shiftr col 8); u8 (Z.shiftr col 16); u8 (Z.shiftr col 24)] buf)
  else Fault.

(** [vid_back[i] = vid_front[i] = col] *)
Definition put_pixel (i col : Z) : M genfb () := λ s,
  front ← store32 i col (vid_front s);
  back ← store32 i col (vid_back s);
  Ok (tt, set_buffers back front s).

(** ** The console *)

Definition genfb_init (mode : option video_mode) : M genfb () :=
  match mode with
  | None => mret tt
  | Some m =>
      if negb (mode_bpp m =? 32) then mret tt
      else
        modify (set_mode m (Z.quot (mode_width m) char_width) (Z.quot (mode_height m) char_height));;
        let bytes := int_size (mode_height m * mode_pitch m) in
        p ← on_heap (kmalloc bytes);
        (* the first byte is stored at the address kmalloc returned *)
        lift (if (p =? 0) && negb (bytes =? 0) then Fault else Ok tt);;
        modify (λ s, set_buffers (replicate (Z.to_nat bytes) BG_BYTE_COLOR) (vid_front s) s);;
        let pages := u64 (bytes + vm_page_size - 1) / vm_page_size in
        on_heap (on_vmm (arch_mm_map_kernel (mode_addr m) (mode_addr m) pages perm_write cache_wc));;
        s ← get_st;
        front ← lift (fill 0 bytes BG_BYTE_COLOR (vid_front s));
        modify (set_buffers (vid_back s) front);;
        modify set_working
  end.

(** The pixels [x] and up of one row of a character. *)
Fixpoint glyph_row (n : nat) (byte x fb_off fg bg : Z) : M genfb () :=
  match n with
  | O => mret tt
  | S n' =>
      let mask := u8 (Z.shiftl 1 (7 - x)) in
      put_pixel fb_off (if has byte mask then fg else bg);;
      glyph_row n' byte (x + 1) (u64 (fb_off + 1)) fg bg
  end.

Fixpoint glyph_rows (n : nat) (m : video_mode) (font_off y fb_off fg bg : Z) : M genfb () :=
  match n with
  | O => mret tt
  | S n' =>
      byte ← lift (access (font !! Z.to_nat (u64 (font_off + y))));
      glyph_row (Z.to_nat char_width) byte 0 fb_off fg bg;;
      glyph_rows n' m font_off (y + 1) (u64 (fb_off + u64 (Z.quot (mode_pitch m) 4))) fg bg
  end.

(** [c] is a [char], which is signed. *)
Definition genfb_putch_internal (c x y fg bg : Z) : M genfb () :=
  s ← get_st;
  m ← lift (access (mode_info s));
  let font_off := u64 (u64 (u64 c * char_height) * char_width) / 8 in
  let fb_off := u64 (Z.quot (s32 (s32 (x * 4) + s32 (y * mode_pitch m))) 4) in
  glyph_rows (Z.to_nat char_height) m font_off 0 fb_off fg bg.

Definition genfb_scroll_up : M genfb () :=
  s ← get_st;
  m ← lift (access (mode_info s));
  let rest := mode_height m - char_height in
  back ← lift (copy_within (Z.to_nat (int_size (mode_pitch m * rest))) 0 (int_size (mode_pitch m * char_height)) (vid_back s));
  back ← lift (fill (int_size (rest * mode_pitch m)) (int_size (char_height * mode_pitch m)) BG_BYTE_COLOR back);
  front ← lift (copy_over (int_size (mode_height m * mode_pitch m)) back (vid_front s));
  modify (set_buffers back front).

(** [disp_x = 0; disp_y++] and the scrolling that follows. *)
Definition genfb_newline : M genfb () :=
  modify (λ s, set_cursor 0 (disp_y s + 1) s);;
  s ← get_st;
  if disp_h s <=? disp_y s then
    genfb_scroll_up;;
    modify (λ s, set_cursor (disp_x s) (disp_h s - 1) s)
  else mret tt.

(** From the label [scroll_screen]. *)
Definition genfb_wrap : M genfb () :=
  s ← get_st; if disp_w s <=? disp_x s then genfb_newline else mret tt.

Definition genfb_putch (c : Z) : M genfb () :=
  s ← get_st;
  if is_working s =? 0 then mret tt
  else if c =? 10 then genfb_newline
  else if c =? 9 then
    modify (λ s, set_cursor (disp_x s + 8) (disp_y s) s);;
    genfb_wrap
  else
    genfb_putch_internal c (disp_x s * char_width) (disp_y s * char_height) FG_COLOR BG_COLOR;;
    modify (λ s, set_cursor (disp_x s + 1) (disp_y s) s);;
    genfb_wrap.

(** ** The specification: a grid of characters *)

(** Cells that were never written, or are blank after scrolling, show the
    background. *)
Record screen := Screen { sx : Z; sy : Z; cells : Z → Z → option Z }.

Section spec.
Context (w h : Z).

Definition screen_scroll (f : Z → Z → option Z) : Z → Z → option Z := λ x y, if y <? h - 1 then f x (y + 1) else None.
Definition screen_newline (t : screen) : screen :=
  if h <=? sy t + 1 then Screen 0 (h - 1) (screen_scroll (cells t)) else Screen 0 (sy t + 1) (cells t).
Definition screen_advance (n : Z) (t : screen) : screen :=
  if w <=? sx t + n then screen_newline t else Screen (sx t + n) (sy t) (cells t).
Definition screen_put (c : Z) (t : screen) : screen :=
  if c =? 10 then screen_newline t
  else if c =? 9 then screen_advance 8 t
  else screen_advance 1 (Screen (sx t) (sy t) (λ x y, if (x =? sx t) && (y =? sy t) then Some c else cells t x y)).

(** Whether the pixel in column [x] and row [y] of a character is drawn. *)
Definition glyph_bit (c x y : Z) : bool :=
  match font !! Z.to_nat (c * 16 + y) with Some b => Z.testbit b (7 - x) | None => false end.

(** The value of the bytes of a pixel. *)
Definition shade (t : screen) (px py : Z) : Z :=
  if (px / 8 <? w) && (py / 16 <? h) then
    match cells t (px / 8) (py / 16) with
    | Some c => if glyph_bit c (px mod 8) (py mod 16) then 0x38 else 0xF8
    | None => 0xF8
    end
  else 0xF8.
End spec.

(** The screen that [genfb_init] leaves. *)
Definition blank_screen (x y : Z) : screen := Screen x y (λ _ _, None).

(** ** Painting words *)

(** The words of a buffer for which [f] has a value now hold it in each of
    their bytes; the others are unchanged. *)
Definition painted (f : Z → option Z) (buf buf' : list Z) : Prop :=
  length buf' = length buf ∧
  ∀ j : nat, (j < length buf)%nat → buf' !! j = match f (Z.of_nat j / 4) with Some v => Some v | None => buf !! j end.

(** First [f], then [g]. *)
Definition over (g f : Z → option Z) : Z → option Z := λ i, match g i with Some v => Some v | None => f i end.

Lemma painted_none buf : painted (λ _, None) buf buf.
Proof. done. Qed.

Lemma painted_trans f g b1 b2 b3 : painted f b1 b2 → painted g b2 b3 → painted (over g f) b1 b3.
Proof.
  intros [L1 H1] [L2 H2]. split; [congruence|]. intros j Hj. rewrite H2 by lia. unfold over.
  destruct (g _); [done|]. by apply H1.
Qed.

Lemma painted_ext f g b1 b2 : (∀ i, 0 ≤ i → 4 * i < Z.of_nat (length b1) → f i = g i) → painted f b1 b2 → painted g b1 b2.
Proof. intros E [L H]. split; [done|]. intros j Hj. rewrite H, E by (done || wrap_lia). done. Qed.

(** The two colours have four equal bytes. *)
Definition colour (lit : bool) : Z := if lit then FG_COLOR else BG_COLOR.
Definition colour_byte (lit : bool) : Z := if lit then 0x38 else 0xF8.

Lemma store32_run i lit buf :
  0 ≤ i → 4 * i + 4 ≤ Z.of_nat (length buf) →
  ∃ buf', store32 i (colour lit) buf = Ok buf' ∧ painted (λ k, if k =? i then Some (colour_byte lit) else None) buf buf'.
Proof.
  intros Hi Hl. unfold store32. rewrite (proj2 (Z.leb_le _ _)) by lia. eexists. split; [done|].
  replace [_; _; _; _] with (replicate 4 (colour_byte lit)) by by destruct lit.
  split; [apply length_inserts|]. intros j Hj.
  destruct (Z.eqb_spec (Z.of_nat j / 4) i) as [<-|Hne].
  - rewrite list_lookup_inserts; [|rewrite length_replicate; wrap_lia|done]. apply lookup_replicate_2. wrap_lia.
  - destruct (decide (j < Z.to_nat (4 * i))%nat); [by apply list_lookup_inserts_lt|].
    apply list_lookup_inserts_ge. rewrite length_replicate. wrap_lia.
Qed.

(** What a drawing routine does to both buffers. *)
Definition paints (m : M genfb ()) (f : Z → option Z) : genfb → Prop := λ s,
  ∃ back front, m s = Ok (tt, set_buffers back front s) ∧ painted f (vid_back s) back ∧ painted f (vid_front s) front.

(** Both buffers hold [n] bytes. *)
Definition sized (n : Z) (s : genfb) : Prop := Z.of_nat (length (vid_back s)) = n ∧ Z.of_nat (length (vid_front s)) = n.

Lemma paints_bind n m1 m2 f g s :
  sized n s → paints m1 f s → (∀ s', sized n s' → mode_info s' = mode_info s → paints m2 g s') → paints (m1;; m2) (over g f) s.
Proof.
  intros [Hb Hf] (b1 & f1 & E1 & P1 & Q1) H2. destruct (H2 (set_buffers b1 f1 s)) as (b2 & f2 & E2 & P2 & Q2); [|done|].
  { destruct P1, Q1. split; cbn; lia. }
  exists b2, f2. run E1. rewrite E2. split; [done|]. cbn in P2, Q2. split; by eapply painted_trans.
Qed.

Lemma paints_ext n m f g s : sized n s → (∀ i, 0 ≤ i → 4 * i < n → f i = g i) → paints m f s → paints m g s.
Proof.
  intros [Hb Hf] E (b & fr & Er & P & Q). exists b, fr. split; [done|].
  split; (eapply painted_ext; [|done]); intros i Hi Hl; apply E; lia.
Qed.

Lemma put_pixel_run n i lit s :
  sized n s → 0 ≤ i → 4 * i + 4 ≤ n → paints (put_pixel i (colour lit)) (λ k, if k =? i then Some (colour_byte lit) else None) s.
Proof.
  intros [Hb Hf] Hi Hl. destruct (store32_run i lit (vid_front s)) as (f' & E1 & P1); [done|lia|].
  destruct (store32_run i lit (vid_back s)) as (b' & E2 & P2); [done|lia|].
  exists b', f'. unfold put_pixel. rewrite E1. cbn. rewrite E2. done.
Qed.

(** Pixels [x] to 7 of a row with the bits of [byte], from word [o] on. *)
Definition row_paint (byte x o : Z) : Z → option Z := λ i,
  if (o <=? i) && (i <? o + (8 - x)) then Some (colour_byte (Z.testbit byte (7 - (x + (i - o))))) else None.

Lemma glyph_row_run n k byte x o s :
  sized n s → Z.of_nat k = 8 - x → 0 ≤ x → 0 ≤ o → 4 * (o + (8 - x)) ≤ n → n < 2 ^ 31 →
  paints (glyph_row k byte x o FG_COLOR BG_COLOR) (row_paint byte x o) s.
Proof.
  revert x o s. induction k as [|k IH]; intros x o s Hs Hk Hx Ho Hl Hn.
  - exists (vid_back s), (vid_front s). split; [by destruct s|]. split; (eapply painted_ext; [|apply painted_none]);
      intros i Hi _; unfold row_paint; destruct (Z.leb_spec o i), (Z.ltb_spec i (o + (8 - x))); done || lia.
  - cbn [glyph_row]. assert (has byte (u8 (Z.shiftl 1 (7 - x))) = Z.testbit byte (7 - x)) as E.
    { rewrite Z.shiftl_mul_pow2, Z.mul_1_l by lia. unfold u8. rewrite Z.mod_small; [apply has_pow2; lia|].
      split; [apply Z.pow_nonneg; lia|apply Z.pow_lt_mono_r; lia]. }
    rewrite E. change (if Z.testbit byte (7 - x) then FG_COLOR else BG_COLOR) with (colour (Z.testbit byte (7 - x))).
    rewrite u64_small by lia.
    eapply (paints_ext n); [done| |eapply (paints_bind n); [done|apply (put_pixel_run n); [done|lia|lia]|intros s' Hs' _; apply IH; try done; lia]].
    intros i Hi _. unfold over, row_paint.
    destruct (Z.leb_spec (o + 1) i), (Z.ltb_spec i (o + 1 + (8 - (x + 1)))), (Z.leb_spec o i), (Z.ltb_spec i (o + (8 - x))), (Z.eqb_spec i o);
      cbn; first [exfalso; lia|done|do 3 f_equal; lia].
Qed.

(** ** Drawing a character *)

Lemma font_lookup c y : 0 ≤ c < 256 → 0 ≤ y < 16 → ∃ b, font !! Z.to_nat (c * 16 + y) = Some b.
Proof. intros Hc Hy. apply lookup_lt_is_Some. rewrite font_length. unfold char_height. lia. Qed.

(** [k] rows of a character from its row [y] on, [q] words apart. *)
Definition glyph_paint (c q y : Z) (k : nat) (o : Z) : Z → option Z := λ i,
  if (o <=? i) && ((i - o) / q <? Z.of_nat k) && ((i - o) mod q <? 8)
  then Some (colour_byte (glyph_bit c ((i - o) mod q) (y + (i - o) / q))) else None.

Lemma glyph_paint_S c q y k o byte i :
  8 ≤ q → font !! Z.to_nat (c * 16 + y) = Some byte →
  over (glyph_paint c q (y + 1) k (o + q)) (row_paint byte 0 o) i = glyph_paint c q y (S k) o i.
Proof.
  intros Hq Hb. unfold over, glyph_paint, row_paint. rewrite Nat2Z.inj_succ, Z.sub_0_r, Z.add_0_l.
  destruct (decide (o + q ≤ i)) as [Hge|Hlt].
  - replace (i - o) with ((i - (o + q)) + 1 * q) by lia. rewrite Z.div_add, Z.mod_add by lia.
    pose proof (Z.div_pos (i - (o + q)) q). set (d := (i - (o + q)) / q) in *. set (r := (i - (o + q)) mod q).
    replace (y + (d + 1)) with (y + 1 + d) by lia.
    destruct (Z.leb_spec (o + q) i), (Z.leb_spec o i), (Z.ltb_spec i (o + 8)), (Z.ltb_spec d (Z.of_nat k)), (Z.ltb_spec (d + 1) (Z.succ (Z.of_nat k)));
      try (exfalso; lia); by destruct (r <? 8).
  - destruct (Z.leb_spec (o + q) i); [lia|]. cbn [andb].
    destruct (Z.leb_spec o i); [|done]. rewrite (Z.div_small (i - o)), (Z.mod_small (i - o)) by lia. cbn [andb].
    destruct (Z.ltb_spec 0 (Z.succ (Z.of_nat k))); [|lia]. cbn [andb]. rewrite Z.add_0_r. unfold glyph_bit. rewrite Hb.
    destruct (Z.ltb_spec i (o + 8)), (Z.ltb_spec (i - o) 8); done || lia.
Qed.

Lemma glyph_rows_run n m q k c y o s :
  sized n s → mode_pitch m = 4 * q → 8 ≤ q → 0 ≤ c < 256 → 0 ≤ y → Z.of_nat k = 16 - y → 0 ≤ o →
  4 * (o + (15 - y) * q + 8) ≤ n → n < 2 ^ 31 → q < 2 ^ 31 →
  paints (glyph_rows k m (c * 16) y o FG_COLOR BG_COLOR) (glyph_paint c q y k o) s.
Proof.
  intros Hs Hq Hq8 Hc Hy Hk Ho Hl Hn Hq31. revert y o s Hs Hy Hk Ho Hl. induction k as [|k IH]; intros y o s Hs Hy Hk Ho Hl.
  - exists (vid_back s), (vid_front s). split; [by destruct s|]. split; (eapply painted_ext; [|apply painted_none]);
      intros i Hi _; unfold glyph_paint; destruct (Z.leb_spec o i); [|done| |done];
      pose proof (Z.div_pos (i - o) q); destruct (Z.ltb_spec ((i - o) / q) (Z.of_nat 0)); done || lia.
  - cbn [glyph_rows]. destruct (font_lookup c y) as [byte Hb]; [done|lia|].
    rewrite (u64_small (c * 16 + y)) by lia. rewrite Hb. unfold paints. run (eq_refl : lift (access (Some byte)) s = Ok (byte, s)).
    rewrite Hq, (Z.mul_comm 4 q), Z.quot_mul by lia. assert (0 ≤ (15 - y) * q) by nia.
    rewrite (u64_small q), u64_small by lia.
    eapply (paints_ext n); [done|intros i _ _; by apply glyph_paint_S|].
    eapply (paints_bind n); [done|apply (glyph_row_run n); [done|done|lia|done|lia|done]|].
    intros s' Hs' _. apply IH; try done; nia.
Qed.

(** A mode that the console can work with. *)
Record mode_ok (m : video_mode) : Prop := {
  mk_words : mode_pitch m mod 4 = 0;
  mk_width : 8 ≤ mode_width m;
  mk_pitch : 4 * mode_width m ≤ mode_pitch m;
  mk_height : 16 ≤ mode_height m;
  mk_int : mode_height m * mode_pitch m < 2 ^ 31;
}.

Section mode.
Context (m : video_mode) (Hm : mode_ok m).
Let q := mode_pitch m / 4.
Let w := mode_width m / 8.
Let h := mode_height m / 16.
Let n := mode_height m * mode_pitch m.

Lemma mode_sizes :
  mode_pitch m = 4 * q ∧ 8 * w ≤ mode_width m ≤ q ∧ 16 * h ≤ mode_height m < 16 * h + 16 ∧ 0 < w ∧ 0 < h ∧
  n = 4 * (mode_height m * q) ∧ n < 2 ^ 31 ∧ mode_width m < 2 ^ 31 ∧ mode_height m < 2 ^ 31 ∧ mode_pitch m < 2 ^ 31.
Proof.
  destruct Hm as [H1 H2 H3 H4 H5]. assert (mode_pitch m = 4 * q) as E by (subst q; wrap_lia).
  assert (n = 4 * (mode_height m * q)) as En by (subst n; rewrite E; lia).
  assert (mode_height m ≤ n ∧ mode_pitch m ≤ n) as [? ?] by (subst n; nia).
  split_and!; try done; subst w h; wrap_lia.
Qed.

Lemma putch_internal_run c x y s :
  sized n s → mode_info s = Some m → 0 ≤ c < 128 → 0 ≤ x < w → 0 ≤ y < h →
  paints (genfb_putch_internal c (x * char_width) (y * char_height) FG_COLOR BG_COLOR)
    (glyph_paint c q 0 16 (x * 8 + y * 16 * q)) s.
Proof.
  intros Hs Hmi Hc Hx Hy. destruct mode_sizes as (Ep & Ew & Eh & Hw & Hh & En & Hn & Hw31 & Hh31 & Hp31).
  unfold genfb_putch_internal, char_width, char_height. unfold paints. run (eq_refl : get_st s = Ok (s, s)). rewrite Hmi.
  run (eq_refl : lift (access (Some m)) s = Ok (m, s)).
  assert (y * 16 * q + 16 * q ≤ mode_height m * q) as Hrows by nia. assert (0 ≤ y * 16 * q) by nia.
  rewrite (u64_small c), (u64_small (c * 16)), u64_small, Z.div_mul by lia.
  assert (u64 (Z.quot (s32 (s32 (x * 8 * 4) + s32 (y * 16 * mode_pitch m))) 4) = x * 8 + y * 16 * q) as ->.
  { replace (y * 16 * mode_pitch m) with (y * 16 * q * 4) by (rewrite Ep; lia).
    rewrite (s32_small (x * 8 * 4)), (s32_small (y * 16 * q * 4)) by lia. rewrite s32_small by lia.
    replace (x * 8 * 4 + y * 16 * q * 4) with ((x * 8 + y * 16 * q) * 4) by lia. rewrite Z.quot_mul by lia. apply u64_small. lia. }
  apply (glyph_rows_run n); try done; lia.
Qed.

(** ** What a buffer shows *)

(** The bytes of the pixel in column [px] and row [py]. *)
Definition shows (t : screen) (buf : list Z) : Prop :=
  Z.of_nat (length buf) = n ∧
  ∀ px py b, 0 ≤ px < q → 0 ≤ py < mode_height m → 0 ≤ b < 4 → buf !! Z.to_nat (4 * (py * q + px) + b) = Some (shade w h t px py).

Lemma pixel_word px py b : 0 ≤ px < q → 0 ≤ py → 0 ≤ b < 4 → Z.of_nat (Z.to_nat (4 * (py * q + px) + b)) / 4 = py * q + px.
Proof. intros Hx Hy Hb. assert (0 ≤ py * q) by nia. rewrite Z2Nat.id by lia. replace (4 * (py * q + px) + b) with (b + (py * q + px) * 4) by lia.
  rewrite Z.div_add, Z.div_small by lia. lia. Qed.

Lemma pixel_bound px py b : 0 ≤ px < q → 0 ≤ py < mode_height m → 0 ≤ b < 4 → 0 ≤ 4 * (py * q + px) + b < n.
Proof. intros Hx Hy Hb. destruct mode_sizes as (_ & _ & _ & _ & _ & En & _). nia. Qed.

(** Where a pixel lies in a character cell. *)
Lemma pixel_cell px py x y : 0 ≤ px < q → 0 ≤ x < w → 0 ≤ y →
  let i := py * q + px - (x * 8 + y * 16 * q) in
  (0 <=? i) && (i / q <? 16) && (i mod q <? 8) = (px / 8 =? x) && (py / 16 =? y) ∧
  (px / 8 = x → py / 16 = y → i mod q = px mod 8 ∧ i / q = py mod 16).
Proof.
  intros Hx Hxw Hy i. destruct mode_sizes as (_ & Ew & _).
  assert (∀ dx, i = (py - 16 * y) * q + dx → 0 ≤ dx < q → i mod q = dx ∧ i / q = py - 16 * y) as Hdm.
  { intros dx Ei Hdx. rewrite Ei. split; [rewrite Z.add_comm, Z.mod_add by lia; by apply Z.mod_small|].
    rewrite Z.add_comm, Z.div_add, Z.div_small by lia. lia. }
  destruct (decide (8 * x ≤ px)) as [Hge|Hlt].
  - destruct (Hdm (px - 8 * x)) as [-> ->]; [subst i; lia|lia|]. split; [|wrap_lia].
    assert (0 ≤ i ↔ 0 ≤ py - 16 * y) by (subst i; nia). apply eq_bool_prop_intro. split; intros Hb; apply Is_true_true in Hb; apply Is_true_true; wrap_lia.
  - destruct (Z.eqb_spec (px / 8) x) as [Hpx|]; [wrap_lia|]. split; [|wrap_lia]. cbn [andb].
    destruct (Z.leb_spec 0 i); [|done]. cbn [andb].
    assert (i = (py - 16 * y - 1) * q + (q + px - 8 * x)) as Ei by (subst i; lia).
    assert (i mod q = q + px - 8 * x) as -> by (rewrite Ei, Z.add_comm, Z.mod_add by lia; apply Z.mod_small; lia).
    destruct (Z.ltb_spec (q + px - 8 * x) 8); [lia|]. by rewrite andb_false_r.
Qed.

(** ** The console as a screen *)

(** The state is that of a working console that shows [t]. *)
Record console (t : screen) (s : genfb) : Prop := {
  co_mode : mode_info s = Some m;
  co_size : disp_w s = w ∧ disp_h s = h;
  co_working : is_working s = 1;
  co_cursor : disp_x s = sx t ∧ disp_y s = sy t;
  co_back : shows t (vid_back s);
  co_front : shows t (vid_front s);
}.

Definition on_screen (t : screen) : Prop := 0 ≤ sx t < w ∧ 0 ≤ sy t < h.

Lemma shows_cells t t' buf : cells t = cells t' → shows t buf → shows t' buf.
Proof. intros E [Hl H]. split; [done|]. intros px py b ???. rewrite H by done. unfold shade. by rewrite E. Qed.

Lemma shows_put c t buf buf' :
  on_screen t → shows t buf → painted (glyph_paint c q 0 16 (sx t * 8 + sy t * 16 * q)) buf buf' →
  shows (Screen (sx t) (sy t) (λ x y, if (x =? sx t) && (y =? sy t) then Some c else cells t x y)) buf'.
Proof.
  intros [Hx Hy] [Hl H] [Hl' Hp]. split; [lia|]. intros px py b Hpx Hpy Hb. pose proof (pixel_bound px py b Hpx Hpy Hb).
  rewrite Hp, pixel_word by lia. rewrite H by done.
  destruct (pixel_cell px py (sx t) (sy t)) as [Ec Eg]; [done|done|lia|]. unfold glyph_paint.
  replace ((_ <=? _)) with (0 <=? py * q + px - (sx t * 8 + sy t * 16 * q)) by (destruct (Z.leb_spec 0 (py * q + px - (sx t * 8 + sy t * 16 * q))), (Z.leb_spec (sx t * 8 + sy t * 16 * q) (py * q + px)); done || lia).
  change (Z.of_nat 16) with 16. rewrite Ec. unfold shade. cbn [cells].
  destruct (Z.eqb_spec (px / 8) (sx t)) as [Ex|], (Z.eqb_spec (py / 16) (sy t)) as [Ey|]; cbn [andb]; try done.
  destruct (Eg Ex Ey) as [-> ->]. rewrite Ex, Ey.
  destruct (Z.ltb_spec (sx t) w), (Z.ltb_spec (sy t) h); [done|lia|lia|lia].
Qed.

Lemma put_console c t s :
  console t s → on_screen t → 0 ≤ c < 128 →
  ∃ s', genfb_putch_internal c (disp_x s * char_width) (disp_y s * char_height) FG_COLOR BG_COLOR s = Ok (tt, s') ∧
    console (Screen (sx t) (sy t) (λ x y, if (x =? sx t) && (y =? sy t) then Some c else cells t x y)) s'.
Proof.
  intros [Hmi Hsz Hwk [Hx Hy] Hb Hf] [Hox Hoy] Hc. rewrite Hx, Hy.
  destruct (putch_internal_run c (sx t) (sy t) s) as (b' & f' & E & P1 & P2); [split; [apply Hb|apply Hf]|done..|].
  exists (set_buffers b' f' s). split; [done|]. split; try done.
  - exact (shows_put c t _ _ (conj Hox Hoy) Hb P1).
  - exact (shows_put c t _ _ (conj Hox Hoy) Hf P2).
Qed.

(** ** Scrolling *)

Lemma copy_within_run k : ∀ t d buf, 0 ≤ t → 0 ≤ d → t + d + Z.of_nat k ≤ Z.of_nat (length buf) →
  ∃ buf', copy_within k t (t + d) buf = Ok buf' ∧ length buf' = length buf ∧
    ∀ j : Z, 0 ≤ j → buf' !! Z.to_nat j = if (t <=? j) && (j <? t + Z.of_nat k) then buf !! Z.to_nat (j + d) else buf !! Z.to_nat j.
Proof.
  induction k as [|k IH]; intros t d buf Ht Hd Hl.
  - exists buf. split; [done|]. split; [done|]. intros j Hj. destruct (Z.leb_spec t j), (Z.ltb_spec j (t + Z.of_nat 0)); done || lia.
  - destruct (lookup_lt_is_Some_2 buf (Z.to_nat (t + d))) as [v Hv]; [lia|]. destruct (lookup_lt_is_Some_2 buf (Z.to_nat t)) as [v' Hv']; [lia|].
    cbn [copy_within]. rewrite Hv, Hv'. cbn. replace (t + d + 1) with (t + 1 + d) by lia.
    destruct (IH (t + 1) d (<[Z.to_nat t := v]> buf)) as (buf' & -> & Hl' & Hj); [lia|lia|rewrite length_insert; lia|].
    rewrite length_insert in Hl'. exists buf'. split; [done|]. split; [done|]. intros j Hj0. rewrite Hj by done.
    destruct (decide (j = t)) as [->|Hne].
    + rewrite list_lookup_insert_eq by lia. destruct (Z.leb_spec (t + 1) t), (Z.leb_spec t t), (Z.ltb_spec t (t + Z.of_nat (S k))); done || lia.
    + replace ((t <=? j) && (j <? t + Z.of_nat (S k))) with ((t + 1 <=? j) && (j <? t + 1 + Z.of_nat k)) by lia.
      destruct (Z.leb_spec (t + 1) j); cbn [andb]; [|by rewrite list_lookup_insert_ne by lia].
      by rewrite !list_lookup_insert_ne by lia.
Qed.

Lemma fill_run off k b buf :
  0 ≤ off → 0 ≤ k → off + k ≤ Z.of_nat (length buf) →
  ∃ buf', fill off k b buf = Ok buf' ∧ length buf' = length buf ∧
    ∀ j : Z, 0 ≤ j → buf' !! Z.to_nat j = if (off <=? j) && (j <? off + k) then Some b else buf !! Z.to_nat j.
Proof.
  intros Ho Hk Hl. unfold fill. rewrite (proj2 (Z.leb_le _ _)) by lia. eexists. split; [done|]. split.
  { rewrite !length_app, length_take, length_replicate, length_drop. lia. }
  intros j Hj. destruct (Z.leb_spec off j), (Z.ltb_spec j (off + k)); cbn [andb].
  - rewrite lookup_app_r, lookup_app_l; rewrite ?length_take, ?length_replicate; [|lia..]. apply lookup_replicate_2. lia.
  - rewrite lookup_app_r, lookup_app_r; rewrite ?length_take, ?length_replicate; [|lia..]. rewrite lookup_drop. f_equal. lia.
  - rewrite lookup_app_l by (rewrite length_take; lia). apply lookup_take_lt. lia.
  - lia.
Qed.

Lemma copy_over_run src dst : length src = length dst → copy_over (Z.of_nat (length dst)) src dst = Ok src.
Proof.
  intros E. unfold copy_over. rewrite (proj2 (Z.leb_le _ _)), (proj2 (Z.leb_le _ _)) by lia. cbn [andb].
  rewrite Nat2Z.id, take_ge, drop_ge by lia. by rewrite app_nil_r.
Qed.

Lemma shade_scroll t px py :
  0 ≤ px → 0 ≤ py < mode_height m →
  shade w h (Screen 0 (h - 1) (screen_scroll h (cells t))) px py =
    if py <? mode_height m - 16 then shade w h t px (py + 16) else 0xF8.
Proof.
  intros Hpx Hpy. destruct mode_sizes as (_ & _ & Eh & _). unfold shade, screen_scroll. cbn [cells].
  replace (py + 16) with (py + 1 * 16) by lia. rewrite Z.div_add, Z.mod_add by lia.
  destruct (Z.ltb_spec py (mode_height m - 16)), (Z.ltb_spec (py / 16) (h - 1)), (Z.ltb_spec (py / 16) h), (Z.ltb_spec (py / 16 + 1) h);
    try (exfalso; wrap_lia); cbn [andb]; rewrite ?andb_true_r, ?andb_false_r; done || by destruct (px / 8 <? w).
Qed.

Lemma scroll_console t s :
  console t s → ∃ s', genfb_scroll_up s = Ok (tt, s') ∧ disp_x s' = disp_x s ∧
    console (Screen 0 (h - 1) (screen_scroll h (cells t))) (set_cursor 0 (h - 1) s').
Proof.
  intros [Hmi Hsz Hwk _ [Hlb Hb] [Hlf _]]. destruct mode_sizes as (Ep & Ew & Eh & Hw & Hh & En & Hn & Hw31 & Hh31 & Hp31).
  set (P := mode_pitch m) in *. set (H := mode_height m) in *. assert (0 < P) by lia. assert (n = H * P) as EnP by reflexivity.
  assert (0 ≤ P * (H - 16) ≤ n ∧ P * (H - 16) + P * 16 = n ∧ 0 ≤ P * 16 ≤ n) as (Hs1 & Hs2 & Hs3) by nia.
  assert (∀ z, 0 ≤ z ≤ n → int_size z = z) as Hint by (intros z Hz; unfold int_size; rewrite s32_small, u64_small; lia).
  destruct (copy_within_run (Z.to_nat (P * (H - 16))) 0 (P * 16) (vid_back s)) as (b1 & E1 & Hl1 & Hj1); [lia..|].
  destruct (fill_run ((H - 16) * P) (16 * P) BG_BYTE_COLOR b1) as (b2 & E2 & Hl2 & Hj2); [lia..|].
  assert (shows (Screen 0 (h - 1) (screen_scroll h (cells t))) b2) as Hsh.
  { split; [lia|]. intros px py b Hpx Hpy Hbb. rewrite shade_scroll by (done || lia). fold H in Hpy |- *. pose proof (pixel_bound px py b Hpx Hpy Hbb).
    rewrite Hj2, Hj1 by lia. set (j := 4 * (py * q + px) + b) in *. assert (j = py * P + (4 * px + b)) as Ej by (subst j; rewrite Ep; lia).
    assert (py < H - 16 → j < (H - 16) * P) by (intros; nia). assert (H - 16 ≤ py → (H - 16) * P ≤ j) by (intros; nia).
    destruct (Z.ltb_spec py (H - 16)).
    - destruct (Z.leb_spec ((H - 16) * P) j), (Z.leb_spec 0 j), (Z.ltb_spec j (0 + Z.of_nat (Z.to_nat (P * (H - 16))))); try (exfalso; lia). cbn [andb].
      replace (j + P * 16) with (4 * ((py + 16) * q + px) + b) by (rewrite Ej, Ep; lia). apply Hb; lia.
    - destruct (Z.leb_spec ((H - 16) * P) j), (Z.ltb_spec j ((H - 16) * P + 16 * P)); done || (exfalso; lia). }
  exists (set_buffers b2 b2 s). split; [|split; [done|by split]].
  unfold genfb_scroll_up. run (eq_refl : get_st s = Ok (s, s)). rewrite Hmi. run (eq_refl : lift (access (Some m)) s = Ok (m, s)).
  unfold char_height. fold P H. rewrite !Hint by lia.
  rewrite Z.add_0_l in E1. unfold lift. cbv [mbind M_bind]. rewrite E1, E2.
  replace (H * P) with (Z.of_nat (length (vid_front s))) by lia. by rewrite copy_over_run by lia.
Qed.

Lemma newline_console t s :
  console t s → 0 ≤ sy t < h → ∃ s', genfb_newline s = Ok (tt, s') ∧ console (screen_newline h t) s' ∧ on_screen (screen_newline h t).
Proof.
  intros Hc Hy. destruct mode_sizes as (_ & _ & _ & Hw & Hh & _). pose proof Hc as [Hmi [Hdw Hdh] Hwk [Hcx Hcy] Hb Hf].
  unfold genfb_newline, screen_newline. run (eq_refl : modify (λ s, set_cursor 0 (disp_y s + 1) s) s = Ok (tt, set_cursor 0 (disp_y s + 1) s)).
  set (s1 := set_cursor _ _ s). run (eq_refl : get_st s1 = Ok (s1, s1)).
  change (disp_h s1) with (disp_h s). change (disp_y s1) with (disp_y s + 1). rewrite Hdh, Hcy.
  assert (console (Screen 0 (sy t + 1) (cells t)) s1) as Hc1.
  { subst s1. split; try done; cbn; [lia|by apply (shows_cells t)..]. }
  destruct (Z.leb_spec h (sy t + 1)).
  - destruct (scroll_console _ _ Hc1) as (s2 & E2 & Hx2 & Hc2). run E2. unfold modify. eexists. split; [done|].
    rewrite Hx2. change (disp_x s1) with 0. assert (disp_h s2 = h) as -> by apply Hc2. split; [exact Hc2|]. split; cbn; lia.
  - exists s1. split; [done|]. split; [exact Hc1|]. split; cbn; lia.
Qed.

Lemma wrap_console k t s :
  console (Screen (sx t + k) (sy t) (cells t)) s → on_screen t → 0 ≤ k →
  ∃ s', genfb_wrap s = Ok (tt, s') ∧ console (screen_advance w h k t) s' ∧ on_screen (screen_advance w h k t).
Proof.
  intros Hc [Hx Hy] Hk. unfold genfb_wrap, screen_advance. run (eq_refl : get_st s = Ok (s, s)).
  destruct (co_size _ _ Hc) as [-> _]. destruct (co_cursor _ _ Hc) as [-> _]. cbn [sx].
  destruct (Z.leb_spec w (sx t + k)).
  - destruct (newline_console _ _ Hc Hy) as (s' & E & H1 & H2). exists s'. split; [done|].
    change (screen_newline h (Screen (sx t + k) (sy t) (cells t))) with (screen_newline h t) in H1, H2. done.
  - exists s. split; [done|]. split; [done|]. split; cbn; lia.
Qed.

Lemma putch_console c t s :
  console t s → on_screen t → 0 ≤ c < 128 →
  ∃ s', genfb_putch c s = Ok (tt, s') ∧ console (screen_put w h c t) s' ∧ on_screen (screen_put w h c t).
Proof.
  intros Hc Ho Hr. pose proof Hc as [Hmi Hsz Hwk [Hcx Hcy] Hb Hf]. unfold genfb_putch, screen_put. run (eq_refl : get_st s = Ok (s, s)).
  rewrite Hwk. cbn [Z.eqb]. destruct (Z.eqb_spec c 10); [by apply newline_console; [|apply Ho]|].
  destruct (Z.eqb_spec c 9).
  - run (eq_refl : modify (λ s, set_cursor (disp_x s + 8) (disp_y s) s) s = Ok (tt, set_cursor (disp_x s + 8) (disp_y s) s)).
    apply wrap_console; [|done|lia]. split; try done; cbn; [by rewrite Hcx, Hcy|by apply (shows_cells t)..].
  - destruct (put_console c t s Hc Ho Hr) as (s1 & E1 & Hc1). run E1.
    run (eq_refl : modify (λ s, set_cursor (disp_x s + 1) (disp_y s) s) s1 = Ok (tt, set_cursor (disp_x s1 + 1) (disp_y s1) s1)).
    apply wrap_console; [|exact Ho|lia]. destruct Hc1 as [Hmi1 Hsz1 Hwk1 [Hx1 Hy1] Hb1 Hf1].
    split; try done; cbn in *; lia.
Qed.
End mode.

(** ** Initialisation and printing *)

(** What [genfb_init] asks of the heap and of the page tables: a block for the
    shadow buffer, and tables for the frame buffer. *)
Record memory_ready (m : video_mode) (s : genfb) : Prop := {
  mr_front : Z.of_nat (length (vid_front s)) = mode_height m * mode_pitch m;
  mr_heap : ∃ p h r v, kmalloc (mode_height m * mode_pitch m) (fb_heap s) = Ok (p, h) ∧ p ≠ 0 ∧
    arch_mm_map_kernel (mode_addr m) (mode_addr m) ((mode_height m * mode_pitch m + 4095) / 4096) perm_write cache_wc (hv h) = Ok (r, v);
}.

Lemma blank_shows m x y : mode_ok m → shows m (blank_screen x y) (replicate (Z.to_nat (mode_height m * mode_pitch m)) BG_BYTE_COLOR).
Proof.
  intros Hm. destruct (mode_sizes m Hm) as (_ & _ & _ & _ & _ & _ & _ & _ & Hh & _). pose proof (mk_height m Hm). pose proof (mk_width m Hm). pose proof (mk_pitch m Hm).
  split; [rewrite length_replicate; nia|]. intros px py b Hpx Hpy Hb. pose proof (pixel_bound m Hm px py b Hpx Hpy Hb).
  rewrite lookup_replicate_2 by lia. f_equal. unfold shade. cbn. by destruct (_ && _).
Qed.

Lemma genfb_init_run m s :
  mode_ok m → mode_bpp m = 32 → memory_ready m s →
  ∃ s', genfb_init (Some m) s = Ok (tt, s') ∧ console m (blank_screen (disp_x s) (disp_y s)) s'.
Proof.
  intros Hm Hbpp [Hf (p & hp & r & v & Hk & Hp & Hmap)]. unfold genfb_init. rewrite Hbpp. change (negb (32 =? 32)) with false. cbv iota.
  pose proof (blank_shows m (disp_x s) (disp_y s) Hm) as Hsh. destruct (mode_sizes m Hm) as (_ & _ & _ & _ & _ & _ & Hn & _).
  set (n := mode_height m * mode_pitch m) in *. assert (0 ≤ n) as Hn0 by lia.
  assert (int_size n = n) as -> by (unfold int_size; rewrite s32_small, u64_small; lia).
  erewrite bind_run; [|reflexivity].
  set (s1 := set_mode _ _ _ s).
  assert (on_heap (kmalloc n) s1 = Ok (p, set_fb_heap hp s1)) as E1 by (unfold on_heap, zoom; cbn; by rewrite Hk). run E1.
  destruct (Z.eqb_spec p 0) as [|_]; [done|]. cbn [andb].
  do 2 (erewrite bind_run; [|reflexivity]). set (s2 := set_buffers _ _ _).
  unfold vm_page_size. rewrite u64_small by lia. replace (n + 4096 - 1) with (n + 4095) by lia.
  assert (on_heap (on_vmm (arch_mm_map_kernel (mode_addr m) (mode_addr m) ((n + 4095) / 4096) perm_write cache_wc)) s2
    = Ok (r, set_fb_heap (set_hv v hp) s2)) as E2 by (unfold on_heap, on_vmm, zoom; cbn; by rewrite Hmap).
  run E2. set (s3 := set_fb_heap _ s2). run (eq_refl : get_st s3 = Ok (s3, s3)).
  assert (fill 0 n BG_BYTE_COLOR (vid_front s3) = Ok (replicate (Z.to_nat n) BG_BYTE_COLOR)) as E3.
  { unfold fill. cbn. rewrite (proj2 (Z.leb_le _ _)) by lia. rewrite drop_ge by lia. by rewrite app_nil_r. }
  unfold lift at 1. cbv [mbind M_bind]. rewrite E3. cbn. eexists. split; [done|].
  pose proof (mk_height m Hm). pose proof (mk_width m Hm).
  split; cbn; try done. unfold char_width, char_height. split; apply Z.quot_div_nonneg; lia.
Qed.

Lemma putch_string_console m str : mode_ok m → Forall (λ c, 0 ≤ c < 128) str → ∀ t s, console m t s → on_screen m t →
  let t' := foldl (λ t c, screen_put (mode_width m / 8) (mode_height m / 16) c t) t str in
  ∃ s', for_each genfb_putch str s = Ok (tt, s') ∧ console m t' s' ∧ on_screen m t'.
Proof.
  intros Hm Hc. induction Hc as [|c str Hc _ IH]; intros t s Ht Ho; [by exists s|].
  destruct (putch_console m Hm c t s Ht Ho Hc) as (s1 & E1 & H1 & Ho1). cbn. run E1. by apply IH.
Qed.

(** C40. Whatever characters below 128 are printed after [genfb_init], no byte
    outside of the frame buffer, its shadow and the font is accessed, and both
    buffers show the same grid of characters: every pixel is that of the font
    for the character in its cell, full lines and line feeds move down, the
    last line scrolls, and the edge of the picture keeps the background. *)
Theorem genfb_console_spec (m : video_mode) (str : list Z) (s : genfb) :
  mode_ok m → mode_bpp m = 32 → memory_ready m s → disp_x s = 0 → disp_y s = 0 → Forall (λ c, 0 ≤ c < 128) str →
  let t := foldl (λ t c, screen_put (mode_width m / 8) (mode_height m / 16) c t) (blank_screen 0 0) str in
  ∃ s', (genfb_init (Some m);; for_each genfb_putch str) s = Ok (tt, s') ∧ shows m t (vid_front s') ∧ shows m t (vid_back s') ∧ on_screen m t.
Proof.
  intros Hm Hbpp Hmem Hx Hy Hc t. destruct (genfb_init_run m s Hm Hbpp Hmem) as (s1 & E1 & H1). rewrite Hx, Hy in H1. run E1.
  destruct (putch_string_console m str Hm Hc _ _ H1) as (s2 & E2 & [] & Ho2).
  { destruct (mode_sizes m Hm) as (_ & _ & _ & Hw & Hh & _). split; cbn; lia. }
  by exists s2.
Qed.

(** A [char] is signed here: a character from 128 to 255 is negative, its
    place in the font wraps around, and a working console reads far outside of
    the font. *)
Theorem genfb_high_char (c : Z) (m : video_mode) (s : genfb) :
  -128 ≤ c < 0 → is_working s ≠ 0 → mode_info s = Some m → genfb_putch c s = Fault.
Proof.
  intros Hc Hw Hm. unfold genfb_putch. run (eq_refl : get_st s = Ok (s, s)).
  destruct (Z.eqb_spec (is_working s) 0), (Z.eqb_spec c 10), (Z.eqb_spec c 9); try lia.
  assert (∀ x y, genfb_putch_internal c x y FG_COLOR BG_COLOR s = Fault) as Hint.
  { intros x y. unfold genfb_putch_internal. run (eq_refl : get_st s = Ok (s, s)). rewrite Hm.
    run (eq_refl : lift (access (Some m)) s = Ok (m, s)). change (Z.to_nat char_height) with (S 15). generalize 15%nat. intros k. cbn [glyph_rows].
    unfold char_height, char_width. assert (u64 (u64 (u64 c * 16) * 8) / 8 = 2 ^ 61 + 16 * c) as -> by wrap_lia.
    rewrite Z.add_0_r, (u64_small (2 ^ 61 + 16 * c)) by lia. rewrite (lookup_ge_None_2 font (Z.to_nat (2 ^ 61 + 16 * c))); [reflexivity|]. rewrite font_length. unfold char_height. lia. }
  cbv [mbind M_bind]. by rewrite Hint.
Qed.

(** ** A small screen *)

Section demo.
Definition demo_mode : video_mode := VideoMode 0xFD000000 64 16 32 32.
Definition demo_fb : genfb := Genfb None [] (replicate 2048 7) 0 0 0 0 0 demo_heap.

Lemma demo_fb_ready : memory_ready demo_mode demo_fb.
Proof.
  split; [reflexivity|].
  assert (value (kmalloc 2048 demo_heap) = Some 0x200000800) as Hk by (vm_compute; reflexivity).
  apply value_Some in Hk. destruct Hk as [h Hk].
  assert (is_Some (value ((kmalloc 2048;; on_vmm (arch_mm_map_kernel 0xFD000000 0xFD000000 1 perm_write cache_wc)) demo_heap))) as [r Hm] by (vm_compute; by eexists).
  apply value_Some in Hm. destruct Hm as [s' Hm]. erewrite bind_run in Hm; [|exact Hk]. unfold on_vmm, zoom in Hm.
  destruct (arch_mm_map_kernel 0xFD000000 0xFD000000 1 perm_write cache_wc (hv h)) as [[r' v]| | |] eqn:E; [|done..].
  exists 0x200000800, h, r', v. split; [exact Hk|]. split; [lia|]. exact E.
Qed.

Lemma demo_mode_ok : mode_ok demo_mode.
Proof. split; vm_compute; congruence. Qed.

Lemma genfb_console_spec_witness :
  ∃ s', (genfb_init (Some demo_mode);; for_each genfb_putch [65; 66; 67; 10; 68]) demo_fb = Ok (tt, s') ∧
    vid_front s' !! 258%nat = Some 0xF8 ∧ vid_front s' !! 264%nat = Some 0x38.
Proof.
  destruct (genfb_console_spec demo_mode [65; 66; 67; 10; 68] demo_fb demo_mode_ok eq_refl demo_fb_ready eq_refl eq_refl) as (s' & E & [_ Hs] & _).
  { repeat constructor; lia. }
  exists s'. split; [exact E|]. split.
  - etransitivity; [apply (Hs 0 4 2); vm_compute; split; congruence|vm_compute; reflexivity].
  - etransitivity; [apply (Hs 2 4 0); vm_compute; split; congruence|vm_compute; reflexivity].
Defined.

Lemma genfb_high_char_witness : genfb_putch (-61) (set_mode demo_mode 2 2 (set_working demo_fb)) = Fault.
Proof. apply (genfb_high_char (-61) demo_mode); [lia|discriminate|reflexivity]. Defined.
End demo.
