(* ===== verification/DebugCon.v ===== *)
(** * The debug console (arch/x86_64/io/debug.cpp)

    Every character of the log goes to the consoles that the kernel command
    line asks for: the port 0xE9 of an emulator, the text console of Vga.v,
    the frame buffer console of GenFb.v. [probe] is what a read of the port
    gives; the accesses to it are recorded. *)
From S2P Require Import Prelude Heap Cmdline Vga GenFb.
From stdpp Require Import base numbers option list.
#[local] Open Scope Z_scope.

Inductive port_event := PortIn | PortOut (b : Z).

Record debugcon := Debugcon {
  debug_port_exists : Z;
  use_debug_port : Z;
  use_vga_con : Z;
  use_fb_con : Z;
  dc_vga : vga;
  dc_fb : genfb;
  port_log : list port_event;
}.

Definition set_use (e9 vg fb : Z) (s : debugcon) : debugcon := Debugcon (debug_port_exists s) e9 vg fb (dc_vga s) (dc_fb s) (port_log s).
Definition set_exists (e : Z) (s : debugcon) : debugcon := Debugcon e (use_debug_port s) (use_vga_con s) (use_fb_con s) (dc_vga s) (dc_fb s) (port_log s).
Definition set_dc_vga (v : vga) (s : debugcon) : debugcon := Debugcon (debug_port_exists s) (use_debug_port s) (use_vga_con s) (use_fb_con s) v (dc_fb s) (port_log s).
Definition set_dc_fb (f : genfb) (s : debugcon) : debugcon := Debugcon (debug_port_exists s) (use_debug_port s) (use_vga_con s) (use_fb_con s) (dc_vga s) f (port_log s).
Definition port_access (e : port_event) (s : debugcon) : debugcon := Debugcon (debug_port_exists s) (use_debug_port s) (use_vga_con s) (use_fb_con s) (dc_vga s) (dc_fb s) (port_log s ++ [e]).
Definition on_vga {A} (m : M vga A) : M debugcon A := zoom dc_vga set_dc_vga m.
Definition on_fb {A} (m : M genfb A) : M debugcon A := zoom dc_fb set_dc_fb m.

(** "debugcon", "e9", "vga" and "fb" *)
Definition str_debugcon : list Z := [100; 101; 98; 117; 103; 99; 111; 110].
Definition str_e9 : list Z := [101; 57].
Definition str_vga : list Z := [118; 103; 97].
Definition str_fb : list Z := [102; 98].

(** The values of the static variables at boot. *)
Definition debugcon_start (v : vga) (f : genfb) : debugcon := Debugcon (-1) 1 0 0 v f [].

Definition debugcon_init (cl : cmdline) (v : option video_mode) : M debugcon () :=
  e9 ← lift (cmdline_has_value cl str_debugcon str_e9);
  vg ← lift (cmdline_has_value cl str_debugcon str_vga);
  fb ← lift (cmdline_has_value cl str_debugcon str_fb);
  modify (set_use e9 vg fb);;
  if negb (fb =? 0) then on_fb (genfb_init v) else mret tt.

Section write.
Context (probe : Z).

(** The first use of the port finds out whether there is one. *)
Definition debug_port_write (c : Z) : M debugcon () :=
  s ← get_st;
  (if debug_port_exists s =? -1 then
     modify (port_access PortIn);; modify (set_exists (if probe =? 0xE9 then 1 else 0))
   else mret tt);;
  s ← get_st;
  if negb (debug_port_exists s =? 0) then modify (port_access (PortOut (u8 c))) else mret tt.

Definition arch_debug_write (c : Z) : M debugcon () :=
  s ← get_st;
  (if negb (use_debug_port s =? 0) then debug_port_write c else mret tt);;
  s ← get_st;
  (if negb (use_vga_con s =? 0) then on_vga (vga_putch c) else mret tt);;
  s ← get_st;
  if negb (use_fb_con s =? 0) then on_fb (genfb_putch c) else mret tt.

(** ** What is printed where *)

(** What the port sees when [str] is printed. *)
Definition port_trace (e : Z) (str : list Z) : list port_event :=
  let outs := PortOut ∘ u8 <$> str in
  if e =? -1 then match str with [] => [] | _ => PortIn :: if probe =? 0xE9 then outs else [] end
  else if e =? 0 then [] else outs.

(** A state in which the consoles of the flags work; [t] is what the frame
    buffer shows in mode [m]. *)
Record printing (m : video_mode) (t : screen) (s : debugcon) : Prop := {
  pr_vga : use_vga_con s ≠ 0 → vga_ok (dc_vga s);
  pr_fb : use_fb_con s ≠ 0 → mode_ok m ∧ console m t (dc_fb s) ∧ on_screen m t;
}.

(** Printing [str] leads from [s] to [s']. *)
Record printed (m : video_mode) (t : screen) (str : list Z) (s s' : debugcon) : Prop := {
  pd_use : use_debug_port s' = use_debug_port s ∧ use_vga_con s' = use_vga_con s ∧ use_fb_con s' = use_fb_con s;
  pd_port : port_log s' = port_log s ++ if use_debug_port s =? 0 then [] else port_trace (debug_port_exists s) str;
  pd_vga : if use_vga_con s =? 0 then dc_vga s' = dc_vga s
           else view (dc_vga s') = foldl (λ t c, term_put c t) (view (dc_vga s)) str;
  pd_fb : if use_fb_con s =? 0 then dc_fb s' = dc_fb s
          else console m (foldl (λ t c, screen_put (mode_width m / 8) (mode_height m / 16) c t) t str) (dc_fb s');
}.

(** What is known about the port after a character. *)
Definition exists_after (s : debugcon) : Z :=
  if use_debug_port s =? 0 then debug_port_exists s
  else if debug_port_exists s =? -1 then if probe =? 0xE9 then 1 else 0 else debug_port_exists s.

Lemma port_write_run c s :
  use_debug_port s ≠ 0 →
  ∃ s', debug_port_write c s = Ok (tt, s') ∧ debug_port_exists s' = exists_after s ∧
    port_log s' = port_log s ++ port_trace (debug_port_exists s) [c] ∧
    use_debug_port s' = use_debug_port s ∧ use_vga_con s' = use_vga_con s ∧ use_fb_con s' = use_fb_con s ∧ dc_vga s' = dc_vga s ∧ dc_fb s' = dc_fb s.
Proof.
  intros Hu. unfold debug_port_write, exists_after, port_trace. destruct (Z.eqb_spec (use_debug_port s) 0); [done|].
  run (eq_refl : get_st s = Ok (s, s)).
  destruct (Z.eqb_spec (debug_port_exists s) (-1)).
  - destruct (Z.eqb_spec probe 0xE9); cbn; eexists; (split; [reflexivity|]); split_and!; try reflexivity. cbn. by rewrite <- app_assoc.
  - destruct (Z.eqb_spec (debug_port_exists s) 0) as [E|]; cbv [mbind M_bind mret M_ret get_st]; (destruct (Z.eqb_spec (debug_port_exists s) 0); [try done|try done]);
      eexists; (split; [reflexivity|]); split_and!; try reflexivity. by rewrite app_nil_r.
Qed.

Lemma trace_cons c str s :
  use_debug_port s ≠ 0 → port_trace (debug_port_exists s) (c :: str) = port_trace (debug_port_exists s) [c] ++ port_trace (exists_after s) str.
Proof.
  intros Hu. unfold exists_after, port_trace. destruct (Z.eqb_spec (use_debug_port s) 0); [done|].
  destruct (Z.eqb_spec (debug_port_exists s) (-1)); [by destruct (Z.eqb_spec probe 0xE9)|].
  destruct (Z.eqb_spec (debug_port_exists s) (-1)); [done|]. by destruct (Z.eqb_spec (debug_port_exists s) 0).
Qed.

Lemma debug_write_run m t c s :
  printing m t s → 0 ≤ c < 128 →
  ∃ s', arch_debug_write c s = Ok (tt, s') ∧ debug_port_exists s' = exists_after s ∧ printed m t [c] s s' ∧
    printing m (screen_put (mode_width m / 8) (mode_height m / 16) c t) s'.
Proof.
  intros [Hv Hf] Hc. unfold arch_debug_write. erewrite bind_run; [|reflexivity].
  assert (∃ s1, (if negb (use_debug_port s =? 0) then debug_port_write c else mret tt) s = Ok (tt, s1) ∧ debug_port_exists s1 = exists_after s ∧
    port_log s1 = port_log s ++ (if use_debug_port s =? 0 then [] else port_trace (debug_port_exists s) [c]) ∧
    use_debug_port s1 = use_debug_port s ∧ use_vga_con s1 = use_vga_con s ∧ use_fb_con s1 = use_fb_con s ∧ dc_vga s1 = dc_vga s ∧ dc_fb s1 = dc_fb s)
    as (s1 & E1 & Hx1 & Hl1 & Hd1 & Hv1 & Hf1 & Ev1 & Ef1).
  { destruct (Z.eqb_spec (use_debug_port s) 0) as [E|E]; [|by apply port_write_run].
    exists s. split; [done|]. unfold exists_after. rewrite E. split; [done|]. by rewrite app_nil_r. }
  run E1. erewrite bind_run; [|reflexivity]. rewrite Hv1.
  assert (∃ v, (if negb (use_vga_con s =? 0) then on_vga (vga_putch c) else mret tt) s1 = Ok (tt, set_dc_vga v s1) ∧
    (use_vga_con s ≠ 0 → vga_ok v) ∧ if use_vga_con s =? 0 then v = dc_vga s else view v = term_put c (view (dc_vga s))) as (v & E2 & Hok & Hview).
  { destruct (Z.eqb_spec (use_vga_con s) 0) as [E|E].
    - exists (dc_vga s1). split; [by destruct s1|]. by rewrite E.
    - destruct (vga_putch_run c (dc_vga s)) as (v & Ev & Hok & Hview); [by apply Hv|]. exists v. split; [|done].
      unfold on_vga, zoom. cbn. by rewrite Ev1, Ev. }
  run E2. erewrite bind_run; [|reflexivity]. cbn [use_fb_con set_dc_vga]. rewrite Hf1.
  assert (∃ f, (if negb (use_fb_con s =? 0) then on_fb (genfb_putch c) else mret tt) (set_dc_vga v s1) = Ok (tt, set_dc_fb f (set_dc_vga v s1)) ∧
    if use_fb_con s =? 0 then f = dc_fb s
    else console m (screen_put (mode_width m / 8) (mode_height m / 16) c t) f ∧ on_screen m (screen_put (mode_width m / 8) (mode_height m / 16) c t))
    as (f & E3 & Hfb).
  { destruct (Z.eqb_spec (use_fb_con s) 0) as [E|E].
    - exists (dc_fb s). split; [|done]. rewrite <- Ef1. by destruct s1.
    - destruct (Hf E) as (Hm & Hcon & Hon). destruct (putch_console m Hm c t _ Hcon Hon Hc) as (f & Ef & Hf' & Hon').
      exists f. split; [|done]. unfold on_fb, zoom. cbn. by rewrite Ef1, Ef. }
  rewrite E3. eexists. split; [done|]. split; [done|]. split.
  - split; cbn; [done|done|by destruct (use_vga_con s =? 0)|]. by destruct (use_fb_con s =? 0); [|apply Hfb].
  - split; cbn; rewrite ?Hv1, ?Hf1; [done|]. intros E. destruct (Z.eqb_spec (use_fb_con s) 0); [done|]. split; [by apply Hf|done].
Qed.

Lemma debug_print_run m str : Forall (λ c, 0 ≤ c < 128) str → ∀ t s, printing m t s →
  ∃ s', for_each arch_debug_write str s = Ok (tt, s') ∧ printed m t str s s'.
Proof.
  intros Hc. induction Hc as [|c str Hc _ IH]; intros t s Hp.
  - exists s. split; [done|]. split; cbn; [done| | |].
    + unfold port_trace. cbn. destruct (use_debug_port s =? 0), (debug_port_exists s =? -1), (debug_port_exists s =? 0); by rewrite app_nil_r.
    + by destruct (use_vga_con s =? 0).
    + destruct (Z.eqb_spec (use_fb_con s) 0); [done|by apply Hp].
  - destruct (debug_write_run m t c s Hp Hc) as (s1 & E1 & Hx & [(Hd1 & Hv1 & Hf1) Hl1 Hvga Hfb] & Hp1).
    destruct (IH _ _ Hp1) as (s2 & E2 & [(Hd2 & Hv2 & Hf2) Hl2 Hvga2 Hfb2]). exists s2. cbn [for_each]. run E1. split; [done|].
    split; cbn [foldl]; [split_and!; congruence| | |].
    + rewrite Hl2, Hl1, Hx, Hd1. destruct (Z.eqb_spec (use_debug_port s) 0); [by rewrite !app_nil_r|]. by rewrite (trace_cons c str), <- app_assoc.
    + rewrite Hv1 in Hvga2. destruct (use_vga_con s =? 0); [congruence|]. by rewrite Hvga2, Hvga.
    + rewrite Hf1 in Hfb2. destruct (use_fb_con s =? 0); [congruence|done].
Qed.
End write.

(** Once the consoles were chosen from the command line, every character
    that is printed appears on each chosen console and nothing else happens:
    the port is read once, before the first character, and written only when
    it answered; the text console shows what its terminal shows; the frame
    buffer shows its grid of characters. *)
Theorem debug_console_spec (probe : Z) (cl : cmdline) (m : video_mode) (v : vga) (f : genfb) (str : list Z) (e9 vg fb : Z) :
  cmdline_has_value cl str_debugcon str_e9 = Ok e9 → cmdline_has_value cl str_debugcon str_vga = Ok vg →
  cmdline_has_value cl str_debugcon str_fb = Ok fb → vga_ok v →
  mode_ok m → mode_bpp m = 32 → memory_ready m f → disp_x f = 0 → disp_y f = 0 → Forall (λ c, 0 ≤ c < 128) str →
  ∃ s', (debugcon_init cl (Some m);; for_each (arch_debug_write probe) str) (debugcon_start v f) = Ok (tt, s') ∧
    port_log s' = (if e9 =? 0 then [] else port_trace probe (-1) str) ∧
    (if vg =? 0 then dc_vga s' = v else view (dc_vga s') = foldl (λ t c, term_put c t) (view v) str) ∧
    (if fb =? 0 then dc_fb s' = f
     else console m (foldl (λ t c, screen_put (mode_width m / 8) (mode_height m / 16) c t) (blank_screen 0 0) str) (dc_fb s')).
Proof.
  intros He Hg Hb Hv Hm Hbpp Hmem Hx Hy Hc.
  assert (∃ f', debugcon_init cl (Some m) (debugcon_start v f) = Ok (tt, Debugcon (-1) e9 vg fb v f' []) ∧
    (fb = 0 → f' = f) ∧ (fb ≠ 0 → console m (blank_screen 0 0) f')) as (f' & E1 & Hf0 & Hf1).
  { unfold debugcon_init. rewrite He, Hg, Hb. do 4 (erewrite bind_run; [|reflexivity]). destruct (Z.eqb_spec fb 0) as [E|E]; cbn [negb].
    - exists f. split; [done|]. done.
    - destruct (genfb_init_run m f Hm Hbpp Hmem) as (f' & Ef & Hf'). rewrite Hx, Hy in Hf'. exists f'. split; [|done].
      unfold on_fb, zoom. change (dc_fb _) with f. by rewrite Ef. }
  destruct (debug_print_run probe m str Hc (blank_screen 0 0) (Debugcon (-1) e9 vg fb v f' [])) as (s' & E2 & [_ Hl Hvga Hfb]).
  { split; cbn; [done|]. intros E. split; [done|]. split; [by apply Hf1|].
    destruct (mode_sizes m Hm) as (_ & _ & _ & ? & ? & _). split; cbn; lia. }
  exists s'. run E1. split; [done|]. cbn in Hl, Hvga, Hfb. split; [done|]. split; [done|].
  destruct (Z.eqb_spec fb 0) as [E|]; [|done]. by rewrite Hfb, Hf0.
Qed.

(** The command line "debugcon=e9,fb". *)
Definition demo_consoles : cmdline := Cmdline [CmdArg (Some str_debugcon) (Some [str_e9; str_fb]) 2] 1.

Lemma debug_console_spec_witness :
  ∃ s', (debugcon_init demo_consoles (Some demo_mode);; for_each (arch_debug_write 0xE9) [72; 105]) (debugcon_start (Vga 0 0 (replicate 4000 0) []) demo_fb) = Ok (tt, s') ∧
    port_log s' = [PortIn; PortOut 72; PortOut 105] ∧ disp_x (dc_fb s') = 0 ∧ disp_y (dc_fb s') = 1.
Proof.
  destruct (debug_console_spec 0xE9 demo_consoles demo_mode (Vga 0 0 (replicate 4000 0) []) demo_fb [72; 105] 1 0 1) as (s' & E & Hl & _ & [_ _ _ [Hx Hy] _ _]);
    [reflexivity|reflexivity|reflexivity| |exact demo_mode_ok|reflexivity|exact demo_fb_ready|reflexivity|reflexivity|repeat constructor; lia|].
  { split; [split; cbn; lia|]. split; [split; cbn; lia|]. split; [reflexivity|]. apply Forall_replicate. lia. }
  exists s'. split; [exact E|]. split; [exact Hl|]. split; [exact Hx|exact Hy].
Defined.
