(* ===== verification/Apic.v ===== *)
(** * The MADT and the I/O interrupt controllers (acpi/madt.cpp, acpi/acpi.h, cpu/ioapic.cpp)

    The table is the list of the bytes from its start on; reading past the end
    of the list is a fault. The registers of the controllers are behind the
    class [IoapicDev], which is the hardware; its laws are what the data sheet
    of the 82093AA says of the index and the data register, of the version
    register and of the redirection table. Log messages are left out. *)
From S2P Require Import Prelude Frigg Pmm.
From stdpp Require Import base numbers option list.
#[local] Open Scope Z_scope.

(** ** The hardware *)
Class IoapicDev (S : Type) := {
  mmio_read : Z → M S Z;
  mmio_write : Z → Z → M S ();
  (** The controllers' addresses, their index registers and their registers. *)
  is_ioapic : Z → Prop;
  io_sel : S → Z → Z;
  io_reg : S → Z → Z → Z;
}.

(** The bits of a redirection register that software can set: in the low half
    all but the two status bits and the reserved ones, in the high half the
    destination. *)
Definition writable (r : Z) : Z := if Z.even r then 0x1AFFF else 0xFF000000.

Class IoapicDevLaws (S : Type) `{!IoapicDev S} : Prop := {
  io_select_law s a r :
    is_ioapic a → 0 ≤ r < 256 →
    ∃ s', mmio_write a r s = Ok (tt, s') ∧ io_sel s' a = r ∧
      (∀ a' r', is_ioapic a' → io_reg s' a' r' = io_reg s a' r');
  io_read_law s a : is_ioapic a → mmio_read (a + 16) s = Ok (io_reg s a (io_sel s a), s);
  io_write_law s a v :
    is_ioapic a → 16 ≤ io_sel s a → 0 ≤ v < 2 ^ 32 →
    ∃ s', mmio_write (a + 16) v s = Ok (tt, s') ∧
      Z.land (io_reg s' a (io_sel s a)) (writable (io_sel s a)) = Z.land v (writable (io_sel s a)) ∧
      (∀ a' r', is_ioapic a' → a' ≠ a ∨ r' ≠ io_sel s a → io_reg s' a' r' = io_reg s a' r');
  io_reg_range s a r : 0 ≤ io_reg s a r < 2 ^ 32;
}.

(** ** The multiple APIC description table *)
Record madt_lapic := MadtLapic { l_proc_id : Z; l_apic_id : Z; l_flags : Z }.
Record madt_ioapic := MadtIoapic { ioapic_id : Z; ioapic_addr : Z; gsi_base : Z }.
Record madt_iso := MadtIso { iso_bus : Z; iso_irq : Z; iso_gsi : Z; iso_flags : Z }.
Record madt_nmi := MadtNmi { nmi_proc_id : Z; nmi_flags : Z; nmi_lint : Z }.

Record madt {V : Type → Type} := Madt {
  madt_lapics : V madt_lapic;
  madt_nmis : V madt_nmi;
  madt_isos : V madt_iso;
  madt_ioapics : V madt_ioapic;
}.
Arguments madt : clear implicits.
Arguments Madt {V} _ _ _ _.

Definition TYPE_LAPIC : Z := 0.
Definition TYPE_IOAPIC : Z := 1.
Definition TYPE_ISO : Z := 2.
Definition TYPE_NMI : Z := 4.

(** A little-endian field of [n] bytes at [off]. *)
Fixpoint field (l : list Z) (off : Z) (n : nat) : outcome Z :=
  match n with
  | O => Ok 0
  | S n' => b ← access (l !! Z.to_nat off); r ← field l (off + 1) n'; Ok (b + 256 * r)
  end.

(** [sizeof(madt)], and where the length of the table is. *)
Definition madt_size : Z := 36 + 4 + 4.
Definition sdt_len_off : Z := 4.

Section madt.
Context {V : Type → Type} `{!FrgVector V}.

(** The structures start after type and length, at [d]. *)
Definition read_lapic (l : list Z) (d : Z) : outcome madt_lapic :=
  p ← field l d 1; a ← field l (d + 1) 1; f ← field l (d + 2) 4; Ok (MadtLapic p a f).
Definition read_ioapic (l : list Z) (d : Z) : outcome madt_ioapic :=
  i ← field l d 1; a ← field l (d + 2) 4; g ← field l (d + 6) 4; Ok (MadtIoapic i a g).
Definition read_iso (l : list Z) (d : Z) : outcome madt_iso :=
  b ← field l d 1; i ← field l (d + 1) 1; g ← field l (d + 2) 4; f ← field l (d + 6) 2; Ok (MadtIso b i g f).
Definition read_nmi (l : list Z) (d : Z) : outcome madt_nmi :=
  p ← field l d 1; f ← field l (d + 1) 2; i ← field l (d + 3) 1; Ok (MadtNmi p f i).

(** What one entry adds; an unknown type adds nothing. *)
Definition madt_entry (l : list Z) (d type : Z) (m : madt V) : outcome (madt V) :=
  if type =? TYPE_LAPIC then
    x ← read_lapic l d; Ok (Madt (vec_push (madt_lapics m) x) (madt_nmis m) (madt_isos m) (madt_ioapics m))
  else if type =? TYPE_IOAPIC then
    x ← read_ioapic l d; Ok (Madt (madt_lapics m) (madt_nmis m) (madt_isos m) (vec_push (madt_ioapics m) x))
  else if type =? TYPE_ISO then
    x ← read_iso l d; Ok (Madt (madt_lapics m) (madt_nmis m) (vec_push (madt_isos m) x) (madt_ioapics m))
  else if type =? TYPE_NMI then
    x ← read_nmi l d; Ok (Madt (madt_lapics m) (vec_push (madt_nmis m) x) (madt_isos m) (madt_ioapics m))
  else Ok m.

(** The loop. Each round adds the length of an entry to the offset, so with a
    round for every byte it ends or an entry of length 0 repeats for ever. *)
Fixpoint madt_loop (fuel : nat) (l : list Z) (off n_entries : Z) (m : madt V) : outcome (madt V) :=
  if off <? n_entries then
    match fuel with
    | O => Hang
    | S fuel' =>
        type ← access (l !! Z.to_nat (madt_size + off));
        len ← access (l !! Z.to_nat (madt_size + off + 1));
        m ← madt_entry l (madt_size + off + 2) type m;
        madt_loop fuel' l (u64 (off + len)) n_entries m
    end
  else Ok m.

(** [table] is what [acpi_find_table("APIC", 0)] points to. *)
Definition madt_init (table : option (list Z)) (m : madt V) : outcome (madt V) :=
  match table with
  | None => Ok m
  | Some l =>
      len ← field l sdt_len_off 4;
      let n_entries := u64 (len - madt_size) in
      madt_loop (Z.to_nat n_entries) l 0 n_entries m
  end.
End madt.

(** ** The I/O interrupt controllers *)
Record apic {S : Type} {V : Type → Type} := Apic { dev : S; tables : madt V }.
Arguments apic : clear implicits.
Arguments Apic {S V} _ _.

Section ioapic.
Context {S : Type} `{!IoapicDev S}.
Context {V : Type → Type} `{!FrgVector V}.
(** Reading an object of the vector that [ioapic_get_iso_by_gsi] copied, after
    the copy was destroyed at its return. *)
Context (freed : madt_iso → outcome madt_iso).
Notation apic := (apic S V).

Definition on_dev {A} (m : M S A) : M apic A := zoom dev (λ d s, Apic d (tables s)) m.
Definition ioapics (s : apic) : list madt_ioapic := vec_elems (madt_ioapics (tables s)).
Definition isos (s : apic) : list madt_iso := vec_elems (madt_isos (tables s)).

(** [madt_get_ioapics()[i].ioapic_addr + VIRT_PHYS_BASE], or a panic. *)
Definition ioapic_base (i : nat) : M apic Z :=
  s ← get_st;
  match ioapics s !! i with
  | None => lift Panic
  | Some a => mret (ioapic_addr a + VIRT_PHYS_BASE)
  end.

Definition ioapic_read (i : nat) (reg : Z) : M apic Z :=
  addr ← ioapic_base i; on_dev (mmio_write addr reg);; on_dev (mmio_read (addr + 16)).
Definition ioapic_write (i : nat) (reg val : Z) : M apic () :=
  addr ← ioapic_base i; on_dev (mmio_write addr reg);; on_dev (mmio_write (addr + 16) val).

Definition ioapic_get_gsi_window_size (i : nat) : M apic Z :=
  v ← ioapic_read i 1; mret (Z.land (Z.shiftr v 16) 0xff).

(** The search from controller [i] on, over the rest of the vector. *)
Fixpoint gsi_search (gsi : Z) (i : nat) (l : list madt_ioapic) : M apic nat :=
  match l with
  | [] => lift Panic
  | a :: l' =>
      window_size ← ioapic_get_gsi_window_size i;
      if (gsi_base a <=? gsi) && (gsi <=? gsi_base a + window_size) then mret i
      else gsi_search gsi (Datatypes.S i) l'
  end.
Definition ioapic_get_by_gsi (gsi : Z) : M apic nat := s ← get_st; gsi_search gsi 0 (ioapics s).

Definition redirection (irq flags apic_id : Z) (masked : bool) : Z :=
  let ent := irq in
  let ent := if has flags 2 then Z.lor ent (2 ^ 13) else ent in
  let ent := if has flags 8 then Z.lor ent (2 ^ 15) else ent in
  let ent := if masked then Z.lor ent (2 ^ 16) else ent in
  Z.lor ent (Z.shiftl apic_id 56).

Definition write_entry (i : nat) (reg ent : Z) : M apic () :=
  ioapic_write i reg (u32 ent);; ioapic_write i (u32 (reg + 1)) (u32 (Z.shiftr ent 32)).

Definition ioapic_map_pin_to_irq (i : nat) (irq pin flags apic_id : Z) (masked : bool) : M apic () :=
  write_entry i (u32 (pin * 2 + 16)) (redirection irq flags apic_id masked).

Definition ioapic_mask_pin (i : nat) (pin : Z) (masked : bool) : M apic () :=
  let reg := u32 (pin * 2 + 16) in
  lo ← ioapic_read i reg;
  hi ← ioapic_read i (u32 (reg + 1));
  let ent := Z.lor lo (Z.shiftl hi 32) in
  write_entry i reg (if masked then Z.lor ent (2 ^ 16) else Z.ldiff ent (2 ^ 16)).

(** The controller of an interrupt and the number of its pin. *)
Definition pin_of_gsi (gsi : Z) : M apic (nat * Z) :=
  i ← ioapic_get_by_gsi gsi;
  s ← get_st;
  a ← lift (access (ioapics s !! i));
  mret (i, u32 (gsi - gsi_base a)).

Definition ioapic_mask_gsi (gsi : Z) (masked : bool) : M apic () :=
  p ← pin_of_gsi gsi; ioapic_mask_pin p.1 p.2 masked.
Definition ioapic_map_gsi_to_irq (irq gsi flags apic_id : Z) (masked : bool) : M apic () :=
  p ← pin_of_gsi gsi; ioapic_map_pin_to_irq p.1 irq p.2 flags apic_id masked.

(** The element found is in a copy of the vector that is gone when the
    pointer to it is used. *)
Definition ioapic_get_iso_by_gsi (gsi : Z) : M apic (option madt_iso) :=
  s ← get_st; mret (snd <$> list_find (λ x, iso_gsi x = gsi) (isos s)).

(** [n] pins of controller [i], from pin [j] and vector [vec] on. *)
Fixpoint init_pins (n : nat) (i : nat) (j vec : Z) : M apic Z :=
  match n with
  | O => mret vec
  | Datatypes.S n' =>
      iso ← ioapic_get_iso_by_gsi (u32 (vec - 0x40));
      (match iso with
       | None => ioapic_map_pin_to_irq i vec j 0 0 false
       | Some x => x ← lift (freed x); ioapic_map_pin_to_irq i vec j (iso_flags x) 0 false
       end);;
      init_pins n' i (j + 1) (u8 (vec + 1))
  end.

Fixpoint init_ioapics (i : nat) (l : list madt_ioapic) (vec : Z) : M apic Z :=
  match l with
  | [] => mret vec
  | _ :: l' =>
      if vec <? 0xE0 then
        n_pins ← ioapic_get_gsi_window_size i;
        vec ← init_pins (Z.to_nat (n_pins + 1)) i 0 vec;
        init_ioapics (Datatypes.S i) l' vec
      else mret vec
  end.

Definition ioapic_init : M apic () :=
  s ← get_st; vec ← init_ioapics 0 (ioapics s) 0x40; lift (assertion (vec <? 0xE0)).

Fixpoint find_pin (gsi base : Z) (n : nat) (j vec : Z) : (Z + Z) :=
  match n with
  | O => inr vec
  | Datatypes.S n' => if base + j =? gsi then inl vec else find_pin gsi base n' (j + 1) (u8 (vec + 1))
  end.

Fixpoint find_vector (gsi : Z) (i : nat) (l : list madt_ioapic) (vec : Z) : M apic Z :=
  match l with
  | [] => mret 255
  | a :: l' =>
      if vec <? 0xE0 then
        n_pins ← ioapic_get_gsi_window_size i;
        match find_pin gsi (gsi_base a) (Z.to_nat (n_pins + 1)) 0 vec with
        | inl v => mret v
        | inr vec => find_vector gsi (Datatypes.S i) l' vec
        end
      else mret 255
  end.
Definition ioapic_get_vector_by_gsi (gsi : Z) : M apic Z :=
  s ← get_st; find_vector gsi 0 (ioapics s) 0x40.

Definition isa_iso (irq : Z) (l : list madt_iso) : option madt_iso :=
  snd <$> list_find (λ x, iso_bus x = 0 ∧ iso_irq x = irq) l.
Definition ioapic_get_vector_by_irq (irq : Z) : M apic Z :=
  s ← get_st;
  match isa_iso irq (isos s) with
  | Some x => ioapic_get_vector_by_gsi (iso_gsi x)
  | None => ioapic_get_vector_by_gsi irq
  end.
Definition ioapic_get_gsi_by_irq (irq : Z) : M apic Z :=
  s ← get_st; mret (match isa_iso irq (isos s) with Some x => iso_gsi x | None => u32 (-1) end).
End ioapic.
