(* ===== verification/ApicProps.v ===== *)
(** * Properties of the interrupt controllers (Apic.v)

    Programming the redirection tables, looking a vector up, masking; parsing
    the table of the firmware. *)
From S2P Require Import Prelude Frigg Pmm Apic.
From stdpp Require Import base numbers option list sets.
#[local] Open Scope Z_scope.

Section ioapic.
Context {S : Type} `{!IoapicDev S} `{!IoapicDevLaws S}.
Context {V : Type → Type} `{!FrgVector V}.
Notation apic := (apic S V).
Implicit Types (s : apic) (a : madt_ioapic) (l : list madt_ioapic).

(** The address of a controller, a register of it, its last pin. *)
Definition base_of a : Z := ioapic_addr a + VIRT_PHYS_BASE.
Definition reg s b r : Z := io_reg (dev s) b r.
Definition last_pin s a : Z := Z.land (Z.shiftr (reg s (base_of a) 1) 16) 0xff.

(** Every controller of the table is there, has its own address, and no more
    pins than its index register can name. *)
Record apic_ok s : Prop := {
  apic_devs a : a ∈ ioapics s → is_ioapic (base_of a);
  apic_distinct : NoDup (base_of <$> ioapics s);
  apic_pins a : a ∈ ioapics s → last_pin s a < 120;
}.

(** All controllers' pins in the order of the table: controller, pin, global
    interrupt. *)
Definition pins_of s a : list (Z * Z * Z) :=
  (λ j, (base_of a, j, gsi_base a + j)) <$> seqZ 0 (last_pin s a + 1).
Definition pins s l : list (Z * Z * Z) := l ≫= pins_of s.

(** Two states with the same tables and registers. *)
Record same_regs s s' : Prop := {
  same_tables : tables s' = tables s;
  same_reg b r : is_ioapic b → reg s' b r = reg s b r;
}.

Lemma same_regs_trans s1 s2 s3 : same_regs s1 s2 → same_regs s2 s3 → same_regs s1 s3.
Proof. intros [H1 H2] [H3 H4]. split; [congruence|]. intros b r Hb. by rewrite H4, H2. Qed.

Lemma last_pin_range s a : 0 ≤ last_pin s a < 256.
Proof. unfold last_pin. change 0xff with (Z.ones 8). rewrite Z.land_ones by lia. apply Z.mod_pos_bound. lia. Qed.

Lemma ioapic_read_run s i a r :
  ioapics s !! i = Some a → is_ioapic (base_of a) → 0 ≤ r < 256 →
  ∃ s', ioapic_read i r s = Ok (reg s (base_of a) r, s') ∧ same_regs s s'.
Proof.
  intros Ha Hd Hr. destruct (io_select_law (dev s) (base_of a) r Hd Hr) as (d & H1 & Hsel & Hreg).
  exists (Apic d (tables s)). split; [|by split].
  unfold ioapic_read, ioapic_base, on_dev, zoom, reg. cbv [mbind M_bind get_st]. rewrite Ha. cbv [mret M_ret].
  fold (base_of a). rewrite H1. cbn [dev tables]. rewrite io_read_law by done. cbn. by rewrite Hsel, Hreg.
Qed.

Lemma ioapic_write_run s i a r v :
  ioapics s !! i = Some a → is_ioapic (base_of a) → 16 ≤ r < 256 → 0 ≤ v < 2 ^ 32 →
  ∃ s', ioapic_write i r v s = Ok (tt, s') ∧ tables s' = tables s ∧
    Z.land (reg s' (base_of a) r) (writable r) = Z.land v (writable r) ∧
    (∀ b' r', is_ioapic b' → b' ≠ base_of a ∨ r' ≠ r → reg s' b' r' = reg s b' r').
Proof.
  intros Ha Hd Hr Hv. destruct (io_select_law (dev s) (base_of a) r Hd ltac:(lia)) as (d & H1 & Hsel & Hreg).
  destruct (io_write_law d (base_of a) v Hd ltac:(lia) Hv) as (d' & H2 & Hw & Ho). rewrite Hsel in Hw, Ho.
  exists (Apic d' (tables s)). split; [|split_and!; [done|exact Hw|]].
  - unfold ioapic_write, ioapic_base, on_dev, zoom. cbv [mbind M_bind get_st]. rewrite Ha. cbv [mret M_ret].
    fold (base_of a). rewrite H1. cbn [dev tables]. by rewrite H2.
  - intros b' r' Hb' Hne. unfold reg. cbn. by rewrite Ho, Hreg.
Qed.

Lemma window_run s i a :
  ioapics s !! i = Some a → is_ioapic (base_of a) →
  ∃ s', ioapic_get_gsi_window_size i s = Ok (last_pin s a, s') ∧ same_regs s s'.
Proof.
  intros Ha Hd. destruct (ioapic_read_run s i a 1 Ha Hd) as (s' & H & Hs); [lia|].
  exists s'. split; [|done]. unfold ioapic_get_gsi_window_size. by run H.
Qed.

(** ** Redirection entries *)

(** Entry [j] of a controller holds [ent], as far as it can be written. *)
Definition holds s b j (ent : Z) : Prop :=
  Z.land (reg s b (16 + 2 * j)) 0x1AFFF = Z.land ent 0x1AFFF ∧
  Z.land (reg s b (16 + 2 * j + 1)) 0xFF000000 = Z.land (Z.shiftr ent 32) 0xFF000000.
(** Nothing but entry [j] of [b] differs. *)
Definition only_entry s b j s' : Prop :=
  tables s' = tables s ∧
  ∀ b' r, is_ioapic b' → (b' = b ∧ (r = 16 + 2 * j ∨ r = 16 + 2 * j + 1)) ∨ reg s' b' r = reg s b' r.

Lemma land_u32 x m : 0 ≤ m < 2 ^ 32 → Z.land (u32 x) m = Z.land x m.
Proof.
  intros Hm. unfold u32. rewrite <- Z.land_ones by lia. rewrite <- Z.land_assoc, (Z.land_comm (Z.ones 32)).
  rewrite Z.land_ones by lia. by rewrite Z.mod_small.
Qed.

Lemma write_entry_run s i a j ent :
  ioapics s !! i = Some a → is_ioapic (base_of a) → 0 ≤ j < 120 →
  ∃ s', write_entry i (16 + 2 * j) ent s = Ok (tt, s') ∧ only_entry s (base_of a) j s' ∧ holds s' (base_of a) j ent.
Proof.
  intros Ha Hd Hj.
  destruct (ioapic_write_run s i a (16 + 2 * j) (u32 ent) Ha Hd) as (s1 & H1 & Ht1 & Hw1 & Ho1); [lia|apply u32_range|].
  assert (ioapics s1 !! i = Some a) as Ha1 by (unfold ioapics; by rewrite Ht1).
  destruct (ioapic_write_run s1 i a (16 + 2 * j + 1) (u32 (Z.shiftr ent 32)) Ha1 Hd) as (s2 & H2 & Ht2 & Hw2 & Ho2);
    [lia|apply u32_range|].
  exists s2. split; [|split; [split; [congruence|]|]].
  - unfold write_entry. run H1. rewrite (u32_small (16 + 2 * j + 1)) by lia. exact H2.
  - intros b' r Hb'. destruct (decide (b' = base_of a ∧ (r = 16 + 2 * j ∨ r = 16 + 2 * j + 1))) as [?|Hne]; [by left|right].
    rewrite Ho2, Ho1; [done|done| |done|]; (destruct (decide (b' = base_of a)); [right; intros ->; apply Hne; auto|by left]).
  - assert (Z.even (16 + 2 * j) = true) as He by (replace (16 + 2 * j) with (2 * (8 + j)) by lia; apply Z.even_even).
    assert (Z.even (16 + 2 * j + 1) = false) as Hne by (rewrite Z.add_1_r, Z.even_succ, <- Z.negb_even, He; done).
    unfold writable in *. rewrite He in Hw1. rewrite Hne in Hw2. split.
    + rewrite Ho2 by (done || right; lia). rewrite Hw1. by apply land_u32.
    + rewrite Hw2. by apply land_u32.
Qed.

(** Pin [j] of [b] raises vector [v] on processor 0, unmasked. *)
Definition routed s b j v : Prop :=
  Z.land (reg s b (16 + 2 * j)) 0x100FF = v ∧ Z.land (reg s b (16 + 2 * j + 1)) 0xFF000000 = 0.

Lemma land_sub x m m' : Z.land m m' = m' → Z.land (Z.land x m) m' = Z.land x m'.
Proof. intros H. by rewrite <- Z.land_assoc, H. Qed.

Lemma redirection_vector irq flags : 0 ≤ irq < 256 → Z.land (redirection irq flags 0 false) 0x100FF = irq.
Proof.
  intros Hi. assert (Z.land irq 0x100FF = irq) as Hirq.
  { change 0x100FF with (Z.lor (2 ^ 16) (Z.ones 8)). rewrite Z.land_lor_distr_r, Z.land_ones, land_pow2 by lia.
    rewrite (testbit_high irq 8) by lia. rewrite Z.mod_small by lia. done. }
  unfold redirection. rewrite Z.shiftl_0_l, Z.lor_0_r.
  destruct (has flags 2), (has flags 8); rewrite ?Z.land_lor_distr_l, ?Hirq;
    change (Z.land (2 ^ 13) 0x100FF) with 0; change (Z.land (2 ^ 15) 0x100FF) with 0; by rewrite ?Z.lor_0_r.
Qed.

Lemma redirection_dest irq flags : 0 ≤ irq < 256 → Z.shiftr (redirection irq flags 0 false) 32 = 0.
Proof.
  intros Hi. unfold redirection. rewrite Z.shiftl_0_l, Z.lor_0_r.
  assert (∀ x, 0 ≤ x < 2 ^ 32 → Z.shiftr x 32 = 0) as Hs by (intros x Hx; rewrite Z.shiftr_div_pow2 by lia; by apply Z.div_small).
  apply Hs. destruct (has flags 2), (has flags 8); repeat (apply lor_range; [done| |done]); lia.
Qed.

Lemma map_pin_run s i a v j flags :
  ioapics s !! i = Some a → is_ioapic (base_of a) → 0 ≤ j < 120 → 0 ≤ v < 256 →
  ∃ s', ioapic_map_pin_to_irq i v j flags 0 false s = Ok (tt, s') ∧ only_entry s (base_of a) j s' ∧ routed s' (base_of a) j v.
Proof.
  intros Ha Hd Hj Hv. destruct (write_entry_run s i a j (redirection v flags 0 false) Ha Hd Hj) as (s' & H & Ho & Hl & Hh).
  exists s'. unfold ioapic_map_pin_to_irq. rewrite (u32_small (j * 2 + 16)) by lia.
  replace (j * 2 + 16) with (16 + 2 * j) by lia. split_and!; [done|done|]. split.
  - rewrite <- (land_sub _ 0x1AFFF) by done. rewrite Hl. rewrite land_sub by done. by apply redirection_vector.
  - by rewrite Hh, redirection_dest.
Qed.

Lemma mask_high hi : Z.land (Z.shiftl hi 32) 0x1AFFF = 0.
Proof.
  apply Z.bits_inj'. intros n Hn. rewrite Z.land_spec, Z.bits_0. destruct (Z.ltb_spec n 32).
  - by rewrite Z.shiftl_spec_low.
  - rewrite (testbit_high 0x1AFFF 32 n) by lia. apply andb_false_r.
Qed.

Lemma mask_dest lo hi (m : bool) :
  0 ≤ lo < 2 ^ 32 →
  Z.shiftr (if m then Z.lor (Z.lor lo (Z.shiftl hi 32)) (2 ^ 16) else Z.ldiff (Z.lor lo (Z.shiftl hi 32)) (2 ^ 16)) 32 = hi.
Proof.
  intros Hlo. apply Z.bits_inj'. intros n Hn. rewrite Z.shiftr_spec by lia.
  destruct m; rewrite ?Z.ldiff_spec, !Z.lor_spec, (testbit_high lo 32), Z.shiftl_spec, Z.pow2_bits_false by lia;
    rewrite ?orb_false_r, ?andb_true_r, orb_false_l; f_equal; lia.
Qed.

(** ** Programming all pins *)
Context (freed : madt_iso → outcome madt_iso).
(** What is read of the destroyed copy may be anything, but it is read. *)
Context (Hfreed : ∀ x, is_Some (match freed x with Ok y => Some y | _ => None end)).

(** Registers of other controllers, and the version registers, are kept. *)
Definition entries_of s (P : Z → Prop) s' : Prop :=
  tables s' = tables s ∧ ∀ b r, is_ioapic b → (P b ∧ 16 ≤ r) ∨ reg s' b r = reg s b r.

Lemma init_pins_run s i a n j v :
  ioapics s !! i = Some a → is_ioapic (base_of a) → 0 ≤ j → j + Z.of_nat n ≤ 120 → 0 ≤ v → v + Z.of_nat n < 256 →
  ∃ s', init_pins freed n i j v s = Ok (v + Z.of_nat n, s') ∧ tables s' = tables s ∧
    (∀ k, 0 ≤ k < Z.of_nat n → routed s' (base_of a) (j + k) (v + k)) ∧
    (∀ b r, is_ioapic b → (b = base_of a ∧ 16 + 2 * j ≤ r) ∨ reg s' b r = reg s b r).
Proof.
  intros Ha Hd. revert s j v Ha. induction n as [|n IH]; intros s j v Ha Hj Hjn Hv Hvn.
  { exists s. split; [by rewrite Z.add_0_r|]. split_and!; [done|lia|auto]. }
  cbn [init_pins]. unfold ioapic_get_iso_by_gsi. erewrite bind_run; [|reflexivity].
  match goal with |- context [match ?o with None => _ | Some _ => _ end] => set (iso := o) end.
  assert (∃ s1, (match iso with
      | None => ioapic_map_pin_to_irq i v j 0 0 false
      | Some x => x ← lift (freed x); ioapic_map_pin_to_irq i v j (iso_flags x) 0 false
      end) s = Ok (tt, s1) ∧ only_entry s (base_of a) j s1 ∧ routed s1 (base_of a) j v) as (s1 & H1 & [Ht1 Ho1] & Hr1).
  { destruct iso as [x|]; [|apply map_pin_run; lia || done].
    destruct (Hfreed x) as [y Hy]. destruct (freed x) as [z| | |] eqn:E; try discriminate.
    cbv [mbind M_bind lift]. apply map_pin_run; lia || done. }
  run H1. assert (u8 (v + 1) = v + 1) as -> by (apply Z.mod_small; lia).
  destruct (IH s1 (j + 1) (v + 1)) as (s2 & H2 & Ht2 & Hr2 & Ho2); [unfold ioapics; by rewrite Ht1|lia..|].
  exists s2. split_and!; [replace (v + Z.of_nat (Datatypes.S n)) with (v + 1 + Z.of_nat n) by lia; exact H2|congruence| |].
  - intros k Hk. destruct (decide (k = 0)) as [->|Hne].
    + rewrite !Z.add_0_r. destruct Hr1 as [Hl Hh].
      assert (∀ r, r < 16 + 2 * (j + 1) → reg s2 (base_of a) r = reg s1 (base_of a) r) as Hk'
        by (intros r Hr; destruct (Ho2 (base_of a) r Hd) as [[_ ?]|]; [lia|done]).
      split; rewrite Hk' by lia; done.
    + replace (j + k) with (j + 1 + (k - 1)) by lia. replace (v + k) with (v + 1 + (k - 1)) by lia. apply Hr2. lia.
  - intros b r Hb. destruct (Ho2 b r Hb) as [[-> Hr]|E2]; [left; split; [done|lia]|].
    rewrite E2. destruct (Ho1 b r Hb) as [[-> Hr]|?]; [left; split; [done|lia]|by right].
Qed.

Lemma pins_of_length s a : Z.of_nat (length (pins_of s a)) = last_pin s a + 1.
Proof. unfold pins_of. rewrite length_fmap, length_seqZ. pose proof (last_pin_range s a). lia. Qed.

Lemma pins_of_lookup s a k b j g :
  pins_of s a !! k = Some (b, j, g) ↔ b = base_of a ∧ j = Z.of_nat k ∧ j ≤ last_pin s a ∧ g = gsi_base a + j.
Proof.
  unfold pins_of. rewrite list_lookup_fmap, fmap_Some. split.
  - intros (x & Hx%lookup_seqZ & [= -> -> ->]). split_and!; try done; lia.
  - intros (-> & -> & Hk & ->). exists (Z.of_nat k). rewrite lookup_seqZ. split; [lia|done].
Qed.

(** The pins are the same while the version registers are. *)
Lemma pins_same s s' l :
  (∀ a, a ∈ l → is_ioapic (base_of a)) → (∀ b, is_ioapic b → reg s' b 1 = reg s b 1) → pins s' l = pins s l.
Proof.
  intros Hd Hs. induction l as [|a l IH]; [done|]. cbn. f_equal; [|apply IH; intros; apply Hd; by right].
  unfold pins_of, last_pin. by rewrite Hs by (apply Hd; by left).
Qed.

Lemma init_ioapics_run s l1 l v :
  ioapics s = l1 ++ l → (∀ a, a ∈ l → is_ioapic (base_of a) ∧ last_pin s a < 120) → NoDup (base_of <$> l) →
  0 ≤ v → v + Z.of_nat (length (pins s l)) < 0xE0 →
  ∃ s', init_ioapics freed (length l1) l v s = Ok (v + Z.of_nat (length (pins s l)), s') ∧
    entries_of s (λ b, b ∈ base_of <$> l) s' ∧
    (∀ k b j g, pins s l !! k = Some (b, j, g) → routed s' b j (v + Z.of_nat k)).
Proof.
  revert s l1 v. induction l as [|a l IH]; intros s l1 v Hl Hd Hnd Hv Htot.
  { exists s. split; [by rewrite Z.add_0_r|]. split; [split; [done|auto]|]. intros k b j g Hk. discriminate. }
  assert (ioapics s !! length l1 = Some a) as Ha by (rewrite Hl; by apply list_lookup_middle).
  destruct (Hd a) as [Hda Hpa]; [by left|]. pose proof (last_pin_range s a) as Hlp.
  assert (Z.of_nat (length (pins s (a :: l))) = last_pin s a + 1 + Z.of_nat (length (pins s l))) as Hlen
    by (change (pins s (a :: l)) with (pins_of s a ++ pins s l); rewrite length_app; pose proof (pins_of_length s a); lia).
  rewrite Hlen in *. cbn [init_ioapics]. destruct (Z.ltb_spec v 0xE0); [|lia].
  destruct (window_run s _ a Ha Hda) as (s1 & H1 & [Ht1 Hr1]). run H1.
  assert (ioapics s1 = ioapics s) as Hio1 by (unfold ioapics; by rewrite Ht1).
  destruct (init_pins_run s1 (length l1) a (Z.to_nat (last_pin s a + 1)) 0 v) as (s2 & H2 & Ht2 & Hrt2 & Ho2);
    [by rewrite Hio1|done|lia..|]. run H2. rewrite Z2Nat.id in * by lia.
  assert (∀ b, is_ioapic b → reg s2 b 1 = reg s b 1) as Hver.
  { intros b Hb. destruct (Ho2 b 1 Hb) as [[_ ?]|E]; [lia|]. by rewrite E, Hr1. }
  assert (∀ x, x ∈ l → is_ioapic (base_of x)) as Hdl by (intros x Hx; apply Hd; by right).
  assert (pins s2 l = pins s l) as Hpins by by apply pins_same.
  assert (ioapics s2 = (l1 ++ [a]) ++ l) as Hio2 by (unfold ioapics; rewrite Ht2, Ht1; fold (ioapics s); by rewrite Hl, <- app_assoc).
  apply NoDup_cons in Hnd as [Hna Hnd].
  destruct (IH s2 (l1 ++ [a]) (v + (last_pin s a + 1))) as (s3 & H3 & [Ht3 He3] & Hrt3); [done| |done|lia|rewrite Hpins; lia|].
  { intros x Hx. split; [by apply Hdl|]. unfold last_pin. rewrite Hver by by apply Hdl. apply Hd. by right. }
  rewrite Hpins in *. rewrite length_app, Nat.add_1_r in H3. exists s3. split_and!.
  - rewrite H3. by rewrite (Z.add_assoc v (last_pin s a + 1)).
  - split; [congruence|]. intros b r Hb. destruct (He3 b r Hb) as [[? ?]|E3]; [left; split; [by right|done]|].
    destruct (Ho2 b r Hb) as [[-> ?]|E2]; [left; split; [by left|lia]|right; by rewrite E3, E2, Hr1].
  - intros k b j g Hk. change (pins s (a :: l)) with (pins_of s a ++ pins s l) in Hk.
    pose proof (pins_of_length s a) as Hpl. apply lookup_app_Some in Hk as [Hk|[Hge Hk]].
    + apply pins_of_lookup in Hk as (-> & -> & Hk & _).
      assert (∀ r, reg s3 (base_of a) r = reg s2 (base_of a) r) as Hkeep
        by (intros r; by destruct (He3 (base_of a) r Hda) as [[? _]|]).
      destruct (Hrt2 (Z.of_nat k)) as [Hlo Hhi]; [lia|]. split; rewrite Hkeep; [exact Hlo|exact Hhi].
    + replace (v + Z.of_nat k) with (v + (last_pin s a + 1) + Z.of_nat (k - length (pins_of s a))) by lia.
      by apply (Hrt3 _ b j g).
Qed.

(** ** Looking a vector up *)

(** The first pin of an interrupt. *)
Definition first_pin (g : Z) (l : list (Z * Z * Z)) : option nat := fst <$> list_find (λ p, p.2 = g) l.

Lemma first_pin_nil g : first_pin g [] = None.
Proof. done. Qed.
Lemma first_pin_cons g p (l : list (Z * Z * Z)) : first_pin g (p :: l) = if decide (p.2 = g) then Some O else Datatypes.S <$> first_pin g l.
Proof.
  unfold first_pin. cbn. case_decide; [done|]. destruct (list_find _ l) as [[k q]|]; done.
Qed.
Lemma first_pin_app g (l l' : list (Z * Z * Z)) :
  first_pin g (l ++ l') = match first_pin g l with Some k => Some k | None => Nat.add (length l) <$> first_pin g l' end.
Proof.
  induction l as [|p l IH].
  { rewrite app_nil_l, first_pin_nil. by destruct (first_pin g l'). }
  rewrite <- app_comm_cons, !first_pin_cons, IH. case_decide; [done|]. destruct (first_pin g l); [done|].
  by destruct (first_pin g l').
Qed.

Lemma first_pin_here g (l : list (Z * Z * Z)) k p :
  l !! k = Some p → p.2 = g → (∀ k' q, (k' < k)%nat → l !! k' = Some q → q.2 ≠ g) → first_pin g l = Some k.
Proof.
  intros Hk Hp Hfirst. unfold first_pin. apply fmap_Some. exists (k, p). split; [|done]. apply list_find_Some.
  split; [done|]. split; [done|]. intros k' q Hq Hlt. by apply (Hfirst k' q).
Qed.

Lemma find_pin_run g b x n j v :
  0 ≤ v → v + Z.of_nat n < 256 →
  find_pin g b n j v = match first_pin g ((λ j, (x, j, b + j)) <$> seqZ j (Z.of_nat n)) with
                       | Some k => inl (v + Z.of_nat k) | None => inr (v + Z.of_nat n) end.
Proof.
  revert j v. induction n as [|n IH]; intros j v Hv Hvn; [by rewrite Z.add_0_r|].
  rewrite seqZ_cons by lia. rewrite fmap_cons, first_pin_cons. cbn [find_pin snd].
  destruct (Z.eqb_spec (b + j) g) as [He|Hne]; [rewrite decide_True by done; by rewrite Z.add_0_r|rewrite decide_False by done].
  assert (u8 (v + 1) = v + 1) as -> by (apply Z.mod_small; lia). rewrite IH by lia.
  change (j + 1) with (Z.succ j). replace (Z.pred (Z.of_nat (Datatypes.S n))) with (Z.of_nat n) by lia.
  destruct (first_pin _ _); cbn [fmap option_fmap option_map]; f_equal; lia.
Qed.

Lemma find_vector_run g s l1 l v :
  ioapics s = l1 ++ l → (∀ a, a ∈ l → is_ioapic (base_of a)) → 0 ≤ v → v + Z.of_nat (length (pins s l)) < 0xE0 →
  ∃ s', find_vector g (length l1) l v s =
      Ok (match first_pin g (pins s l) with Some k => v + Z.of_nat k | None => 255 end, s') ∧ same_regs s s'.
Proof.
  revert s l1 v. induction l as [|a l IH]; intros s l1 v Hl Hd Hv Htot; [by exists s|].
  assert (ioapics s !! length l1 = Some a) as Ha by (rewrite Hl; by apply list_lookup_middle).
  assert (is_ioapic (base_of a)) as Hda by (apply Hd; by left). pose proof (last_pin_range s a) as Hlp.
  pose proof (pins_of_length s a) as Hpl. change (pins s (a :: l)) with (pins_of s a ++ pins s l) in *.
  rewrite length_app in Htot. cbn [find_vector]. destruct (Z.ltb_spec v 0xE0); [|lia].
  destruct (window_run s _ a Ha Hda) as (s1 & H1 & Hs1). pose proof Hs1 as [Ht1 Hr1]. run H1.
  rewrite (find_pin_run g (gsi_base a) (base_of a)) by lia. rewrite Z2Nat.id by lia. fold (pins_of s a).
  rewrite first_pin_app. destruct (first_pin g (pins_of s a)) as [k|]; [by exists s1|].
  assert (pins s1 l = pins s l) as Hp1 by (apply pins_same; [intros; apply Hd; by right|intros; by apply Hr1]).
  destruct (IH s1 (l1 ++ [a]) (v + (last_pin s a + 1))) as (s2 & H2 & Hs2).
  - unfold ioapics. rewrite Ht1. fold (ioapics s). by rewrite Hl, <- app_assoc.
  - intros; apply Hd; by right.
  - lia.
  - rewrite Hp1. lia.
  - rewrite length_app, Nat.add_1_r, Hp1 in H2. exists s2. rewrite H2. split; [|by eapply same_regs_trans].
    destruct (first_pin g (pins s l)); cbn [fmap option_fmap option_map]; [|done]. do 2 f_equal. lia.
Qed.

(** C18. After [ioapic_init], pin number [k] in the order of the table is
    unmasked and raises vector [0x40 + k] on processor 0, and the vector
    found for a global interrupt is the one its pin raises. There are fewer
    than 160 pins, as the assertion of [ioapic_init] asks. *)
Theorem ioapic_routing s :
  apic_ok s → Z.of_nat (length (pins s (ioapics s))) < 160 →
  ∃ s', ioapic_init freed s = Ok (tt, s') ∧
    (∀ k b j g, pins s (ioapics s) !! k = Some (b, j, g) →
       routed s' b j (0x40 + Z.of_nat k) ∧
       ((∀ k' p, (k' < k)%nat → pins s (ioapics s) !! k' = Some p → p.2 ≠ g) →
        ∃ s'', ioapic_get_vector_by_gsi g s' = Ok (0x40 + Z.of_nat k, s'') ∧ same_regs s' s'')) ∧
    (∀ g, (∀ p, p ∈ pins s (ioapics s) → p.2 ≠ g) →
       ∃ s'', ioapic_get_vector_by_gsi g s' = Ok (255, s'') ∧ same_regs s' s'').
Proof.
  intros [Hd Hnd Hp] Hlen.
  destruct (init_ioapics_run s [] (ioapics s) 0x40) as (s' & H & [Ht He] & Hr); [done|auto|done|done|lia|].
  exists s'. split.
  { unfold ioapic_init. erewrite bind_run; [|reflexivity]. cbn [length] in H. run H.
    destruct (Z.ltb_spec (0x40 + Z.of_nat (length (pins s (ioapics s)))) 0xE0); [done|lia]. }
  assert (ioapics s' = ioapics s) as Hio by (unfold ioapics; by rewrite Ht).
  assert (pins s' (ioapics s) = pins s (ioapics s)) as Hps.
  { apply pins_same; [done|]. intros b Hb. by destruct (He b 1 Hb) as [[_ ?]|]. }
  assert (∀ g, ∃ s'', ioapic_get_vector_by_gsi g s' =
    Ok (match first_pin g (pins s (ioapics s)) with Some k => 0x40 + Z.of_nat k | None => 255 end, s'') ∧ same_regs s' s'') as Hv.
  { intros g. rewrite <- Hps. unfold ioapic_get_vector_by_gsi. erewrite bind_run; [|reflexivity]. rewrite <- Hio.
    apply (find_vector_run g s' []); [done|by rewrite Hio|done|]. rewrite Hio, Hps. lia. }
  split.
  - intros k b j g Hk. split; [by apply (Hr k b j g)|]. intros Hfirst. destruct (Hv g) as (s'' & E & Hs).
    exists s''. rewrite E. by rewrite (first_pin_here g _ k _ Hk).
  - intros g Hg. destruct (Hv g) as (s'' & E & Hs). exists s''. rewrite E. split; [|done].
    unfold first_pin. rewrite (proj2 (list_find_None _ _)); [done|]. by apply Forall_forall.
Qed.

(** ** Masking *)
Lemma gsi_search_run g s l1 a l2 l3 :
  ioapics s = l1 ++ l2 ++ a :: l3 → (∀ x, x ∈ l2 ++ [a] → is_ioapic (base_of x)) →
  (∀ x, x ∈ l2 → ¬ gsi_base x ≤ g ≤ gsi_base x + last_pin s x) → gsi_base a ≤ g ≤ gsi_base a + last_pin s a →
  ∃ s', gsi_search g (length l1) (l2 ++ a :: l3) s = Ok (length (l1 ++ l2), s') ∧ same_regs s s'.
Proof.
  revert s l1. induction l2 as [|x l2 IH]; intros s l1 Hio Hd Hno Hin; cbn [app gsi_search].
  - assert (ioapics s !! length l1 = Some a) as Ha by (rewrite Hio; by apply list_lookup_middle).
    destruct (window_run s _ a Ha) as (s1 & H1 & Hs1); [apply Hd; by left|]. run H1. rewrite app_nil_r.
    destruct (Z.leb_spec (gsi_base a) g), (Z.leb_spec g (gsi_base a + last_pin s a)); try lia. by exists s1.
  - assert (ioapics s !! length l1 = Some x) as Ha by (rewrite Hio; by apply list_lookup_middle).
    destruct (window_run s _ x Ha) as (s1 & H1 & Hs1); [apply Hd; by left|]. run H1. pose proof Hs1 as [Ht1 Hr1].
    assert (∀ y, y ∈ x :: l2 ++ [a] → last_pin s1 y = last_pin s y) as Hlp
      by (intros y Hy; unfold last_pin; by rewrite Hr1 by by apply Hd).
    specialize (Hno x ltac:(by left)) as Hx.
    destruct (Z.leb_spec (gsi_base x) g), (Z.leb_spec g (gsi_base x + last_pin s x)); try lia; cbn [andb];
    (destruct (IH s1 (l1 ++ [x])) as (s2 & H2 & Hs2);
      [unfold ioapics; rewrite Ht1; fold (ioapics s); by rewrite Hio, <- app_assoc
      |intros y Hy; apply Hd; by right
      |intros y Hy; rewrite Hlp; [apply Hno; by right|right; apply elem_of_app; by left]
      |rewrite Hlp; [done|right; apply elem_of_app; right; by left]|]);
    rewrite length_app, Nat.add_1_r in H2; (exists s2; rewrite H2, <- app_assoc; split; [done|by eapply same_regs_trans]).
Qed.

(** Masking a global interrupt finds the first controller with a pin for it
    and changes only that pin's entry, of the entry only the mask. *)
Theorem ioapic_mask_gsi_spec s g (m : bool) l2 a l3 :
  apic_ok s → ioapics s = l2 ++ a :: l3 →
  (∀ x, x ∈ l2 → ¬ gsi_base x ≤ g ≤ gsi_base x + last_pin s x) →
  gsi_base a ≤ g ≤ gsi_base a + last_pin s a → 0 ≤ gsi_base a →
  let j := g - gsi_base a in
  let lo := reg s (base_of a) (16 + 2 * j) in
  ∃ s', ioapic_mask_gsi g m s = Ok (tt, s') ∧ only_entry s (base_of a) j s' ∧
    Z.land (reg s' (base_of a) (16 + 2 * j)) 0x1AFFF =
      Z.land (if m then Z.lor lo (2 ^ 16) else Z.ldiff lo (2 ^ 16)) 0x1AFFF ∧
    Z.land (reg s' (base_of a) (16 + 2 * j + 1)) 0xFF000000 = Z.land (reg s (base_of a) (16 + 2 * j + 1)) 0xFF000000.
Proof.
  intros [Hd _ Hp] Hio Hno Hin Hb j lo. pose proof (last_pin_range s a) as Hlp.
  assert (a ∈ ioapics s) as Hina by (rewrite Hio; apply elem_of_app; right; by left).
  pose proof (Hd a Hina) as Hda. specialize (Hp a Hina).
  destruct (gsi_search_run g s [] a l2 l3) as (s1 & H1 & [Ht1 Hr1]); [done| |done|done|].
  { intros x Hx. apply Hd. rewrite Hio. apply elem_of_app in Hx as [Hx|Hx]; apply elem_of_app; [by left|right].
    apply list_elem_of_singleton in Hx as ->. by left. }
  assert (ioapics s1 = ioapics s) as Hio1 by (unfold ioapics; by rewrite Ht1).
  assert (ioapics s1 !! length l2 = Some a) as Ha1 by (rewrite Hio1, Hio; by apply list_lookup_middle).
  destruct (ioapic_read_run s1 (length l2) a (16 + 2 * j) Ha1 Hda) as (s2 & H2 & [Ht2 Hr2]); [unfold j; lia|].
  assert (ioapics s2 !! length l2 = Some a) as Ha2 by (unfold ioapics; rewrite Ht2; exact Ha1).
  destruct (ioapic_read_run s2 (length l2) a (16 + 2 * j + 1) Ha2 Hda) as (s3 & H3 & [Ht3 Hr3]); [unfold j; lia|].
  assert (ioapics s3 !! length l2 = Some a) as Ha3 by (unfold ioapics; rewrite Ht3; exact Ha2).
  set (hi := reg s2 (base_of a) (16 + 2 * j + 1)) in *.
  set (ent := Z.lor (reg s1 (base_of a) (16 + 2 * j)) (Z.shiftl hi 32)).
  destruct (write_entry_run s3 (length l2) a j (if m then Z.lor ent (2 ^ 16) else Z.ldiff ent (2 ^ 16)) Ha3 Hda)
    as (s4 & H4 & [Ht4 Ho4] & Hlo & Hhi); [unfold j; lia|].
  assert (reg s1 (base_of a) (16 + 2 * j) = lo) as Elo by by apply Hr1.
  assert (hi = reg s (base_of a) (16 + 2 * j + 1)) as Ehi by (unfold hi; by rewrite Hr2, Hr1).
  pose proof (io_reg_range (dev s) (base_of a) (16 + 2 * j)) as Hlor. fold (reg s (base_of a) (16 + 2 * j)) in Hlor. fold lo in Hlor.
  exists s4. split_and!.
  - unfold ioapic_mask_gsi, pin_of_gsi, ioapic_get_by_gsi. cbv [mbind M_bind get_st lift access mret M_ret].
    rewrite Hio. cbn [length] in H1. rewrite H1. cbn [app length]. rewrite Ha1. cbn [fst snd].
    fold j. rewrite (u32_small j) by (unfold j; lia). unfold ioapic_mask_pin.
    rewrite (u32_small (j * 2 + 16)), (u32_small (j * 2 + 16 + 1)) by (unfold j; lia).
    replace (j * 2 + 16) with (16 + 2 * j) by lia. cbv [mbind M_bind]. rewrite H2, H3. exact H4.
  - split; [congruence|]. intros b r Hbr. destruct (Ho4 b r Hbr) as [?|E]; [by left|right]. by rewrite E, Hr3, Hr2, Hr1.
  - rewrite Hlo. unfold ent. rewrite Elo. destruct m.
    + rewrite !Z.land_lor_distr_l. rewrite (mask_high hi). by rewrite Z.lor_0_r.
    + apply Z.bits_inj'. intros n Hn. rewrite !Z.land_spec, !Z.ldiff_spec, Z.lor_spec.
      destruct (Z.ltb_spec n 32).
      * rewrite Z.shiftl_spec_low by lia. by rewrite orb_false_r.
      * rewrite (testbit_high 0x1AFFF 32 n) by lia. by rewrite !andb_false_r.
  - rewrite Hhi, <- Ehi. unfold ent. rewrite Elo. f_equal. by apply mask_dest.
Qed.
End ioapic.

(** ** A controller with 24 pins *)
Section demo.
Import Frigg.Instances.
Record io_demo := IoDemo { d_sel : Z; d_regs : Z → Z }.
Definition demo_addr : Z := 0xFEC00000 + VIRT_PHYS_BASE.
Definition demo_reg (s : io_demo) (r : Z) : Z := if r =? 1 then 0x170020 else u32 (d_regs s r).

#[local] Instance demo_ioapic : IoapicDev io_demo := {|
  mmio_read a := λ s, if a =? demo_addr + 16 then Ok (demo_reg s (d_sel s), s) else Fault;
  mmio_write a v := λ s,
    if a =? demo_addr then Ok (tt, IoDemo v (d_regs s))
    else if a =? demo_addr + 16 then
      Ok (tt, IoDemo (d_sel s) (λ r, if r =? d_sel s then Z.land v (writable r) else d_regs s r))
    else Fault;
  is_ioapic a := a = demo_addr;
  io_sel s _ := d_sel s;
  io_reg s _ r := demo_reg s r;
|}.

#[local] Instance demo_ioapic_laws : IoapicDevLaws io_demo.
Proof.
  split; cbn [mmio_read mmio_write is_ioapic io_sel io_reg demo_ioapic].
  - intros s a r -> Hr. rewrite Z.eqb_refl. eexists. split; [reflexivity|]. done.
  - intros s a ->. by rewrite Z.eqb_refl.
  - intros s a v -> Hsel Hv. rewrite Z.eqb_refl. destruct (Z.eqb_spec (demo_addr + 16) demo_addr); [lia|].
    eexists. split; [reflexivity|]. unfold demo_reg. cbn [d_sel d_regs]. split.
    + destruct (Z.eqb_spec (d_sel s) 1); [lia|]. rewrite Z.eqb_refl.
      assert (0 ≤ writable (d_sel s) < 2 ^ 32) by (unfold writable; destruct (Z.even _); lia).
      rewrite land_u32 by done. by rewrite <- Z.land_assoc, Z.land_diag.
    + intros a' r' -> [?|Hne]; [done|]. destruct (Z.eqb_spec r' 1); [done|]. by destruct (Z.eqb_spec r' (d_sel s)).
  - intros s a r. unfold demo_reg. destruct (r =? 1); [lia|apply u32_range].
Qed.

Definition demo_apic : apic io_demo list :=
  Apic (IoDemo 0 (λ _, 0x10000)) (Madt [] [] [MadtIso 0 0 2 0] [MadtIoapic 0 0xFEC00000 0]).

Lemma demo_apic_ok : apic_ok demo_apic.
Proof.
  split.
  - intros a ->%list_elem_of_singleton. done.
  - apply NoDup_singleton.
  - intros a ->%list_elem_of_singleton. vm_compute. done.
Qed.

Lemma ioapic_routing_witness :
  ∃ s' s'', ioapic_init Ok demo_apic = Ok (tt, s') ∧ ioapic_get_vector_by_gsi 2 s' = Ok (0x42, s'') ∧
    routed s' demo_addr 2 0x42.
Proof.
  destruct (ioapic_routing Ok (λ x, ex_intro _ x eq_refl) demo_apic demo_apic_ok) as (s' & H & Hr & _); [vm_compute; done|].
  destruct (Hr 2%nat demo_addr 2 2) as [Hp Hv]; [vm_compute; reflexivity|].
  destruct Hv as (s'' & E & _).
  - intros [|[|k']] p Hk Hp'; [| |lia]; vm_compute in Hp'; by injection Hp' as <-.
  - exists s', s''. split; [exact H|]. split; [exact E|exact Hp].
Defined.

Lemma ioapic_mask_gsi_spec_witness :
  ∃ s', ioapic_mask_gsi 5 false demo_apic = Ok (tt, s') ∧ Z.land (reg s' demo_addr 26) 0x1AFFF = 0.
Proof.
  destruct (ioapic_mask_gsi_spec demo_apic 5 false [] (MadtIoapic 0 0xFEC00000 0) []) as (s' & H & _ & Hlo & _).
  - exact demo_apic_ok.
  - reflexivity.
  - by intros x ?%not_elem_of_nil.
  - vm_compute. split; discriminate.
  - done.
  - exists s'. split; [exact H|exact Hlo].
Defined.
End demo.

(** ** The table of the firmware *)
Fixpoint le (n : nat) (z : Z) : list Z :=
  match n with O => [] | S n' => z mod 256 :: le n' (z / 256) end.

Lemma le_length n z : length (le n z) = n.
Proof. revert z. induction n as [|n IH]; intros z; cbn; [done|by rewrite IH]. Qed.

(** A field written at the end of a prefix is read back. *)
Lemma field_le pre n z rest :
  0 ≤ z < 256 ^ Z.of_nat n → field (pre ++ le n z ++ rest) (Z.of_nat (length pre)) n = Ok z.
Proof.
  revert pre z. induction n as [|n IH]; intros pre z Hz; [cbn in *; f_equal; lia|].
  cbn [field le app]. rewrite Nat2Z.id, list_lookup_middle by done. cbn [access mbind outcome_bind].
  replace (Z.of_nat (length pre) + 1) with (Z.of_nat (length (pre ++ [z mod 256]))) by (rewrite length_app; cbn; lia).
  replace (pre ++ z mod 256 :: le n (z / 256) ++ rest) with ((pre ++ [z mod 256]) ++ le n (z / 256) ++ rest)
    by by rewrite <- app_assoc.
  rewrite IH.
  - cbn. f_equal. pose proof (Z.div_mod z 256). lia.
  - replace (Z.of_nat (S n)) with (Z.succ (Z.of_nat n)) in Hz by lia. rewrite Z.pow_succ_r in Hz by lia.
    split; [apply Z.div_pos; lia|apply Z.div_lt_upper_bound; lia].
Qed.

Lemma field_at l off n z pre rest :
  l = pre ++ le n z ++ rest → Z.of_nat (length pre) = off → 0 ≤ z < 256 ^ Z.of_nat n → field l off n = Ok z.
Proof. intros -> <-. apply field_le. Qed.

(** The entries as the firmware writes them; a type that is not known has any
    contents. *)
Inductive entry :=
| ELapic (x : madt_lapic)
| EIoapic (reserved : Z) (x : madt_ioapic)
| EIso (x : madt_iso)
| ENmi (x : madt_nmi)
| EOther (type : Z) (data : list Z).

Definition entry_type (e : entry) : Z :=
  match e with
  | ELapic _ => TYPE_LAPIC | EIoapic _ _ => TYPE_IOAPIC | EIso _ => TYPE_ISO | ENmi _ => TYPE_NMI | EOther t _ => t
  end.
Definition entry_data (e : entry) : list Z :=
  match e with
  | ELapic x => le 1 (l_proc_id x) ++ le 1 (l_apic_id x) ++ le 4 (l_flags x)
  | EIoapic r x => le 1 (ioapic_id x) ++ le 1 r ++ le 4 (ioapic_addr x) ++ le 4 (gsi_base x)
  | EIso x => le 1 (iso_bus x) ++ le 1 (iso_irq x) ++ le 4 (iso_gsi x) ++ le 2 (iso_flags x)
  | ENmi x => le 1 (nmi_proc_id x) ++ le 2 (nmi_flags x) ++ le 1 (nmi_lint x)
  | EOther _ d => d
  end.
Definition entry_len (e : entry) : Z := 2 + Z.of_nat (length (entry_data e)).
Definition entry_bytes (e : entry) : list Z := entry_type e :: entry_len e :: entry_data e.

Definition is_byte (z : Z) : Prop := 0 ≤ z < 256.
Definition entry_ok (e : entry) : Prop :=
  match e with
  | ELapic x => is_byte (l_proc_id x) ∧ is_byte (l_apic_id x) ∧ 0 ≤ l_flags x < 2 ^ 32
  | EIoapic _ x => is_byte (ioapic_id x) ∧ 0 ≤ ioapic_addr x < 2 ^ 32 ∧ 0 ≤ gsi_base x < 2 ^ 32
  | EIso x => is_byte (iso_bus x) ∧ is_byte (iso_irq x) ∧ 0 ≤ iso_gsi x < 2 ^ 32 ∧ 0 ≤ iso_flags x < 2 ^ 16
  | ENmi x => is_byte (nmi_proc_id x) ∧ 0 ≤ nmi_flags x < 2 ^ 16 ∧ is_byte (nmi_lint x)
  | EOther t d => t ≠ 0 ∧ t ≠ 1 ∧ t ≠ 2 ∧ t ≠ 4 ∧ Z.of_nat (length d) < 254
  end.

Section parse.
Context {V : Type → Type} `{!FrgVector V} `{!FrgVectorLaws V}.
Notation madt := (madt V).

Definition add_entry (m : madt) (e : entry) : madt :=
  match e with
  | ELapic x => Madt (vec_push (madt_lapics m) x) (madt_nmis m) (madt_isos m) (madt_ioapics m)
  | EIoapic _ x => Madt (madt_lapics m) (madt_nmis m) (madt_isos m) (vec_push (madt_ioapics m) x)
  | EIso x => Madt (madt_lapics m) (madt_nmis m) (vec_push (madt_isos m) x) (madt_ioapics m)
  | ENmi x => Madt (madt_lapics m) (vec_push (madt_nmis m) x) (madt_isos m) (madt_ioapics m)
  | EOther _ _ => m
  end.

(** The fields of a structure, one after the other. *)
Ltac field_read off pre z n :=
  erewrite (field_at _ off n z pre);
    [|rewrite <- ?app_assoc; reflexivity|rewrite ?length_app, ?le_length; lia|unfold is_byte in *; cbn; lia];
  cbn [mbind outcome_bind].

Lemma madt_entry_run (m : madt) e pre rest :
  entry_ok e → madt_entry (pre ++ entry_data e ++ rest) (Z.of_nat (length pre)) (entry_type e) m = Ok (add_entry m e).
Proof.
  destruct e as [x|r x|x|x|t d]; intros Hok; set (d0 := Z.of_nat (length pre)); cbn [entry_ok entry_type entry_data] in *; unfold madt_entry;
    cbv [TYPE_LAPIC TYPE_IOAPIC TYPE_ISO TYPE_NMI]; cbn [Z.eqb Pos.eqb].
  - destruct x as [p a f]. destruct Hok as (? & ? & ?). unfold read_lapic. cbn [l_proc_id l_apic_id l_flags] in *.
    field_read d0 pre p 1%nat. field_read (d0 + 1) (pre ++ le 1 p) a 1%nat. field_read (d0 + 2) (pre ++ le 1 p ++ le 1 a) f 4%nat. reflexivity.
  - destruct x as [i a g]. destruct Hok as (? & ? & ?). unfold read_ioapic. cbn [ioapic_id ioapic_addr gsi_base] in *.
    field_read d0 pre i 1%nat. field_read (d0 + 2) (pre ++ le 1 i ++ le 1 r) a 4%nat. field_read (d0 + 6) (pre ++ le 1 i ++ le 1 r ++ le 4 a) g 4%nat. reflexivity.
  - destruct x as [b i g f]. destruct Hok as (? & ? & ? & ?). unfold read_iso. cbn [iso_bus iso_irq iso_gsi iso_flags] in *.
    field_read d0 pre b 1%nat. field_read (d0 + 1) (pre ++ le 1 b) i 1%nat. field_read (d0 + 2) (pre ++ le 1 b ++ le 1 i) g 4%nat.
    field_read (d0 + 6) (pre ++ le 1 b ++ le 1 i ++ le 4 g) f 2%nat. reflexivity.
  - destruct x as [p f i]. destruct Hok as (? & ? & ?). unfold read_nmi. cbn [nmi_proc_id nmi_flags nmi_lint] in *.
    field_read d0 pre p 1%nat. field_read (d0 + 1) (pre ++ le 1 p) f 2%nat. field_read (d0 + 3) (pre ++ le 1 p ++ le 2 f) i 1%nat. reflexivity.
  - destruct Hok as (? & ? & ? & ? & _). 
    repeat (match goal with |- context [t =? ?c] => destruct (Z.eqb_spec t c); [done|] end). done.
Qed.

Definition body (es : list entry) : list Z := concat (entry_bytes <$> es).
Definition body_len (es : list entry) : Z := Z.of_nat (length (body es)).

Lemma body_cons e es : body_len (e :: es) = entry_len e + body_len es.
Proof. unfold body_len, body, entry_len. cbn. rewrite length_app. lia. Qed.
Lemma entry_len_small e : entry_ok e → 2 ≤ entry_len e < 256.
Proof.
  unfold entry_len. destruct e; cbn [entry_ok entry_data]; rewrite ?length_app, ?le_length; cbn; lia.
Qed.

(** The two bytes an entry starts with. *)
Lemma entry_head (pre : list Z) t n data rest :
  (pre ++ (t :: n :: data) ++ rest) !! length pre = Some t ∧ (pre ++ (t :: n :: data) ++ rest) !! S (length pre) = Some n.
Proof.
  split; rewrite lookup_app_r by lia.
  - by rewrite Nat.sub_diag.
  - by replace (S (length pre) - length pre)%nat with 1%nat by lia.
Qed.

Lemma madt_loop_step fuel pre off n_entries t n data rest (m : madt) :
  off < n_entries → 0 ≤ off → Z.of_nat (length pre) = madt_size + off →
  madt_loop (S fuel) (pre ++ (t :: n :: data) ++ rest) off n_entries m =
  (m ← madt_entry (pre ++ (t :: n :: data) ++ rest) (madt_size + off + 2) t m;
   madt_loop fuel (pre ++ (t :: n :: data) ++ rest) (u64 (off + n)) n_entries m).
Proof.
  intros Hlt Hoff Hpre. destruct (entry_head pre t n data rest) as [Ht Hn].
  cbn [madt_loop]. destruct (Z.ltb_spec off n_entries); [|lia].
  replace (Z.to_nat (madt_size + off)) with (length pre) by lia. rewrite Ht.
  replace (Z.to_nat (madt_size + off + 1)) with (S (length pre)) by lia. rewrite Hn. done.
Qed.

Lemma madt_loop_run fuel pre es off rest (m : madt) :
  Forall entry_ok es → Z.of_nat (length pre) = madt_size + off → 0 ≤ off → off + body_len es < 2 ^ 32 →
  (length es ≤ fuel)%nat →
  madt_loop fuel (pre ++ body es ++ rest) off (off + body_len es) m = Ok (foldl add_entry m es).
Proof.
  revert fuel pre off m. induction es as [|e es IH]; intros fuel pre off m Hok Hpre Hoff Hlen Hf.
  { change (body_len []) with 0. rewrite Z.add_0_r. destruct fuel; cbn; destruct (Z.ltb_spec off off); done || lia. }
  apply Forall_cons in Hok as [He Hok]. pose proof (entry_len_small e He) as Hel. rewrite body_cons in *.
  assert (0 ≤ body_len es) by (unfold body_len; lia).
  destruct fuel as [|fuel]; [cbn in Hf; lia|].
  change (body (e :: es)) with (entry_bytes e ++ body es). rewrite <- app_assoc. unfold entry_bytes at 1.
  rewrite madt_loop_step by lia.
  replace (pre ++ (entry_type e :: entry_len e :: entry_data e) ++ body es ++ rest)
    with ((pre ++ [entry_type e; entry_len e]) ++ entry_data e ++ body es ++ rest) by by rewrite <- app_assoc.
  replace (madt_size + off + 2) with (Z.of_nat (length (pre ++ [entry_type e; entry_len e]))) by (rewrite length_app; cbn; lia).
  rewrite madt_entry_run by done. cbn [mbind outcome_bind].
  rewrite (u64_small (off + entry_len e)) by lia.
  replace ((pre ++ [entry_type e; entry_len e]) ++ entry_data e ++ body es ++ rest)
    with ((pre ++ entry_bytes e) ++ body es ++ rest) by (unfold entry_bytes; by rewrite <- !app_assoc).
  rewrite Z.add_assoc. apply IH; [done| |lia|lia|cbn in Hf; lia].
  rewrite length_app. unfold entry_bytes, entry_len. cbn [length]. lia.
Qed.

(** The header of a table with a body of [n] bytes. *)
Definition header (hdr : list Z) (n : Z) : Prop :=
  length hdr = 44%nat ∧ n < 2 ^ 31 ∧ ∃ h1 h2, hdr = h1 ++ le 4 (madt_size + n) ++ h2 ∧ length h1 = 4%nat.

Lemma madt_init_run hdr n rest (m : madt) :
  header hdr n → 0 ≤ n →
  madt_init (Some (hdr ++ rest)) m = madt_loop (Z.to_nat n) (hdr ++ rest) 0 n m.
Proof.
  intros (Hlen & Hn & h1 & h2 & -> & H1) Hpos. unfold madt_init.
  rewrite (field_at _ sdt_len_off 4 (madt_size + n) h1 (h2 ++ rest)); [|by rewrite <- !app_assoc|unfold sdt_len_off; lia|unfold madt_size; cbn; lia].
  cbn [mbind outcome_bind]. replace (madt_size + n - madt_size) with n by lia. by rewrite (u64_small n) by lia.
Qed.

(** Each list gets the entries of its kind in the order of the table. *)
Definition lapic_of (e : entry) : option madt_lapic := match e with ELapic x => Some x | _ => None end.
Definition nmi_of (e : entry) : option madt_nmi := match e with ENmi x => Some x | _ => None end.
Definition iso_of (e : entry) : option madt_iso := match e with EIso x => Some x | _ => None end.
Definition ioapic_of (e : entry) : option madt_ioapic := match e with EIoapic _ x => Some x | _ => None end.

Record decoded (m : madt) (es : list entry) (m' : madt) : Prop := {
  dec_lapics : vec_elems (madt_lapics m') = vec_elems (madt_lapics m) ++ omap lapic_of es;
  dec_nmis : vec_elems (madt_nmis m') = vec_elems (madt_nmis m) ++ omap nmi_of es;
  dec_isos : vec_elems (madt_isos m') = vec_elems (madt_isos m) ++ omap iso_of es;
  dec_ioapics : vec_elems (madt_ioapics m') = vec_elems (madt_ioapics m) ++ omap ioapic_of es;
}.

Lemma add_entries_decoded es (m : madt) : decoded m es (foldl add_entry m es).
Proof.
  revert m. induction es as [|e es IH]; intros m; [split; cbn; by rewrite app_nil_r|].
  destruct (IH (add_entry m e)) as [H1 H2 H3 H4]. cbn [foldl].
  split; [rewrite H1|rewrite H2|rewrite H3|rewrite H4];
    destruct e; cbn [add_entry madt_lapics madt_nmis madt_isos madt_ioapics]; rewrite ?vec_push_elems, <- ?app_assoc; done.
Qed.

(** Parsing a table that was written entry by entry gives back the entries:
    each kind in its list, in order; entries of unknown types are skipped,
    whatever follows the table is not read. *)
Theorem madt_parse_roundtrip hdr es rest (m : madt) :
  Forall entry_ok es → header hdr (body_len es) →
  ∃ m', madt_init (Some (hdr ++ body es ++ rest)) m = Ok m' ∧ decoded m es m'.
Proof.
  intros Hok Hh. exists (foldl add_entry m es). split; [|apply add_entries_decoded].
  assert (0 ≤ body_len es) by (unfold body_len; lia). rewrite (madt_init_run _ _ _ _ Hh) by done.
  destruct Hh as (Hlen & Hn & _). apply (madt_loop_run _ hdr es 0); [done|by rewrite Hlen|done|lia|].
  clear -Hok. unfold body_len. rewrite Nat2Z.id. induction Hok as [|e es He _ IH]; [done|].
  change (body (e :: es)) with (entry_bytes e ++ body es). rewrite length_app. cbn [length entry_bytes]. lia.
Qed.

Lemma madt_loop_zero fuel pre off n_entries t data (m : madt) :
  off < n_entries → 0 ≤ off → off < 2 ^ 32 → Z.of_nat (length pre) = madt_size + off → t ∉ [0; 1; 2; 4] →
  madt_loop fuel (pre ++ t :: 0 :: data) off n_entries m = Hang.
Proof.
  intros Hlt Hoff Hs Hpre Ht. induction fuel as [|fuel IH].
  { cbn. by destruct (Z.ltb_spec off n_entries); [|lia]. }
  pose proof (madt_loop_step fuel pre off n_entries t 0 data [] m Hlt Hoff Hpre) as E. rewrite app_nil_r in E.
  rewrite E. rewrite Z.add_0_r, (u64_small off) by lia. unfold madt_entry, TYPE_LAPIC, TYPE_IOAPIC, TYPE_ISO, TYPE_NMI.
  assert (t ≠ 0 ∧ t ≠ 1 ∧ t ≠ 2 ∧ t ≠ 4) as (? & ? & ? & ?) by (split_and!; intros ->; apply Ht; repeat constructor).
  repeat (match goal with |- context [t =? ?c] => destruct (Z.eqb_spec t c); [done|] end). cbn [mbind outcome_bind]. exact IH.
Qed.

(** An entry of length 0 and unknown type before the end of the table is read
    again and again: [madt_init] does not return. *)
Theorem madt_zero_length_hangs hdr n t data (m : madt) :
  header hdr n → 0 < n → t ∉ [0; 1; 2; 4] → madt_init (Some (hdr ++ t :: 0 :: data)) m = Hang.
Proof.
  intros Hh Hn Ht. rewrite (madt_init_run _ _ _ _ Hh) by lia. destruct Hh as (Hlen & _).
  apply madt_loop_zero; [done|done|done|by rewrite Hlen|done].
Qed.
End parse.

Section demo_table.
Import Frigg.Instances.

Definition demo_entries : list entry := [EIoapic 0 (MadtIoapic 0 0xFEC00000 0); EOther 9 [1]; EIso (MadtIso 0 0 2 0)].
Definition demo_header (n : Z) : list Z := replicate 4 0 ++ le 4 (madt_size + n) ++ replicate 36 0.

Lemma demo_header_ok n : n < 2 ^ 31 → header (demo_header n) n.
Proof. intros Hn. split; [reflexivity|]. split; [done|]. by exists (replicate 4 0), (replicate 36 0). Qed.

Lemma madt_parse_roundtrip_witness :
  ∃ m', madt_init (Some (demo_header 25 ++ body demo_entries ++ [7])) (Madt (V := list) [] [] [] []) = Ok m' ∧
    madt_isos m' = [MadtIso 0 0 2 0] ∧ madt_ioapics m' = [MadtIoapic 0 0xFEC00000 0].
Proof.
  destruct (madt_parse_roundtrip (V := list) (demo_header 25) demo_entries [7] (Madt [] [] [] [])) as (m' & H & [_ _ Hi Ho]).
  - repeat (apply Forall_cons; split); [..|by apply Forall_nil]; cbn; unfold is_byte; lia.
  - exact (demo_header_ok 25 eq_refl).
  - exists m'. split; [exact H|]. split; [exact Hi|exact Ho].
Defined.

Lemma madt_zero_length_hangs_witness :
  madt_init (Some (demo_header 8 ++ 9 :: 0 :: [])) (Madt (V := list) [] [] [] []) = Hang.
Proof.
  apply (madt_zero_length_hangs (V := list) (demo_header 8) 8 9 []).
  - exact (demo_header_ok 8 eq_refl).
  - reflexivity.
  - intros H. repeat (apply elem_of_cons in H as [H|H]; [discriminate|]). by apply not_elem_of_nil in H.
Defined.
End demo_table.
