(* ===== verification/Lapic.v ===== *)
(** * The local interrupt controller and its timer (cpu/lapic.cpp)

    The registers of the controller are behind the class [LapicDev], the
    hardware; its laws are what the processor manual says of the registers
    that are used. The table of interrupt handlers is behind the class
    [IsrTable], which Irq.v meets. While the kernel waits, interrupts arrive:
    they are a list in the state, each with the number of counts of the timer
    that pass before it. A wait that no arrival ends does not return. *)
From S2P Require Import Prelude Frigg Apic Pmm Paging Vmm.
From S2P Require Irq.
From stdpp Require Import base numbers option gmap list.
#[local] Open Scope Z_scope.

Definition LVT_LINT0 : Z := 0x350.
Definition LVT_LINT1 : Z := 0x360.
Definition LAPIC_EOI : Z := 0xB0.
Definition LAPIC_SIVR : Z := 0xF0.
Definition LVT_TIMER : Z := 0x320.
Definition DIVIDE_CONFIG : Z := 0x3E0.
Definition INITIAL_COUNT : Z := 0x380.
Definition CURRENT_COUNT : Z := 0x390.
Definition LAPIC_TIMER_1X_DIV : Z := 0xB.
Definition CALIB_TIMER_CONFIG : Z := 0.
Definition INITIAL_FREQ : Z := 1000.

(** ** The hardware *)

(** Offsets are relative to [lapic_base]. *)
Class LapicDev (D : Type) := {
  mmio_lapic_read : Z → M D Z;
  mmio_lapic_write : Z → Z → M D ();
  timer_counts : Z → D → D;     (** so many counts of the timer pass *)
  lapic_reg : D → Z → Z;        (** the registers *)
  lapic_sent : D → list (Z * Z);    (** interrupts sent to other processors *)
}.

(** The registers of a command to another processor. *)
Definition ICR_HIGH : Z := 0x310.
Definition ICR_LOW : Z := 0x300.

(** The bits of a register that software can set. *)
Definition settable (off : Z) : Z :=
  if off =? LAPIC_SIVR then 0x1FF else if off =? LVT_TIMER then 0x700FF
  else if off =? LVT_LINT0 then 0x1A7FF else if off =? LVT_LINT1 then 0x1A7FF
  else if off =? INITIAL_COUNT then 0xFFFFFFFF else if off =? DIVIDE_CONFIG then 0xB
  else if off =? ICR_HIGH then 0xFF000000 else if off =? ICR_LOW then 0xCCFFF else 0.
Definition setting {D} `{!LapicDev D} (d : D) (off : Z) : Z := Z.land (lapic_reg d off) (settable off).

Class LapicDevLaws (D : Type) `{!LapicDev D} : Prop := {
  lapic_read_law d off : off = LAPIC_SIVR ∨ off = CURRENT_COUNT → mmio_lapic_read off d = Ok (lapic_reg d off, d);
  lapic_write_law d off v :
    settable off ≠ 0 → 0 ≤ v < 2 ^ 32 →
    ∃ d', mmio_lapic_write off v d = Ok (tt, d') ∧ setting d' off = Z.land v (settable off) ∧
      (∀ off', off' ≠ off → setting d' off' = setting d off') ∧
      lapic_reg d' CURRENT_COUNT = if decide (off = INITIAL_COUNT) then v else lapic_reg d CURRENT_COUNT;
  (** A write to the low register sends the command to the processor that the
      high register names. *)
  lapic_sent_law d off v d' :
    mmio_lapic_write off v d = Ok (tt, d') →
    lapic_sent d' = lapic_sent d ++ if decide (off = ICR_LOW) then [(Z.shiftr (setting d ICR_HIGH) 24, Z.land v (settable ICR_LOW))] else [];
  timer_sent_law d n : lapic_sent (timer_counts n d) = lapic_sent d;
  (** Divided by one and without repetition the timer counts down to zero. *)
  timer_law d n :
    0 ≤ n → setting d DIVIDE_CONFIG = LAPIC_TIMER_1X_DIV → Z.land (setting d LVT_TIMER) 0x60000 = 0 →
    lapic_reg (timer_counts n d) CURRENT_COUNT = Z.max 0 (lapic_reg d CURRENT_COUNT - n);
  timer_settings_law d n off : setting (timer_counts n d) off = setting d off;
  lapic_reg_range d off : 0 ≤ lapic_reg d off < 2 ^ 32;
}.

(** ** The table of handlers (irq/isr.h) *)
Class IsrTable (T : Type) := {
  it_handler : T → Z → option Z;
  it_register : Z → Z → M T Z;
  it_unregister : Z → M T Z;
  it_ok : T → Prop;
}.

Class IsrTableLaws (T : Type) `{!IsrTable T} : Prop := {
  it_register_law t v h :
    it_ok t → 0 ≤ v < 256 →
    ∃ r t', it_register v h t = Ok (r, t') ∧ it_ok t' ∧
      ∀ w, 0 ≤ w < 256 → it_handler t' w = if decide (w = v ∧ it_handler t v = None) then Some h else it_handler t w;
  it_unregister_law t v :
    it_ok t → 0 ≤ v < 256 →
    ∃ r t', it_unregister v t = Ok (r, t') ∧ it_ok t' ∧
      ∀ w, 0 ≤ w < 256 → it_handler t' w = if decide (w = v) then None else it_handler t w;
}.

(** ** State *)

(** What happens while the kernel waits: an interrupt after some counts of the
    timer; or a processor that is being started sets [has_started] (smp.cpp). *)
Inductive arrival := Interrupt (vector counts : Z) | Started.

Record lapic {D T : Type} := Lapic {
  regs : D;
  isrs : T;
  host : vmm;                   (** where the registers are mapped *)
  outs : list (Z * Z);          (** ports and bytes that were written *)
  lapic_bsp_speed_hz : Z;
  pit_ticks : Z;
  lapic_bsp_ticks : Z;
  has_started : bool;
  arrivals : list arrival;
}.
Arguments lapic : clear implicits.
Arguments Lapic {D T} _ _ _ _ _ _ _ _ _.

Section lapic.
Context {D : Type} `{!LapicDev D}.
Context {T : Type} `{!IsrTable T}.
(** The functions [pit_irq] and [lapic_timer_int]. *)
Context (pit_irq lapic_timer_int : Z).
Notation lapic := (lapic D T).

Definition set_regs (d : D) (s : lapic) : lapic :=
  Lapic d (isrs s) (host s) (outs s) (lapic_bsp_speed_hz s) (pit_ticks s) (lapic_bsp_ticks s) (has_started s) (arrivals s).
Definition set_isrs (t : T) (s : lapic) : lapic :=
  Lapic (regs s) t (host s) (outs s) (lapic_bsp_speed_hz s) (pit_ticks s) (lapic_bsp_ticks s) (has_started s) (arrivals s).
Definition set_host (a : vmm) (s : lapic) : lapic :=
  Lapic (regs s) (isrs s) a (outs s) (lapic_bsp_speed_hz s) (pit_ticks s) (lapic_bsp_ticks s) (has_started s) (arrivals s).
Definition add_out (port val : Z) (s : lapic) : lapic :=
  Lapic (regs s) (isrs s) (host s) (outs s ++ [(port, val)]) (lapic_bsp_speed_hz s) (pit_ticks s) (lapic_bsp_ticks s) (has_started s) (arrivals s).
Definition set_speed (x : Z) (s : lapic) : lapic :=
  Lapic (regs s) (isrs s) (host s) (outs s) x (pit_ticks s) (lapic_bsp_ticks s) (has_started s) (arrivals s).
Definition set_pit_ticks (x : Z) (s : lapic) : lapic :=
  Lapic (regs s) (isrs s) (host s) (outs s) (lapic_bsp_speed_hz s) x (lapic_bsp_ticks s) (has_started s) (arrivals s).
Definition set_bsp_ticks (x : Z) (s : lapic) : lapic :=
  Lapic (regs s) (isrs s) (host s) (outs s) (lapic_bsp_speed_hz s) (pit_ticks s) x (has_started s) (arrivals s).
Definition set_started (x : bool) (s : lapic) : lapic :=
  Lapic (regs s) (isrs s) (host s) (outs s) (lapic_bsp_speed_hz s) (pit_ticks s) (lapic_bsp_ticks s) x (arrivals s).
Definition set_arrivals (l : list arrival) (s : lapic) : lapic :=
  Lapic (regs s) (isrs s) (host s) (outs s) (lapic_bsp_speed_hz s) (pit_ticks s) (lapic_bsp_ticks s) (has_started s) l.

Definition lapic_read (off : Z) : M lapic Z := zoom regs set_regs (mmio_lapic_read off).
Definition lapic_write (off val : Z) : M lapic () := zoom regs set_regs (mmio_lapic_write off (u32 val)).
Definition outb (port val : Z) : M lapic () := modify (add_out port val).
Definition io_wait : M lapic () := outb 0x80 0.
Definition isr_register_handler (irq handler : Z) : M lapic Z := zoom isrs set_isrs (it_register irq handler).
Definition isr_unregister_handler (irq : Z) : M lapic Z := zoom isrs set_isrs (it_unregister irq).

(** ** Interrupts while waiting *)

(** What the handlers do. *)
Definition pit_irq_body (s : lapic) : lapic := set_pit_ticks (u64 (pit_ticks s + 1)) s.
Definition lapic_timer_int_body (s : lapic) : lapic := set_bsp_ticks (u64 (lapic_bsp_ticks s + 1)) s.

(** The call of a handler; any other handler leaves this state alone. *)
Definition run_handler (h : option Z) (s : lapic) : lapic :=
  match h with
  | Some h =>
      if h =? pit_irq then pit_irq_body s
      else if h =? lapic_timer_int then lapic_timer_int_body s
      else s
  | None => s
  end.

Definition arrive (a : arrival) (s : lapic) : lapic :=
  match a with
  | Interrupt v n => run_handler (it_handler (isrs s) v) (set_regs (timer_counts n (regs s)) s)
  | Started => set_started true s
  end.

(** [while (!stop);] with interrupts enabled. *)
Fixpoint wait_loop (stop : lapic → bool) (l : list arrival) (s : lapic) : outcome (() * lapic) :=
  if stop s then Ok (tt, set_arrivals l s)
  else match l with [] => Hang | a :: l' => wait_loop stop l' (arrive a s) end.
Definition wait_until (stop : lapic → bool) : M lapic () := λ s, wait_loop stop (arrivals s) s.

(** ** Operations *)
Definition lapic_nmi_set (vector lint flags : Z) : M lapic () :=
  let nmi := Z.lor vector 0x320 in
  let nmi := if has flags 2 then Z.lor nmi (Z.shiftl 1 13) else nmi in
  let nmi := if has flags 8 then Z.lor nmi (Z.shiftl 1 15) else nmi in
  off ← lift (if lint =? 0 then Ok LVT_LINT0 else if lint =? 1 then Ok LVT_LINT1 else Panic);
  lapic_write off nmi.

(** The loop over the NMIs, from the [i]-th on. *)
Fixpoint nmi_loop (l : list madt_nmi) (i : Z) : M lapic () :=
  match l with
  | [] => mret tt
  | nmi :: l' => lapic_nmi_set (u8 (0xE0 + i)) (nmi_lint nmi) (nmi_flags nmi);; nmi_loop l' (i + 1)
  end.
Definition lapic_nmi_setup {V : Type → Type} `{!FrgVector V} (m : madt V) : M lapic () := nmi_loop (vec_elems (madt_nmis m)) 0.

Definition lapic_eoi : M lapic () := lapic_write LAPIC_EOI 0.

Definition lapic_enable : M lapic () := v ← lapic_read LAPIC_SIVR; lapic_write LAPIC_SIVR (Z.lor v 0x1FF).

Definition pit_set_freq (frequency : Z) : M lapic () :=
  lift (if frequency =? 0 then Fault else Ok tt);;
  let x := u16 (1193182 / frequency) in
  let x := if frequency / 2 <? 1193182 mod frequency then u16 (x + 1) else x in
  outb 0x40 (Z.land x 0x00ff);;
  io_wait;;
  outb 0x40 (u8 (x / 0x0100));;
  io_wait.

(** [pit_vec] is [ioapic_get_vector_by_irq(0)]. *)
Definition lapic_timer_calc_freq_bsp (pit_vec : Z) : M lapic () :=
  speed ← gets lapic_bsp_speed_hz;
  if negb (speed =? 0) then mret tt
  else
    pit_set_freq 1000;;
    isr_register_handler pit_vec pit_irq;;
    lapic_write LVT_TIMER CALIB_TIMER_CONFIG;;
    lapic_write DIVIDE_CONFIG LAPIC_TIMER_1X_DIV;;
    lapic_write INITIAL_COUNT 0xFFFFFFFF;;
    modify (set_pit_ticks 0);;
    wait_until (λ s, negb (pit_ticks s <? 1000));;
    count ← lapic_read CURRENT_COUNT;
    modify (set_speed (u32 (0xFFFFFFFF - count)));;
    isr_unregister_handler pit_vec;;
    mret tt.

Definition lapic_timer_set_frequency (timer_freq desired_freq : Z) : M lapic () :=
  lift (if desired_freq =? 0 then Fault else Ok tt);;
  lapic_write INITIAL_COUNT (timer_freq / desired_freq).

Definition timer_vec : Z := Z.lor 0x31 (Z.shiftl 1 17).

Definition lapic_timer_init_bsp : M lapic () :=
  lapic_write LVT_TIMER timer_vec;;
  lapic_write DIVIDE_CONFIG LAPIC_TIMER_1X_DIV;;
  speed ← gets lapic_bsp_speed_hz;
  lapic_timer_set_frequency speed INITIAL_FREQ;;
  isr_register_handler 0x31 lapic_timer_int;;
  mret tt.

Definition lapic_sleep_ms_bsp (ms : Z) : M lapic () :=
  ticks ← gets lapic_bsp_ticks;
  let end_tick := u64 (ticks + ms) in
  wait_until (λ s, negb (lapic_bsp_ticks s <? end_tick)).

Definition lapic_timer_calc_freq_ap : M lapic Z :=
  speed ← gets lapic_bsp_speed_hz;
  if speed =? 0 then lift Panic
  else
    lapic_write LVT_TIMER CALIB_TIMER_CONFIG;;
    lapic_write DIVIDE_CONFIG LAPIC_TIMER_1X_DIV;;
    lapic_write INITIAL_COUNT 0xFFFFFFFF;;
    lapic_sleep_ms_bsp 1000;;
    count ← lapic_read CURRENT_COUNT;
    mret (u32 (0xFFFFFFFF - count)).

Definition lapic_timer_init_ap : M lapic () :=
  speed ← lapic_timer_calc_freq_ap;
  lapic_write LVT_TIMER timer_vec;;
  lapic_write DIVIDE_CONFIG LAPIC_TIMER_1X_DIV;;
  lapic_timer_set_frequency speed INITIAL_FREQ.

Definition lapic_init {V : Type → Type} `{!FrgVector V} (lapic_base : Z) (m : madt V) : M lapic () :=
  zoom host set_host (arch_mm_map_kernel lapic_base lapic_base 4 (Z.lor perm_read perm_write) 4);;
  lapic_nmi_setup m;;
  lapic_enable.
End lapic.

(** ** What arrives *)
Section waiting.
Context {D : Type} `{!LapicDev D}.
Context {T : Type} `{!IsrTable T}.
Context (pit_irq lapic_timer_int : Z) (Hne : pit_irq ≠ lapic_timer_int).
Notation lapic := (lapic D T).
Notation arrive := (arrive pit_irq lapic_timer_int).
Implicit Types (s : lapic).

Definition arrives (l : list arrival) s : lapic := foldl (λ s a, arrive a s) s l.

(** How often the handler [h] runs, and how many counts pass. *)
Definition hit (t : T) (h : Z) (a : arrival) : bool :=
  match a with Interrupt v _ => bool_decide (it_handler t v = Some h) | Started => false end.
Definition on_vec (v : Z) (a : arrival) : bool := match a with Interrupt w _ => w =? v | Started => false end.
Definition hits (f : arrival → bool) (l : list arrival) : Z := foldr (λ a n, (if f a then 1 else 0) + n) 0 l.
Definition counts_of (a : arrival) : Z := match a with Interrupt _ n => n | Started => 0 end.
Definition passed (l : list arrival) : Z := foldr (λ a n, counts_of a + n) 0 l.
Definition timely (l : list arrival) : Prop := Forall (λ a, 0 ≤ counts_of a) l.

Lemma hits_nonneg f l : 0 ≤ hits f l.
Proof. induction l as [|a l IH]; [done|]. cbn. unfold hits in IH. destruct (f a); lia. Qed.

Lemma hits_app f l1 l2 : hits f (l1 ++ l2) = hits f l1 + hits f l2.
Proof. induction l1 as [|a l1 IH]; [done|]. cbn. unfold hits in *. rewrite IH. lia. Qed.

(** What an arrival leaves alone. *)
Record waited s s' : Prop := {
  wa_isrs : isrs s' = isrs s;
  wa_host : host s' = host s;
  wa_outs : outs s' = outs s;
  wa_speed : lapic_bsp_speed_hz s' = lapic_bsp_speed_hz s;
}.

Lemma arrive_waited a s : waited s (arrive a s).
Proof.
  destruct a as [v n|]; [|done]. unfold arrive, run_handler. destruct (it_handler _ _) as [h|]; [|done].
  destruct (h =? pit_irq); [done|]. by destruct (h =? lapic_timer_int).
Qed.

Lemma arrives_waited l s : waited s (arrives l s).
Proof.
  revert s. induction l as [|a l IH]; intros s; [done|]. pose proof (arrive_waited a s) as []. pose proof (IH (arrive a s)) as []. cbn [arrives foldl] in *. fold (arrives l (arrive a s)) in *. split; congruence.
Qed.

(** The two counters. *)
Lemma arrive_ticks a s :
  pit_ticks (arrive a s) = (if hit (isrs s) pit_irq a then u64 (pit_ticks s + 1) else pit_ticks s) ∧
  lapic_bsp_ticks (arrive a s) = (if hit (isrs s) lapic_timer_int a then u64 (lapic_bsp_ticks s + 1) else lapic_bsp_ticks s).
Proof.
  destruct a as [v n|]; [|done]. cbn [arrive hit]. unfold run_handler. cbn [isrs set_regs].
  destruct (it_handler (isrs s) v) as [h|]; [|by rewrite !bool_decide_eq_false_2].
  destruct (Z.eqb_spec h pit_irq) as [->|H1].
  - rewrite bool_decide_eq_true_2, bool_decide_eq_false_2 by congruence. done.
  - rewrite (bool_decide_eq_false_2 (Some h = Some pit_irq)) by congruence. destruct (Z.eqb_spec h lapic_timer_int) as [->|H2].
    + by rewrite bool_decide_eq_true_2.
    + by rewrite bool_decide_eq_false_2 by congruence.
Qed.

Lemma arrives_pit l s :
  0 ≤ pit_ticks s → pit_ticks s + hits (hit (isrs s) pit_irq) l < 2 ^ 64 → pit_ticks (arrives l s) = pit_ticks s + hits (hit (isrs s) pit_irq) l.
Proof.
  revert s. induction l as [|a l IH]; intros s H0 Hb; [cbn; lia|]. cbn [arrives foldl]. fold (arrives l (arrive a s)).
  pose proof (wa_isrs _ _ (arrive_waited a s)) as Ei. destruct (arrive_ticks a s) as [Ep _]. cbn [hits foldr] in *.
  fold (hits (hit (isrs s) pit_irq) l) in *. pose proof (hits_nonneg (hit (isrs s) pit_irq) l).
  assert (pit_ticks (arrive a s) = pit_ticks s + if hit (isrs s) pit_irq a then 1 else 0) as E.
  { rewrite Ep. destruct (hit _ _ a); [rewrite u64_small; lia|lia]. }
  rewrite IH; rewrite ?Ei, ?E; [lia|destruct (hit _ _ a); lia|lia].
Qed.

Lemma arrives_bsp l s :
  0 ≤ lapic_bsp_ticks s → lapic_bsp_ticks s + hits (hit (isrs s) lapic_timer_int) l < 2 ^ 64 →
  lapic_bsp_ticks (arrives l s) = lapic_bsp_ticks s + hits (hit (isrs s) lapic_timer_int) l.
Proof.
  revert s. induction l as [|a l IH]; intros s H0 Hb; [cbn; lia|]. cbn [arrives foldl]. fold (arrives l (arrive a s)).
  pose proof (wa_isrs _ _ (arrive_waited a s)) as Ei. destruct (arrive_ticks a s) as [_ Ep]. cbn [hits foldr] in *.
  fold (hits (hit (isrs s) lapic_timer_int) l) in *. pose proof (hits_nonneg (hit (isrs s) lapic_timer_int) l).
  assert (lapic_bsp_ticks (arrive a s) = lapic_bsp_ticks s + if hit (isrs s) lapic_timer_int a then 1 else 0) as E.
  { rewrite Ep. destruct (hit _ _ a); [rewrite u64_small; lia|lia]. }
  rewrite IH; rewrite ?Ei, ?E; [lia|destruct (hit _ _ a); lia|lia].
Qed.

(** ** How a wait ends *)
Lemma wait_loop_run stop l1 l2 s :
  (∀ l k, l1 = l ++ k → k ≠ [] → stop (arrives l s) = false) → stop (arrives l1 s) = true →
  wait_loop pit_irq lapic_timer_int stop (l1 ++ l2) s = Ok (tt, set_arrivals l2 (arrives l1 s)).
Proof.
  revert s. induction l1 as [|a l1 IH]; intros s Hno Hyes.
  - cbn in *. destruct l2; cbn [wait_loop]; by rewrite Hyes.
  - cbn [app wait_loop]. pose proof (Hno [] (a :: l1) eq_refl ltac:(done)) as H0. cbn in H0. rewrite H0. apply IH; [|exact Hyes].
    intros l k -> Hk. exact (Hno (a :: l) k eq_refl Hk).
Qed.

Lemma wait_loop_hang stop l s :
  (∀ l1 l2, l = l1 ++ l2 → stop (arrives l1 s) = false) → wait_loop pit_irq lapic_timer_int stop l s = Hang.
Proof.
  revert s. induction l as [|a l IH]; intros s Hno; cbn [wait_loop].
  - pose proof (Hno [] [] eq_refl) as H0. cbn in H0. by rewrite H0.
  - pose proof (Hno [] (a :: l) eq_refl) as H0. cbn in H0. rewrite H0. apply IH. intros l1 l2 ->. exact (Hno (a :: l1) l2 eq_refl).
Qed.

(** The arrivals until [f] has been seen [n] times: the last of them is one. *)
Definition until (f : arrival → bool) (n : Z) (l : list arrival) : Prop :=
  hits f l = n ∧ ∀ l' a, l = l' ++ [a] → f a = true.

Lemma until_before f n l l1 l2 : until f n l → l = l1 ++ l2 → l2 ≠ [] → hits f l1 < n.
Proof.
  intros [Hh Hlast] -> Hl2. destruct l2 as [|a l2 _] using rev_ind; [done|].
  pose proof (Hlast (l1 ++ l2) a (app_assoc _ _ _)) as Ha. rewrite !hits_app in Hh. cbn in Hh. rewrite Ha in Hh.
  pose proof (hits_nonneg f l2). lia.
Qed.

Lemma hits_ext f f' l : (∀ a, a ∈ l → f a = f' a) → hits f l = hits f' l.
Proof.
  induction l as [|a l IH]; intros H; [done|]. cbn. rewrite (H a) by left. f_equal. apply IH. intros b Hb. apply H. by right.
Qed.

Lemma until_ext f f' n l : (∀ a, a ∈ l → f a = f' a) → until f n l → until f' n l.
Proof.
  intros H [Hh Hl]. split; [by rewrite <- (hits_ext f f')|]. intros l' a ->. rewrite <- H; [by eapply Hl|]. apply elem_of_app. right. by left.
Qed.

(** The vectors that can arrive. *)
Definition vectors_ok (l : list arrival) : Prop := ∀ a, a ∈ l → match a with Interrupt v _ => 0 ≤ v < 256 | Started => True end.

(** The handler is the one of this vector, and of no other. *)
Definition handles (t : T) (h v : Z) : Prop := ∀ w, 0 ≤ w < 256 → it_handler t w = Some h ↔ w = v.

Lemma handles_hit t h v l a : handles t h v → vectors_ok l → a ∈ l → hit t h a = on_vec v a.
Proof.
  intros Hh Hv Ha. specialize (Hv a Ha). destruct a as [w n|]; [|done]. cbn. specialize (Hh w Hv).
  destruct (Z.eqb_spec w v); [apply bool_decide_eq_true_2|apply bool_decide_eq_false_2]; tauto.
Qed.
End waiting.

(** ** The timer *)
Section timer.
Context {D : Type} `{!LapicDev D} `{!LapicDevLaws D}.
Context {T : Type} `{!IsrTable T} `{!IsrTableLaws T}.
Context (pit_irq lapic_timer_int : Z) (Hne : pit_irq ≠ lapic_timer_int).
Notation lapic := (lapic D T).
Implicit Types (s : lapic).
Notation arrives := (arrives pit_irq lapic_timer_int).

Lemma write_run s off v :
  settable off ≠ 0 → 0 ≤ v < 2 ^ 32 →
  ∃ d, lapic_write off v s = Ok (tt, set_regs d s) ∧ setting d off = Z.land v (settable off) ∧
    (∀ off', off' ≠ off → setting d off' = setting (regs s) off') ∧
    lapic_reg d CURRENT_COUNT = if decide (off = INITIAL_COUNT) then v else lapic_reg (regs s) CURRENT_COUNT.
Proof.
  intros Hoff Hv. destruct (lapic_write_law (regs s) off v Hoff Hv) as (d & Hrun & H). exists d. split; [|exact H].
  unfold lapic_write, zoom. by rewrite (u32_small v Hv), Hrun.
Qed.

Lemma arrives_settings l s off : setting (regs (arrives l s)) off = setting (regs s) off.
Proof.
  revert s. induction l as [|a l IH]; intros s; [done|]. cbn [Lapic.arrives foldl]. fold (arrives l (arrive pit_irq lapic_timer_int a s)).
  rewrite IH. destruct a as [v n|]; [|done]. cbn [arrive]. rewrite <- (timer_settings_law (regs s) n off).
  unfold run_handler. destruct (it_handler _ _) as [h|]; [|done]. destruct (h =? pit_irq); [done|]. by destruct (h =? lapic_timer_int).
Qed.

Lemma arrive_regs a s : regs (arrive pit_irq lapic_timer_int a s) = match a with Interrupt _ n => timer_counts n (regs s) | Started => regs s end.
Proof.
  destruct a as [v n|]; [|done]. cbn [arrive]. unfold run_handler. destruct (it_handler _ _) as [h|]; [|done].
  destruct (h =? pit_irq); [done|]. by destruct (h =? lapic_timer_int).
Qed.

Lemma arrives_count l s :
  timely l → setting (regs s) DIVIDE_CONFIG = LAPIC_TIMER_1X_DIV → Z.land (setting (regs s) LVT_TIMER) 0x60000 = 0 →
  lapic_reg (regs (arrives l s)) CURRENT_COUNT = Z.max 0 (lapic_reg (regs s) CURRENT_COUNT - passed l).
Proof.
  revert s. induction l as [|a l IH]; intros s Ht Hd Hm.
  - cbn. pose proof (lapic_reg_range (regs s) CURRENT_COUNT). lia.
  - apply Forall_cons in Ht as [Ha Ht]. assert (0 ≤ passed l) as Hp by (clear -Ht; induction Ht; [done|]; cbn in *; unfold passed in *; lia).
    pose proof (arrives_settings [a] s) as Hset. cbn in Hset. cbn [Lapic.arrives foldl]. fold (arrives l (arrive pit_irq lapic_timer_int a s)).
    rewrite IH by (rewrite ?Hset; done). rewrite arrive_regs. change (passed (a :: l)) with (counts_of a + passed l).
    destruct a as [v n|]; cbn [counts_of] in *; [rewrite timer_law by done; lia|lia].
Qed.

Lemma register_run s v h :
  it_ok (isrs s) → 0 ≤ v < 256 →
  ∃ r t, isr_register_handler v h s = Ok (r, set_isrs t s) ∧ it_ok t ∧
    ∀ w, 0 ≤ w < 256 → it_handler t w = if decide (w = v ∧ it_handler (isrs s) v = None) then Some h else it_handler (isrs s) w.
Proof.
  intros Hok Hv. destruct (it_register_law (isrs s) v h Hok Hv) as (r & t & Hrun & H). exists r, t. split; [|exact H].
  unfold isr_register_handler, zoom. by rewrite Hrun.
Qed.

Lemma unregister_run s v :
  it_ok (isrs s) → 0 ≤ v < 256 →
  ∃ r t, isr_unregister_handler v s = Ok (r, set_isrs t s) ∧ it_ok t ∧
    ∀ w, 0 ≤ w < 256 → it_handler t w = if decide (w = v) then None else it_handler (isrs s) w.
Proof.
  intros Hok Hv. destruct (it_unregister_law (isrs s) v Hok Hv) as (r & t & Hrun & H). exists r, t. split; [|exact H].
  unfold isr_unregister_handler, zoom. by rewrite Hrun.
Qed.

(** The function [h] is not in the table yet. *)
Definition unused (t : T) (h : Z) : Prop := ∀ w, 0 ≤ w < 256 → it_handler t w ≠ Some h.

Lemma registered_handles t t' v h :
  unused t h → 0 ≤ v < 256 → it_handler t v = None →
  (∀ w, 0 ≤ w < 256 → it_handler t' w = if decide (w = v ∧ it_handler t v = None) then Some h else it_handler t w) → handles t' h v.
Proof.
  intros Hu Hv Hn Ht' w Hw. rewrite (Ht' w Hw). case_decide as Hd; [naive_solver|]. split; [intros E; by destruct (Hu w Hw)|naive_solver].
Qed.

(** Waiting for [n] interrupts of a vector whose handler counts in [get]. *)
Definition counts_in (get : lapic → Z) (h : Z) s : Prop :=
  ∀ l, get s + hits (hit (isrs s) h) l < 2 ^ 64 → get (arrives l s) = get s + hits (hit (isrs s) h) l.

Lemma wait_run get h s v n l1 l2 :
  counts_in get h s → handles (isrs s) h v → vectors_ok l1 → until (on_vec v) n l1 → get s + n < 2 ^ 64 → arrivals s = l1 ++ l2 →
  wait_until pit_irq lapic_timer_int (λ s', negb (get s' <? get s + n)) s = Ok (tt, set_arrivals l2 (arrives l1 s)).
Proof.
  intros Hget Hh Hv Hu Hb Ha. unfold wait_until. rewrite Ha.
  assert (until (hit (isrs s) h) n l1) as Hu'.
  { eapply until_ext; [|exact Hu]. intros a Hin. symmetry. by eapply handles_hit. }
  pose proof (proj1 Hu') as Hc. apply wait_loop_run.
  - intros l k El Hk. pose proof (until_before _ _ _ _ _ Hu' El Hk). rewrite (Hget l) by lia. lia.
  - rewrite (Hget l1) by lia. lia.
Qed.

Lemma wait_hang get h s v n :
  counts_in get h s → handles (isrs s) h v → vectors_ok (arrivals s) → hits (on_vec v) (arrivals s) < n → get s + n < 2 ^ 64 →
  wait_until pit_irq lapic_timer_int (λ s', negb (get s' <? get s + n)) s = Hang.
Proof.
  intros Hget Hh Hv Hn Hb. unfold wait_until. apply (wait_loop_hang pit_irq lapic_timer_int). intros l1 l2 El.
  assert (hits (hit (isrs s) h) l1 = hits (on_vec v) l1) as Eh.
  { apply hits_ext. intros a Hin. eapply handles_hit; [done|exact Hv|]. rewrite El. apply elem_of_app. by left. }
  rewrite El, hits_app in Hn. pose proof (hits_nonneg (on_vec v) l2). rewrite (Hget l1) by lia. lia.
Qed.

(** The counter is started at its highest value, to be read later. *)
Lemma counter_starts s :
  ∃ d, (∀ B (k : M lapic B), (lapic_write LVT_TIMER CALIB_TIMER_CONFIG;; lapic_write DIVIDE_CONFIG LAPIC_TIMER_1X_DIV;;
                              lapic_write INITIAL_COUNT 0xFFFFFFFF;; k) s = k (set_regs d s)) ∧
    lapic_reg d CURRENT_COUNT = 0xFFFFFFFF ∧ setting d DIVIDE_CONFIG = LAPIC_TIMER_1X_DIV ∧ setting d LVT_TIMER = 0 ∧
    ∀ off, off ≠ LVT_TIMER → off ≠ DIVIDE_CONFIG → off ≠ INITIAL_COUNT → setting d off = setting (regs s) off.
Proof.
  destruct (write_run s LVT_TIMER CALIB_TIMER_CONFIG ltac:(done) ltac:(done)) as (d1 & W1 & S1 & O1 & _).
  destruct (write_run (set_regs d1 s) DIVIDE_CONFIG LAPIC_TIMER_1X_DIV ltac:(done) ltac:(done)) as (d2 & W2 & S2 & O2 & _).
  destruct (write_run (set_regs d2 (set_regs d1 s)) INITIAL_COUNT 0xFFFFFFFF ltac:(done) ltac:(done)) as (d3 & W3 & _ & O3 & C3).
  cbn [regs set_regs] in *. exists d3. split; [intros B k; run W1; run W2; by run W3|]. split; [exact C3|].
  split; [by rewrite O3|]. split; [by rewrite O3, O2|]. intros off H1 H2 H3. by rewrite O3, O2, O1.
Qed.

(** The counter after some arrivals, and reading it. *)
Lemma counter_read l s d :
  lapic_reg d CURRENT_COUNT = 0xFFFFFFFF → setting d DIVIDE_CONFIG = LAPIC_TIMER_1X_DIV → setting d LVT_TIMER = 0 →
  regs s = d → timely l → passed l < 2 ^ 32 → ∀ rest,
  lapic_read CURRENT_COUNT (set_arrivals rest (arrives l s)) = Ok (0xFFFFFFFF - passed l, set_arrivals rest (arrives l s)) ∧ 0 ≤ passed l.
Proof.
  intros Hc Hd Hm Hs Ht Hp rest. split.
  - unfold lapic_read, zoom. rewrite lapic_read_law by by right. cbn [regs set_arrivals].
    rewrite arrives_count by (rewrite ?Hs, ?Hm; done). rewrite Hs, Hc. rewrite Z.max_r by lia. by destruct (arrives l s).
  - clear -Ht. induction Ht; [done|]. cbn in *. unfold passed in *. lia.
Qed.

(** Up to the wait: the interval timer and the table are set up, the counter
    starts at its highest value. *)
Definition calibrating (t : T) (d : D) s : lapic := set_pit_ticks 0 (set_regs d (set_isrs t
  (add_out 0x80 0 (add_out 0x40 4 (add_out 0x80 0 (add_out 0x40 0xA9 s)))))).

Lemma calibration_starts s pit_vec :
  lapic_bsp_speed_hz s = 0 → it_ok (isrs s) → 0 ≤ pit_vec < 256 →
  ∃ t d, it_ok t ∧
    (∀ w, 0 ≤ w < 256 → it_handler t w = if decide (w = pit_vec ∧ it_handler (isrs s) pit_vec = None) then Some pit_irq else it_handler (isrs s) w) ∧
    lapic_reg d CURRENT_COUNT = 0xFFFFFFFF ∧ setting d DIVIDE_CONFIG = LAPIC_TIMER_1X_DIV ∧ setting d LVT_TIMER = 0 ∧
    lapic_timer_calc_freq_bsp pit_irq lapic_timer_int pit_vec s =
      (wait_until pit_irq lapic_timer_int (λ s, negb (pit_ticks s <? 1000));;
       count ← lapic_read CURRENT_COUNT;
       modify (set_speed (u32 (0xFFFFFFFF - count)));;
       isr_unregister_handler pit_vec;;
       mret tt) (calibrating t d s).
Proof.
  intros Hspeed Hok Hv. unfold lapic_timer_calc_freq_bsp. run (eq_refl : gets lapic_bsp_speed_hz s = Ok (lapic_bsp_speed_hz s, s)).
  rewrite Hspeed. change (negb (0 =? 0)) with false. cbn iota. set (s1 := add_out 0x80 0 (add_out 0x40 4 (add_out 0x80 0 (add_out 0x40 0xA9 s)))).
  run (eq_refl : pit_set_freq 1000 s = Ok (tt, s1)). destruct (register_run s1 pit_vec pit_irq Hok Hv) as (r & t & Hreg & Ht & Hh). run Hreg.
  destruct (counter_starts (set_isrs t s1)) as (d & Hrun & Hc & Hd & Hm & _). rewrite Hrun.
  exists t, d. done.
Qed.

(** C27. Calibration measures the timer against the interval timer, which is set to
    the divisor 1193, for a thousand of its interrupts: the speed is the number
    of counts that passed until then, whatever other interrupts arrive in
    between, and the table of handlers is as before. When a thousand
    interrupts do not arrive it does not return. *)
Theorem lapic_calibrates s (pit_vec : Z) :
  lapic_bsp_speed_hz s = 0 → it_ok (isrs s) → 0 ≤ pit_vec < 256 → it_handler (isrs s) pit_vec = None → unused (isrs s) pit_irq →
  vectors_ok (arrivals s) →
  (∀ l1 l2, arrivals s = l1 ++ l2 → until (on_vec pit_vec) 1000 l1 → timely l1 → passed l1 < 2 ^ 32 →
     ∃ s', lapic_timer_calc_freq_bsp pit_irq lapic_timer_int pit_vec s = Ok (tt, s') ∧
       lapic_bsp_speed_hz s' = passed l1 ∧ arrivals s' = l2 ∧ it_ok (isrs s') ∧
       (∀ w, 0 ≤ w < 256 → it_handler (isrs s') w = it_handler (isrs s) w) ∧
       outs s' = outs s ++ [(0x40, 0xA9); (0x80, 0); (0x40, 4); (0x80, 0)]) ∧
  (hits (on_vec pit_vec) (arrivals s) < 1000 → lapic_timer_calc_freq_bsp pit_irq lapic_timer_int pit_vec s = Hang).
Proof.
  intros Hspeed Hok Hv Hnone Hunused Hvec.
  destruct (calibration_starts s pit_vec Hspeed Hok Hv) as (t & d & Ht & Hh & Hc & Hd & Hm & ->).
  assert (handles t pit_irq pit_vec) as Hhandles by by apply (registered_handles (isrs s)).
  set (s1 := calibrating t d s).
  assert (counts_in pit_ticks pit_irq s1) as Hcounts by (intros l Hl; by apply (arrives_pit pit_irq lapic_timer_int Hne l s1)). split.
  - intros l1 l2 El Hu Htm Hp.
    assert (vectors_ok l1) as Hvec1 by (intros a Ha; apply Hvec; rewrite El; apply elem_of_app; by left).
    run (wait_run pit_ticks pit_irq s1 pit_vec 1000 l1 l2 Hcounts Hhandles Hvec1 Hu eq_refl El).
    pose proof (arrives_waited pit_irq lapic_timer_int l1 s1) as [Ei _ Eo _].
    set (s2 := set_arrivals l2 (arrives l1 s1)).
    destruct (counter_read l1 s1 d Hc Hd Hm eq_refl Htm Hp l2) as [Hread Hp0].
    run Hread. set (s3 := set_speed (u32 (0xFFFFFFFF - (0xFFFFFFFF - passed l1))) s2).
    run (eq_refl : modify (set_speed (u32 (0xFFFFFFFF - (0xFFFFFFFF - passed l1)))) s2 = Ok (tt, s3)).
    assert (it_ok (isrs s3)) as Hok3 by (unfold s3, s2; cbn; by rewrite Ei).
    destruct (unregister_run s3 pit_vec Hok3 Hv) as (r & t' & Hun & Ht' & Hh'). run Hun.
    eexists. split; [reflexivity|]. cbn [lapic_bsp_speed_hz arrivals isrs outs set_isrs s3 set_speed s2 set_arrivals].
    split; [rewrite u32_small; lia|]. split; [done|]. split; [done|]. split.
    + intros w Hw. rewrite (Hh' w Hw). change (isrs s3) with (isrs (arrives l1 s1)). rewrite Ei. change (isrs s1) with t.
      case_decide as Hd1; [subst w; by rewrite Hnone|]. rewrite (Hh w Hw). case_decide as Hd2; [naive_solver|done].
    + rewrite Eo. cbn. by rewrite <- !app_assoc.
  - intros Hfew. pose proof (wait_hang pit_ticks pit_irq s1 pit_vec 1000 Hcounts Hhandles Hvec Hfew eq_refl) as Hw.
    change (pit_ticks s1 + 1000) with 1000 in Hw. cbv [mbind M_bind]. by rewrite Hw.
Qed.

(** A delay returns right after as many timer interrupts as the milliseconds
    asked for, and not before; it does not return when they do not arrive. *)
Theorem lapic_sleep_ms_spec s (ms : Z) :
  handles (isrs s) lapic_timer_int 0x31 → vectors_ok (arrivals s) → 0 ≤ lapic_bsp_ticks s → 0 ≤ ms → lapic_bsp_ticks s + ms < 2 ^ 64 →
  (∀ l1 l2, arrivals s = l1 ++ l2 → until (on_vec 0x31) ms l1 →
     lapic_sleep_ms_bsp pit_irq lapic_timer_int ms s = Ok (tt, set_arrivals l2 (arrives l1 s)) ∧
     lapic_bsp_ticks (arrives l1 s) = lapic_bsp_ticks s + ms) ∧
  (hits (on_vec 0x31) (arrivals s) < ms → lapic_sleep_ms_bsp pit_irq lapic_timer_int ms s = Hang).
Proof.
  intros Hh Hv H0 Hms Hb. unfold lapic_sleep_ms_bsp.
  assert (counts_in lapic_bsp_ticks lapic_timer_int s) as Hcounts by (intros l Hl; by apply (arrives_bsp pit_irq lapic_timer_int Hne l s)).
  split.
  - intros l1 l2 El Hu. assert (vectors_ok l1) as Hv1 by (intros a Ha; apply Hv; rewrite El; apply elem_of_app; by left). split.
    + run (eq_refl : gets lapic_bsp_ticks s = Ok (lapic_bsp_ticks s, s)). rewrite u64_small by lia.
      by apply (wait_run lapic_bsp_ticks lapic_timer_int s 0x31 ms l1 l2).
    + rewrite Hcounts; rewrite (hits_ext _ (on_vec 0x31)), (proj1 Hu); try lia; intros a Ha; by eapply handles_hit.
  - intros Hfew. run (eq_refl : gets lapic_bsp_ticks s = Ok (lapic_bsp_ticks s, s)). rewrite u64_small by lia.
    by apply (wait_hang lapic_bsp_ticks lapic_timer_int s 0x31 ms).
Qed.

(** Programming the timer: periodic on vector 0x31, with a thousandth of the
    speed as its period. *)
Lemma timer_starts s speed :
  0 ≤ speed < 2 ^ 32 →
  ∃ d, (lapic_write LVT_TIMER timer_vec;; lapic_write DIVIDE_CONFIG LAPIC_TIMER_1X_DIV;; lapic_timer_set_frequency speed INITIAL_FREQ) s = Ok (tt, set_regs d s) ∧
    setting d LVT_TIMER = 0x20031 ∧ setting d DIVIDE_CONFIG = LAPIC_TIMER_1X_DIV ∧ setting d INITIAL_COUNT = speed / 1000 ∧
    ∀ off, off ≠ LVT_TIMER → off ≠ DIVIDE_CONFIG → off ≠ INITIAL_COUNT → setting d off = setting (regs s) off.
Proof.
  intros Hs. destruct (write_run s LVT_TIMER timer_vec ltac:(done) ltac:(done)) as (d1 & W1 & S1 & O1 & _).
  destruct (write_run (set_regs d1 s) DIVIDE_CONFIG LAPIC_TIMER_1X_DIV ltac:(done) ltac:(done)) as (d2 & W2 & S2 & O2 & _).
  assert (0 ≤ speed / INITIAL_FREQ < 2 ^ 32) as Hp by (change INITIAL_FREQ with 1000; wrap_lia).
  destruct (write_run (set_regs d2 (set_regs d1 s)) INITIAL_COUNT (speed / INITIAL_FREQ) ltac:(done) Hp) as (d3 & W3 & S3 & O3 & _).
  cbn [regs set_regs] in *. exists d3. split; [run W1; run W2; unfold lapic_timer_set_frequency|].
  - by run (eq_refl : lift (Ok tt) (set_regs d2 (set_regs d1 s)) = Ok (tt, set_regs d2 (set_regs d1 s))).
  - split; [by rewrite O3, O2|]. split; [by rewrite O3|]. split; [|intros off H1 H2 H3; by rewrite O3, O2, O1].
    rewrite S3. change (settable INITIAL_COUNT) with (Z.ones 32). rewrite Z.land_ones by lia. by apply Z.mod_small.
Qed.

(** The timer of the first processor runs periodically on vector 0x31, with a
    thousandth of the measured speed as its period. *)
Theorem lapic_timer_init_spec s :
  it_ok (isrs s) → it_handler (isrs s) 0x31 = None → unused (isrs s) lapic_timer_int → 0 ≤ lapic_bsp_speed_hz s < 2 ^ 32 →
  ∃ s', lapic_timer_init_bsp lapic_timer_int s = Ok (tt, s') ∧ setting (regs s') LVT_TIMER = 0x20031 ∧
    setting (regs s') DIVIDE_CONFIG = LAPIC_TIMER_1X_DIV ∧ setting (regs s') INITIAL_COUNT = lapic_bsp_speed_hz s / 1000 ∧
    handles (isrs s') lapic_timer_int 0x31 ∧ arrivals s' = arrivals s ∧ lapic_bsp_ticks s' = lapic_bsp_ticks s.
Proof.
  intros Hok Hn Hu Hs. unfold lapic_timer_init_bsp.
  destruct (write_run s LVT_TIMER timer_vec ltac:(done) ltac:(done)) as (d1 & W1 & S1 & _ & _). run W1.
  destruct (write_run (set_regs d1 s) DIVIDE_CONFIG LAPIC_TIMER_1X_DIV ltac:(done) ltac:(done)) as (d2 & W2 & S2 & O2 & _). run W2.
  set (s2 := set_regs d2 (set_regs d1 s)). run (eq_refl : gets lapic_bsp_speed_hz s2 = Ok (lapic_bsp_speed_hz s, s2)).
  assert (0 ≤ lapic_bsp_speed_hz s / INITIAL_FREQ < 2 ^ 32) as Hp by (change INITIAL_FREQ with 1000; wrap_lia).
  destruct (write_run s2 INITIAL_COUNT (lapic_bsp_speed_hz s / INITIAL_FREQ) ltac:(done) Hp) as (d3 & W3 & S3 & O3 & _).
  assert (lapic_timer_set_frequency (lapic_bsp_speed_hz s) INITIAL_FREQ s2 = Ok (tt, set_regs d3 s2)) as Hset.
  { unfold lapic_timer_set_frequency. by run (eq_refl : lift (Ok tt) s2 = Ok (tt, s2)). }
  run Hset. destruct (register_run (set_regs d3 s2) 0x31 lapic_timer_int Hok ltac:(lia)) as (r & t & Hreg & Ht & Hh). run Hreg.
  eexists. split; [reflexivity|]. cbn [regs isrs arrivals lapic_bsp_ticks set_isrs set_regs]. split_and!; try done.
  - rewrite O3 by done. cbn [regs s2 set_regs]. rewrite O2 by done. exact S1.
  - rewrite O3 by done. exact S2.
  - rewrite S3. change (settable INITIAL_COUNT) with (Z.ones 32). rewrite Z.land_ones by lia. apply Z.mod_small. exact Hp.
  - by apply (registered_handles (isrs s)).
Qed.

(** The timer of another processor: its speed is measured during a thousand
    interrupts of the first processor's timer, and a thousandth of it is the
    period. *)
Theorem lapic_timer_init_ap_spec s l1 l2 :
  lapic_bsp_speed_hz s ≠ 0 → handles (isrs s) lapic_timer_int 0x31 → vectors_ok (arrivals s) →
  0 ≤ lapic_bsp_ticks s → lapic_bsp_ticks s + 1000 < 2 ^ 64 →
  arrivals s = l1 ++ l2 → until (on_vec 0x31) 1000 l1 → timely l1 → passed l1 < 2 ^ 32 →
  ∃ s', lapic_timer_init_ap pit_irq lapic_timer_int s = Ok (tt, s') ∧ setting (regs s') LVT_TIMER = 0x20031 ∧
    setting (regs s') DIVIDE_CONFIG = LAPIC_TIMER_1X_DIV ∧ setting (regs s') INITIAL_COUNT = passed l1 / 1000 ∧
    (∀ off, off ≠ LVT_TIMER → off ≠ DIVIDE_CONFIG → off ≠ INITIAL_COUNT → setting (regs s') off = setting (regs s) off) ∧
    host s' = host s ∧ isrs s' = isrs s ∧ arrivals s' = l2.
Proof.
  intros Hsp Hh Hv H0 Hb El Hu Htm Hp. unfold lapic_timer_init_ap.
  destruct (counter_starts s) as (d & Hrun & Hc & Hd & Hm & Ho). set (s1 := set_regs d s).
  pose proof (arrives_waited pit_irq lapic_timer_int l1 s1) as [Ei Eh _ _].
  destruct (lapic_sleep_ms_spec s1 1000 Hh Hv H0 ltac:(lia) Hb) as [Hsleep _]. destruct (Hsleep l1 l2 El Hu) as [Hs _].
  destruct (counter_read l1 s1 d Hc Hd Hm eq_refl Htm Hp l2) as [Hread Hp0]. set (s2 := set_arrivals l2 (arrives l1 s1)) in *.
  assert (lapic_timer_calc_freq_ap pit_irq lapic_timer_int s = Ok (passed l1, s2)) as Hcal.
  { unfold lapic_timer_calc_freq_ap. run (eq_refl : gets lapic_bsp_speed_hz s = Ok (lapic_bsp_speed_hz s, s)).
    destruct (Z.eqb_spec (lapic_bsp_speed_hz s) 0); [done|]. rewrite Hrun. fold s1. run Hs. run Hread. cbv [mret M_ret]. do 2 f_equal.
    rewrite u32_small; lia. }
  run Hcal. destruct (timer_starts s2 (passed l1) ltac:(lia)) as (d' & Hd' & S1 & S2 & S3 & O'). exists (set_regs d' s2). split; [exact Hd'|].
  split; [exact S1|]. split; [exact S2|]. split; [exact S3|]. split; [|by cbn; rewrite Ei, Eh].
  intros off N1 N2 N3. cbn [regs set_regs]. rewrite O' by done. cbn [regs s2 set_arrivals]. rewrite arrives_settings. by apply Ho.
Qed.

(** ** Non-maskable interrupts *)
Definition nmi_entry (i : Z) (n : madt_nmi) : Z :=
  Z.lor (Z.lor (Z.lor (u8 (0xE0 + i)) 0x320) (if has (nmi_flags n) 2 then Z.shiftl 1 13 else 0)) (if has (nmi_flags n) 8 then Z.shiftl 1 15 else 0).
Definition lint_reg (n : madt_nmi) : Z := if nmi_lint n =? 0 then LVT_LINT0 else LVT_LINT1.

(** The entry of the last NMI for a register, starting from [x]. *)
Fixpoint last_entry (off : Z) (l : list madt_nmi) (i x : Z) : Z :=
  match l with
  | [] => x
  | n :: l' => last_entry off l' (i + 1) (if lint_reg n =? off then nmi_entry i n else x)
  end.

Lemma nmi_entry_range i n : 0 ≤ nmi_entry i n < 2 ^ 16.
Proof.
  unfold nmi_entry. assert (0 ≤ u8 (0xE0 + i) < 2 ^ 16) by (unfold u8; pose proof (Z.mod_pos_bound (0xE0 + i) (2 ^ 8)); lia).
  apply lor_range; [lia|apply lor_range; [lia|apply lor_range; [lia|done|done]|]|].
  - by destruct (has (nmi_flags n) 2).
  - by destruct (has (nmi_flags n) 8).
Qed.

Lemma nmi_set_run s i n :
  nmi_lint n = 0 ∨ nmi_lint n = 1 →
  lapic_nmi_set (u8 (0xE0 + i)) (nmi_lint n) (nmi_flags n) s = lapic_write (lint_reg n) (nmi_entry i n) s.
Proof.
  intros Hl. unfold lapic_nmi_set, lint_reg, nmi_entry.
  destruct (has (nmi_flags n) 2), (has (nmi_flags n) 8), Hl as [-> | ->]; rewrite ?Z.lor_0_r; reflexivity.
Qed.

Lemma nmi_loop_run s l i :
  (Forall (λ n, nmi_lint n = 0 ∨ nmi_lint n = 1) l →
     ∃ d, nmi_loop l i s = Ok (tt, set_regs d s) ∧
       (∀ off x, off = LVT_LINT0 ∨ off = LVT_LINT1 → setting (regs s) off = Z.land x (settable off) →
          setting d off = Z.land (last_entry off l i x) (settable off)) ∧
       (∀ off, off ≠ LVT_LINT0 → off ≠ LVT_LINT1 → setting d off = setting (regs s) off)) ∧
  (Exists (λ n, nmi_lint n ≠ 0 ∧ nmi_lint n ≠ 1) l → nmi_loop l i s = Panic).
Proof.
  revert s i. induction l as [|n l IH]; intros s i.
  { split; [|by intros ?%Exists_nil]. intros _. exists (regs s). split; [by destruct s|]. by split. }
  assert (nmi_lint n = 0 ∨ nmi_lint n = 1 → ∃ d, lapic_nmi_set (u8 (0xE0 + i)) (nmi_lint n) (nmi_flags n) s = Ok (tt, set_regs d s) ∧
    setting d (lint_reg n) = Z.land (nmi_entry i n) (settable (lint_reg n)) ∧
    (∀ off', off' ≠ lint_reg n → setting d off' = setting (regs s) off')) as Hset.
  { intros Hl. rewrite (nmi_set_run s i n Hl). pose proof (nmi_entry_range i n).
    destruct (write_run s (lint_reg n) (nmi_entry i n)) as (d & W & S1 & O1 & _); [unfold lint_reg; by destruct (nmi_lint n =? 0)|lia|].
    by exists d. }
  cbn [nmi_loop last_entry]. split.
  - intros [Hn Hl]%Forall_cons. destruct (Hset Hn) as (d & W & S1 & O1). run W.
    destruct (IH (set_regs d s) (i + 1)) as [IH1 _]. destruct (IH1 Hl) as (d' & Hrun & Hd' & Ho'). exists d'. split; [exact Hrun|]. split.
    + intros off x Hoff Hx. apply Hd'; [done|]. cbn [regs set_regs]. destruct (Z.eqb_spec (lint_reg n) off) as [<-|Hne']; [exact S1|].
      by rewrite O1.
    + intros off H0 H1. rewrite Ho' by done. cbn [regs set_regs]. apply O1. unfold lint_reg. by destruct (nmi_lint n =? 0).
  - intros Hex. destruct (decide (nmi_lint n = 0 ∨ nmi_lint n = 1)) as [Hn|Hn].
    + destruct (Hset Hn) as (d & W & _ & _). run W. apply (IH (set_regs d s) (i + 1)). apply Exists_cons in Hex as [Hex|Hex]; [lia|done].
    + cbv [mbind M_bind]. unfold lapic_nmi_set. destruct (Z.eqb_spec (nmi_lint n) 0); [lia|]. destruct (Z.eqb_spec (nmi_lint n) 1); [lia|]. done.
Qed.

(** Every pin gets the entry of the last NMI that names it; an NMI on another
    pin stops the machine. *)
Theorem lapic_nmi_setup_spec {V : Type → Type} `{!FrgVector V} (m : madt V) s :
  (Forall (λ n, nmi_lint n = 0 ∨ nmi_lint n = 1) (vec_elems (madt_nmis m)) →
     ∃ d, lapic_nmi_setup m s = Ok (tt, set_regs d s) ∧
       (∀ off x, off = LVT_LINT0 ∨ off = LVT_LINT1 → setting (regs s) off = Z.land x (settable off) →
          setting d off = Z.land (last_entry off (vec_elems (madt_nmis m)) 0 x) (settable off)) ∧
       (∀ off, off ≠ LVT_LINT0 → off ≠ LVT_LINT1 → setting d off = setting (regs s) off)) ∧
  (Exists (λ n, nmi_lint n ≠ 0 ∧ nmi_lint n ≠ 1) (vec_elems (madt_nmis m)) → lapic_nmi_setup m s = Panic).
Proof. exact (nmi_loop_run s (vec_elems (madt_nmis m)) 0). Qed.
End timer.

(** ** The table of Irq.v *)
Section table.
Context {L : Type} {V H : Type → Type}.

#[export] Instance irq_table : IsrTable (Irq.interrupts L V H) := {|
  it_handler t v := mjoin (Irq.irq_handlers t !! Z.to_nat v);
  it_register := Irq.isr_register_handler;
  it_unregister := Irq.isr_unregister_handler;
  it_ok t := length (Irq.irq_handlers t) = 256%nat;
|}.

Lemma handler_at (t : Irq.interrupts L V H) v : length (Irq.irq_handlers t) = 256%nat → 0 ≤ v < 256 →
  Irq.handler_of v t = Ok (it_handler t v, t).
Proof.
  intros Hl Hv. unfold Irq.handler_of. cbv [mbind M_bind get_st lift access].
  destruct (lookup_lt_is_Some_2 (Irq.irq_handlers t) (Z.to_nat v)) as [h Hh]; [lia|]. cbn. by rewrite Hh.
Qed.

#[export] Instance irq_table_laws : IsrTableLaws (Irq.interrupts L V H).
Proof.
  split; intros t v.
  - intros h Hok Hv. cbn [it_register irq_table]. unfold Irq.isr_register_handler. run (handler_at t v Hok Hv).
    destruct (it_handler t v) as [h'|] eqn:E.
    + eexists _, t. split; [reflexivity|]. split; [done|]. intros w Hw. by rewrite decide_False by naive_solver.
    + eexists _, _. split; [reflexivity|]. split; [cbn; by rewrite length_insert|]. intros w Hw. cbn.
      case_decide as Hd; [destruct Hd as [-> _]; rewrite list_lookup_insert_eq; [done|cbn in Hok; lia]|].
      rewrite list_lookup_insert_ne; [done|]. intros Heq. apply Hd. split; [lia|done].
  - intros Hok Hv. cbn [it_unregister irq_table]. unfold Irq.isr_unregister_handler. run (handler_at t v Hok Hv).
    destruct (it_handler t v) as [h'|] eqn:E.
    + eexists _, _. split; [reflexivity|]. split; [cbn; by rewrite length_insert|]. intros w Hw. cbn.
      case_decide as Hd; [subst w; rewrite list_lookup_insert_eq; [done|cbn in Hok; lia]|].
      rewrite list_lookup_insert_ne; [done|]. intros Heq. apply Hd. lia.
    + eexists _, t. split; [reflexivity|]. split; [done|]. intros w Hw. case_decide; [by subst w|done].
Qed.
End table.

(** ** A controller and a table that meet the laws *)
Module Demo.
Import Instances.

Record dev := Dev { settings : Z → Z; current : Z; sent : list (Z * Z) }.
Definition dev_reg (d : dev) (off : Z) : Z :=
  if off =? CURRENT_COUNT then current d mod 2 ^ 32 else Z.land (settings d off) (settable off) mod 2 ^ 32.
Definition dev_write (off v : Z) (d : dev) : outcome (() * dev) :=
  Ok (tt, Dev (λ x, if x =? off then v else settings d x) (if off =? INITIAL_COUNT then v else current d)
            (sent d ++ if decide (off = ICR_LOW)
                       then [(Z.shiftr (Z.land (dev_reg d ICR_HIGH) (settable ICR_HIGH)) 24, Z.land v (settable ICR_LOW))] else [])).

#[export] Instance dev_lapic : LapicDev dev := {|
  mmio_lapic_read off d := Ok (dev_reg d off, d);
  mmio_lapic_write := dev_write;
  timer_counts n d := Dev (settings d) (Z.max 0 (current d mod 2 ^ 32 - n)) (sent d);
  lapic_reg := dev_reg;
  lapic_sent := sent;
|}.

Lemma dev_setting d off : setting d off = Z.land (settings d off) (settable off).
Proof.
  unfold setting. cbn. unfold dev_reg. destruct (Z.eqb_spec off CURRENT_COUNT) as [->|]; [by rewrite !Z.land_0_r|].
  assert (Z.land (settable off) (Z.ones 32) = settable off) as E by (unfold settable; repeat case_match; done).
  rewrite <- Z.land_ones by lia. by rewrite <- !Z.land_assoc, (Z.land_assoc (settable off)), E, Z.land_diag.
Qed.

#[export] Instance dev_laws : LapicDevLaws dev.
Proof.
  split.
  - done.
  - intros d off v Hoff Hv. eexists. split; [reflexivity|]. split; [rewrite dev_setting; cbn; by rewrite Z.eqb_refl|]. split.
    + intros off' Hne. rewrite !dev_setting. cbn. by destruct (Z.eqb_spec off' off).
    + cbn. unfold dev_reg. cbn. destruct (Z.eqb_spec off INITIAL_COUNT); [rewrite decide_True by done; by apply Z.mod_small|by rewrite decide_False].
  - by intros d off v d' [= <-].
  - done.
  - intros d n Hn _ _. cbn. unfold dev_reg. cbn. pose proof (Z.mod_pos_bound (current d) (2 ^ 32)). apply Z.mod_small. lia.
  - intros d n off. by rewrite !dev_setting.
  - intros d off. cbn. unfold dev_reg. destruct (off =? CURRENT_COUNT); apply Z.mod_pos_bound; lia.
Qed.
End Demo.

Section witnesses.
Import Instances Demo.

Definition demo_host : vmm := Vmm demo_pmm 0 0 0.
Definition no_handlers : list (option Z) := replicate 256 None.
Lemma no_handlers_join k : mjoin (no_handlers !! k) = None.
Proof. destruct (no_handlers !! k) as [h|] eqn:E; [|done]. by apply lookup_replicate in E as [-> _]. Qed.

Definition demo_table : Irq.interrupts (list Z) list (gmap Z) :=
  Irq.Interrupts (Sched.Sched demo_host ∅ ∅ ∅ [] 0 0 [] false false []) no_handlers [0].
Definition demo_lapic (l : list arrival) : lapic dev (Irq.interrupts (list Z) list (gmap Z)) :=
  Lapic (Dev (λ _, 0) 0 []) demo_table demo_host [] 0 0 0 false l.

Lemma demo_table_none v : it_handler demo_table v = None.
Proof. apply no_handlers_join. Qed.

Lemma demo_unused v h : it_handler demo_table v ≠ Some h.
Proof. by rewrite demo_table_none. Qed.

Lemma until_replicate v n k : 0 < n → until (on_vec v) n (replicate (Z.to_nat n) (Interrupt v k)).
Proof.
  intros Hn. split.
  - assert (∀ m : nat, hits (on_vec v) (replicate m (Interrupt v k)) = Z.of_nat m) as ->; [|lia].
    intros m. induction m as [|m IH]; [done|]. cbn [replicate hits foldr on_vec]. rewrite Z.eqb_refl. unfold hits in IH. rewrite IH. lia.
  - intros l a E. assert (a ∈ replicate (Z.to_nat n) (Interrupt v k)) as Ha by (rewrite E; apply elem_of_app; right; by left).
    apply elem_of_replicate in Ha as [-> _]. cbn. apply Z.eqb_refl.
Qed.

(** A thousand interrupts, every one after 5000 counts, and then three of the
    timer. *)
Definition demo_arrivals : list arrival := replicate 1000 (Interrupt 0x40 5000).
Definition demo_later : list arrival := [Interrupt 0x31 4; Interrupt 0x41 1; Interrupt 0x31 5; Interrupt 0x31 5; Interrupt 0x31 5].

Lemma demo_vectors : vectors_ok (demo_arrivals ++ demo_later).
Proof.
  intros a [Ha|Ha]%elem_of_app; [by apply elem_of_replicate in Ha as [-> _]|].
  unfold demo_later in Ha. repeat (apply elem_of_cons in Ha as [->|Ha]; [lia|]). by apply elem_of_nil in Ha.
Qed.

Lemma lapic_calibrates_witness :
  ∃ s', lapic_timer_calc_freq_bsp 1 2 0x40 (demo_lapic (demo_arrivals ++ demo_later)) = Ok (tt, s') ∧
    lapic_bsp_speed_hz s' = 5000000 ∧ arrivals s' = demo_later.
Proof.
  destruct (lapic_calibrates 1 2 ltac:(done) (demo_lapic (demo_arrivals ++ demo_later)) 0x40) as [Hcal _];
    [reflexivity|reflexivity|lia|apply demo_table_none|intros w _; exact (demo_unused w _)|exact demo_vectors|].
  destruct (Hcal demo_arrivals demo_later eq_refl (until_replicate 0x40 1000 5000 ltac:(lia))) as (s' & Hrun & Hs & Ha & _).
  - apply Forall_replicate. cbn. lia.
  - vm_compute. reflexivity.
  - exists s'. split; [exact Hrun|]. split; [rewrite Hs; vm_compute; reflexivity|exact Ha].
Defined.

(** The table with the handler of the timer. *)
Definition timer_table : Irq.interrupts (list Z) list (gmap Z) :=
  Irq.Interrupts (Irq.irq_sched demo_table) (<[0x31%nat := Some 2]> no_handlers) [0].
Definition demo_timer : lapic dev (Irq.interrupts (list Z) list (gmap Z)) :=
  Lapic (Dev (λ _, 0) 0 []) timer_table demo_host [] 5000000 1000 7 false demo_later.

Lemma timer_table_handles : handles timer_table 2 0x31.
Proof.
  intros w Hw. change (mjoin (<[0x31%nat := Some 2]> no_handlers !! Z.to_nat w) = Some 2 ↔ w = 0x31).
  destruct (decide (Z.to_nat w = 0x31%nat)) as [E|E].
  - rewrite E, list_lookup_insert_eq by (vm_compute; lia). split; [lia|done].
  - rewrite list_lookup_insert_ne by done. rewrite no_handlers_join. split; [done|lia].
Qed.

Lemma lapic_sleep_ms_spec_witness :
  ∃ s', lapic_sleep_ms_bsp 1 2 2 demo_timer = Ok (tt, s') ∧ arrivals s' = drop 3 demo_later ∧
    lapic_sleep_ms_bsp 1 2 5 demo_timer = Hang.
Proof.
  pose proof timer_table_handles as Hh.
  assert (vectors_ok demo_later) as Hv by (intros a Ha; apply demo_vectors, elem_of_app; by right).
  destruct (lapic_sleep_ms_spec 1 2 ltac:(done) demo_timer 2 Hh Hv) as [Hs _]; [cbn; lia|lia|cbn; lia|].
  destruct (lapic_sleep_ms_spec 1 2 ltac:(done) demo_timer 5 Hh Hv) as [_ Hhang]; [cbn; lia|lia|cbn; lia|].
  destruct (Hs (take 3 demo_later) (drop 3 demo_later) eq_refl) as [Hrun _].
  - split; [reflexivity|]. intros l' a E. assert (last (take 3 demo_later) = Some a) as El by (rewrite E; apply last_snoc).
    injection El as <-. reflexivity.
  - eexists. split; [exact Hrun|]. split; [reflexivity|]. apply Hhang. vm_compute. reflexivity.
Defined.

Lemma lapic_timer_init_spec_witness :
  ∃ s', lapic_timer_init_bsp 2 (set_speed 5000123 (demo_lapic [])) = Ok (tt, s') ∧ setting (regs s') INITIAL_COUNT = 5000.
Proof.
  destruct (lapic_timer_init_spec 2 (set_speed 5000123 (demo_lapic []))) as (s' & Hrun & _ & _ & Hp & _);
    [reflexivity|apply demo_table_none|intros w _; exact (demo_unused w _)|cbn; lia|].
  exists s'. split; [exact Hrun|]. rewrite Hp. reflexivity.
Defined.

Lemma lapic_timer_init_ap_spec_witness :
  ∃ s', lapic_timer_init_ap 1 2 (set_arrivals (replicate 1000 (Interrupt 0x31 4000)) demo_timer) = Ok (tt, s') ∧ setting (regs s') INITIAL_COUNT = 4000.
Proof.
  destruct (lapic_timer_init_ap_spec 1 2 ltac:(done) (set_arrivals (replicate 1000 (Interrupt 0x31 4000)) demo_timer) (replicate 1000 (Interrupt 0x31 4000)) [])
    as (s' & Hrun & _ & _ & Hp & _); [done|apply timer_table_handles| |cbn; lia|cbn; lia|by rewrite app_nil_r|exact (until_replicate 0x31 1000 4000 ltac:(lia))| |vm_compute; reflexivity|].
  - intros a Ha. apply elem_of_replicate in Ha as [-> _]. lia.
  - apply Forall_replicate. cbn. lia.
  - exists s'. split; [exact Hrun|]. rewrite Hp. vm_compute. reflexivity.
Defined.

Lemma lapic_nmi_setup_spec_witness :
  lapic_nmi_setup (Madt [] [MadtNmi 255 0 7] [] []) (demo_lapic []) = Panic.
Proof. apply lapic_nmi_setup_spec. apply Exists_cons_hd. cbn. lia. Defined.
End witnesses.
