(* ===== verification/SmpPages.v ===== *)
(** * Pages and low memory for the processors that start

    What the allocation of pages leaves free, and copying within the memory
    below the first page that is handed out, where the page tables are not. *)
From S2P Require Import Prelude Pmm Paging Vmm ArchX86 Window.
From stdpp Require Import base numbers option gmap list.
#[local] Open Scope Z_scope.

(** ** Runs of free pages

    First fit takes the pages at the start of a run of free pages, or before
    it: what is left of the run stays free. *)
Definition MAX_RUN : Z := 16.

Record pages_ok (s : pmm) : Prop := {
  po_covers : covers (pmm_bitmap s) (pmm_bitmap_len s + MAX_RUN);
  po_len : pmm_bitmap_len s ≤ 2 ^ 34;
  po_low j : 0 ≤ j < first_page → used (pmm_bitmap s) j = true;
}.

Lemma pages_ok_pool s : pages_ok s → pool_ok s.
Proof. intros [Hc Hl _]. split; [eapply covers_mono; [done|unfold MAX_RUN; lia]|lia]. Qed.

Definition free_run (s : pmm) (i n : Z) : Prop :=
  first_page ≤ i ∧ 0 ≤ n ∧ i + n ≤ pmm_bitmap_len s ∧ run_free (pmm_bitmap s) i n.

(** The pages from [k] on are newly in use. *)
Record taken (s : pmm) (k c : Z) (s' : pmm) : Prop := {
  tk_range : first_page ≤ k ∧ k + c ≤ pmm_bitmap_len s;
  tk_free : run_free (pmm_bitmap s) k c;
  tk_alloc : allocated s k c s';
}.

(** What an operation that takes at most [c] pages does to the pages. *)
Record takes (c : Z) (s s' : pmm) : Prop := {
  ts_ok : pages_ok s';
  ts_len : pmm_bitmap_len s' = pmm_bitmap_len s;
  ts_used j : 0 ≤ j → used (pmm_bitmap s) j = true → used (pmm_bitmap s') j = true;
  ts_run i n : c ≤ n → free_run s i n → free_run s' (i + c) (n - c);
}.

Lemma free_run_sub s i n c : 0 ≤ c ≤ n → free_run s i n → free_run s (i + c) (n - c).
Proof. intros Hc (H1 & H2 & H3 & H4). split_and!; [lia|lia|lia|]. intros j Hj. apply H4. lia. Qed.

Lemma takes_refl s : pages_ok s → takes 0 s s.
Proof. intros H. split; try done. intros i n Hn Hr. by apply free_run_sub. Qed.

Lemma takes_weaken c c' s s' : c ≤ c' → takes c s s' → takes c' s s'.
Proof.
  intros Hc [H1 H2 H3 H4]. split; try done. intros i n Hn Hr. replace (i + c') with (i + c + (c' - c)) by lia.
  replace (n - c') with (n - c - (c' - c)) by lia. apply free_run_sub; [lia|]. apply H4; [lia|done].
Qed.

Lemma takes_trans a b s1 s2 s3 : 0 ≤ b → takes a s1 s2 → takes b s2 s3 → takes (a + b) s1 s3.
Proof.
  intros Hb [_ L1 U1 R1] [O2 L2 U2 R2]. split; [done|by rewrite L2|auto|]. intros i n Hn Hr.
  replace (i + (a + b)) with (i + a + b) by lia. replace (n - (a + b)) with (n - a - b) by lia. apply R2; [lia|]. apply R1; [lia|done].
Qed.

Lemma allocated_takes s k c s' :
  pages_ok s → 0 < c ≤ MAX_RUN → first_page ≤ k → allocated s k c s' →
  (∀ i n, c ≤ n → free_run s i n → k ≤ i) → takes c s s'.
Proof.
  intros Hok Hc Hk Hal Hmin. pose proof Hal as (Hu & _ & _ & Hl & _). change first_page with 8192 in *. split.
  - destruct Hok as [Hcov Hlen Hlow]. split; rewrite ?Hl; [by eapply allocated_covers|done|].
    intros j Hj. rewrite Hu, Hlow by lia. apply orb_true_r.
  - done.
  - intros j Hj Huj. rewrite Hu, Huj by done. apply orb_true_r.
  - intros i n Hn Hr. pose proof (Hmin i n Hn Hr). destruct Hr as (H1 & H2 & H3 & H4). change first_page with 8192 in H1.
    split_and!; [change first_page with 8192; lia|lia|lia|]. intros j Hj. rewrite Hu, H4 by lia. rewrite orb_false_r.
    destruct (in_run k c j) eqn:E; [|done]. apply in_run_true in E. lia.
Qed.

Lemma pmm_alloc_takes s c a s' : pages_ok s → 0 < c ≤ MAX_RUN → pmm_alloc c s = Ok (a, s') → takes c s s'.
Proof.
  intros Hok Hc Ha. pose proof Hok as [Hcov Hlen _]. unfold MAX_RUN in *.
  destruct (pmm_alloc_ex_cases s c 1 0) as [(k & s2 & He & [Hk _] & _ & Hmin & Hal)|[He _]];
    [lia|lia|cbn; lia|eapply covers_mono; [done|cbn; lia]| |]; unfold pmm_alloc in Ha; rewrite He in Ha; injection Ha as <- <-.
  - apply (allocated_takes s k); [done|done|apply Hk|done|]. intros i n Hn (H1 & _ & H3 & H4).
    destruct (Z.le_gt_cases k i) as [|Hlt]; [done|]. destruct (Hmin i); [|done|intros j Hj; apply H4; lia].
    split; [cbn; lia|exists (i - first_page); lia].
  - apply (takes_weaken 0); [lia|]. by apply takes_refl.
Qed.

(** With a run that is long enough, memory is there. *)
Lemma pmm_alloc_run s c i n :
  pages_ok s → 0 < c ≤ MAX_RUN → free_run s i n → c ≤ n →
  ∃ k s', pmm_alloc c s = Ok (k * 4096, s') ∧ taken s k c s' ∧ takes c s s'.
Proof.
  intros Hok Hc Hr Hn. pose proof Hok as [Hcov Hlen _]. pose proof Hr as (H1 & _ & H3 & H4). unfold MAX_RUN in *.
  assert (candidate first_page 1 (pmm_max_idx s 0) i) as Hci by (split; [cbn; lia|exists (i - first_page); lia]).
  destruct (pmm_alloc_ex_cases s c 1 0) as [(k & s2 & He & [Hk Hd] & Hf & Hmin & Hal)|[_ Hno]];
    [lia|lia|cbn; lia|eapply covers_mono; [done|cbn; lia]| |].
  - exists k, s2. split; [done|]. split; [|by apply (pmm_alloc_takes s c (k * PAGE_SIZE))]. split; [|done|done].
    split; [apply Hk|]. destruct (Z.le_gt_cases k i) as [|Hlt]; [lia|]. destruct (Hmin i Hci Hlt). intros j Hj. apply H4. lia.
  - destruct (Hno i Hci). intros j Hj. apply H4. lia.
Qed.

(** An operation that takes at most [c] pages whenever it returns. *)
Definition thrifty {A} (c : Z) (m : M pmm A) : Prop := ∀ s a s', pages_ok s → m s = Ok (a, s') → takes c s s'.

Lemma thrifty_ret {A} (a : A) : thrifty 0 (mret a).
Proof. intros s b s' Hok [= _ <-]. by apply takes_refl. Qed.

Lemma thrifty_bind {A B} a b (m : M pmm A) (f : A → M pmm B) :
  0 ≤ b → thrifty a m → (∀ x, thrifty b (f x)) → thrifty (a + b) (m ≫= f).
Proof.
  intros Hb Hm Hf s y s' Hok H. apply bind_M_Ok in H as (x & s1 & H1 & H2). pose proof (Hm _ _ _ Hok H1) as G1.
  eapply takes_trans; [done|exact G1|]. eapply Hf; [apply G1|exact H2].
Qed.

Lemma thrifty_weaken {A} c c' (m : M pmm A) : c ≤ c' → thrifty c m → thrifty c' m.
Proof. intros Hc Hm s a s' Hok H. eapply takes_weaken; [exact Hc|]. by eapply Hm. Qed.

Lemma thrifty_phys (f : gmap Z Z → gmap Z Z) : thrifty 0 (modify (λ s, set_phys (f (phys s)) s)).
Proof. intros s a s' Hok [= _ <-]. destruct (takes_refl s Hok) as [[] H2 H3 H4]. by split. Qed.

Lemma thrifty_load tab off : thrifty 0 (load_ent tab off).
Proof. intros s a s' Hok H. destruct tab; [|done]. injection H as _ <-. by apply takes_refl. Qed.

Lemma thrifty_store tab off v : thrifty 0 (store_ent tab off v).
Proof. destruct tab as [t|]; [|intros s a s' _ H; done]. exact (thrifty_phys (λ m, <[t + 8 * off := v]> m)). Qed.

Lemma thrifty_get_or_alloc tab off flags : thrifty 1 (vmm_get_or_alloc_ent tab off flags).
Proof.
  unfold vmm_get_or_alloc_ent. apply (thrifty_bind 0 1); [lia|apply thrifty_load|]. intros e.
  destruct (is_present e); [apply (thrifty_weaken 0); [lia|apply thrifty_ret]|].
  apply (thrifty_bind 1 0); [lia|intros s a s' Hok H; apply (pmm_alloc_takes s 1 a); [done|done|done]|]. intros p.
  apply (thrifty_bind 0 0); [lia|apply thrifty_store|]. intros _. destruct (p =? 0); [apply thrifty_ret|].
  apply (thrifty_bind 0 0); [lia|apply thrifty_store|]. intros _.
  apply (thrifty_bind 0 0); [lia|exact (thrifty_phys (λ m, zero_page m p))|]. intros _. apply thrifty_ret.
Qed.

Lemma thrifty_map_one pml4 virt physp perms : thrifty 3 (map_one pml4 virt physp perms).
Proof.
  unfold map_one. apply (thrifty_bind 1 2); [lia|apply thrifty_get_or_alloc|]. intros pdp.
  apply (thrifty_bind 1 1); [lia|apply thrifty_get_or_alloc|]. intros pd.
  apply (thrifty_bind 1 0); [lia|apply thrifty_get_or_alloc|]. intros pt. apply thrifty_store.
Qed.

Lemma thrifty_map_pages pml4 virt physp count perms : thrifty (3 * Z.of_nat count) (vmm_map_pages pml4 virt physp count perms).
Proof.
  revert virt physp. induction count as [|n IH]; intros virt physp; cbn [vmm_map_pages]; [exact (thrifty_ret 1)|].
  replace (3 * Z.of_nat (S n)) with (3 + 3 * Z.of_nat n) by lia. apply thrifty_bind; [lia|apply thrifty_map_one|]. intros _. apply IH.
Qed.

(** A run of free pages is memory that is available. *)
Lemma free_run_avail s i n : free_run s i n → n ≤ avail s.
Proof.
  intros (H1 & H2 & H3 & H4). change first_page with 8192 in H1. apply (count_clear_run_le _ _ i); [lia|lia|done|].
  intros j Hj. rewrite H4 by done. change first_page with 8192. lia.
Qed.

(** ** Low memory

    The memory below the first page that is handed out holds no tables. *)
Definition LOW : Z := first_page * 4096.

Lemma own_not_low own s t π : tables_ok own s → own !! t = Some π → LOW ≤ t.
Proof. intros Hok Ht. destruct (own_page _ _ Hok t π Ht) as (k & -> & [Hk _] & _). unfold LOW. lia. Qed.

Lemma same_tables_rest own s s' :
  tables_ok own s → pmm_bitmap_len s' = pmm_bitmap_len s → pool_ok s' →
  (∀ j, 0 ≤ j → used (pmm_bitmap s) j = true → used (pmm_bitmap s') j = true) →
  (∀ t π o, own !! t = Some π → off_ok o → ent (phys s') t o = ent (phys s) t o) →
  tables_ok own s' ∧ ∀ r v, own !! r = Some [r] → lower v → leaf (phys s') r v = leaf (phys s) r v.
Proof.
  intros Hok Hlen Hpool Hused Hent.
  assert (∀ t π, own !! t = Some π → used (pmm_bitmap s') (t / 4096) = true) as Hu.
  { intros t π Ht. destruct (own_page _ _ Hok t π Ht) as (k & -> & [Hk _] & Huk). change first_page with 8192 in Hk.
    rewrite Z.div_mul by done. apply Hused; [lia|done]. }
  split; [by apply (same_tables_ok own s)|]. intros r v Hr Hv. by apply (same_tables_leaf own).
Qed.

Lemma low_write own s m :
  tables_ok own s → (∀ x, LOW ≤ x → rd m x = rd (phys s) x) →
  tables_ok own (set_phys m s) ∧ ∀ r v, own !! r = Some [r] → lower v → leaf m r v = leaf (phys s) r v.
Proof.
  intros Hok Hm. apply (same_tables_rest own s (set_phys m s)); [done|done|by destruct (own_pool _ _ Hok)|done|].
  intros t π o Ht [Ho _]. apply Hm. pose proof (own_not_low _ _ _ _ Hok Ht). lia.
Qed.

Lemma taken_tables own s k c s' :
  tables_ok own s → 0 < c → taken s k c s' → takes c s s' →
  tables_ok own s' ∧ (∀ r v, own !! r = Some [r] → lower v → leaf (phys s') r v = leaf (phys s) r v) ∧
  ∀ x, 0 ≤ x < LOW → load8 (phys s') x = load8 (phys s) x.
Proof.
  intros Hok Hc [[Hk Hk'] Hf Hal] Ht. change first_page with 8192 in Hk.
  assert (phys s' = zero_page (phys s) (k * 4096)) as Hphys by apply Hal.
  assert (∀ t π o, own !! t = Some π → off_ok o → ent (phys s') t o = ent (phys s) t o) as Hent.
  { intros t π o Htab Ho. unfold ent. rewrite Hphys. apply zero_page_out.
    apply outside_page; [by eapply own_aligned|by apply Z.mod_mul|done|]. intros ->.
    destruct (own_page _ _ Hok _ _ Htab) as (k' & Ek & _ & Hu). assert (k' = k) as -> by lia. rewrite Hf in Hu by lia. done. }
  split; [|split].
  - apply (same_tables_rest own s s'); [done|apply Ht|apply pages_ok_pool, Ht|apply Ht|done].
  - apply (same_tables_rest own s s'); [done|apply Ht|apply pages_ok_pool, Ht|apply Ht|done].
  - intros x Hx. unfold load8. rewrite Hphys, zero_page_out; [done|]. intros o Ho E.
    unfold LOW, off_ok in *. change first_page with 8192 in Hx. wrap_lia.
Qed.

(** ** The machine that starts a processor *)
Record machine (own : gmap Z (list Z)) (a : vmm) : Prop := {
  mc_direct : direct own a;
  mc_pages : pages_ok (mem a);
  mc_low32 : 0 ≤ kernel_pml4 a < 2 ^ 32;
}.

Definition low_same (a a' : vmm) : Prop := ∀ x, 0 ≤ x < LOW → load8 (phys (mem a')) x = load8 (phys (mem a)) x.

Lemma machine_set own own' a p :
  machine own a → tables_ok own' p → own ⊆ own' → pages_ok p → machine own' (set_mem p a).
Proof.
  intros [[Hok Hlen Hr Hc] Hp Hl] Hok' Hsub Hp'. pose proof (po_len _ Hp'). split; [|done|done]. split; [done|cbn; lia| |done].
  cbn. by eapply lookup_weaken.
Qed.

Lemma machine_translate own a v q :
  machine own a → lower v → aligned q → 0 ≤ q < 2 ^ 52 → leaf (phys (mem a)) (kernel_pml4 a) v = entry_of q VMM_FLAG_WRITE →
  translate (phys (mem a)) (cr3 a) v = Some (q + v mod 4096).
Proof.
  intros [[Hok Hlen Hr Hc] _ _] Hv Hq Hq' Hl. rewrite Hc.
  rewrite (translate_leaf own (mem a) (kernel_pml4 a) v Hok Hlen Hr Hv) by (rewrite Hl; apply is_present_lor).
  by rewrite Hl, entry_hw.
Qed.

(** The pages of a range of low memory are mapped at their own addresses. *)
Definition identity (a : vmm) (v n : Z) : Prop := ∀ x, v ≤ x < v + n → leaf (phys (mem a)) (kernel_pml4 a) x = entry_of (x / 4096 * 4096) VMM_FLAG_WRITE.

Lemma identity_translate own a v n x :
  machine own a → identity a v n → 0 ≤ v → v + n ≤ LOW → v ≤ x < v + n → translate (phys (mem a)) (cr3 a) x = Some x.
Proof.
  intros Hm Hi Hv Hn Hx. unfold LOW in Hn. change first_page with 8192 in Hn.
  rewrite (machine_translate own a x (x / 4096 * 4096)); [f_equal; wrap_lia|done|unfold lower; lia|by apply Z.mod_mul|wrap_lia|by apply Hi].
Qed.

Lemma map_identity own a v n i k :
  machine own a → aligned v → 0 ≤ v → 0 ≤ n → v + 4096 * n ≤ LOW → free_run (mem a) i k → 3 * n ≤ k →
  ∃ own' p, arch_mm_map_kernel v v n (Z.lor perm_read perm_write) 0 a = Ok (1, set_mem p a) ∧
    machine own' (set_mem p a) ∧ takes (3 * n) (mem a) p ∧ own ⊆ own' ∧ low_same a (set_mem p a) ∧
    identity (set_mem p a) v (4096 * n).
Proof.
  intros Hm Hal Hv Hn Hl Hr Hk. pose proof Hm as [[Hok Hlen Hroot Hc] Hp _]. unfold LOW in Hl. change first_page with 8192 in Hl.
  pose proof (free_run_avail _ _ _ Hr) as Hav. unfold arch_mm_map_kernel. run (eq_refl : gets kernel_pml4 a = Ok (kernel_pml4 a, a)).
  change (u64 (vmm_arch_to_vmm_flags (Z.lor perm_read perm_write) 0)) with VMM_FLAG_WRITE.
  destruct (vmm_map_pages_ok (Z.to_nat n) own (mem a) (kernel_pml4 a) v v VMM_FLAG_WRITE) as (own' & p & Hrun & G);
    [done|done|lia|lia|unfold is_u64; lia|lia|]. rewrite Z2Nat.id in G by done.
  pose proof (thrifty_map_pages _ _ _ _ _ _ _ _ Hp Hrun) as Ht. rewrite Z2Nat.id in Ht by done.
  exists own', p. split; [unfold on_mem, zoom; by rewrite Hrun|].
  split; [eapply machine_set; [done|apply G|apply G|apply Ht]|]. split; [done|]. split; [apply G|]. split.
  - intros x Hx. unfold LOW in Hx. change first_page with 8192 in Hx. cbn [mem set_mem]. set (t := x / 4096 * 4096).
    destruct (g_data _ _ _ _ _ _ G t) as [_ Hd]; [by apply Z.mod_mul|unfold t; rewrite Z.div_mul by done; apply Hp; change first_page with 8192; wrap_lia|unfold t; wrap_lia| |].
    { apply eq_None_not_Some. intros [π Hπ]. pose proof (own_not_low _ _ _ _ Hok Hπ) as H0. unfold LOW, t in H0. change first_page with 8192 in H0. wrap_lia. }
    unfold load8. specialize (Hd (x / 8 mod 512) ltac:(unfold off_ok; wrap_lia)). unfold ent in Hd.
    replace (x / 8 * 8) with (t + 8 * (x / 8 mod 512)) by (unfold t; wrap_lia). by rewrite Hd.
  - intros x Hx. cbn [mem set_mem kernel_pml4]. rewrite (g_leaf _ _ _ _ _ _ G) by (done || unfold lower; lia).
    unfold upd_run, aligned in *. rewrite decide_True by (split; [done|wrap_lia]). cbn.
    rewrite u64_small by wrap_lia. f_equal. wrap_lia.
Qed.

(** ** Copying within low memory *)
Definition copy_low (dst src n : Z) : M vmm () :=
  for_each (λ i, b ← gets (λ a, load8 (phys (mem a)) (src + i)); vstore8 (dst + i) b) (seqZ 0 n).

Lemma copy_low_run own dst src n : 0 ≤ dst → 0 ≤ n → dst + n ≤ src → src + n ≤ LOW → ∀ a,
  machine own a → identity a dst n →
  ∃ m, copy_low dst src n a = Ok (tt, set_mem (set_phys m (mem a)) a) ∧
    (∀ x, LOW ≤ x → rd m x = rd (phys (mem a)) x) ∧
    ∀ x, load8 m x = if decide (dst ≤ x < dst + n) then load8 (phys (mem a)) (src + (x - dst)) else load8 (phys (mem a)) x.
Proof.
  intros Hd Hn Hds Hl. unfold copy_low.
  assert (∀ l k, l = seqZ k (n - k) → 0 ≤ k ≤ n → ∀ a, machine own a → identity a dst n →
    ∃ m, for_each (λ i, b ← gets (λ a, load8 (phys (mem a)) (src + i)); vstore8 (dst + i) b) l a = Ok (tt, set_mem (set_phys m (mem a)) a) ∧
      (∀ x, LOW ≤ x → rd m x = rd (phys (mem a)) x) ∧
      ∀ x, load8 m x = if decide (dst + k ≤ x < dst + n) then load8 (phys (mem a)) (src + (x - dst)) else load8 (phys (mem a)) x) as Hgo.
  { induction l as [|k' l IH]; intros k El Hk a Hm Hi.
    - exists (phys (mem a)). assert (n = k) as -> by (apply (f_equal length) in El; rewrite length_seqZ in El; cbn in El; lia).
      split; [by destruct a as [[] ? ? ?]|]. split; [done|]. intros x. rewrite decide_False by lia. done.
    - assert (0 < n - k) as Hlt by (apply (f_equal length) in El; rewrite length_seqZ in El; cbn in El; lia).
      rewrite seqZ_cons in El by done. injection El as -> El. cbn [for_each].
      set (b := load8 (phys (mem a)) (src + k)). pose proof (load8_byte (phys (mem a)) (src + k)) as Hb. fold b in Hb.
      set (a1 := poke a (dst + k) b).
      assert ((b ← gets (λ a, load8 (phys (mem a)) (src + k)); vstore8 (dst + k) b) a = Ok (tt, a1)) as Hstep.
      { run (eq_refl : gets (λ a, load8 (phys (mem a)) (src + k)) a = Ok (b, a)). unfold vstore8.
        rewrite (identity_translate own a dst n) by (done || lia). done. }
      run Hstep. pose proof Hm as [[Hok Hlen Hr Hc] Hp Hl32].
      destruct (low_write own (mem a) (store8 (phys (mem a)) (dst + k) b) Hok) as [Hok1 Hleaf].
      { intros x Hx. apply store8_rd. unfold LOW in *. change first_page with 8192 in *. wrap_lia. }
      destruct (IH (Z.succ k) ltac:(rewrite El; f_equal; lia) ltac:(lia) a1) as (m & Hrun & Hhi & Hlo).
      { apply machine_set with (own := own); [done|done|done|]. by destruct Hp. }
      { intros x Hx. unfold a1, poke. cbn [mem set_mem kernel_pml4 phys set_phys]. rewrite Hleaf; [by apply Hi|done|].
        unfold lower, LOW in *. change first_page with 8192 in *. lia. }
      exists m. split; [exact Hrun|]. unfold a1, poke in Hhi, Hlo. cbn [mem set_mem phys set_phys] in Hhi, Hlo. split.
      + intros x Hx. rewrite Hhi by done. apply store8_rd. unfold LOW in *. change first_page with 8192 in *. wrap_lia.
      + intros x. rewrite Hlo, !load8_store8 by done. repeat case_decide; try lia; try done. 
        subst x. unfold b. f_equal. lia. }
  intros a Hm Hi. destruct (Hgo (seqZ 0 n) 0 ltac:(f_equal; lia) ltac:(lia) a Hm Hi) as (m & H1 & H2 & H3).
  exists m. split; [exact H1|]. split; [exact H2|]. intros x. rewrite H3. by rewrite Z.add_0_r.
Qed.
