(* ===== verification/Smp.v ===== *)
(** * Starting the other processors (cpu/smp.cpp, cpu/cpu_data.cpp, cpu/cpu.cpp)

    The record of a processor, its stack, segment table and task state segment
    come from the physical pages of Pmm.v; the records and tables are kept by
    their addresses, with the contents of Cpu.v. A processor that is started
    answers by an arrival [Started] of Lapic.v. The words and the code that it
    needs before it has tables of its own are in the physical memory. Loading
    the interrupt table on the processor that starts ([idt_just_load]), which all share, and
    enabling interrupts are left out, with the messages. *)
From S2P Require Import Prelude Frigg Pmm Paging Vmm Cpu Apic Lapic.
From stdpp Require Import base numbers option gmap list.
#[local] Open Scope Z_scope.

Definition KERNEL_SMP : Z := 0x400000.
Definition STACK_SIZE : Z := 0x10000.
Definition DEFAULT_MAX_CPUS : Z := 256.
Definition GDT_TSS_SEL : Z := 0x20.
(** [sizeof(cpu_data_t)] *)
Definition sizeof_cpu_data : Z := 48.
(** Where the words for a processor that starts are. *)
Definition SMP_DATA : Z := 0x500.

Record cpu_data_t := CpuData {
  cpu_id : Z;
  cpu_lapic_id : Z;
  stack_ptr : Z;
  cpu_gdt : Z;
  cpu_tss : Z;
  spurious_pic : Z;
  cpu_saved_vmm_ctx : Z;
}.

Record smp {D T : Type} := Smp {
  ctl : lapic D T;              (** the controller, the memory *)
  cpu_data : Z;
  max_cpus : Z;
  records : list cpu_data_t;    (** what [cpu_data] points to *)
  segments : gmap Z tss;        (** the task state segments *)
  gdts : gmap Z (list Z);       (** the segment tables *)
  gdtr : Z * Z;                 (** the registers of this processor *)
  task_reg : Z;
  gs_base : Z * Z;
  smp_core_count : Z;
}.
Arguments smp : clear implicits.
Arguments Smp {D T} _ _ _ _ _ _ _ _ _ _.

Section smp.
Context {D : Type} `{!LapicDev D}.
Context {T : Type} `{!IsrTable T}.
(** The handlers of Lapic.v, the bounds of the code for a processor that
    starts, and the addresses of [smp_entry] and [smp_c_entry]. *)
Context (pit_irq lapic_timer_int : Z).
Context (trampoline_start trampoline_end smp_entry smp_c_entry_addr : Z).
Notation lapic := (lapic D T).
Notation smp := (smp D T).

Definition set_ctl (c : lapic) (s : smp) : smp :=
  Smp c (cpu_data s) (max_cpus s) (records s) (segments s) (gdts s) (gdtr s) (task_reg s) (gs_base s) (smp_core_count s).
Definition set_array (base n : Z) (l : list cpu_data_t) (s : smp) : smp :=
  Smp (ctl s) base n l (segments s) (gdts s) (gdtr s) (task_reg s) (gs_base s) (smp_core_count s).
Definition set_records (l : list cpu_data_t) (s : smp) : smp := set_array (cpu_data s) (max_cpus s) l s.
Definition set_segments (t : gmap Z tss) (s : smp) : smp :=
  Smp (ctl s) (cpu_data s) (max_cpus s) (records s) t (gdts s) (gdtr s) (task_reg s) (gs_base s) (smp_core_count s).
Definition set_gdts (g : gmap Z (list Z)) (s : smp) : smp :=
  Smp (ctl s) (cpu_data s) (max_cpus s) (records s) (segments s) g (gdtr s) (task_reg s) (gs_base s) (smp_core_count s).
Definition set_loaded (g : Z * Z) (t : Z) (b : Z * Z) (s : smp) : smp :=
  Smp (ctl s) (cpu_data s) (max_cpus s) (records s) (segments s) (gdts s) g t b (smp_core_count s).
Definition set_core_count (n : Z) (s : smp) : smp :=
  Smp (ctl s) (cpu_data s) (max_cpus s) (records s) (segments s) (gdts s) (gdtr s) (task_reg s) (gs_base s) n.

Definition on_ctl {A} (m : M lapic A) : M smp A := zoom ctl set_ctl m.
Definition on_host {A} (m : M vmm A) : M smp A := on_ctl (zoom host set_host m).
Definition on_pages {A} (m : M pmm A) : M smp A := on_host (on_mem m).

(** ** The records (cpu_data.cpp) *)

(** [cpu_args] is the number after "cpu=" of the command line; [old] is what
    the pages for the records hold. *)
Definition cpu_data_init (cpu_args : option Z) (old : list cpu_data_t) : M smp () :=
  let max := match cpu_args with None => DEFAULT_MAX_CPUS | Some n => s32 n end in
  p ← on_pages (pmm_alloc (u64 (u64 (max * sizeof_cpu_data) + 0xFFF) / 0x1000));
  modify (set_array (u64 (VIRT_PHYS_BASE + p)) max old).

(** The address of a record, or 0. *)
Definition cpu_data_get (cpu : Z) : M smp Z :=
  s ← get_st;
  mret (if max_cpus s <=? cpu then 0 else u64 (cpu_data s + sizeof_cpu_data * cpu)).

(** The record at an address. *)
Definition record_at (s : smp) (d : Z) : option nat :=
  let k := d - cpu_data s in
  if decide (d ≠ 0 ∧ 0 ≤ k < sizeof_cpu_data * Z.of_nat (length (records s)) ∧ k mod sizeof_cpu_data = 0)
  then Some (Z.to_nat (k / sizeof_cpu_data)) else None.
Definition read_record (d : Z) : M smp cpu_data_t :=
  s ← get_st;
  i ← lift (access (record_at s d));
  lift (access (records s !! i)).
Definition update_record (d : Z) (f : cpu_data_t → cpu_data_t) : M smp () :=
  s ← get_st;
  i ← lift (access (record_at s d));
  modify (set_records (alter f i (records s))).

(** ** Tables for a processor *)
Definition alloc_stack : M smp Z :=
  ptr ← on_pages (pmm_alloc (STACK_SIZE / PAGE_SIZE));
  mret (u64 (u64 (ptr + VIRT_PHYS_BASE) + STACK_SIZE)).

Definition new_tss : M smp Z :=
  p ← on_pages (pmm_alloc ((sizeof_tss + PAGE_SIZE - 1) / PAGE_SIZE));
  let t := u64 (p + VIRT_PHYS_BASE) in
  modify (λ s, set_segments (<[t := tss_create_new]> (segments s)) s);;
  mret t.

Definition update_tss_stack (a stack : Z) (ring : nat) : M smp () :=
  s ← get_st;
  t ← lift (access (segments s !! a));
  t' ← lift (tss_update_stack t stack ring);
  modify (set_segments (<[a := t']> (segments s))).

(** The page for the table is cleared by [pmm_alloc]. *)
Definition new_gdt (t : Z) : M smp Z :=
  p ← on_pages (pmm_alloc ((8 * SEGMENT_COUNT + PAGE_SIZE - 1) / PAGE_SIZE));
  let g := u64 (p + VIRT_PHYS_BASE) in
  modify (λ s, set_gdts (<[g := gdt_create_new t (replicate 12 0)]> (gdts s)) s);;
  mret g.

Definition prepare_data (cpu lapic_id : Z) : M smp Z :=
  d ← cpu_data_get cpu;
  update_record d (λ r, CpuData cpu (cpu_lapic_id r) (stack_ptr r) (cpu_gdt r) (cpu_tss r) (spurious_pic r) (cpu_saved_vmm_ctx r));;
  update_record d (λ r, CpuData (cpu_id r) (u8 lapic_id) (stack_ptr r) (cpu_gdt r) (cpu_tss r) (spurious_pic r) (cpu_saved_vmm_ctx r));;
  stk ← alloc_stack;
  update_record d (λ r, CpuData (cpu_id r) (cpu_lapic_id r) stk (cpu_gdt r) (cpu_tss r) (spurious_pic r) (cpu_saved_vmm_ctx r));;
  t ← new_tss;
  update_record d (λ r, CpuData (cpu_id r) (cpu_lapic_id r) (stack_ptr r) (cpu_gdt r) t (spurious_pic r) (cpu_saved_vmm_ctx r));;
  update_tss_stack t stk 0;;
  g ← new_gdt t;
  update_record d (λ r, CpuData (cpu_id r) (cpu_lapic_id r) (stack_ptr r) g (cpu_tss r) (spurious_pic r) (cpu_saved_vmm_ctx r));;
  mret stk.

(** [gdt_load], [gdt_load_tss] and [gdt_load_gs_base] for the record [d]. *)
Definition load_tables (d : Z) : M smp () :=
  r ← read_record d;
  modify (set_loaded (gdt_load (cpu_gdt r)) GDT_TSS_SEL (gdt_load_base d)).

Definition setup_bsp : M smp () :=
  prepare_data 0 0;;
  d ← cpu_data_get 0;
  load_tables d.

(** ** On the processor that starts *)
Definition smp_c_entry {V : Type → Type} `{!FrgVector V} (core_id lapic_base : Z) (m : madt V) : M smp () :=
  d ← cpu_data_get (s32 core_id);
  load_tables d;;
  on_ctl (lapic_init lapic_base m);;
  on_ctl (lapic_timer_init_ap pit_irq lapic_timer_int);;
  on_ctl (modify (set_started true)).

(** ** Starting it *)
Definition trampoline_len : Z := trampoline_end - trampoline_start.
Definition copy_trampoline : M smp () :=
  on_host (for_each (λ i,
    b ← gets (λ a, load8 (phys (mem a)) (KERNEL_SMP + i));
    vstore8 (trampoline_start + i) b) (seqZ 0 trampoline_len)).

(** [data[i] = v] *)
Definition put_data (i v : Z) : M smp () := on_pages (modify (λ s, set_phys (<[SMP_DATA + 8 * i := v]> (phys s)) s)).

Fixpoint start_rounds (n : nat) : M smp () :=
  match n with
  | O => mret tt
  | S n' =>
      started ← on_ctl (gets has_started);
      if started : bool then mret tt
      else on_ctl (lapic_sleep_ms_bsp pit_irq lapic_timer_int 100);; start_rounds n'
  end.

(** [smp_init_single] up to the words for the processor. *)
Definition install (apic_id core_id : Z) : M smp () :=
  on_host (arch_mm_map_kernel trampoline_start trampoline_start ((trampoline_len + PAGE_SIZE - 1) / PAGE_SIZE)
             (Z.lor perm_read perm_write) 0);;
  copy_trampoline;;
  pml4 ← on_host arch_mm_get_ctx_kernel;
  lift (assertion (negb (has pml4 0xFFFFFFFF00000000)));;
  stack ← prepare_data (s32 core_id) (u8 apic_id);
  put_data 0 pml4;;
  put_data 1 stack;;
  put_data 2 smp_c_entry_addr;;
  put_data 3 core_id;;
  put_data 4 apic_id.

(** The rest: the processor is told to start, and given time to answer. *)
Definition signal (apic_id : Z) : M smp bool :=
  on_ctl (modify (set_started false));;
  on_ctl (lapic_write ICR_HIGH (u32 (Z.shiftl apic_id 24)));;
  on_ctl (lapic_write ICR_LOW 0x500);;
  on_ctl (lapic_sleep_ms_bsp pit_irq lapic_timer_int 10);;
  on_ctl (lapic_write ICR_HIGH (u32 (Z.shiftl apic_id 24)));;
  on_ctl (lapic_write ICR_LOW (Z.lor 0x600 (u32 (smp_entry / PAGE_SIZE))));;
  start_rounds 1000;;
  on_ctl (gets has_started).

Definition smp_init_single (apic_id core_id : Z) : M smp bool := install apic_id core_id;; signal apic_id.

Fixpoint smp_loop (l : list madt_lapic) : M smp () :=
  match l with
  | [] => mret tt
  | p :: l' =>
      (if negb (has (l_flags p) 1) then mret tt
       else if l_apic_id p =? 0 then mret tt
       else
         n ← gets smp_core_count;
         ok ← smp_init_single (l_apic_id p) (u32 (s32 (n + 1)));
         if ok : bool then modify (λ s, set_core_count (s32 (smp_core_count s + 1)) s) else mret tt);;
      smp_loop l'
  end.
Definition smp_init {V : Type → Type} `{!FrgVector V} (m : madt V) : M smp () :=
  setup_bsp;;
  smp_loop (vec_elems (madt_lapics m)).

Definition smp_get_working_count : M smp Z := gets smp_core_count.

(** ** Which processor this is (cpu.cpp) *)
Definition cpu_get_id : M smp Z :=
  b ← gets gs_base;
  if gdt_get_base b =? 0 then mret 0 else r ← read_record (gdt_get_base b); mret (cpu_id r).
Definition arch_cpu_get_this_id : M smp Z := cpu_get_id.
Definition arch_cpu_get_count : M smp Z := n ← smp_get_working_count; mret (s32 (n + 1)).
End smp.
