(* ===== verification/SmpProps.v ===== *)
(** * What starting the other processors achieves

    Every processor that answers has a record of its own, with a stack, a
    segment table and a task state segment on pages that no other processor
    has; and the code and the words that it starts with are in place when it
    is told to start. *)
From S2P Require Import Prelude Frigg Pmm Paging Vmm Window Cpu Apic Lapic SmpPages Smp.
From stdpp Require Import base numbers option gmap list.
#[local] Open Scope Z_scope.

Section prepare.
Context {D : Type} `{!LapicDev D}.
Context {T : Type} `{!IsrTable T}.
Notation smp := (smp D T).
Implicit Types (s : smp).

(** ** The memory within the state *)
Definition pg s : pmm := mem (host (ctl s)).
Definition with_host (a : vmm) s : smp := set_ctl (set_host a (ctl s)) s.
Definition with_pg (p : pmm) s : smp := with_host (set_mem p (host (ctl s))) s.

Lemma on_ctl_run {A} (m : M (lapic D T) A) s a c : m (ctl s) = Ok (a, c) → on_ctl m s = Ok (a, set_ctl c s).
Proof. intros H. unfold on_ctl, zoom. by rewrite H. Qed.

Lemma on_ctl_gets {A} (f : lapic D T → A) s : on_ctl (gets f) s = Ok (f (ctl s), s).
Proof. by destruct s. Qed.

Lemma on_host_run {A} (m : M vmm A) s x a : m (host (ctl s)) = Ok (x, a) → on_host m s = Ok (x, with_host a s).
Proof. intros H. apply on_ctl_run. unfold zoom. by rewrite H. Qed.

Lemma on_pages_run {A} (m : M pmm A) s x p : m (pg s) = Ok (x, p) → on_pages m s = Ok (x, with_pg p s).
Proof. intros H. apply on_host_run. unfold on_mem, zoom. fold (pg s). by rewrite H. Qed.

(** ** Records *)

(** The array of records is where [cpu_data] points, and has an address that
    does not wrap around. *)
Record array_ok s : Prop := {
  ar_base : 0 < cpu_data s;
  ar_end : cpu_data s + sizeof_cpu_data * max_cpus s ≤ 2 ^ 64;
  ar_len : Z.of_nat (length (records s)) = max_cpus s;
}.

Lemma cpu_data_get_run s cpu : cpu_data_get cpu s = Ok (if max_cpus s <=? cpu then 0 else u64 (cpu_data s + sizeof_cpu_data * cpu), s).
Proof. done. Qed.

Definition record_addr s (cpu : Z) : Z := cpu_data s + sizeof_cpu_data * cpu.

Lemma cpu_data_get_ok s cpu : array_ok s → 0 ≤ cpu < max_cpus s → cpu_data_get cpu s = Ok (record_addr s cpu, s).
Proof.
  intros [Hb He _] Hc. rewrite cpu_data_get_run. destruct (Z.leb_spec (max_cpus s) cpu); [lia|].
  rewrite u64_small; [done|]. unfold sizeof_cpu_data in *. lia.
Qed.

Lemma record_at_ok s cpu : array_ok s → 0 ≤ cpu < max_cpus s → record_at s (record_addr s cpu) = Some (Z.to_nat cpu).
Proof.
  intros [Hb He Hl] Hc. unfold record_at, record_addr, sizeof_cpu_data in *.
  replace (cpu_data s + 48 * cpu - cpu_data s) with (cpu * 48) by lia.
  rewrite decide_True by (rewrite Z.mod_mul by done; lia). by rewrite Z.div_mul.
Qed.

Lemma update_record_ok s cpu f :
  array_ok s → 0 ≤ cpu < max_cpus s →
  update_record (record_addr s cpu) f s = Ok (tt, set_records (alter f (Z.to_nat cpu) (records s)) s).
Proof. intros Ha Hc. unfold update_record. run (eq_refl : get_st s = Ok (s, s)). by rewrite record_at_ok. Qed.

Lemma read_record_ok s cpu r :
  array_ok s → 0 ≤ cpu < max_cpus s → records s !! Z.to_nat cpu = Some r → read_record (record_addr s cpu) s = Ok (r, s).
Proof. intros Ha Hc Hr. unfold read_record. run (eq_refl : get_st s = Ok (s, s)). rewrite record_at_ok by done. cbv [mbind M_bind lift access]. by rewrite Hr. Qed.

(** ** The tables of a processor *)
Definition direct_map (k : Z) : Z := VIRT_PHYS_BASE + k * 4096.

Lemma direct_map_u64 k : 0 ≤ k ≤ 2 ^ 34 → u64 (k * 4096 + VIRT_PHYS_BASE) = direct_map k.
Proof. intros Hk. unfold direct_map, VIRT_PHYS_BASE. rewrite u64_small; lia. Qed.

(** The first pages of a processor's stack, segment and table. *)
Record place := Place { p_stack : Z; p_tss : Z; p_gdt : Z }.
Definition page_of (q : place) (j : Z) : Prop :=
  p_stack q ≤ j < p_stack q + 16 ∨ p_tss q ≤ j < p_tss q + 3 ∨ j = p_gdt q.

(** The processor [cpu] has what it needs: its numbers, a stack that is also
    the one for interrupts, and a table that names its task state segment. *)
Record prepared s (cpu id : Z) (q : place) (r : cpu_data_t) : Prop := {
  pr_record : records s !! Z.to_nat cpu = Some r;
  pr_id : cpu_id r = cpu ∧ cpu_lapic_id r = id;
  pr_stack : stack_ptr r = direct_map (p_stack q + 16);
  pr_tss : cpu_tss r = direct_map (p_tss q) ∧ ∃ t, segments s !! cpu_tss r = Some t ∧ t_rsp t !! 0%nat = Some (stack_ptr r);
  pr_gdt : cpu_gdt r = direct_map (p_gdt q) ∧ gdts s !! cpu_gdt r = Some (gdt_create_new (cpu_tss r) (replicate 12 0));
  pr_pages j : page_of q j → 0 ≤ j < 2 ^ 34 ∧ used (pmm_bitmap (pg s)) j = true;
}.

(** The state after [prepare_data]. *)
Definition prepared_state s (cpu id : Z) (r : cpu_data_t) (ks kt kg : Z) (p : pmm) : smp :=
  with_pg p
    (set_gdts (<[direct_map kg := gdt_create_new (direct_map kt) (replicate 12 0)]> (gdts s))
      (set_segments (<[direct_map kt := Tss (<[0%nat := direct_map (ks + 16)]> (replicate 4 0)) (replicate 7 0) 0 (replicate 8193 0)]> (segments s))
        (set_records (<[Z.to_nat cpu := CpuData cpu id (direct_map (ks + 16)) (direct_map kg) (direct_map kt) (spurious_pic r) (cpu_saved_vmm_ctx r)]> (records s)) s))).

Lemma alloc_stack_run s k p : pmm_alloc 16 (pg s) = Ok (k * 4096, p) → 0 ≤ k < 2 ^ 34 → alloc_stack s = Ok (direct_map (k + 16), with_pg p s).
Proof.
  intros Hp Hk. unfold alloc_stack. change (STACK_SIZE / PAGE_SIZE) with 16. run (on_pages_run (pmm_alloc 16) s _ _ Hp).
  rewrite direct_map_u64 by lia. unfold direct_map, STACK_SIZE, VIRT_PHYS_BASE. rewrite u64_small by lia. cbv [mret M_ret]. f_equal. f_equal. lia.
Qed.

Lemma new_tss_run s k p : pmm_alloc 3 (pg s) = Ok (k * 4096, p) → 0 ≤ k < 2 ^ 34 →
  new_tss s = Ok (direct_map k, set_segments (<[direct_map k := tss_create_new]> (segments s)) (with_pg p s)).
Proof.
  intros Hp Hk. unfold new_tss. change ((sizeof_tss + PAGE_SIZE - 1) / PAGE_SIZE) with 3. run (on_pages_run (pmm_alloc 3) s _ _ Hp).
  by rewrite direct_map_u64 by lia.
Qed.

Lemma new_gdt_run s t k p : pmm_alloc 1 (pg s) = Ok (k * 4096, p) → 0 ≤ k < 2 ^ 34 →
  new_gdt t s = Ok (direct_map k, set_gdts (<[direct_map k := gdt_create_new t (replicate 12 0)]> (gdts s)) (with_pg p s)).
Proof.
  intros Hp Hk. unfold new_gdt. change ((8 * SEGMENT_COUNT + PAGE_SIZE - 1) / PAGE_SIZE) with 1. run (on_pages_run (pmm_alloc 1) s _ _ Hp).
  by rewrite direct_map_u64 by lia.
Qed.

Lemma update_tss_stack_run s a stack t : segments s !! a = Some t → (0 < length (t_rsp t))%nat →
  update_tss_stack a stack 0 s = Ok (tt, set_segments (<[a := Tss (<[0%nat := stack]> (t_rsp t)) (t_ist t) (t_io_bitmap_offset t) (t_io_bitmap t)]> (segments s)) s).
Proof.
  intros Ht Hl. unfold update_tss_stack. run (eq_refl : get_st s = Ok (s, s)). rewrite Ht. cbv [mbind M_bind lift access].
  unfold tss_update_stack. by rewrite decide_True.
Qed.

Lemma update_record_run s d cpu r f :
  d = record_addr s cpu → array_ok s → 0 ≤ cpu < max_cpus s → records s !! Z.to_nat cpu = Some r →
  update_record d f s = Ok (tt, set_records (<[Z.to_nat cpu := f r]> (records s)) s).
Proof.
  intros -> Ha Hc Hr. rewrite update_record_ok by done. do 3 f_equal.
  rewrite list_insert_alter. apply list_alter_ext; [|done]. intros x Hx. congruence.
Qed.

Lemma array_same s s' :
  cpu_data s' = cpu_data s → max_cpus s' = max_cpus s → length (records s') = length (records s) → array_ok s → array_ok s'.
Proof. intros E1 E2 E3 [H1 H2 H3]. split; rewrite ?E1, ?E2, ?E3; done. Qed.

#[local] Ltac step_record s r :=
  match goal with
  | |- context [mbind _ (update_record ?d ?f) ?s1] =>
      match s with
      | (?s0, ?cpu, ?Ha, ?Hc) =>
          let H := fresh in
          pose proof (update_record_run s1 d cpu r f eq_refl
            ltac:(eapply (array_same s0); [reflexivity|reflexivity|cbn; by rewrite ?length_insert|exact Ha]) Hc
            ltac:(cbn; first [done|by rewrite list_lookup_insert_eq by (rewrite ?length_insert; lia)])) as H;
          run H; clear H
      end
  end.

Lemma prepare_data_run s cpu id r i n :
  array_ok s → pages_ok (pg s) → free_run (pg s) i n → 20 ≤ n → 0 ≤ cpu < max_cpus s → 0 ≤ id < 256 →
  records s !! Z.to_nat cpu = Some r →
  ∃ ks kt kg p1 p2 p, prepare_data cpu id s = Ok (direct_map (ks + 16), prepared_state s cpu id r ks kt kg p) ∧
    (taken (pg s) ks 16 p1 ∧ takes 16 (pg s) p1) ∧ (taken p1 kt 3 p2 ∧ takes 3 p1 p2) ∧ (taken p2 kg 1 p ∧ takes 1 p2 p).
Proof.
  intros Ha Hok Hr Hn Hc Hid Hrec. pose proof (lookup_lt_Some _ _ _ Hrec) as Hlt.
  destruct (pmm_alloc_run (pg s) 16 i n) as (ks & p1 & A1 & T1 & K1); [done|unfold MAX_RUN; lia|done|lia|].
  pose proof (ts_run _ _ _ K1 i n ltac:(lia) Hr) as Hr1.
  destruct (pmm_alloc_run p1 3 (i + 16) (n - 16)) as (kt & p2 & A2 & T2 & K2); [apply K1|unfold MAX_RUN; lia|done|lia|].
  pose proof (ts_run _ _ _ K2 (i + 16) (n - 16) ltac:(lia) Hr1) as Hr2.
  destruct (pmm_alloc_run p2 1 (i + 16 + 3) (n - 16 - 3)) as (kg & p & A3 & T3 & K3); [apply K2|unfold MAX_RUN; lia|done|lia|].
  pose proof (po_len _ Hok) as L0. pose proof (ts_len _ _ _ K1) as L1. pose proof (ts_len _ _ _ K2) as L2.
  pose proof (tk_range _ _ _ _ T1) as R1. pose proof (tk_range _ _ _ _ T2) as R2. pose proof (tk_range _ _ _ _ T3) as R3.
  change first_page with 8192 in *.
  exists ks, kt, kg, p1, p2, p. split; [|done]. unfold prepare_data. run (cpu_data_get_ok s cpu Ha Hc).
  step_record (s, cpu, Ha, Hc) r.
  step_record (s, cpu, Ha, Hc) (CpuData cpu (cpu_lapic_id r) (stack_ptr r) (cpu_gdt r) (cpu_tss r) (spurious_pic r) (cpu_saved_vmm_ctx r)).
  set (s2 := set_records _ (set_records _ s)). run (alloc_stack_run s2 ks p1 A1 ltac:(lia)).
  step_record (s, cpu, Ha, Hc) (CpuData cpu (u8 id) (stack_ptr r) (cpu_gdt r) (cpu_tss r) (spurious_pic r) (cpu_saved_vmm_ctx r)).
  set (s3 := set_records _ (with_pg p1 s2)). run (new_tss_run s3 kt p2 A2 ltac:(lia)).
  step_record (s, cpu, Ha, Hc) (CpuData cpu (u8 id) (direct_map (ks + 16)) (cpu_gdt r) (cpu_tss r) (spurious_pic r) (cpu_saved_vmm_ctx r)).
  set (s4 := set_records _ (set_segments _ (with_pg p2 s3))).
  run (update_tss_stack_run s4 (direct_map kt) (direct_map (ks + 16)) tss_create_new ltac:(apply lookup_insert_eq) ltac:(cbn; lia)).
  set (s5 := set_segments _ s4). run (new_gdt_run s5 (direct_map kt) kg p A3 ltac:(lia)).
  step_record (s, cpu, Ha, Hc) (CpuData cpu (u8 id) (direct_map (ks + 16)) (cpu_gdt r) (direct_map kt) (spurious_pic r) (cpu_saved_vmm_ctx r)).
  apply (f_equal Ok), (f_equal (pair _)). unfold prepared_state, s5, s4, s3, s2.
  cbn [records segments gdts with_pg with_host set_ctl set_array set_records set_segments set_gdts]. rewrite !list_insert_insert_eq, insert_insert_eq.
  unfold u8. rewrite Z.mod_small by lia. reflexivity.
Qed.

(** ** All processors *)

(** The processors of [l], by their numbers: the number of the controller and
    the place. *)
Record cores s (l : list (Z * place)) : Prop := {
  co_array : array_ok s;
  co_pages : pages_ok (pg s);
  co_keys a : is_Some (segments s !! a) ∨ is_Some (gdts s !! a) → ∃ k, 0 ≤ k < 2 ^ 34 ∧ a = direct_map k ∧ used (pmm_bitmap (pg s)) k = true;
  co_prepared (c : nat) x : l !! c = Some x → ∃ r, prepared s (Z.of_nat c) x.1 x.2 r;
  co_apart (c c' : nat) x x' j : l !! c = Some x → l !! c' = Some x' → c ≠ c' → page_of x.2 j → ¬ page_of x'.2 j;
}.

Lemma direct_map_inj k k' : direct_map k = direct_map k' → k = k'.
Proof. unfold direct_map. lia. Qed.

Lemma cores_prefix s l l' : cores s (l ++ l') → cores s l.
Proof.
  intros [H1 H2 H3 H4 H5]. split; try done.
  - intros c x Hx. apply H4. by apply lookup_app_l_Some.
  - intros c c' x x' j Hx Hx'. apply H5; by apply lookup_app_l_Some.
Qed.

(** Operations that leave the records and the tables alone. *)
Lemma cores_keep s s' l :
  cores s l → pages_ok (pg s') → (∀ j, 0 ≤ j → used (pmm_bitmap (pg s)) j = true → used (pmm_bitmap (pg s')) j = true) →
  cpu_data s' = cpu_data s → max_cpus s' = max_cpus s → records s' = records s → segments s' = segments s → gdts s' = gdts s → cores s' l.
Proof.
  intros [H1 H2 H3 H4 H5] Hp Hu E1 E2 E3 E4 E5. split; try done.
  - apply (array_same s); [done|done|by rewrite E3|done].
  - intros a Ha. rewrite E4, E5 in Ha. destruct (H3 a Ha) as (k & Hk & Ek & Huk). exists k. split; [done|]. split; [done|]. apply Hu; [lia|done].
  - intros c x Hx. destruct (H4 c x Hx) as [r [Q1 Q2 Q3 Q4 Q5 Q6]]. exists r. split; rewrite ?E3, ?E4, ?E5; try done.
    intros j Hj. destruct (Q6 j Hj). split; [done|]. apply Hu; [lia|done].
Qed.

Lemma prepared_keep s c id q r cpu id' r' ks kt kg p :
  prepared s c id q r → 0 ≤ c → 0 ≤ cpu → c ≠ cpu → (∀ j, 0 ≤ j → used (pmm_bitmap (pg s)) j = true → used (pmm_bitmap p) j = true) →
  segments s !! direct_map kt = None → gdts s !! direct_map kg = None →
  prepared (prepared_state s cpu id' r' ks kt kg p) c id q r.
Proof.
  intros [Q1 Q2 Q3 [Q4 (t & Q5 & Q6)] [Q7 Q8] Q9] Hc Hcpu Hne Hu Ht Hg. split; try done.
  - cbn [records prepared_state with_pg with_host set_ctl set_array set_records set_segments set_gdts].
    by rewrite list_lookup_insert_ne by lia.
  - split; [done|]. exists t. split; [|done]. cbn [segments prepared_state with_pg with_host set_ctl set_array set_records set_segments set_gdts].
    rewrite lookup_insert_ne; [done|congruence].
  - split; [done|]. cbn [gdts prepared_state with_pg with_host set_ctl set_array set_records set_segments set_gdts].
    rewrite lookup_insert_ne; [done|congruence].
  - intros j Hj. destruct (Q9 j Hj). split; [done|]. apply Hu; [lia|done].
Qed.

(** Taking pages, as a whole. *)
Lemma taken_used (s s' : pmm) k c j : taken s k c s' → k ≤ j < k + c → used (pmm_bitmap s) j = false ∧ used (pmm_bitmap s') j = true.
Proof.
  intros [[H1 H2] Hf (Hu & _)] Hj. change first_page with 8192 in H1. split; [by apply Hf|]. rewrite Hu by lia.
  by rewrite (proj2 (in_run_true k c j)).
Qed.

Lemma used_back (s s' : pmm) c j : takes c s s' → 0 ≤ j → used (pmm_bitmap s') j = false → used (pmm_bitmap s) j = false.
Proof. intros Ht Hj Hf. destruct (used (pmm_bitmap s) j) eqn:E; [|done]. rewrite (ts_used _ _ _ Ht j Hj E) in Hf. done. Qed.

Lemma taken3_pages (s p1 p2 p : pmm) ks kt kg :
  pages_ok s → taken s ks 16 p1 → takes 16 s p1 → taken p1 kt 3 p2 → takes 3 p1 p2 → taken p2 kg 1 p → takes 1 p2 p →
  ∀ j, page_of (Place ks kt kg) j → 0 ≤ j < 2 ^ 34 ∧ used (pmm_bitmap s) j = false ∧ used (pmm_bitmap p) j = true.
Proof.
  intros H2 T1 K1 T2 K2 T3 K3. pose proof (takes_trans 16 3 _ _ _ ltac:(lia) K1 K2) as K12.
  pose proof (tk_range _ _ _ _ T1) as R1. pose proof (tk_range _ _ _ _ T2) as R2. pose proof (tk_range _ _ _ _ T3) as R3.
  pose proof (ts_len _ _ _ K1) as L1. pose proof (ts_len _ _ _ K2) as L2. pose proof (po_len _ H2) as L0. change first_page with 8192 in *.
  intros j [Hj|[Hj|Hj]]; cbn in Hj.
  - destruct (taken_used _ _ _ _ j T1 Hj) as [U1 U2]. split; [lia|]. split; [done|]. apply (ts_used _ _ _ K3); [lia|]. apply (ts_used _ _ _ K2); [lia|done].
  - destruct (taken_used _ _ _ _ j T2 Hj) as [U1 U2]. split; [lia|]. split; [apply (used_back _ _ _ _ K1); [lia|done]|]. apply (ts_used _ _ _ K3); [lia|done].
  - destruct (taken_used _ _ _ _ j T3 ltac:(lia)) as [U1 U2]. split; [lia|]. split; [apply (used_back _ _ _ _ K12); [lia|done]|done].
Qed.

(** No table is at the address of a page that is free. *)
Lemma fresh_key s l k : cores s l → used (pmm_bitmap (pg s)) k = false → segments s !! direct_map k = None ∧ gdts s !! direct_map k = None.
Proof.
  intros [_ _ H3 _ _] Hf. split; apply eq_None_not_Some; intros Hs.
  - destruct (H3 (direct_map k)) as (k' & _ & Ek & Hu); [by left|]. apply direct_map_inj in Ek as <-. congruence.
  - destruct (H3 (direct_map k)) as (k' & _ & Ek & Hu); [by right|]. apply direct_map_inj in Ek as <-. congruence.
Qed.

Lemma prepared_new s cpu id r q p :
  Z.of_nat (length (records s)) = max_cpus s → 0 ≤ cpu < max_cpus s → (∀ j, page_of q j → 0 ≤ j < 2 ^ 34 ∧ used (pmm_bitmap p) j = true) →
  ∃ r', prepared (prepared_state s cpu id r (p_stack q) (p_tss q) (p_gdt q) p) cpu id q r'.
Proof.
  intros Hl Hc Hp. eexists. split.
  - cbn [records prepared_state with_pg with_host set_ctl set_array set_records set_segments set_gdts]. by rewrite list_lookup_insert_eq by lia.
  - done.
  - done.
  - split; [done|]. eexists. cbn [segments prepared_state with_pg with_host set_ctl set_array set_records set_segments set_gdts cpu_tss].
    rewrite lookup_insert_eq. split; [done|]. done.
  - split; [done|]. cbn [gdts prepared_state with_pg with_host set_ctl set_array set_records set_segments set_gdts cpu_gdt]. by rewrite lookup_insert_eq.
  - exact Hp.
Qed.

Lemma cores_prepare s l cpu id i n :
  cores s l → free_run (pg s) i n → 20 ≤ n → cpu = Z.of_nat (length l) → cpu < max_cpus s → 0 ≤ id < 256 →
  ∃ q r p, prepare_data cpu id s = Ok (direct_map (p_stack q + 16), prepared_state s cpu id r (p_stack q) (p_tss q) (p_gdt q) p) ∧
    cores (prepared_state s cpu id r (p_stack q) (p_tss q) (p_gdt q) p) (l ++ [(id, q)]) ∧ takes 20 (pg s) p ∧
    (∃ p1 p2, taken (pg s) (p_stack q) 16 p1 ∧ taken p1 (p_tss q) 3 p2 ∧ taken p2 (p_gdt q) 1 p ∧ takes 16 (pg s) p1 ∧ takes 3 p1 p2 ∧ takes 1 p2 p).
Proof.
  intros Hcores Hr Hn Hcpu Hmax Hid. pose proof Hcores as [H1 H2 H3 H4 H5].
  destruct (lookup_lt_is_Some_2 (records s) (Z.to_nat cpu)) as [r Hrec]; [pose proof (ar_len _ H1); lia|].
  destruct (prepare_data_run s cpu id r i n H1 H2 Hr Hn ltac:(lia) Hid Hrec) as (ks & kt & kg & p1 & p2 & p & Hrun & (T1 & K1) & (T2 & K2) & (T3 & K3)).
  pose proof (takes_trans 16 3 _ _ _ ltac:(lia) K1 K2) as K12. pose proof (takes_trans 19 1 _ _ _ ltac:(lia) K12 K3) as K.
  exists (Place ks kt kg), r, p. split; [exact Hrun|]. split; [|split; [exact K|by exists p1, p2]].
  pose proof (taken3_pages _ _ _ _ _ _ _ H2 T1 K1 T2 K2 T3 K3) as Hnew.
  assert (∀ k a, page_of (Place ks kt kg) k → a = direct_map k → segments s !! a = None ∧ gdts s !! a = None) as Hfresh.
  { intros k a Hk ->. apply (fresh_key s l); [done|]. by apply Hnew. }
  assert (page_of (Place ks kt kg) kt ∧ page_of (Place ks kt kg) kg) as [Pt Pg] by (unfold page_of; cbn; lia).
  set (s' := prepared_state _ _ _ _ _ _ _ _). split.
  - eapply (array_same s); [done|done|cbn; by rewrite length_insert|done].
  - apply K.
  - intros a Ha. assert (a = direct_map kt ∨ a = direct_map kg ∨ is_Some (segments s !! a) ∨ is_Some (gdts s !! a)) as [->|[->|Ho]].
    { destruct Ha as [Ha|Ha]; [destruct (decide (a = direct_map kt)); [by left|]|destruct (decide (a = direct_map kg)); [by right; left|]]; right; right.
      - left. unfold s' in Ha. cbn [segments prepared_state with_pg with_host set_ctl set_array set_records set_segments set_gdts] in Ha.
        by rewrite lookup_insert_ne in Ha.
      - right. unfold s' in Ha. cbn [gdts prepared_state with_pg with_host set_ctl set_array set_records set_segments set_gdts] in Ha.
        by rewrite lookup_insert_ne in Ha. }
    + exists kt. destruct (Hnew kt Pt) as (? & _ & ?). done.
    + exists kg. destruct (Hnew kg Pg) as (? & _ & ?). done.
    + destruct (H3 a Ho) as (k & Hk & Ek & Hu). exists k. split; [done|]. split; [done|]. apply (ts_used _ _ _ K); [lia|done].
  - intros c x Hx. apply lookup_snoc_Some in Hx as [[Hc Hx]|[-> <-]].
    + destruct (H4 c x Hx) as [r' Hp]. exists r'. apply prepared_keep; [done|lia|lia|lia|intros j; apply K|by apply (Hfresh kt)|by apply (Hfresh kg)].
    + rewrite <- Hcpu. apply (prepared_new s cpu id r (Place ks kt kg) p); [apply (ar_len _ H1)|lia|]. intros j Hj. by destruct (Hnew j Hj) as (? & _ & ?).
  - intros c c' x x' j Hx Hx' Hne Hj Hj'. apply lookup_snoc_Some in Hx as [[Hc Hx]|[-> <-]], Hx' as [[Hc' Hx']|[-> <-]].
    + by apply (H5 c c' x x' j).
    + destruct (H4 c x Hx) as [r' Hp]. destruct (pr_pages _ _ _ _ _ Hp j Hj) as [_ Hu]. destruct (Hnew j Hj') as (_ & Hf & _). congruence.
    + destruct (H4 c' x' Hx') as [r' Hp]. destruct (pr_pages _ _ _ _ _ Hp j Hj') as [_ Hu]. destruct (Hnew j Hj) as (_ & Hf & _). congruence.
    + lia.
Qed.
End prepare.

(** ** The code and the words *)
Section install.
Context {D : Type} `{!LapicDev D}.
Context {T : Type} `{!IsrTable T}.
Context (trampoline_start trampoline_end smp_c_entry_addr : Z).
Notation smp := (smp D T).
Implicit Types (s : smp).
Notation trampoline_len := (trampoline_len trampoline_start trampoline_end).
Notation install := (install trampoline_start trampoline_end smp_c_entry_addr).

(** The code for a processor that starts fits between the words and its own
    copy in the image. *)
Record layout_ok : Prop := {
  lo_start : aligned trampoline_start ∧ 0 < trampoline_start;
  lo_len : 0 ≤ trampoline_len;
  lo_end : trampoline_end ≤ KERNEL_SMP;
  lo_image : KERNEL_SMP + trampoline_len ≤ LOW;
}.
Definition trampoline_pages : Z := (trampoline_len + PAGE_SIZE - 1) / PAGE_SIZE.
(** The pages that one start can take. *)
Definition start_cost : Z := 3 * trampoline_pages + 20.

(** What a processor that starts finds. *)
Record boot_ready s (image : Z → Z) (apic core stack : Z) : Prop := {
  br_code k : 0 ≤ k < trampoline_len → load8 (phys (pg s)) (trampoline_start + k) = image k;
  br_words : (λ i, rd (phys (pg s)) (SMP_DATA + 8 * i)) <$> seqZ 0 5 = [kernel_pml4 (host (ctl s)); stack; smp_c_entry_addr; core; apic];
}.
Definition image_code s (k : Z) : Z := load8 (phys (pg s)) (KERNEL_SMP + k).

Lemma low_half x : 0 ≤ x < 2 ^ 32 → has x 0xFFFFFFFF00000000 = false.
Proof.
  intros Hx. unfold has. assert (Z.land x 0xFFFFFFFF00000000 = 0) as ->; [|done].
  apply Z.bits_inj'. intros n Hn. change 0xFFFFFFFF00000000 with (Z.shiftl (Z.ones 32) 32).
  rewrite Z.land_spec, Z.bits_0, mask_bit by lia. destruct (Z.ltb_spec n 32); cbn; [by rewrite andb_false_r|].
  by rewrite (testbit_high x 32) by lia.
Qed.

Lemma taken_machine own a k c p : machine own a → 0 < c → taken (mem a) k c p → takes c (mem a) p → machine own (set_mem p a) ∧ low_same a (set_mem p a).
Proof.
  intros Hm Hc Ht Hk. destruct (taken_tables own (mem a) k c p) as (Hok & _ & Hlow); [apply Hm|done|done|done|].
  split; [|exact Hlow]. by apply (machine_set own own); [..|apply Hk].
Qed.

Lemma taken3_machine own a k1 k2 k3 p1 p2 p3 :
  machine own a → taken (mem a) k1 16 p1 → takes 16 (mem a) p1 → taken p1 k2 3 p2 → takes 3 p1 p2 → taken p2 k3 1 p3 → takes 1 p2 p3 →
  machine own (set_mem p3 a) ∧ low_same a (set_mem p3 a).
Proof.
  intros Hm T1 K1 T2 K2 T3 K3. destruct (taken_machine own a k1 16 p1) as [M1 L1]; [done..|].
  destruct (taken_machine own (set_mem p1 a) k2 3 p2) as [M2 L2]; [done..|].
  destruct (taken_machine own (set_mem p2 a) k3 1 p3) as [M3 L3]; [done..|].
  split; [exact M3|]. intros x Hx. exact (eq_trans (L3 x Hx) (eq_trans (L2 x Hx) (L1 x Hx))).
Qed.

Definition put_words (m : gmap Z Z) (a b c d e : Z) : gmap Z Z :=
  <[SMP_DATA + 8 * 4 := e]> (<[SMP_DATA + 8 * 3 := d]> (<[SMP_DATA + 8 * 2 := c]> (<[SMP_DATA + 8 * 1 := b]> (<[SMP_DATA + 8 * 0 := a]> m)))).

Lemma put_words_run s a b c d e :
  (put_data 0 a;; put_data 1 b;; put_data 2 c;; put_data 3 d;; put_data 4 e) s =
  Ok (tt, with_pg (set_phys (put_words (phys (pg s)) a b c d e) (pg s)) s).
Proof. reflexivity. Qed.

Lemma put_words_rd m a b c d e x : x < SMP_DATA ∨ SMP_DATA + 40 ≤ x → rd (put_words m a b c d e) x = rd m x.
Proof. intros Hx. unfold put_words. rewrite !rd_insert. unfold SMP_DATA in *. by rewrite !decide_False by lia. Qed.

Lemma put_words_words m a b c d e : (λ i, rd (put_words m a b c d e) (SMP_DATA + 8 * i)) <$> seqZ 0 5 = [a; b; c; d; e].
Proof. unfold put_words. change (seqZ 0 5) with [0; 1; 2; 3; 4]. cbn [fmap list_fmap]. by rewrite !rd_insert. Qed.

(** Writes to the words and to the code. *)
Lemma low_machine own a m :
  machine own a → (∀ x, LOW ≤ x → rd m x = rd (phys (mem a)) x) → machine own (set_mem (set_phys m (mem a)) a).
Proof.
  intros Hm Hx. destruct (low_write own (mem a) m) as [Hok _]; [apply Hm|done|]. apply (machine_set own own); [done|done|done|].
  by destruct (mc_pages _ _ Hm).
Qed.

Lemma install_run own s l apic core i n :
  layout_ok → cores s l → machine own (host (ctl s)) → free_run (pg s) i n → start_cost ≤ n →
  core = Z.of_nat (length l) → core < max_cpus s → max_cpus s < 2 ^ 31 → 0 ≤ apic < 256 →
  ∃ own' q r p, install apic core s = Ok (tt, prepared_state s core apic r (p_stack q) (p_tss q) (p_gdt q) p) ∧
    cores (prepared_state s core apic r (p_stack q) (p_tss q) (p_gdt q) p) (l ++ [(apic, q)]) ∧
    machine own' (set_mem p (host (ctl s))) ∧ takes start_cost (pg s) p ∧
    boot_ready (prepared_state s core apic r (p_stack q) (p_tss q) (p_gdt q) p) (image_code s) apic core (direct_map (p_stack q + 16)).
Proof.
  intros [[Hal Hpos] Hlen Hend Himg] Hc Hm Hr Hn Hcore Hmax H31 Hapic.
  unfold Smp.install. fold trampoline_pages. assert (trampoline_end = trampoline_start + trampoline_len) as Ee by (unfold Smp.trampoline_len; lia).
  assert (0 ≤ trampoline_pages ∧ trampoline_len ≤ 4096 * trampoline_pages) as [Htp Htp'] by (unfold trampoline_pages, PAGE_SIZE; wrap_lia).
  assert (4096 * trampoline_pages < trampoline_len + 4096) as Htp2 by (unfold trampoline_pages, PAGE_SIZE; wrap_lia).
  assert (trampoline_start + 4096 * trampoline_pages ≤ LOW) as Hfit.
  { unfold LOW, KERNEL_SMP, aligned in *. change first_page with 8192 in *. lia. }
  unfold start_cost in Hn. set (a := host (ctl s)) in *.
  destruct (map_identity own a trampoline_start trampoline_pages i n) as (own' & p1 & R1 & M1 & K1 & _ & L1 & I1);
    [done|done|lia|done|lia|done|lia|].
  run (on_host_run _ s _ _ R1). set (s1 := with_host (set_mem p1 a) s).
  destruct (copy_low_run own' trampoline_start KERNEL_SMP trampoline_len ltac:(lia) Hlen ltac:(lia) Himg (set_mem p1 a) M1) as (m & R2 & Hi2 & Lo2).
  { intros x Hx. apply I1. lia. }
  run (on_host_run (copy_low trampoline_start KERNEL_SMP trampoline_len) s1 _ _ R2).
  set (p2 := set_phys m p1). set (s2 := with_pg p2 s).
  change (with_host (set_mem (set_phys m (mem (set_mem p1 a))) (set_mem p1 a)) s1) with s2.
  assert (machine own' (set_mem p2 a)) as M2 by by apply (low_machine own' (set_mem p1 a) m).
  run (eq_refl : on_host arch_mm_get_ctx_kernel s2 = Ok (kernel_pml4 a, s2)).
  rewrite (low_half (kernel_pml4 a)) by apply Hm. run (eq_refl : lift (assertion (negb false)) s2 = Ok (tt, s2)).
  assert (takes (3 * trampoline_pages) (pg s) p2) as K2 by (destruct K1 as [[] ? ? ?]; by split).
  assert (cores s2 l) as C2 by (apply (cores_keep s); [done|apply M2|exact (ts_used _ _ _ K2)|done..]).
  destruct (cores_prepare s2 l core apic (i + 3 * trampoline_pages) (n - 3 * trampoline_pages)) as (q & r & p3 & R3 & C3 & K3 & (k1 & k2 & T1 & T2 & T3 & J1 & J2 & J3));
    [done|apply (ts_run _ _ _ K2); [lia|done]|lia|done|done|done|].
  rewrite (s32_small core) by lia. replace (u8 apic) with apic by (unfold u8; by rewrite Z.mod_small).
  run R3. rewrite put_words_run. set (s3 := prepared_state _ _ _ _ _ _ _ _).
  destruct (taken3_machine own' (set_mem p2 a) _ _ _ _ _ _ M2 T1 J1 T2 J2 T3 J3) as [M3 L3].
  set (w := put_words (phys p3) (kernel_pml4 a) (direct_map (p_stack q + 16)) smp_c_entry_addr core apic).
  assert (machine own' (set_mem (set_phys w p3) a)) as M4.
  { apply (low_machine own' (set_mem p3 a)); [exact M3|]. intros x Hx. apply put_words_rd. unfold LOW, SMP_DATA in *. change first_page with 8192 in *. lia. }
  exists own', q, r, (set_phys w p3). split; [reflexivity|]. split; [|split; [exact M4|split]].
  - apply (cores_keep s3); [exact C3|apply M4|done|done..].
  - apply (takes_weaken (3 * trampoline_pages + 20)); [unfold start_cost; lia|].
    eapply (takes_trans _ _ _ p2); [lia|exact K2|]. destruct K3 as [[] ? ? ?]. by split.
  - split; [|exact (put_words_words _ _ _ _ _ _)]. intros k Hk.
    transitivity (load8 (phys p2) (trampoline_start + k)).
    + transitivity (load8 (phys p3) (trampoline_start + k)).
      * unfold load8. cbn. fold w. unfold w. rewrite put_words_rd; [done|]. unfold SMP_DATA, aligned in *. right. wrap_lia.
      * apply L3. lia.
    + cbn [phys p2 set_phys]. rewrite Lo2, decide_True by lia. unfold image_code. 
      replace (KERNEL_SMP + (trampoline_start + k - trampoline_start)) with (KERNEL_SMP + k) by lia. apply L1. unfold KERNEL_SMP in *. lia.
Qed.
End install.

(** ** Telling it to start *)
Section signal.
Context {D : Type} `{!LapicDev D} `{!LapicDevLaws D}.
Context {T : Type} `{!IsrTable T} `{!IsrTableLaws T}.
Context (pit_irq lapic_timer_int : Z) (Hne : pit_irq ≠ lapic_timer_int).
Context (smp_entry : Z).
Notation lapic := (lapic D T).
Notation smp := (smp D T).
Notation arrives := (arrives pit_irq lapic_timer_int).
Notation arrive := (arrive pit_irq lapic_timer_int).
Implicit Types (s : smp) (c : lapic).

Definition answered (l : list arrival) : bool := existsb (λ a, match a with Started => true | Interrupt _ _ => false end) l.

(** The rounds of a hundred timer interrupts until the processor answers, at
    most [n] of them; the last argument says whether it did. *)
Inductive answers : nat → bool → list (list arrival) → bool → Prop :=
| answers_out b : answers 0 b [] b
| answers_yes n : answers (S n) true [] true
| answers_wait n l ls b : until (on_vec 0x31) 100 l → answers n (answered l) ls b → answers (S n) false (l :: ls) b.

Lemma arrive_started a c : has_started (arrive a c) = has_started c || (match a with Started => true | Interrupt _ _ => false end).
Proof.
  destruct a as [v n|]; [|cbn; by rewrite orb_true_r]. rewrite orb_false_r. unfold Lapic.arrive, run_handler.
  destruct (it_handler _ _) as [h|]; [|done]. destruct (h =? pit_irq); [done|]. by destruct (h =? lapic_timer_int).
Qed.

Lemma arrives_started l c : has_started (arrives l c) = has_started c || answered l.
Proof.
  revert c. induction l as [|a l IH]; intros c; [by rewrite orb_false_r|]. cbn [Lapic.arrives foldl]. fold (arrives l (arrive a c)).
  rewrite IH, arrive_started. cbn [answered existsb]. by rewrite <- orb_assoc.
Qed.

Lemma arrive_set_arrivals a l c : arrive a (set_arrivals l c) = set_arrivals l (arrive a c).
Proof.
  destruct a as [v n|]; [|done]. unfold Lapic.arrive, run_handler. cbn [isrs set_arrivals set_regs].
  destruct (it_handler _ _) as [h|]; [|done]. destruct (h =? pit_irq); [done|]. by destruct (h =? lapic_timer_int).
Qed.

Lemma arrives_set_arrivals l l' c : arrives l (set_arrivals l' c) = set_arrivals l' (arrives l c).
Proof.
  revert c. induction l as [|a l IH]; intros c; [done|]. cbn [Lapic.arrives foldl]. rewrite arrive_set_arrivals. apply IH.
Qed.

Lemma arrives_app l1 l2 c : arrives (l1 ++ l2) c = arrives l2 (arrives l1 c).
Proof. apply foldl_app. Qed.

Lemma arrives_sent l c : lapic_sent (regs (arrives l c)) = lapic_sent (regs c).
Proof.
  revert c. induction l as [|a l IH]; intros c; [done|]. cbn [Lapic.arrives foldl]. fold (arrives l (arrive a c)). rewrite IH.
  rewrite (arrive_regs pit_irq lapic_timer_int). destruct a; [apply timer_sent_law|done].
Qed.

(** What the waits need. *)
Record timer_runs c (ms : Z) : Prop := {
  tr_handles : handles (isrs c) lapic_timer_int 0x31;
  tr_vectors : vectors_ok (arrivals c);
  tr_ticks : 0 ≤ lapic_bsp_ticks c ∧ lapic_bsp_ticks c + ms < 2 ^ 64;
}.

Lemma sleep_run c ms more l1 l2 :
  timer_runs c (ms + more) → 0 ≤ ms → 0 ≤ more → arrivals c = l1 ++ l2 → until (on_vec 0x31) ms l1 →
  lapic_sleep_ms_bsp pit_irq lapic_timer_int ms c = Ok (tt, set_arrivals l2 (arrives l1 c)) ∧
  timer_runs (set_arrivals l2 (arrives l1 c)) more ∧ lapic_bsp_ticks (arrives l1 c) = lapic_bsp_ticks c + ms.
Proof.
  intros [Hh Hv [H0 Hb]] Hms Hmore El Hu.
  destruct (lapic_sleep_ms_spec pit_irq lapic_timer_int Hne c ms Hh Hv H0 Hms ltac:(lia)) as [Hs _].
  destruct (Hs l1 l2 El Hu) as [Hrun Ht]. split; [exact Hrun|]. split; [|exact Ht].
  pose proof (arrives_waited pit_irq lapic_timer_int l1 c) as [Ei _ _ _]. split.
  - cbn [isrs set_arrivals]. by rewrite Ei.
  - cbn [arrivals set_arrivals]. intros a Ha. apply Hv. rewrite El. apply elem_of_app. by right.
  - cbn [lapic_bsp_ticks set_arrivals]. lia.
Qed.

Lemma start_rounds_run n b0 rounds b : answers n b0 rounds b → ∀ s rest more,
  has_started (ctl s) = b0 → arrivals (ctl s) = concat rounds ++ rest → timer_runs (ctl s) (100 * Z.of_nat n + more) → 0 ≤ more →
  let c' := set_arrivals rest (arrives (concat rounds) (ctl s)) in
  start_rounds pit_irq lapic_timer_int n s = Ok (tt, set_ctl c' s) ∧ has_started c' = b ∧
  timer_runs c' more ∧ lapic_bsp_ticks c' ≤ lapic_bsp_ticks (ctl s) + 100 * Z.of_nat n.
Proof.
  induction 1 as [b|n|n l ls b Hu Hans IH]; intros s rest more Hb Ha Ht Hmore c'.
  - assert (set_ctl c' s = s) as -> by (unfold c'; cbn in Ha |- *; rewrite <- Ha; by destruct s as [[]]).
    subst c'. cbn in Ha |- *. rewrite <- Ha. split; [done|]. split; [done|]. split; [|lia]. by destruct (ctl s).
  - assert (set_ctl c' s = s) as -> by (unfold c'; cbn in Ha |- *; rewrite <- Ha; by destruct s as [[]]).
    subst c'. cbn [concat Lapic.arrives foldl app] in *. rewrite <- Ha. split.
    + cbn [start_rounds]. run (on_ctl_gets has_started s). rewrite Hb. by destruct s as [[]].
    + split; [done|]. destruct Ht as [H1 H2 H3]. split; [|cbn; lia]. split; [done|exact H2|cbn; lia].
  - cbn [concat] in *. rewrite <- app_assoc in Ha.
    destruct (sleep_run (ctl s) 100 (100 * Z.of_nat n + more) l (concat ls ++ rest)) as (Hrun & Ht1 & Hticks);
      [by replace (100 + (100 * Z.of_nat n + more)) with (100 * Z.of_nat (S n) + more) by lia|lia|lia|done|done|].
    set (c1 := set_arrivals (concat ls ++ rest) (arrives l (ctl s))) in *.
    destruct (IH (set_ctl c1 s) rest more) as (IH1 & IH2 & IH3 & IH4); [|done|done|done|].
    { cbn. change (has_started c1) with (has_started (arrives l (ctl s))). by rewrite arrives_started, Hb. }
    assert (set_arrivals rest (arrives (concat ls) c1) = c') as Ec.
    { unfold c', c1. rewrite arrives_set_arrivals, arrives_app. done. }
    cbn [ctl set_ctl] in IH1, IH2, IH3, IH4. rewrite Ec in IH1, IH2, IH3, IH4. split; [|split; [exact IH2|split; [exact IH3|]]].
    + cbn [start_rounds]. run (on_ctl_gets has_started s). rewrite Hb. run (on_ctl_run _ s _ _ Hrun). exact IH1.
    + change (lapic_bsp_ticks c1) with (lapic_bsp_ticks (arrives l (ctl s))) in IH4. lia.
Qed.

(** A command, as the controller sends it. *)
Lemma land_low x m k : 0 ≤ k → 0 ≤ x < 2 ^ k → Z.land (Z.ones k) m = Z.ones k → Z.land x m = x.
Proof.
  intros Hk Hx Hm. rewrite <- (Z.mod_small x (2 ^ k)) at 1 by done. rewrite <- Z.land_ones by done.
  rewrite <- Z.land_assoc, Hm, Z.land_ones by done. by apply Z.mod_small.
Qed.

Lemma high_id x : 0 ≤ x < 256 → Z.shiftr (Z.land (u32 (Z.shiftl x 24)) (settable ICR_HIGH)) 24 = x.
Proof.
  intros Hx. change (settable ICR_HIGH) with (Z.shiftl (Z.ones 8) 24). rewrite u32_small by (rewrite Z.shiftl_mul_pow2 by lia; lia).
  rewrite <- Z.shiftl_land, Z.shiftr_shiftl_l by lia. rewrite Z.shiftl_0_r, Z.land_ones by lia. by apply Z.mod_small.
Qed.

(** Writing a command for the processor [apic] sends it. *)
Lemma command_run c apic cmd :
  0 ≤ apic < 256 → 0 ≤ cmd < 2 ^ 12 →
  ∃ d, (lapic_write ICR_HIGH (u32 (Z.shiftl apic 24));; lapic_write ICR_LOW cmd) c = Ok (tt, set_regs d c) ∧
    lapic_sent d = lapic_sent (regs c) ++ [(apic, cmd)].
Proof.
  intros Ha Hcmd.
  destruct (lapic_write_law (regs c) ICR_HIGH (u32 (Z.shiftl apic 24)) ltac:(done) ltac:(apply u32_range)) as (d1 & W1 & S1 & _ & _).
  destruct (lapic_write_law d1 ICR_LOW cmd ltac:(done) ltac:(lia)) as (d2 & W2 & _).
  pose proof (lapic_sent_law _ _ _ _ W1) as E1. pose proof (lapic_sent_law _ _ _ _ W2) as E2.
  exists d2. split.
  - assert (lapic_write ICR_HIGH (u32 (Z.shiftl apic 24)) c = Ok (tt, set_regs d1 c)) as R1.
    { unfold lapic_write, zoom. rewrite (u32_small (u32 _)) by apply u32_range. by rewrite W1. }
    run R1. unfold lapic_write, zoom. cbn [regs set_regs]. rewrite (u32_small cmd) by lia. by rewrite W2.
  - rewrite decide_False in E1 by done. rewrite decide_True in E2 by done. rewrite E2, E1, app_nil_r, S1, high_id by done.
    by rewrite (land_low cmd _ 12) by done.
Qed.

Definition startup_page : Z := smp_entry / PAGE_SIZE.

Lemma signal_run s apic l0 rounds rest b more :
  0 ≤ apic < 256 → 0 ≤ smp_entry < 2 ^ 20 →
  arrivals (ctl s) = l0 ++ concat rounds ++ rest → until (on_vec 0x31) 10 l0 → answers 1000 (answered l0) rounds b →
  timer_runs (ctl s) (10 + (100000 + more)) → 0 ≤ more →
  ∃ c', signal pit_irq lapic_timer_int smp_entry apic s = Ok (b, set_ctl c' s) ∧
    host c' = host (ctl s) ∧ arrivals c' = rest ∧ timer_runs c' more ∧
    lapic_sent (regs c') = lapic_sent (regs (ctl s)) ++ [(apic, 0x500); (apic, Z.lor 0x600 startup_page)].
Proof.
  intros Hapic Hse Ha Hu Hans Ht Hmore. set (c := ctl s) in *. unfold signal.
  run (on_ctl_run (modify (set_started false)) s tt (set_started false c) eq_refl).
  assert (0 ≤ Z.lor 0x600 startup_page < 2 ^ 12) as Hcmd by (apply lor_range; unfold startup_page, PAGE_SIZE; wrap_lia).
  destruct (command_run (set_started false c) apic 0x500) as (d1 & R1 & E1); [done|done|].
  apply bind_M_Ok in R1 as ([] & c1 & R1a & R1b). run (on_ctl_run _ (set_ctl (set_started false c) s) _ _ R1a).
  run (on_ctl_run _ (set_ctl c1 (set_ctl (set_started false c) s)) _ _ R1b).
  set (c2 := set_regs d1 (set_started false c)). change (set_ctl _ (set_ctl c1 _)) with (set_ctl c2 s).
  destruct (sleep_run c2 10 (100000 + more) l0 (concat rounds ++ rest)) as (R2 & T2 & _); [by destruct Ht|lia|lia|done|done|].
  run (on_ctl_run _ (set_ctl c2 s) _ _ R2). set (c3 := set_arrivals _ _).
  destruct (command_run c3 apic (Z.lor 0x600 startup_page)) as (d2 & R3 & E3); [done|done|].
  apply bind_M_Ok in R3 as ([] & c4 & R3a & R3b). run (on_ctl_run _ (set_ctl c3 (set_ctl c2 s)) _ _ R3a).
  rewrite (u32_small (smp_entry / PAGE_SIZE)) by (unfold PAGE_SIZE; wrap_lia). fold startup_page.
  run (on_ctl_run _ (set_ctl c4 (set_ctl c3 (set_ctl c2 s))) _ _ R3b). set (c5 := set_regs d2 c3).
  change (set_ctl _ (set_ctl c4 _)) with (set_ctl c5 s).
  destruct (start_rounds_run _ _ _ _ Hans (set_ctl c5 s) rest more) as (R4 & B4 & T4 & _); [|done|by destruct T2|done|].
  { cbn. change (has_started c3) with (has_started (arrives l0 c2)). by rewrite arrives_started. }
  run R4. set (c' := set_arrivals rest _). exists c'. split; [|split; [|split; [done|split; [exact T4|]]]].
  - rewrite on_ctl_gets. exact (f_equal (λ x, Ok (x, set_ctl c' s)) B4).
  - transitivity (host c5); [apply (wa_host _ _ (arrives_waited pit_irq lapic_timer_int (concat rounds) c5))|].
    exact (wa_host _ _ (arrives_waited pit_irq lapic_timer_int l0 c2)).
  - transitivity (lapic_sent (regs c5)); [apply arrives_sent|]. cbn [regs c5 set_regs]. rewrite E3.
    change (lapic_sent (regs c3)) with (lapic_sent (regs (arrives l0 c2))). rewrite arrives_sent. cbn [regs c2 set_regs]. rewrite E1.
    cbn [regs set_started]. by rewrite <- app_assoc.
Qed.
End signal.

(** ** Running with the tables of a processor *)
Section running.
Context {D : Type} `{!LapicDev D} `{!LapicDevLaws D}.
Context {T : Type} `{!IsrTable T} `{!IsrTableLaws T}.
Context (pit_irq lapic_timer_int : Z) (Hne : pit_irq ≠ lapic_timer_int).
Notation smp := (smp D T).
Implicit Types (s : smp).

Lemma gs_base_roundtrip b : is_u64 b → gdt_get_base (gdt_load_base b) = b.
Proof.
  intros Hb. unfold gdt_get_base, gdt_load_base, is_u64, u32 in *. rewrite Z.shiftr_div_pow2, Z.shiftl_mul_pow2 by lia.
  rewrite (Z.mod_small (b / 2 ^ 32)) by wrap_lia. rewrite u64_small by wrap_lia. rewrite lor_shift by wrap_lia. wrap_lia.
Qed.

(** This processor uses the tables at [q] and the record of [cpu]. *)
Record runs_as s (cpu : Z) (q : place) : Prop := {
  ra_gdt : gdtr s = gdt_load (direct_map (p_gdt q));
  ra_task : task_reg s = GDT_TSS_SEL;
  ra_gs : gdt_get_base (gs_base s) = record_addr s cpu;
}.

Lemma record_addr_range s cpu : array_ok s → 0 ≤ cpu < max_cpus s → 0 < record_addr s cpu < 2 ^ 64.
Proof. intros [Hb He _] Hc. unfold record_addr, sizeof_cpu_data in *. lia. Qed.

Lemma cores_bound s l (c : nat) x : cores s l → l !! c = Some x → 0 ≤ Z.of_nat c < max_cpus s.
Proof.
  intros Hc Hx. destruct (co_prepared _ _ Hc c x Hx) as [r Hp]. pose proof (lookup_lt_Some _ _ _ (pr_record _ _ _ _ _ Hp)).
  pose proof (ar_len _ (co_array _ _ Hc)). lia.
Qed.

Lemma load_tables_run s l (c : nat) x :
  cores s l → l !! c = Some x →
  ∃ s', (d ← cpu_data_get (Z.of_nat c); load_tables d) s = Ok (tt, s') ∧ cores s' l ∧ runs_as s' (Z.of_nat c) x.2 ∧
    ctl s' = ctl s ∧ smp_core_count s' = smp_core_count s ∧ max_cpus s' = max_cpus s.
Proof.
  intros Hc Hx. pose proof (cores_bound _ _ _ _ Hc Hx) as Hb. pose proof (co_array _ _ Hc) as Ha. destruct (co_prepared _ _ Hc c x Hx) as [r Hp].
  run (cpu_data_get_ok s (Z.of_nat c) Ha Hb). unfold load_tables. run (read_record_ok s _ r Ha Hb (pr_record _ _ _ _ _ Hp)).
  eexists. split; [reflexivity|]. split; [apply (cores_keep s); [done|apply Hc|done..]|]. split; [|done]. split.
  - cbn. by rewrite (proj1 (pr_gdt _ _ _ _ _ Hp)).
  - done.
  - cbn [gs_base set_loaded]. rewrite gs_base_roundtrip; [done|]. pose proof (record_addr_range s _ Ha Hb). unfold is_u64. lia.
Qed.

Lemma cpu_get_id_run s l (c : nat) x q : cores s l → l !! c = Some x → runs_as s (Z.of_nat c) q → arch_cpu_get_this_id s = Ok (Z.of_nat c, s).
Proof.
  intros Hc Hx [_ _ Hg]. pose proof (cores_bound _ _ _ _ Hc Hx) as Hb. pose proof (co_array _ _ Hc) as Ha.
  destruct (co_prepared _ _ Hc c x Hx) as [r Hp]. unfold arch_cpu_get_this_id, cpu_get_id. run (eq_refl : gets gs_base s = Ok (gs_base s, s)).
  rewrite Hg. pose proof (record_addr_range s _ Ha Hb). destruct (Z.eqb_spec (record_addr s (Z.of_nat c)) 0); [lia|].
  run (read_record_ok s _ r Ha Hb (pr_record _ _ _ _ _ Hp)). by rewrite (proj1 (pr_id _ _ _ _ _ Hp)).
Qed.

(** The stack of an interrupt in user mode, as the processor finds it: by its
    segment table, the task register and the task state segment. *)
Definition interrupt_stack s : option Z :=
  g ← gdts s !! (gdtr s).2;
  a ← tss_base g (selector_index (task_reg s));
  d ← segments s !! a;
  t_rsp d !! 0%nat.

Lemma interrupt_stack_ok s l (c : nat) x :
  cores s l → l !! c = Some x → runs_as s (Z.of_nat c) x.2 → interrupt_stack s = Some (direct_map (p_stack x.2 + 16)).
Proof.
  intros Hc Hx [Hg Ht _]. destruct (co_prepared _ _ Hc c x Hx) as [r [_ _ Q3 [Q4 (d & Q5 & Q6)] [Q7 Q8] Q9]].
  unfold interrupt_stack. rewrite Hg. cbn [gdt_load snd]. rewrite <- Q7, Q8. cbn [mbind option_bind].
  destruct (Q9 (p_tss x.2)) as [Hk _]; [right; left; lia|].
  assert (tss_base (gdt_create_new (cpu_tss r) (replicate 12 0)) (selector_index (task_reg s)) = Some (cpu_tss r)) as ->.
  { rewrite gdt_words, Ht by done. change (selector_index GDT_TSS_SEL) with 4%nat. unfold tss_base. cbn [Nat.mul Nat.add lookup list_lookup].
    apply (f_equal Some). apply tss_base_words; [rewrite Q4; unfold direct_map, VIRT_PHYS_BASE, is_u64; lia|unfold sizeof_tss; lia]. }
  cbn [mbind option_bind]. rewrite Q5. cbn [mbind option_bind]. by rewrite Q6, Q3.
Qed.

(** ** The processor that started *)
Lemma map_kernel_run own a v i n :
  machine own a → 0 ≤ v → v + 4 * 4096 ≤ 2 ^ 47 → free_run (mem a) i n → 12 ≤ n →
  ∃ own' p, arch_mm_map_kernel v v 4 (Z.lor perm_read perm_write) 4 a = Ok (1, set_mem p a) ∧ machine own' (set_mem p a) ∧ takes 12 (mem a) p.
Proof.
  intros Hm Hv Hv' Hr Hn. pose proof Hm as [[Hok Hlen Hroot Hc] Hp _]. pose proof (free_run_avail _ _ _ Hr).
  unfold arch_mm_map_kernel. run (eq_refl : gets kernel_pml4 a = Ok (kernel_pml4 a, a)).
  destruct (vmm_map_pages_ok (Z.to_nat 4) own (mem a) (kernel_pml4 a) v v (u64 (vmm_arch_to_vmm_flags (Z.lor perm_read perm_write) 4))) as (own' & p & Hrun & G);
    [done|done|lia|lia|unfold is_u64; lia|lia|].
  pose proof (thrifty_map_pages _ _ _ _ _ _ _ _ Hp Hrun) as Ht.
  exists own', p. split; [unfold on_mem, zoom; by rewrite Hrun|]. split; [eapply machine_set; [done|apply G|apply G|apply Ht]|exact Ht].
Qed.

Lemma lapic_init_run {V : Type → Type} `{!FrgVector V} (m : madt V) own (c : lapic D T) base i n :
  machine own (host c) → 0 ≤ base → base + 4 * 4096 ≤ 2 ^ 47 → free_run (mem (host c)) i n → 12 ≤ n →
  Forall (λ x, nmi_lint x = 0 ∨ nmi_lint x = 1) (vec_elems (madt_nmis m)) →
  ∃ own' p d, lapic_init base m c = Ok (tt, set_regs d (set_host (set_mem p (host c)) c)) ∧
    machine own' (set_mem p (host c)) ∧ takes 12 (mem (host c)) p ∧ setting d LAPIC_SIVR = 0x1FF.
Proof.
  intros Hm H0 H1 Hr Hn Hnmi. destruct (map_kernel_run own (host c) base i n Hm H0 H1 Hr Hn) as (own' & p & R1 & M1 & K1).
  set (c1 := set_host (set_mem p (host c)) c). destruct (proj1 (nmi_loop_run c1 (vec_elems (madt_nmis m)) 0) Hnmi) as (d1 & R2 & _).
  set (v := lapic_reg d1 LAPIC_SIVR). pose proof (lapic_reg_range d1 LAPIC_SIVR) as Hv. fold v in Hv.
  destruct (lapic_write_law d1 LAPIC_SIVR (Z.lor v 0x1FF) ltac:(done) ltac:(apply lor_range; lia)) as (d2 & R3 & S3 & _).
  exists own', p, d2. split; [|split; [exact M1|split; [exact K1|]]].
  - unfold lapic_init. run (zoom_run host set_host _ c _ _ R1). run R2. unfold lapic_enable, lapic_write, lapic_read, zoom. cbv [mbind M_bind]. cbn [regs set_regs].
    rewrite lapic_read_law by by left. fold v. cbn [regs set_regs].
    rewrite u32_small by (apply lor_range; lia). by rewrite R3.
  - rewrite S3. change (settable LAPIC_SIVR) with (Z.ones 9). change 0x1FF with (Z.ones 9).
    rewrite Z.land_lor_distr_l, Z.land_diag. apply Z.bits_inj'. intros k Hk. rewrite Z.lor_spec, Z.land_spec. destruct (Z.testbit (Z.ones 9) k); by rewrite ?andb_false_r, ?orb_true_r.
Qed.
(** C26. A processor that was prepared, once it runs: it uses its own segment
    table, it knows its number, interrupts use its own stack, its controller is
    enabled, and its timer runs with the speed that was measured; and it says
    that it has started. *)
Theorem smp_c_entry_spec {V : Type → Type} `{!FrgVector V} (m : madt V) own s l (c : nat) id q base i n l1 l2 :
  cores s l → l !! c = Some (id, q) → max_cpus s < 2 ^ 31 → machine own (host (ctl s)) → free_run (pg s) i n → 12 ≤ n →
  0 ≤ base → base + 4 * 4096 ≤ 2 ^ 47 → Forall (λ x, nmi_lint x = 0 ∨ nmi_lint x = 1) (vec_elems (madt_nmis m)) →
  lapic_bsp_speed_hz (ctl s) ≠ 0 → timer_runs lapic_timer_int (ctl s) 1000 →
  arrivals (ctl s) = l1 ++ l2 → until (on_vec 0x31) 1000 l1 → timely l1 → passed l1 < 2 ^ 32 →
  ∃ s', smp_c_entry pit_irq lapic_timer_int (Z.of_nat c) base m s = Ok (tt, s') ∧
    runs_as s' (Z.of_nat c) q ∧ arch_cpu_get_this_id s' = Ok (Z.of_nat c, s') ∧ interrupt_stack s' = Some (direct_map (p_stack q + 16)) ∧
    setting (regs (ctl s')) LAPIC_SIVR = 0x1FF ∧ setting (regs (ctl s')) LVT_TIMER = 0x20031 ∧
    setting (regs (ctl s')) INITIAL_COUNT = passed l1 / 1000 ∧ has_started (ctl s') = true.
Proof.
  intros Hc Hx H31 Hm Hr Hn Hb0 Hb1 Hnmi Hsp [T1 T2 [T3 T4]] El Hu Htm Hp. pose proof (cores_bound _ _ _ _ Hc Hx) as Hcb.
  destruct (load_tables_run s l c (id, q) Hc Hx) as (s1 & R1 & C1 & A1 & E1 & N1 & M1).
  unfold smp_c_entry. rewrite s32_small by lia. apply bind_M_Ok in R1 as (d & s0 & R0 & R1). run R0. run R1.
  destruct (lapic_init_run m own (ctl s1) base i n) as (own' & p & d1 & R2 & M2 & K2 & S2);
    [by rewrite E1|done|done|by rewrite E1|done|done|]. run (on_ctl_run _ s1 _ _ R2). set (c1 := set_regs d1 _) in *.
  destruct (lapic_timer_init_ap_spec pit_irq lapic_timer_int Hne c1 l1 l2) as (c2 & R3 & P1 & P2 & P3 & P4 & P5 & P6 & P7);
    [cbn; by rewrite E1|cbn; by rewrite E1|cbn; by rewrite E1|cbn; rewrite E1; lia|cbn; rewrite E1; lia|cbn; by rewrite E1|done|done|done|].
  run (on_ctl_run _ (set_ctl c1 s1) _ _ R3). set (s2 := set_ctl c2 (set_ctl c1 s1)). set (c3 := set_started true c2). 
  exists (set_ctl c3 s2). split; [reflexivity|].
  assert (pg (set_ctl c3 s2) = p) as Epg by (unfold pg; cbn; by rewrite P5).
  assert (cores (set_ctl c3 s2) l) as C3.
  { apply (cores_keep s1); [exact C1|rewrite Epg; apply K2|rewrite Epg; exact (ts_used _ _ _ K2)|done..]. }
  assert (runs_as (set_ctl c3 s2) (Z.of_nat c) q) as A3 by (destruct A1; by split).
  split; [exact A3|]. split; [by apply (cpu_get_id_run _ l c (id, q) q)|]. split; [by apply (interrupt_stack_ok _ l c (id, q))|].
  split; [|done]. cbn [ctl set_ctl regs c3 set_started]. rewrite P4 by done. exact S2.
Qed.
End running.

(** ** All of them *)
Section all.
Context {D : Type} `{!LapicDev D} `{!LapicDevLaws D}.
Context {T : Type} `{!IsrTable T} `{!IsrTableLaws T}.
Context (pit_irq lapic_timer_int : Z) (Hne : pit_irq ≠ lapic_timer_int).
Context (trampoline_start trampoline_end smp_entry smp_c_entry_addr : Z).
Context (Hlay : layout_ok trampoline_start trampoline_end) (Hentry : 0 ≤ smp_entry < 2 ^ 20).
Notation smp := (smp D T).
Implicit Types (s : smp).
Notation start_cost := (start_cost trampoline_start trampoline_end).
Notation smp_loop := (smp_loop pit_irq lapic_timer_int trampoline_start trampoline_end smp_entry smp_c_entry_addr).
Notation smp_init := (smp_init pit_irq lapic_timer_int trampoline_start trampoline_end smp_entry smp_c_entry_addr).

(** The table lists the processor as usable, and it is not the first. *)
Definition startable (p : madt_lapic) : bool := has (l_flags p) 1 && negb (l_apic_id p =? 0).
Definition candidates (ps : list madt_lapic) : Z := Z.of_nat (length (filter startable ps)).

(** The commands that start them: reset, then start at the page of the code. *)
Definition start_commands (ps : list madt_lapic) : list (Z * Z) :=
  p ← filter startable ps; [(l_apic_id p, 0x500); (l_apic_id p, Z.lor 0x600 (startup_page smp_entry))].

(** With the arrivals [l] the processors of [ps] that answer are [ids], and
    [l'] is left over. *)
Inductive starts : list madt_lapic → list arrival → list Z → list arrival → Prop :=
| starts_nil l : starts [] l [] l
| starts_skip p ps l ids l' : startable p = false → starts ps l ids l' → starts (p :: ps) l ids l'
| starts_try p ps l0 rounds l b ids l' :
    startable p = true → until (on_vec 0x31) 10 l0 → answers 1000 (answered l0) rounds b → starts ps l ids l' →
    starts (p :: ps) (l0 ++ concat rounds ++ l) (if b then l_apic_id p :: ids else ids) l'.

(** What the start of [k] more processors needs. *)
Record ready own s (l : list (Z * place)) (k i n : Z) : Prop := {
  rd_cores : cores s l;
  rd_machine : machine own (host (ctl s));
  rd_run : free_run (pg s) i n ∧ start_cost * k ≤ n;
  rd_timer : timer_runs lapic_timer_int (ctl s) (100010 * k);
  rd_count : smp_core_count s = Z.of_nat (length l) - 1 ∧ (0 < length l)%nat;
  rd_max : Z.of_nat (length l) + k ≤ max_cpus s ∧ max_cpus s < 2 ^ 31;
}.

(** The registers of the processor that starts the others stay. *)
Record same_cpu s s' : Prop := {
  sc_gdtr : gdtr s' = gdtr s;
  sc_task : task_reg s' = task_reg s;
  sc_gs : gs_base s' = gs_base s;
  sc_data : cpu_data s' = cpu_data s;
  sc_max : max_cpus s' = max_cpus s;
}.

Lemma start_cost_nonneg : 0 ≤ start_cost.
Proof. unfold SmpProps.start_cost, trampoline_pages, PAGE_SIZE. pose proof (lo_len _ _ Hlay). wrap_lia. Qed.

Lemma smp_loop_skip p ps s : startable p = false → smp_loop (p :: ps) s = smp_loop ps s.
Proof.
  intros Hp. unfold startable in Hp. cbn [Smp.smp_loop]. destruct (has (l_flags p) 1); [|done]. cbn in Hp |- *.
  by destruct (l_apic_id p =? 0).
Qed.

Lemma smp_loop_start p ps s s1 b :
  startable p = true →
  smp_init_single pit_irq lapic_timer_int trampoline_start trampoline_end smp_entry smp_c_entry_addr
    (l_apic_id p) (u32 (s32 (smp_core_count s + 1))) s = Ok (b, s1) →
  smp_loop (p :: ps) s = smp_loop ps (if b then set_core_count (s32 (smp_core_count s1 + 1)) s1 else s1).
Proof.
  intros Hp H. unfold startable in Hp. cbn [Smp.smp_loop]. destruct (has (l_flags p) 1); [|done]. cbn in Hp.
  destruct (l_apic_id p =? 0); [done|]. cbn [negb]. cbv [mbind M_bind gets]. rewrite H. by destruct b.
Qed.

(** One processor. *)
Lemma smp_init_single_run own s l k i n apic l0 rounds rest b :
  ready own s l (k + 1) i n → 0 ≤ k → 0 ≤ apic < 256 →
  arrivals (ctl s) = l0 ++ concat rounds ++ rest → until (on_vec 0x31) 10 l0 → answers 1000 (answered l0) rounds b →
  let core := Z.of_nat (length l) in
  ∃ own' q s', smp_init_single pit_irq lapic_timer_int trampoline_start trampoline_end smp_entry smp_c_entry_addr apic core s = Ok (b, s') ∧
    cores s' (l ++ [(apic, q)]) ∧ machine own' (host (ctl s')) ∧ takes start_cost (pg s) (pg s') ∧
    timer_runs lapic_timer_int (ctl s') (100010 * k) ∧ arrivals (ctl s') = rest ∧ same_cpu s s' ∧ smp_core_count s' = smp_core_count s ∧
    boot_ready trampoline_start trampoline_end smp_c_entry_addr s' (image_code s) apic core (direct_map (p_stack q + 16)) ∧
    lapic_sent (regs (ctl s')) = lapic_sent (regs (ctl s)) ++ [(apic, 0x500); (apic, Z.lor 0x600 (startup_page smp_entry))].
Proof.
  intros [Hc Hm [Hr Hn] Ht _ [Hmax H31]] Hk Hapic Ha Hu Hans core. pose proof start_cost_nonneg.
  destruct (install_run trampoline_start trampoline_end smp_c_entry_addr own s l apic core i n Hlay Hc Hm Hr ltac:(nia) eq_refl ltac:(lia) H31 Hapic)
    as (own' & q & r & p & R1 & C1 & M1 & K1 & B1).
  unfold smp_init_single. run R1. set (s1 := prepared_state _ _ _ _ _ _ _ _) in *.
  destruct (signal_run pit_irq lapic_timer_int Hne smp_entry s1 apic l0 rounds rest b (100010 * k)) as (c' & R2 & E1 & E2 & T2 & E3);
    [done|done|done|done|done| |lia|].
  { destruct Ht. split; [done|done|cbn; lia]. }
  exists own', q, (set_ctl c' s1). split; [exact R2|].
  assert (pg (set_ctl c' s1) = pg s1) as Epg by (unfold pg; cbn [ctl set_ctl]; by rewrite E1).
  split; [|split; [|split; [|split; [exact T2|split; [exact E2|split; [done|split; [done|split; [|exact E3]]]]]]]].
  - apply (cores_keep s1); [exact C1|rewrite Epg; apply C1|by rewrite Epg|done..].
  - cbn [ctl set_ctl]. rewrite E1. exact M1.
  - by rewrite Epg.
  - destruct B1 as [B1 B2]. split; rewrite Epg; [exact B1|]. cbn [ctl set_ctl]. rewrite E1. exact B2.
Qed.

Lemma smp_loop_run ps la ids rest : starts ps la ids rest → ∀ own s l i n,
  ready own s l (candidates ps) i n → arrivals (ctl s) = la → Forall (λ p, 0 ≤ l_apic_id p < 256) ps →
  ∃ s' l', smp_loop ps s = Ok (tt, s') ∧ l'.*1 = ids ∧ cores s' (l ++ l') ∧
    smp_core_count s' = smp_core_count s + Z.of_nat (length ids) ∧ arrivals (ctl s') = rest ∧ same_cpu s s' ∧
    lapic_sent (regs (ctl s')) = lapic_sent (regs (ctl s)) ++ start_commands ps.
Proof.
  induction 1 as [la|p ps la ids rest Hp _ IH|p ps l0 rounds la b ids rest Hp Hu Hans _ IH]; intros own s l i n Hrd Ha Hid.
  - exists s, []. rewrite app_nil_r. split; [done|]. split; [done|]. split; [apply Hrd|]. split; [cbn; lia|]. split; [done|]. split; [done|by rewrite app_nil_r].
  - apply Forall_cons in Hid as [_ Hid]. rewrite smp_loop_skip by done. unfold start_commands. rewrite filter_cons_False by (rewrite Hp; by intros []).
    apply (IH own s l i n); [|done|done]. unfold candidates in *. by rewrite filter_cons_False in Hrd by (rewrite Hp; by intros []).
  - apply Forall_cons in Hid as [Hidp Hid]. pose proof start_cost_nonneg.
    assert (candidates (p :: ps) = candidates ps + 1) as Ek.
    { unfold candidates. rewrite filter_cons_True by (by rewrite Hp). cbn [length]. lia. }
    rewrite Ek in Hrd. assert (0 ≤ candidates ps) as Hk by (unfold candidates; lia).
    destruct (smp_init_single_run own s l (candidates ps) i n (l_apic_id p) l0 rounds la b Hrd Hk Hidp Ha Hu Hans)
      as (own' & q & s1 & R1 & C1 & M1 & K1 & T1 & A1 & S1 & N1 & _ & X1).
    destruct Hrd as [Hc Hm [Hr Hn] Ht [Hcount Hl] [Hmax H31]].
    set (s2 := if b then set_core_count (s32 (smp_core_count s1 + 1)) s1 else s1).
    assert (s32 (smp_core_count s + 1) = Z.of_nat (length l)) as Ecore by (rewrite s32_small; lia).
    rewrite (smp_loop_start p ps s s1 b Hp) by (rewrite Ecore, u32_small by lia; exact R1). fold s2.
    assert (ctl s2 = ctl s1) as Ectl by by destruct b.
    assert (cores s2 (l ++ if b then [(l_apic_id p, q)] else [])) as C2.
    { destruct b; [apply (cores_keep s1); [exact C1|apply C1|done..]|]. rewrite app_nil_r. by eapply cores_prefix. }
    destruct (IH own' s2 (l ++ if b then [(l_apic_id p, q)] else []) (i + start_cost) (n - start_cost)) as (s' & l' & R2 & E2 & C' & N' & A' & S' & X').
    + split; [exact C2|by rewrite Ectl| |by rewrite Ectl| |].
      * unfold pg. rewrite Ectl. split; [apply (ts_run _ _ _ K1); [nia|done]|nia].
      * unfold s2. destruct b; rewrite ?app_nil_r, ?length_app; cbn; rewrite N1, ?s32_small by lia; lia.
      * assert (max_cpus s2 = max_cpus s) as -> by (destruct b; apply S1). destruct b; rewrite ?app_nil_r, ?length_app; cbn; lia.
    + by rewrite Ectl.
    + done.
    + exists s', ((if b then [(l_apic_id p, q)] else []) ++ l'). split; [exact R2|]. split; [destruct b; cbn; by rewrite E2|].
      split; [by rewrite app_assoc|]. split.
      * rewrite N'. unfold s2. destruct b; cbn; rewrite N1, ?s32_small by lia; lia.
      * split; [done|]. split; [|rewrite X', Ectl, X1; unfold start_commands; rewrite filter_cons_True by (by rewrite Hp); by rewrite <- app_assoc].
        destruct S1, S'. assert (gdtr s2 = gdtr s1 ∧ task_reg s2 = task_reg s1 ∧ gs_base s2 = gs_base s1 ∧ cpu_data s2 = cpu_data s1 ∧ max_cpus s2 = max_cpus s1) as (?&?&?&?&?) by by destruct b.
        split; congruence.
Qed.

(** C25. Every processor that the table lists as usable and that answers in time
    is counted. Every one that is listed as usable, but for the first, is sent the two
    commands that start it, in the order of the table, and no other interrupt is sent. Each
    that is counted has, as the first one has, a record with its number and
    its controller's, a stack, a segment table and a task state segment, and
    no two share a page. The processor that starts them is number 0 and uses
    its own tables. *)
Theorem smp_init_spec {V : Type → Type} `{!FrgVector V} (m : madt V) own s i n ids rest :
  let ps := vec_elems (madt_lapics m) in
  cores s [] → machine own (host (ctl s)) → smp_core_count s = 0 → 1 + candidates ps ≤ max_cpus s < 2 ^ 31 →
  free_run (pg s) i n → 20 + start_cost * candidates ps ≤ n → timer_runs lapic_timer_int (ctl s) (100010 * candidates ps) →
  Forall (λ p, 0 ≤ l_apic_id p < 256) ps → starts ps (arrivals (ctl s)) ids rest →
  ∃ s' l, smp_init m s = Ok (tt, s') ∧ l.*1 = 0 :: ids ∧ cores s' l ∧
    arch_cpu_get_count s' = Ok (1 + Z.of_nat (length ids), s') ∧ arch_cpu_get_this_id s' = Ok (0, s') ∧
    (∃ q, l !! 0%nat = Some (0, q) ∧ runs_as s' 0 q ∧ interrupt_stack s' = Some (direct_map (p_stack q + 16))) ∧ arrivals (ctl s') = rest ∧
    lapic_sent (regs (ctl s')) = lapic_sent (regs (ctl s)) ++ start_commands ps.
Proof.
  intros ps Hc Hm H0 [Hmax H31] Hr Hn Ht Hid Hst. pose proof start_cost_nonneg. assert (0 ≤ candidates ps) as Hk by (unfold candidates; lia).
  unfold Smp.smp_init. destruct (cores_prepare s [] 0 0 i n) as (q & r & p & R1 & C1 & K1 & (p1 & p2 & T1 & T2 & T3 & J1 & J2 & J3));
    [done|done|nia|done|lia|lia|]. set (s1 := prepared_state _ _ _ _ _ _ _ _) in *. cbn [app] in C1.
  destruct (load_tables_run s1 [(0, q)] 0 (0, q) C1 eq_refl) as (s2 & R2 & C2 & A2 & E2 & N2 & M2).
  assert (setup_bsp s = Ok (tt, s2)) as R by (unfold setup_bsp; run R1; exact R2). run R.
  destruct (taken3_machine own (host (ctl s)) _ _ _ _ _ _ Hm T1 J1 T2 J2 T3 J3) as [M3 _].
  destruct (smp_loop_run ps (arrivals (ctl s)) ids rest Hst own s2 [(0, q)] (i + 20) (n - 20)) as (s' & l' & R3 & E3 & C3 & N3 & A3 & [G1 G2 G3 G4 G5] & X3); [|by rewrite E2|done|].
  { split; [done|by rewrite E2| |by rewrite E2; destruct Ht|split; [by rewrite N2|cbn; lia]|cbn; rewrite M2; cbn; lia].
    unfold pg. rewrite E2. split; [apply (ts_run _ _ _ K1); [nia|done]|lia]. }
  assert (runs_as s' 0 q) as A' by (destruct A2 as [Q1 Q2 Q3]; split; rewrite ?G1, ?G2, ?G3; [done|done|rewrite Q3; unfold record_addr; by rewrite G4]).
  exists s', ((0, q) :: l'). split; [exact R3|]. split; [cbn; by rewrite E3|]. split; [exact C3|]. split; [|split; [|split; [|split; [done|by rewrite X3, E2]]]].
  - unfold arch_cpu_get_count, smp_get_working_count. run (eq_refl : gets smp_core_count s' = Ok (smp_core_count s', s')).
    rewrite N3, N2. cbn [smp_core_count s1 prepared_state with_pg with_host set_ctl set_gdts set_segments set_records set_array]. rewrite H0.
    cbv [mret M_ret]. rewrite s32_small; [do 2 f_equal; lia|].
    destruct (lookup_lt_is_Some_2 ((0, q) :: l') (length ids)) as [x Hx]; [cbn; rewrite <- E3, length_fmap; lia|].
    pose proof (cores_bound s' _ (length ids) x C3 Hx). rewrite G5, M2 in *. cbn in *. lia.
  - by apply (cpu_get_id_run s' ((0, q) :: l') 0 (0, q) q).
  - exists q. split; [done|]. split; [done|]. by apply (interrupt_stack_ok s' ((0, q) :: l') 0 (0, q)).
Qed.
End all.

(** ** A machine with two processors *)
Section witnesses.
Import Instances Demo.
Notation demo_isrs := (Irq.interrupts (list Z) list (gmap Z)).

Definition kernel_host : vmm := Vmm demo_pmm demo_root demo_root 0.
Definition ticks (n : nat) : list arrival := replicate n (Interrupt 0x31 4000).
Definition demo_ctl (l : list arrival) : lapic dev demo_isrs := Lapic (Dev (λ _, 0) 0 []) timer_table kernel_host [] 5000000 0 0 false l.
Definition demo_record : cpu_data_t := CpuData 0 0 0 0 0 0 0.
Definition demo_smp (l : list arrival) : smp dev demo_isrs :=
  Smp (demo_ctl l) 0xFFFF800002100000 4 (replicate 4 demo_record) ∅ ∅ (0, 0) 0 (0, 0) 0.
(** One processor is the first, one can be started, one is disabled. *)
Definition demo_madt : madt list := Madt [MadtLapic 0 0 1; MadtLapic 1 1 1; MadtLapic 2 2 0] [MadtNmi 255 0 1] [] [].

Lemma demo_pages_ok : pages_ok demo_pmm.
Proof. split; [eapply covers_mono; [apply demo_pmm_covers|vm_compute; congruence]|vm_compute; congruence|apply demo_pmm_low]. Qed.

Lemma demo_free_run : free_run demo_pmm 8195 61.
Proof.
  split; [vm_compute; congruence|]. split; [lia|]. split; [vm_compute; congruence|]. intros j Hj.
  assert (∀ k, k ∈ seqZ 8195 61 → used (pmm_bitmap demo_pmm) k = false) as Hall; [|apply Hall, elem_of_seqZ; lia].
  apply Forall_forall. vm_compute. repeat constructor.
Qed.

Lemma demo_machine : machine demo_own kernel_host.
Proof.
  split; [split|apply demo_pages_ok|vm_compute; split; congruence].
  - apply demo_tables_ok.
  - vm_compute. congruence.
  - apply demo_root_own.
  - done.
Qed.

Lemma demo_cores l : cores (demo_smp l) [].
Proof.
  split; [split; [done|vm_compute; congruence|done]|apply demo_pages_ok| |done|done].
  intros a [[t Ht]|[t Ht]]; cbn [segments gdts demo_smp] in Ht; by rewrite lookup_empty in Ht.
Qed.

Lemma demo_timer_runs l ms : vectors_ok l → ms < 2 ^ 64 → timer_runs 2 (demo_ctl l) ms.
Proof. intros Hv Hms. split; [apply timer_table_handles|done|cbn; lia]. Qed.

Lemma ticks_until n : (0 < n)%nat → until (on_vec 0x31) (Z.of_nat n) (ticks n).
Proof. intros Hn. unfold ticks. rewrite <- (Nat2Z.id n) at 2. apply until_replicate. lia. Qed.

Lemma ticks_vectors n : vectors_ok (ticks n).
Proof. intros a Ha. apply elem_of_replicate in Ha as [-> _]. lia. Qed.

(** The second processor answers in the first hundred milliseconds. *)
Definition demo_arrivals : list arrival := ticks 10 ++ (Started :: ticks 100).

Lemma demo_layout : layout_ok 0x1000 0x1123.
Proof. split; vm_compute; first [done|split; congruence|congruence]. Qed.

Lemma demo_starts : starts (madt_lapics demo_madt) demo_arrivals [1] [].
Proof.
  apply starts_skip; [done|]. rewrite <- (app_nil_r demo_arrivals). unfold demo_arrivals. rewrite <- app_assoc.
  change (Started :: ticks 100) with (concat [Started :: ticks 100]) || replace (Started :: ticks 100) with (concat [Started :: ticks 100]) by apply app_nil_r.
  apply (starts_try (MadtLapic 1 1 1) _ (ticks 10) [Started :: ticks 100] [] true []); [done|by apply (ticks_until 10); lia| |].
  - apply (answers_wait 999); [|apply (answers_yes 998)]. split; [vm_compute; done|].
    intros l' a E. assert (last (Started :: ticks 100) = Some a) as El by (rewrite E; apply last_snoc). injection El as <-. done.
  - apply starts_skip; [done|]. apply starts_nil.
Qed.

Lemma smp_init_spec_witness :
  ∃ s', smp_init 1 2 0x1000 0x1123 0x1000 0xFFFFFFFF80101000 demo_madt (demo_smp demo_arrivals) = Ok (tt, s') ∧
    arch_cpu_get_count s' = Ok (2, s') ∧ arch_cpu_get_this_id s' = Ok (0, s').
Proof.
  destruct (smp_init_spec 1 2 ltac:(done) 0x1000 0x1123 0x1000 0xFFFFFFFF80101000 demo_layout ltac:(lia) demo_madt demo_own (demo_smp demo_arrivals) 8195 61 [1] [])
    as (s' & l & Hrun & _ & _ & Hn & Hid & _);
    [apply demo_cores|apply demo_machine|done|vm_compute; split; [congruence|done]|apply demo_free_run|vm_compute; congruence| | |apply demo_starts|].
  - apply demo_timer_runs; [|vm_compute; done]. intros a Ha. unfold demo_arrivals in Ha.
    apply elem_of_app in Ha as [Ha|Ha]; [by apply (ticks_vectors 10)|]. apply elem_of_cons in Ha as [->|Ha]; [done|by apply (ticks_vectors 100)].
  - cbn. repeat (apply Forall_cons; split; [cbn; lia|]). by apply Forall_nil.
  - exists s'. split; [exact Hrun|]. split; [exact Hn|exact Hid].
Defined.

Lemma smp_c_entry_spec_witness :
  ∃ (s s' : smp dev demo_isrs), smp_c_entry 1 2 0 0xFEE00000 demo_madt s = Ok (tt, s') ∧ arch_cpu_get_this_id s' = Ok (0, s') ∧
    setting (regs (ctl s')) INITIAL_COUNT = 4000.
Proof.
  destruct (cores_prepare (demo_smp (ticks 1000)) [] 0 0 8195 61) as (q & r & p & _ & C1 & K1 & (p1 & p2 & T1 & T2 & T3 & J1 & J2 & J3));
    [apply demo_cores|apply demo_free_run|lia|done|done|lia|].
  destruct (taken3_machine demo_own kernel_host _ _ _ _ _ _ demo_machine T1 J1 T2 J2 T3 J3) as [M1 _].
  set (s1 := prepared_state _ _ _ _ _ _ _ _) in *.
  destruct (smp_c_entry_spec 1 2 ltac:(done) demo_madt demo_own s1 [(0, q)] 0 0 q 0xFEE00000 (8195 + 20) (61 - 20) (ticks 1000) [])
    as (s' & Hrun & _ & Hid & _ & _ & _ & Hp & _);
    [exact C1|done|done|exact M1|apply (ts_run _ _ _ K1); [lia|apply demo_free_run]|lia|lia|lia|apply Forall_singleton; by right|done| |by rewrite app_nil_r| | | |].
  - destruct (demo_timer_runs (ticks 1000) 1000 (ticks_vectors 1000) ltac:(lia)) as [H1 H2 H3]. split; [exact H1|exact H2|exact H3].
  - by apply (ticks_until 1000); lia.
  - apply Forall_replicate. cbn. lia.
  - vm_compute. done.
  - exists s1, s'. split; [exact Hrun|]. split; [exact Hid|]. rewrite Hp. vm_compute. reflexivity.
Defined.
End witnesses.
