(* ===== verification/Pci.v ===== *)
(** * The PCI bus (io/pci.h, io/pci.cpp)

    Access to the configuration space through two ports, reading of base
    addresses, enumeration of buses and routing of interrupts. The ports are
    behind the class [PciPorts], the hardware; its laws are those of the first
    configuration mechanism of the PCI specification. Devices and buses are
    objects in a store. The ACPI interpreter is third-party code and an
    argument: its namespace below [\_SB_], the device it finds for a slot, the
    routing tables. What fresh memory holds where a constructor leaves a
    member alone is an argument too. Log messages are left out. *)
From S2P Require Import Prelude Frigg Pmm Apic.
From stdpp Require Import base numbers option gmap list.
#[local] Open Scope Z_scope.

(** ** The hardware *)
Class PciPorts (P : Type) := {
  p_outb : Z → Z → M P ();
  p_outw : Z → Z → M P ();
  p_outd : Z → Z → M P ();
  p_inb : Z → M P Z;
  p_inw : Z → M P Z;
  p_ind : Z → M P Z;
  (** The address register, the registers by address, and which of the bits of
      a base address register can be written. *)
  cfg_sel : P → Z;
  cfg : P → Z → Z;
  cfg_mask : P → Z → Z;
}.

(** The register an address selects; the two low bits are not decoded. *)
Definition register (v : Z) : Z := Z.land v 0xFFFFFC.
Definition is_bar (a : Z) : Prop := 0x10 ≤ Z.land a 0xFF < 0x28.
Definition write_masked (old v mask : Z) : Z := Z.lor (Z.land v mask) (Z.ldiff old mask).

Class PciPortsLaws (P : Type) `{!PciPorts P} : Prop := {
  cfg_select_law p v :
    ∃ p', p_outd 0xCF8 v p = Ok (tt, p') ∧ cfg_sel p' = v ∧ (∀ a, cfg p' a = cfg p a) ∧ (∀ a, cfg_mask p' a = cfg_mask p a);
  cfg_ind_law p : Z.testbit (cfg_sel p) 31 = true → p_ind 0xCFC p = Ok (cfg p (register (cfg_sel p)), p);
  cfg_inw_law p k :
    Z.testbit (cfg_sel p) 31 = true → k = 0 ∨ k = 2 →
    p_inw (0xCFC + k) p = Ok (Z.land (Z.shiftr (cfg p (register (cfg_sel p))) (8 * k)) 0xFFFF, p);
  cfg_inb_law p k :
    Z.testbit (cfg_sel p) 31 = true → 0 ≤ k < 4 →
    p_inb (0xCFC + k) p = Ok (Z.land (Z.shiftr (cfg p (register (cfg_sel p))) (8 * k)) 0xFF, p);
  cfg_outd_law p v :
    Z.testbit (cfg_sel p) 31 = true → is_bar (register (cfg_sel p)) → 0 ≤ v < 2 ^ 32 →
    ∃ p', p_outd 0xCFC v p = Ok (tt, p') ∧ cfg_sel p' = cfg_sel p ∧ (∀ a, cfg_mask p' a = cfg_mask p a) ∧
      ∀ a, cfg p' a = if decide (a = register (cfg_sel p))
                      then write_masked (cfg p a) v (cfg_mask p a) else cfg p a;
  cfg_range p a : 0 ≤ cfg p a < 2 ^ 32;
}.

(** ** Access to the configuration space *)
Section access.
Context {P : Type} `{!PciPorts P}.

Definition pci_address (bus slot func off : Z) : Z :=
  u32 (Z.lor (Z.lor (Z.lor (Z.lor (Z.shiftl bus 16) (Z.shiftl slot 11)) (Z.shiftl func 8)) off) 0x80000000).

Definition pci_read_byte (bus slot func off : Z) : M P Z :=
  p_outd 0xCF8 (pci_address bus slot func (Z.land off 0xFFFF));; p_inb (0xCFC + off mod 4).
Definition pci_write_byte (bus slot func off value : Z) : M P () :=
  p_outd 0xCF8 (pci_address bus slot func (Z.land off 0xFFFF));; p_outb (0xCFC + off mod 4) value.
Definition pci_read_word (bus slot func off : Z) : M P Z :=
  p_outd 0xCF8 (pci_address bus slot func (Z.land off 0xFFFE));; p_inw (0xCFC + off mod 4).
Definition pci_write_word (bus slot func off value : Z) : M P () :=
  p_outd 0xCF8 (pci_address bus slot func (Z.land off 0xFFFE));; p_outw (0xCFC + off mod 4) value.
Definition pci_read_dword (bus slot func off : Z) : M P Z :=
  p_outd 0xCF8 (pci_address bus slot func (Z.land off 0xFFFC));; p_ind (0xCFC + off mod 4).
Definition pci_write_dword (bus slot func off value : Z) : M P () :=
  p_outd 0xCF8 (pci_address bus slot func (Z.land off 0xFFFC));; p_outd (0xCFC + off mod 4) value.
End access.

(** [pci_reg] *)
Definition reg_vendor : Z := 0x00.
Definition reg_device : Z := 0x02.
Definition reg_header_type : Z := 0x0E.
Definition reg_base_class : Z := 0x0B.
Definition reg_sub_class : Z := 0x0A.
Definition reg_prog_if : Z := 0x09.
Definition reg_sec_bus : Z := 0x19.
Definition reg_bar0_off : Z := 0x10.
Definition reg_irq_pin : Z := 0x3D.

(** ** Objects *)
Record pci_dev := PciDev {
  d_parent : Z;
  d_bus : Z; d_slot : Z; d_func : Z;
  d_vendor : Z; d_device : Z;
  d_base_class : Z; d_sub_class : Z; d_prog_if : Z;
  d_header_type : Z; d_multifunction : bool;
  d_sec_bus : Z; d_irq_pin : Z;
  d_irq : Z; d_gsi : Z;
}.
(** An entry of a routing table. *)
Record prt_entry := PrtEntry { prt_slot : Z; prt_function : Z; prt_pin : Z; prt_gsi : Z }.

Record pci_bus {V : Type → Type} := PciBus {
  b_parent : Z;
  b_device : Z;
  b_children : V Z;
  b_bus : Z;
  b_has_prt : bool;
  b_tried_prt_fetch : bool;
  b_acpi_node : Z;
  b_acpi_prt : list prt_entry;
}.
Arguments pci_bus : clear implicits.
Arguments PciBus {V} _ _ _ _ _ _ _ _.

Inductive bar_type := bar_io | bar_mmio.
Record pci_bar := PciBar { bar_kind : bar_type; bar_addr : Z; bar_length : Z; bar_prefetch : bool }.

Record pci {P S : Type} {V : Type → Type} := Pci {
  ports : P;
  controllers : apic S V;
  dev_objs : gmap Z pci_dev;
  bus_objs : gmap Z (pci_bus V);
  next_ptr : Z;
  devices : V Z;
  pci_buses : V Z;
}.
Arguments pci : clear implicits.
Arguments Pci {P S V} _ _ _ _ _ _ _.

Section pci.
Context {P : Type} `{!PciPorts P}.
Context {S : Type} `{!IoapicDev S}.
Context {V : Type → Type} `{!FrgVector V}.
(** The members a constructor leaves alone. *)
Context (junk_dev : Z → pci_dev) (junk_bus : Z → pci_bus V).
(** The ACPI interpreter: the children of [\_SB_], whether one is a root
    bus, its number if it has one that can be evaluated, the node for a slot
    and function below a node, the routing table of a node if it has one that
    can be evaluated. *)
Context (sb_children : option (list Z)) (is_root_bus : Z → bool) (bbn : Z → option (option Z)).
Context (lai_pci_find_device : Z → Z → Z → Z) (prt_of : Z → option (option (list prt_entry))).
Notation pci := (pci P S V).
Notation pci_bus := (pci_bus V).
Implicit Types (s : pci) (d : pci_dev) (b : pci_bus).

Definition set_ports (p : P) s : pci :=
  Pci p (controllers s) (dev_objs s) (bus_objs s) (next_ptr s) (devices s) (pci_buses s).
Definition set_controllers (c : apic S V) s : pci :=
  Pci (ports s) c (dev_objs s) (bus_objs s) (next_ptr s) (devices s) (pci_buses s).
Definition set_dev_objs (m : gmap Z pci_dev) s : pci :=
  Pci (ports s) (controllers s) m (bus_objs s) (next_ptr s) (devices s) (pci_buses s).
Definition set_bus_objs (m : gmap Z pci_bus) s : pci :=
  Pci (ports s) (controllers s) (dev_objs s) m (next_ptr s) (devices s) (pci_buses s).
Definition set_next_ptr (n : Z) s : pci :=
  Pci (ports s) (controllers s) (dev_objs s) (bus_objs s) n (devices s) (pci_buses s).
Definition set_devices (v : V Z) s : pci :=
  Pci (ports s) (controllers s) (dev_objs s) (bus_objs s) (next_ptr s) v (pci_buses s).
Definition set_pci_buses (v : V Z) s : pci :=
  Pci (ports s) (controllers s) (dev_objs s) (bus_objs s) (next_ptr s) (devices s) v.

Definition on_ports {A} (m : M P A) : M pci A := zoom ports set_ports m.
Definition on_controllers {A} (m : M (apic S V) A) : M pci A := zoom controllers set_controllers m.

Definition get_dev (p : Z) : M pci pci_dev := s ← get_st; lift (access (dev_objs s !! p)).
Definition put_dev (p : Z) d : M pci () := modify (λ s, set_dev_objs (<[p := d]> (dev_objs s)) s).
Definition get_bus (p : Z) : M pci pci_bus := s ← get_st; lift (access (bus_objs s !! p)).
Definition put_bus (p : Z) b : M pci () := modify (λ s, set_bus_objs (<[p := b]> (bus_objs s)) s).
Definition fresh_ptr : M pci Z := p ← gets next_ptr; modify (set_next_ptr (p + 1));; mret p.

(** ** [pci_dev] *)
Definition pci_dev_new (bus slot func : Z) : M pci Z :=
  p ← fresh_ptr;
  let j := junk_dev p in
  put_dev p (PciDev 0 bus slot func (d_vendor j) (d_device j) (d_base_class j) (d_sub_class j) (d_prog_if j)
    (d_header_type j) (d_multifunction j) (d_sec_bus j) (d_irq_pin j) (d_irq j) (d_gsi j));;
  mret p.

Definition read_byte d (reg : Z) : M pci Z := on_ports (pci_read_byte (d_bus d) (d_slot d) (d_func d) reg).
Definition read_word d (reg : Z) : M pci Z := on_ports (pci_read_word (d_bus d) (d_slot d) (d_func d) reg).
Definition read_dword d (reg : Z) : M pci Z := on_ports (pci_read_dword (d_bus d) (d_slot d) (d_func d) reg).
Definition write_dword d (reg v : Z) : M pci () := on_ports (pci_write_dword (d_bus d) (d_slot d) (d_func d) reg v).

Definition dev_exists (p : Z) : M pci bool :=
  d ← get_dev p; v ← read_word d reg_vendor; mret (negb (v =? 0xFFFF)).

Definition dev_init (p : Z) : M pci () :=
  e ← dev_exists p;
  if e : bool then
    d ← get_dev p;
    vendor ← read_word d reg_vendor;
    device ← read_word d reg_device;
    base_class ← read_byte d reg_base_class;
    sub_class ← read_byte d reg_sub_class;
    prog_if ← read_byte d reg_prog_if;
    header_type ← read_byte d reg_header_type;
    irq_pin ← read_byte d reg_irq_pin;
    sec_bus ← read_byte d reg_sec_bus;
    put_dev p (PciDev (d_parent d) (d_bus d) (d_slot d) (d_func d) vendor device base_class sub_class prog_if
      header_type (has header_type 0x80) sec_bus irq_pin 0 0)
  else mret tt.

(** [bar] is an index; the mask of the low bits depends on the kind. *)
Definition fetch_bar (p bar : Z) : M pci (option pci_bar) :=
  d ← get_dev p;
  if has (d_header_type d) 0x7F then mret None
  else
    let bar_off := u16 (reg_bar0_off + bar * 4) in
    bar_lo ← read_dword d bar_off;
    if bar_lo =? 0 then mret None
    else
      let is_mmio := negb (has bar_lo 1) in
      let is_prefetch := is_mmio && has bar_lo 8 in
      let is_64bit := is_mmio && (Z.land bar_lo 6 =? 4) in
      bar_hi ← (if is_64bit : bool then read_dword d (u16 (bar_off + 4)) else mret 0);
      let low := if is_mmio then 0xF else 0x3 in
      let base := Z.ldiff (Z.lor (Z.shiftl bar_hi 32) bar_lo) low in
      write_dword d bar_off 0xFFFFFFFF;;
      size_lo ← read_dword d bar_off;
      write_dword d bar_off bar_lo;;
      size_hi ← (if is_64bit : bool then
                   write_dword d (u16 (bar_off + 4)) 0xFFFFFFFF;;
                   h ← read_dword d (u16 (bar_off + 4));
                   write_dword d (u16 (bar_off + 4)) bar_hi;;
                   mret h
                 else mret 0xFFFFFFFF);
      let size := Z.ldiff (Z.ones 64) (Z.ldiff (Z.lor (Z.shiftl size_hi 32) size_lo) low) in
      mret (Some (PciBar (if is_mmio then bar_mmio else bar_io)
        (if is_mmio then base else Z.land base 0xFFFF) (if is_mmio then size else Z.land size 0xFFFF) is_prefetch)).

Definition put_parent (x : Z) d : pci_dev :=
  PciDev x (d_bus d) (d_slot d) (d_func d) (d_vendor d) (d_device d) (d_base_class d) (d_sub_class d) (d_prog_if d)
    (d_header_type d) (d_multifunction d) (d_sec_bus d) (d_irq_pin d) (d_irq d) (d_gsi d).
Definition set_irq (irq gsi : Z) d : pci_dev :=
  PciDev (d_parent d) (d_bus d) (d_slot d) (d_func d) (d_vendor d) (d_device d) (d_base_class d) (d_sub_class d)
    (d_prog_if d) (d_header_type d) (d_multifunction d) (d_sec_bus d) (d_irq_pin d) irq gsi.

Definition attach_device (bus dev : Z) : M pci () :=
  b ← get_bus bus;
  put_bus bus (PciBus (b_parent b) (b_device b) (vec_push (b_children b) dev) (b_bus b) (b_has_prt b) (b_tried_prt_fetch b)
    (b_acpi_node b) (b_acpi_prt b)).
Definition dev_attach_to (p bus : Z) : M pci () :=
  d ← get_dev p; put_dev p (put_parent bus d);; attach_device bus p.

Definition pci_bridge_pin (pin dev : Z) : Z := Z.rem ((pin - 1) + Z.rem dev 4) 4 + 1.

(** ** [pci_bus] *)
Definition pci_bus_new (bus dev : Z) : M pci Z :=
  p ← fresh_ptr;
  let j := junk_bus p in
  put_bus p (PciBus 0 dev vec_empty bus (b_has_prt j) (b_tried_prt_fetch j) (b_acpi_node j) (b_acpi_prt j));;
  mret p.

Definition with_node (node : Z) b : pci_bus :=
  PciBus (b_parent b) (b_device b) (b_children b) (b_bus b) (b_has_prt b) (b_tried_prt_fetch b) node (b_acpi_prt b).
Definition set_acpi_node (p node : Z) : M pci () := b ← get_bus p; put_bus p (with_node node b).
Definition bus_attach_to (p bus : Z) : M pci () :=
  b ← get_bus p;
  put_bus p (PciBus bus (b_device b) (b_children b) (b_bus b) (b_has_prt b) (b_tried_prt_fetch b) (b_acpi_node b) (b_acpi_prt b)).

(** [fuel] bounds the number of buses above. *)
Fixpoint find_node (fuel : nat) (p : Z) : M pci () :=
  match fuel with
  | O => lift Hang
  | Datatypes.S fuel' =>
      b ← get_bus p;
      if negb (b_acpi_node b =? 0) then mret tt
      else
        (if b_parent b =? 0 then mret tt else find_node fuel' (b_parent b));;
        if b_parent b =? 0 then lift Panic
        else
          pb ← get_bus (b_parent b);
          if b_acpi_node pb =? 0 then mret tt
          else
            lift (assertion (negb (b_device b =? 0)));;
            d ← get_dev (b_device b);
            b ← get_bus p;
            put_bus p (with_node (lai_pci_find_device (b_acpi_node pb) (d_slot d) (d_func d)) b)
  end.

Definition fetch_prt (p : Z) : M pci () :=
  b ← get_bus p;
  if b_tried_prt_fetch b then mret tt
  else
    let b' has_ prt := PciBus (b_parent b) (b_device b) (b_children b) (b_bus b) has_ true (b_acpi_node b) prt in
    if b_acpi_node b =? 0 then put_bus p (b' (b_has_prt b) (b_acpi_prt b))
    else
      match prt_of (b_acpi_node b) with
      | None => put_bus p (b' (b_has_prt b) (b_acpi_prt b))
      | Some None => put_bus p (b' false (b_acpi_prt b))
      | Some (Some prt) => put_bus p (b' true prt)
      end.

(** ** Enumeration *)
Definition is_bridge d : bool := (d_base_class d =? 0x06) && (d_sub_class d =? 0x04).

(** The body of the loops, for one slot and function; [enumerate] is the
    recursive call for the bus behind a bridge. An object is younger than the
    buses above it, so its pointer bounds their number. *)
Definition enumerate_at (enumerate : Z → M pci ()) (p slot func : Z) : M pci () :=
  b ← get_bus p;
  d ← pci_dev_new (b_bus b) slot func;
  e ← dev_exists d;
  if e : bool then
    dev_init d;;
    dev_attach_to d p;;
    dev ← get_dev d;
    (if is_bridge dev then
       bridge ← pci_bus_new (d_sec_bus dev) d;
       bus_attach_to bridge p;;
       find_node (Datatypes.S (Z.to_nat bridge)) bridge;;
       enumerate bridge;;
       modify (λ s, set_pci_buses (vec_push (pci_buses s) bridge) s)
     else mret tt);;
    modify (λ s, set_devices (vec_push (devices s) d) s)
  else modify (λ s, set_dev_objs (delete d (dev_objs s)) s).

Definition functions : list (Z * Z) := seqZ 0 32 ≫= λ slot, (λ func, (slot, func)) <$> seqZ 0 8.

(** [fuel] bounds the depth of the bridges. *)
Fixpoint enumerate (fuel : nat) (p : Z) : M pci () :=
  match fuel with
  | O => lift Hang
  | Datatypes.S fuel' =>
      for_each (λ '(slot, func), enumerate_at (enumerate fuel') p slot func) functions
  end.

Definition pci_find_root_buses : M pci () :=
  match sb_children with
  | None => lift Panic
  | Some nodes =>
      for_each (λ node,
        if is_root_bus node then
          match bbn node with
          | Some None => mret tt
          | r =>
              let bbn_result := match r with Some (Some n) => n | _ => 0 end in
              bus ← pci_bus_new (u8 bbn_result) 0;
              set_acpi_node bus node;;
              modify (λ s, set_pci_buses (vec_push (pci_buses s) bus) s)
          end
        else mret tt) nodes
  end.

(** ** Routing *)

(** The way up: the first bus with a table, the device below it and the pin
    there. *)
Fixpoint route_up (fuel : nat) (bus bus_dev irq_pin : Z) : M pci (list prt_entry * Z * Z) :=
  match fuel with
  | O => lift Hang
  | Datatypes.S fuel' =>
      fetch_prt bus;;
      b ← get_bus bus;
      if b_has_prt b then mret (b_acpi_prt b, bus_dev, irq_pin)
      else
        bd ← get_dev (b_device b);
        route_up fuel' (b_parent b) (if b_parent b =? 0 then bus_dev else b_device b) (u8 (pci_bridge_pin irq_pin (d_slot bd)))
  end.

Definition prt_match (slot func irq_pin : Z) (e : prt_entry) : Prop :=
  prt_slot e = slot ∧ (prt_function e = func ∨ prt_function e = -1) ∧ prt_pin e = irq_pin - 1.
#[global] Instance prt_match_dec slot func irq_pin e : Decision (prt_match slot func irq_pin e).
Proof. unfold prt_match. apply _. Defined.

Definition route_irq (p : Z) : M pci () :=
  d ← get_dev p;
  if d_irq_pin d =? 0 then mret tt
  else
    '(prt, bus_dev, irq_pin) ← route_up (Datatypes.S (Z.to_nat (d_parent d))) (d_parent d) p (d_irq_pin d);
    bd ← get_dev bus_dev;
    match list_find (prt_match (d_slot bd) (d_func bd) irq_pin) prt with
    | None => mret tt
    | Some (_, e) =>
        v ← on_controllers (ioapic_get_vector_by_gsi (prt_gsi e));
        d ← get_dev p;
        put_dev p (set_irq v (u8 (prt_gsi e)) d)
    end.

(** The base addresses are read to be printed. *)
Definition pci_init (fuel : nat) : M pci () :=
  pci_find_root_buses;;
  s ← get_st;
  for_each (enumerate fuel) (vec_elems (pci_buses s));;
  s ← get_st;
  for_each route_irq (vec_elems (devices s));;
  for_each (λ p, for_each (λ i, fetch_bar p i;; mret tt) (seqZ 0 6)) (vec_elems (devices s)).
End pci.
