(* ===== verification/PciProps.v ===== *)
(** * Properties of the PCI bus (Pci.v)

    What the accesses read and write; that the base address of a device is
    read without changing the device; which devices enumeration finds. *)
From S2P Require Import Prelude Frigg Pmm Paging Apic Pci.
From stdpp Require Import base numbers option gmap list sets.
#[local] Open Scope Z_scope.

(** ** Addresses *)
Definition valid (b sl f : Z) : Prop := 0 ≤ b < 256 ∧ 0 ≤ sl < 32 ∧ 0 ≤ f < 8.
(** The register of a function at an offset that is a multiple of 4. *)
Definition cfg_at (b sl f off : Z) : Z := b * 65536 + sl * 2048 + f * 256 + off.

Lemma pci_address_sum b sl f off :
  valid b sl f → 0 ≤ off < 256 → pci_address b sl f off = 2 ^ 31 + cfg_at b sl f off.
Proof.
  intros (Hb & Hs & Hf) Ho. unfold pci_address, cfg_at. rewrite !Z.shiftl_mul_pow2 by lia.
  rewrite (lor_shift b (sl * 2 ^ 11) 16) by lia.
  replace (b * 2 ^ 16 + sl * 2 ^ 11) with ((b * 32 + sl) * 2 ^ 11) by lia. rewrite (lor_shift _ (f * 2 ^ 8) 11) by lia.
  replace ((b * 32 + sl) * 2 ^ 11 + f * 2 ^ 8) with ((b * 256 + sl * 8 + f) * 2 ^ 8) by lia. rewrite (lor_shift _ off 8) by lia.
  rewrite Z.lor_comm. change 0x80000000 with (1 * 2 ^ 31). rewrite lor_shift by lia. rewrite u32_small by lia. lia.
Qed.

Lemma address_enabled b sl f off : valid b sl f → 0 ≤ off < 256 → Z.testbit (pci_address b sl f off) 31 = true.
Proof.
  intros Hv Ho. rewrite pci_address_sum by done. destruct Hv as (? & ? & ?).
  replace (2 ^ 31 + cfg_at b sl f off) with (1 * 2 ^ 31 + cfg_at b sl f off) by lia.
  rewrite <- lor_shift by (unfold cfg_at; lia). rewrite Z.lor_spec. done.
Qed.

Lemma address_register b sl f off :
  valid b sl f → 0 ≤ off < 256 → register (pci_address b sl f off) = cfg_at b sl f (off - off mod 4).
Proof.
  intros Hv Ho. rewrite pci_address_sum by done. destruct Hv as (? & ? & ?). unfold register.
  assert (∀ x, 0 ≤ x < 2 ^ 32 → Z.land x 0xFFFFFC = (x mod 2 ^ 24) / 4 * 4) as Hland.
  { intros x Hx. apply Z.bits_inj'. intros n Hn. rewrite Z.land_spec.
    change 4 with (2 ^ 2). rewrite <- Z.shiftr_div_pow2, <- Z.shiftl_mul_pow2 by lia.
    rewrite Z.shiftl_spec by lia. replace 0xFFFFFC with (Z.shiftl (Z.ones 22) 2) by done. rewrite Z.shiftl_spec by lia.
    destruct (Z.ltb_spec n 2); [rewrite !(Z.testbit_neg_r _ (n - 2)) by lia; by rewrite andb_false_r|].
    rewrite Z.shiftr_spec by lia. replace (n - 2 + 2) with n by lia.
    destruct (Z.ltb_spec n 24).
    - rewrite Z.ones_spec_low, Z.mod_pow2_bits_low by lia. by rewrite andb_true_r.
    - rewrite Z.ones_spec_high, Z.mod_pow2_bits_high by lia. by rewrite andb_false_r. }
  rewrite Hland by (unfold cfg_at; lia). unfold cfg_at. Z.to_euclidean_division_equations. lia.
Qed.

Section pci.
Context {P : Type} `{!PciPorts P} `{!PciPortsLaws P}.

(** The registers and what can be written of them are the same. *)
Definition same_cfg (p p' : P) : Prop := (∀ a, cfg p' a = cfg p a) ∧ (∀ a, cfg_mask p' a = cfg_mask p a).
Lemma same_cfg_trans p p' p'' : same_cfg p p' → same_cfg p' p'' → same_cfg p p''.
Proof. intros [H1 H2] [H3 H4]. split; intros a; [by rewrite H3|by rewrite H4]. Qed.

(** A field of a function's configuration. *)
Definition field_of (c : Z → Z) (b sl f off mask : Z) : Z :=
  Z.land (Z.shiftr (c (cfg_at b sl f (off - off mod 4))) (8 * (off mod 4))) mask.

Lemma field_same c c' b sl f off mask : (∀ a, c' a = c a) → field_of c' b sl f off mask = field_of c b sl f off mask.
Proof. intros H. unfold field_of. by rewrite H. Qed.

Lemma land_low16 off : 0 ≤ off < 256 → Z.land off 0xFFFF = off.
Proof. intros H. change 0xFFFF with (Z.ones 16). rewrite Z.land_ones, Z.mod_small by lia. done. Qed.

Lemma pci_read_byte_run p b sl f off :
  valid b sl f → 0 ≤ off < 256 →
  ∃ p', pci_read_byte b sl f off p = Ok (field_of (cfg p) b sl f off 0xFF, p') ∧ same_cfg p p'.
Proof.
  intros Hv Ho. unfold pci_read_byte. rewrite land_low16 by done.
  destruct (cfg_select_law p (pci_address b sl f off)) as (p' & H & Hs & Hc & Hm).
  exists p'. split; [|by split]. run H. rewrite cfg_inb_law by (rewrite ?Hs; by apply address_enabled || wrap_lia).
  by rewrite Hs, address_register, Hc.
Qed.

Lemma land_even off : 0 ≤ off < 256 → off mod 2 = 0 → Z.land off 0xFFFE = off.
Proof.
  intros H H2. apply Z.bits_inj'. intros n Hn. rewrite Z.land_spec. replace 0xFFFE with (Z.shiftl (Z.ones 15) 1) by done.
  rewrite Z.shiftl_spec by lia. destruct (Z.eqb_spec n 0) as [->|].
  - rewrite <- Z.bit0_mod in H2. destruct (Z.testbit off 0); [done|apply andb_false_l].
  - destruct (Z.ltb_spec n 16); [rewrite Z.ones_spec_low by lia; apply andb_true_r|].
    by rewrite (testbit_high off 8) by lia.
Qed.

Lemma pci_read_word_run p b sl f off :
  valid b sl f → 0 ≤ off < 256 → off mod 2 = 0 →
  ∃ p', pci_read_word b sl f off p = Ok (field_of (cfg p) b sl f off 0xFFFF, p') ∧ same_cfg p p'.
Proof.
  intros Hv Ho H2. unfold pci_read_word. rewrite land_even by done.
  destruct (cfg_select_law p (pci_address b sl f off)) as (p' & H & Hs & Hc & Hm).
  exists p'. split; [|by split]. run H. rewrite cfg_inw_law by (rewrite ?Hs; by apply address_enabled || wrap_lia).
  by rewrite Hs, address_register, Hc.
Qed.

Lemma land_quad off : 0 ≤ off < 256 → off mod 4 = 0 → Z.land off 0xFFFC = off.
Proof.
  intros H H4. replace 0xFFFC with (Z.land 0xFFFE (Z.lnot 2)) by done. rewrite Z.land_assoc, land_even by wrap_lia.
  change (Z.land off (Z.lnot 2)) with (Z.land off (Z.lnot (2 ^ 1))). rewrite <- Z.ldiff_land. apply Z.bits_inj'. intros n Hn.
  rewrite Z.ldiff_spec, Z.pow2_bits_eqb by lia. destruct (Z.eqb_spec 1 n) as [<-|]; [|apply andb_true_r].
  rewrite Z.testbit_odd, Z.shiftr_div_pow2 by lia. rewrite Zodd_mod. replace ((off / 2 ^ 1) mod 2) with 0 by wrap_lia. done.
Qed.

Lemma pci_read_dword_run p b sl f off :
  valid b sl f → 0 ≤ off < 256 → off mod 4 = 0 →
  ∃ p', pci_read_dword b sl f off p = Ok (cfg p (cfg_at b sl f off), p') ∧ same_cfg p p'.
Proof.
  intros Hv Ho H4. unfold pci_read_dword. rewrite land_quad, H4 by done.
  destruct (cfg_select_law p (pci_address b sl f off)) as (p' & H & Hs & Hc & Hm).
  exists p'. split; [|by split]. run H. rewrite cfg_ind_law by (rewrite ?Hs; by apply address_enabled).
  rewrite Hs, address_register, Hc, H4 by done. by rewrite Z.sub_0_r.
Qed.

Lemma cfg_at_bar b sl f off : valid b sl f → 0x10 ≤ off < 0x28 → is_bar (cfg_at b sl f off).
Proof.
  intros (? & ? & ?) Ho. unfold is_bar, cfg_at. change 0xFF with (Z.ones 8). rewrite Z.land_ones by lia.
  replace (b * 65536 + sl * 2048 + f * 256 + off) with (off + (b * 256 + sl * 8 + f) * 2 ^ 8) by lia.
  rewrite Z.mod_add, Z.mod_small by lia. done.
Qed.

Lemma pci_write_dword_run p b sl f off v :
  valid b sl f → 0x10 ≤ off < 0x28 → off mod 4 = 0 → 0 ≤ v < 2 ^ 32 →
  ∃ p', pci_write_dword b sl f off v p = Ok (tt, p') ∧ (∀ a, cfg_mask p' a = cfg_mask p a) ∧
    ∀ a, cfg p' a = if decide (a = cfg_at b sl f off) then write_masked (cfg p a) v (cfg_mask p a) else cfg p a.
Proof.
  intros Hv Ho H4 Hr. unfold pci_write_dword. rewrite land_quad, H4 by lia.
  destruct (cfg_select_law p (pci_address b sl f off)) as (p1 & H & Hs & Hc & Hm).
  assert (register (cfg_sel p1) = cfg_at b sl f off) as Hreg
    by (rewrite Hs, address_register, H4 by (done || lia); by rewrite Z.sub_0_r).
  destruct (cfg_outd_law p1 v) as (p2 & H2 & _ & Hm2 & Hc2).
  - rewrite Hs. apply address_enabled; [done|lia].
  - rewrite Hreg. by apply cfg_at_bar.
  - done.
  - exists p2. split; [by run H|]. split; [intros a; by rewrite Hm2|]. intros a. rewrite Hc2, Hreg, Hc, Hm. done.
Qed.
End pci.

(** ** Sizes *)
Lemma pow2_diff_bits w k i : 0 ≤ k ≤ w → 0 ≤ i → Z.testbit (2 ^ w - 2 ^ k) i = (k <=? i) && (i <? w).
Proof.
  intros Hk Hi. replace (2 ^ w - 2 ^ k) with (Z.shiftl (Z.ones (w - k)) k).
  2:{ rewrite Z.shiftl_mul_pow2, Z.ones_equiv by lia. replace w with ((w - k) + k) at 2 by lia. rewrite Z.pow_add_r by lia. lia. }
  rewrite Z.shiftl_spec by lia. destruct (Z.leb_spec k i); [|by rewrite Z.testbit_neg_r by lia].
  destruct (Z.ltb_spec i w); [by rewrite Z.ones_spec_low by lia|by rewrite Z.ones_spec_high by lia].
Qed.

(** What is read back after all ones were written. *)
Definition probed (old mask : Z) : Z := write_masked old 0xFFFFFFFF mask.

Lemma probed_bit old mask i :
  0 ≤ mask < 2 ^ 32 → 0 ≤ i → Z.testbit (probed old mask) i = Z.testbit mask i || Z.testbit old i.
Proof.
  intros Hm Hi. unfold probed, write_masked. rewrite Z.lor_spec, Z.land_spec, Z.ldiff_spec. change 0xFFFFFFFF with (Z.ones 32).
  destruct (Z.ltb_spec i 32); [rewrite Z.ones_spec_low by lia|rewrite (testbit_high mask 32) by lia];
    destruct (Z.testbit mask i), (Z.testbit old i); rewrite ?andb_false_r; done.
Qed.

Lemma restored old mask v : write_masked (write_masked old v mask) old mask = old.
Proof.
  apply Z.bits_inj'. intros n Hn. unfold write_masked. rewrite !Z.lor_spec, !Z.land_spec, !Z.ldiff_spec, Z.lor_spec, Z.land_spec, Z.ldiff_spec.
  destruct (Z.testbit old n), (Z.testbit mask n), (Z.testbit v n); done.
Qed.

(** The size the code computes from a register that holds [x], with [l] bits
    that are not address and [w] bits that are. *)
Lemma size_bits x l k w :
  0 ≤ l ≤ k → k ≤ w ≤ 64 → (∀ i, l ≤ i < w → Z.testbit x i = (k <=? i)) →
  Z.land (Z.ldiff (Z.ones 64) (Z.ldiff x (Z.ones l))) (Z.ones w) = 2 ^ k - 1.
Proof.
  intros Hl Hk Hx. replace (2 ^ k - 1) with (Z.ones k) by (rewrite Z.ones_equiv; lia).
  apply Z.bits_inj'. intros i Hi. rewrite Z.land_spec, !Z.ldiff_spec.
  destruct (Z.ltb_spec i w); [|rewrite (Z.ones_spec_high w), (Z.ones_spec_high k) by lia; apply andb_false_r].
  rewrite (Z.ones_spec_low 64), (Z.ones_spec_low w) by lia.
  destruct (Z.ltb_spec i l).
  - rewrite (Z.ones_spec_low l), (Z.ones_spec_low k) by lia. by rewrite andb_false_r.
  - rewrite (Z.ones_spec_high l), Hx by lia. destruct (Z.leb_spec k i).
    + by rewrite Z.ones_spec_high by lia.
    + by rewrite Z.ones_spec_low by lia.
Qed.

Lemma ldiff_flags base f l : 0 ≤ l → base mod 2 ^ l = 0 → 0 ≤ f < 2 ^ l → Z.ldiff (base + f) (Z.ones l) = base.
Proof.
  intros Hl Hb Hf. rewrite Z.ldiff_ones_r, Z.shiftl_mul_pow2, Z.shiftr_div_pow2 by lia.
  pose proof (Z.div_mod base (2 ^ l)). pose proof (Z.pow_pos_nonneg 2 l).
  replace (base + f) with (f + base / 2 ^ l * 2 ^ l) by lia. rewrite Z.div_add, (Z.div_small f) by lia. lia.
Qed.

(** Bits below the size of an aligned address. *)
Lemma aligned_bits base f l k i :
  0 ≤ l ≤ i → i < k → base mod 2 ^ k = 0 → 0 ≤ f < 2 ^ l → Z.testbit (base + f) i = false.
Proof.
  intros Hl Hi Hb Hf. pose proof (Z.pow_pos_nonneg 2 k) as Hk. assert (2 ^ l ≤ 2 ^ k) by (apply Z.pow_le_mono_r; lia).
  rewrite <- (Z.mod_pow2_bits_low (base + f) k) by lia.
  rewrite <- Zplus_mod_idemp_l, Hb, Z.add_0_l, Z.mod_small by lia. apply (testbit_high f l); lia.
Qed.

(** ** Base addresses *)
Inductive bar_form := Mem32 | Mem64 | Io.

(** The registers [lo] and [hi] with the writable bits [mlo] and [mhi] are a
    base address register of the form for 2^k bytes at [base]. *)
Definition bar_register (form : bar_form) (k base : Z) (prefetch : bool) (lo hi mlo mhi : Z) : Prop :=
  0 ≤ mlo < 2 ^ 32 ∧ 0 ≤ mhi < 2 ^ 32 ∧ 0 ≤ hi < 2 ^ 32 ∧ base mod 2 ^ k = 0 ∧
  match form with
  | Mem32 => 4 ≤ k ≤ 31 ∧ 0 < base < 2 ^ 32 ∧ lo = base + (if prefetch then 8 else 0) ∧ mlo = 2 ^ 32 - 2 ^ k
  | Mem64 => 4 ≤ k ≤ 63 ∧ 0 ≤ base < 2 ^ 64 ∧ hi * 2 ^ 32 + lo = base + (if prefetch then 12 else 4) ∧
             0 ≤ lo < 2 ^ 32 ∧ mhi * 2 ^ 32 + mlo = 2 ^ 64 - 2 ^ k
  | Io => 2 ≤ k ≤ 15 ∧ 0 ≤ base < 2 ^ 16 ∧ prefetch = false ∧ lo = base + 1 ∧ mlo mod 2 ^ 16 = 2 ^ 16 - 2 ^ k
  end.

Section bars.
Context {P : Type} `{!PciPorts P} `{!PciPortsLaws P}.
Context {S : Type} `{!IoapicDev S}.
Context {V : Type → Type} `{!FrgVector V}.
Notation pci := (pci P S V).
Implicit Types (s : pci) (d : pci_dev).

(** The states differ in the ports only. *)
Definition moved s s' : Prop := s' = set_ports (ports s') s.
Lemma moved_trans s1 s2 s3 : moved s1 s2 → moved s2 s3 → moved s1 s3.
Proof. unfold moved. intros -> ->. done. Qed.

Definition valid_dev d : Prop := valid (d_bus d) (d_slot d) (d_func d).
Definition dev_reg d (off : Z) : Z := cfg_at (d_bus d) (d_slot d) (d_func d) off.
Definition same s s' : Prop := moved s s' ∧ same_cfg (ports s) (ports s').
Lemma same_trans s1 s2 s3 : same s1 s2 → same s2 s3 → same s1 s3.
Proof. intros [H1 H2] [H3 H4]. split; [by eapply moved_trans|by eapply same_cfg_trans]. Qed.

Lemma on_ports_run {A} s (m : M P A) a p' : m (ports s) = Ok (a, p') → on_ports m s = Ok (a, set_ports p' s).
Proof. intros H. unfold on_ports, zoom. by rewrite H. Qed.

Lemma read_dword_run s d off :
  valid_dev d → 0 ≤ off < 256 → off mod 4 = 0 →
  ∃ s', read_dword d off s = Ok (cfg (ports s) (dev_reg d off), s') ∧ same s s'.
Proof.
  intros Hv Ho H4. destruct (pci_read_dword_run (ports s) _ _ _ off Hv Ho H4) as (p' & H & Hc).
  exists (set_ports p' s). split; [by apply on_ports_run|]. by split.
Qed.
Lemma read_byte_run s d off :
  valid_dev d → 0 ≤ off < 256 →
  ∃ s', read_byte d off s = Ok (field_of (cfg (ports s)) (d_bus d) (d_slot d) (d_func d) off 0xFF, s') ∧ same s s'.
Proof.
  intros Hv Ho. destruct (pci_read_byte_run (ports s) _ _ _ off Hv Ho) as (p' & H & Hc).
  exists (set_ports p' s). split; [by apply on_ports_run|]. by split.
Qed.
Lemma read_word_run s d off :
  valid_dev d → 0 ≤ off < 256 → off mod 2 = 0 →
  ∃ s', read_word d off s = Ok (field_of (cfg (ports s)) (d_bus d) (d_slot d) (d_func d) off 0xFFFF, s') ∧ same s s'.
Proof.
  intros Hv Ho H2. destruct (pci_read_word_run (ports s) _ _ _ off Hv Ho H2) as (p' & H & Hc).
  exists (set_ports p' s). split; [by apply on_ports_run|]. by split.
Qed.
Lemma write_dword_run s d off v :
  valid_dev d → 0x10 ≤ off < 0x28 → off mod 4 = 0 → 0 ≤ v < 2 ^ 32 →
  ∃ s', write_dword d off v s = Ok (tt, s') ∧ moved s s' ∧
    (∀ a, cfg_mask (ports s') a = cfg_mask (ports s) a) ∧
    ∀ a, cfg (ports s') a = if decide (a = dev_reg d off) then write_masked (cfg (ports s) a) v (cfg_mask (ports s) a)
                            else cfg (ports s) a.
Proof.
  intros Hv Ho H4 Hr. destruct (pci_write_dword_run (ports s) _ _ _ off v Hv Ho H4 Hr) as (p' & H & Hm & Hc).
  exists (set_ports p' s). split; [by apply on_ports_run|]. by split_and!.
Qed.

(** Writing all ones, reading, and writing back: the value that is read, and
    every register as before. *)
Definition probe d (off old : Z) : M pci Z :=
  write_dword d off 0xFFFFFFFF;; v ← read_dword d off; write_dword d off old;; mret v.

Lemma probe_run s d off :
  valid_dev d → 0x10 ≤ off < 0x28 → off mod 4 = 0 →
  ∃ s', probe d off (cfg (ports s) (dev_reg d off)) s =
    Ok (probed (cfg (ports s) (dev_reg d off)) (cfg_mask (ports s) (dev_reg d off)), s') ∧ same s s'.
Proof.
  intros Hv Ho H4. destruct (write_dword_run s d off 0xFFFFFFFF Hv Ho H4) as (s1 & H1 & M1 & K1 & C1); [lia|].
  destruct (read_dword_run s1 d off Hv) as (s2 & H2 & M2 & C2 & K2); [lia|done|].
  destruct (write_dword_run s2 d off (cfg (ports s) (dev_reg d off)) Hv Ho H4) as (s3 & H3 & M3 & K3 & C3); [apply cfg_range|].
  exists s3. split.
  - unfold probe. run H1. run H2. run H3. rewrite C1, decide_True by done. done.
  - split; [by eapply moved_trans; [|eapply moved_trans]|]. split; intros a.
    + rewrite C3, C2, C1, K2, K1. case_decide as Ha; [|done]. subst a. apply restored.
    + by rewrite K3, K2, K1.
Qed.

Lemma probe_bind {A} s d off old (f : Z → M pci A) :
  (write_dword d off 0xFFFFFFFF;; v ← read_dword d off; write_dword d off old;; f v) s = (probe d off old ≫= f) s.
Proof.
  unfold probe. cbv [mbind M_bind mret M_ret]. destruct (write_dword _ _ _ _) as [[? ?]| | |]; [|done..].
  destruct (read_dword _ _ _) as [[? ?]| | |]; [|done..]. by destruct (write_dword _ _ _ _) as [[? ?]| | |].
Qed.

(** ** Decoding a register *)
Lemma has_low lo f m n : 0 ≤ n → Z.land m (Z.ones n) = m → lo mod 2 ^ n = f → Z.land lo m = Z.land f m.
Proof.
  intros Hn Hm <-. rewrite <- Z.land_ones by done. rewrite <- Hm at 1. by rewrite (Z.land_comm m), Z.land_assoc.
Qed.

Lemma cat_sum hi lo : 0 ≤ lo < 2 ^ 32 → Z.lor (Z.shiftl hi 32) lo = hi * 2 ^ 32 + lo.
Proof. intros H. rewrite Z.shiftl_mul_pow2 by lia. by apply lor_shift. Qed.

Lemma cat_bit hi lo i : 0 ≤ i → 0 ≤ lo < 2 ^ 32 →
  Z.testbit (hi * 2 ^ 32 + lo) i = if i <? 32 then Z.testbit lo i else Z.testbit hi (i - 32).
Proof.
  intros Hi Hlo. rewrite <- cat_sum by done. rewrite Z.lor_spec, Z.shiftl_spec by lia. destruct (Z.ltb_spec i 32).
  - by rewrite Z.testbit_neg_r by lia.
  - rewrite (testbit_high lo 32) by lia. by rewrite orb_false_r.
Qed.

Lemma cat_probed hi lo mhi mlo i :
  0 ≤ mlo < 2 ^ 32 → 0 ≤ mhi < 2 ^ 32 → 0 ≤ lo < 2 ^ 32 → 0 ≤ i →
  Z.testbit (Z.lor (Z.shiftl (probed hi mhi) 32) (probed lo mlo)) i =
    Z.testbit (mhi * 2 ^ 32 + mlo) i || Z.testbit (hi * 2 ^ 32 + lo) i.
Proof.
  intros Hml Hmh Hl Hi. rewrite !cat_bit by done. rewrite Z.lor_spec, Z.shiftl_spec, (probed_bit lo mlo) by lia.
  destruct (Z.ltb_spec i 32).
  - by rewrite Z.testbit_neg_r by lia.
  - rewrite probed_bit by lia. rewrite (testbit_high mlo 32 i), (testbit_high lo 32 i) by lia. by rewrite !orb_false_r.
Qed.

Lemma ldiff_64 y : Z.land (Z.ldiff (Z.ones 64) y) (Z.ones 64) = Z.ldiff (Z.ones 64) y.
Proof.
  apply Z.bits_inj'. intros n Hn. rewrite Z.land_spec, Z.ldiff_spec. by destruct (Z.testbit (Z.ones 64) n), (Z.testbit y n).
Qed.

(** The low bits of an aligned sum are those of the flags. *)
Lemma low_flags base f k l : 0 ≤ l ≤ k → base mod 2 ^ k = 0 → 0 ≤ f < 2 ^ l → (base + f) mod 2 ^ l = f.
Proof.
  intros Hl Hb Hf. pose proof (Z.pow_pos_nonneg 2 l). apply Z.mod_divide in Hb as [q ->]; [|pose proof (Z.pow_pos_nonneg 2 k); lia].
  replace k with (k - l + l) by lia. rewrite Z.pow_add_r by lia.
  replace (q * (2 ^ (k - l) * 2 ^ l) + f) with (f + q * 2 ^ (k - l) * 2 ^ l) by lia.
  rewrite Z.mod_add by lia. by apply Z.mod_small.
Qed.

Lemma size_of base f k l x :
  0 ≤ l ≤ k → k ≤ 64 → base mod 2 ^ k = 0 → 0 ≤ f < 2 ^ l →
  (∀ i, l ≤ i < 64 → Z.testbit x i = (k <=? i) || Z.testbit (base + f) i) →
  Z.ldiff (Z.ones 64) (Z.ldiff x (Z.ones l)) = 2 ^ k - 1.
Proof.
  intros Hl Hk Hb Hf Hx. rewrite <- ldiff_64. apply size_bits; [done|lia|]. intros i Hi. rewrite Hx by done.
  destruct (Z.leb_spec k i); [done|]. apply (aligned_bits base f l k); lia.
Qed.

Definition form_type (form : bar_form) : bar_type := match form with Io => bar_io | _ => bar_mmio end.

Lemma lo_decode form k base pf lo hi mlo mhi :
  bar_register form k base pf lo hi mlo mhi → 0 ≤ lo < 2 ^ 32 →
  (lo =? 0) = false ∧ negb (has lo 1) = (match form with Io => false | _ => true end) ∧
  (negb (has lo 1) && has lo 8) = pf ∧
  (negb (has lo 1) && (Z.land lo 6 =? 4)) = (match form with Mem64 => true | _ => false end).
Proof.
  intros (_ & _ & _ & Hb & Hform) Hlo. destruct form.
  - destruct Hform as (Hk & Hbase & -> & _). assert ((base + (if pf then 8 else 0)) mod 2 ^ 4 = if pf then 8 else 0) as Hlow
      by (apply (low_flags base _ k); [lia|done|destruct pf; lia]).
    unfold has. rewrite (has_low _ _ 1 4 ltac:(lia) eq_refl Hlow), (has_low _ _ 8 4 ltac:(lia) eq_refl Hlow), (has_low _ _ 6 4 ltac:(lia) eq_refl Hlow).
    destruct pf; (split; [apply Z.eqb_neq; lia|done]).
  - destruct Hform as (Hk & Hbase & Hsum & _ & _). assert (lo mod 2 ^ 4 = if pf then 12 else 4) as Hlow.
    { rewrite <- (low_flags base (if pf then 12 else 4) k 4), <- Hsum; [|lia|done|destruct pf; lia].
      replace (hi * 2 ^ 32 + lo) with (lo + hi * 2 ^ 28 * 2 ^ 4) by lia. by rewrite Z.mod_add by lia. }
    unfold has. rewrite (has_low _ _ 1 4 ltac:(lia) eq_refl Hlow), (has_low _ _ 8 4 ltac:(lia) eq_refl Hlow), (has_low _ _ 6 4 ltac:(lia) eq_refl Hlow).
    destruct pf; (split; [apply Z.eqb_neq; intros ->; by vm_compute in Hlow|done]).
  - destruct Hform as (Hk & Hbase & -> & -> & _). assert ((base + 1) mod 2 ^ 2 = 1) as Hlow
      by (apply (low_flags base _ k); [lia|done|lia]).
    unfold has. rewrite (has_low _ _ 1 2 ltac:(lia) eq_refl Hlow). split; [apply Z.eqb_neq; lia|done].
Qed.

Lemma lo_base form k base pf lo hi mlo mhi :
  bar_register form k base pf lo hi mlo mhi → 0 ≤ lo < 2 ^ 32 →
  match form with
  | Mem32 => Z.ldiff (Z.lor (Z.shiftl 0 32) lo) 0xF = base
  | Mem64 => Z.ldiff (Z.lor (Z.shiftl hi 32) lo) 0xF = base
  | Io => Z.land (Z.ldiff (Z.lor (Z.shiftl 0 32) lo) 0x3) 0xFFFF = base
  end.
Proof.
  intros (_ & _ & _ & Hb & Hform) Hlo.
  assert (∀ l, 0 ≤ l ≤ k → base mod 2 ^ l = 0) as Hmod.
  { intros l Hl. pose proof (low_flags base 0 k l Hl Hb) as E. rewrite Z.add_0_r in E. apply E.
    pose proof (Z.pow_pos_nonneg 2 l). lia. }
  destruct form; rewrite ?Z.shiftl_0_l, ?Z.lor_0_l.
  - destruct Hform as (Hk & Hbase & -> & _). apply (ldiff_flags _ _ 4); [done|apply Hmod; lia|destruct pf; lia].
  - destruct Hform as (Hk & Hbase & Hsum & _). rewrite cat_sum, Hsum by done.
    apply (ldiff_flags _ _ 4); [done|apply Hmod; lia|destruct pf; lia].
  - destruct Hform as (Hk & Hbase & -> & -> & _). change 0x3 with (Z.ones 2). rewrite ldiff_flags by (lia || (apply Hmod; lia)).
    change 0xFFFF with (Z.ones 16). rewrite Z.land_ones, Z.mod_small by lia. done.
Qed.

Lemma lo_size form k base pf lo hi mlo mhi :
  bar_register form k base pf lo hi mlo mhi → 0 ≤ lo < 2 ^ 32 →
  match form with
  | Mem32 => Z.ldiff (Z.ones 64) (Z.ldiff (Z.lor (Z.shiftl 0xFFFFFFFF 32) (probed lo mlo)) 0xF)
  | Mem64 => Z.ldiff (Z.ones 64) (Z.ldiff (Z.lor (Z.shiftl (probed hi mhi) 32) (probed lo mlo)) 0xF)
  | Io => Z.land (Z.ldiff (Z.ones 64) (Z.ldiff (Z.lor (Z.shiftl 0xFFFFFFFF 32) (probed lo mlo)) 0x3)) 0xFFFF
  end = 2 ^ k - 1.
Proof.
  intros (Hml & Hmh & Hhi & Hb & Hform) Hlo.
  change 0xFFFFFFFF with (probed 0xFFFFFFFF 0xFFFFFFFF). destruct form.
  - destruct Hform as (Hk & Hbase & Hsum & Hm). apply (size_of base (if pf then 8 else 0) k 4); [lia|lia|done|destruct pf; lia|].
    intros i Hi. rewrite cat_probed by lia. rewrite !cat_bit by lia. rewrite <- Hsum. destruct (Z.ltb_spec i 32).
    + rewrite Hm, pow2_diff_bits by lia. destruct (Z.ltb_spec i 32); [by rewrite andb_true_r|lia].
    + change 0xFFFFFFFF with (Z.ones 32). rewrite Z.ones_spec_low by lia. destruct (Z.leb_spec k i); [done|lia].
  - destruct Hform as (Hk & Hbase & Hsum & _ & Hm). apply (size_of base (if pf then 12 else 4) k 4); [lia|lia|done|destruct pf; lia|].
    intros i Hi. rewrite cat_probed, Hsum, Hm, pow2_diff_bits by lia. destruct (Z.ltb_spec i 64); [by rewrite andb_true_r|lia].
  - destruct Hform as (Hk & Hbase & _ & Hsum & Hm). apply (size_bits _ 2 k 16); [lia|lia|]. intros i Hi.
    rewrite cat_probed by lia. rewrite !cat_bit by lia. destruct (Z.ltb_spec i 32); [|lia].
    rewrite <- (Z.mod_pow2_bits_low mlo 16), Hm, pow2_diff_bits by lia. destruct (Z.ltb_spec i 16); [rewrite andb_true_r|lia].
    destruct (Z.leb_spec k i); [done|]. rewrite Hsum. apply (aligned_bits base 1 1 k); lia.
Qed.

(** Reading a base address: for a register of each form the result is the
    address the register holds and the prefetch bit, and every register of
    every device is as before. The length is one less than the size of the
    window. *)
Theorem fetch_bar_spec s p d bar form k base pf :
  dev_objs s !! p = Some d → valid_dev d → Z.land (d_header_type d) 0x7F = 0 →
  0 ≤ bar < (match form with Mem64 => 5 | _ => 6 end) →
  let lo := dev_reg d (0x10 + bar * 4) in let hi := dev_reg d (0x10 + bar * 4 + 4) in
  bar_register form k base pf (cfg (ports s) lo) (cfg (ports s) hi) (cfg_mask (ports s) lo) (cfg_mask (ports s) hi) →
  ∃ s', fetch_bar p bar s = Ok (Some (PciBar (form_type form) base (2 ^ k - 1) pf), s') ∧ same s s'.
Proof.
  intros Hd Hv Hh Hbar lo hi Hreg. pose proof (cfg_range (ports s) lo) as Hlo.
  destruct (lo_decode _ _ _ _ _ _ _ _ Hreg Hlo) as (Hnz & Hmm & Hpf & H64).
  pose proof (lo_base _ _ _ _ _ _ _ _ Hreg Hlo) as Hb. pose proof (lo_size _ _ _ _ _ _ _ _ Hreg Hlo) as Hsz.
  set (off := 0x10 + bar * 4) in *.
  assert (u16 (reg_bar0_off + bar * 4) = off) as Eoff by (apply Z.mod_small; unfold reg_bar0_off; destruct form; lia).
  assert (off mod 4 = 0 ∧ 0x10 ≤ off < 0x28) as [Ho4 Hor] by (unfold off; destruct form; wrap_lia).
  destruct (read_dword_run s d off Hv) as (s1 & H1 & M1 & C1 & K1); [lia|done|]. fold lo in H1.
  assert (get_dev p s = Ok (d, s)) as Hget by (unfold get_dev; cbv [mbind M_bind get_st lift access]; by rewrite Hd).
  unfold fetch_bar. run Hget. assert (has (d_header_type d) 0x7F = false) as -> by (unfold has; by rewrite Hh). cbv iota zeta. rewrite Eoff. run H1. rewrite Hnz. cbv iota zeta.
  rewrite Hpf, H64, Hmm.
  (* the lower register *)
  assert (∀ s2 A (f : Z → M pci A), same s s2 →
    ∃ s3, same s s3 ∧ (write_dword d off 0xFFFFFFFF;; v ← read_dword d off; write_dword d off (cfg (ports s) lo);; f v) s2 =
      f (probed (cfg (ports s) lo) (cfg_mask (ports s) lo)) s3) as Hprobe.
  { intros s2 A f [M2 [C2 K2]]. destruct (probe_run s2 d off Hv Hor Ho4) as (s3 & H3 & S3). fold lo in H3. rewrite C2, K2 in H3.
    exists s3. split; [by eapply same_trans|]. rewrite probe_bind. by run H3. }
  assert (same s s1) as S1 by by split. destruct form; cbn [negb andb] in *; cbv iota.
  - erewrite bind_run; [|reflexivity].
    destruct (Hprobe s1 _ (λ v, size_hi ← mret 0xFFFFFFFF; mret (Some (PciBar bar_mmio
      (Z.ldiff (Z.lor (Z.shiftl 0 32) (cfg (ports s) lo)) 0xF)
      (Z.ldiff (Z.ones 64) (Z.ldiff (Z.lor (Z.shiftl size_hi 32) v) 0xF)) pf))) S1) as (s3 & S3 & E).
    exists s3. split; [|exact S3]. rewrite E. cbv [mbind M_bind mret M_ret]. by rewrite Hb, Hsz.
  - assert (u16 (off + 4) = off + 4) as Eoff4 by (apply Z.mod_small; lia). rewrite Eoff4.
    destruct (read_dword_run s1 d (off + 4) Hv) as (s2 & H2 & S2); [lia|wrap_lia|].
    change (dev_reg d (off + 4)) with hi in H2. rewrite C1 in H2. run H2.
    destruct (Hprobe s2 _ (λ v, size_hi ← (write_dword d (off + 4) 0xFFFFFFFF;; h ← read_dword d (off + 4);
        write_dword d (off + 4) (cfg (ports s) hi);; mret h);
      mret (Some (PciBar bar_mmio
      (Z.ldiff (Z.lor (Z.shiftl (cfg (ports s) hi) 32) (cfg (ports s) lo)) 0xF)
      (Z.ldiff (Z.ones 64) (Z.ldiff (Z.lor (Z.shiftl size_hi 32) v) 0xF)) pf))) (same_trans _ _ _ S1 S2)) as (s3 & S3 & E).
    pose proof S3 as [_ [C3 K3]]. destruct (probe_run s3 d (off + 4) Hv) as (s4 & H4 & S4); [unfold off in *; lia|wrap_lia|].
    change (dev_reg d (off + 4)) with hi in H4. rewrite C3, K3 in H4. unfold probe in H4.
    exists s4. split; [|by eapply same_trans]. rewrite E. run H4. cbv [mret M_ret]. by rewrite Hb, Hsz.
  - erewrite bind_run; [|reflexivity].
    destruct (Hprobe s1 _ (λ v, size_hi ← mret 0xFFFFFFFF; mret (Some (PciBar bar_io
      (Z.land (Z.ldiff (Z.lor (Z.shiftl 0 32) (cfg (ports s) lo)) 0x3) 0xFFFF)
      (Z.land (Z.ldiff (Z.ones 64) (Z.ldiff (Z.lor (Z.shiftl size_hi 32) v) 0x3)) 0xFFFF) pf))) S1) as (s3 & S3 & E).
    exists s3. split; [|exact S3]. rewrite E. cbv [mbind M_bind mret M_ret]. by rewrite Hb, Hsz.
Qed.
End bars.

(** ** A machine with a bridge and a device behind it *)
Module Demo.
Import Frigg.Instances.

Record ports_demo := PortsDemo { q_sel : Z; q_regs : Z → Z }.
Definition demo_mask : Z := 2 ^ 32 - 2 ^ 16.
Definition demo_enabled (p : ports_demo) : bool := Z.testbit (q_sel p) 31.
Definition demo_value (p : ports_demo) : Z := u32 (q_regs p (register (q_sel p))).

#[export] Instance ports_demo_ports : PciPorts ports_demo := {|
  p_outb _ _ := λ _, Fault;
  p_outw _ _ := λ _, Fault;
  p_outd port v := λ p,
    if port =? 0xCF8 then Ok (tt, PortsDemo v (q_regs p))
    else if demo_enabled p then
      Ok (tt, PortsDemo (q_sel p) (λ a, if decide (a = register (q_sel p)) then write_masked (demo_value p) v demo_mask else q_regs p a))
    else Fault;
  p_inb port := λ p, if demo_enabled p then Ok (Z.land (Z.shiftr (demo_value p) (8 * (port - 0xCFC))) 0xFF, p) else Fault;
  p_inw port := λ p, if demo_enabled p then Ok (Z.land (Z.shiftr (demo_value p) (8 * (port - 0xCFC))) 0xFFFF, p) else Fault;
  p_ind port := λ p, if demo_enabled p then Ok (demo_value p, p) else Fault;
  cfg_sel := q_sel;
  cfg p a := u32 (q_regs p a);
  cfg_mask _ _ := demo_mask;
|}.

Lemma write_masked_u32 old v m : 0 ≤ old < 2 ^ 32 → 0 ≤ v < 2 ^ 32 → u32 (write_masked old v m) = write_masked old v m.
Proof.
  intros Ho Hv. unfold u32, write_masked. rewrite <- Z.land_ones by lia. apply Z.bits_inj'. intros n Hn.
  rewrite Z.land_spec. destruct (Z.ltb_spec n 32); [by rewrite Z.ones_spec_low, andb_true_r by lia|].
  rewrite Z.lor_spec, Z.land_spec, Z.ldiff_spec, (testbit_high v 32 n), (testbit_high old 32 n) by lia.
  by rewrite andb_false_l.
Qed.

#[export] Instance ports_demo_laws : PciPortsLaws ports_demo.
Proof.
  split; cbn [p_outd p_inb p_inw p_ind cfg_sel cfg cfg_mask ports_demo_ports]; unfold demo_enabled.
  - intros p v. by eexists.
  - intros p ->. done.
  - intros p k -> Hk. do 3 f_equal. replace (0xCFC + k - 0xCFC) with k by lia. done.
  - intros p k -> Hk. do 3 f_equal. replace (0xCFC + k - 0xCFC) with k by lia. done.
  - intros p v -> _ Hv. eexists. split; [reflexivity|]. do 2 (split; [done|]). intros a. cbn [q_regs].
    case_decide as Ha; [|done]. subst a. unfold demo_value. apply write_masked_u32; [apply u32_range|done].
  - intros p a. apply u32_range.
Qed.

(** A bridge to bus 1 in slot 1, a device in slot 0 of bus 1 with 64 KiB of
    memory at 0xFEBC0000. *)
Definition demo_cfg (a : Z) : Z :=
  if a =? cfg_at 0 1 0 0x00 then 0x24488086
  else if a =? cfg_at 0 1 0 0x08 then 0x06040000
  else if a =? cfg_at 0 1 0 0x18 then 0x00010100
  else if a =? cfg_at 1 0 0 0x00 then 0x100E8086
  else if a =? cfg_at 1 0 0 0x08 then 0x02000000
  else if a =? cfg_at 1 0 0 0x0C then 0x00000000
  else if a =? cfg_at 1 0 0 0x10 then 0xFEBC0000
  else 0xFFFFFFFF.
Definition demo_dev : pci_dev := PciDev 1 1 0 0 0x8086 0x100E 2 0 0 0 false 0 1 0 0.
Definition demo_bus : pci_bus list := PciBus 0 0 [] 0 false false 16 [].
Definition demo_pci : pci ports_demo Z list :=
  Pci (PortsDemo 0 demo_cfg) (Apic 0 (Madt [] [] [] [])) {[ 2 := demo_dev ]}
    {[ 1 := demo_bus ]} 3 [] [].

Lemma fetch_bar_spec_witness :
  0 ≤ 0 < 6 ∧
  ∃ s', fetch_bar 2 0 demo_pci = Ok (Some (PciBar bar_mmio 0xFEBC0000 0xFFFF false), s') ∧ same demo_pci s'.
Proof.
  split; [lia|]. apply (fetch_bar_spec demo_pci 2 demo_dev 0 Mem32 16 0xFEBC0000 false).
  - done.
  - repeat split; done.
  - done.
  - done.
  - repeat split; done.
Defined.
End Demo.
