(* ===== verification/PciEnum.v ===== *)
(** * Enumeration of the PCI buses (Pci.v)

    The devices that [enumerate] finds are those a walk over the
    configuration space finds, which is a function of the registers alone. *)
From S2P Require Import Prelude Frigg Pmm Apic Pci PciProps.
From stdpp Require Import base numbers option gmap list.
#[local] Open Scope Z_scope.

(** ** The walk *)
Definition exists_at (c : Z → Z) (b sl f : Z) : bool := negb (field_of c b sl f reg_vendor 0xFFFF =? 0xFFFF).
Definition bridge_at (c : Z → Z) (b sl f : Z) : bool :=
  (field_of c b sl f reg_base_class 0xFF =? 6) && (field_of c b sl f reg_sub_class 0xFF =? 4).
Definition sec_at (c : Z → Z) (b sl f : Z) : Z := field_of c b sl f reg_sec_bus 0xFF.

(** Depth first, what is behind a bridge before the bridge. *)
Fixpoint found (c : Z → Z) (n : nat) (b : Z) : list (Z * Z * Z) :=
  match n with
  | O => []
  | S n' => functions ≫= λ '(sl, f),
      if exists_at c b sl f then
        (if bridge_at c b sl f then found c n' (sec_at c b sl f) else []) ++ [(b, sl, f)]
      else []
  end.

(** Bridges lead to buses with higher numbers, as firmware numbers them. *)
Definition numbered (c : Z → Z) : Prop :=
  ∀ b sl f, valid b sl f → exists_at c b sl f = true → bridge_at c b sl f = true → b < sec_at c b sl f.

Lemma field_byte c b sl f off : 0 ≤ field_of c b sl f off 0xFF < 256.
Proof. unfold field_of. change 0xFF with (Z.ones 8). rewrite Z.land_ones by lia. apply Z.mod_pos_bound. lia. Qed.

Lemma functions_valid sl f : (sl, f) ∈ functions → 0 ≤ sl < 32 ∧ 0 ≤ f < 8.
Proof.
  unfold functions. intros (x & Hf & Hx)%list_elem_of_bind. apply list_elem_of_fmap in Hf as (y & [= -> ->] & Hy).
  apply elem_of_seqZ in Hx, Hy. lia.
Qed.

Section enum.
Context {P : Type} `{!PciPorts P} `{!PciPortsLaws P}.
Context {S : Type} `{!IoapicDev S}.
Context {V : Type → Type} `{!FrgVector V} `{!FrgVectorLaws V}.
Context (junk_dev : Z → pci_dev) (junk_bus : Z → pci_bus V).
Context (lai_pci_find_device : Z → Z → Z → Z).
Notation pci := (pci P S V).
Implicit Types (s : pci) (d : pci_dev) (b : pci_bus V).

(** Pointers are older than the next one; a bus without a bus above it has a
    node, another bus has a bus above that is older and a device. *)
Record bus_ok s p b : Prop := {
  bus_number : 0 ≤ b_bus b < 256;
  bus_ptr : 0 < p < next_ptr s;
  bus_root : b_parent b = 0 → b_acpi_node b ≠ 0;
  bus_above : b_parent b ≠ 0 →
    b_parent b < p ∧ is_Some (bus_objs s !! b_parent b) ∧ b_device b ≠ 0 ∧ is_Some (dev_objs s !! b_device b);
}.
Record pci_ok s : Prop := {
  ok_next : 0 < next_ptr s;
  ok_dev p d : dev_objs s !! p = Some d → 0 < p < next_ptr s;
  ok_bus p b : bus_objs s !! p = Some b → bus_ok s p b;
}.

(** ** The device a node is looked up for *)
Record nodes_only s s' : Prop := {
  nodes_rest : s' = set_bus_objs (bus_objs s') s;
  nodes_bus q : match bus_objs s !! q with
                | Some b => ∃ n, bus_objs s' !! q = Some (with_node n b) ∧ (b_acpi_node b ≠ 0 → n = b_acpi_node b)
                | None => bus_objs s' !! q = None
                end;
}.

Lemma with_node_id b : with_node (b_acpi_node b) b = b.
Proof. by destruct b. Qed.

Lemma nodes_refl s : nodes_only s s.
Proof.
  split; [by destruct s|]. intros q. destruct (bus_objs s !! q) as [b|]; [|done].
  exists (b_acpi_node b). by rewrite with_node_id.
Qed.

Lemma nodes_ok s s' : nodes_only s s' → pci_ok s → pci_ok s'.
Proof.
  intros [E H] [Hn Hd Hb]. assert (next_ptr s' = next_ptr s ∧ dev_objs s' = dev_objs s) as [En Ed] by (rewrite E; done).
  split; rewrite ?En, ?Ed; [done..|]. intros p b' Hp. specialize (H p) as Hp'.
  destruct (bus_objs s !! p) as [b|] eqn:Eb; [|congruence]. destruct Hp' as (n & Hn' & Hk). rewrite Hp in Hn'. injection Hn' as ->.
  destruct (Hb p b Eb) as [H1 H2 H3 H4]. split; cbn; rewrite ?En, ?Ed; [done..| |].
  - intros Hr. rewrite (Hk (H3 Hr)). by apply H3.
  - intros Hr. destruct (H4 Hr) as (Hlt & [bq Hq] & Hrest). split; [done|]. split; [|done].
    specialize (H (b_parent b)). rewrite Hq in H. destruct H as (m & Hm & _). by eexists.
Qed.

Lemma get_bus_run s p b : bus_objs s !! p = Some b → get_bus p s = Ok (b, s).
Proof. intros H. unfold get_bus. cbv [mbind M_bind get_st lift access]. by rewrite H. Qed.
Lemma get_dev_run s p d : dev_objs s !! p = Some d → get_dev p s = Ok (d, s).
Proof. intros H. unfold get_dev. cbv [mbind M_bind get_st lift access]. by rewrite H. Qed.

Lemma find_node_run fuel s p b :
  pci_ok s → bus_objs s !! p = Some b → p < Z.of_nat fuel →
  ∃ s', find_node lai_pci_find_device fuel p s = Ok (tt, s') ∧ nodes_only s s'.
Proof.
  revert s p b. induction fuel as [|fuel IH]; intros s p b Hok Hb Hp; [pose proof (bus_ptr _ _ _ (ok_bus _ Hok _ _ Hb)); lia|].
  cbn [find_node]. run (get_bus_run s p b Hb). destruct (ok_bus _ Hok _ _ Hb) as [_ Hptr Hroot Habove].
  destruct (Z.eqb_spec (b_acpi_node b) 0) as [Hz|Hz]; cbn [negb]; [|exists s; by split; [|apply nodes_refl]].
  destruct (Z.eqb_spec (b_parent b) 0) as [Hpar|Hpar]; [by apply Hroot in Hpar|].
  destruct (Habove Hpar) as (Hlt & [pb Hpb] & Hdev & [d Hd]).
  destruct (IH s (b_parent b) pb Hok Hpb) as (s1 & H1 & N1); [lia|]. run H1. pose proof N1 as [E1 Hn1].
  specialize (Hn1 (b_parent b)) as Hpb1. rewrite Hpb in Hpb1. destruct Hpb1 as (n & Hpb1 & _). run (get_bus_run _ _ _ Hpb1).
  cbn [b_acpi_node with_node]. destruct (Z.eqb_spec n 0); [exists s1; by split|].
  destruct (Z.eqb_spec (b_device b) 0); [done|]. cbn [negb assertion]. erewrite bind_run; [|reflexivity].
  assert (dev_objs s1 !! b_device b = Some d) as Hd1 by (rewrite E1; exact Hd). run (get_dev_run _ _ _ Hd1).
  specialize (Hn1 p). rewrite Hb in Hn1. destruct Hn1 as (m & Hb1 & _). run (get_bus_run _ _ _ Hb1).
  eexists. split; [reflexivity|]. split; [rewrite E1; by cbn|]. intros q. cbn. pose proof (nodes_bus _ _ N1 q) as Hq.
  destruct (decide (q = p)) as [->|Hne]; [|by rewrite lookup_insert_ne].
  rewrite Hb, lookup_insert_eq. eexists. split; [reflexivity|]. done.
Qed.

(** ** A device *)
Definition described (c : Z → Z) d : pci_dev :=
  let f := field_of c (d_bus d) (d_slot d) (d_func d) in
  PciDev (d_parent d) (d_bus d) (d_slot d) (d_func d) (f reg_vendor 0xFFFF) (f reg_device 0xFFFF) (f reg_base_class 0xFF)
    (f reg_sub_class 0xFF) (f reg_prog_if 0xFF) (f reg_header_type 0xFF) (has (f reg_header_type 0xFF) 0x80)
    (f reg_sec_bus 0xFF) (f reg_irq_pin 0xFF) 0 0.

Definition has_cfg (c : Z → Z) s : Prop := ∀ a, cfg (ports s) a = c a.

Lemma same_has_cfg c s s' : same s s' → has_cfg c s → has_cfg c s'.
Proof. intros [_ [Hc _]] H a. by rewrite Hc. Qed.

Lemma same_dev s s' p : same s s' → dev_objs s' !! p = dev_objs s !! p.
Proof. intros [-> _]. done. Qed.

Lemma byte_field c s d off :
  has_cfg c s → valid_dev d → 0 ≤ off < 256 →
  ∃ s', read_byte d off s = Ok (field_of c (d_bus d) (d_slot d) (d_func d) off 0xFF, s') ∧ same s s' ∧ has_cfg c s'.
Proof.
  intros Hc Hv Ho. destruct (read_byte_run s d off Hv Ho) as (s' & H & Hs). exists s'.
  rewrite H. split; [by rewrite (field_same c _ _ _ _ _ _ Hc)|]. split; [done|by eapply same_has_cfg].
Qed.
Lemma word_field c s d off :
  has_cfg c s → valid_dev d → 0 ≤ off < 256 → off mod 2 = 0 →
  ∃ s', read_word d off s = Ok (field_of c (d_bus d) (d_slot d) (d_func d) off 0xFFFF, s') ∧ same s s' ∧ has_cfg c s'.
Proof.
  intros Hc Hv Ho H2. destruct (read_word_run s d off Hv Ho H2) as (s' & H & Hs). exists s'.
  rewrite H. split; [by rewrite (field_same c _ _ _ _ _ _ Hc)|]. split; [done|by eapply same_has_cfg].
Qed.

Lemma dev_exists_run c s q d :
  has_cfg c s → dev_objs s !! q = Some d → valid_dev d →
  ∃ s', dev_exists q s = Ok (exists_at c (d_bus d) (d_slot d) (d_func d), s') ∧ same s s' ∧ has_cfg c s'.
Proof.
  intros Hc Hd Hv. destruct (word_field c s d reg_vendor Hc Hv) as (s' & H & Hs & Hc'); [done..|].
  exists s'. split; [|done]. unfold dev_exists. run (get_dev_run s q d Hd). by run H.
Qed.

Lemma dev_init_run c s q d :
  has_cfg c s → dev_objs s !! q = Some d → valid_dev d → exists_at c (d_bus d) (d_slot d) (d_func d) = true →
  ∃ s', dev_init q s = Ok (tt, set_dev_objs (<[q := described c d]> (dev_objs s')) s') ∧ same s s'.
Proof.
  intros Hc Hd Hv He. destruct (dev_exists_run c s q d Hc Hd Hv) as (s1 & H1 & S1 & C1). rewrite He in H1.
  assert (dev_objs s1 !! q = Some d) as Hd1 by by rewrite (same_dev _ _ _ S1).
  destruct (word_field c s1 d reg_vendor C1 Hv) as (s2 & H2 & S2 & C2); [done..|].
  destruct (word_field c s2 d reg_device C2 Hv) as (s3 & H3 & S3 & C3); [done..|].
  destruct (byte_field c s3 d reg_base_class C3 Hv) as (s4 & H4 & S4 & C4); [done|].
  destruct (byte_field c s4 d reg_sub_class C4 Hv) as (s5 & H5 & S5 & C5); [done|].
  destruct (byte_field c s5 d reg_prog_if C5 Hv) as (s6 & H6 & S6 & C6); [done|].
  destruct (byte_field c s6 d reg_header_type C6 Hv) as (s7 & H7 & S7 & C7); [done|].
  destruct (byte_field c s7 d reg_irq_pin C7 Hv) as (s8 & H8 & S8 & C8); [done|].
  destruct (byte_field c s8 d reg_sec_bus C8 Hv) as (s9 & H9 & S9 & C9); [done|].
  exists s9. split.
  - unfold dev_init. run H1. run (get_dev_run s1 q d Hd1). run H2. run H3. run H4. run H5. run H6. run H7. run H8. by run H9.
  - do 8 (eapply same_trans; [eassumption|]). done.
Qed.

(** ** Growth *)

(** The state after a part of the walk: the registers are the same, devices
    and buses that were there are there, and the list of devices has grown by
    the described devices at the places [l]. *)
Record grew (c : Z → Z) s s' (l : list (Z * Z * Z)) : Prop := {
  grew_ok : pci_ok s';
  grew_cfg : has_cfg c s';
  grew_next : next_ptr s ≤ next_ptr s';
  grew_old q d : dev_objs s !! q = Some d → dev_objs s' !! q = Some d;
  grew_bus q b : bus_objs s !! q = Some b → ∃ b', bus_objs s' !! q = Some b' ∧ b_bus b' = b_bus b;
  grew_new : ∃ ps, vec_elems (devices s') = vec_elems (devices s) ++ ps ∧
    Forall2 (λ p x, ∃ d, dev_objs s' !! p = Some (described c d) ∧ (d_bus d, d_slot d, d_func d) = x) ps l;
}.

Lemma grew_refl c s : pci_ok s → has_cfg c s → grew c s s [].
Proof. intros Hok Hc. split; [done|done|lia|done|eauto|]. exists []. split; [by rewrite app_nil_r|constructor]. Qed.

Lemma grew_trans c s1 s2 s3 l k : grew c s1 s2 l → grew c s2 s3 k → grew c s1 s3 (l ++ k).
Proof.
  intros [_ _ Hn Ho Hb (ps & Hp & Hf)] [Hok Hc Hn2 Ho2 Hb2 (ps2 & Hp2 & Hf2)]. split; [done|done|lia|auto| |].
  - intros q b Hq. destruct (Hb q b Hq) as (b2 & Hq2 & E2). destruct (Hb2 q b2 Hq2) as (b3 & Hq3 & E3).
    exists b3. split; [done|congruence].
  - exists (ps ++ ps2). split; [by rewrite Hp2, Hp, app_assoc|]. apply Forall2_app; [|done].
    eapply Forall2_impl; [exact Hf|]. intros p x (d & Hd & Hx). exists d. split; [by apply Ho2|done].
Qed.

(** What [pci_ok] and the devices' registers depend on. *)
Lemma same_ok s s' : same s s' → pci_ok s → pci_ok s'.
Proof.
  intros [E _] [Hn Hd Hb]. split; rewrite E; [done..|]. intros p b Hp. destruct (Hb p b Hp). by split.
Qed.

Lemma same_grew c s s' : pci_ok s → has_cfg c s → same s s' → grew c s s' [].
Proof.
  intros Hok Hc Hs. pose proof Hs as [E _].
  split; [by eapply same_ok|by eapply same_has_cfg|rewrite E; done|rewrite E; done|rewrite E; eauto|].
  exists []. split; [rewrite E; by rewrite app_nil_r|constructor].
Qed.

Lemma grew_push c s s' l q d :
  grew c s s' l → dev_objs s' !! q = Some (described c d) →
  grew c s (set_devices (vec_push (devices s') q) s') (l ++ [(d_bus d, d_slot d, d_func d)]).
Proof.
  intros H Hd. eapply grew_trans; [exact H|]. destruct H as [Hok Hc _ _ _ _].
  split; cbn; [|done|lia|done|eauto|].
  - destruct Hok as [Hn Hdv Hb]. split; cbn; [done..|]. intros p b Hp. destruct (Hb p b Hp). by split.
  - exists [q]. split; [apply vec_push_elems|]. constructor; [|constructor]. by exists d.
Qed.

Lemma grew_pci_buses c s s' l v : grew c s s' l → grew c s (set_pci_buses v s') l.
Proof.
  intros [Hok Hc Hn Ho Hb Hnew]. split; [|done..]. destruct Hok as [? ? Hbb]. split; [done..|].
  intros p b Hp. destruct (Hbb p b Hp). by split.
Qed.

Lemma described_parent c x d : put_parent x (described c d) = described c (put_parent x d).
Proof. done. Qed.

(** *** Objects *)
Definition add_dev (d : pci_dev) s : pci := set_dev_objs (<[next_ptr s := d]> (dev_objs s)) (set_next_ptr (next_ptr s + 1) s).
Definition add_bus b s : pci := set_bus_objs (<[next_ptr s := b]> (bus_objs s)) (set_next_ptr (next_ptr s + 1) s).

Lemma ports_grew c s x : pci_ok s → has_cfg c (set_ports x s) → grew c s (set_ports x s) [].
Proof.
  intros [Hn Hd Hb] Hc. split; [|done|done|done|eauto|].
  - split; [done..|]. intros p b Hp. destruct (Hb p b Hp). by split.
  - exists []. split; [by rewrite app_nil_r|constructor].
Qed.

Lemma next_grew c s : pci_ok s → has_cfg c s → grew c s (set_next_ptr (next_ptr s + 1) s) [].
Proof.
  intros [Hn Hd Hb] Hc. split; [|done|cbn; lia|done|eauto|].
  - split; cbn; [lia|intros p d Hp; apply Hd in Hp; lia|]. intros p b Hp. destruct (Hb p b Hp). split; [done|cbn; lia|done..].
  - exists []. split; [by rewrite app_nil_r|constructor].
Qed.

Lemma add_dev_grew c s d : pci_ok s → has_cfg c s → grew c s (add_dev d s) [].
Proof.
  intros [Hn Hd Hb] Hc.
  assert (∀ q x, dev_objs s !! q = Some x → dev_objs (add_dev d s) !! q = Some x) as Hold.
  { intros q x Hq. cbn. rewrite lookup_insert_ne; [done|]. apply Hd in Hq. lia. }
  split; [|done|cbn; lia|exact Hold|eauto|].
  - split; cbn; [lia| |].
    + intros q x [[<- _]|[_ Hq]]%lookup_insert_Some; [lia|]. apply Hd in Hq. lia.
    + intros q x Hq. destruct (Hb q x Hq) as [G1 G2 G3 G4]. split; [done|cbn; lia|done|].
      intros Hpar. destruct (G4 Hpar) as (L & I & D & [z Hz]). repeat split; [done..|]. eexists. by apply Hold.
  - exists []. split; [by rewrite app_nil_r|constructor].
Qed.

Lemma put_bus_grew c s p b b' :
  pci_ok s → has_cfg c s → bus_objs s !! p = Some b →
  b_parent b' = b_parent b → b_device b' = b_device b → b_bus b' = b_bus b → b_acpi_node b' = b_acpi_node b →
  grew c s (set_bus_objs (<[p := b']> (bus_objs s)) s) [].
Proof.
  intros [Hn Hd Hb] Hc Hp E1 E2 E3 E4.
  assert (∀ q x, <[p := b']> (bus_objs s) !! q = Some x → ∃ y, bus_objs s !! q = Some y ∧ b_parent x = b_parent y ∧
    b_device x = b_device y ∧ b_bus x = b_bus y ∧ b_acpi_node x = b_acpi_node y) as Hback.
  { intros q x [[<- <-]|[_ Hq]]%lookup_insert_Some; [exists b|exists x]; by repeat split. }
  split; [|done..| |].
  - split; cbn; [done..|]. intros q x Hq. destruct (Hback q x Hq) as (y & Hy & F1 & F2 & F3 & F4).
    destruct (Hb q y Hy) as [G1 G2 G3 G4]. split; rewrite ?F1, ?F2, ?F3, ?F4; [done..|]. intros Hpar.
    destruct (G4 Hpar) as (L & I & D & I2). repeat split; [done| |done..]. cbn. apply lookup_insert_is_Some'. by right.
  - intros q x Hq. cbn. destruct (decide (q = p)) as [->|Hne]; [|rewrite lookup_insert_ne by done; by exists x].
    rewrite lookup_insert_eq. exists b'. split; [done|]. congruence.
  - exists []. split; [by rewrite app_nil_r|constructor].
Qed.

(** A new bus, behind a device of the bus [p]. *)
Lemma add_bus_grew c s p b :
  pci_ok s → has_cfg c s → is_Some (bus_objs s !! p) → b_parent b = p → 0 ≤ b_bus b < 256 →
  b_device b ≠ 0 → is_Some (dev_objs s !! b_device b) → grew c s (add_bus b s) [].
Proof.
  intros [Hn Hd Hb] Hc [bp Hp] Epar Hr Hdev Hdv. pose proof (bus_ptr _ _ _ (Hb p bp Hp)) as Hpp.
  assert (∀ q x, bus_objs s !! q = Some x → bus_objs (add_bus b s) !! q = Some x) as Hold.
  { intros q x Hq. cbn. rewrite lookup_insert_ne; [done|]. pose proof (bus_ptr _ _ _ (Hb q x Hq)). lia. }
  split; [|done|cbn; lia|done| |].
  - split; cbn; [lia|intros q x Hq; apply Hd in Hq; lia|].
    intros q x [[<- <-]|[_ Hq]]%lookup_insert_Some.
    + split; cbn; [done|lia|lia|]. intros _. rewrite Epar. split; [lia|]. split; [|done]. eexists. by apply Hold.
    + destruct (Hb q x Hq) as [G1 G2 G3 G4]. split; [done|cbn; lia|done|].
      intros Hpar. destruct (G4 Hpar) as (L & [z Hz] & D & I). repeat split; [done| |done..]. eexists. by apply Hold.
  - intros q x Hq. exists x. split; [by apply Hold|done].
  - exists []. split; [by rewrite app_nil_r|constructor].
Qed.

Lemma nodes_grew c s s' : pci_ok s → has_cfg c s → nodes_only s s' → grew c s s' [].
Proof.
  intros Hok Hc H. pose proof (nodes_ok _ _ H Hok) as Hok'. destruct H as [E H]. split; [done|rewrite E; done|rewrite E; done|rewrite E; done| |].
  - intros q b Hq. specialize (H q). rewrite Hq in H. destruct H as (n & Hn & _). by exists (with_node n b).
  - exists []. split; [rewrite E; by rewrite app_nil_r|constructor].
Qed.
(** *** One slot *)
Definition with_child (q : Z) b : pci_bus V :=
  PciBus (b_parent b) (b_device b) (vec_push (b_children b) q) (b_bus b) (b_has_prt b) (b_tried_prt_fetch b) (b_acpi_node b)
    (b_acpi_prt b).

Lemma dev_attach_run s q p d b :
  dev_objs s !! q = Some d → bus_objs s !! p = Some b →
  dev_attach_to q p s =
    Ok (tt, set_bus_objs (<[p := with_child q b]> (bus_objs s)) (set_dev_objs (<[q := put_parent p d]> (dev_objs s)) s)).
Proof.
  intros Hd Hb. unfold dev_attach_to, attach_device. run (get_dev_run s q d Hd). erewrite bind_run; [|reflexivity].
  set (s1 := set_dev_objs _ s). assert (get_bus p s1 = Ok (b, s1)) as H1 by (by apply get_bus_run). by run H1.
Qed.

Lemma new_device_run c s p sl f b :
  pci_ok s → has_cfg c s → bus_objs s !! p = Some b → 0 ≤ sl < 32 → 0 ≤ f < 8 →
  let e := exists_at c (b_bus b) sl f in
  let n := next_ptr s in
  ∃ s0 s1, pci_dev_new junk_dev (b_bus b) sl f s = Ok (n, s0) ∧ dev_exists n s0 = Ok (e, s1) ∧
    (e = false → grew c s (set_dev_objs (delete n (dev_objs s1)) s1) []) ∧
    (e = true → ∃ s2 s3 d, dev_init n s1 = Ok (tt, s2) ∧ dev_attach_to n p s2 = Ok (tt, s3) ∧ grew c s s3 [] ∧
       dev_objs s3 !! n = Some (described c d) ∧ (d_bus d, d_slot d, d_func d) = (b_bus b, sl, f)).
Proof.
  intros Hok Hc Hb Hsl Hf e n. pose proof (bus_number _ _ _ (ok_bus _ Hok _ _ Hb)) as Hr.
  assert (∃ d, pci_dev_new junk_dev (b_bus b) sl f s = Ok (n, add_dev d s) ∧ (d_bus d, d_slot d, d_func d) = (b_bus b, sl, f))
    as (d & H0 & Ed).
  { eexists. cbv [pci_dev_new fresh_ptr gets get_st mbind M_bind mret M_ret modify put_dev]. split; reflexivity. }
  assert (d_bus d = b_bus b ∧ d_slot d = sl ∧ d_func d = f) as (E1 & E2 & E3) by (by injection Ed).
  assert (valid_dev d) as Hv by (unfold valid_dev; rewrite E1, E2, E3; by split).
  assert (dev_objs (add_dev d s) !! n = Some d) as Hd by apply lookup_insert_eq.
  destruct (dev_exists_run c (add_dev d s) n d Hc Hd Hv) as (s1 & H1 & S1 & C1).
  assert (dev_objs s1 !! n = Some d) as Hd1 by (by rewrite (same_dev _ _ _ S1)).
  rewrite E1, E2, E3 in H1. fold e in H1. exists (add_dev d s), s1. split; [done|]. split; [done|]. split.
  - intros _. destruct S1 as [-> _].
    assert (set_dev_objs (delete n (dev_objs (set_ports (ports s1) (add_dev d s)))) (set_ports (ports s1) (add_dev d s))
            = set_ports (ports s1) (set_next_ptr (n + 1) s)) as ->.
    { unfold set_dev_objs, set_ports, add_dev, set_next_ptr. cbn. f_equal. apply delete_insert_id.
      destruct (dev_objs s !! n) eqn:En; [|done]. apply (ok_dev _ Hok) in En. lia. }
    eapply (grew_trans c s _ _ [] []); [by apply next_grew|]. apply ports_grew; [|done]. by eapply grew_ok, next_grew.
  - intros He. assert (exists_at c (d_bus d) (d_slot d) (d_func d) = true) as He' by (by rewrite E1, E2, E3).
    destruct (dev_init_run c s1 n d C1 Hd1 Hv He') as (s2 & H2 & S2). pose proof (same_trans _ _ _ S1 S2) as S12.
    assert (C2 := same_has_cfg _ _ _ S2 C1). destruct S12 as [E12 _].
    rewrite E12 in H2, C2. generalize dependent (ports s2). intros x H2 C2.
    do 2 eexists. exists (put_parent p d). split; [exact H2|]. split; [by eapply (dev_attach_run _ n p _ b); [apply lookup_insert_eq|]|].
    cbn [set_bus_objs set_dev_objs set_ports add_dev dev_objs bus_objs ports]. split; [|split; [apply lookup_insert_eq|done]].
    rewrite !insert_insert_eq. set (d' := described c (put_parent p d)).
    eapply (grew_trans c s _ _ [] []); [by apply (add_dev_grew c s d')|].
    assert (pci_ok (add_dev d' s)) as Hok1 by (by eapply grew_ok, add_dev_grew).
    eapply (grew_trans c _ _ _ [] []); [by apply (ports_grew c _ x)|].
    by apply (put_bus_grew c (set_ports x (add_dev d' s)) p b (with_child n b)); [eapply grew_ok, ports_grew|..].
Qed.

Definition fresh_bus (bus q n : Z) : pci_bus V :=
  let j := junk_bus n in
  PciBus 0 q vec_empty bus (b_has_prt j) (b_tried_prt_fetch j) (b_acpi_node j) (b_acpi_prt j).
Definition set_above (p : Z) b : pci_bus V :=
  PciBus p (b_device b) (b_children b) (b_bus b) (b_has_prt b) (b_tried_prt_fetch b) (b_acpi_node b) (b_acpi_prt b).

Lemma bus_new_run s bus q : pci_bus_new junk_bus bus q s = Ok (next_ptr s, add_bus (fresh_bus bus q (next_ptr s)) s).
Proof. cbv [pci_bus_new fresh_ptr gets get_st mbind M_bind mret M_ret modify put_bus]. reflexivity. Qed.

Lemma bus_attach_run s q p b :
  bus_objs s !! q = Some b → bus_attach_to q p s = Ok (tt, set_bus_objs (<[q := set_above p b]> (bus_objs s)) s).
Proof. intros Hb. unfold bus_attach_to. by run (get_bus_run s q b Hb). Qed.

Lemma bridge_run c s p q dev l (rec : Z → M pci ()) :
  pci_ok s → has_cfg c s → is_Some (bus_objs s !! p) → dev_objs s !! q = Some dev → 0 ≤ d_sec_bus dev < 256 →
  (∀ s r b, pci_ok s → has_cfg c s → bus_objs s !! r = Some b → b_bus b = d_sec_bus dev →
     ∃ s', rec r s = Ok (tt, s') ∧ grew c s s' l) →
  ∃ s', (bridge ← pci_bus_new junk_bus (d_sec_bus dev) q;
         bus_attach_to bridge p;;
         find_node lai_pci_find_device (Datatypes.S (Z.to_nat bridge)) bridge;;
         rec bridge;;
         modify (λ s, set_pci_buses (vec_push (pci_buses s) bridge) s)) s = Ok (tt, s') ∧ grew c s s' l.
Proof.
  intros Hok Hc Hp Hq Hsec Hrec. set (n := next_ptr s). pose proof (ok_next _ Hok) as Hn.
  assert (∃ b, b_parent b = p ∧ b_device b = q ∧ b_bus b = d_sec_bus dev ∧ ∀ (g : Z → M pci ()),
    (bridge ← pci_bus_new junk_bus (d_sec_bus dev) q; bus_attach_to bridge p;; g bridge) s = g n (add_bus b s))
    as (b & B1 & B2 & B3 & Hnew).
  { exists (let j := junk_bus n in PciBus p q vec_empty (d_sec_bus dev) (b_has_prt j) (b_tried_prt_fetch j) (b_acpi_node j) (b_acpi_prt j)).
    do 3 (split; [done|]). intros g.
    run (bus_new_run s (d_sec_bus dev) q). set (b0 := fresh_bus _ _ _).
    assert (bus_attach_to n p (add_bus b0 s) = Ok (tt, set_bus_objs (<[n := set_above p b0]> (bus_objs (add_bus b0 s))) (add_bus b0 s)))
      as Hat by (by apply bus_attach_run, lookup_insert_eq).
    fold n. run Hat. f_equal. unfold add_bus, set_bus_objs, set_next_ptr. cbn. by rewrite insert_insert_eq. }
  rewrite Hnew.
  assert (grew c s (add_bus b s) []) as G1.
  { eapply add_bus_grew; [done..| | |]; rewrite ?B2, ?B3; [done| |by eexists]. apply (ok_dev _ Hok) in Hq. lia. }
  assert (bus_objs (add_bus b s) !! n = Some b) as Hb by apply lookup_insert_eq.
  destruct (find_node_run (Datatypes.S (Z.to_nat n)) _ n b (grew_ok _ _ _ _ G1) Hb) as (s2 & H2 & N2); [lia|]. run H2.
  assert (grew c s s2 []) as G2.
  { eapply (grew_trans c s _ _ [] []); [exact G1|]. by apply nodes_grew; [eapply grew_ok|eapply grew_cfg|]. }
  pose proof (nodes_bus _ _ N2 n) as Hb2. rewrite Hb in Hb2. destruct Hb2 as (m & Hb2 & _).
  destruct (Hrec s2 n _ (grew_ok _ _ _ _ G2) (grew_cfg _ _ _ _ G2) Hb2) as (s3 & H3 & G3); [done|]. run H3.
  eexists. split; [reflexivity|]. apply grew_pci_buses. by eapply (grew_trans c s s2 s3 [] l).
Qed.
(** What the walk finds in a slot. *)
Definition found_at (c : Z → Z) (n : nat) (b sl f : Z) : list (Z * Z * Z) :=
  if exists_at c b sl f then (if bridge_at c b sl f then found c n (sec_at c b sl f) else []) ++ [(b, sl, f)] else [].

Lemma found_S c n (b : Z) : found c (Datatypes.S n) b = functions ≫= λ '(sl, f), found_at c n b sl f.
Proof. done. Qed.

(** [rec] finds what the walk of depth [n] finds. *)
Definition finds (c : Z → Z) (n : nat) (rec : Z → M pci ()) : Prop :=
  ∀ s p b, pci_ok s → has_cfg c s → bus_objs s !! p = Some b → 256 - b_bus b ≤ Z.of_nat n →
    ∃ s', rec p s = Ok (tt, s') ∧ grew c s s' (found c n (b_bus b)).

Lemma enumerate_at_run c n rec s p sl f b :
  finds c n rec → numbered c → pci_ok s → has_cfg c s → bus_objs s !! p = Some b → 255 - b_bus b ≤ Z.of_nat n →
  0 ≤ sl < 32 → 0 ≤ f < 8 →
  ∃ s', enumerate_at junk_dev junk_bus lai_pci_find_device rec p sl f s = Ok (tt, s') ∧
    grew c s s' (found_at c n (b_bus b) sl f).
Proof.
  intros Hrec Hnum Hok Hc Hb Hn Hsl Hf. pose proof (bus_number _ _ _ (ok_bus _ Hok _ _ Hb)) as Hr.
  destruct (new_device_run c s p sl f b Hok Hc Hb Hsl Hf) as (s0 & s1 & H0 & H1 & Hno & Hyes).
  unfold enumerate_at, found_at. run (get_bus_run s p b Hb). run H0. run H1.
  destruct (exists_at c (b_bus b) sl f) eqn:He; [|eexists; split; [reflexivity|by apply Hno]].
  destruct (Hyes eq_refl) as (s2 & s3 & d & H2 & H3 & G & Hd & Ed). run H2. run H3.
  pose proof G as [Hok3 C3 _ _ Hbus3 _]. destruct (Hbus3 p b Hb) as (b3 & Hb3 & _).
  run (get_dev_run s3 _ _ Hd).
  assert (is_bridge (described c d) = bridge_at c (b_bus b) sl f ∧ d_sec_bus (described c d) = sec_at c (b_bus b) sl f) as [E1 E2].
  { injection Ed as <- <- <-. done. }
  rewrite E1. destruct (bridge_at c (b_bus b) sl f) eqn:Hbr.
  - edestruct (bridge_run c s3 p (next_ptr s) (described c d) (found c n (sec_at c (b_bus b) sl f)) rec) as (s4 & H4 & G4);
      [done|done|by eexists|done|rewrite E2; apply field_byte| |].
    { intros s' r b' Hok' Hc' Hb' Eb. rewrite E2 in Eb. rewrite <- Eb. apply Hrec; [done..|]. rewrite Eb.
      assert (b_bus b < sec_at c (b_bus b) sl f) by (apply Hnum; [by split|done|done]). lia. }
    run H4. eexists. split; [reflexivity|]. rewrite <- Ed.
    apply grew_push; [by eapply (grew_trans c s s3 s4 [])|]. by apply (grew_old _ _ _ _ G4).
  - erewrite bind_run; [|reflexivity]. eexists. split; [reflexivity|]. rewrite <- Ed. by apply grew_push.
Qed.

Lemma enumerate_finds c n : numbered c → finds c n (enumerate junk_dev junk_bus lai_pci_find_device n).
Proof.
  intros Hnum. induction n as [|n IH]; intros s p b Hok Hc Hb Hn.
  { pose proof (bus_number _ _ _ (ok_bus _ Hok _ _ Hb)). lia. }
  rewrite found_S. cbn [enumerate]. pose proof functions_valid as Hval. revert Hval. generalize functions. intros l Hval.
  assert (255 - b_bus b ≤ Z.of_nat n) as Hn' by lia. clear Hn.
  revert s b Hok Hc Hb Hn'. induction l as [|[sl f] l IHl]; intros s b Hok Hc Hb Hn'.
  { exists s. split; [done|by apply grew_refl]. }
  destruct (Hval sl f) as [Hsl Hf]; [by left|].
  destruct (enumerate_at_run c n _ s p sl f b IH Hnum Hok Hc Hb Hn' Hsl Hf) as (s1 & H1 & G1).
  pose proof G1 as [Hok1 Hc1 _ _ Hb1 _]. destruct (Hb1 p b Hb) as (b1 & Hb1' & Eb).
  destruct (IHl (λ x y H, Hval x y (list_elem_of_further _ _ _ H)) s1 b1 Hok1 Hc1 Hb1') as (s2 & H2 & G2); [by rewrite Eb|].
  exists s2. cbn [for_each]. split; [by run H1|]. cbn [mbind list_bind]. rewrite Eb in G2. by eapply grew_trans.
Qed.
(** C16. Enumerating a bus ends and adds to the list of devices exactly those that
    a walk over the configuration registers finds, in its order, each
    described as its registers say; no register is changed and the objects stay
    well formed. Bridges must lead to higher bus numbers; then a depth of 256
    less the number of the bus is enough. *)
Theorem enumerate_spec fuel s p b :
  let c := cfg (ports s) in
  numbered c → pci_ok s → bus_objs s !! p = Some b → 256 - b_bus b ≤ Z.of_nat fuel →
  ∃ s' ps, enumerate junk_dev junk_bus lai_pci_find_device fuel p s = Ok (tt, s') ∧
    pci_ok s' ∧ (∀ a, cfg (ports s') a = c a) ∧ vec_elems (devices s') = vec_elems (devices s) ++ ps ∧
    Forall2 (λ q x, ∃ d, dev_objs s' !! q = Some (described c d) ∧ (d_bus d, d_slot d, d_func d) = x) ps
      (found c fuel (b_bus b)).
Proof.
  intros c Hnum Hok Hb Hf.
  destruct (enumerate_finds c fuel Hnum s p b Hok (λ _, eq_refl) Hb Hf) as (s' & H & [Hok' Hc _ _ _ (ps & Hps & Hd)]).
  by exists s', ps.
Qed.
End enum.

(** ** The machine of [PciProps.Demo] *)
Section demo.
Import Frigg.Instances PciProps.Demo.

Lemma demo_numbered : numbered (cfg (ports demo_pci)).
Proof.
  intros b sl f (Hb & Hs & Hf) _ Hbr. apply andb_true_iff in Hbr as [Hbr%Z.eqb_eq _]. revert Hbr. unfold sec_at, field_of.
  cbn [cfg ports demo_pci ports_demo_ports q_regs]. unfold reg_base_class, reg_sec_bus.
  change (11 - 11 mod 4) with 8. change (25 - 25 mod 4) with 24. unfold demo_cfg. unfold cfg_at.
  repeat (case_match; [|]); rewrite ?Z.eqb_eq, ?Z.eqb_neq in *; try lia; try (intros Hx; vm_compute in Hx; discriminate).
  all: intros _; change (Z.land _ 255) with 1; lia.
Qed.

Lemma demo_pci_ok : pci_ok demo_pci.
Proof.
  split; cbn; [done| |].
  - intros q x [<- _]%lookup_singleton_Some. lia.
  - intros q x [<- <-]%lookup_singleton_Some. by split.
Qed.

Lemma enumerate_spec_witness :
  256 - 0 ≤ Z.of_nat 256 ∧
  ∃ s' ps, enumerate (λ _, demo_dev) (λ _, demo_bus) (λ _ _ _, 0) 256 1 demo_pci = Ok (tt, s') ∧
    pci_ok s' ∧ (∀ a, cfg (ports s') a = cfg (ports demo_pci) a) ∧
    vec_elems (devices s') = vec_elems (devices demo_pci) ++ ps ∧
    Forall2 (λ q x, ∃ d, dev_objs s' !! q = Some (described (cfg (ports demo_pci)) d) ∧ (d_bus d, d_slot d, d_func d) = x) ps
      (found (cfg (ports demo_pci)) 256 (b_bus demo_bus)).
Proof.
  split; [lia|]. apply (enumerate_spec (λ _, demo_dev) (λ _, demo_bus) (λ _ _ _, 0) 256 demo_pci 1 demo_bus);
    [apply demo_numbered|apply demo_pci_ok|reflexivity|cbn; lia].
Defined.

(** What the walk finds here. *)
Example demo_found : found (cfg (ports demo_pci)) 3 0 = [(1, 0, 0); (0, 1, 0)].
Proof. vm_compute. reflexivity. Qed.
End demo.
