(* ===== verification/AcpiTables.v ===== *)
(** * Finding the tables of the firmware (acpi/acpi.cpp)

    Memory is that of CString.v, by virtual address; an address of the
    firmware is at [VIRT_PHYS_BASE] above its physical one. The layout of the
    FADT and the namespace are the ACPI interpreter's, which is not part of
    the repository: the two fields that are read and the two calls are
    arguments. Log messages are left out. *)
From S2P Require Import Prelude Frigg CString Pmm Cmdline Initrd Apic Irq.
From stdpp Require Import base numbers option gmap list.
#[local] Open Scope Z_scope.

(** ["RSD PTR "], ["FACP"], ["DSDT"], ["APIC"], ["acpi"] and its values. *)
Definition sig_rsdp : list Z := [82; 83; 68; 32; 80; 84; 82; 32].
Definition sig_fadt : list Z := [70; 65; 67; 80].
Definition sig_dsdt : list Z := [68; 83; 68; 84].
Definition sig_madt : list Z := [65; 80; 73; 67].
Definition arg_acpi : list Z := [97; 99; 112; 105].
Definition arg_disable : list Z := [100; 105; 115; 97; 98; 108; 101].
Definition arg_debug_io : list Z := [100; 101; 98; 117; 103; 95; 105; 111].
Definition arg_debug_op : list Z := [100; 101; 98; 117; 103; 95; 111; 112].

(** [rsdp_t] and [sdt_t] *)
Definition sizeof_rsdp : Z := 20.
Definition off_rsdt_addr : Z := 16.
Definition sizeof_sdt : Z := 36.
Definition off_len : Z := 4.

Fixpoint checksum_loop (ptr i sum : Z) (n : nat) : M cmem Z :=
  match n with
  | O => mret sum
  | S n' => b ← ld (ptr + i); checksum_loop ptr (i + 1) (u8 (sum + b)) n'
  end.
Definition acpi_calc_checksum (ptr len : Z) : M cmem Z := checksum_loop ptr 0 0 (Z.to_nat len).

(** [fuel] bounds the steps of 16 in the region. *)
Fixpoint find_rsdp_loop (fuel : nat) (region_start region_len idx : Z) : M cmem Z :=
  if idx <? region_len then
    match fuel with
    | O => lift Hang
    | S fuel' =>
        let rsdp := u64 (region_start + idx + VIRT_PHYS_BASE) in
        d ← memcmp_literal rsdp sig_rsdp;
        if negb (d =? 0) then find_rsdp_loop fuel' region_start region_len (u64 (idx + 16))
        else
          c ← acpi_calc_checksum rsdp sizeof_rsdp;
          if negb (c =? 0) then find_rsdp_loop fuel' region_start region_len (u64 (idx + 16))
          else ld_le (rsdp + off_rsdt_addr) 4
    end
  else mret 0.
Definition acpi_find_rsdp (region_start region_len : Z) : M cmem Z :=
  find_rsdp_loop (Z.to_nat (region_len / 16 + 1)) region_start region_len 0.

(** The loop over the entries of the table [rsdt], [n] of them from [i] on. *)
Fixpoint find_table_loop (rsdt : Z) (sig : list Z) (idx i curr_idx : Z) (n : nat) : M cmem Z :=
  match n with
  | O => mret 0
  | S n' =>
      t ← ld_le (rsdt + sizeof_sdt + 4 * i) 4;
      let sdt := u64 (t + VIRT_PHYS_BASE) in
      len ← ld_le (sdt + off_len) 4;
      c ← acpi_calc_checksum sdt len;
      if negb (c =? 0) then find_table_loop rsdt sig idx (i + 1) curr_idx n'
      else
        (* the four characters that are compared, the terminator included *)
        d ← memcmp_literal sdt (take 4 (sig ++ [0]));
        if negb (d =? 0) then find_table_loop rsdt sig idx (i + 1) curr_idx n'
        else if curr_idx =? idx then mret sdt
        else find_table_loop rsdt sig idx (i + 1) (curr_idx + 1) n'
  end.
(** [acpi_find_table] of any signature but that of the DSDT. *)
Definition find_listed (rsdt : Z) (sig : list Z) (idx : Z) : M cmem Z :=
  len ← ld_le (rsdt + off_len) 4;
  let entries := u64 (len - sizeof_sdt) / 4 in
  find_table_loop rsdt sig idx 0 0 (Z.to_nat entries).

Record acpi_state {V : Type → Type} := AcpiState {
  acpi_mem : cmem;
  rsdt : Z;
  trace_mode : Z;
  acpi_madt : madt V;
}.
Arguments acpi_state : clear implicits.
Arguments AcpiState {V} _ _ _ _.

Section acpi.
Context {V : Type → Type} `{!FrgVector V}.
Notation acpi := (acpi_state V).
Implicit Types (s : acpi).
Context (fadt_dsdt fadt_sci_irq : Z → M cmem Z).
Context (lai_create_namespace lai_enable_acpi : M acpi ()).
Context (LAI_TRACE_IO LAI_TRACE_OP : Z).

Definition set_acpi_mem (m : cmem) s : acpi := AcpiState m (rsdt s) (trace_mode s) (acpi_madt s).
Definition on_acpi_mem {A} (m : M cmem A) : M acpi A := zoom acpi_mem set_acpi_mem m.

Definition acpi_find_dsdt : M acpi Z :=
  s ← get_st;
  fadt ← on_acpi_mem (find_listed (rsdt s) sig_fadt 0);
  if fadt =? 0 then mret 0
  else dsdt ← on_acpi_mem (fadt_dsdt fadt); mret (u64 (dsdt + VIRT_PHYS_BASE)).

Definition acpi_find_table (sig : list Z) (idx : Z) : M acpi Z :=
  if decide (sig = sig_dsdt) then acpi_find_dsdt
  else s ← get_st; on_acpi_mem (find_listed (rsdt s) sig idx).

Definition acpi_get_sci_vector : M acpi Z :=
  fadt ← acpi_find_table sig_fadt 0;
  if fadt =? 0 then mret 0 else on_acpi_mem (fadt_sci_irq fadt).

(** [madt_init] with the table that is found in memory. *)
Definition acpi_madt_init : M acpi () :=
  t ← acpi_find_table sig_madt 0;
  table ← (if t =? 0 then mret None
           else
             len ← on_acpi_mem (ld_le (t + off_len) 4);
             l ← on_acpi_mem (read_block t (Z.to_nat len)); mret (Some l));
  s ← get_st;
  m ← lift (madt_init table (acpi_madt s));
  modify (λ s, AcpiState (acpi_mem s) (rsdt s) (trace_mode s) m).

Definition acpi_init (cmd : cmdline) : M acpi () :=
  disabled ← lift (cmdline_has_value cmd arg_acpi arg_disable);
  if negb (disabled =? 0) then mret tt
  else
    p ← on_acpi_mem (acpi_find_rsdp 0x80000 0x20000);
    p ← (if p =? 0 then on_acpi_mem (acpi_find_rsdp 0xe0000 0x20000) else mret p);
    if p =? 0 then lift Panic
    else
      modify (λ s, AcpiState (acpi_mem s) (u64 (p + VIRT_PHYS_BASE)) (trace_mode s) (acpi_madt s));;
      io ← lift (cmdline_has_value cmd arg_acpi arg_debug_io);
      op ← lift (cmdline_has_value cmd arg_acpi arg_debug_op);
      let mode := Z.lor (if negb (io =? 0) then LAI_TRACE_IO else 0) (if negb (op =? 0) then LAI_TRACE_OP else 0) in
      (if negb (mode =? 0) then modify (λ s, AcpiState (acpi_mem s) (rsdt s) mode (acpi_madt s)) else mret tt);;
      lai_create_namespace;;
      acpi_get_sci_vector;;
      lai_enable_acpi;;
      acpi_madt_init.

(** The handler of the interrupt of the system controller goes to the vector
    of its pin. [acpi_sci_handler] is its number. *)
Context {S : Type} `{!IoapicDev S} {L : Type} {H : Type → Type} (acpi_sci_handler : Z).
Record machine_parts := MachineParts { p_acpi : acpi; p_apic : apic S V; p_irq : interrupts L V H }.

Definition acpi_late_init : M machine_parts () :=
  sci_irq ← zoom p_acpi (λ a x, MachineParts a (p_apic x) (p_irq x)) acpi_get_sci_vector;
  if sci_irq =? 0 then mret tt
  else
    v ← zoom p_apic (λ a x, MachineParts (p_acpi x) a (p_irq x)) (ioapic_get_vector_by_irq sci_irq);
    zoom p_irq (λ a x, MachineParts (p_acpi x) (p_apic x) a) (isr_register_handler v acpi_sci_handler);;
    mret tt.
End acpi.

(** ** Reading *)
Definition sum_of (l : list Z) : Z := foldr Z.add 0 l.

Lemma checksum_loop_run m ptr i sum l :
  seg m (ptr + i) l → 0 ≤ sum < 256 → checksum_loop ptr i sum (length l) m = Ok ((sum + sum_of l) mod 256, m).
Proof.
  revert i sum. induction l as [|b l IH]; intros i sum Hs Hr; cbn [length checksum_loop sum_of foldr].
  - rewrite Z.add_0_r, Z.mod_small by done. done.
  - destruct Hs as [Hb Hs]. run (ld_run _ _ _ Hb). rewrite <- Z.add_assoc in Hs.
    rewrite IH by (done || apply Z.mod_pos_bound; lia). do 2 f_equal. unfold u8. rewrite Z.add_mod_idemp_l by lia.
    fold (sum_of l). f_equal. lia.
Qed.

Lemma checksum_run m ptr l : seg m ptr l → acpi_calc_checksum ptr (len l) m = Ok (sum_of l mod 256, m).
Proof.
  intros Hs. unfold acpi_calc_checksum, len. rewrite Nat2Z.id. apply (checksum_loop_run m ptr 0 0); [by rewrite Z.add_0_r|lia].
Qed.

(** Comparing with a literal: 0 exactly for equal bytes. *)
Lemma memcmp_literal_cmp m p k l :
  seg m p k → length l = length k → ∃ d, memcmp_literal p l m = Ok (d, m) ∧ ((d =? 0) = bool_decide (k = l)).
Proof.
  revert p l. induction k as [|b k IH]; intros p [|c l] Hs Hl; try discriminate; [by exists 0|].
  destruct Hs as [Hb Hs]. injection Hl as Hl. cbn [memcmp_literal].
  destruct (Z.ltb_spec c b); [|destruct (Z.ltb_spec b c)].
  - exists 1. run (ld_run _ _ _ Hb). destruct (Z.ltb_spec c b); [|lia]. split; [done|].
    rewrite bool_decide_false; [done|]. intros [= -> _]. lia.
  - exists (-1). run (ld_run _ _ _ Hb). destruct (Z.ltb_spec c b); [lia|]. destruct (Z.ltb_spec b c); [|lia]. split; [done|].
    rewrite bool_decide_false; [done|]. intros [= -> _]. lia.
  - assert (b = c) as -> by lia. destruct (IH _ l Hs Hl) as (d & Hd & E). exists d. run (ld_run _ _ _ Hb).
    rewrite Z.ltb_irrefl. split; [done|]. rewrite E. apply bool_decide_ext. split; [by intros ->|by intros [= ->]].
Qed.

(** ** The specification *)

(** A table with its physical address: its bytes in memory, as many as its
    own length says. *)
Definition table_at (m : cmem) (t : Z * list Z) : Prop :=
  0 ≤ t.1 < 2 ^ 32 ∧ seg m (t.1 + VIRT_PHYS_BASE) t.2 ∧ (36 ≤ length t.2)%nat ∧ le_value (sub_bytes t.2 4 4) = len t.2.

(** The root table at [r], which lists [ts]. *)
Record root_at (m : cmem) (r : Z) (rl : list Z) (ts : list (Z * list Z)) : Prop := {
  root_bytes : seg m r rl;
  root_len : len rl = 36 + 4 * Z.of_nat (length ts) ∧ len rl < 2 ^ 32;
  root_field : le_value (sub_bytes rl 4 4) = len rl;
  root_entry i t : ts !! i = Some t → le_value (sub_bytes rl (36 + 4 * i) 4) = t.1;
  root_table t : t ∈ ts → table_at m t;
}.

(** The tables a search counts. *)
Definition matches (sig : list Z) (t : Z * list Z) : Prop := sum_of t.2 mod 256 = 0 ∧ take 4 t.2 = sig.
#[export] Instance matches_dec sig t : Decision (matches sig t).
Proof. unfold matches. apply _. Defined.
Definition nth_table (sig : list Z) (idx : nat) (ts : list (Z * list Z)) : Z :=
  match filter (matches sig) ts !! idx with Some t => t.1 + VIRT_PHYS_BASE | None => 0 end.

Lemma find_table_loop_run m r rl ts sig idx k ts' j :
  root_at m r rl ts → length sig = 4%nat → drop k ts = ts' → (j ≤ idx)%nat →
  find_table_loop r sig (Z.of_nat idx) (Z.of_nat k) (Z.of_nat j) (length ts') m = Ok (nth_table sig (idx - j) ts', m).
Proof.
  intros Hroot Hsig. revert k j. induction ts' as [|[t l] ts' IH]; intros k j Hd Hj; [done|].
  assert (ts !! k = Some (t, l)) as Hk by (rewrite <- (Nat.add_0_r k), <- lookup_drop, Hd; done).
  assert (drop (S k) ts = ts') as Hd' by (rewrite <- (skipn_skipn 1 k), Hd; done).
  destruct (root_table _ _ _ _ Hroot (t, l)) as (Ht & Hs & H36 & Hlen); [by eapply list_elem_of_lookup_2|]. cbn [fst snd] in *.
  pose proof (lookup_lt_Some _ _ _ Hk) as Hlt. destruct (root_len _ _ _ _ Hroot) as [Hrl _]. unfold len in Hrl.
  cbn [length find_table_loop].
  replace (r + sizeof_sdt + 4 * Z.of_nat k) with (r + Z.of_nat (36 + 4 * k)) by (unfold sizeof_sdt; lia).
  run (ld_field m r rl (36 + 4 * k) 4 (root_bytes _ _ _ _ Hroot) ltac:(lia)). rewrite (root_entry _ _ _ _ Hroot k (t, l) Hk). cbn [fst].
  assert (u64 (t + VIRT_PHYS_BASE) = t + VIRT_PHYS_BASE) as -> by (apply u64_small; unfold VIRT_PHYS_BASE; lia).
  change off_len with (Z.of_nat 4). run (ld_field m _ l 4 4 Hs ltac:(lia)). rewrite Hlen. run (checksum_run m _ l Hs).
  replace (Z.of_nat k + 1) with (Z.of_nat (S k)) by lia.
  unfold nth_table. rewrite filter_cons.
  destruct (Z.eqb_spec (sum_of l mod 256) 0) as [Hc|Hc]; cbn [negb];
    [|rewrite decide_False by (intros [? _]; done); by apply IH].
  destruct (memcmp_literal_cmp m (t + VIRT_PHYS_BASE) (take 4 l) (take 4 (sig ++ [0]))) as (d & Hd4 & E);
    [by apply seg_take|rewrite !length_take, length_app, Hsig; lia|].
  rewrite (take_app_le sig [0] 4), (take_ge sig 4) in Hd4, E by lia.
  rewrite (take_app_le sig [0] 4), (take_ge sig 4) by lia. run Hd4. rewrite E.
  case_bool_decide as Ht4; cbn [negb]; [|rewrite decide_False by (intros [_ ?]; done); by apply IH].
  rewrite decide_True by done. destruct (Z.eqb_spec (Z.of_nat j) (Z.of_nat idx)) as [Hji|Hji].
  - replace (idx - j)%nat with 0%nat by lia. done.
  - replace (Z.of_nat j + 1) with (Z.of_nat (S j)) by lia. rewrite IH by (done || lia).
    replace (idx - j)%nat with (S (idx - S j)) by lia. done.
Qed.

Section acpi_props.
Context {V : Type → Type} `{!FrgVector V}.
Context (fadt_dsdt : Z → M cmem Z).
Implicit Types (s : acpi_state V).

Lemma on_acpi_mem_run {A} s (c : M cmem A) x : c (acpi_mem s) = Ok (x, acpi_mem s) → on_acpi_mem c s = Ok (x, s).
Proof. intros H. unfold on_acpi_mem, zoom. rewrite H. by destruct s. Qed.

(** C19. [acpi_find_table] gives the address of the table that comes [idx]-th, in
    the order of the root table, among those whose bytes add up to 0 and whose
    signature is the one looked for, and 0 when there are not so many; nothing
    changes. *)
Theorem acpi_find_table_spec s rl ts sig idx :
  root_at (acpi_mem s) (rsdt s) rl ts → length sig = 4%nat → sig ≠ sig_dsdt →
  acpi_find_table fadt_dsdt sig (Z.of_nat idx) s = Ok (nth_table sig idx ts, s).
Proof.
  intros Hroot Hsig Hne. unfold acpi_find_table. rewrite decide_False by done.
  run (eq_refl : get_st s = Ok (s, s)). apply on_acpi_mem_run. unfold find_listed.
  destruct (root_len _ _ _ _ Hroot) as [Hl Hr]. pose proof (root_field _ _ _ _ Hroot) as Hf.
  change off_len with (Z.of_nat 4). run (ld_field _ _ rl 4 4 (root_bytes _ _ _ _ Hroot) ltac:(unfold len in Hl; lia)). rewrite Hf, Hl.
  unfold sizeof_sdt. rewrite u64_small by lia. replace (36 + 4 * Z.of_nat (length ts) - 36) with (Z.of_nat (length ts) * 4) by lia.
  rewrite Z.div_mul by lia. rewrite Nat2Z.id.
  rewrite (find_table_loop_run _ _ rl ts sig idx 0 ts 0) by (done || lia). by rewrite Nat.sub_0_r.
Qed.
End acpi_props.

(** ** The pointer to the root table *)
Definition rsdp_valid (b : list Z) : Prop := take 8 b = sig_rsdp ∧ sum_of b mod 256 = 0.
#[export] Instance rsdp_valid_dec b : Decision (rsdp_valid b).
Proof. unfold rsdp_valid. apply _. Defined.

(** The blocks of 20 bytes at the steps of a region. *)
Definition region_at (m : cmem) (start : Z) (bs : list (list Z)) : Prop :=
  0 ≤ start ∧ start + 16 * Z.of_nat (length bs) < 2 ^ 32 ∧
  ∀ j b, bs !! j = Some b → length b = 20%nat ∧ seg m (start + 16 * Z.of_nat j + VIRT_PHYS_BASE) b.
Definition first_rsdp (bs : list (list Z)) : Z :=
  match list_find rsdp_valid bs with Some (_, b) => le_value (sub_bytes b 16 4) | None => 0 end.

Lemma find_rsdp_loop_run m start bs k bs' fuel :
  region_at m start bs → drop k bs = bs' → (length bs' < fuel)%nat → (k ≤ length bs)%nat →
  find_rsdp_loop fuel start (16 * Z.of_nat (length bs)) (16 * Z.of_nat k) m = Ok (first_rsdp bs', m).
Proof.
  intros (H0 & Hend & Hreg). revert k fuel. induction bs' as [|b bs' IH]; intros k fuel Hd Hf Hk.
  { assert (length bs = k) as -> by (apply (f_equal length) in Hd; rewrite length_drop in Hd; cbn in Hd; lia).
    destruct fuel; cbn [find_rsdp_loop]; rewrite Z.ltb_irrefl; done. }
  assert (bs !! k = Some b) as Hb by (rewrite <- (Nat.add_0_r k), <- lookup_drop, Hd; done).
  assert (drop (S k) bs = bs') as Hd' by (rewrite <- (skipn_skipn 1 k), Hd; done).
  pose proof (lookup_lt_Some _ _ _ Hb) as Hlt. destruct (Hreg k b Hb) as [Hlen Hs].
  destruct fuel as [|fuel]; [cbn in Hf; lia|]. cbn [find_rsdp_loop]. destruct (Z.ltb_spec (16 * Z.of_nat k) (16 * Z.of_nat (length bs))); [|lia].
  assert (u64 (start + 16 * Z.of_nat k + VIRT_PHYS_BASE) = start + 16 * Z.of_nat k + VIRT_PHYS_BASE) as ->
    by (apply u64_small; unfold VIRT_PHYS_BASE; lia).
  assert (u64 (16 * Z.of_nat k + 16) = 16 * Z.of_nat (S k)) as -> by (rewrite u64_small; lia).
  destruct (memcmp_literal_cmp m (start + 16 * Z.of_nat k + VIRT_PHYS_BASE) (take 8 b) sig_rsdp) as (d & Hd8 & E);
    [by apply seg_take|rewrite length_take, Hlen; done|]. run Hd8. rewrite E.
  assert (Hnext : ¬ rsdp_valid b → first_rsdp (b :: bs') = first_rsdp bs').
  { intros Hno. unfold first_rsdp. cbn [list_find]. rewrite decide_False by done. by destruct (list_find rsdp_valid bs') as [[? ?]|]. }
  cbn [length] in Hf.
  case_bool_decide as H8; cbn [negb]; [|rewrite Hnext by (intros [? _]; done); apply IH; [done|lia|lia]].
  change sizeof_rsdp with 20. assert (20 = len b) as -> by (unfold len; lia). run (checksum_run m _ b Hs).
  destruct (Z.eqb_spec (sum_of b mod 256) 0) as [Hc|Hc]; cbn [negb]; [|rewrite Hnext by (intros [_ ?]; done); apply IH; [done|lia|lia]].
  unfold first_rsdp. cbn [list_find]. rewrite decide_True by done. cbv iota. change off_rsdt_addr with (Z.of_nat 16). apply ld_field; [done|lia].
Qed.

(** The search for the pointer returns the address in the first block, at
    steps of 16, with the right signature and sum, or 0. *)
Theorem acpi_find_rsdp_spec m start bs :
  region_at m start bs → acpi_find_rsdp start (16 * Z.of_nat (length bs)) m = Ok (first_rsdp bs, m).
Proof.
  intros H. unfold acpi_find_rsdp. apply (find_rsdp_loop_run m start bs 0 bs); [done|done| |lia].
  replace (16 * Z.of_nat (length bs) / 16) with (Z.of_nat (length bs)) by (rewrite Z.mul_comm, Z.div_mul; lia). lia.
Qed.

(** ** Two tables with one signature, the first with a wrong sum *)
Section demo.
Import Frigg.Instances.

Definition demo_table (b : Z) : list Z :=
  [83; 83; 68; 84; 36; 0; 0; 0; b] ++ replicate 27 0.
Definition demo_root : list Z := [82; 83; 68; 84; 44; 0; 0; 0] ++ replicate 28 0 ++ [0; 32; 0; 0] ++ [0; 48; 0; 0].
Definition demo_tables : list (Z * list Z) := [(0x2000, demo_table 0); (0x3000, demo_table 158)].
Definition demo_acpi_mem : cmem :=
  put_seg (0x1000 + VIRT_PHYS_BASE) demo_root (put_seg (0x2000 + VIRT_PHYS_BASE) (demo_table 0)
    (put_seg (0x3000 + VIRT_PHYS_BASE) (demo_table 158) ∅)).
Definition demo_acpi : acpi_state list := AcpiState demo_acpi_mem (0x1000 + VIRT_PHYS_BASE) 0 (Madt [] [] [] []).

Lemma demo_root_at : root_at (acpi_mem demo_acpi) (rsdt demo_acpi) demo_root demo_tables.
Proof.
  split.
  - apply put_seg_seg.
  - done.
  - done.
  - intros i t Hi. destruct i as [|[|i]]; [injection Hi as <-; reflexivity..|discriminate].
  - intros t Ht. apply elem_of_cons in Ht as [->|Ht]; [|apply list_elem_of_singleton in Ht as ->].
    all: (split; [by split|split; [|by split; [cbn; lia|]]]); cbn [fst snd acpi_mem demo_acpi].
    + apply put_seg_keep; [by left|]. apply put_seg_seg.
    + apply put_seg_keep; [by left|]. apply put_seg_keep; [by left|]. apply put_seg_seg.
Qed.

Lemma acpi_find_table_spec_witness :
  acpi_find_table (λ _, mret 0) [83; 83; 68; 84] (Z.of_nat 0) demo_acpi = Ok (0x3000 + VIRT_PHYS_BASE, demo_acpi).
Proof. apply (acpi_find_table_spec (λ _, mret 0) demo_acpi demo_root demo_tables [83; 83; 68; 84] 0 demo_root_at); done. Defined.
End demo.
