(* ===== verification/Symtab.v ===== *)
(** * The kernel's symbols (arch/x86_64/symtab.cpp, symtab/symtab.cpp)

    Finding the symbols of functions in the section headers that the boot
    loader leaves in memory, and naming an address. Memory is that of
    CString.v. The array of symbols has the size it was allocated with, and an
    access outside of it is a fault; memory from [kcalloc] and [kmalloc] is
    assumed to be there, and a copied name is the list of its characters. *)
From S2P Require Import Prelude CString Printf Pmm.
From stdpp Require Import base numbers option gmap list.
#[local] Open Scope Z_scope.

(** ** symtab/symtab.cpp *)
Record symbol := Symbol { sym_name : option (list Z); sym_base : Z; sym_len : Z }.
Definition no_symbol : symbol := Symbol None 0 0.

(** [syms] and [n_symbols] *)
Record symtab := Symtab { syms : list symbol; n_symbols : Z }.

Definition symtab_init (n_syms : Z) : symtab := Symtab (replicate (Z.to_nat n_syms) no_symbol) n_syms.

Definition symtab_define_symbol (idx : Z) (name : list Z) (base len : Z) (s : symtab) : outcome symtab :=
  if n_symbols s <? idx then Ok s
  else
    _ ← access (syms s !! Z.to_nat idx);
    Ok (Symtab (<[Z.to_nat idx := Symbol (Some name) base len]> (syms s)) (n_symbols s)).

Fixpoint find_symbol (addr : Z) (l : list symbol) : symbol :=
  match l with
  | [] => Symbol (Some []) 0 0
  | x :: l' => if (sym_base x <=? addr) && (addr <=? u64 (sym_base x + sym_len x)) then x else find_symbol addr l'
  end.

(** ["??+?"] and ["%s+0x%lx"] *)
Definition fmt_unknown : list Z := [63; 63; 43; 63].
Definition fmt_symbol : list Z := [37; 115; 43; 48; 120; 37; 108; 120].

Definition symtab_format_from_addr (dest_size addr : Z) (s : symtab) : outcome (list Z) :=
  let sym := find_symbol addr (take (Z.to_nat (n_symbols s)) (syms s)) in
  if sym_len sym =? 0 then snprintf dest_size fmt_unknown []
  else
    name ← access (sym_name sym);
    snprintf dest_size fmt_symbol [VStr name; VLong (u64 (addr - sym_base sym))].

(** ** arch/x86_64/symtab.cpp *)
Definition SHT_SYMTAB : Z := 2.
Definition SHT_STRTAB : Z := 3.
Definition STT_FUNC : Z := 2.
Definition MULTIBOOT_INFO_ELF_SHDR : Z := 0x20.
Definition none : Z := 0xFFFFFFFFFFFFFFFF.

(** Offsets in [Elf64_Shdr] and [Elf64_Sym], and their sizes. *)
Definition sh_type : Z := 4.
Definition sh_addr : Z := 16.
Definition sh_size : Z := 32.
Definition sh_entsize : Z := 56.
Definition sizeof_shdr : Z := 64.
Definition st_name : Z := 0.
Definition st_info : Z := 4.
Definition st_value : Z := 8.
Definition st_size : Z := 16.
Definition sizeof_sym : Z := 24.
(** Offsets in [multiboot_info_t]. *)
Definition mb_flags : Z := 0.
Definition mb_elf_num : Z := 28.
Definition mb_elf_addr : Z := 36.

(** The loop over the headers, [n] of them from [i] on. *)
Fixpoint find_sections (shdrs i symtab strtab : Z) (n : nat) : M cmem (Z * Z) :=
  match n with
  | O => mret (symtab, strtab)
  | S n' =>
      (* a type is read where the condition asks for it *)
      symtab ← (if symtab =? none then
                  t ← ld_le (shdrs + sizeof_shdr * i + sh_type) 4; mret (if t =? SHT_SYMTAB then i else symtab)
                else mret symtab);
      strtab ← (if strtab =? none then
                  t ← ld_le (shdrs + sizeof_shdr * i + sh_type) 4; mret (if t =? SHT_STRTAB then i else strtab)
                else mret strtab);
      if negb (strtab =? none) && negb (symtab =? none) then mret (symtab, strtab)
      else find_sections shdrs (i + 1) symtab strtab n'
  end.

(** [strlen], [kmalloc] and [strcpy] *)
Definition copy_name (p : Z) : M cmem (list Z) := n ← strlen p; read_block p (Z.to_nat n).

Fixpoint define_loop (symaddr straddr i : Z) (n : nat) (s : symtab) : M cmem symtab :=
  match n with
  | O => mret s
  | S n' =>
      let sym := symaddr + sizeof_sym * i in
      name ← ld_le (sym + st_name) 4;
      info ← ld_le (sym + st_info) 1;
      value ← ld_le (sym + st_value) 8;
      size ← ld_le (sym + st_size) 8;
      if negb (Z.land info 0xf =? STT_FUNC) then define_loop symaddr straddr (i + 1) n' s
      else
        str ← copy_name (u64 (straddr + name));
        s ← lift (symtab_define_symbol i str value size s);
        define_loop symaddr straddr (i + 1) n' s
  end.

Definition arch_symtab_parse (mboot : Z) (s : symtab) : M cmem symtab :=
  flags ← ld_le (mboot + mb_flags) 4;
  if negb (has flags MULTIBOOT_INFO_ELF_SHDR) then mret s
  else
    addr ← ld_le (mboot + mb_elf_addr) 4;
    let shdrs := u64 (addr + VIRT_PHYS_BASE) in
    num ← ld_le (mboot + mb_elf_num) 4;
    '(symtab, strtab) ← find_sections shdrs 0 none none (Z.to_nat num);
    if (symtab =? none) || (strtab =? none) then mret s
    else
      size ← ld_le (shdrs + sizeof_shdr * symtab + sh_size) 8;
      entsize ← ld_le (shdrs + sizeof_shdr * symtab + sh_entsize) 8;
      (* a division by 0 is a fault *)
      n_syms ← lift (if entsize =? 0 then Fault else Ok (size / entsize));
      symaddr ← ld_le (shdrs + sizeof_shdr * symtab + sh_addr) 8;
      straddr ← ld_le (shdrs + sizeof_shdr * strtab + sh_addr) 8;
      define_loop (u64 (symaddr + VIRT_PHYS_BASE)) (u64 (straddr + VIRT_PHYS_BASE)) 0 (Z.to_nat n_syms) (symtab_init n_syms).

(** ** Naming an address *)
Lemma bind_Ok {A B} (a : A) (f : A → outcome B) : Ok a ≫= f = f a.
Proof. reflexivity. Qed.

Lemma convert_hex sp st z ds args :
  num_fmt NUM_BUF_LEN (u64 z) 16 0 32 false false 16 = Ok ds →
  convert 120 0 32 true (Out st sp false) (VLong z :: args) = Ok (put_all (Out st sp false) ds, args).
Proof.
  intros Hd. unfold convert. cbv beta zeta. cbn [Z.eqb Pos.eqb orb arg_num]. cbv iota.
  rewrite bind_Ok. cbv beta iota. rewrite Hd, bind_Ok. reflexivity.
Qed.

Lemma loop_hex f fmt st sp z ds args :
  sp ≠ 0 → num_fmt NUM_BUF_LEN (u64 z) 16 0 32 false false 16 = Ok ds →
  vsnprintf_loop (S f) (37 :: 108 :: 120 :: fmt) (Out st sp false) (VLong z :: args) =
    vsnprintf_loop f fmt (put_all (Out st sp false) ds) args.
Proof.
  intros Hs Hd. unfold vsnprintf_loop at 1. fold vsnprintf_loop. cbn [space ended stored].
  destruct (Z.eqb_spec sp 0); [done|]. change (negb (37 =? 37)) with false. cbn [orb]. cbv iota.
  change (read_padding (108 :: 120 :: fmt) 0) with (0, 108 :: 120 :: fmt). cbv iota beta.
  change (read_wide (108 :: 120 :: fmt) false) with (true, 120 :: fmt). cbv iota beta.
  by rewrite (convert_hex sp st z ds args Hd).
Qed.

Lemma format_symbol dest_size name off :
  chars name → is_u64 off → len name + 16 < dest_size →
  ∃ ds, snprintf dest_size fmt_symbol [VStr name; VLong off] = Ok (name ++ [43; 48; 120] ++ ds ++ [0]) ∧
    number_in 16 ds = off ∧ (0 < length ds ≤ 16)%nat.
Proof.
  intros Hn Ho Hs. destruct (num_fmt_hex off Ho) as (ds & Hds & Hnum & Hl & Hr). exists ds. split; [|done].
  assert (chars ds) as Hr' by (eapply Forall_impl; [exact Hr|]; cbn; lia).
  unfold snprintf, vsnprintf, fmt_symbol. cbn [length]. pose proof (len_pos name). assert (len ds ≤ 16) by (unfold len; lia).
  rewrite loop_string by lia. rewrite put_all_run by (done || lia).
  rewrite !loop_plain by lia. rewrite (loop_hex _ _ _ _ off ds) by (lia || by rewrite u64_small).
  rewrite (put_all_run ds) by (done || lia). cbn [vsnprintf_loop mbind outcome_bind stored space].
  destruct (Z.eqb_spec (dest_size - len name - len ds) 0); [lia|].
  f_equal. by rewrite <- !app_assoc.
Qed.

(** ** The symbols of the image *)
Record elf_sym := ElfSym { e_name : list Z; e_info : Z; e_value : Z; e_size : Z }.
Definition is_func (x : elf_sym) : bool := Z.land (e_info x) 0xf =? STT_FUNC.

(** The bytes of a symbol at [p], with its name in the table at [straddr]. *)
Definition sym_at (m : cmem) (p straddr : Z) (x : elf_sym) : Prop :=
  ∃ l, seg m p l ∧ length l = 24%nat ∧ le_value (sub_bytes l 4 1) = e_info x ∧
    le_value (sub_bytes l 8 8) = e_value x ∧ le_value (sub_bytes l 16 8) = e_size x ∧
    str_at m (u64 (straddr + le_value (sub_bytes l 0 4))) (e_name x).

(** What the kernel keeps of a symbol. *)
Definition kept (x : elf_sym) : symbol :=
  if is_func x then Symbol (Some (e_name x)) (e_value x) (e_size x) else no_symbol.

Lemma copy_name_run m p l : str_at m p l → copy_name p m = Ok (l, m).
Proof.
  intros H. unfold copy_name. run (strlen_run m p l H). unfold len. rewrite Nat2Z.id. apply read_block_run.
  destruct H as [_ H]. by apply seg_app in H as [H _].
Qed.

Lemma define_loop_run m symaddr straddr xs done_ n :
  n = Z.of_nat (length done_ + length xs) →
  (∀ i x, xs !! i = Some x → sym_at m (symaddr + sizeof_sym * Z.of_nat (length done_ + i)) straddr x) →
  define_loop symaddr straddr (Z.of_nat (length done_)) (length xs) (Symtab (done_ ++ replicate (length xs) no_symbol) n) m =
    Ok (Symtab (done_ ++ (kept <$> xs)) n, m).
Proof.
  revert done_. induction xs as [|x xs IH]; intros done_ Hn Hx; [done|]. cbn [length replicate define_loop].
  destruct (Hx 0%nat x eq_refl) as (l & Hs & Hl & Hi & Hv & Hz & Hname). rewrite Nat.add_0_r in Hs.
  run (ld_field m _ l 0 4 Hs ltac:(lia)). run (ld_field m _ l 4 1 Hs ltac:(lia)). run (ld_field m _ l 8 8 Hs ltac:(lia)).
  run (ld_field m _ l 16 8 Hs ltac:(lia)). rewrite Hi, Hv, Hz. fold (is_func x).
  assert (Hnext : ∀ y, define_loop symaddr straddr (Z.of_nat (length done_) + 1) (length xs)
      (Symtab (done_ ++ y :: replicate (length xs) no_symbol) n) m = Ok (Symtab (done_ ++ y :: (kept <$> xs)) n, m)).
  { intros y. specialize (IH (done_ ++ [y])). rewrite length_app in IH. cbn [length] in IH. rewrite <- !app_assoc in IH. cbn [app] in IH.
    replace (Z.of_nat (length done_) + 1) with (Z.of_nat (length done_ + 1)) by lia. apply IH; [cbn [length] in Hn; lia|].
    intros i z Hz'. specialize (Hx (S i) z Hz'). replace (length done_ + 1 + i)%nat with (length done_ + S i)%nat by lia. done. }
  rewrite fmap_cons. change (kept x) with (if is_func x then Symbol (Some (e_name x)) (e_value x) (e_size x) else no_symbol).
  destruct (is_func x); cbn [negb]; [|apply Hnext]. run (copy_name_run m _ _ Hname).
  assert (symtab_define_symbol (Z.of_nat (length done_)) (e_name x) (e_value x) (e_size x)
    (Symtab (done_ ++ no_symbol :: replicate (length xs) no_symbol) n) =
    Ok (Symtab (done_ ++ Symbol (Some (e_name x)) (e_value x) (e_size x) :: replicate (length xs) no_symbol) n)) as Hdef.
  { unfold symtab_define_symbol. cbn [n_symbols syms]. cbn [length] in Hn. destruct (Z.ltb_spec n (Z.of_nat (length done_))); [lia|].
    rewrite Nat2Z.id. assert ((done_ ++ no_symbol :: replicate (length xs) no_symbol) !! length done_ = Some no_symbol) as ->
      by (by apply list_lookup_middle).
    cbn [access]. rewrite bind_Ok. do 2 f_equal. rewrite <- (Nat.add_0_r (length done_)) at 1. by rewrite insert_app_r. }
  rewrite Hdef. erewrite bind_run; [|reflexivity]. apply Hnext.
Qed.

(** ** The section headers *)
Definition header_type (h : list Z) : Z := le_value (sub_bytes h 4 4).
Definition first_of (ty : Z) (i : nat) (hs : list (list Z)) : Z :=
  match list_find (λ h, header_type h = ty) hs with Some (k, _) => Z.of_nat (i + k) | None => none end.
Definition headers_at (m : cmem) (shdrs : Z) (hs : list (list Z)) : Prop :=
  ∀ i h, hs !! i = Some h → length h = 64%nat ∧ seg m (shdrs + sizeof_shdr * Z.of_nat i) h.

Lemma first_of_cons ty i h hs :
  first_of ty i (h :: hs) = if header_type h =? ty then Z.of_nat i else first_of ty (S i) hs.
Proof.
  unfold first_of. cbn [list_find]. destruct (Z.eqb_spec (header_type h) ty); [rewrite decide_True by done; f_equal; lia|].
  rewrite decide_False by done. destruct (list_find _ hs) as [[k ?]|]; cbn; [f_equal; lia|done].
Qed.

Lemma find_sections_run m shdrs hs k hs' a b :
  headers_at m shdrs hs → drop k hs = hs' → Z.of_nat (length hs) < none → a = none ∨ b = none →
  find_sections shdrs (Z.of_nat k) a b (length hs') m =
    Ok ((if a =? none then first_of SHT_SYMTAB k hs' else a, if b =? none then first_of SHT_STRTAB k hs' else b), m).
Proof.
  intros Hh. revert k a b. induction hs' as [|h hs' IH]; intros k a b Hd Hlen Hab.
  { change (first_of SHT_SYMTAB k []) with none. change (first_of SHT_STRTAB k []) with none.
    assert (∀ c, (if c =? none then none else c) = c) as Hc by (intros c; by destruct (Z.eqb_spec c none)). by rewrite !Hc. }
  assert (hs !! k = Some h) as Hk by (rewrite <- (Nat.add_0_r k), <- lookup_drop, Hd; done).
  assert (drop (S k) hs = hs') as Hd' by (rewrite <- (skipn_skipn 1 k), Hd; done).
  pose proof (lookup_lt_Some _ _ _ Hk) as Hlt. destruct (Hh k h Hk) as [H64 Hs].
  cbn [length find_sections]. pose proof (ld_field m _ h 4 4 Hs ltac:(lia)) as Hty. fold (header_type h) in Hty. change (Z.of_nat 4) with sh_type in Hty.
  set (a' := if a =? none then if header_type h =? SHT_SYMTAB then Z.of_nat k else a else a).
  set (b' := if b =? none then if header_type h =? SHT_STRTAB then Z.of_nat k else b else b).
  assert (∀ X Y (f : M cmem Z) (g : Z → M cmem X), f m = Ok (Y, m) → (f ≫= g) m = g Y m) as Hb by (intros X Y f g E; by run E).
  rewrite (Hb _ a') by (unfold a'; destruct (a =? none); [by run Hty|done]).
  rewrite (Hb _ b') by (unfold b'; destruct (b =? none); [by run Hty|done]).
  assert (∀ ty c, (if (if c =? none then if header_type h =? ty then Z.of_nat k else c else c) =? none
                   then first_of ty (S k) hs' else if c =? none then if header_type h =? ty then Z.of_nat k else c else c)
                  = if c =? none then first_of ty k (h :: hs') else c) as Hstep.
  { intros ty c. rewrite first_of_cons. destruct (Z.eqb_spec c none) as [->|Hc]; [|by destruct (Z.eqb_spec c none)].
    destruct (header_type h =? ty); [|by rewrite Z.eqb_refl]. by destruct (Z.eqb_spec (Z.of_nat k) none); [lia|]. }
  rewrite <- !Hstep. fold a' b'.
  destruct (Z.eqb_spec b' none) as [Eb|Eb], (Z.eqb_spec a' none) as [Ea|Ea]; cbn [negb andb];
    try (replace (Z.of_nat k + 1) with (Z.of_nat (S k)) by lia; rewrite IH by (done || lia || by (left + right));
      destruct (Z.eqb_spec a' none), (Z.eqb_spec b' none); done).
  done.
Qed.

(** ** The whole *)

(** The boot loader's record at [mboot] describes the section headers [hs],
    the first symbol table of which holds [xs], with names in the first string
    table. *)
Record image_at (m : cmem) (mboot : Z) (hs : list (list Z)) (xs : list elf_sym) : Prop := {
  im_boot : ∃ l, seg m mboot l ∧ length l = 40%nat ∧ has (le_value (sub_bytes l 0 4)) MULTIBOOT_INFO_ELF_SHDR = true ∧
    le_value (sub_bytes l 28 4) = Z.of_nat (length hs) ∧ headers_at m (u64 (le_value (sub_bytes l 36 4) + VIRT_PHYS_BASE)) hs;
  im_count : Z.of_nat (length hs) < 2 ^ 32;
  im_tables : ∃ i j h h', first_of SHT_SYMTAB 0 hs = Z.of_nat i ∧ hs !! i = Some h ∧
    first_of SHT_STRTAB 0 hs = Z.of_nat j ∧ hs !! j = Some h' ∧
    le_value (sub_bytes h 32 8) = 24 * Z.of_nat (length xs) ∧ le_value (sub_bytes h 56 8) = 24 ∧
    ∀ k x, xs !! k = Some x → sym_at m (u64 (le_value (sub_bytes h 16 8) + VIRT_PHYS_BASE) + sizeof_sym * Z.of_nat k)
      (u64 (le_value (sub_bytes h' 16 8) + VIRT_PHYS_BASE)) x;
}.

Lemma ld_header m shdrs hs i h off n v :
  headers_at m shdrs hs → hs !! i = Some h → (off + n ≤ 64)%nat → le_value (sub_bytes h off n) = v →
  ld_le (shdrs + sizeof_shdr * Z.of_nat i + Z.of_nat off) n m = Ok (v, m).
Proof. intros Hh Hi Hn <-. destruct (Hh i h Hi) as [H64 Hs]. apply ld_field; [done|lia]. Qed.

Lemma symtab_parse_run m mboot hs xs s :
  image_at m mboot hs xs →
  arch_symtab_parse mboot s m = Ok (Symtab (kept <$> xs) (Z.of_nat (length xs)), m).
Proof.
  intros [(l & Hs & Hl & Hf & Hnum & Hh) Hc (i & j & h & h' & Ei & Hi & Ej & Hj & Hsz & Hent & Hx)].
  unfold arch_symtab_parse. run (ld_field m mboot l 0 4 Hs ltac:(lia)). rewrite Hf. cbn [negb].
  change mb_elf_addr with (Z.of_nat 36). run (ld_field m mboot l 36 4 Hs ltac:(lia)).
  change mb_elf_num with (Z.of_nat 28). run (ld_field m mboot l 28 4 Hs ltac:(lia)). rewrite Hnum, Nat2Z.id. cbv zeta.
  set (shdrs := u64 (le_value (sub_bytes l 36 4) + VIRT_PHYS_BASE)) in *.
  assert (Z.of_nat (length hs) < none) as Hn by (unfold none; lia).
  pose proof (lookup_lt_Some _ _ _ Hi). pose proof (lookup_lt_Some _ _ _ Hj).
  run (find_sections_run m shdrs hs 0 hs none none Hh eq_refl Hn (or_introl eq_refl)). rewrite Z.eqb_refl, Ei, Ej.
  cbv beta iota. destruct (Z.eqb_spec (Z.of_nat i) none); [lia|]. destruct (Z.eqb_spec (Z.of_nat j) none); [lia|]. cbn [orb].
  run (ld_header m shdrs hs i h 32 8 _ Hh Hi ltac:(lia) Hsz). run (ld_header m shdrs hs i h 56 8 _ Hh Hi ltac:(lia) Hent).
  cbn [Z.eqb]. replace (24 * Z.of_nat (length xs) / 24) with (Z.of_nat (length xs)) by (rewrite Z.mul_comm, Z.div_mul; lia).
  erewrite bind_run; [|reflexivity].
  run (ld_header m shdrs hs i h 16 8 _ Hh Hi ltac:(lia) eq_refl). run (ld_header m shdrs hs j h' 16 8 _ Hh Hj ltac:(lia) eq_refl).
  unfold symtab_init. rewrite Nat2Z.id. by apply (define_loop_run m _ _ xs []).
Qed.

(** A function that an address is attributed to. *)
Definition covers (addr : Z) (x : elf_sym) : Prop :=
  is_func x = true ∧ e_value x ≤ addr ≤ u64 (e_value x + e_size x).
#[export] Instance covers_dec addr x : Decision (covers addr x).
Proof. unfold covers. apply _. Defined.

Lemma find_symbol_kept addr xs :
  0 < addr → find_symbol addr (kept <$> xs) =
    match list_find (covers addr) xs with Some (_, x) => kept x | None => Symbol (Some []) 0 0 end.
Proof.
  intros Ha. induction xs as [|x xs IH]; [done|]. cbn [fmap list_fmap find_symbol list_find]. rewrite IH.
  assert ((sym_base (kept x) <=? addr) && (addr <=? u64 (sym_base (kept x) + sym_len (kept x))) = bool_decide (covers addr x)) as ->.
  { apply eq_true_iff_eq. rewrite bool_decide_eq_true, andb_true_iff, !Z.leb_le. unfold kept, covers.
    destruct (is_func x); cbn [sym_base sym_len no_symbol]; [tauto|]. change (u64 (0 + 0)) with 0. intuition (done || lia). }
  case_bool_decide as Hcov; [by rewrite decide_True|]. rewrite decide_False by done.
  by destruct (list_find (covers addr) xs) as [[? ?]|].
Qed.

(** C24. After the image was parsed, an address is named by the first symbol of a
    function it is attributed to: the name, ["+0x"] and the digits of the
    distance; or by ["??+?"] when there is none or its size is 0. The end of a
    function counts as inside. *)
Theorem symtab_resolves m mboot hs xs s :
  image_at m mboot hs xs →
  ∃ s', arch_symtab_parse mboot s m = Ok (s', m) ∧
  ∀ addr dest_size, 0 < addr < 2 ^ 64 → 0 < dest_size →
    match list_find (covers addr) xs with
    | Some (_, x) =>
        if e_size x =? 0 then symtab_format_from_addr dest_size addr s' = Ok (fmt_unknown ++ [0])
        else len (e_name x) + 16 < dest_size → 0 ≤ e_value x →
          ∃ ds, symtab_format_from_addr dest_size addr s' = Ok (e_name x ++ [43; 48; 120] ++ ds ++ [0]) ∧
            number_in 16 ds = addr - e_value x
    | None => symtab_format_from_addr dest_size addr s' = Ok (fmt_unknown ++ [0])
    end.
Proof.
  intros Him. exists (Symtab (kept <$> xs) (Z.of_nat (length xs))). split; [by apply symtab_parse_run with hs|].
  intros addr dest_size Ha Hd. unfold symtab_format_from_addr. cbn [n_symbols syms].
  rewrite Nat2Z.id, take_ge by (by rewrite length_fmap). rewrite find_symbol_kept by lia.
  assert (snprintf dest_size fmt_unknown [] = Ok (fmt_unknown ++ [0])) as Hun.
  { apply vsnprintf_plain; [done|]. repeat (apply Forall_cons; split; [lia|]). by apply Forall_nil. }
  destruct (list_find (covers addr) xs) as [[i x]|] eqn:E; [|exact Hun].
  apply list_find_Some in E as (Hx & [Hfun Hr] & _). unfold kept. rewrite Hfun. cbn [sym_len sym_name sym_base].
  destruct (Z.eqb_spec (e_size x) 0); [exact Hun|]. intros Hlen Hv. cbn [access]. rewrite bind_Ok.
  assert (chars (e_name x)) as Hch.
  { destruct (im_tables _ _ _ _ Him) as (? & ? & ? & ? & _ & _ & _ & _ & _ & _ & Hsym). by destruct (Hsym i x Hx) as (? & _ & _ & _ & _ & _ & [? _]). }
  rewrite u64_small by lia. destruct (format_symbol dest_size (e_name x) (addr - e_value x)) as (ds & H1 & H2 & _); [done|unfold is_u64; lia|done|].
  by exists ds.
Qed.

(** ** An image with one function *)
Section demo.
Definition zeros (n : nat) : list Z := replicate n 0.
Definition demo_boot : list Z := [0x20; 0; 0; 0] ++ zeros 24 ++ [2; 0; 0; 0] ++ zeros 4 ++ [0; 0x20; 0; 0].
Definition demo_header (ty addr size entsize : Z) : list Z :=
  zeros 4 ++ [ty; 0; 0; 0] ++ zeros 8 ++ [0; addr; 0; 0; 0; 0; 0; 0] ++ zeros 8 ++
  [size; 0; 0; 0; 0; 0; 0; 0] ++ zeros 16 ++ [entsize; 0; 0; 0; 0; 0; 0; 0].
Definition demo_headers : list (list Z) := [demo_header SHT_STRTAB 0x40 4 0; demo_header SHT_SYMTAB 0x30 24 24].
Definition demo_sym_bytes : list Z := [1; 0; 0; 0; 0x12; 0; 1; 0; 0; 1; 0; 0; 0; 0; 0; 0; 16; 0; 0; 0; 0; 0; 0; 0].
Definition demo_names : list Z := [0; 102; 0].
Definition demo_syms : list elf_sym := [ElfSym [102] 0x12 0x100 16].
Definition demo_image : cmem :=
  put_seg 0x1000 demo_boot (put_seg (0x2000 + VIRT_PHYS_BASE) (concat demo_headers)
    (put_seg (0x3000 + VIRT_PHYS_BASE) demo_sym_bytes (put_seg (0x4000 + VIRT_PHYS_BASE) demo_names ∅))).

Lemma demo_image_at : image_at demo_image 0x1000 demo_headers demo_syms.
Proof.
  assert (seg demo_image (0x2000 + VIRT_PHYS_BASE) (concat demo_headers)) as Hh by (apply put_seg_keep; [by left|apply put_seg_seg]).
  assert (seg demo_image (0x3000 + VIRT_PHYS_BASE) demo_sym_bytes) as Hs by (do 2 (apply put_seg_keep; [by left|]); apply put_seg_seg).
  assert (seg demo_image (0x4000 + VIRT_PHYS_BASE) demo_names) as Hn by (do 3 (apply put_seg_keep; [by left|]); apply put_seg_seg).
  split; [|done|].
  - exists demo_boot. split; [apply put_seg_seg|]. do 3 (split; [reflexivity|]).
    cbn [concat demo_headers app] in Hh. apply seg_app in Hh as [H0 H1]. apply seg_app in H1 as [H1 _].
    intros i h Hi. destruct i as [|[|i]]; [| |discriminate]; injection Hi as <-; (split; [reflexivity|assumption]).
  - exists 1%nat, 0%nat, (demo_header SHT_SYMTAB 0x30 24 24), (demo_header SHT_STRTAB 0x40 4 0).
    do 6 (split; [reflexivity|]). intros k x Hk. destruct k as [|k]; [|discriminate]. injection Hk as <-.
    exists demo_sym_bytes. split; [exact Hs|]. do 4 (split; [reflexivity|]). split; [by apply Forall_singleton|].
    cbn [demo_names] in Hn. destruct Hn as [_ Hn]. exact Hn.
Qed.

Lemma symtab_resolves_witness :
  ∃ s', arch_symtab_parse 0x1000 (Symtab [] 0) demo_image = Ok (s', demo_image) ∧
  ∃ ds, symtab_format_from_addr 64 0x104 s' = Ok ([102] ++ [43; 48; 120] ++ ds ++ [0]) ∧ number_in 16 ds = 4.
Proof.
  destruct (symtab_resolves demo_image 0x1000 demo_headers demo_syms (Symtab [] 0) demo_image_at) as (s' & H1 & H2).
  exists s'. split; [exact H1|]. apply (H2 0x104 64); [lia|lia|reflexivity|done].
Defined.
End demo.
