(* ===== verification/Diag.v ===== *)
(** * Reports of faults (lib/panic.cpp, util/util.cpp, ubsan.cpp, arch/x86_64/cpu/cpu.cpp)

    What a panic, a failed assertion, the handlers of the sanitizer and the
    dumps of registers and of the stack write to the console. The state is the
    characters written so far. A routine that halts the machine at its end
    returns here, with the console as it is then. *)
From S2P Require Import Prelude CString Printf Syscall Cpu Symtab PrintSpec.
From stdpp Require Import base numbers option gmap list strings sets.
#[local] Open Scope Z_scope.

Notation log_state := (list Z).

Definition say (src fmt : list Z) (args : list varg) : M log_state () :=
  l ← lift (kmesg src fmt args); modify (λ c, c ++ l).

(** ** ubsan.cpp *)
Record type_descriptor := TypeDescriptor { type_kind : Z; type_info : Z; type_name : list Z }.
Record source_location := SourceLocation { filename : list Z; line : Z; column : Z }.
(** What is pointed to is a member here. *)
Record overflow_data := OverflowData { ov_loc : source_location; ov_type : type_descriptor }.
Record shift_out_of_bounds_data :=
  ShiftData { sh_loc : source_location; lhs_type : type_descriptor; rhs_type : type_descriptor }.
Record out_of_bounds_data :=
  OutOfBoundsData { oob_loc : source_location; array_type : type_descriptor; index_type : type_descriptor }.
Record non_null_return_data := NonNullReturnData { attr_loc : source_location }.
Record type_mismatch_data_v1 :=
  MismatchV1 { m1_loc : source_location; m1_type : type_descriptor; log_alignment : Z; m1_check_kind : Z }.
Record type_mismatch_data :=
  Mismatch { mm_loc : source_location; mm_type : type_descriptor; alignment : Z; mm_check_kind : Z }.
Record vla_bound_data := VlaBoundData { vla_loc : source_location; vla_type : type_descriptor }.
Record invalid_value_data := InvalidValueData { iv_loc : source_location; iv_type : type_descriptor }.
Record unreachable_data := UnreachableData { ur_loc : source_location }.
Record nonnull_arg_data := NonnullArgData { na_loc : source_location }.

Definition log_location (loc : source_location) : M log_state () :=
  say (txt "ubsan") (txt "ubsan failure at %s:%d") [VStr (filename loc); VInt (s32 (line loc))].

Definition __ubsan_handle_add_overflow (data : overflow_data) (lhs rhs : Z) : M log_state () :=
  say (txt "ubsan") (txt "add of %ld and %ld will overflow") [VLong lhs; VLong rhs];; log_location (ov_loc data).
Definition __ubsan_handle_sub_overflow (data : overflow_data) (lhs rhs : Z) : M log_state () :=
  say (txt "ubsan") (txt "subtract of %ld and %ld will overflow") [VLong lhs; VLong rhs];; log_location (ov_loc data).
Definition __ubsan_handle_pointer_overflow (data : overflow_data) (lhs rhs : Z) : M log_state () :=
  say (txt "ubsan") (txt "pointer %lx and %lx will overflow") [VLong lhs; VLong rhs];; log_location (ov_loc data).
Definition __ubsan_handle_mul_overflow (data : overflow_data) (lhs rhs : Z) : M log_state () :=
  say (txt "ubsan") (txt "multiply of %ld and %ld will overflow") [VLong lhs; VLong rhs];; log_location (ov_loc data).
Definition __ubsan_handle_divrem_overflow (data : overflow_data) (lhs rhs : Z) : M log_state () :=
  say (txt "ubsan") (txt "division of %ld and %ld will overflow") [VLong lhs; VLong rhs];; log_location (ov_loc data).
Definition __ubsan_handle_negate_overflow (data : overflow_data) (old : Z) : M log_state () :=
  say (txt "ubsan") (txt "negation of %ld will overflow") [VLong old];; log_location (ov_loc data).
Definition __ubsan_handle_shift_out_of_bounds (data : shift_out_of_bounds_data) (lhs rhs : Z) : M log_state () :=
  say (txt "ubsan") (txt "shift of %ld by %ld will go out of bounds") [VLong lhs; VLong rhs];; log_location (sh_loc data).
Definition __ubsan_handle_out_of_bounds (data : out_of_bounds_data) (index : Z) : M log_state () :=
  say (txt "ubsan") (txt "out of bounds access at index %ld") [VLong index];; log_location (oob_loc data).
Definition __ubsan_handle_nonnull_return (data : non_null_return_data) (loc : source_location) : M log_state () :=
  say (txt "ubsan") (txt "null return at %s:%d") [VStr (filename (attr_loc data)); VInt (s32 (line (attr_loc data)))];;
  log_location loc.

(** [(1 << data->log_alignment)] is an [int] where [%ld] takes a [long]: the
    upper half of the argument's slot, [upper], is not set by the call. A shift
    to the sign bit or past it is undefined. *)
Definition int_slot (upper i : Z) : Z := u64 (upper * 2 ^ 32 + u32 i).
Definition __ubsan_handle_type_mismatch_v1 (upper : Z) (data : type_mismatch_data_v1) (ptr : Z) : M log_state () :=
  (if ptr =? 0 then say (txt "ubsan") (txt "null pointer access") []
   else if 31 <=? log_alignment data then lift Fault
   else if has ptr (Z.shiftl 1 (log_alignment data) - 1) then
     say (txt "ubsan") (txt "misaligned access (ptr %016lx, alignment %ld)")
       [VLong ptr; VLong (int_slot upper (Z.shiftl 1 (log_alignment data)))]
   else say (txt "ubsan") (txt "too large access (ptr %016lx)") [VLong ptr]);;
  log_location (m1_loc data).

Definition __ubsan_handle_vla_bound_not_positive (data : vla_bound_data) (bound : Z) : M log_state () :=
  say (txt "ubsan") (txt "negative vla bound %ld") [VLong bound];; log_location (vla_loc data).
Definition __ubsan_handle_load_invalid_value (data : invalid_value_data) (val : Z) : M log_state () :=
  say (txt "ubsan") (txt "invalid value %lx") [VLong val];; log_location (iv_loc data).
Definition __ubsan_handle_builtin_unreachable (data : unreachable_data) : M log_state () :=
  say (txt "ubsan") (txt "reached __builtin_unreachabe") [];; log_location (ur_loc data).
Definition __ubsan_handle_nonnull_arg (data : nonnull_arg_data) : M log_state () :=
  say (txt "ubsan") (txt "null argument") [];; log_location (na_loc data).
Definition __ubsan_handle_type_mismatch (data : type_mismatch_data) (ptr : Z) : M log_state () :=
  (if ptr =? 0 then say (txt "ubsan") (txt "null pointer access") []
   else if has ptr (u64 (alignment data - 1)) then
     say (txt "ubsan") (txt "misaligned access (ptr %016lx, alignment %ld)") [VLong ptr; VLong (alignment data)]
   else say (txt "ubsan") (txt "too large access (ptr %016lx)") [VLong ptr]);;
  log_location (mm_loc data).

(** ** cpu.cpp *)
Section machine.
(** The symbols, the stack by address, and the registers [cr2] and [rbp]. *)
Context (st : symtab) (stack : Z → option Z) (cr2 rbp : Z).

(** [char buf[256 + 4]; symtab_format_from_addr(buf, 256, addr)] *)
Definition symbol_text (addr : Z) : outcome (list Z) := into_buffer (256 + 4) (symtab_format_from_addr 256 addr st).

(** [%016x] takes an [int] from the slot of a [uint64_t]. *)
Definition low_int (z : Z) : varg := VInt (s32 z).

Definition cpu_dump_regs_irq (state : irq_cpu_state_t) : M log_state () :=
  buf ← lift (symbol_text (i_rip state));
  say (txt "cpu") (txt "rax: %016lx rbx: %016lx") [VLong (i_rax state); VLong (i_rbx state)];;
  say (txt "cpu") (txt "rcx: %016lx rdx: %016lx") [VLong (i_rcx state); VLong (i_rdx state)];;
  say (txt "cpu") (txt "rsi: %016lx rdi: %016lx") [VLong (i_rsi state); VLong (i_rdi state)];;
  say (txt "cpu") (txt "rsp: %016lx rbp: %016lx") [VLong (i_rsp state); VLong (i_rbp state)];;
  say (txt "cpu") (txt "rip: %016lx rfl: %016lx") [VLong (i_rip state); VLong (i_rflags state)];;
  say (txt "cpu") (txt "rip -> %s") [VStr buf];;
  say (txt "cpu") (txt "r15: %016lx r14: %016lx") [VLong (i_r15 state); VLong (i_r14 state)];;
  say (txt "cpu") (txt "r13: %016lx r12: %016lx") [VLong (i_r13 state); VLong (i_r12 state)];;
  say (txt "cpu") (txt "r11: %016lx r10: %016lx") [VLong (i_r11 state); VLong (i_r10 state)];;
  say (txt "cpu") (txt "r9:  %016lx r8:  %016lx") [VLong (i_r9 state); VLong (i_r8 state)];;
  say (txt "cpu") (txt "cs:  %016x ss:  %016x") [low_int (i_cs state); low_int (i_ss state)];;
  say (txt "cpu") (txt "cr2: %016lx") [VLong cr2].

(** The loop; [ip] is read from the frame before [bp] moves to the next one. *)
Fixpoint trace_loop (fuel : nat) (bp ip idx : Z) : M log_state () :=
  if bp =? 0 then mret tt
  else
    match fuel with
    | O => lift Hang
    | S fuel' =>
        buf ← lift (symbol_text ip);
        say (txt "cpu") (txt "#%lu: [%016lx] -> %s") [VLong idx; VLong ip; VStr buf];;
        ip ← lift (access (stack (u64 (bp + 8))));
        bp ← lift (access (stack bp));
        trace_loop fuel' bp ip (u64 (idx + 1))
    end.

Definition cpu_trace_stack (fuel : nat) : M log_state () :=
  ip ← lift (access (stack (u64 (rbp + 8))));
  trace_loop fuel rbp ip 0.

Definition arch_cpu_dump_state (state : irq_cpu_state_t) : M log_state () := cpu_dump_regs_irq state.
Definition arch_cpu_trace_stack (fuel : nat) : M log_state () := cpu_trace_stack fuel.

(** ** panic.cpp, util.cpp *)

(** [cpu] is the number of the processor. At its end the machine halts. *)
Definition panic (fuel : nat) (cpu : Z) (state : option irq_cpu_state_t) (message : list Z) (va : list varg) : M log_state () :=
  buf ← lift (into_buffer (128 + 16) (vsnprintf 128 message va));
  say (txt "kernel") (txt "Kernel panic on cpu %d!") [VInt cpu];;
  say (txt "kernel") (txt "Message: '%s'") [VStr buf];;
  (match state with Some s => arch_cpu_dump_state s | None => mret tt end);;
  arch_cpu_trace_stack fuel;;
  say (txt "kernel") (txt "halting") [].

Definition frg_panic (fuel : nat) (cpu : Z) (str : list Z) : M log_state () :=
  panic fuel cpu None (txt "frigg assertion failed: '%s'") [VStr str].

Definition __assert_failure (fuel : nat) (cpu : Z) (expr file : list Z) (line : Z) (function : list Z) : M log_state () :=
  say (txt "kernel") (txt "%s:%d: %s: assertion '%s' failed") [VStr file; VInt line; VStr function; VStr expr];;
  panic fuel cpu None (txt "assertion failure") [].
End machine.

(** ** Lines of the console *)
Definition line_of (src l : list Z) : list Z := src ++ [58; 32] ++ l ++ [10].

(** [c'] is [c] and a line for each of the messages, with the text that shows it. *)
Definition printed (ms : list (list Z * list piece)) (c c' : list Z) : Prop :=
  ∃ ls, Forall2 (λ m l, message_text m.2 l) ms ls ∧
    c' = c ++ concat (zip_with (λ m l, line_of m.1 l) ms ls).

(** A message that is not too long, from a source with a short name. *)
Definition fits (m : list Z * list piece) : Prop :=
  chars m.1 ∧ len m.1 ≤ 16 ∧ Forall proper m.2 ∧ room_of m.2 < 1024.

Lemma printed_nil c : printed [] c c.
Proof. exists []. split; [by apply Forall2_nil|]. by rewrite app_nil_r. Qed.

Lemma printed_app ms1 ms2 c1 c2 c3 : printed ms1 c1 c2 → printed ms2 c2 c3 → printed (ms1 ++ ms2) c1 c3.
Proof.
  intros (l1 & H1 & ->) (l2 & H2 & ->). exists (l1 ++ l2). split; [by apply Forall2_app|].
  rewrite zip_with_app by (by eapply Forall2_length). by rewrite concat_app, app_assoc.
Qed.

(** A routine that prints these messages, from any console. *)
Definition prints (m : M log_state ()) (ms : list (list Z * list piece)) : Prop :=
  ∀ c, ∃ c', m c = Ok (tt, c') ∧ printed ms c c'.

Lemma prints_nil : prints (mret tt) [].
Proof. intros c. exists c. split; [done|apply printed_nil]. Qed.

Lemma prints_seq m k ms1 ms2 : prints m ms1 → prints k ms2 → prints (m;; k) (ms1 ++ ms2).
Proof.
  intros Hm Hk c. destruct (Hm c) as (c1 & Hc1 & Hp1). destruct (Hk c1) as (c2 & Hc2 & Hp2).
  exists c2. split; [by run Hc1|by eapply printed_app].
Qed.

Lemma prints_lift {A} (o : outcome A) (a : A) k ms : o = Ok a → prints (k a) ms → prints (x ← lift o; k x) ms.
Proof. intros -> Hk c. exact (Hk c). Qed.

Lemma prints_say src fmt args ps :
  fmt = fmt_of ps → args = args_of ps → fits (src, ps) → prints (say src fmt args) [(src, ps)].
Proof.
  intros -> -> (Hs & Hsl & Hps & Hr) c. cbn [fst snd] in *.
  destruct (kmesg_shows_text src ps Hs Hps Hr ltac:(lia)) as (l & Hl & Hk). exists (c ++ line_of src l).
  split; [unfold say; by rewrite Hk|]. exists [l]. split; [by apply Forall2_cons|]. cbn. by rewrite app_nil_r.
Qed.

Lemma txt_chars_dec s : forallb (λ c, (0 <? c) && (c <? 256)) (txt s) = true → chars (txt s).
Proof. intros H. apply Forall_forall. intros c Hc. apply list_elem_of_In in Hc. rewrite forallb_forall in H. specialize (H c Hc). lia. Qed.
Lemma txt_plain_dec s :
  forallb (λ c, (0 <? c) && (c <? 256) && negb (c =? 37)) (txt s) = true → proper (Text (txt s)).
Proof.
  intros H. rewrite forallb_forall in H.
  split; apply Forall_forall; intros c Hc; apply list_elem_of_In in Hc; specialize (H c Hc); lia.
Qed.

(** Discharge [fits] of a message whose numbers and strings are known to be proper. *)
Ltac solve_proper :=
  match goal with
  | |- proper (Text (txt _)) => apply txt_plain_dec; reflexivity
  | |- _ => cbn [proper]; first [assumption | lia]
  end.
Ltac solve_fits :=
  split; [apply txt_chars_dec; reflexivity|split; [by vm_compute|split;
    [repeat (apply Forall_cons; split; [solve_proper|]); apply Forall_nil; done
    |cbn [snd room_of foldr room] in *;
     repeat match goal with |- context [len (txt ?s)] => let n := eval vm_compute in (len (txt s)) in change (len (txt s)) with n end;
     lia]]].
Ltac say_step := cbn [app]; eapply prints_say; [reflexivity|reflexivity|solve_fits].

(** ** The sanitizer *)
Definition location_message (loc : source_location) : list Z * list piece :=
  (txt "ubsan", [Text (txt "ubsan failure at "); Str (filename loc); Text (txt ":"); Dec (s32 (line loc))]).

Definition good_location (loc : source_location) : Prop := chars (filename loc) ∧ len (filename loc) ≤ 900.

Lemma s32_range z : - 2 ^ 31 ≤ s32 z < 2 ^ 31.
Proof. wrap_lia. Qed.

Lemma log_location_prints loc : good_location loc → prints (log_location loc) [location_message loc].
Proof. intros [Hc Hl]. pose proof (s32_range (line loc)). unfold log_location, location_message. say_step. Qed.

(** A call of one of the handlers. *)
Inductive report :=
| AddOverflow (d : overflow_data) (lhs rhs : Z)
| SubOverflow (d : overflow_data) (lhs rhs : Z)
| PointerOverflow (d : overflow_data) (lhs rhs : Z)
| MulOverflow (d : overflow_data) (lhs rhs : Z)
| DivremOverflow (d : overflow_data) (lhs rhs : Z)
| NegateOverflow (d : overflow_data) (old : Z)
| ShiftOutOfBounds (d : shift_out_of_bounds_data) (lhs rhs : Z)
| OutOfBounds (d : out_of_bounds_data) (index : Z)
| NonnullReturn (d : non_null_return_data) (loc : source_location)
| TypeMismatchV1 (d : type_mismatch_data_v1) (ptr : Z)
| VlaBound (d : vla_bound_data) (bound : Z)
| LoadInvalidValue (d : invalid_value_data) (val : Z)
| BuiltinUnreachable (d : unreachable_data)
| NonnullArg (d : nonnull_arg_data)
| TypeMismatch (d : type_mismatch_data) (ptr : Z).

Definition handle (upper : Z) (r : report) : M log_state () :=
  match r with
  | AddOverflow d a b => __ubsan_handle_add_overflow d a b
  | SubOverflow d a b => __ubsan_handle_sub_overflow d a b
  | PointerOverflow d a b => __ubsan_handle_pointer_overflow d a b
  | MulOverflow d a b => __ubsan_handle_mul_overflow d a b
  | DivremOverflow d a b => __ubsan_handle_divrem_overflow d a b
  | NegateOverflow d a => __ubsan_handle_negate_overflow d a
  | ShiftOutOfBounds d a b => __ubsan_handle_shift_out_of_bounds d a b
  | OutOfBounds d i => __ubsan_handle_out_of_bounds d i
  | NonnullReturn d loc => __ubsan_handle_nonnull_return d loc
  | TypeMismatchV1 d p => __ubsan_handle_type_mismatch_v1 upper d p
  | VlaBound d b => __ubsan_handle_vla_bound_not_positive d b
  | LoadInvalidValue d v => __ubsan_handle_load_invalid_value d v
  | BuiltinUnreachable d => __ubsan_handle_builtin_unreachable d
  | NonnullArg d => __ubsan_handle_nonnull_arg d
  | TypeMismatch d p => __ubsan_handle_type_mismatch d p
  end.

Definition report_location (r : report) : source_location :=
  match r with
  | AddOverflow d _ _ | SubOverflow d _ _ | PointerOverflow d _ _ | MulOverflow d _ _ | DivremOverflow d _ _
  | NegateOverflow d _ => ov_loc d
  | ShiftOutOfBounds d _ _ => sh_loc d
  | OutOfBounds d _ => oob_loc d
  | NonnullReturn _ loc => loc
  | TypeMismatchV1 d _ => m1_loc d
  | VlaBound d _ => vla_loc d
  | LoadInvalidValue d _ => iv_loc d
  | BuiltinUnreachable d => ur_loc d
  | NonnullArg d => na_loc d
  | TypeMismatch d _ => mm_loc d
  end.

(** What is wrong with a pointer: whether it is null, whether it is a multiple
    of the alignment, which is shown as [shown]. *)
Definition mismatch_message (ptr align shown : Z) : list piece :=
  if ptr =? 0 then [Text (txt "null pointer access")]
  else if decide (ptr mod align = 0) then [Text (txt "too large access (ptr "); LHex16 ptr; Text (txt ")")]
  else [Text (txt "misaligned access (ptr "); LHex16 ptr; Text (txt ", alignment "); LDec shown; Text (txt ")")].

Definition two (pre : list Z) (a : Z) (mid : list Z) (b : Z) (post : list Z) : list piece :=
  [Text pre; LDec a; Text mid; LDec b; Text post].

Definition report_message (upper : Z) (r : report) : list piece :=
  match r with
  | AddOverflow _ a b => two (txt "add of ") a (txt " and ") b (txt " will overflow")
  | SubOverflow _ a b => two (txt "subtract of ") a (txt " and ") b (txt " will overflow")
  | PointerOverflow _ a b => [Text (txt "pointer "); LHex a; Text (txt " and "); LHex b; Text (txt " will overflow")]
  | MulOverflow _ a b => two (txt "multiply of ") a (txt " and ") b (txt " will overflow")
  | DivremOverflow _ a b => two (txt "division of ") a (txt " and ") b (txt " will overflow")
  | NegateOverflow _ a => [Text (txt "negation of "); LDec a; Text (txt " will overflow")]
  | ShiftOutOfBounds _ a b => two (txt "shift of ") a (txt " by ") b (txt " will go out of bounds")
  | OutOfBounds _ i => [Text (txt "out of bounds access at index "); LDec i]
  | NonnullReturn d _ => [Text (txt "null return at "); Str (filename (attr_loc d)); Text (txt ":"); Dec (s32 (line (attr_loc d)))]
  | TypeMismatchV1 d p => mismatch_message p (2 ^ log_alignment d) (int_slot upper (2 ^ log_alignment d))
  | VlaBound _ b => [Text (txt "negative vla bound "); LDec b]
  | LoadInvalidValue _ v => [Text (txt "invalid value "); LHex v]
  | BuiltinUnreachable _ => [Text (txt "reached __builtin_unreachabe")]
  | NonnullArg _ => [Text (txt "null argument")]
  | TypeMismatch d p => mismatch_message p (alignment d) (alignment d)
  end.

(** The values are of their types, an alignment is a power of two. *)
Definition good_report (r : report) : Prop :=
  good_location (report_location r) ∧
  match r with
  | AddOverflow _ a b | SubOverflow _ a b | PointerOverflow _ a b | MulOverflow _ a b | DivremOverflow _ a b
  | ShiftOutOfBounds _ a b => is_u64 a ∧ is_u64 b
  | NegateOverflow _ a | OutOfBounds _ a | VlaBound _ a | LoadInvalidValue _ a => is_u64 a
  | NonnullReturn d _ => good_location (attr_loc d)
  | TypeMismatchV1 d p => is_u64 p ∧ 0 ≤ log_alignment d < 31
  | TypeMismatch d p => is_u64 p ∧ ∃ k, 0 ≤ k < 64 ∧ alignment d = 2 ^ k
  | BuiltinUnreachable _ | NonnullArg _ => True
  end.

Lemma has_low_bits p k : 0 ≤ k → has p (2 ^ k - 1) = negb (p mod 2 ^ k =? 0).
Proof.
  intros Hk. unfold has. replace (2 ^ k - 1) with (Z.ones k) by (rewrite Z.ones_equiv; lia). by rewrite Z.land_ones.
Qed.

(** The three cases of a mismatch. *)
Lemma mismatch_prints p k shown (b : bool) :
  is_u64 p → 0 ≤ k → is_u64 shown → b = has p (2 ^ k - 1) →
  prints (if p =? 0 then say (txt "ubsan") (txt "null pointer access") []
          else if b then say (txt "ubsan") (txt "misaligned access (ptr %016lx, alignment %ld)") [VLong p; VLong shown]
          else say (txt "ubsan") (txt "too large access (ptr %016lx)") [VLong p])
    [(txt "ubsan", mismatch_message p (2 ^ k) shown)].
Proof.
  intros Hp Hk Hs ->. rewrite has_low_bits by done. unfold mismatch_message.
  destruct (p =? 0); [say_step|]. destruct (Z.eqb_spec (p mod 2 ^ k) 0) as [Hz|Hz]; cbn [negb].
  - rewrite decide_True by done. say_step.
  - rewrite decide_False by done. say_step.
Qed.

(** Every report is two lines: what happened, with the values at hand, and
    where. An operand is shown from its low 32 bits when these are negative;
    the alignment of the newer handler takes its upper half from whatever the
    slot of the argument holds. *)
Theorem ubsan_reports (upper : Z) (r : report) (c : list Z) :
  good_report r →
  ∃ c', handle upper r c = Ok (tt, c') ∧
    printed [(txt "ubsan", report_message upper r); location_message (report_location r)] c c'.
Proof.
  intros [Hloc Hr]. revert c. change (prints (handle upper r) ([(txt "ubsan", report_message upper r)] ++ [location_message (report_location r)])).
  destruct r; cbn [handle report_message report_location] in *;
    unfold __ubsan_handle_add_overflow, __ubsan_handle_sub_overflow, __ubsan_handle_pointer_overflow,
      __ubsan_handle_mul_overflow, __ubsan_handle_divrem_overflow, __ubsan_handle_negate_overflow,
      __ubsan_handle_shift_out_of_bounds, __ubsan_handle_out_of_bounds, __ubsan_handle_nonnull_return,
      __ubsan_handle_type_mismatch_v1, __ubsan_handle_vla_bound_not_positive, __ubsan_handle_load_invalid_value,
      __ubsan_handle_builtin_unreachable, __ubsan_handle_nonnull_arg, __ubsan_handle_type_mismatch, two;
    (apply prints_seq; [|by apply log_location_prints]).
  1-8, 11-14: destruct_and?; say_step.
  - destruct Hr as [Hr1 Hr2]. pose proof (s32_range (line (attr_loc d))). say_step.
  - destruct Hr as [Hp Hk]. destruct (Z.leb_spec 31 (log_alignment d)) as [|_]; [lia|]. rewrite Z.shiftl_1_l.
    apply mismatch_prints; [done|lia|apply u64_range|done].
  - destruct Hr as (Hp & k & Hk & Ha). rewrite Ha. assert (2 ^ k < 2 ^ 64) by (apply Z.pow_lt_mono_r; lia).
    assert (0 < 2 ^ k) by (apply Z.pow_pos_nonneg; lia).
    apply mismatch_prints; [done|lia|unfold is_u64; lia|by rewrite u64_small by lia].
Qed.

Lemma ubsan_reports_witness :
  ∃ c', handle 0 (NegateOverflow (OverflowData (SourceLocation (txt "a.cpp") 7 1) (TypeDescriptor 0 0 [])) 5) [] = Ok (tt, c') ∧
    printed [(txt "ubsan", report_message 0 (NegateOverflow (OverflowData (SourceLocation (txt "a.cpp") 7 1) (TypeDescriptor 0 0 [])) 5));
             location_message (SourceLocation (txt "a.cpp") 7 1)] [] c'.
Proof.
  apply (ubsan_reports 0 (NegateOverflow (OverflowData (SourceLocation (txt "a.cpp") 7 1) (TypeDescriptor 0 0 [])) 5)).
  split; [split; [by apply txt_chars_dec|by vm_compute]|unfold is_u64; lia].
Defined.

(** The text itself, and the alignment when the upper half is not zero. *)
Theorem ubsan_alignment :
  handle 1 (TypeMismatchV1 (MismatchV1 (SourceLocation (txt "a.cpp") 7 1) (TypeDescriptor 0 0 []) 3 0) 0x1001) [] =
    Ok (tt, txt "ubsan: misaligned access (ptr 0000000000001001, alignment 4294967304)" ++ [10] ++
            txt "ubsan: ubsan failure at a.cpp:7" ++ [10]).
Proof. vm_compute. reflexivity. Qed.

(** ** The name of an address *)

(** Symbols that can be found have names that are not too long. *)
Definition good_symbols (st : symtab) : Prop :=
  Forall (λ x, sym_len x ≠ 0 → ∃ n, sym_name x = Some n ∧ chars n ∧ len n < 200) (syms st).

(** The symbol that covers the address and the distance from its start. *)
Definition symbol_pieces (st : symtab) (addr : Z) : list piece :=
  let x := find_symbol addr (take (Z.to_nat (n_symbols st)) (syms st)) in
  if sym_len x =? 0 then [Text (txt "??+?")]
  else [Str (default [] (sym_name x)); Text (txt "+0x"); LHex (u64 (addr - sym_base x))].

Lemma find_symbol_cases addr l : find_symbol addr l ∈ l ∨ sym_len (find_symbol addr l) = 0.
Proof.
  induction l as [|x l IH]; cbn [find_symbol]; [by right|]. destruct (_ && _); [by left; left|].
  destruct IH; [left; by right|by right].
Qed.

Lemma fmt_symbol_pieces n off : fmt_of [Str n; Text (txt "+0x"); LHex off] = fmt_symbol.
Proof. reflexivity. Qed.

Lemma symbol_text_shows st addr :
  good_symbols st →
  ∃ t, symbol_text st addr = Ok t ∧ message_text (symbol_pieces st addr) t ∧ chars t ∧ len t < 256.
Proof.
  intros Hst. unfold symbol_text, symtab_format_from_addr, symbol_pieces, into_buffer.
  set (x := find_symbol _ _). destruct (Z.eqb_spec (sym_len x) 0) as [Hz|Hz].
  { exists (txt "??+?"). split_and!; [reflexivity| |by apply txt_chars_dec|by vm_compute].
    exists [txt "??+?"]. split; [by apply Forall2_cons|done]. }
  assert (∃ n, sym_name x = Some n ∧ chars n ∧ len n < 200) as (n & Hn & Hc & Hl).
  { destruct (find_symbol_cases addr (take (Z.to_nat (n_symbols st)) (syms st))) as [Hin|]; [|done].
    apply (proj1 (Forall_forall _ _) Hst x); [|done]. by apply (subseteq_take (Z.to_nat (n_symbols st)) (syms st)). }
  rewrite Hn. cbn [default access mbind outcome_bind]. change (default [] (Some n)) with n.
  pose proof (u64_range (addr - sym_base x)) as Hoff. set (off := u64 (addr - sym_base x)) in *.
  assert (Forall proper [Str n; Text (txt "+0x"); LHex off]) as Hp.
  { apply Forall_cons; split; [done|]. apply Forall_cons; split; [by apply txt_plain_dec|]. by apply Forall_singleton. }
  assert (room_of [Str n; Text (txt "+0x"); LHex off] < 230) as Hr.
  { change (len n + (3 + (23 + 0)) < 230). lia. }
  destruct (vsnprintf_shows 256 _ Hp ltac:(lia)) as (l & Hm & Hv). destruct (message_ok _ _ Hp Hm) as [Hlc Hll].
  exists l. rewrite fmt_symbol_pieces in Hv. change (args_of _) with [VStr n; VLong off] in Hv.
  change snprintf with vsnprintf. rewrite Hv. cbn [mbind outcome_bind]. rewrite len_app. change (len [0]) with 1.
  rewrite (proj2 (Z.ltb_ge _ _)) by lia. split_and!; [by rewrite c_string_chars|done|done|lia].
Qed.

(** A text in the place of a string: the pieces that made it. *)
Lemma message_text_subst ps t rs qs l :
  message_text (ps ++ Str t :: qs) l → message_text rs t → message_text (ps ++ rs ++ qs) l.
Proof.
  intros (ls & Hls & ->) (rl & Hrl & Ht). apply Forall2_app_inv_l in Hls as (l1 & l2 & H1 & H2 & ->).
  apply Forall2_cons_inv_l in H2 as (x & l3 & Hx & H3 & ->). cbn [shows] in Hx. subst x.
  exists (l1 ++ rl ++ l3). split; [by repeat apply Forall2_app|]. rewrite !concat_app. cbn [concat]. by rewrite Ht.
Qed.

Lemma prints_subst m src ps t rs qs :
  message_text rs t → prints m [(src, ps ++ Str t :: qs)] → prints m [(src, ps ++ rs ++ qs)].
Proof.
  intros Ht Hm c. destruct (Hm c) as (c' & Hc & ls & Hls & Heq). exists c'. split; [done|].
  apply Forall2_cons_inv_l in Hls as (l & ls' & Hl & Hnil & ->). apply Forall2_nil_inv_l in Hnil as ->.
  exists [l]. split; [apply Forall2_cons; split; [by eapply message_text_subst|done]|exact Heq].
Qed.

(** ** The registers *)
Definition regs_line (a : string) (x : Z) (b : string) (y : Z) : list Z * list piece :=
  (txt "cpu", [Text (txt a); LHex16 x; Text (txt b); LHex16 y]).

Definition dump_messages (st : symtab) (cr2 : Z) (s : irq_cpu_state_t) : list (list Z * list piece) :=
  [regs_line "rax: " (i_rax s) " rbx: " (i_rbx s); regs_line "rcx: " (i_rcx s) " rdx: " (i_rdx s);
   regs_line "rsi: " (i_rsi s) " rdi: " (i_rdi s); regs_line "rsp: " (i_rsp s) " rbp: " (i_rbp s);
   regs_line "rip: " (i_rip s) " rfl: " (i_rflags s);
   (txt "cpu", [Text (txt "rip -> ")] ++ symbol_pieces st (i_rip s) ++ []);
   regs_line "r15: " (i_r15 s) " r14: " (i_r14 s); regs_line "r13: " (i_r13 s) " r12: " (i_r12 s);
   regs_line "r11: " (i_r11 s) " r10: " (i_r10 s); regs_line "r9:  " (i_r9 s) " r8:  " (i_r8 s);
   (txt "cpu", [Text (txt "cs:  "); Hex16 (i_cs s); Text (txt " ss:  "); Hex16 (i_ss s)]);
   (txt "cpu", [Text (txt "cr2: "); LHex16 cr2])].

Definition good_registers (s : irq_cpu_state_t) : Prop :=
  Forall is_u64 [i_rax s; i_rbx s; i_rcx s; i_rdx s; i_rsi s; i_rdi s; i_rsp s; i_rbp s; i_rip s; i_rflags s;
                 i_r15 s; i_r14 s; i_r13 s; i_r12 s; i_r11 s; i_r10 s; i_r9 s; i_r8 s] ∧
  0 ≤ i_cs s < 2 ^ 16 ∧ 0 ≤ i_ss s < 2 ^ 16.

Lemma dump_prints st cr2 s :
  good_symbols st → good_registers s → is_u64 cr2 → prints (cpu_dump_regs_irq st cr2 s) (dump_messages st cr2 s).
Proof.
  intros Hst (Hregs & Hcs & Hss) Hcr2. repeat (apply Forall_cons in Hregs as [? Hregs]). clear Hregs.
  destruct (symbol_text_shows st (i_rip s) Hst) as (t & Ht & Hm & Hc & Hl).
  unfold cpu_dump_regs_irq. eapply prints_lift; [exact Ht|]. unfold low_int. rewrite !s32_small by lia.
  unfold dump_messages, regs_line.
  do 11 (match goal with |- prints _ (?x :: ?l) => change (x :: l) with ([x] ++ l) end; apply prints_seq;
    [first [say_step|eapply prints_subst; [exact Hm|say_step]]|]). say_step.
Qed.

(** ** The stack *)

(** The frames from [bp] on, to the one that ends the chain: where each is, and
    the address it returns to. *)
Fixpoint frames_at (stack : Z → option Z) (bp : Z) (l : list (Z * Z)) : Prop :=
  match l with
  | [] => bp = 0
  | (b, ra) :: l' =>
      b = bp ∧ 0 < b < 2 ^ 64 - 8 ∧ is_u64 ra ∧ stack (b + 8) = Some ra ∧ ∃ next, stack b = Some next ∧ frames_at stack next l'
  end.

Definition trace_message (st : symtab) (idx addr : Z) : list Z * list piece :=
  (txt "cpu", [Text (txt "#"); LUns idx; Text (txt ": ["); LHex16 addr; Text (txt "] -> ")] ++ symbol_pieces st addr ++ []).

Fixpoint trace_messages (st : symtab) (idx : Z) (addrs : list Z) : list (list Z * list piece) :=
  match addrs with
  | [] => []
  | a :: addrs' => trace_message st idx a :: trace_messages st (u64 (idx + 1)) addrs'
  end.

(** The address to print first, then those of all frames but the last. *)
Fixpoint trace_addrs (ip : Z) (l : list (Z * Z)) : list Z :=
  match l with
  | [] => []
  | (_, ra) :: l' => ip :: trace_addrs ra l'
  end.

Lemma trace_loop_prints st stack fuel bp ip idx l :
  good_symbols st → frames_at stack bp l → (length l ≤ fuel)%nat → is_u64 ip → is_u64 idx →
  prints (trace_loop st stack fuel bp ip idx) (trace_messages st idx (trace_addrs ip l)).
Proof.
  intros Hst. revert fuel bp ip idx. induction l as [|[b ra] l IH]; intros fuel bp ip idx Hl Hf Hip Hidx.
  { cbn in Hl. subst bp. destruct fuel; apply prints_nil. }
  destruct Hl as (-> & Hb & Hra & Hs8 & next & Hs & Hl). destruct fuel as [|fuel]; [cbn in Hf; lia|]. cbn [length] in Hf.
  cbn [trace_loop trace_addrs trace_messages]. rewrite (proj2 (Z.eqb_neq bp 0)) by lia.
  destruct (symbol_text_shows st ip Hst) as (t & Ht & Hm & Hc & Hlen).
  eapply prints_lift; [exact Ht|]. rewrite (u64_small (bp + 8)) by lia. unfold trace_message.
  match goal with |- prints _ (?x :: ?l) => change (x :: l) with ([x] ++ l) end. apply prints_seq.
  - eapply prints_subst; [exact Hm|]. say_step.
  - eapply prints_lift; [by rewrite Hs8|]. eapply prints_lift; [by rewrite Hs|]. apply IH; [done|lia|done|apply u64_range].
Qed.

(** The trace of a chain of frames: as many lines as there are frames, but the
    first address is printed twice and the last one never. *)
Definition backtrace (l : list (Z * Z)) : list Z :=
  match l with
  | [] => []
  | (_, ra) :: _ => ra :: removelast (l.*2)
  end.

Lemma trace_addrs_backtrace b ra l : trace_addrs ra ((b, ra) :: l) = backtrace ((b, ra) :: l).
Proof.
  cbn [trace_addrs backtrace]. f_equal. revert b ra. induction l as [|[b' ra'] l IH]; intros b ra; [done|].
  cbn [trace_addrs fmap list_fmap snd]. change (removelast (ra :: ?x)) with (ra :: removelast x). f_equal. apply (IH b' ra').
Qed.

Lemma trace_prints st stack rbp fuel l :
  good_symbols st → frames_at stack rbp l → l ≠ [] → (length l ≤ fuel)%nat →
  prints (cpu_trace_stack st stack rbp fuel) (trace_messages st 0 (backtrace l)).
Proof.
  intros Hst Hl Hne Hf. destruct l as [|[b ra] l]; [done|]. rewrite <- trace_addrs_backtrace.
  pose proof Hl as (-> & Hb & Hra & Hs8 & _). unfold cpu_trace_stack. rewrite u64_small by lia.
  eapply prints_lift; [by rewrite Hs8|]. apply trace_loop_prints; [done..|unfold is_u64; lia].
Qed.

(** A chain that ends is printed frame by frame, which needs a round for every
    frame; the backtrace that is shown has the first address twice. *)
Theorem cpu_trace_stack_spec (st : symtab) (stack : Z → option Z) (rbp : Z) (fuel : nat) (l : list (Z * Z)) (c : list Z) :
  good_symbols st → frames_at stack rbp l → l ≠ [] → (length l ≤ fuel)%nat →
  ∃ c', cpu_trace_stack st stack rbp fuel c = Ok (tt, c') ∧ printed (trace_messages st 0 (backtrace l)) c c'.
Proof. intros Hst Hl Hne Hf. by apply trace_prints. Qed.

(** Two functions, and three frames. *)
Definition demo_symtab : symtab := Symtab [Symbol (Some (txt "main")) 0x1000 0x100; Symbol (Some (txt "panic")) 0x2000 0x80] 2.
Definition demo_frames : list (Z * Z) := [(0x7000, 0x2010); (0x7040, 0x1020); (0x7080, 0x9000)].
Definition demo_stack (a : Z) : option Z :=
  (list_to_map [(0x7000, 0x7040); (0x7008, 0x2010); (0x7040, 0x7080); (0x7048, 0x1020); (0x7080, 0); (0x7088, 0x9000)] : gmap Z Z) !! a.

Lemma demo_good_symbols : good_symbols demo_symtab.
Proof.
  repeat apply Forall_cons_2; [..|by apply Forall_nil]; intros _; eexists;
    (split; [reflexivity|split; [by apply txt_chars_dec|by vm_compute]]).
Qed.

Lemma demo_frames_at : frames_at demo_stack 0x7000 demo_frames.
Proof.
  cbn [frames_at demo_frames]. unfold is_u64.
  do 3 (split; [reflexivity|split; [lia|split; [lia|split; [by vm_compute|eexists; split; [by vm_compute|]]]]]). done.
Qed.

Lemma cpu_trace_stack_spec_witness :
  ∃ c', cpu_trace_stack demo_symtab demo_stack 0x7000 3 [] = Ok (tt, c') ∧
    printed (trace_messages demo_symtab 0 (backtrace demo_frames)) [] c'.
Proof. apply (cpu_trace_stack_spec demo_symtab demo_stack 0x7000 3 demo_frames); [apply demo_good_symbols|apply demo_frames_at|done|cbn; lia]. Defined.

(** The console after that: the return address 0x9000 is missing. *)
Theorem trace_stack_text :
  cpu_trace_stack demo_symtab demo_stack 0x7000 3 [] =
    Ok (tt, txt "cpu: #0: [0000000000002010] -> panic+0x10" ++ [10] ++
            txt "cpu: #1: [0000000000002010] -> panic+0x10" ++ [10] ++
            txt "cpu: #2: [0000000000001020] -> main+0x20" ++ [10]).
Proof. vm_compute. reflexivity. Qed.

(** The frame is read before [rbp] is compared with zero, and a frame that
    leads to itself is printed for ever. *)
Theorem trace_stack_stuck (st : symtab) (stack : Z → option Z) (rbp : Z) (fuel : nat) (c : list Z) :
  (stack 8 = None → cpu_trace_stack st stack 0 fuel c = Fault) ∧
  (good_symbols st → 0 < rbp < 2 ^ 64 - 8 → stack rbp = Some rbp →
   ∀ ra, stack (rbp + 8) = Some ra → is_u64 ra → cpu_trace_stack st stack rbp fuel c = Hang).
Proof.
  split.
  { intros Hn. unfold cpu_trace_stack. change (u64 (0 + 8)) with 8. by rewrite Hn. }
  intros Hst Hb Hs ra Hra Hr. unfold cpu_trace_stack. rewrite u64_small, Hra by lia.
  change (trace_loop st stack fuel rbp ra 0 c = Hang). assert (is_u64 0) as H0 by (unfold is_u64; lia). revert H0 c. generalize 0.
  induction fuel as [|fuel IH]; intros idx Hidx c; cbn [trace_loop]; rewrite (proj2 (Z.eqb_neq rbp 0)) by lia; [done|].
  destruct (symbol_text_shows st ra Hst) as (t & Ht & Hm & Hc & Hl).
  assert (prints (say (txt "cpu") (txt "#%lu: [%016lx] -> %s") [VLong idx; VLong ra; VStr t])
    [(txt "cpu", [Text (txt "#"); LUns idx; Text (txt ": ["); LHex16 ra; Text (txt "] -> "); Str t])]) as Hp by say_step.
  destruct (Hp c) as (c1 & Hc1 & _). rewrite Ht, (u64_small (rbp + 8)), Hra, Hs by lia.
  etransitivity; [by apply (bind_run _ _ _ t c)|]. etransitivity; [by apply (bind_run _ _ _ _ _ Hc1)|].
  etransitivity; [by apply (bind_run _ _ _ ra c1)|]. etransitivity; [by apply (bind_run _ _ _ rbp c1)|].
  apply IH, u64_range.
Qed.

Lemma trace_stack_stuck_witness : cpu_trace_stack demo_symtab (λ _, Some 0x7000) 0x7000 5 [] = Hang.
Proof. apply (proj2 (trace_stack_stuck demo_symtab (λ _, Some 0x7000) 0x7000 5 []) demo_good_symbols ltac:(lia) eq_refl 0x7000 eq_refl ltac:(unfold is_u64; lia)). Defined.

(** ** A panic *)
Definition panic_messages (st : symtab) (cr2 cpu : Z) (state : option irq_cpu_state_t) (ps : list piece) (l : list (Z * Z)) :=
  [(txt "kernel", [Text (txt "Kernel panic on cpu "); Dec cpu; Text (txt "!")])] ++
  [(txt "kernel", [Text (txt "Message: '")] ++ ps ++ [Text (txt "'")])] ++
  match state with Some s => dump_messages st cr2 s | None => [] end ++
  trace_messages st 0 (backtrace l) ++
  [(txt "kernel", [Text (txt "halting")])].

Lemma panic_prints st stack cr2 rbp fuel cpu state ps l :
  good_symbols st → frames_at stack rbp l → l ≠ [] → (length l ≤ fuel)%nat → is_u64 cr2 → - 2 ^ 31 ≤ cpu < 2 ^ 31 →
  (∀ s, state = Some s → good_registers s) → Forall proper ps → room_of ps < 128 →
  prints (panic st stack cr2 rbp fuel cpu state (fmt_of ps) (args_of ps)) (panic_messages st cr2 cpu state ps l).
Proof.
  intros Hst Hl Hne Hf Hcr2 Hcpu Hs Hps Hr. destruct (vsnprintf_shows 128 ps Hps Hr) as (t & Hm & Hv).
  destruct (message_ok ps t Hps Hm) as [Hc Hlen]. unfold panic, panic_messages.
  apply (prints_lift _ t).
  { unfold into_buffer. rewrite Hv. cbn [mbind outcome_bind]. rewrite len_app. change (len [0]) with 1.
    rewrite (proj2 (Z.ltb_ge _ _)) by lia. by rewrite c_string_chars. }
  apply prints_seq; [say_step|]. apply prints_seq; [eapply prints_subst; [exact Hm|say_step]|].
  apply prints_seq; [destruct state as [s|]; [by apply dump_prints; auto|apply prints_nil]|].
  apply prints_seq; [by apply trace_prints|]. say_step.
Qed.

(** C39. The report of a panic: the processor, the message with its arguments, the
    registers when there are any, the backtrace, and that the machine halts. *)
Theorem panic_spec (st : symtab) (stack : Z → option Z) (cr2 rbp : Z) (fuel : nat) (cpu : Z) (state : option irq_cpu_state_t)
    (ps : list piece) (l : list (Z * Z)) (c : list Z) :
  good_symbols st → frames_at stack rbp l → l ≠ [] → (length l ≤ fuel)%nat → is_u64 cr2 → - 2 ^ 31 ≤ cpu < 2 ^ 31 →
  (∀ s, state = Some s → good_registers s) → Forall proper ps → room_of ps < 128 →
  ∃ c', panic st stack cr2 rbp fuel cpu state (fmt_of ps) (args_of ps) c = Ok (tt, c') ∧
    printed (panic_messages st cr2 cpu state ps l) c c'.
Proof. intros ?????????. by apply panic_prints. Qed.

Definition demo_regs : irq_cpu_state_t := IrqState 0 15 14 13 12 11 10 9 8 1 2 3 4 5 6 7 14 0 0x1040 0x8 0x202 0x7000 0x10.

Lemma panic_spec_witness :
  ∃ c', panic demo_symtab demo_stack 0xDEAD 0x7000 3 0 (Some demo_regs) (txt "page fault at %lx") [VLong 0xDEAD] [] = Ok (tt, c') ∧
    printed (panic_messages demo_symtab 0xDEAD 0 (Some demo_regs) [Text (txt "page fault at "); LHex 0xDEAD] demo_frames) [] c'.
Proof.
  apply (panic_spec demo_symtab demo_stack 0xDEAD 0x7000 3 0 (Some demo_regs) [Text (txt "page fault at "); LHex 0xDEAD] demo_frames []).
  - apply demo_good_symbols.
  - apply demo_frames_at.
  - done.
  - cbn; lia.
  - unfold is_u64; lia.
  - lia.
  - intros s [= <-]. split; [|cbn; lia]. unfold is_u64. repeat apply Forall_cons_2; cbn; try lia. by apply Forall_nil.
  - repeat apply Forall_cons_2; [by apply txt_plain_dec|unfold proper, is_u64; lia|by apply Forall_nil].
  - by vm_compute.
Defined.

(** A failed assertion names the expression and its place; one in the
    containers is a panic with the text of the assertion. *)
Theorem assert_failure_spec (st : symtab) (stack : Z → option Z) (cr2 rbp : Z) (fuel : nat) (cpu : Z) (expr file : list Z) (line : Z)
    (function : list Z) (l : list (Z * Z)) (c : list Z) :
  good_symbols st → frames_at stack rbp l → l ≠ [] → (length l ≤ fuel)%nat → is_u64 cr2 → - 2 ^ 31 ≤ cpu < 2 ^ 31 →
  chars expr → chars file → chars function → - 2 ^ 31 ≤ line < 2 ^ 31 → len expr + len file + len function < 900 →
  (∃ c', __assert_failure st stack cr2 rbp fuel cpu expr file line function c = Ok (tt, c') ∧
    printed ([(txt "kernel", [Str file; Text (txt ":"); Dec line; Text (txt ": "); Str function; Text (txt ": assertion '");
                              Str expr; Text (txt "' failed")])] ++
             panic_messages st cr2 cpu None [Text (txt "assertion failure")] l) c c') ∧
  (len expr < 70 → ∃ c', frg_panic st stack cr2 rbp fuel cpu expr c = Ok (tt, c') ∧
    printed (panic_messages st cr2 cpu None [Text (txt "frigg assertion failed: '"); Str expr; Text (txt "'")] l) c c').
Proof.
  intros Hst Hl Hne Hf Hcr2 Hcpu He Hfi Hfu Hli Hlen. pose proof (len_pos expr). pose proof (len_pos file). pose proof (len_pos function).
  split.
  - revert c. unfold __assert_failure. apply prints_seq; [say_step|].
    apply (panic_prints st stack cr2 rbp fuel cpu None [Text (txt "assertion failure")] l); try done.
    apply Forall_singleton. by apply txt_plain_dec.
  - intros Hx. revert c. unfold frg_panic.
    apply (panic_prints st stack cr2 rbp fuel cpu None [Text (txt "frigg assertion failed: '"); Str expr; Text (txt "'")] l); try done.
    + repeat apply Forall_cons_2; [by apply txt_plain_dec|done|by apply txt_plain_dec|by apply Forall_nil].
    + change (25 + (len expr + (1 + 0)) < 128). lia.
Qed.
