(* ===== verification/LaiHost.v ===== *)
(** * What the kernel offers to the ACPI interpreter (arch/x86_64/acpi/lai_host.cpp)

    The interpreter is third-party code; these are the functions that it calls.
    Each runs on the component that it uses: the heap, the tables in memory,
    the ports of the machine, the console. *)
From S2P Require Import Prelude Frigg Pmm Vmm Heap CString Printf Syscall Symtab Apic AcpiTables Pci PciProps PrintSpec Diag.
From stdpp Require Import base numbers option gmap list strings.
#[local] Open Scope Z_scope.

(** ** Memory *)

(** [memset(mem, 0, len)] *)
Definition clear (p len : Z) : M heap () := for_each (λ i, on_vmm (vstore8 (u64 (p + i)) 0)) (seqZ 0 len).

Definition laihost_malloc (len : Z) : M heap Z := mem ← kmalloc len; clear mem len;; mret mem.
Definition laihost_realloc (ptr len : Z) : M heap Z := mem ← krealloc ptr len; clear mem len;; mret mem.
Definition laihost_free (ptr : Z) : M heap () := kfree ptr.

(** The sum is of type [size_t]. *)
Definition laihost_map (addr count : Z) : outcome Z :=
  if 0xFFFFFFFF <? u64 (addr + count) then Panic else Ok (u64 (addr + VIRT_PHYS_BASE)).

(** ** The console *)
Definition laihost_log (msg : list Z) : M log_state () := say (txt "lai") (txt "%s") [VStr msg].

(** Ends with the machine halted. *)
Definition laihost_panic (st : symtab) (stack : Z → option Z) (rbp : Z) (fuel : nat) (msg : list Z) : M log_state () :=
  say (txt "lai") (txt "%s") [VStr msg];; cpu_trace_stack st stack rbp fuel.

(** ** Tables *)
Section tables.
Context {V : Type → Type} (fadt_dsdt : Z → M cmem Z).
Definition laihost_scan (sig : list Z) (idx : Z) : M (acpi_state V) Z := acpi_find_table fadt_dsdt sig idx.
End tables.

Definition laihost_sleep {S} (time : Z) : M S () := mret tt.

(** ** Ports *)
Section ports.
Context {P : Type} `{!PciPorts P}.

Definition laihost_outb (port val : Z) : M P () := p_outb port val.
Definition laihost_outw (port val : Z) : M P () := p_outw port val.
Definition laihost_outd (port val : Z) : M P () := p_outd port val.
Definition laihost_inb (port : Z) : M P Z := p_inb port.
Definition laihost_inw (port : Z) : M P Z := p_inw port.
Definition laihost_ind (port : Z) : M P Z := p_ind port.

Definition laihost_pci_writeb (seg bus dev func off val : Z) : M P () :=
  lift (assertion (seg =? 0));; pci_write_byte bus dev func off val.
Definition laihost_pci_readb (seg bus dev func off : Z) : M P Z :=
  lift (assertion (seg =? 0));; pci_read_byte bus dev func off.
Definition laihost_pci_writew (seg bus dev func off val : Z) : M P () :=
  lift (assertion (seg =? 0));; pci_write_word bus dev func off val.
Definition laihost_pci_readw (seg bus dev func off : Z) : M P Z :=
  lift (assertion (seg =? 0));; pci_read_word bus dev func off.
Definition laihost_pci_writed (seg bus dev func off val : Z) : M P () :=
  lift (assertion (seg =? 0));; pci_write_dword bus dev func off val.
Definition laihost_pci_readd (seg bus dev func off : Z) : M P Z :=
  lift (assertion (seg =? 0));; pci_read_dword bus dev func off.
End ports.

(** ** Properties *)

(** Addresses below 4 GiB are reached through the kernel's window on physical
    memory, a range that ends above stops the machine; a sum that wraps around
    is taken for a small one. *)
Theorem laihost_map_spec (addr count : Z) :
  is_u64 addr → is_u64 count →
  laihost_map addr count =
    (if decide (addr + count < 2 ^ 32) then Ok (addr + VIRT_PHYS_BASE)
     else if decide (addr + count < 2 ^ 64 ∨ 2 ^ 64 + 2 ^ 32 ≤ addr + count) then Panic
     else Ok (u64 (addr + VIRT_PHYS_BASE))).
Proof.
  unfold is_u64, laihost_map. intros Ha Hc. case_decide as H1.
  { rewrite (u64_small (addr + count)) by lia. rewrite (proj2 (Z.ltb_ge _ _)) by lia.
    rewrite u64_small; [done|]. unfold VIRT_PHYS_BASE. lia. }
  case_decide as H2.
  - rewrite (proj2 (Z.ltb_lt _ _)); [done|]. wrap_lia.
  - rewrite (proj2 (Z.ltb_ge _ _)); [done|]. wrap_lia.
Qed.

Lemma laihost_map_spec_witness : laihost_map (2 ^ 64 - 1) 1 = Ok (u64 (2 ^ 64 - 1 + VIRT_PHYS_BASE)).
Proof. apply (laihost_map_spec (2 ^ 64 - 1) 1); unfold is_u64; lia. Defined.

(** What the interpreter gets from [realloc]: the new block, cleared, and not
    the contents of the old one, which [krealloc] had copied. *)
Theorem laihost_realloc_clears :
  value ((p ← laihost_malloc 24; a ← on_vmm (vload64 p); on_vmm (vstore64 p 42);; q ← krealloc p 48; b ← on_vmm (vload64 q);
          mret (a, b)) demo_heap) = Some (0, 42) ∧
  value ((p ← laihost_malloc 24; on_vmm (vstore64 p 42);; q ← laihost_realloc p 48; on_vmm (vload64 q)) demo_heap) = Some 0.
Proof. split; vm_compute; reflexivity. Qed.

(** A message is a line, and a panic of the interpreter shows the backtrace. *)
Theorem laihost_panic_spec (st : symtab) (stack : Z → option Z) (rbp : Z) (fuel : nat) (msg : list Z) (l : list (Z * Z)) (c : list Z) :
  chars msg → len msg < 1000 → good_symbols st → frames_at stack rbp l → l ≠ [] → (length l ≤ fuel)%nat →
  ∃ c', laihost_panic st stack rbp fuel msg c = Ok (tt, c') ∧
    printed ([(txt "lai", [Str msg])] ++ trace_messages st 0 (backtrace l)) c c'.
Proof.
  intros Hc Hl Hst Hf Hne Hfuel. revert c. unfold laihost_panic. apply prints_seq; [say_step|]. by apply trace_prints.
Qed.

Lemma laihost_panic_spec_witness :
  ∃ c', laihost_panic demo_symtab demo_stack 0x7000 3 (txt "no method") [] = Ok (tt, c') ∧
    printed ([(txt "lai", [Str (txt "no method")])] ++ trace_messages demo_symtab 0 (backtrace demo_frames)) [] c'.
Proof.
  apply (laihost_panic_spec demo_symtab demo_stack 0x7000 3 (txt "no method") demo_frames);
    [by apply txt_chars_dec|by vm_compute|apply demo_good_symbols|apply demo_frames_at|done|cbn; lia].
Defined.

Section pci_props.
Context {P : Type} `{!PciPorts P} `{!PciPortsLaws P}.

(** The configuration of a function, byte by byte, by two and by four bytes;
    other segments stop the machine. *)
Theorem laihost_pci_reads (seg bus dev func off : Z) (p : P) :
  valid bus dev func → 0 ≤ off < 256 →
  if decide (seg = 0) then
    (∃ p', laihost_pci_readb seg bus dev func off p = Ok (field_of (cfg p) bus dev func off 0xFF, p') ∧ same_cfg p p') ∧
    (off mod 2 = 0 →
     ∃ p', laihost_pci_readw seg bus dev func off p = Ok (field_of (cfg p) bus dev func off 0xFFFF, p') ∧ same_cfg p p') ∧
    (off mod 4 = 0 → ∃ p', laihost_pci_readd seg bus dev func off p = Ok (cfg p (cfg_at bus dev func off), p') ∧ same_cfg p p')
  else
    laihost_pci_readb seg bus dev func off p = Panic ∧ laihost_pci_readw seg bus dev func off p = Panic ∧
    laihost_pci_readd seg bus dev func off p = Panic.
Proof.
  intros Hv Ho. unfold laihost_pci_readb, laihost_pci_readw, laihost_pci_readd. case_decide as Hs.
  - rewrite (proj2 (Z.eqb_eq seg 0)) by done. split_and!; intros.
    + by apply pci_read_byte_run.
    + by apply pci_read_word_run.
    + by apply pci_read_dword_run.
  - by rewrite (proj2 (Z.eqb_neq seg 0)) by done.
Qed.

(** A base address that is written is read back, as far as its bits can be
    written, and no other register has changed. *)
Theorem laihost_pci_write_read (bus dev func off val : Z) (p : P) :
  valid bus dev func → 0x10 ≤ off < 0x28 → off mod 4 = 0 → 0 ≤ val < 2 ^ 32 →
  ∃ p' p'', laihost_pci_writed 0 bus dev func off val p = Ok (tt, p') ∧
    laihost_pci_readd 0 bus dev func off p' =
      Ok (write_masked (cfg p (cfg_at bus dev func off)) val (cfg_mask p (cfg_at bus dev func off)), p'') ∧
    ∀ a, a ≠ cfg_at bus dev func off → cfg p'' a = cfg p a.
Proof.
  intros Hv Ho H4 Hval.
  destruct (pci_write_dword_run p bus dev func off val) as (p' & Hw & _ & Hc); [done..|].
  destruct (pci_read_dword_run p' bus dev func off) as (p'' & Hr & Hs & _); [done|lia|done|].
  exists p', p''. split; [exact Hw|]. rewrite (Hc (cfg_at _ _ _ _)), decide_True in Hr by done. split; [exact Hr|].
  intros a Ha. by rewrite Hs, Hc, decide_False.
Qed.

(** An offset in the extended configuration space is not refused: it selects
    another function. *)
Theorem laihost_pci_extended (bus dev : Z) (p : P) :
  laihost_pci_readd 0 bus dev 0 0x100 p = laihost_pci_readd 0 bus dev 1 0 p.
Proof.
  unfold laihost_pci_readd, pci_read_dword.
  assert (pci_address bus dev 0 (Z.land 0x100 0xFFFC) = pci_address bus dev 1 (Z.land 0 0xFFFC)) as ->; [|done].
  unfold pci_address. change (Z.shiftl 0 8) with 0. change (Z.land 256 65532) with (Z.shiftl 1 8). change (Z.land 0 65532) with 0.
  by rewrite !Z.lor_0_r.
Qed.
End pci_props.

Import PciProps.Demo.

Lemma laihost_pci_reads_witness :
  ∃ p', laihost_pci_readw 0 0 2 0 0x10 (PortsDemo 0 demo_cfg) = Ok (field_of (cfg (PortsDemo 0 demo_cfg)) 0 2 0 0x10 0xFFFF, p') ∧
    same_cfg (PortsDemo 0 demo_cfg) p'.
Proof. refine (proj1 (proj2 (laihost_pci_reads 0 0 2 0 0x10 (PortsDemo 0 demo_cfg) _ _)) _); [unfold valid; lia|lia|reflexivity]. Defined.

Lemma laihost_pci_write_read_witness :
  ∃ p' p'', laihost_pci_writed 0 0 2 0 0x10 0xFFFF0000 (PortsDemo 0 demo_cfg) = Ok (tt, p') ∧
    laihost_pci_readd 0 0 2 0 0x10 p' =
      Ok (write_masked (cfg (PortsDemo 0 demo_cfg) (cfg_at 0 2 0 0x10)) 0xFFFF0000 (cfg_mask (PortsDemo 0 demo_cfg) (cfg_at 0 2 0 0x10)), p'') ∧
    ∀ a, a ≠ cfg_at 0 2 0 0x10 → cfg p'' a = cfg (PortsDemo 0 demo_cfg) a.
Proof. apply (laihost_pci_write_read 0 2 0 0x10 0xFFFF0000 (PortsDemo 0 demo_cfg)); [unfold valid; lia|lia|reflexivity|lia]. Defined.
