(* ===== verification/Startup.v ===== *)
(** * From the boot information to the first program (kernel.cpp)

    [kernel_main] over the components it calls: the test of the object groups,
    the file "startup" of the ramdisk, a thread with an address space, its
    stack and the loaded program, and the scheduler. The loop at the end is
    left by the first timer interrupt, which enters the thread. *)
From S2P Require Import Prelude Frigg CString Pmm Paging Vmm Arch ArchX86 Window.
From S2P Require Import Spinlock IpcQueue Object GroupProps.
From S2P Require Import Initrd Cpu Vm VmSpace VmTables VmProps VmLoad VmFit Elf ElfProps ElfX86 Sched SchedProps.
From stdpp Require Import base numbers option gmap list.
#[local] Open Scope Z_scope.

Definition ARCH_INFO_HAS_INITRAMFS : Z := Z.shiftl 1 1.
Definition perm_urw : Z := Z.lor (Z.lor perm_user perm_read) perm_write.

Record arch_boot_info_t := BootInfo { info_flags : Z; info_initramfs : Z; info_initramfs_size : Z }.

(** The accessors of arch/task.h. *)
Definition set_sp (sp : Z) (t : arch_task) : arch_task :=
  let c := state_of t in
  Task (CtxState (r15 c) (r14 c) (r13 c) (r12 c) (r11 c) (r10 c) (r9 c) (r8 c) (rdi c) (rsi c) (rbp c) (rdx c) (rcx c)
          (rbx c) (rax c) (ss c) sp (rflags c) (cs c) (rip c)) (vmm_ctx_of t) (io_bitmap_of t).
Definition set_task_ip (ip : Z) (t : arch_task) : arch_task :=
  let c := state_of t in
  Task (CtxState (r15 c) (r14 c) (r13 c) (r12 c) (r11 c) (r10 c) (r9 c) (r8 c) (rdi c) (rsi c) (rbp c) (rdx c) (rcx c)
          (rbx c) (rax c) (ss c) (rsp c) (rflags c) (cs c) ip) (vmm_ctx_of t) (io_bitmap_of t).
Definition set_vmm_ctx (ctx : Z) (t : arch_task) : arch_task := Task (state_of t) ctx (io_bitmap_of t).

Record kernel {S L : Type} {V H : Type → Type} := Kernel {
  image : cmem;              (** the kernel's memory *)
  ramdisk : initrd;
  registry : groups H V;     (** [global_object_groups] and the objects *)
  core : sched S L V H;      (** the scheduler, its threads, the machine *)
  next_place : Z;            (** where the next thread or address space goes *)
}.
Arguments kernel : clear implicits.
Arguments Kernel {S L V H} _ _ _ _ _.

Section startup.
Context {S : Type} `{!ArchMM S}.
Context {L : Type} `{!FrgList L}.
Context {V : Type → Type} `{!FrgVector V}.
Context {H : Type → Type} `{!FrgHashMap H}.
Notation vm := (vm S L V).
Notation sched := (sched S L V H).
Notation kernel := (kernel S L V H).

Definition set_image (m : cmem) (k : kernel) : kernel := Kernel m (ramdisk k) (registry k) (core k) (next_place k).
Definition set_ramdisk (rd : initrd) (k : kernel) : kernel := Kernel (image k) rd (registry k) (core k) (next_place k).
Definition set_registry (gs : groups H V) (k : kernel) : kernel := Kernel (image k) (ramdisk k) gs (core k) (next_place k).
Definition set_core (c : sched) (k : kernel) : kernel := Kernel (image k) (ramdisk k) (registry k) c (next_place k).

Definition on_image {A} (m : M cmem A) : M kernel A := zoom image set_image m.
Definition on_registry {A} (m : M (groups H V) A) : M kernel A := zoom registry set_registry m.
Definition on_core {A} (m : M sched A) : M kernel A := zoom core set_core m.

Definition place : M kernel Z := λ k,
  Ok (next_place k, Kernel (image k) (ramdisk k) (registry k) (core k) (next_place k + 1)).

(** ** The test of the object groups *)

(** The group of the test is a local variable; [garbage] is what its storage
    holds where the constructor does not initialise it. *)
Definition group_test (garbage : bool) : M (Object.store H V) () :=
  g ← new_obj (OGroup (object_group_new 0 garbage));
  res1 ← check_membership_and_void g 1 (add_member g 2);
  lift (assertion (negb res1));;
  add_member g 1;;
  res2 ← check_membership_and_void g 1 (add_member g 2);
  lift (assertion res2);;
  res3 ← check_membership_and_void g 1 (remove_member g 2);
  res3_5 ← check_membership_and g 1 (get_object g 0);
  res4 ← check_membership_and_void g 1 (remove_member g 1);
  res5 ← check_membership_and g 1 (get_object g 0);
  lift (assertion res3);;
  lift (assertion res4);;
  object ← lift (access res3_5);
  lift (assertion (object =? 0));;
  lift (assertion (negb (bool_decide (is_Some res5))));;
  res6 ← check_membership g 1;
  lift (assertion (negb res6)).

Definition table_test (garbage : bool) : M (groups H V) () :=
  gid ← new_group garbage 1;
  gg_check_membership_and 1 gid (λ g, add_member g 2);;
  foo ← on_heap (new_obj (OQueue (ipc_queue_new 0)));
  gg_check_membership_and 2 gid (λ g, add_object g foo);;
  remove_group 1 gid;;
  mret tt.

(** ** The first thread *)
Definition stack_size : Z := 8 * 1024 * 1024.
Definition stack_pages : Z := stack_size / vm_page_size.

(** [make_unique<address_space>] *)
Definition new_space : M kernel Z :=
  p ← place;
  on_core (λ c,
    match address_space_new (vm_start (machine c)) with
    | Ok (_, v) => Ok (tt, set_vm (arch v) (<[p := v]> (spaces c)) c)
    | Panic => Panic
    | Fault => Fault
    | Hang => Hang
    end);;
  mret p.

(** [make_unique<thread>]; the storage of the task is [storage]. *)
Definition new_thread (storage : arch_task) (space : Z) : M kernel Z :=
  p ← place; on_core (put_thread p (thread_new (arch_task_new storage) space));; mret p.

Definition update_task (p : Z) (f : arch_task → arch_task) : M sched () :=
  update_thread p (λ t, set_task (f (_task t)) t).

(** [elf64_load(file, *t)]: the loader of Elf.v on the parts of the thread. *)
Definition load_thread (elf_magic file p : Z) : M kernel bool := λ k,
  match thread_objs (core k) !! p with
  | None => Fault
  | Some t =>
      match spaces (core k) !! _addr_space t with
      | None => Fault
      | Some v =>
          match elf64_load elf_magic file (Loader (image k) (rip (state_of (_task t))) (set_arch (machine (core k)) v)) with
          | Ok (b, l) =>
              Ok (b, set_image (kmem l) (set_core
                (set_thread_objs (<[p := set_task (set_task_ip (task_ip l) (_task t)) t]> (thread_objs (core k)))
                   (set_vm (arch (addr_space l)) (<[_addr_space t := addr_space l]> (spaces (core k))) (core k))) k))
          | Panic => Panic
          | Fault => Fault
          | Hang => Hang
          end
      end
  end.

(** [kernel_main] up to its endless loop. Arguments: where the literals
    ["startup"] and [ELF_MAGIC] are, where [kmalloc] puts the file, how many
    processors run, and uninitialised storage. *)
Definition kernel_main (startup elf_magic startup_file n_cpus : Z) (storage : arch_task) (garbage garbage' : bool)
    (info : arch_boot_info_t) : M kernel () :=
  (if has (info_flags info) ARCH_INFO_HAS_INITRAMFS
   then modify (set_ramdisk (initrd_init (info_initramfs info) (info_initramfs_size info)))
   else mret tt);;
  (if negb (has (info_flags info) ARCH_INFO_HAS_INITRAMFS) then lift Panic else mret tt);;
  on_registry (on_heap (group_test garbage));;
  on_registry (table_test garbage');;
  rd ← gets ramdisk;
  size ← on_image (initrd_read_file rd startup startup_file);
  (if size =? 0 then lift Panic else mret tt);;
  on_core (sched_init n_cpus);;
  space ← new_space;
  t ← new_thread storage space;
  k ← get_st;
  v ← lift (access (spaces (core k) !! space));
  on_core (update_task t (set_vmm_ctx (_vmm_ctx v)));;
  stack ← on_core (on_space space (allocate stack_pages perm_urw 0));
  on_core (update_task t (set_sp (u64 (stack + stack_size))));;
  ok ← load_thread elf_magic startup_file t;
  lift (assertion ok);;
  id ← on_core (sched_add t);
  on_core (sched_run id).

(** What the kernel starts with: the memory, and the machine with nothing
    but its own address space. *)
Definition kernel_start (m : cmem) (a : S) : kernel :=
  Kernel m (initrd_init 0 0) (Groups (Object.Store ∅ 1) hm_empty 0 false)
    (Sched a ∅ ∅ hm_empty fl_empty 0 0 vec_empty false false []) 1.
End startup.

(** ** The tests pass *)
Section tests.
Context {H : Type → Type} `{!FrgHashMap H} `{!FrgHashMapLaws H}.
Context {V : Type → Type} `{!FrgVector V}.
Implicit Types (s : Object.store H V) (g : object_group H).

(** What the steps of the test keep: a free group without objects, whose
    members are [mem]. *)
Record test_group g (mem : Z → bool) : Prop := {
  tg_lock : _lock g = false;
  tg_objects h : object_of g h = 0;
  tg_members t : member_of g t = mem t;
}.

Definition new_members (mem : Z → bool) (x : Z) (b : bool) (t : Z) : bool := if decide (t = x) then b else mem t.

Lemma test_group_set g mem x b :
  test_group g mem → test_group (set_members (assign false (_members g) x b) g) (new_members mem x b).
Proof.
  intros [Hl Ho Hm]. split; [done|exact Ho|]. intros t. unfold member_of, new_members. cbn. rewrite assign_map.
  case_decide as Ht; [subst; by rewrite lookup_insert_eq|]. rewrite lookup_insert_ne by done. apply Hm.
Qed.

Lemma test_group_tested g mem t b : test_group g mem → test_group (set_lock false (set_dont_lock b (tested g t b))) mem.
Proof. intros [Hl Ho Hm]. split; [done|exact Ho|]. intros t'. rewrite <- Hm. exact (tested_members g t b t'). Qed.

Lemma test_refused {A} s p g mem t (f : M (Object.store H V) A) :
  group_at s p g → test_group g mem → mem t = false →
  ∃ g', check_membership_and p t f s = Ok (None, with_group s p g') ∧ test_group g' mem.
Proof.
  intros Hp Hg Hm. pose proof Hg as [Hl Ho Hmem]. exists (tested g t false). split; [apply check_refused; [done|done|by rewrite Hmem]|].
  split; [done|exact Ho|]. intros t'. rewrite <- Hmem. exact (tested_members g t false t').
Qed.

Lemma test_set s p g mem t x b :
  group_at s p g → test_group g mem → mem t = true →
  ∃ g', check_membership_and p t (set_member p x b) s = Ok (Some tt, with_group s p g') ∧ test_group g' (new_members mem x b).
Proof.
  intros Hp Hg Hm. pose proof Hg as [Hl Ho Hmem]. set (ga := set_dont_lock true (tested g t true)).
  pose proof (set_member_run (with_group s p ga) p ga x b (group_at_with _ _ _) (or_introl eq_refl)) as Hset.
  rewrite with_group_twice in Hset. eexists. split.
  - rewrite (check_granted s p g t _ _ _ _ Hp Hl (eq_trans (Hmem t) Hm) Hset (group_at_with _ _ _)). by rewrite with_group_twice.
  - pose proof (test_group_set _ _ x b (test_group_tested g mem t true Hg)) as [E1 E2 E3]. split; [done|exact E2|exact E3].
Qed.

Lemma test_get s p g mem t h :
  group_at s p g → test_group g mem → mem t = true →
  ∃ g', check_membership_and p t (get_object p h) s = Ok (Some 0, with_group s p g') ∧ test_group g' mem.
Proof.
  intros Hp Hg Hm. pose proof Hg as [Hl Ho Hmem]. set (ga := set_dont_lock true (tested g t true)).
  pose proof (get_object_run (with_group s p ga) p ga h (group_at_with _ _ _)) as Hget.
  change (object_of ga h) with (object_of g h) in Hget. rewrite Ho, with_group_twice in Hget. eexists. split.
  - rewrite (check_granted s p g t _ _ _ _ Hp Hl (eq_trans (Hmem t) Hm) Hget (group_at_with _ _ _)). by rewrite with_group_twice.
  - destruct (test_group_tested g mem t true Hg) as [_ _ Hm']. split; [done| |exact Hm'].
    intros h'. pose proof (Ho h') as Hh'. unfold object_of in *. cbn. rewrite hm_index_map. destruct (decide (h = h')) as [->|Hne].
    + rewrite lookup_insert_eq. exact Hh'.
    + by rewrite lookup_insert_ne.
Qed.

(** Running a guarded call of a method without result. *)
Lemma void_run s p t (f : M (Object.store H V) ()) r s' :
  check_membership_and p t f s = Ok (r, s') → check_membership_and_void p t f s = Ok (bool_decide (is_Some r), s').
Proof. intros Hr. unfold check_membership_and_void. by run Hr. Qed.

Lemma group_test_run s garbage :
  ∃ g, group_test garbage s =
    Ok (tt, Object.Store (<[next_ptr s := OGroup g]> (objs s)) (next_ptr s + 1)).
Proof.
  unfold group_test. set (p := next_ptr s). set (g0 := object_group_new 0 garbage).
  set (s0 := Object.Store (<[p := OGroup g0]> (objs s)) (p + 1)).
  assert (∀ g, with_group s0 p g = Object.Store (<[p := OGroup g]> (objs s)) (p + 1)) as Hst
    by (intros g; unfold with_group, s0; cbn; by rewrite insert_insert_eq).
  run (eq_refl : new_obj (OGroup g0) s = Ok (p, s0)).
  assert (group_at s0 p g0) as H0 by (unfold group_at; cbn; by rewrite lookup_insert_eq).
  assert (test_group g0 (λ _, false)) as T0.
  { split; [done| |]; intros t; unfold object_of, member_of; cbn; by rewrite hm_empty_map. }
  destruct (test_refused s0 p g0 _ 1 (add_member p 2) H0 T0 eq_refl) as (g1 & E1 & T1). run (void_run _ _ _ _ _ _ E1).
  run (eq_refl : lift (assertion true) (with_group s0 p g1) = Ok (tt, with_group s0 p g1)).
  assert (add_member p 1 (with_group s0 p g1) = Ok (tt, with_group s0 p (set_members (assign false (_members g1) 1 true) g1))) as E2.
  { unfold add_member. rewrite (set_member_run _ p g1 1 true (group_at_with _ _ _)) by (right; apply T1). by rewrite with_group_twice. }
  run E2. pose proof (test_group_set g1 _ 1 true T1) as T2. set (g2 := set_members _ g1) in *.
  destruct (test_set _ p g2 _ 1 2 true (group_at_with s0 p g2) T2 eq_refl) as (g3 & E3 & T3). rewrite with_group_twice in E3.
  run (void_run _ _ _ _ _ _ E3). run (eq_refl : lift (assertion true) (with_group s0 p g3) = Ok (tt, with_group s0 p g3)).
  destruct (test_set _ p g3 _ 1 2 false (group_at_with s0 p g3) T3 eq_refl) as (g4 & E4 & T4). rewrite with_group_twice in E4.
  run (void_run _ _ _ _ _ _ E4).
  destruct (test_get _ p g4 _ 1 0 (group_at_with s0 p g4) T4 eq_refl) as (g5 & E5 & T5). rewrite with_group_twice in E5. run E5.
  destruct (test_set _ p g5 _ 1 1 false (group_at_with s0 p g5) T5 eq_refl) as (g6 & E6 & T6). rewrite with_group_twice in E6.
  run (void_run _ _ _ _ _ _ E6).
  destruct (test_refused _ p g6 _ 1 (get_object p 0) (group_at_with s0 p g6) T6 eq_refl) as (g7 & E7 & T7).
  rewrite with_group_twice in E7. run E7. cbv [bool_decide decide_rel]. cbn [negb].
  do 2 run (eq_refl : lift (assertion true) (with_group s0 p g7) = Ok (tt, with_group s0 p g7)).
  run (eq_refl : lift (access (Some 0)) (with_group s0 p g7) = Ok (0, with_group s0 p g7)).
  do 2 run (eq_refl : lift (assertion true) (with_group s0 p g7) = Ok (tt, with_group s0 p g7)).
  run (check_membership_run _ p g7 1 (group_at_with s0 p g7)). rewrite with_group_twice, (tg_members _ _ T7), Hst.
  by eexists.
Qed.

Definition fresh_heap s : Prop := 0 < next_ptr s ∧ ∀ k, next_ptr s ≤ k → objs s !! k = None.

Lemma table_test_run (gs : groups H V) garbage :
  gg_lock gs = false → hm_map (_groups gs) !! gg_next_id gs = None → fresh_heap (heap_objs gs) →
  ∃ gs', table_test garbage gs = Ok (tt, gs').
Proof.
  intros Hl Hid [Hpos Hfresh]. set (id := gg_next_id gs). set (p := next_ptr (heap_objs gs)) in *. set (o := objs (heap_objs gs)) in *.
  destruct (new_group_run gs garbage 1 Hl Hid) as (m1 & Hnew & Hm1). fold id p o in Hnew, Hm1.
  unfold table_test. run Hnew. set (g1 := group_of garbage 1) in *. set (h1 := with_group _ p g1). set (gs1 := Groups h1 m1 _ false).
  assert (hm_map (_groups gs1) !! id = Some (LockedGroup p false)) as He1 by (cbn; by rewrite Hm1, lookup_insert_eq).
  (* the second member *)
  set (ga := set_dont_lock true (tested g1 1 true)).
  pose proof (set_member_run (with_group h1 p ga) p ga 2 true (group_at_with _ _ _) (or_introl eq_refl)) as Hadd.
  rewrite with_group_twice in Hadd. set (g2 := set_members _ ga) in Hadd.
  assert (member_of g1 1 = true) as Hmem1 by (unfold g1; by rewrite group_of_members).
  pose proof (check_granted h1 p g1 1 _ _ _ _ (group_at_with _ _ _) eq_refl Hmem1 Hadd (group_at_with _ _ _)) as Hc.
  rewrite with_group_twice in Hc. set (g3 := set_lock false (set_dont_lock false g2)) in Hc.
  destruct (gg_check_run gs1 1 id p (λ x, add_member x 2) _ _ He1 ltac:(lia) Hc) as (m2 & Hrun & Hm2). run Hrun.
  assert (∀ t, member_of g3 t = bool_decide (t = 1) || bool_decide (t = 2)) as Hmem3.
  { intros t. unfold member_of, g3, g2. cbn. rewrite assign_map. destruct (decide (t = 2)) as [->|Ht]; [by rewrite lookup_insert_eq|].
    rewrite lookup_insert_ne by done. rewrite (bool_decide_eq_false_2 (t = 2)), orb_false_r by done.
    rewrite <- (group_of_members garbage 1 t). exact (tested_members g1 1 true t). }
  (* the queue *)
  set (h2 := with_group h1 p g3). set (q := p + 1). set (h3 := Object.Store (<[q := OQueue (ipc_queue_new 0)]> (objs h2)) (q + 1)).
  set (gs2 := set_groups m2 (set_heap h2 gs1)). set (gs3 := set_heap h3 gs2).
  run (eq_refl : on_heap (new_obj (OQueue (ipc_queue_new 0))) gs2 = Ok (q, gs3)).
  assert (q ≠ p) as Hqp by lia.
  assert (group_at h3 p g3) as Hg3 by (unfold group_at; cbn; rewrite lookup_insert_ne by lia; by rewrite lookup_insert_eq).
  set (gb := set_dont_lock true (tested g3 2 true)).
  assert (objs (with_group h3 p gb) !! q = Some (OQueue (ipc_queue_new 0))) as Hq by (cbn; rewrite lookup_insert_ne by lia; by rewrite lookup_insert_eq).
  pose proof (add_object_run (with_group h3 p gb) p gb q _ (group_at_with _ _ _) (or_introl eq_refl) Hqp Hq) as Hobj.
  cbn zeta in Hobj. set (g4 := set_objects _ _) in Hobj. set (s4 := Object.Store _ _) in Hobj.
  assert (group_at s4 p g4) as Hg4 by (unfold group_at, s4; cbn; rewrite lookup_insert_ne by lia; by rewrite lookup_insert_eq).
  pose proof (check_granted h3 p g3 2 (add_object p q) _ _ _ Hg3 eq_refl (Hmem3 2) Hobj Hg4) as Hc4.
  assert (hm_map (_groups gs3) !! id = Some (LockedGroup p false)) as He3 by exact (eq_trans (f_equal (.!! id) Hm2) He1).
  destruct (gg_check_run gs3 2 id p (λ x, add_object x q) _ _ He3 ltac:(lia) Hc4) as (m4 & Hrun4 & Hm4). run Hrun4.
  set (g5 := set_lock false (set_dont_lock false g4)). set (gs4 := set_groups m4 _).
  (* removing the group *)
  assert (∀ h x, hm_map (_objects g5) !! h = Some x → h = 0 ∧ x = q) as Hone.
  { intros h x. unfold g5, g4. cbn. rewrite assign_map. intros [[<- <-]|[_ Hx]]%lookup_insert_Some; [done|].
    exfalso. clear -Hx FrgHashMapLaws0. rewrite hm_empty_map in Hx. by rewrite lookup_empty in Hx. }
  assert (holds_queues (heap_objs gs4) g5) as Hh.
  { split.
    - intros h x [-> ->]%Hone. split; [lia|]. eexists. cbn. rewrite lookup_insert_ne by lia. by rewrite lookup_insert_eq.
    - intros h h' x [-> ->]%Hone [-> _]%Hone. done. }
  destruct (remove_group_spec H V gs4 1 id p g5 eq_refl (eq_trans (f_equal (.!! id) Hm4) He3) ltac:(lia) (group_at_with _ _ _) Hh)
    as (gs5 & Hrm & _). run Hrm. by exists gs5.
Qed.
End tests.

(** ** The address space of the first thread *)
Section space.
Context {S : Type} `{!ArchMM S}.
Context {L : Type} `{!FrgList L}.
Context {V : Type → Type} `{!FrgVector V}.
Context `{!FrgListLaws L} `{!FrgVectorLaws V} `{!ArchMMLaws S}.
Notation vm := (vm S L V).

Definition stack_base : Z := vm_user_end - stack_size.
Definition program_segments (bytes : list Z) : list elf64_phdr := filter is_load (phdrs_of bytes).

(** A program that fits below the stack, into [room] physical pages. *)
Record program_ok (bytes : list Z) (room : Z) : Prop := {
  pr_bytes : Forall (λ b, 0 ≤ b < 256) bytes;
  pr_len : 64 ≤ len bytes;
  pr_valid : elf_valid bytes = true;
  pr_headers : field bytes 32 8 + sizeof_elf64_phdr * field bytes 56 2 ≤ len bytes;
  pr_segs : Forall (seg_ok bytes) (program_segments bytes);
  pr_below : Forall (λ ph, p_vaddr ph + segment_pages ph * 4096 ≤ stack_base) (program_segments bytes);
  pr_apart : segs_apart (program_segments bytes);
  pr_cost : segs_cost (program_segments bytes) ≤ room;
}.

Lemma program_room bytes room : program_ok bytes room → 0 ≤ room.
Proof. intros H. pose proof (segs_cost_nonneg _ _ (pr_segs _ _ H)). pose proof (pr_cost _ _ H). lia. Qed.

Lemma first_space g (a : S) bytes :
  am_inv g a → am_ready a → am_ctx g (am_kernel a) → 1 ≤ am_room a →
  ∃ g' (v0 v1 : vm), address_space_new (vm_start a) = Ok (tt, v0) ∧
    allocate stack_pages perm_urw 0 v0 = Ok (stack_base, v1) ∧ _vmm_ctx v1 = _vmm_ctx v0 ∧ arch v1 = arch v0 ∧
    loadable g' v1 ∧ has_region v1 stack_base stack_pages perm_urw ∧
    (program_ok bytes (am_room a - 1) → segs_ok bytes v1 (program_segments bytes)).
Proof.
  intros Hinv Hrd Hk Hroom. destruct (address_space_new_run (L := L) (V := V) g a Hinv Hroom) as (g' & v0 & Hnew & Hvm & Hr & _ & Hrm & Hh & Hp & Hst & Hctx).
  pose proof (as_kept _ _ _ _ Hst) as Hkept. set (h0 := Hole vm_user_base (2 ^ 35 - 1)) in *.
  assert (tidy v0) as Ht by (apply (tidy_start v0 _ Hh Hp); cbn [h_size h0]; lia).
  assert (fits v0 stack_pages 1 h0) as Hfit.
  { split; [rewrite Hp; by left|]. rewrite Hh, lookup_singleton_eq. split; [done|]. vm_compute. discriminate. }
  destruct (allocate_tidy g' v0 stack_pages perm_urw 0 Hvm Ht ltac:(reflexivity) (ex_intro _ _ (ex_intro _ _ Hfit)))
    as (b & r & v1 & Hal & Hpl & Ha & Ht1 & Hcov).
  destruct (allocate_run g' v0 stack_pages perm_urw 0 Hvm ltac:(discriminate)) as [[_ Hno]|(b' & _ & p & h & v1' & Hal' & _ & Hfit' & Hb & _)];
    [by destruct (Hno _ _ Hfit)|].
  rewrite Hal in Hal'. injection Hal' as <- <-. destruct Hfit' as (Hin & Hlook & _).
  rewrite Hp in Hin. apply list_elem_of_singleton in Hin as ->. rewrite Hh, lookup_singleton_eq in Hlook. injection Hlook as <-.
  assert (b = stack_base) as -> by (revert Hb; unfold h0, stack_base, stack_pages, stack_size; cbn [h_base h_size];
    change vm_user_base with 4096; change vm_page_size with 4096; change vm_user_end with (2 ^ 47); wrap_lia).
  exists g', v0, v1. split; [exact Hnew|]. split; [exact Hal|]. destruct Hpl as [Hok1 Hmem1 Hst1 Hnr Hlist (m & Hm & Eb & En & Epm & _) _ _].
  split; [apply Hst1|]. split; [done|]. split; [|split].
  - split; [by split|done|rewrite Ha; by apply Hkept| |]; rewrite Ha, (kept_kernel _ _ _ Hkept); [by apply Hst|].
    rewrite (vs_ctx _ _ _ _ Hst1). intros E. apply Hctx. by rewrite E.
  - exists r, m. rewrite Hm, lookup_insert_eq, Hlist. split_and!; try done. by left.
  - intros Hpr. split; [apply Hpr| |apply Hpr|rewrite Ha, Hrm; apply Hpr]. apply Forall_forall. intros ph Hin.
    pose proof (proj1 (Forall_forall _ _) (pr_segs _ _ Hpr) ph Hin) as Hs. pose proof (proj1 (Forall_forall _ _) (pr_below _ _ Hpr) ph Hin) as Hb'.
    cbn beta in Hb'. destruct (sg_range _ _ Hs) as (? & ? & ? & ?). pose proof (sg_some _ _ Hs). split.
    + intros j Hj. pose proof (Hcov j) as Hcj.
      assert (rng stack_base stack_pages j = 0%nat) as Hz.
      { unfold rng. apply decide_False. change (stack_base / 4096) with (2 ^ 35 - 2048). change stack_base with (2 ^ 47 - 2048 * 4096) in Hb'. wrap_lia. }
      rewrite Hz, Nat.add_0_r in Hcj. rewrite <- Hcj. apply (in_hole_free v0 1 h0); [rewrite Hp; by left|by rewrite Hh, lookup_singleton_eq|].
      unfold in_hole, h0. cbn [h_base h_size]. change (vm_user_base / 4096) with 1. change stack_base with (2 ^ 47 - 2048 * 4096) in Hb'. wrap_lia.
    + intros r' m' Hr'. rewrite Hlist, Hr in Hr'. apply list_elem_of_singleton in Hr' as ->. rewrite Hm, lookup_insert_eq. intros [= <-].
      rewrite Eb, En. change (stack_base + stack_pages * 4096) with (2 ^ 47). change stack_base with (2 ^ 47 - 2048 * 4096) in Hb'. lia.
Qed.
End space.

(** ** The scheduler with its first thread *)
Section first_thread.
Context {S : Type} `{!ArchMM S}.
Context {L : Type} `{!FrgList L} `{!FrgListLaws L}.
Context {V : Type → Type} `{!FrgVector V} `{!FrgVectorLaws V}.
Context {H : Type → Type} `{!FrgHashMap H} `{!FrgHashMapLaws H}.
Notation sched := (sched S L V H).
Implicit Types (c : sched).

(** A scheduler that was initialised and knows no thread. *)
Record sched_fresh c : Prop := {
  sf_threads : hm_map (threads c) = ∅;
  sf_schedule : fl_elems (schedule c) = [];
  sf_counters : next_id c = 0 ∧ idx c = 0;
  sf_cpu : vec_elems (sched_procs c) !! 0%nat = Some (CpuData 0 false);
  sf_ready : ready c = true ∧ threads_lock c = false;
}.

Lemma sched_init_run n c : 0 < n → vec_elems (sched_procs c) = [] →
  ∃ v, sched_init n c = Ok (tt, set_ready true (set_procs v c)) ∧ vec_elems v = replicate (Z.to_nat n) (CpuData 0 false).
Proof.
  intros Hn Hv. unfold sched_init. destruct (Z.eqb_spec n 0); [lia|].
  assert (∀ (l : list Z) c, ∃ v, for_each (λ _, modify (λ s, set_procs (vec_push (sched_procs s) (CpuData 0 false)) s)) l c = Ok (tt, set_procs v c) ∧
    vec_elems v = vec_elems (sched_procs c) ++ replicate (length l) (CpuData 0 false)) as Hloop.
  { intros l. induction l as [|x l IH]; intros c'.
    - exists (sched_procs c'). split; [by destruct c'|]. by rewrite app_nil_r.
    - destruct (IH (set_procs (vec_push (sched_procs c') (CpuData 0 false)) c')) as (v & Hrun & Hv').
      exists v. split; [exact Hrun|]. rewrite Hv'. cbn. by rewrite vec_push_elems, <- app_assoc. }
  destruct (Hloop (seqZ 0 n) c) as (v & Hrun & Hv'). run Hrun. exists v. split; [done|].
  by rewrite Hv', Hv, length_seqZ.
Qed.

Lemma first_thread_runs c p th :
  sched_fresh c → thread_objs c !! p = Some th → _state th = stopped → _id th = 0 → _running_on th = -1 →
  ∃ c0 c1, sched_add p c = Ok (0, c0) ∧ sched_run 0 c0 = Ok (tt, c1) ∧ machine c1 = machine c ∧ spaces c1 = spaces c ∧
    ∀ irq st, ∃ c2, timer_irq_sink 0 irq st c1 = Ok (Entered p, c2) ∧
      thread_objs c2 !! p = Some (set_running_on 0 th) ∧ machine c2 = machine c ∧ spaces c2 = spaces c ∧
      calls c2 = calls c ++ [DropContext; AckInterrupt irq].
Proof.
  intros [Hth Hsch [Hnext Hidx] Hcpu [Hrdy Hlock]] Hp Hst Hid Hro.
  set (m1 := hm_write (hm_index 0 (threads c) 0) 0 p).
  assert (hm_map m1 = {[0 := p]}) as Hm1.
  { unfold m1. rewrite hm_write_map; rewrite hm_index_map, Hth; [by rewrite insert_insert_eq|by rewrite lookup_insert_eq]. }
  set (c0 := set_threads m1 (set_next_thread_id 1 (set_threads_lock false c))).
  assert (sched_add p c = Ok (0, c0)) as Hadd.
  { unfold sched_add. run (lock_threads_run c Hlock). run (get_thread_run (set_threads_lock true c) p th Hp).
    rewrite Hst, bool_decide_eq_true_2 by done. unfold allocate_id. cbv [mbind M_bind lift assertion gets modify mret M_ret].
    change (next_id (set_threads_lock true c)) with (next_id c). rewrite Hnext. reflexivity. }
  set (m2 := hm_index 0 m1 0). assert (hm_map m2 = {[0 := p]}) as Hm2.
  { unfold m2. rewrite hm_index_map, Hm1, lookup_singleton_eq. apply insert_singleton_eq. }
  set (c1 := set_schedule (fl_push_back (schedule c) p) (set_threads m2 c0)).
  assert (sched_run 0 c0 = Ok (tt, c1)) as Hrun.
  { unfold sched_run. run (lock_threads_run c0 eq_refl). unfold thread_at.
    cbv [mbind M_bind get_st modify lift access mret M_ret get_thread unlock_threads unlock].
    change (threads (set_threads_lock true c0)) with m1. rewrite Hm1, lookup_singleton_eq.
    cbn [default Datatypes.id from_option thread_objs set_threads set_threads_lock c0 set_next_thread_id]. rewrite Hp. reflexivity. }
  exists c0, c1. split; [exact Hadd|]. split; [exact Hrun|]. split; [done|]. split; [done|].
  intros irq st. unfold timer_irq_sink, sched_ready. run (eq_refl : gets ready c1 = Ok (ready c1, c1)).
  change (ready c1) with (ready c). rewrite Hrdy. unfold sched_resched.
  run (cpu_data_run c1 0 _ Hcpu). run (lock_threads_run c1 eq_refl). cbn [cpu_running andb].
  set (c2 := set_threads_lock true c1). run (eq_refl : (mret tt : M sched ()) c2 = Ok (tt, c2)).
  assert (fl_elems (schedule c2) = [p]) as Hl2 by (unfold c2, c1; cbn; by rewrite fl_push_back_elems, Hsch).
  assert (get_next_thread_to_run c2 = Ok (Some 0, set_idx 0 c2)) as Hget.
  { unfold get_next_thread_to_run. cbn [traverse]. run (eq_refl : get_st c2 = Ok (c2, c2)).
    change (idx c2) with (idx c). rewrite Hidx, Hl2. cbn [find_idle]. change (0 <? 0) with false.
    assert (get_thread p c2 = Ok (th, c2)) as Hg by (apply get_thread_run; exact Hp).
    erewrite bind_run; [|run Hg; rewrite Hro; reflexivity]. by rewrite Hid. }
  run Hget. cbn [andb].
  cbv [mbind M_bind modify add_call put_cpu_data mret M_ret].
  match goal with |- context [thread_at 0 ?s] => set (c3 := s) end.
  assert (hm_map (threads c3) !! 0 = Some p) as H3 by (change (threads c3) with m2; by rewrite Hm2, lookup_singleton_eq).
  destruct (thread_at_run c3 0 p H3) as (m4 & E4 & Hm4). rewrite E4.
  rewrite (update_thread_run (set_threads m4 c3) p th _ Hp).
  cbv [unlock_threads unlock mbind M_bind get_st lift modify].
  match goal with |- context [thread_at 0 ?s] => set (c5 := s) end.
  assert (hm_map (threads c5) !! 0 = Some p) as H5 by (change (threads c5) with m4; by rewrite Hm4).
  destruct (thread_at_run c5 0 p H5) as (m6 & E6 & Hm6). rewrite E6.
  rewrite (get_thread_run (set_threads m6 c5) p (set_running_on 0 th)) by apply lookup_insert_eq.
  eexists. split; [reflexivity|]. split; [apply lookup_insert_eq|]. split; [done|]. split; [done|].
  cbn. by rewrite <- app_assoc.
Qed.
End first_thread.

(** ** The whole way *)
(** ["startup"] *)
Definition startup_name : list Z := [115; 116; 97; 114; 116; 117; 112].

(** The ramdisk holds the program as a file of this name; there is room for
    it in the kernel's memory. *)
Record boot_ok (startup elf_magic startup_file : Z) (m : cmem) (info : arch_boot_info_t) (bytes : list Z) : Prop := {
  bo_flag : has (info_flags info) ARCH_INFO_HAS_INITRAMFS = true;
  bo_ramdisk : Initrd.placed (initrd_init (info_initramfs info) (info_initramfs_size info));
  bo_name : str_at m startup startup_name;
  bo_file : ∃ fs f rest, startup_name ∉ f_name <$> fs ∧ f_name f = startup_name ∧ f_data f = bytes ∧
    archive_at m (initrd_init (info_initramfs info) (info_initramfs_size info)) 0 (fs ++ f :: rest) ∧
    (let data := info_initramfs info + 512 * (Initrd.total fs + 1) in
     startup_file + len bytes ≤ data ∨ data + len bytes ≤ startup_file);
  bo_room : mapped m startup_file (len bytes) ∧ 0 ≤ startup_file ∧ startup_file + len bytes < 2 ^ 64;
  bo_magic : seg m elf_magic ELF_MAGIC ∧ (elf_magic + 5 ≤ startup_file ∨ startup_file + len bytes ≤ elf_magic);
}.

Section whole.
Context {S : Type} `{!ArchMM S}.
Context {L : Type} `{!FrgList L}.
Context {V : Type → Type} `{!FrgVector V}.
Context {H : Type → Type} `{!FrgHashMap H} `{!FrgHashMapLaws H}.
Context `{!FrgListLaws L} `{!FrgVectorLaws V} `{!ArchMMLaws S} `{!ArchMMCopyLaws S}.
Notation kernel := (kernel S L V H).

(** Up to the ramdisk. *)
Lemma kernel_tests startup elf_magic startup_file n_cpus storage garbage garbage' m a info :
  has (info_flags info) ARCH_INFO_HAS_INITRAMFS = true →
  ∃ gs, kernel_main startup elf_magic startup_file n_cpus storage garbage garbage' info (kernel_start (S := S) (L := L) (V := V) (H := H) m a) =
    (size ← on_image (initrd_read_file (initrd_init (info_initramfs info) (info_initramfs_size info)) startup startup_file);
     (if size =? 0 then lift Panic else mret tt);;
     on_core (sched_init n_cpus);;
     space ← new_space;
     t ← new_thread storage space;
     k ← get_st;
     v ← lift (access (spaces (core k) !! space));
     on_core (update_task t (set_vmm_ctx (_vmm_ctx v)));;
     stack ← on_core (on_space space (allocate stack_pages perm_urw 0));
     on_core (update_task t (set_sp (u64 (stack + stack_size))));;
     ok ← load_thread elf_magic startup_file t;
     lift (assertion ok);;
     id ← on_core (sched_add t);
     on_core (sched_run id))
    (Kernel m (initrd_init (info_initramfs info) (info_initramfs_size info)) gs
       (Sched a ∅ ∅ hm_empty fl_empty 0 0 vec_empty false false []) 1).
Proof.
  intros Hflag. set (rd := initrd_init _ _) in *. set (k0 := kernel_start m a). set (k1 := set_ramdisk rd k0).
  unfold kernel_main. rewrite Hflag. cbn [negb]. fold rd.
  run (eq_refl : modify (set_ramdisk rd) k0 = Ok (tt, k1)). run (eq_refl : (mret tt : M kernel ()) k1 = Ok (tt, k1)).
  destruct (group_test_run (heap_objs (registry k1)) garbage) as (g & Hg).
  set (gs1 := set_heap (Object.Store (<[1 := OGroup g]> ∅) 2) (registry k1)).
  run (zoom_run registry set_registry (on_heap (group_test garbage)) k1 tt gs1 (on_heap_run _ _ _ _ Hg)).
  destruct (table_test_run gs1 garbage') as (gs2 & Ht); [done| | |].
  { cbn. rewrite hm_empty_map. apply lookup_empty. }
  { split; [done|]. intros k Hk. cbn in *. rewrite lookup_insert_ne by lia. apply lookup_empty. }
  run (zoom_run registry set_registry (table_test garbage') (set_registry gs1 k1) tt gs2 Ht).
  by exists gs2.
Qed.

(** Up to the file in memory. *)
Lemma kernel_prepares startup elf_magic startup_file n_cpus storage garbage garbage' m a info bytes :
  boot_ok startup elf_magic startup_file m info bytes → 0 < len bytes → 0 < n_cpus →
  ∃ m' gs v, seg m' startup_file bytes ∧ seg m' elf_magic ELF_MAGIC ∧ vec_elems v = replicate (Z.to_nat n_cpus) (CpuData 0 false) ∧
    kernel_main startup elf_magic startup_file n_cpus storage garbage garbage' info (kernel_start (S := S) (L := L) (V := V) (H := H) m a) =
    (space ← new_space;
     t ← new_thread storage space;
     k ← get_st;
     v ← lift (access (spaces (core k) !! space));
     on_core (update_task t (set_vmm_ctx (_vmm_ctx v)));;
     stack ← on_core (on_space space (allocate stack_pages perm_urw 0));
     on_core (update_task t (set_sp (u64 (stack + stack_size))));;
     ok ← load_thread elf_magic startup_file t;
     lift (assertion ok);;
     id ← on_core (sched_add t);
     on_core (sched_run id))
    (Kernel m' (initrd_init (info_initramfs info) (info_initramfs_size info)) gs
       (Sched a ∅ ∅ hm_empty fl_empty 0 0 v true false []) 1).
Proof.
  intros [Hflag Hrd Hname (fs & f & rest & Hnot & Hf & Hdata & Har & Hdis) (Hmap & _ & _) [Hmagic Hout]] Hlen Hn.
  destruct (kernel_tests startup elf_magic startup_file n_cpus storage garbage garbage' m a info Hflag) as (gs2 & ->).
  set (rd := initrd_init _ _) in *. set (k2 := Kernel m rd gs2 _ 1). subst bytes.
  destruct (proj2 (initrd_read_file_spec rd m startup startup_file startup_name fs Hrd Hname Hnot) f rest Hf Har Hmap Hdis)
    as (m' & Hread & Hseg & Hsame).
  run (zoom_run image set_image (initrd_read_file rd startup startup_file) k2 _ m' Hread).
  destruct (Z.eqb_spec (len (f_data f)) 0); [lia|]. set (k3 := set_image m' k2).
  run (eq_refl : (mret tt : M kernel ()) k3 = Ok (tt, k3)).
  destruct (sched_init_run n_cpus (core k3) Hn) as (v & Hinit & Hv); [apply vec_empty_elems|].
  run (zoom_run core set_core (sched_init n_cpus) k3 tt _ Hinit).
  exists m', gs2, v. split; [done|]. split; [|by split].
  eapply seg_outside; [exact Hsame| |exact Hmagic]. unfold len in *. cbn. lia.
Qed.

(** The task that the first thread starts with. *)
Definition first_task (storage : arch_task) (ctx entry : Z) : arch_task :=
  set_task_ip entry (set_sp vm_user_end (set_vmm_ctx ctx (arch_task_new storage))).

Lemma on_space_run {A} p (o : M (vm S L V) A) c v x v' :
  spaces c !! p = Some v → arch v = machine c → o v = Ok (x, v') →
  on_space (H := H) p o c = Ok (x, set_vm (arch v') (<[p := v']> (spaces c)) c).
Proof.
  intros Hp Ha Ho. unfold on_space. rewrite Hp. assert (set_arch (machine c) v = v) as -> by (rewrite <- Ha; by destruct v).
  by rewrite Ho.
Qed.

(** What the kernel has set up: the space with the program and the stack, and
    the thread that the next timer interrupt enters. *)
Record started (storage : arch_task) (bytes : list Z) (k : kernel) (g : am_ghost) (v : vm S L V) : Prop := {
  sd_space : spaces (core k) !! 1 = Some v ∧ machine (core k) = arch v;
  sd_loadable : loadable g v;
  sd_program : Forall (shows v bytes) (program_segments bytes);
  sd_stack : has_region v stack_base stack_pages perm_urw;
  sd_enters irq st : ∃ c t, timer_irq_sink 0 irq st (core k) = Ok (Entered 2, c) ∧ machine c = arch v ∧
    thread_objs c !! 2 = Some t ∧ _task t = first_task storage (_vmm_ctx v) (field bytes 24 8) ∧
    _addr_space t = 1 ∧ _running_on t = 0 ∧ calls c = [DropContext; AckInterrupt irq];
}.

(** The kernel with a thread that has a stack and no program yet. *)
Definition with_stack (storage : arch_task) (m : cmem) (rd : initrd) (gs : groups H V) (procs : V sched_cpu_data) (v : vm S L V) : kernel :=
  Kernel m rd gs
    (Sched (arch v) {[1 := v]} {[2 := thread_new (set_sp vm_user_end (set_vmm_ctx (_vmm_ctx v) (arch_task_new storage))) 1]}
       hm_empty fl_empty 0 0 procs true false []) 3.

Lemma kernel_makes_thread {A} storage m rd gs procs a g bytes (rest : Z → M kernel A) :
  am_inv g a → am_ready a → am_ctx g (am_kernel a) → 1 ≤ am_room a →
  ∃ g' v, loadable g' v ∧ has_region v stack_base stack_pages perm_urw ∧
    (program_ok bytes (am_room a - 1) → segs_ok bytes v (program_segments bytes)) ∧
    (space ← new_space;
     t ← new_thread storage space;
     k ← get_st;
     v ← lift (access (spaces (core k) !! space));
     on_core (update_task t (set_vmm_ctx (_vmm_ctx v)));;
     stack ← on_core (on_space space (allocate stack_pages perm_urw 0));
     on_core (update_task t (set_sp (u64 (stack + stack_size))));;
     rest t)
    (Kernel m rd gs (Sched a ∅ ∅ hm_empty fl_empty 0 0 procs true false []) 1) = rest 2 (with_stack storage m rd gs procs v).
Proof.
  intros Hinv Hrd Hk Hroom.
  destruct (first_space (L := L) (V := V) g a bytes Hinv Hrd Hk Hroom) as (g0 & v0 & v1 & Hnew & Hal & Ectx & Ea & Hlo & Hstack & Hok).
  exists g0, v1. split_and!; [done..|]. set (t0 := thread_new (arch_task_new storage) 1).
  set (c1 := Sched (arch v0) {[1 := v0]} {[2 := t0]} hm_empty fl_empty 0 0 procs true false []).
  set (k1 := Kernel m rd gs c1 3).
  erewrite bind_run. 2: { unfold new_space. erewrite bind_run by reflexivity. erewrite bind_run; [reflexivity|].
    apply zoom_run. cbn [core set_core machine]. rewrite Hnew. reflexivity. }
  erewrite bind_run. 2: { unfold new_thread. erewrite bind_run by reflexivity. reflexivity. }
  match goal with |- ?f ?s = _ => change s with k1 end.
  run (eq_refl : get_st k1 = Ok (k1, k1)).
  run (eq_refl : lift (access (spaces (core k1) !! 1)) k1 = Ok (v0, k1)).
  set (t1 := set_task (set_vmm_ctx (_vmm_ctx v0) (arch_task_new storage)) t0). set (k2 := set_core (set_thread_objs {[2 := t1]} c1) k1).
  run (eq_refl : on_core (update_task 2 (set_vmm_ctx (_vmm_ctx v0))) k1 = Ok (tt, k2)).
  set (k3 := set_core (set_vm (arch v1) {[1 := v1]} (core k2)) k2).
  run (zoom_run core set_core _ k2 _ _ (on_space_run 1 _ (core k2) v0 _ v1 eq_refl eq_refl Hal : _ = Ok (_, core k3))).
  change (set_core (core k3) k2) with k3. change (u64 (stack_base + stack_size)) with vm_user_end.
  set (k4 := set_core (set_thread_objs {[2 := set_task (set_sp vm_user_end (_task t1)) t1]} (core k3)) k3).
  run (eq_refl : on_core (update_task 2 (set_sp vm_user_end)) k3 = Ok (tt, k4)).
  assert (k4 = with_stack storage m rd gs procs v1) as ->; [|done]. unfold with_stack. by rewrite Ectx.
Qed.

Definition load_and_run (elf_magic startup_file t : Z) : M kernel () :=
  ok ← load_thread elf_magic startup_file t;
  lift (assertion ok);;
  id ← on_core (sched_add t);
  on_core (sched_run id).

Lemma load_thread_run elf_magic startup_file storage m rd gs procs v b v' ip :
  elf64_load elf_magic startup_file (Loader m 0 v) = Ok (b, Loader m ip v') →
  load_thread elf_magic startup_file 2 (with_stack storage m rd gs procs v) =
    Ok (b, Kernel m rd gs (Sched (arch v') {[1 := v']} {[2 := thread_new (first_task storage (_vmm_ctx v) ip) 1]}
       hm_empty fl_empty 0 0 procs true false []) 3).
Proof.
  intros Hload. unfold load_thread. set (k := with_stack _ _ _ _ _ _).
  set (t := thread_new (set_sp vm_user_end (set_vmm_ctx (_vmm_ctx v) (arch_task_new storage))) 1).
  change (thread_objs (core k) !! 2) with (Some t). cbn iota. change (spaces (core k) !! _addr_space t) with (Some v). cbn iota.
  assert (Loader (image k) (rip (state_of (_task t))) (set_arch (machine (core k)) v) = Loader m 0 v) as -> by (by destruct v).
  rewrite Hload. reflexivity.
Qed.

Lemma kernel_starts elf_magic startup_file storage m rd gs procs n v g bytes :
  seg m startup_file bytes → seg m elf_magic ELF_MAGIC → 0 ≤ startup_file ∧ startup_file + len bytes < 2 ^ 64 →
  vec_elems procs = replicate (Datatypes.S n) (CpuData 0 false) → (∃ room, program_ok bytes room) →
  loadable g v → has_region v stack_base stack_pages perm_urw → segs_ok bytes v (program_segments bytes) →
  ∃ k g' v', load_and_run elf_magic startup_file 2 (with_stack storage m rd gs procs v) = Ok (tt, k) ∧
    started storage bytes k g' v'.
Proof.
  intros Hseg Hmagic Hfile Hprocs [room Hpr] Hlo Hstack Hok.
  destruct (elf64_load_run elf_magic startup_file bytes g (Loader m 0 v) Hseg Hmagic (pr_bytes _ _ Hpr) (pr_len _ _ Hpr) Hfile (pr_valid _ _ Hpr)
    (pr_headers _ _ Hpr) Hlo Hok) as (g2 & v2 & Hload & Hshow & Hgrown).
  unfold load_and_run. run (load_thread_run elf_magic startup_file storage m rd gs procs v _ _ _ Hload).
  set (t := thread_new _ 1). set (c := Sched _ _ _ _ _ _ _ _ _ _ _). set (k := Kernel m rd gs c 3).
  run (eq_refl : lift (assertion true) k = Ok (tt, k)).
  assert (sched_fresh c) as Hfresh.
  { split; [exact hm_empty_map|exact fl_empty_elems|done| |done]. cbn. by rewrite Hprocs. }
  destruct (first_thread_runs c 2 t Hfresh eq_refl eq_refl eq_refl eq_refl) as (c6 & c7 & Hadd & Hrun & Em & Es & Hent).
  run (zoom_run core set_core (sched_add 2) k 0 c6 Hadd).
  eexists _, g2, v2. split; [exact (zoom_run core set_core (sched_run 0) (set_core c6 k) tt c7 Hrun)|]. split.
  - cbn [core set_core]. rewrite Es, Em. done.
  - apply Hgrown.
  - exact Hshow.
  - by apply (gr_region _ _ _ _ _ Hgrown).
  - intros irq st. cbn [core set_core]. destruct (Hent irq st) as (c8 & E8 & Ht & Em8 & _ & Ec). exists c8, (set_running_on 0 t).
    destruct (gr_kernel _ _ _ _ _ Hgrown) as [_ Ecv]. split_and!; [exact E8|exact Em8|exact Ht| |done|done|exact Ec].
    rewrite Ecv. reflexivity.
Qed.
End whole.

(** ** What stops the machine *)
Section refuses.
Context {S : Type} `{!ArchMM S}.
Context {L : Type} `{!FrgList L}.
Context {V : Type → Type} `{!FrgVector V}.
Context {H : Type → Type} `{!FrgHashMap H} `{!FrgHashMapLaws H}.
Context `{!FrgListLaws L} `{!FrgVectorLaws V} `{!ArchMMLaws S} `{!ArchMMCopyLaws S}.

(** C12. Without a ramdisk, without a file "startup" in it, and when that file
    is not a valid program, [kernel_main] panics: it never reaches the
    scheduler with half a program. *)
Theorem kernel_main_refuses (startup elf_magic startup_file n_cpus : Z) (storage : arch_task) (garbage garbage' : bool)
    (m : cmem) (a : S) (info : arch_boot_info_t) :
  let main := kernel_main startup elf_magic startup_file n_cpus storage garbage garbage' info
    (kernel_start (L := L) (V := V) (H := H) m a) in
  let rd := initrd_init (info_initramfs info) (info_initramfs_size info) in
  (has (info_flags info) ARCH_INFO_HAS_INITRAMFS = false → main = Panic) ∧
  (∀ fs, Initrd.placed rd → str_at m startup startup_name → startup_name ∉ f_name <$> fs → archive_at m rd 0 fs →
     archive_end m rd (Initrd.total fs) → main = Panic) ∧
  (∀ bytes g, boot_ok startup elf_magic startup_file m info bytes → 0 < n_cpus → Forall (λ b, 0 ≤ b < 256) bytes → 64 ≤ len bytes →
     elf_valid bytes = false → am_inv g a → am_ready a → am_ctx g (am_kernel a) → 1 ≤ am_room a → main = Panic).
Proof.
  intros main rd. split; [|split].
  - intros Hflag. unfold main, kernel_main. by rewrite Hflag.
  - intros fs Hrd Hname Hnot Har Hend. unfold main. destruct (has (info_flags info) ARCH_INFO_HAS_INITRAMFS) eqn:Hflag;
      [|unfold kernel_main; by rewrite Hflag].
    destruct (kernel_tests startup elf_magic startup_file n_cpus storage garbage garbage' m a info Hflag) as (gs & ->). fold rd.
    pose proof (proj1 (initrd_read_file_spec rd m startup startup_file startup_name fs Hrd Hname Hnot) Har Hend) as Hread.
    set (k := Kernel m rd gs _ 1). by run (zoom_run image set_image (initrd_read_file rd startup startup_file) k 0 m Hread).
  - intros bytes g Hbo Hn Hb Hlen Hv Hinv Hrd Hk Hroom. unfold main.
    destruct (kernel_prepares (S := S) (L := L) (V := V) (H := H) startup elf_magic startup_file n_cpus storage garbage garbage' m a info bytes
      Hbo ltac:(lia) Hn) as (m' & gs & procs & Hseg & Hmagic & _ & ->).
    destruct (kernel_makes_thread (L := L) storage m' rd gs procs a g bytes (load_and_run elf_magic startup_file) Hinv Hrd Hk Hroom)
      as (g0 & v0 & _ & _ & _ & Hmake).
    etrans; [exact Hmake|]. unfold load_and_run. cbv [mbind M_bind].
    by rewrite (load_thread_run elf_magic startup_file storage m' rd gs procs v0 false v0 0
      (elf64_load_refused elf_magic startup_file bytes (Loader m' 0 v0) Hseg Hmagic Hb Hlen Hv)).
Qed.
End refuses.

(** ** The machine enters the program *)

(** The registers and tables with which a processor enters the thread [t]: the
    segments are those of user mode, interrupts are on. *)
Record enters_program (a : vmm) (t : thread) (bytes : list Z) (d : tss) : Prop := {
  ep_ip : rip (enter (_task t) d).1.2 = field bytes 24 8;
  ep_sp : rsp (enter (_task t) d).1.2 = vm_user_end;
  ep_segments : cs (enter (_task t) d).1.2 = 0x13 ∧ ss (enter (_task t) d).1.2 = 0x1b ∧ rflags (enter (_task t) d).1.2 = 0x202;
  ep_program ph : ph ∈ phdrs_of bytes → is_load ph = true → cpu_shows a (enter (_task t) d).2 bytes ph;
}.

Section x86.
Context {L : Type} `{!FrgList L}.
Context {V : Type → Type} `{!FrgVector V}.
Context {H : Type → Type} `{!FrgHashMap H} `{!FrgHashMapLaws H}.
Context `{!FrgListLaws L} `{!FrgVectorLaws V}.

(** C1. From the boot information to user mode: when the ramdisk holds a valid
    program named "startup" that fits below the stack and into the physical
    memory, [kernel_main] passes its own tests and reaches its endless loop;
    the first timer interrupt after that drops the context, acknowledges the
    interrupt and enters the thread it has made. The processor then starts at
    the entry point, in user mode with interrupts enabled, with the stack
    pointer at the end of user space above 8 MiB that are allocated, and on
    page tables that show every byte of the program. *)
Theorem kernel_main_enters (startup elf_magic startup_file n_cpus : Z) (storage : arch_task) (garbage garbage' : bool)
    (m : cmem) (a : vmm) (own : gmap Z (list Z)) (info : arch_boot_info_t) (bytes : list Z) :
  boot_ok startup elf_magic startup_file m info bytes → 0 < n_cpus →
  am_inv own a → am_ready a → am_ctx (ArchMM := x86_arch_mm) own (am_kernel a) → program_ok bytes (am_room a - 1) →
  ∃ k v, kernel_main startup elf_magic startup_file n_cpus storage garbage garbage' info
      (kernel_start (L := L) (V := V) (H := H) m a) = Ok (tt, k) ∧
    spaces (core k) !! 1 = Some v ∧ has_region v (vm_user_end - stack_size) (stack_size / 4096) perm_urw ∧
    ∀ irq st, ∃ c t, timer_irq_sink 0 irq st (core k) = Ok (Entered 2, c) ∧ thread_objs c !! 2 = Some t ∧
      _addr_space t = 1 ∧ calls c = [DropContext; AckInterrupt irq] ∧ ∀ d, enters_program (machine c) t bytes d.
Proof.
  intros Hbo Hn Hinv Hrd Hk Hpr. pose proof (pr_len _ _ Hpr) as Hlen.
  destruct (kernel_prepares (S := vmm) (L := L) (V := V) (H := H) startup elf_magic startup_file n_cpus storage garbage garbage' m a info bytes
    Hbo ltac:(lia) Hn) as (m' & gs & procs & Hseg & Hmagic & Hprocs & ->).
  destruct (Z.to_nat n_cpus) as [|n] eqn:En; [lia|].
  set (rd := initrd_init (info_initramfs info) (info_initramfs_size info)).
  pose proof (program_room _ _ Hpr) as Hroom.
  destruct (kernel_makes_thread (ArchMM0 := x86_arch_mm) (L := L) storage m' rd gs procs a own bytes (load_and_run elf_magic startup_file) Hinv Hrd Hk ltac:(lia))
    as (g0 & v0 & Hlo0 & Hst0 & Hok & Hmake).
  destruct (kernel_starts (ArchMM0 := x86_arch_mm) elf_magic startup_file storage m' rd gs procs n v0 g0 bytes Hseg Hmagic
    (proj2 (bo_room _ _ _ _ _ _ Hbo)) Hprocs (ex_intro _ _ Hpr) Hlo0 Hst0 (Hok Hpr)) as (k & g' & v & Hrun & [[Hsp Hm] Hlo Hshow Hstack Hent]).
  rewrite Hrun in Hmake.
  exists k, v. split; [exact Hmake|]. split; [exact Hsp|]. split; [exact Hstack|]. intros irq st.
  destruct (Hent irq st) as (c & t & E & Em & Ht & Etask & Esp & _ & Ec). exists c, t. split_and!; [exact E|exact Ht|exact Esp|exact Ec|].
  intros d. unfold enter. split; rewrite Etask; [done..|]. intros ph Hin Hld. rewrite Em.
  assert (ph ∈ program_segments bytes) as Hf by (apply list_elem_of_filter; split; [by rewrite Hld|done]).
  apply (shows_cpu g' v); [exact Hlo|exact (proj1 (Forall_forall _ _) (pr_segs _ _ Hpr) ph Hf)|exact (proj1 (Forall_forall _ _) Hshow ph Hf)].
Qed.
End x86.

(** ** A machine that starts a small program *)
Section demo.
Import Instances.

Definition demo_startup : file := File startup_name [48; 48; 48; 48; 48; 48; 48; 49; 55; 51] demo_program.

(** The bytes of the kernel's memory that are used: the archive at 0x100000,
    the literals at 0x200000, room for the file at 0x300000. *)
Definition demo_pieces (prog : list Z) : list (Z * list Z) :=
  [(0x100000, startup_name ++ [0]); (0x100000 + off_size, 48 :: f_digits demo_startup ++ [0]); (0x100000 + off_signature, ustar);
   (0x100200, prog); (0x200000, startup_name ++ [0]); (0x200100, ELF_MAGIC); (0x300000, replicate 123 0)].
Definition put_pieces (l : list (Z * list Z)) : cmem := foldr (λ '(p, l) m, put_seg p l m) ∅ l.
Definition demo_image (prog : list Z) : cmem := put_pieces (demo_pieces prog).

Fixpoint pieces_apart (l : list (Z * list Z)) : bool :=
  match l with
  | [] => true
  | (p, b) :: l' => forallb (λ '(q, c), (p + len b <=? q) || (q + len c <=? p)) l' && pieces_apart l'
  end.

Lemma put_pieces_seg l p b : pieces_apart l = true → (p, b) ∈ l → seg (put_pieces l) p b.
Proof.
  induction l as [|[q c] l IH]; intros Ha Hin; [by apply elem_of_nil in Hin|]. cbn in Ha. apply andb_prop in Ha as [Hq Ha].
  apply elem_of_cons in Hin as [[= -> ->]|Hin]; [apply put_seg_seg|]. apply put_seg_keep; [|by apply IH].
  rewrite forallb_forall in Hq. specialize (Hq (p, b) (proj1 (list_elem_of_In _ _) Hin)). cbn in Hq. lia.
Qed.

Definition demo_info : arch_boot_info_t := BootInfo 2 0x100000 1024.

Lemma demo_boot prog : len prog = 123 → Forall (λ b, 0 ≤ b < 256) prog → boot_ok 0x200000 0x200100 0x300000 (demo_image prog) demo_info prog.
Proof.
  intros Hl Hb. assert (pieces_apart (demo_pieces prog) = true) as Ha.
  { cbn [pieces_apart demo_pieces forallb]. rewrite Hl. reflexivity. }
  assert (∀ p b, (p, b) ∈ demo_pieces prog → seg (demo_image prog) p b) as Hs by (intros p b; by apply put_pieces_seg).
  assert (∀ p b, In (p, b) (demo_pieces prog) → seg (demo_image prog) p b) as Hi by (intros p b Hin; apply Hs; by apply list_elem_of_In).
  assert (Forall octal (f_digits demo_startup)) as Hoct by (repeat (apply Forall_cons; split; [unfold octal; lia|]); by apply Forall_nil).
  assert (Forall (λ c, 0 < c < 128) startup_name) as Hn by (repeat (apply Forall_cons; split; [lia|]); by apply Forall_nil).
  split.
  - reflexivity.
  - unfold Initrd.placed. cbn. lia.
  - split; [eapply Forall_impl; [exact Hn|]; cbn; lia|]. apply Hi. cbn. tauto.
  - exists [], (File startup_name (f_digits demo_startup) prog), []. split; [apply not_elem_of_nil|]. split; [done|]. split; [done|]. split.
    + split; [cbn; lia|]. split; [|done]. split.
      * split; [eapply Forall_impl; [exact Hn|]; cbn; lia|]. apply Hi. cbn. tauto.
      * exists 48. split; [repeat (apply Forall_cons; split; [lia|]); by apply Forall_nil|]. apply Hi. cbn. tauto.
      * split; [done|]. split; [done|]. cbn [f_data f_digits]. rewrite Hl. reflexivity.
      * apply Hi. cbn. tauto.
      * split; [|done]. apply Hi. cbn. tauto.
    + cbn zeta. right. rewrite Hl. cbn. lia.
  - split; [|lia]. rewrite Hl. change 123 with (len (replicate 123 0)). apply seg_mapped, Hi. cbn [In demo_pieces]. tauto.
  - split; [apply Hi; cbn; tauto|]. left. lia.
Qed.

#[local] Opaque demo_vmm.

Lemma demo_program_ok : program_ok demo_program 61.
Proof.
  destruct demo_program_facts as (Hb & Hl & Hv & E1 & E2 & E3 & E4 & E5 & _).
  assert (program_segments demo_program = [demo_phdr]) as Es by (unfold program_segments; by rewrite E4).
  assert (segment_pages demo_phdr = 1) as Ep by reflexivity.
  split; rewrite ?Es; [done|lia|done|rewrite E1, E2, Hl; unfold sizeof_elf64_phdr; lia| | | |].
  - apply Forall_singleton. split; rewrite ?Ep, ?Hl; cbn [demo_phdr p_vaddr p_filesz p_memsz p_offset]; try lia. split; [done|lia].
  - apply Forall_singleton. rewrite Ep. vm_compute. discriminate.
  - split; [apply Forall_nil_2|done].
  - vm_compute. discriminate.
Qed.

Lemma kernel_main_enters_witness :
  ∃ (k : kernel vmm (list Z) list (gmap Z)),
    kernel_main 0x200000 0x200100 0x300000 1 demo_task false true demo_info (kernel_start (demo_image demo_program) demo_vmm) = Ok (tt, k) ∧
    ∃ c t, timer_irq_sink 0 0x30 demo_irq (core k) = Ok (Entered 2, c) ∧ thread_objs c !! 2 = Some t ∧
      rip (state_of (_task t)) = 0x400001 ∧ cpu_reads (machine c) (vmm_ctx_of (_task t)) 0x400001 235.
Proof.
  destruct demo_program_facts as (Hb & Hl & _ & _ & _ & E3 & E4 & E5 & _). destruct demo_ready as [Hrd Hk]. destruct demo_inv as [Hinv Hroom].
  destruct (kernel_main_enters (L := list Z) (V := list) (H := gmap Z) 0x200000 0x200100 0x300000 1 demo_task false true (demo_image demo_program) demo_vmm demo_own demo_info demo_program
    (demo_boot demo_program Hl Hb) ltac:(lia) Hinv Hrd Hk) as (k & v & Hrun & _ & _ & Hent); [rewrite Hroom; exact demo_program_ok|].
  exists k. split; [exact Hrun|]. destruct (Hent 0x30 demo_irq) as (c & t & E & Ht & _ & _ & Hep). exists c, t.
  split; [exact E|]. split; [exact Ht|]. destruct (Hep tss_create_new) as [Hip _ _ Hprog]. split; [exact (eq_trans Hip E3)|].
  destruct (Hprog demo_phdr) as [Hby _]; [rewrite E4; left|reflexivity|]. rewrite E5 in Hby. exact (Hby 1%nat 235 eq_refl).
Defined.

Lemma kernel_main_refuses_witness :
  kernel_main (L := list Z) (V := list) (H := gmap Z) 0x200000 0x200100 0x300000 1 demo_task false true demo_info
    (kernel_start (demo_image (replicate 123 0)) demo_vmm) = Panic.
Proof.
  destruct demo_ready as [Hrd Hk]. destruct demo_inv as [Hinv Hroom].
  assert (Forall (λ b, 0 ≤ b < 256) (replicate 123 0)) as Hb by (apply Forall_replicate; lia).
  apply (kernel_main_refuses (L := list Z) (V := list) (H := gmap Z) 0x200000 0x200100 0x300000 1 demo_task false true (demo_image (replicate 123 0)) demo_vmm demo_info)
    with (bytes := replicate 123 0) (g := demo_own); [exact (demo_boot (replicate 123 0) eq_refl Hb)|lia|exact Hb|vm_compute; discriminate|reflexivity|exact Hinv|exact Hrd|exact Hk|].
  rewrite Hroom. lia.
Defined.
End demo.
