(* ===== verification/Boot.v ===== *)
(** * What the boot loader hands over (arch/x86_64/arch_entry.cpp, irq/pic/pic.cpp)

    [arch_entry] reads the information of the boot loader from memory, which
    is that of CString.v, and makes the boot information for [kernel_main] of
    Startup.v; it moves the vectors of the old interrupt controllers out of
    the way; and it registers the handler of system calls. The order in which
    it initialises the parts, which have files of their own, is not modelled,
    nor is [initramfs_cmd], which nothing reads. Memory from [kcalloc] is
    assumed to be there. *)
From S2P Require Import Prelude CString Pmm Frigg Arch Cpu Startup Syscall.
From stdpp Require Import base numbers option gmap list.
#[local] Open Scope Z_scope.

(** ** The information of the boot loader *)
Definition MULTIBOOT_INFO_FRAMEBUFFER_INFO : Z := 0x1000.
Definition MULTIBOOT_FRAMEBUFFER_TYPE_RGB : Z := 1.
Definition ARCH_INFO_HAS_VIDEO_MODE : Z := Z.shiftl 1 2.

(** Offsets in [multiboot_info_t] and [multiboot_module_t]. *)
Definition mb_flags : Z := 0.
Definition mb_mods_count : Z := 20.
Definition mb_mods_addr : Z := 24.
Definition mb_framebuffer_addr : Z := 88.
Definition mb_framebuffer_pitch : Z := 96.
Definition mb_framebuffer_width : Z := 100.
Definition mb_framebuffer_height : Z := 104.
Definition mb_framebuffer_bpp : Z := 108.
Definition mb_framebuffer_type : Z := 109.
Definition mb_framebuffer_colors : Z := 112.
Definition mod_start : Z := 0.
Definition mod_end : Z := 4.

Record arch_video_mode_t := VideoInfo {
  vid_addr : Z; vid_pitch : Z; vid_width : Z; vid_height : Z; vid_bpp : Z;
  red_off : Z; green_off : Z; blue_off : Z; red_size : Z; green_size : Z; blue_size : Z;
}.

(** [flags & MULTIBOOT_INFO_FRAMEBUFFER_INFO && type == RGB] *)
Definition has_rgb (mboot : Z) : M cmem bool :=
  flags ← ld_le (mboot + mb_flags) 4;
  if has flags MULTIBOOT_INFO_FRAMEBUFFER_INFO then
    type ← ld_le (mboot + mb_framebuffer_type) 1; mret (type =? MULTIBOOT_FRAMEBUFFER_TYPE_RGB)
  else mret false.

Definition read_video_mode (mboot : Z) : M cmem (option arch_video_mode_t) :=
  rgb ← has_rgb mboot;
  if rgb : bool then
    addr ← ld_le (mboot + mb_framebuffer_addr) 8;
    pitch ← ld_le (mboot + mb_framebuffer_pitch) 4;
    width ← ld_le (mboot + mb_framebuffer_width) 4;
    height ← ld_le (mboot + mb_framebuffer_height) 4;
    bpp ← ld_le (mboot + mb_framebuffer_bpp) 1;
    ro ← ld_le (mboot + mb_framebuffer_colors) 1;
    go ← ld_le (mboot + mb_framebuffer_colors + 2) 1;
    bo ← ld_le (mboot + mb_framebuffer_colors + 4) 1;
    rs ← ld_le (mboot + mb_framebuffer_colors + 1) 1;
    gs ← ld_le (mboot + mb_framebuffer_colors + 3) 1;
    bs ← ld_le (mboot + mb_framebuffer_colors + 5) 1;
    mret (Some (VideoInfo addr (s32 pitch) (s32 width) (s32 height) bpp ro go bo rs gs bs))
  else mret None.

(** The record for [kernel_main], and its [vid_mode]. *)
Definition boot_info (mboot : Z) (vid : option arch_video_mode_t) : M cmem (arch_boot_info_t * option arch_video_mode_t) :=
  rgb ← has_rgb mboot;
  let '(flags, mode) := if rgb : bool then (Z.lor 0 ARCH_INFO_HAS_VIDEO_MODE, vid) else (0, None) in
  mods_count ← ld_le (mboot + mb_mods_count) 4;
  if mods_count =? 0 then mret (BootInfo flags 0 0, mode)
  else
    mods_addr ← ld_le (mboot + mb_mods_addr) 4;
    let m := u64 (mods_addr + VIRT_PHYS_BASE) in
    start ← ld_le (m + mod_start) 4;
    stop ← ld_le (m + mod_end) 4;
    mret (BootInfo (Z.lor flags ARCH_INFO_HAS_INITRAMFS) (u64 (start + VIRT_PHYS_BASE)) (u32 (stop - start)), mode).

(** ** System calls *)
Section syscalls.
Context {S : Type} `{!ArchMM S}.
Context {L : Type} `{!FrgList L}.
Context {V : Type → Type} `{!FrgVector V}.
Context {H : Type → Type} `{!FrgHashMap H}.
Context (resize : list Z → nat → list Z) (garbage : nat → list Z).

Definition set_rax (x : Z) (s : irq_cpu_state_t) : irq_cpu_state_t :=
  IrqState (i_ds s) (i_r15 s) (i_r14 s) (i_r13 s) (i_r12 s) (i_r11 s) (i_r10 s) (i_r9 s) (i_r8 s) (i_rdi s) (i_rsi s) (i_rbp s)
    (i_rdx s) (i_rcx s) (i_rbx s) x (i_int_no s) (i_err s) (i_rip s) (i_cs s) (i_rflags s) (i_rsp s) (i_ss s).

(** The handler of vector 0x30: the registers that the caller gets back, and
    the result of the handler. *)
Definition syscall_irq_handler (cpu : Z) (state : irq_cpu_state_t) : M (sys S L V H) (irq_cpu_state_t * Z) :=
  r ← syscall_invoke resize garbage cpu (i_rax state) (i_rbx state) (i_rcx state);
  mret (set_rax r state, 1).

(** A system call changes no register of the caller but the one of the
    result; a call that does not exist changes nothing else. *)
Theorem syscall_registers (cpu : Z) (state state' : irq_cpu_state_t) (r : Z) (s s' : sys S L V H) :
  (syscall_irq_handler cpu state s = Ok ((state', r), s') → r = 1 ∧ state' = set_rax (i_rax state') state) ∧
  (i_rax state ≠ duck_call_set_identity → i_rax state ≠ duck_call_debug_log →
     syscall_irq_handler cpu state s = Ok ((set_rax duck_error_invalid_call state, 1), s)).
Proof.
  split.
  - unfold syscall_irq_handler. intros (x & s1 & _ & H2)%bind_M_Ok. injection H2 as <- <- _. done.
  - intros H1 H2. unfold syscall_irq_handler, syscall_invoke.
    rewrite (proj2 (Z.eqb_neq _ _) H1), (proj2 (Z.eqb_neq _ _) H2). done.
Qed.
End syscalls.

(** ** The old interrupt controllers (pic.cpp) *)
Definition PIC1_COMMAND : Z := 0x20.
Definition PIC1_DATA : Z := 0x20 + 1.
Definition PIC2_COMMAND : Z := 0xA0.
Definition PIC2_DATA : Z := 0xA0 + 1.
Definition ICW1_ICW4 : Z := 0x01.
Definition ICW1_INIT : Z := 0x10.
Definition ICW4_8086 : Z := 0x01.

(** What the manual of the controller says of its initialisation: a command
    with bit 4 starts it; the next bytes to the data port are the first
    vector, the wiring of the two controllers, and, if asked for, the mode;
    after that a byte to the data port is the mask. *)
Record pic := Pic { pic_stage : nat; pic_icw4 : bool; pic_vector : Z; pic_wiring : Z; pic_mode : Z; pic_mask : Z }.
Definition pic_command (v : Z) (p : pic) : pic :=
  if has v 0x10 then Pic 1 (has v 0x01) (pic_vector p) (pic_wiring p) (pic_mode p) 0 else p.
Definition pic_data (v : Z) (p : pic) : pic :=
  match pic_stage p with
  | 1%nat => Pic 2 (pic_icw4 p) (Z.land v 0xF8) (pic_wiring p) (pic_mode p) (pic_mask p)
  | 2%nat => Pic (if pic_icw4 p then 3 else 0) (pic_icw4 p) (pic_vector p) v (pic_mode p) (pic_mask p)
  | 3%nat => Pic 0 (pic_icw4 p) (pic_vector p) (pic_wiring p) v (pic_mask p)
  | _ => Pic 0 (pic_icw4 p) (pic_vector p) (pic_wiring p) (pic_mode p) v
  end.

(** The two controllers; other ports do not reach them. *)
Record pics := Pics { pic1 : pic; pic2 : pic }.
Definition outb (port val : Z) : M pics () := modify (λ s,
  if port =? PIC1_COMMAND then Pics (pic_command (u8 val) (pic1 s)) (pic2 s)
  else if port =? PIC1_DATA then Pics (pic_data (u8 val) (pic1 s)) (pic2 s)
  else if port =? PIC2_COMMAND then Pics (pic1 s) (pic_command (u8 val) (pic2 s))
  else if port =? PIC2_DATA then Pics (pic1 s) (pic_data (u8 val) (pic2 s)) else s).
Definition io_wait : M pics () := outb 0x80 0.

Definition pic_remap (offset1 offset2 : Z) : M pics () :=
  outb PIC1_COMMAND (ICW1_INIT + ICW1_ICW4);;
  io_wait;;
  outb PIC2_COMMAND (ICW1_INIT + ICW1_ICW4);;
  io_wait;;
  outb PIC1_DATA offset1;;
  io_wait;;
  outb PIC2_DATA offset2;;
  io_wait;;
  outb PIC1_DATA 4;;
  io_wait;;
  outb PIC2_DATA 2;;
  io_wait;;
  outb PIC1_DATA ICW4_8086;;
  io_wait;;
  outb PIC2_DATA ICW4_8086;;
  io_wait;;
  outb PIC1_DATA 0xFF;;
  outb PIC2_DATA 0xFF.

(** From any state, the controllers end up with the vectors that were asked
    for, wired to each other at line 2, in the mode of this processor, with
    every line masked. *)
Theorem pic_remap_spec (offset1 offset2 : Z) (s : pics) :
  0 ≤ offset1 < 256 → 0 ≤ offset2 < 256 →
  pic_remap offset1 offset2 s =
    Ok (tt, Pics (Pic 0 true (Z.land offset1 0xF8) 4 1 0xFF) (Pic 0 true (Z.land offset2 0xF8) 2 1 0xFF)).
Proof.
  intros H1 H2.
  transitivity (Ok (tt, Pics (Pic 0 true (Z.land (u8 offset1) 0xF8) 4 1 0xFF) (Pic 0 true (Z.land (u8 offset2) 0xF8) 2 1 0xFF))); [by destruct s as [[] []]|].
  unfold u8. by rewrite (Z.mod_small offset1), (Z.mod_small offset2) by lia.
Qed.

(** ** The boot information *)

(** The fields of a structure of bytes. *)
Definition le_field (l : list Z) (off n : nat) : Z := le_value (sub_bytes l off n).

Lemma field_run m p l off n : seg m p l → 0 ≤ off → (Z.to_nat off + n ≤ length l)%nat → ld_le (p + off) n m = Ok (le_field l (Z.to_nat off) n, m).
Proof. intros Hs Ho Hl. rewrite <- (Z2Nat.id off) at 1 by done. by apply ld_field. Qed.

Definition rgb_of (mb : list Z) : bool :=
  has (le_field mb 0 4) MULTIBOOT_INFO_FRAMEBUFFER_INFO && (le_field mb 109 1 =? MULTIBOOT_FRAMEBUFFER_TYPE_RGB).

Lemma has_rgb_run m p mb : seg m p mb → (118 ≤ length mb)%nat → has_rgb p m = Ok (rgb_of mb, m).
Proof.
  intros Hs Hl. unfold has_rgb, rgb_of, mb_flags, mb_framebuffer_type.
  run (field_run m p mb 0 4 Hs ltac:(lia) ltac:(cbn; lia)). change (Z.to_nat 0) with 0%nat.
  destruct (has (le_field mb 0 4) MULTIBOOT_INFO_FRAMEBUFFER_INFO); [|done].
  by run (field_run m p mb 109 1 Hs ltac:(lia) ltac:(cbn; lia)).
Qed.

(** With the information at [mboot] and the first module's at its address: the
    ramdisk is the first module, through the direct map, with its length in 32
    bits; without modules there is none, and without a colour frame buffer
    there is no video mode. Memory is only read. *)
Theorem boot_info_spec (m : cmem) (mboot : Z) (mb md : list Z) :
  seg m mboot mb → (118 ≤ length mb)%nat →
  let count := le_field mb 20 4 in
  (count ≠ 0 → seg m (u64 (le_field mb 24 4 + VIRT_PHYS_BASE)) md ∧ (16 ≤ length md)%nat) →
  ∃ info vid, (v ← read_video_mode mboot; boot_info mboot v) m = Ok ((info, vid), m) ∧
    has (info_flags info) ARCH_INFO_HAS_INITRAMFS = negb (count =? 0) ∧
    (count ≠ 0 → info_initramfs info = u64 (le_field md 0 4 + VIRT_PHYS_BASE) ∧ info_initramfs_size info = u32 (le_field md 4 4 - le_field md 0 4)) ∧
    (is_Some vid ↔ rgb_of mb = true) ∧ has (info_flags info) ARCH_INFO_HAS_VIDEO_MODE = rgb_of mb ∧
    (∀ v, vid = Some v → vid_addr v = le_field mb 88 8 ∧ vid_pitch v = s32 (le_field mb 96 4) ∧ vid_width v = s32 (le_field mb 100 4) ∧
       vid_height v = s32 (le_field mb 104 4) ∧ vid_bpp v = le_field mb 108 1).
Proof.
  intros Hs Hl count Hmod.
  assert (∃ v, read_video_mode mboot m = Ok (v, m) ∧ (is_Some v ↔ rgb_of mb = true) ∧
    ∀ x, v = Some x → vid_addr x = le_field mb 88 8 ∧ vid_pitch x = s32 (le_field mb 96 4) ∧ vid_width x = s32 (le_field mb 100 4) ∧
       vid_height x = s32 (le_field mb 104 4) ∧ vid_bpp x = le_field mb 108 1) as (v & Hv & Hsome & Hfields).
  { unfold read_video_mode. run (has_rgb_run m mboot mb Hs Hl). destruct (rgb_of mb).
    - unfold mb_framebuffer_addr, mb_framebuffer_pitch, mb_framebuffer_width, mb_framebuffer_height, mb_framebuffer_bpp, mb_framebuffer_colors.
      rewrite <- !Z.add_assoc.
      run (field_run m mboot mb 88 8 Hs ltac:(lia) ltac:(cbn; lia)). run (field_run m mboot mb 96 4 Hs ltac:(lia) ltac:(cbn; lia)).
      run (field_run m mboot mb 100 4 Hs ltac:(lia) ltac:(cbn; lia)). run (field_run m mboot mb 104 4 Hs ltac:(lia) ltac:(cbn; lia)).
      run (field_run m mboot mb 108 1 Hs ltac:(lia) ltac:(cbn; lia)). run (field_run m mboot mb 112 1 Hs ltac:(lia) ltac:(cbn; lia)).
      run (field_run m mboot mb 114 1 Hs ltac:(lia) ltac:(cbn; lia)). run (field_run m mboot mb 116 1 Hs ltac:(lia) ltac:(cbn; lia)).
      run (field_run m mboot mb 113 1 Hs ltac:(lia) ltac:(cbn; lia)). run (field_run m mboot mb 115 1 Hs ltac:(lia) ltac:(cbn; lia)).
      run (field_run m mboot mb 117 1 Hs ltac:(lia) ltac:(cbn; lia)). eexists. split; [reflexivity|]. split; [by eauto|]. by intros x [= <-].
    - exists None. split; [done|]. split; [split; [by intros [? ?]|done]|done]. }
  run Hv. unfold boot_info. run (has_rgb_run m mboot mb Hs Hl).
  set (fm := if rgb_of mb then (Z.lor 0 ARCH_INFO_HAS_VIDEO_MODE, v) else (0, None)).
  assert (fm.2 = v) as Ev by (unfold fm; destruct (rgb_of mb); [done|]; destruct v as [x|]; [|done]; exfalso; assert (false = true) by (apply Hsome; eauto); done).
  destruct fm as [fl mode] eqn:Efm. cbn in Ev. subst mode.
  unfold mb_mods_count. run (field_run m mboot mb 20 4 Hs ltac:(lia) ltac:(cbn; lia)). change (le_field mb (Z.to_nat 20) 4) with count.
  assert (fl = if rgb_of mb then 4 else 0) as -> by (unfold fm in Efm; by destruct (rgb_of mb); injection Efm).
  destruct (Z.eqb_spec count 0) as [E|E].
  - eexists _, v. split; [reflexivity|]. split; [by destruct (rgb_of mb)|]. split; [done|]. split; [done|]. split; [by destruct (rgb_of mb)|done].
  - destruct (Hmod E) as [Hsm Hlm]. unfold mb_mods_addr. run (field_run m mboot mb 24 4 Hs ltac:(lia) ltac:(cbn; lia)). change (Z.to_nat 24) with 24%nat.
    unfold mod_start, mod_end. run (field_run m _ md 0 4 Hsm ltac:(lia) ltac:(cbn; lia)). run (field_run m _ md 4 4 Hsm ltac:(lia) ltac:(cbn; lia)).
    eexists _, v. split; [reflexivity|]. split; [by destruct (rgb_of mb)|]. split; [done|]. split; [done|]. split; [by destruct (rgb_of mb)|done].
Qed.

(** ** Examples *)
Definition le4 (x : Z) : list Z := [x mod 256; x / 256 mod 256; x / 65536 mod 256; x / 16777216].
(** One module from 1 MiB to 1 MiB and 1024 bytes, and no frame buffer. *)
Definition demo_mb : list Z := le4 8 ++ replicate 16 0 ++ le4 1 ++ le4 0x9000 ++ replicate 90 0.
Definition demo_mod : list Z := le4 0x100000 ++ le4 0x100400 ++ replicate 8 0.
Definition demo_boot_memory : cmem := put_seg 0x9500 demo_mb (put_seg (0x9000 + VIRT_PHYS_BASE) demo_mod ∅).

Lemma boot_info_spec_witness :
  ∃ info, (v ← read_video_mode 0x9500; boot_info 0x9500 v) demo_boot_memory = Ok ((info, None), demo_boot_memory) ∧
    info_initramfs info = 0x100000 + VIRT_PHYS_BASE ∧ info_initramfs_size info = 1024.
Proof.
  assert (seg demo_boot_memory (0x9000 + VIRT_PHYS_BASE) demo_mod) as Hm.
  { apply (seg_same (put_seg (0x9000 + VIRT_PHYS_BASE) demo_mod ∅)); [|apply put_seg_seg]. intros i Hi.
    apply put_seg_out. right. change (len demo_mb) with 118. unfold VIRT_PHYS_BASE. lia. }
  destruct (boot_info_spec demo_boot_memory 0x9500 demo_mb demo_mod) as (info & vid & Hrun & _ & Hmod & Hvid & _);
    [apply put_seg_seg|vm_compute; lia|intros _; split; [exact Hm|vm_compute; lia]|].
  assert (vid = None) as -> by (destruct vid; [|done]; by assert (rgb_of demo_mb = true) as E by (apply Hvid; eauto)).
  exists info. split; [exact Hrun|]. destruct Hmod as [H1 H2]; [by vm_compute|]. split; [rewrite H1|rewrite H2]; reflexivity.
Defined.

Lemma pic_remap_spec_witness :
  pic_remap 0x20 0x28 (Pics (Pic 2 false 8 0 0 0) (Pic 0 false 0x70 0 0 0)) = Ok (tt, Pics (Pic 0 true 0x20 4 1 0xFF) (Pic 0 true 0x28 2 1 0xFF)).
Proof. apply (pic_remap_spec 0x20 0x28); lia. Defined.
