(* ===== verification/I386Pmm.v ===== *)
(** * The i386 physical memory manager (arch/i386/mm/pmm.cpp)

    Free pages are kept on a stack, and every page has a reference count.
    Both arrays have 2^20 elements, which start as zero; an index past their
    end is a fault. Running out of memory stops in a loop. The memory map of
    the boot loader is the list of its entries, in the order in which their
    sizes chain them. *)
From S2P Require Import Prelude.
From S2P Require Pmm.
From stdpp Require Import base numbers option gmap list.
#[local] Open Scope Z_scope.

Definition STACK_LEN : Z := 1048576.

Record pool := Pool {
  pmm_stack : gmap Z Z;
  pmm_metadata : gmap Z Z;
  pmm_stack_pointer : Z;
  pmm_stack_size : Z;
  pmm_stack_max_size : Z;
}.

Definition pool_start : pool := Pool ∅ ∅ 0 0 0.
Definition set_stack (st : gmap Z Z) (p n : Z) (s : pool) : pool := Pool st (pmm_metadata s) p n (pmm_stack_max_size s).
Definition set_metadata (md : gmap Z Z) (s : pool) : pool := Pool (pmm_stack s) md (pmm_stack_pointer s) (pmm_stack_size s) (pmm_stack_max_size s).
Definition set_max (n : Z) (s : pool) : pool := Pool (pmm_stack s) (pmm_metadata s) (pmm_stack_pointer s) (pmm_stack_size s) n.

Record mmap_entry := MmapEntry { me_addr : Z; me_len : Z; me_type : Z }.
Record multiboot_info_t := Mbt { mem_upper : Z; mmap : list mmap_entry }.

(** The addresses are truncated to 32 bits. *)
Fixpoint is_available (page_begin : Z) (l : list mmap_entry) : bool :=
  match l with
  | [] => true
  | e :: l' =>
      let begin := u32 (me_addr e) in
      let fin := u32 (begin + u32 (me_len e)) in
      if negb (me_type e =? Pmm.MULTIBOOT_MEMORY_AVAILABLE) && ((begin <=? page_begin) && (u32 (page_begin + 0x1000) <=? fin))
      then false else is_available page_begin l'
  end.

Definition pmm_push (val : Z) : M pool () := λ s,
  if STACK_LEN <? pmm_stack_size s then Ok (tt, s)
  else if pmm_stack_pointer s <? STACK_LEN
  then Ok (tt, set_stack (<[pmm_stack_pointer s := val]> (pmm_stack s)) (u32 (pmm_stack_pointer s + 1)) (u32 (pmm_stack_size s + 1)) s)
  else Fault.

Definition pmm_pop : M pool Z := λ s,
  if pmm_stack_size s =? 0 then Hang
  else
    let p := u32 (pmm_stack_pointer s - 1) in
    if p <? STACK_LEN
    then Ok (default 0 (pmm_stack s !! p), set_stack (pmm_stack s) p (u32 (pmm_stack_size s - 1)) s)
    else Fault.

(** The index of a page; it is below 2^20 for every 32-bit address. *)
Definition page_index (addr : Z) : Z := Z.shiftr (Z.land addr 0xFFFFF000) 12.
Definition refcount (s : pool) (addr : Z) : Z := default 0 (pmm_metadata s !! page_index addr).
Definition set_page_metadata (addr rc : Z) : M pool () := modify (λ s, set_metadata (<[page_index addr := rc]> (pmm_metadata s)) s).

(** The loop of [pmm_init], over the multiples [i] of 4096 below [mem_sz]. *)
Fixpoint init_loop (fuel : nat) (l : list mmap_entry) (i mem_sz : Z) : M pool () :=
  match fuel with
  | O => λ _, Hang
  | S fuel' =>
      if i <? mem_sz then
        (if is_available (u32 (0xC00000 + i)) l
         then pmm_push (u32 (0xC00000 + i));; modify (λ s, set_max (u32 (pmm_stack_max_size s + 1)) s)
         else mret tt);;
        init_loop fuel' l (u32 (i + 4096)) mem_sz
      else mret tt
  end.

Definition pmm_init (mbt : multiboot_info_t) : M pool () :=
  let old_sz := u32 (mem_upper mbt * 1024) in
  let mem_sz := u32 (u32 (mem_upper mbt - 12288) * 1024) in
  if old_sz <? u32 (old_sz - mem_sz) then λ _, Hang
  else init_loop (S (Z.to_nat STACK_LEN)) (mmap mbt) 0 mem_sz.

Definition pmm_alloc : M pool Z :=
  addr ← pmm_pop;
  set_page_metadata addr 1;;
  mret addr.

Definition pmm_free (ptr : Z) : M pool () :=
  let page := Z.land ptr 0xFFFFF000 in
  if page <=? 0x800000 then mret tt
  else
    s ← get_st;
    if refcount s page =? 1 then set_page_metadata page 0;; pmm_push page
    else if 1 <? refcount s page then set_page_metadata page (u32 (refcount s page - 1))
    else mret tt.

Definition free_pages (s : pool) : Z := pmm_stack_size s.
Definition max_pages (s : pool) : Z := pmm_stack_max_size s.
Definition used_pages (s : pool) : Z := u32 (pmm_stack_max_size s - pmm_stack_size s).

(** ** The pool as a set of pages *)

(** The address of a page, and of a page that the pool can hold. *)
Definition frame (p : Z) : Prop := 0 ≤ p < 2 ^ 32 ∧ p mod 4096 = 0.
Definition pool_page (p : Z) : Prop := frame p ∧ 0xC00000 ≤ p.

(** [total] is what the pool manages; [stk] are its free pages, the next one
    to be handed out last. Every page is free or has a reference. *)
Record pool_ok (total stk : list Z) (s : pool) : Prop := {
  po_size : pmm_stack_pointer s = Z.of_nat (length stk) ∧ pmm_stack_size s = Z.of_nat (length stk);
  po_max : pmm_stack_max_size s = Z.of_nat (length total);
  po_stack i p : stk !! i = Some p → pmm_stack s !! Z.of_nat i = Some p;
  po_nodup : NoDup stk;
  po_pages : NoDup total ∧ Forall pool_page total ∧ Z.of_nat (length total) ≤ STACK_LEN;
  po_in p : p ∈ stk → p ∈ total;
  po_free p : p ∈ total → p ∈ stk ↔ refcount s p = 0;
  po_count p : 0 ≤ refcount s p < 2 ^ 32;
  po_only p : frame p → p ∉ total → refcount s p = 0;
}.

(** ** Page numbers *)

Lemma page_index_div a : 0 ≤ a < 2 ^ 32 → page_index a = a / 4096.
Proof.
  intros Ha. unfold page_index. rewrite Z.shiftr_land. change (Z.shiftr 0xFFFFF000 12) with (Z.ones 20).
  rewrite Z.land_ones, Z.shiftr_div_pow2 by lia. change (2 ^ 12) with 4096. apply Z.mod_small. wrap_lia.
Qed.

Lemma page_mask a : 0 ≤ a < 2 ^ 32 → Z.land a 0xFFFFF000 = a / 4096 * 4096.
Proof.
  intros Ha. change 0xFFFFF000 with (Z.ldiff (Z.ones 32) (Z.ones 12)).
  replace (Z.land a (Z.ldiff (Z.ones 32) (Z.ones 12))) with (Z.ldiff (Z.land a (Z.ones 32)) (Z.ones 12)).
  - rewrite Z.land_ones, Z.mod_small, Z.ldiff_ones_r, Z.shiftl_mul_pow2, Z.shiftr_div_pow2 by lia. done.
  - apply Z.bits_inj'. intros n Hn. rewrite Z.ldiff_spec, !Z.land_spec, Z.ldiff_spec. by rewrite andb_assoc.
Qed.

Lemma page_index_inj p p' : frame p → frame p' → page_index p = page_index p' → p = p'.
Proof. intros [? ?] [? ?]. rewrite !page_index_div by lia. intros. wrap_lia. Qed.

Lemma refcount_set rc s p p' :
  frame p → frame p' → refcount (set_metadata (<[page_index p := rc]> (pmm_metadata s)) s) p' = if decide (p' = p) then rc else refcount s p'.
Proof.
  intros Hp Hp'. unfold refcount. cbn. case_decide as E.
  - subst. by rewrite lookup_insert_eq.
  - rewrite lookup_insert_ne; [done|]. intros E'. by apply page_index_inj in E'.
Qed.

Lemma refcount_set_range rc s p a :
  0 ≤ rc < 2 ^ 32 → 0 ≤ refcount s a < 2 ^ 32 → 0 ≤ refcount (set_metadata (<[page_index p := rc]> (pmm_metadata s)) s) a < 2 ^ 32.
Proof.
  intros Hr Ha. unfold refcount in *. cbn. destruct (decide (page_index p = page_index a)) as [->|Hne].
  - by rewrite lookup_insert_eq.
  - by rewrite lookup_insert_ne.
Qed.

Lemma pool_ok_page (total stk : list Z) s p : pool_ok total stk s → p ∈ total → pool_page p.
Proof. intros H Hp. destruct (po_pages _ _ _ H) as (_ & Hf & _). rewrite Forall_forall in Hf. auto. Qed.

Lemma pool_ok_frame (total stk : list Z) s p : pool_ok total stk s → p ∈ total → frame p.
Proof. intros H Hp. by apply (pool_ok_page _ _ _ _ H). Qed.

Lemma pool_ok_length (total stk : list Z) s : pool_ok total stk s → (length stk ≤ length total)%nat.
Proof. intros H. apply submseteq_length, NoDup_submseteq; [apply H|]. intros p Hp. by apply (po_in _ _ _ H). Qed.

(** ** The operations *)

Lemma push_run (stk : list Z) s p :
  pmm_stack_pointer s = Z.of_nat (length stk) → pmm_stack_size s = Z.of_nat (length stk) → Z.of_nat (length stk) < STACK_LEN →
  pmm_push p s = Ok (tt, set_stack (<[Z.of_nat (length stk) := p]> (pmm_stack s)) (Z.of_nat (length stk + 1)) (Z.of_nat (length stk + 1)) s).
Proof.
  unfold STACK_LEN. intros Hp Hs Hl. unfold pmm_push, STACK_LEN. rewrite Hp, Hs.
  destruct (Z.ltb_spec 1048576 (Z.of_nat (length stk))), (Z.ltb_spec (Z.of_nat (length stk)) 1048576); try lia.
  rewrite u32_small by lia. by replace (Z.of_nat (length stk + 1)) with (Z.of_nat (length stk) + 1) by lia.
Qed.

Lemma alloc_run (total stk : list Z) p s :
  pool_ok total (stk ++ [p]) s →
  ∃ s', pmm_alloc s = Ok (p, s') ∧ pool_ok total stk s' ∧ refcount s p = 0 ∧
    ∀ q, frame q → refcount s' q = if decide (q = p) then 1 else refcount s q.
Proof.
  intros H. pose proof (pool_ok_length _ _ _ H) as Hlen. pose proof H as [[Hptr Hsz] Hmax Hst Hnd (Hnt & Hpt & Hlt) Hin Hfree Hcnt Honly]. unfold STACK_LEN in Hlt.
  rewrite length_app in *. cbn [length] in *. assert (p ∈ stk ++ [p]) as Hp by (apply elem_of_app; right; left).
  pose proof (pool_ok_frame _ _ _ p H (Hin _ Hp)) as Hpp. apply NoDup_app in Hnd as (Hnd & Hni & _).
  set (s1 := set_stack (pmm_stack s) (Z.of_nat (length stk)) (Z.of_nat (length stk)) s).
  assert (pmm_pop s = Ok (p, s1)) as E.
  { unfold pmm_pop, STACK_LEN. rewrite Hptr, Hsz. destruct (Z.eqb_spec (Z.of_nat (length stk + 1)) 0); [lia|].
    replace (Z.of_nat (length stk + 1) - 1) with (Z.of_nat (length stk)) by lia. rewrite u32_small by lia.
    destruct (Z.ltb_spec (Z.of_nat (length stk)) 1048576); [|lia].
    rewrite (Hst (length stk) p); [done|]. by rewrite lookup_app_r, Nat.sub_diag. }
  assert (∀ q, frame q → refcount (set_metadata (<[page_index p := 1]> (pmm_metadata s1)) s1) q = if decide (q = p) then 1 else refcount s q) as Hrc
    by (intros q Hq; exact (refcount_set 1 s1 p q Hpp Hq)).
  eexists. split; [unfold pmm_alloc; run E; reflexivity|]. split; [|split; [by apply Hfree; [apply Hin|]|exact Hrc]].
  split; cbn; try done.
  - intros i q Hi. apply Hst. by apply lookup_app_l_Some.
  - intros q Hq. apply Hin, elem_of_app. by left.
  - intros q Hq. rewrite Hrc by by apply (pool_ok_frame _ _ _ q H). case_decide as Eq.
    + subst. split; [intros Hq'; by destruct (Hni p Hq'); apply list_elem_of_singleton|done].
    + rewrite <- (Hfree q Hq), elem_of_app, list_elem_of_singleton. naive_solver.
  - intros q. apply (refcount_set_range 1 s1 p q); [lia|apply Hcnt].
  - intros q Hq Hn. rewrite Hrc by done. case_decide as Eq; [subst; by destruct Hn; apply Hin|by apply Honly].
Qed.

Lemma alloc_empty (total : list Z) s : pool_ok total [] s → pmm_alloc s = Hang.
Proof. intros H. destruct (po_size _ _ _ H) as [_ Hs]. unfold pmm_alloc, pmm_pop. cbv [mbind M_bind]. by rewrite Hs. Qed.

(** Setting the count of a page in use to a positive number. *)
Lemma share_run (total stk : list Z) p rc s :
  pool_ok total stk s → p ∈ total → p ∉ stk → 0 < rc < 2 ^ 32 →
  ∃ s', set_page_metadata p rc s = Ok (tt, s') ∧ pool_ok total stk s' ∧ ∀ q, frame q → refcount s' q = if decide (q = p) then rc else refcount s q.
Proof.
  intros H Hp Hn Hrc. pose proof (pool_ok_frame _ _ _ p H Hp) as Hpp. pose proof H as [[Hptr Hsz] Hmax Hst Hnd Hpg Hin Hfree Hcnt Honly].
  assert (∀ q, frame q → refcount (set_metadata (<[page_index p := rc]> (pmm_metadata s)) s) q = if decide (q = p) then rc else refcount s q) as Hset
    by (intros q Hq; by apply refcount_set).
  eexists. split; [reflexivity|]. split; [|exact Hset]. split; cbn; try done.
  - intros q Hq. rewrite Hset by by apply (pool_ok_frame _ _ _ q H). case_decide; [subst; split; [done|lia]|by apply Hfree].
  - intros q. apply refcount_set_range; [lia|apply Hcnt].
  - intros q Hq Hnq. rewrite Hset by done. case_decide; [by subst|by apply Honly].
Qed.

Lemma NoDup_snoc (stk : list Z) p : NoDup stk → p ∉ stk → NoDup (stk ++ [p]).
Proof.
  intros Hnd Hn. apply NoDup_app. split; [done|]. split; [|apply NoDup_singleton].
  intros q Hq Hq'. apply list_elem_of_singleton in Hq'. by subst.
Qed.

(** A page whose last reference goes is back on the stack. *)
Lemma release_run (total stk : list Z) p s :
  pool_ok total stk s → p ∈ total → refcount s p = 1 →
  ∃ s', (set_page_metadata p 0;; pmm_push p) s = Ok (tt, s') ∧ pool_ok total (stk ++ [p]) s' ∧
    ∀ q, frame q → refcount s' q = if decide (q = p) then 0 else refcount s q.
Proof.
  intros H Hp E1. pose proof (pool_ok_frame _ _ _ p H Hp) as Hpp.
  pose proof H as [[Hpt Hsz] Hmax Hst Hnd (Hnt & Hpg & Hlt) Hin Hfree Hcnt Honly].
  assert (p ∉ stk) as Hns by (intros Hps; apply Hfree in Hps; [lia|done]).
  pose proof (NoDup_snoc _ _ Hnd Hns) as Hnd'.
  assert (∀ q, q ∈ stk ++ [p] → q ∈ total) as Hin' by (intros q [Hq|Hq%list_elem_of_singleton]%elem_of_app; [by apply Hin|by subst]).
  assert (length stk < length total)%nat as Hlen.
  { assert (stk ++ [p] ⊆+ total) as Hsub%submseteq_length by by apply NoDup_submseteq. rewrite length_app in Hsub. cbn in Hsub. lia. }
  erewrite bind_run; [|reflexivity]. rewrite (push_run stk) by (done || lia).
  eexists. split; [reflexivity|]. set (s2 := set_stack _ _ _ _).
  assert (∀ q, frame q → refcount s2 q = if decide (q = p) then 0 else refcount s q) as Hset by (intros q Hq; by apply refcount_set).
  split; [|exact Hset]. split; cbn; rewrite ?length_app; try done.
  - intros i q Hi. apply lookup_app_Some in Hi as [Hi|[Hi Hq]].
    + pose proof (lookup_lt_Some _ _ _ Hi). rewrite lookup_insert_ne by lia. by apply Hst.
    + apply list_lookup_singleton_Some in Hq as [Hq ->]. replace i with (length stk) by lia. by rewrite lookup_insert_eq.
  - intros q Hq. rewrite Hset by by apply (pool_ok_frame _ _ _ q H). rewrite elem_of_app, list_elem_of_singleton. case_decide; [naive_solver|].
    rewrite <- (Hfree q Hq). naive_solver.
  - intros q. apply (refcount_set_range 0 s); [lia|apply Hcnt].
  - intros q Hq Hnq. rewrite Hset by done. case_decide; [done|by apply Honly].
Qed.

(** What [pmm_free] does to a page: nothing when it is not in use, one
    reference less, or back on the stack. *)
Lemma free_run (total stk : list Z) ptr s :
  pool_ok total stk s → 0 ≤ ptr < 2 ^ 32 → let p := ptr / 4096 * 4096 in
  ∃ s', pmm_free ptr s = Ok (tt, s') ∧ pool_ok total (if (refcount s p =? 1) && bool_decide (p ∈ total) then stk ++ [p] else stk) s' ∧
    ∀ q, frame q → refcount s' q = if decide (q = p) then Z.max 0 (refcount s p - 1) else refcount s q.
Proof.
  intros H Hptr p. unfold pmm_free. rewrite page_mask by done. fold p. pose proof (po_count _ _ _ H p) as Hc.
  destruct (Z.leb_spec p 0x800000) as [Hle|Hgt].
  - exists s. split; [done|]. assert (p ∉ total) as Hn by (intros Hp; pose proof (pool_ok_page _ _ _ p H Hp) as [_ ?]; lia).
    rewrite bool_decide_eq_false_2, andb_false_r by done. split; [done|]. intros q Hq. case_decide; [|done].
    subst q. rewrite (po_only _ _ _ H p) by done. done.
  - erewrite bind_run; [|reflexivity].
    destruct (decide (p ∈ total)) as [Hp|Hn].
    + pose proof (pool_ok_frame _ _ _ p H Hp) as Hpp. rewrite bool_decide_eq_true_2, andb_true_r by done.
      destruct (Z.eqb_spec (refcount s p) 1) as [E1|E1].
      * destruct (release_run total stk p s H Hp E1) as (s' & E & Hok & Hset). exists s'. split; [exact E|]. split; [done|].
        intros q Hq. rewrite Hset by done. case_decide; lia.
      * destruct (Z.ltb_spec 1 (refcount s p)) as [Hlt|Hge].
        -- rewrite u32_small by lia. destruct (share_run total stk p (refcount s p - 1) s) as (s' & E & Hok & Hset); [done|done| |lia|].
           { intros Hps. apply (po_free _ _ _ H) in Hps; [lia|done]. }
           exists s'. split; [exact E|]. split; [done|]. intros q Hq. rewrite Hset by done. case_decide; lia.
        -- exists s. split; [done|]. split; [done|]. intros q Hq. case_decide; [subst q; lia|done].
    + assert (frame p) as Hpp by (subst p; split; [wrap_lia|apply Z.mod_mul; lia]). pose proof (po_only _ _ _ H p Hpp Hn) as H0.
      rewrite bool_decide_eq_false_2, andb_false_r, H0 by done. exists s. split; [done|]. split; [done|].
      intros q Hq. case_decide; [by subst q; rewrite H0|done].
Qed.

(** ** Initialisation *)

(** The pages the code means to manage. *)
Definition available_pages (mbt : multiboot_info_t) : list Z :=
  filter (λ p, is_available p (mmap mbt) = true) ((λ k, 0xC00000 + 4096 * k) <$> seqZ 0 ((mem_upper mbt * 1024 - 0xC00000 + 4095) / 4096)).

Lemma push_available (total : list Z) p s :
  pool_ok total total s → frame p → p ∉ total → 0xC00000 ≤ p → Z.of_nat (length total) < STACK_LEN →
  ∃ s', (pmm_push p;; modify (λ s, set_max (u32 (pmm_stack_max_size s + 1)) s)) s = Ok (tt, s') ∧ pool_ok (total ++ [p]) (total ++ [p]) s'.
Proof.
  intros H Hp Hn Hge Hlen. pose proof H as [[Hpt Hsz] Hmax Hst Hnd (Hnt & Hpg & Hlt) Hin Hfree Hcnt Honly].
  run (push_run total s p Hpt Hsz Hlen). eexists. split; [reflexivity|]. unfold STACK_LEN in *.
  split; cbn; rewrite ?length_app; cbn; try done.
  - rewrite Hmax, u32_small by lia. lia.
  - intros i q Hi. apply lookup_app_Some in Hi as [Hi|[Hi Hq]].
    + pose proof (lookup_lt_Some _ _ _ Hi). rewrite lookup_insert_ne by lia. by apply Hst.
    + apply list_lookup_singleton_Some in Hq as [Hq ->]. replace i with (length total) by lia. by rewrite lookup_insert_eq.
  - by apply NoDup_snoc.
  - split; [by apply NoDup_snoc|]. split; [|unfold STACK_LEN; lia]. apply Forall_app. split; [done|]. by apply Forall_singleton.
  - intros q [Hq|Hq%list_elem_of_singleton]%elem_of_app; (split; [intros _|set_solver]).
    + by apply Hfree.
    + subst. by apply Honly.
  - intros q Hq Hnq. apply Honly; [done|]. intros Hq'. apply Hnq, elem_of_app. by left.
Qed.

Lemma init_loop_run fuel l mem_sz : ∀ k n total s,
  0 ≤ k → 0 ≤ n → mem_sz ≤ 2 ^ 32 - 0xC00000 → 4096 * (k + n) < mem_sz + 4096 → mem_sz ≤ 4096 * (k + n) → (Z.to_nat n < fuel)%nat →
  pool_ok total total s → Forall (λ p, p < 0xC00000 + 4096 * k) total → Z.of_nat (length total) ≤ k →
  let total' := total ++ filter (λ p, is_available p l = true) ((λ k, 0xC00000 + 4096 * k) <$> seqZ k n) in
  ∃ s', init_loop fuel l (4096 * k) mem_sz s = Ok (tt, s') ∧ pool_ok total' total' s'.
Proof.
  induction fuel as [|fuel IH]; intros k n total s Hk Hn Hm Hlo Hhi Hf Hok Hlt Hlen; [lia|].
  cbn [init_loop]. destruct (Z.ltb_spec (4096 * k) mem_sz) as [Hc|Hc].
  - rewrite seqZ_cons by lia. cbn [fmap list_fmap]. set (p := 0xC00000 + 4096 * k). rewrite (u32_small p) by (subst p; lia).
    assert (frame p) as Hp by (subst p; split; [lia|wrap_lia]).
    rewrite (u32_small (4096 * k + 4096)) by lia. replace (4096 * k + 4096) with (4096 * (Z.succ k)) by lia.
    rewrite filter_cons. destruct (is_available p l) eqn:Ea.
    + rewrite decide_True by done.
      assert (p ∉ total) as Hni by (intros Hin; rewrite Forall_forall in Hlt; specialize (Hlt p Hin); subst p; lia).
      destruct (push_available total p s Hok Hp Hni) as (s1 & E1 & Hok1); [subst p; lia|unfold STACK_LEN; lia|].
      run E1. rewrite cons_middle, app_assoc. apply IH; try done; try lia.
      * apply Forall_app. split; [eapply Forall_impl; [done|]; cbn; lia|]. apply Forall_singleton. subst p. lia.
      * rewrite length_app. cbn. lia.
    + rewrite decide_False by done. erewrite bind_run; [|reflexivity]. apply IH; try done; try lia.
      eapply Forall_impl; [done|]. cbn. lia.
  - assert (n = 0) as -> by lia. cbn. rewrite app_nil_r. by exists s.
Qed.

Lemma pool_start_ok : pool_ok [] [] pool_start.
Proof.
  split; try done; try (intros p; set_solver).
  - constructor.
  - split; [constructor|]. split; [constructor|]. unfold STACK_LEN. cbn. lia.
Qed.

Lemma pmm_init_run mbt :
  0 ≤ mem_upper mbt < 2 ^ 22 →
  if mem_upper mbt * 1024 <? 0xC00000 then pmm_init mbt pool_start = Hang
  else ∃ s, pmm_init mbt pool_start = Ok (tt, s) ∧ pool_ok (available_pages mbt) (available_pages mbt) s.
Proof.
  intros Hm. unfold pmm_init. rewrite (u32_small (mem_upper mbt * 1024)) by lia. set (old := mem_upper mbt * 1024).
  assert (u32 (u32 (mem_upper mbt - 12288) * 1024) = u32 (old - 0xC00000)) as -> by (subst old; wrap_lia).
  destruct (Z.ltb_spec old 0xC00000).
  - assert (u32 (old - u32 (old - 0xC00000)) = 0xC00000) as -> by (subst old; wrap_lia). by rewrite (proj2 (Z.ltb_lt _ _)) by lia.
  - rewrite (u32_small (old - 0xC00000)), (u32_small (old - _)) by (subst old; lia). rewrite (proj2 (Z.ltb_ge _ _)) by lia.
    destruct (init_loop_run (S (Z.to_nat STACK_LEN)) (mmap mbt) (old - 0xC00000) 0 ((old - 0xC00000 + 4095) / 4096) [] pool_start) as (s & E & Hok);
      [lia|wrap_lia|subst old; lia|wrap_lia|wrap_lia|unfold STACK_LEN; subst old; wrap_lia|apply pool_start_ok|constructor|cbn; lia|].
    exists s. split; [exact E|]. exact Hok.
Qed.

(** With at least 12 MiB and less than 4 GiB, [pmm_init] returns; the pages
    it manages are exactly those from 12 MiB to the size that the boot loader
    reports which no reserved entry of the memory map covers, all of them are
    free, and neither array is left. With less than 12 MiB it stops. *)
Theorem i386_pmm_init_spec (mbt : multiboot_info_t) :
  0 ≤ mem_upper mbt < 2 ^ 22 →
  if mem_upper mbt * 1024 <? 0xC00000 then pmm_init mbt pool_start = Hang
  else ∃ s, pmm_init mbt pool_start = Ok (tt, s) ∧ pool_ok (available_pages mbt) (available_pages mbt) s ∧
    free_pages s = Z.of_nat (length (available_pages mbt)) ∧ used_pages s = 0.
Proof.
  intros Hm. pose proof (pmm_init_run mbt Hm) as H. destruct (_ <? _); [done|]. destruct H as (s & E & Hok). exists s. split; [done|]. split; [done|].
  destruct Hok as [[_ Hs] Hmax _ _ _ _ _ _ _]. unfold free_pages, used_pages. rewrite Hs, Hmax, Z.sub_diag. done.
Qed.

(** ** Sequences of operations *)

Inductive pool_step : pool → pool → Prop :=
| step_alloc s p s' : pmm_alloc s = Ok (p, s') → pool_step s s'
| step_free ptr s s' : 0 ≤ ptr < 2 ^ 32 → pmm_free ptr s = Ok (tt, s') → pool_step s s'
| step_share p rc s s' : frame p → 0 < refcount s p → 0 < rc < 2 ^ 32 → set_page_metadata p rc s = Ok (tt, s') → pool_step s s'.

Lemma pool_step_ok (total stk : list Z) s s' : pool_ok total stk s → pool_step s s' → ∃ stk', pool_ok total stk' s'.
Proof.
  intros H Hstep. revert H. destruct Hstep as [s p s' E|ptr s s' Hp E|p rc s s' Hp Hrc Hr E]; intros H.
  - induction stk as [|p' stk' _] using rev_ind; [rewrite (alloc_empty _ _ H) in E; done|].
    destruct (alloc_run _ _ _ _ H) as (s2 & E2 & Hok & _). rewrite E in E2. injection E2 as _ ->. eauto.
  - destruct (free_run _ _ ptr _ H Hp) as (s2 & E2 & Hok & _). rewrite E in E2. injection E2 as ->. eauto.
  - assert (p ∈ total) as Hin by (destruct (decide (p ∈ total)); [done|rewrite (po_only _ _ _ H p) in Hrc by done; lia]).
    assert (p ∉ stk) as Hn by (rewrite (po_free _ _ _ H p Hin); lia).
    destruct (share_run _ _ p rc _ H Hin Hn Hr) as (s2 & E2 & Hok & _). rewrite E in E2. injection E2 as ->. eauto.
Qed.

Lemma pool_accounting (total stk : list Z) s :
  pool_ok total stk s → length total = (length stk + length (filter (λ p, 0 < refcount s p)%Z total))%nat.
Proof.
  intros H. pose proof H as [_ _ _ Hnd (Hnt & _) Hin Hfree Hcnt _]. rewrite <- length_app. apply Permutation_length, NoDup_Permutation; [done| |].
  - apply NoDup_app. split; [done|]. split; [|by apply NoDup_filter].
    intros p Hp Hf. apply list_elem_of_filter in Hf as [Hf ?]. apply Hfree in Hp; [lia|done].
  - intros p. rewrite elem_of_app, list_elem_of_filter. split; [|naive_solver].
    intros Hp. destruct (decide (0 < refcount s p)); [by right|]. left. apply Hfree; [done|]. pose proof (Hcnt p). lia.
Qed.

(** C37. Along every sequence of allocations, releases (of any address, also
    twice) and settings of the count of a page in use, started after
    [pmm_init]: the number of used pages is the number of pages with a
    reference, used and free pages together are those that were found at the
    start, and an allocation returns a page that nobody has a reference to,
    or, with no page left, never returns. *)
Theorem i386_pool_invariant (mbt : multiboot_info_t) (s0 s : pool) :
  0 ≤ mem_upper mbt < 2 ^ 22 → pmm_init mbt pool_start = Ok (tt, s0) → rtc pool_step s0 s →
  let total := available_pages mbt in
  used_pages s = Z.of_nat (length (filter (λ p, 0 < refcount s p) total)) ∧
  free_pages s + used_pages s = max_pages s ∧ max_pages s = Z.of_nat (length total) ∧
  (if free_pages s =? 0 then pmm_alloc s = Hang
   else ∃ p s', pmm_alloc s = Ok (p, s') ∧ p ∈ total ∧ refcount s p = 0 ∧ refcount s' p = 1).
Proof.
  intros Hm Hi Hsteps total. pose proof (pmm_init_run mbt Hm) as H0. destruct (_ <? _); [by rewrite H0 in Hi|].
  destruct H0 as (s0' & E0 & H0). rewrite Hi in E0. injection E0 as <-. fold total in H0.
  assert (∃ stk, pool_ok total stk s) as [stk H].
  { assert (∃ stk, pool_ok total stk s0) as Hs0 by eauto. clear -Hsteps Hs0.
    induction Hsteps as [|s0 s1 s2 Hstep _ IH]; [done|]. apply IH. destruct Hs0 as [stk Hs0]. by eapply pool_step_ok. }
  pose proof (pool_accounting _ _ _ H) as Hacc. destruct (po_pages _ _ _ H) as (_ & _ & Hlen). unfold STACK_LEN in Hlen.
  destruct (po_size _ _ _ H) as [_ Hsz]. pose proof (po_max _ _ _ H) as Hmax. unfold used_pages, free_pages, max_pages. rewrite Hsz, Hmax.
  split; [rewrite u32_small by lia; lia|]. split; [rewrite u32_small by lia; lia|]. split; [done|].
  induction stk as [|p stk' _] using rev_ind; [by apply alloc_empty in H|].
  destruct (Z.eqb_spec (Z.of_nat (length (stk' ++ [p]))) 0) as [E|_]; [rewrite length_app in E; cbn in E; lia|].
  destruct (alloc_run _ _ _ _ H) as (s' & E & Hok & Hz & Hset). exists p, s'. split; [done|].
  assert (p ∈ total) as Hp by (apply (po_in _ _ _ H), elem_of_app; right; by apply list_elem_of_singleton).
  split; [done|]. split; [done|]. rewrite Hset by by apply (pool_ok_frame _ _ _ p H). by rewrite decide_True.
Qed.

(** ** A machine with 20 KiB above 12 MiB, one page of which is reserved *)

Definition demo_mbt : multiboot_info_t := Mbt 12308 [MmapEntry 0x100000 0xF00000 1; MmapEntry 0xC02000 0x1000 2].
Definition demo_pool : pool := match pmm_init demo_mbt pool_start with Ok (_, s) => s | _ => pool_start end.
Definition demo_pool2 : pool := match (pmm_alloc;; pmm_alloc) demo_pool with Ok (_, s) => s | _ => pool_start end.

Lemma i386_pmm_init_spec_witness : ∃ s, pmm_init demo_mbt pool_start = Ok (tt, s) ∧ free_pages s = 4.
Proof.
  destruct (i386_pmm_init_spec demo_mbt ltac:(cbn; lia)) as (s & E & _ & Hf & _). exists s. split; [exact E|].
  rewrite Hf. vm_compute. reflexivity.
Defined.

Lemma i386_pool_invariant_witness : used_pages demo_pool2 = 2 ∧ ∃ p s', pmm_alloc demo_pool2 = Ok (p, s') ∧ refcount demo_pool2 p = 0.
Proof.
  assert (pmm_init demo_mbt pool_start = Ok (tt, demo_pool)) as E0 by (vm_compute; reflexivity).
  assert (∃ s1, pmm_alloc demo_pool = Ok (0xC04000, s1) ∧ pmm_alloc s1 = Ok (0xC03000, demo_pool2)) as (s1 & E1 & E2).
  { destruct (pmm_alloc demo_pool) as [[p s1]| | |] eqn:E1; [|vm_compute in E1; discriminate..]. exists s1.
    split; [vm_compute in E1; injection E1 as <- <-; reflexivity|]. vm_compute in E1. injection E1 as <- <-. vm_compute. reflexivity. }
  destruct (i386_pool_invariant demo_mbt demo_pool demo_pool2 ltac:(cbn; lia) E0) as (Hu & _ & _ & Ha).
  { eapply rtc_l; [exact (step_alloc _ _ _ E1)|]. eapply rtc_l; [exact (step_alloc _ _ _ E2)|]. apply rtc_refl. }
  split; [rewrite Hu; vm_compute; reflexivity|]. assert ((free_pages demo_pool2 =? 0) = false) as Ef by (vm_compute; reflexivity). rewrite Ef in Ha.
  destruct Ha as (p & s' & E & _ & Hp & _). exists p, s'. exact (conj E Hp).
Defined.
