(* ===== verification/I386Vmm.v ===== *)
(** * i386 page tables (arch/i386/mm/vmm.cpp)

    Memory is read and written through the page tables of the current
    directory, whose last entry points to itself: the directory appears at
    0xFFFFF000 and the table of entry [i] at 0xFFC00000 + 4096 * i. [ram] holds
    the 32-bit words of physical memory by their address. An access to an
    address that is not mapped is a fault (the handler panics). The addresses
    that the linker chooses, and the pointer to the shared data, are those of
    a [layout]. The translation lookaside buffer is not modelled: its flushes
    do nothing here. *)
From S2P Require Import Prelude I386Pmm.
From S2P Require Pmm.
From stdpp Require Import base numbers option gmap list.
#[local] Open Scope Z_scope.

Record vmm32 := Vmm32 { vpool : pool; ram : gmap Z Z; cr3 : Z; current_pd : Z }.
Definition set_vpool (p : pool) (s : vmm32) : vmm32 := Vmm32 p (ram s) (cr3 s) (current_pd s).
Definition set_ram (m : gmap Z Z) (s : vmm32) : vmm32 := Vmm32 (vpool s) m (cr3 s) (current_pd s).
Definition on_pool {A} (m : M pool A) : M vmm32 A := zoom vpool set_vpool m.

Record layout := Layout {
  pt_f : Z;
  dir_ : Z;
  page_tab1 : Z;
  page_tab2 : Z;
  page_tab3 : Z;
  stack : Z;
  isr_stack : Z;
  global_data_ptr : Z;
}.

(** ** The processor *)

Definition rd (m : gmap Z Z) (a : Z) : Z := Pmm.rd m a.
Definition page_of (e : Z) : Z := Z.land e 0xFFFFF000.
Definition pdindex (v : Z) : Z := Z.shiftr v 22.
Definition ptindex (v : Z) : Z := Z.land (Z.shiftr v 12) 0x3FF.

Definition translate32 (m : gmap Z Z) (root v : Z) : option Z :=
  let e := rd m (page_of root + 4 * pdindex v) in
  if has e 1 then
    let e' := rd m (page_of e + 4 * ptindex v) in
    if has e' 1 then Some (page_of e' + Z.land v 0xFFF) else None
  else None.

(** A 32-bit access at a multiple of 4. *)
Definition vload32 (v : Z) : M vmm32 Z := λ s,
  match translate32 (ram s) (cr3 s) v with Some a => Ok (rd (ram s) a, s) | None => Fault end.
Definition vstore32 (v w : Z) : M vmm32 () := λ s,
  match translate32 (ram s) (cr3 s) v with Some a => Ok (tt, set_ram (<[a := w]> (ram s)) s) | None => Fault end.

(** The byte at [a], and the word with it replaced. *)
Definition word_of (a : Z) : Z := a - a mod 4.
Definition ram8 (m : gmap Z Z) (a : Z) : Z := Z.shiftr (rd m (word_of a)) (8 * (a mod 4)) mod 2 ^ 8.
Definition set_ram8 (m : gmap Z Z) (a b : Z) : gmap Z Z :=
  let k := 8 * (a mod 4) in
  <[word_of a := Z.lor (Z.ldiff (rd m (word_of a)) (Z.shiftl 0xFF k)) (Z.shiftl (u8 b) k)]> m.
Definition vload_byte (v : Z) : M vmm32 Z := λ s,
  match translate32 (ram s) (cr3 s) v with Some a => Ok (ram8 (ram s) a, s) | None => Fault end.
Definition vstore_byte (v b : Z) : M vmm32 () := λ s,
  match translate32 (ram s) (cr3 s) v with Some a => Ok (tt, set_ram (set_ram8 (ram s) a b) s) | None => Fault end.

(** [memset] and [memcpy] of string.cpp, through the page tables. *)
Definition vmemset (v b n : Z) : M vmm32 () := for_each (λ i, vstore_byte (u32 (v + i)) b) (seqZ 0 n).
Definition vmemcpy (dst src n : Z) : M vmm32 () :=
  for_each (λ i, b ← vload_byte (u32 (src + i)); vstore_byte (u32 (dst + i)) b) (seqZ 0 n).

(** ** The code *)

Definition set_cr3 (addr : Z) : M vmm32 () := modify (λ s, Vmm32 (vpool s) (ram s) addr addr).
Definition get_cr3 : M vmm32 Z := gets cr3.

Definition PD : Z := 0xFFFFF000.
Definition PT : Z := 0xFFC00000.
Definition pd_slot (i : Z) : Z := PD + 4 * i.
Definition pt_slot (i j : Z) : Z := PT + 4 * (0x400 * i) + 4 * j.

Section code.
Context (l : layout).

Definition def_cr3 : Z := u32 (dir_ l - 0xC0000000).

(** The new page becomes the first entry of [pt_f], which becomes the last
    entry of the directory. *)
Definition scratch_open : M vmm32 Z :=
  for_each (λ i, vstore32 (pt_f l + 4 * i) 0) (seqZ 0 1024);;
  p ← on_pool pmm_alloc;
  vstore32 (pt_f l) (Z.lor p 0x3);;
  r ← vload32 (pd_slot 1023);
  vstore32 (pt_f l + 4 * 1023) r;;
  vstore32 (pd_slot 1023) (Z.lor (u32 (pt_f l - 0xC0000000)) 0x3);;
  mret r.

Definition scratch_close (r : Z) : M vmm32 Z :=
  vstore32 (pd_slot 1023) r;;
  e ← vload32 (pt_f l);
  mret (Z.land e 0xFFFFF000).

Definition alloc_clean_page : M vmm32 Z :=
  r ← scratch_open;
  for_each (λ i, vstore_byte (PT + i) 0) (seqZ 0 4096);;
  scratch_close r.

Definition map_page (physaddr virtualaddr flags : Z) : M vmm32 () :=
  if has physaddr 0xFFF || has virtualaddr 0xFFF then mret tt
  else
    let pdindex := pdindex virtualaddr in
    let ptindex := ptindex virtualaddr in
    e ← vload32 (pd_slot pdindex);
    (if negb (has e 0x1) then p ← alloc_clean_page; vstore32 (pd_slot pdindex) (Z.lor p (Z.land flags 0xFFF)) else mret tt);;
    e ← vload32 (pt_slot pdindex ptindex);
    if has e 0x1 then mret tt
    else vstore32 (pt_slot pdindex ptindex) (Z.lor (Z.lor physaddr (Z.land flags 0xFFF)) 0x1).

(** A missing table only prints a message. *)
Definition unmap_page (virtualaddr : Z) : M vmm32 () :=
  if has virtualaddr 0xFFF then mret tt
  else
    e ← vload32 (pd_slot (pdindex virtualaddr));
    vstore32 (pt_slot (pdindex virtualaddr) (ptindex virtualaddr)) 0.

Definition WINDOW : Z := 0xE0000000.

(** One word of a page, through the window. *)
Definition peek_word (page index : Z) : M vmm32 Z :=
  map_page page WINDOW 0x3;;
  w ← vload32 (WINDOW + 4 * index);
  unmap_page WINDOW;;
  mret w.

Definition get_phys (pd virtualaddr : Z) : M vmm32 Z :=
  pt ← peek_word pd (pdindex virtualaddr);
  if negb (has pt 0xFFF) then mret 0
  else
    page ← peek_word (Z.land pt 0xFFFFF000) (ptindex virtualaddr);
    if negb (has page 0xFFF) then mret 0
    else mret (u32 (Z.land page 0xFFFFF000 + Z.land virtualaddr 0xFFF)).

Definition get_flag (pd virtualaddr : Z) : M vmm32 Z :=
  pt ← peek_word pd (pdindex virtualaddr);
  if negb (has pt 0xFFF) then mret 0
  else
    page ← peek_word (Z.land pt 0xFFFFF000) (ptindex virtualaddr);
    mret (Z.land page 0xFFF).

(** The loop of [crosspd_memcpy]; the addresses are of the page to be mapped
    next. *)
Fixpoint memcpy_loop (fuel : nat) (dst_pd dst_addr dst_phys dst_off src_pd src_addr src_phys src_off sz : Z) : M vmm32 () :=
  match fuel with
  | O => λ _, Hang
  | S fuel' =>
      if 0 <? sz then
        let copy_size := if 0x1000 <? sz then 0x1000 else sz in
        map_page src_phys 0xEF000000 0x3;;
        let src_addr := u32 (src_addr + 0x1000) in
        p ← get_phys src_pd src_addr;
        let src_phys := Z.land p 0xFFFFF000 in
        let src2 := (0x1000 <=? u32 (src_off + copy_size)) && negb (src_phys =? 0) in
        (if src2 then map_page src_phys 0xEF001000 0x3 else mret tt);;
        map_page dst_phys 0xEF002000 0x3;;
        let dst_addr := u32 (dst_addr + 0x1000) in
        p ← get_phys dst_pd dst_addr;
        let dst_phys := Z.land p 0xFFFFF000 in
        let dst2 := (0x1000 <=? u32 (dst_off + copy_size)) && negb (dst_phys =? 0) in
        (if dst2 then map_page dst_phys 0xEF003000 0x3 else mret tt);;
        vmemcpy (0xEF002000 + dst_off) (0xEF000000 + src_off) copy_size;;
        unmap_page 0xEF000000;;
        (if src2 then unmap_page 0xEF001000 else mret tt);;
        unmap_page 0xEF002000;;
        (if dst2 then unmap_page 0xEF003000 else mret tt);;
        memcpy_loop fuel' dst_pd dst_addr dst_phys dst_off src_pd src_addr src_phys src_off (sz - copy_size)
      else mret tt
  end.

Definition crosspd_memcpy (dst_pd dst_addr src_pd src_addr sz : Z) : M vmm32 () :=
  src_phys ← get_phys src_pd src_addr;
  dst_phys ← get_phys dst_pd dst_addr;
  memcpy_loop (S (Z.to_nat sz)) dst_pd dst_addr (Z.land dst_phys 0xFFFFF000) (Z.land dst_addr 0xFFF)
    src_pd src_addr (Z.land src_phys 0xFFFFF000) (Z.land src_addr 0xFFF) sz.

(** The [while (1)] loop of [crosspd_memset]. *)
Fixpoint memset_loop (fuel : nat) (dst_phys dst_off num sz set : Z) : M vmm32 () :=
  match fuel with
  | O => λ _, Hang
  | S fuel' =>
      let set_size := if 0x1000 <? sz then 0x1000 else sz in
      let two := u32 (dst_phys + 0x1000) <? u32 (dst_phys + dst_off + set_size) in
      map_page dst_phys 0xE0002000 0x3;;
      (if two then map_page (u32 (dst_phys + 0x1000)) 0xE0003000 0x3 else mret tt);;
      vmemset (0xE0002000 + dst_off) num set_size;;
      unmap_page 0xE0002000;;
      (if two then unmap_page 0xE0003000 else mret tt);;
      let set := u32 (set + set_size) in
      if sz <=? set then mret tt else memset_loop fuel' dst_phys dst_off num sz set
  end.

Definition crosspd_memset (dst_pd dst_addr num sz : Z) : M vmm32 () :=
  p ← get_phys dst_pd dst_addr;
  memset_loop (S (Z.to_nat (sz / 0x1000))) (Z.land p 0xFFFFF000) (Z.land p 0xFFF) num sz 0.

(** One page of [alloc_mem_at]; [dst_phys] is the result so far. *)
Definition alloc_page_at (pd where_ flags i dst_phys : Z) : M vmm32 Z :=
  let v := u32 (where_ + i * 0x1000) in
  f ← get_flag pd v;
  if negb (has f 1) then
    p ← on_pool pmm_alloc;
    map_page p v flags;;
    vmemset v 0 0x1000;;
    mret (if i =? 0 then p else dst_phys)
  else mret dst_phys.

Fixpoint alloc_pages_at (n : nat) (pd where_ flags i dst_phys : Z) : M vmm32 Z :=
  match n with
  | O => mret dst_phys
  | S n' => d ← alloc_page_at pd where_ flags i dst_phys; alloc_pages_at n' pd where_ flags (i + 1) d
  end.

Definition alloc_mem_at (pd where_ pages flags : Z) : M vmm32 Z :=
  if 0xC0000000 <? u32 (where_ + pages * 0x1000) then mret 0
  else
    opd ← get_cr3;
    set_cr3 pd;;
    d ← alloc_pages_at (Z.to_nat pages) pd where_ flags 0 0;
    set_cr3 opd;;
    mret d.

Definition kernel_addr : Z := Z.shiftr 0xC0000000 22.
Definition kernel_table (tab : Z) : Z := Z.lor (u32 (tab - 0xC0000000)) 3.
Definition NEW_DIR : Z := 0xEDA9B000.
Definition GLOBAL_DATA_ADDR : Z := 0xD0000000.

Definition create_page_directory : M vmm32 Z :=
  tmp_addr ← on_pool pmm_alloc;
  map_page tmp_addr NEW_DIR 0x3;;
  vmemset NEW_DIR 0 0x1000;;
  vstore32 (NEW_DIR + 4 * kernel_addr) (kernel_table (page_tab1 l));;
  vstore32 (NEW_DIR + 4 * (kernel_addr + 1)) (kernel_table (page_tab2 l));;
  vstore32 (NEW_DIR + 4 * (kernel_addr + 2)) (kernel_table (page_tab3 l));;
  vstore32 (NEW_DIR + 4 * 1023) (Z.lor tmp_addr 0x3);;
  unmap_page NEW_DIR;;
  set_cr3 tmp_addr;;
  map_page (global_data_ptr l) GLOBAL_DATA_ADDR 0x5;;
  set_cr3 def_cr3;;
  mret tmp_addr.

(** The tables of the directory are not freed. *)
Definition destroy_page_directory (pd : Z) : M vmm32 () :=
  c ← get_cr3;
  if c =? pd then mret tt else on_pool (pmm_free pd).

Definition paging_init : M vmm32 () :=
  for_each (λ i, vstore32 (dir_ l + 4 * i) 0) (seqZ 0 kernel_addr);;
  vstore32 (dir_ l + 4 * kernel_addr) (kernel_table (page_tab1 l));;
  vstore32 (dir_ l + 4 * (kernel_addr + 1)) (kernel_table (page_tab2 l));;
  vstore32 (dir_ l + 4 * (kernel_addr + 2)) (kernel_table (page_tab3 l));;
  for_each (λ i, vstore32 (dir_ l + 4 * i) 0) (seqZ (kernel_addr + 3) (1024 - kernel_addr - 4));;
  vstore32 (dir_ l + 4 * 1023) (kernel_table (dir_ l));;
  set_cr3 (u32 (dir_ l - 0xC0000000));;
  unmap_page (stack l);;
  unmap_page (isr_stack l).
End code.
