(* ===== verification/I386Dir.v ===== *)
(** * Properties of the i386 page tables: directories that contain themselves

    The recursive entry makes the words of the directory and of its tables
    reachable through the directory itself; a store to one of them changes
    one translation. *)
From S2P Require Import Prelude I386Pmm I386Vmm.
From S2P Require Pmm.
From stdpp Require Import base numbers option gmap list.
#[local] Open Scope Z_scope.

(** ** Arithmetic of addresses *)

Lemma page_of_div e : 0 ≤ e < 2 ^ 32 → page_of e = e / 4096 * 4096.
Proof. apply page_mask. Qed.

Lemma page_of_frame f : frame f → page_of f = f.
Proof. intros [? ?]. rewrite page_of_div by done. wrap_lia. Qed.

Lemma frame_page_of e : 0 ≤ e < 2 ^ 32 → frame (page_of e).
Proof. intros He. rewrite page_of_div by done. split; wrap_lia. Qed.

Lemma land_fff a : Z.land a 0xFFF = a mod 4096.
Proof. change 0xFFF with (Z.ones 12). by rewrite Z.land_ones. Qed.

Lemma has_1 e : has e 1 = Z.testbit e 0.
Proof. exact (has_pow2 e 0 ltac:(lia)). Qed.

Lemma has_fff a : has a 0xFFF = negb (a mod 4096 =? 0).
Proof. unfold has. by rewrite land_fff. Qed.

Lemma pdindex_div v : pdindex v = v / 2 ^ 22.
Proof. unfold pdindex. by rewrite Z.shiftr_div_pow2. Qed.
Lemma ptindex_div v : ptindex v = v / 4096 mod 1024.
Proof. unfold ptindex. rewrite Z.shiftr_div_pow2 by lia. change 0x3FF with (Z.ones 10). by rewrite Z.land_ones. Qed.

Lemma index_range v : 0 ≤ v < 2 ^ 32 → 0 ≤ pdindex v < 1024 ∧ 0 ≤ ptindex v < 1024.
Proof. intros Hv. rewrite pdindex_div, ptindex_div. wrap_lia. Qed.

(** The index pair of a page determines it. *)
Lemma index_page u v : 0 ≤ u < 2 ^ 32 → frame v → pdindex u = pdindex v → ptindex u = ptindex v → u / 4096 * 4096 = v.
Proof. intros Hu [Hv Hm]. rewrite !pdindex_div, !ptindex_div. wrap_lia. Qed.

Lemma page_index_of u v : u / 4096 * 4096 = v → pdindex u = pdindex v ∧ ptindex u = ptindex v.
Proof. intros <-. rewrite !pdindex_div, !ptindex_div. split; wrap_lia. Qed.

Lemma pd_slot_index i : 0 ≤ i < 1024 → pdindex (pd_slot i) = 1023 ∧ ptindex (pd_slot i) = 1023 ∧ Z.land (pd_slot i) 0xFFF = 4 * i.
Proof. intros Hi. rewrite pdindex_div, ptindex_div, land_fff. unfold pd_slot, PD. wrap_lia. Qed.

Lemma pt_slot_index i j : 0 ≤ i < 1024 → 0 ≤ j < 1024 → pdindex (pt_slot i j) = 1023 ∧ ptindex (pt_slot i j) = i ∧ Z.land (pt_slot i j) 0xFFF = 4 * j.
Proof. intros Hi Hj. rewrite pdindex_div, ptindex_div, land_fff. unfold pt_slot, PT. wrap_lia. Qed.

(** The flags of an entry lie below the address of its frame. *)
Lemma lor_frame f x : frame f → 0 ≤ x < 4096 → Z.lor f x = f + x.
Proof.
  intros [Hf Hm] Hx. assert (f = Z.shiftl (f / 4096) 12) as -> by (rewrite Z.shiftl_mul_pow2 by lia; wrap_lia).
  rewrite Z.add_nocarry_lxor, <- Z.lxor_lor; [done|..]; apply Z.bits_inj'; intros n Hn; rewrite Z.land_spec, Z.bits_0;
    (destruct (decide (n < 12)); [by rewrite Z.shiftl_spec_low|rewrite (testbit_high x 12 n) by lia; apply andb_false_r]).
Qed.

Lemma entry32_of f x : frame f → 0 ≤ x < 4096 → page_of (f + x) = f ∧ Z.testbit (f + x) 0 = Z.testbit x 0 ∧ 0 ≤ f + x < 2 ^ 32.
Proof.
  intros [Hf Hm] Hx. assert (0 ≤ f + x < 2 ^ 32) as Hr by wrap_lia. split; [rewrite page_of_div by done; wrap_lia|]. split; [|done].
  rewrite !Z.bit0_odd. replace (f + x) with (x + 2 * (f / 2)) by wrap_lia. by rewrite Z.odd_add_mul_2.
Qed.

Lemma flags_bits flags : 0 ≤ Z.land flags 0xFFF < 4096 ∧ Z.testbit (Z.land flags 0xFFF) 0 = Z.testbit flags 0.
Proof. rewrite land_fff. split; [wrap_lia|]. change 4096 with (2 ^ 12). by rewrite Z.mod_pow2_bits_low. Qed.

(** ** Words *)

Lemma rd32_insert m a w b : rd (<[a := w]> m) b = if decide (a = b) then w else rd m b.
Proof. unfold rd, Pmm.rd. case_decide as E; [subst; by rewrite lookup_insert_eq|by rewrite lookup_insert_ne]. Qed.

(** The words of two memories agree at the addresses of [P]. *)
Definition agree (P : Z → Prop) (m m' : gmap Z Z) : Prop := ∀ a, P a → rd m' a = rd m a.

Definition words_ok (m : gmap Z Z) : Prop := ∀ a, 0 ≤ rd m a < 2 ^ 32.

Lemma words_ok_insert m a w : words_ok m → 0 ≤ w < 2 ^ 32 → words_ok (<[a := w]> m).
Proof. intros Hm Hw b. rewrite rd32_insert. by case_decide. Qed.

(** ** Directories *)

Definition pde (m : gmap Z Z) (root i : Z) : Z := rd m (root + 4 * i).
Definition table (m : gmap Z Z) (root i : Z) : Z := page_of (pde m root i).
Definition present (m : gmap Z Z) (root i : Z) : Prop := Z.testbit (pde m root i) 0 = true.

Record dir_ok (m : gmap Z Z) (root : Z) : Prop := {
  do_root : frame root;
  do_words : words_ok m;
  do_self : pde m root 1023 = root + 3;
  do_table i : 0 ≤ i < 1023 → present m root i → table m root i ≠ root;
  do_inj i j : 0 ≤ i < 1023 → 0 ≤ j < 1023 → present m root i → present m root j → table m root i = table m root j → i = j;
}.

Lemma translate_alt m root v :
  frame root →
  translate32 m root v = if Z.testbit (pde m root (pdindex v)) 0 then
      let e := rd m (table m root (pdindex v) + 4 * ptindex v) in if Z.testbit e 0 then Some (page_of e + v mod 4096) else None
    else None.
Proof. intros Hr. unfold translate32, table, pde. by rewrite page_of_frame, !has_1, land_fff. Qed.

Section dir.
Context (m : gmap Z Z) (root : Z) (Hok : dir_ok m root).

Lemma self_table : present m root 1023 ∧ table m root 1023 = root.
Proof.
  unfold present, table. rewrite (do_self _ _ Hok). destruct (entry32_of root 3 (do_root _ _ Hok) ltac:(lia)) as (-> & -> & _). done.
Qed.

Lemma table_frame i : frame (table m root i).
Proof. apply frame_page_of, Hok. Qed.

Lemma translate_pd_slot i : 0 ≤ i < 1024 → translate32 m root (pd_slot i) = Some (root + 4 * i).
Proof.
  intros Hi. destruct self_table as [Hp Ht]. destruct (pd_slot_index i Hi) as (E1 & E2 & E3). rewrite land_fff in E3.
  rewrite translate_alt by apply Hok. rewrite E1, E2, Hp, Ht, E3. cbv zeta iota. change (rd m (root + 4 * 1023)) with (pde m root 1023).
  rewrite Hp. unfold table in Ht. by rewrite Ht.
Qed.

Lemma translate_pt_slot i j : 0 ≤ i < 1024 → 0 ≤ j < 1024 → present m root i → translate32 m root (pt_slot i j) = Some (table m root i + 4 * j).
Proof.
  intros Hi Hj Hpi. destruct self_table as [Hp Ht]. destruct (pt_slot_index i j Hi Hj) as (E1 & E2 & E3). rewrite land_fff in E3.
  rewrite translate_alt by apply Hok. rewrite E1, E2, Hp, Ht, E3. cbv zeta iota. change (rd m (root + 4 * i)) with (pde m root i).
  unfold present in Hpi. by rewrite Hpi.
Qed.

(** The words that translations depend on. *)
Definition table_word (a : Z) : Prop := ∃ i j, 0 ≤ i < 1024 ∧ 0 ≤ j < 1024 ∧ present m root i ∧ a = table m root i + 4 * j.

Lemma root_word i : 0 ≤ i < 1024 → table_word (root + 4 * i).
Proof. intros Hi. destruct self_table as [Hp Ht]. exists 1023, i. rewrite Ht. split_and!; done || lia. Qed.

(** A store elsewhere changes no translation. *)
Lemma agree_translate m' v : 0 ≤ v < 2 ^ 32 → agree table_word m m' → translate32 m' root v = translate32 m root v.
Proof.
  intros Hv Ha. destruct (index_range v Hv) as [Hi Hj]. rewrite !translate_alt by apply Hok.
  assert (pde m' root (pdindex v) = pde m root (pdindex v)) as E by (apply Ha, root_word; done).
  unfold table. rewrite E. destruct (Z.testbit (pde m root (pdindex v)) 0) eqn:Hp; [|done].
  cbv zeta. rewrite (Ha (page_of (pde m root (pdindex v)) + 4 * ptindex v)); [done|].
  exists (pdindex v), (ptindex v). split_and!; done || lia.
Qed.

Lemma agree_dir m' : words_ok m' → agree table_word m m' → dir_ok m' root.
Proof.
  intros Hw Ha. assert (∀ i, 0 ≤ i < 1024 → pde m' root i = pde m root i) as E by (intros i Hi; by apply Ha, root_word).
  split; [apply Hok|done|..].
  - rewrite E by lia. apply (do_self _ _ Hok).
  - intros i Hi. unfold present, table. rewrite E by lia. by apply (do_table _ _ Hok).
  - intros i j Hi Hj. unfold present, table. rewrite !E by lia. by apply (do_inj _ _ Hok).
Qed.

(** Words of different frames are different, words of a frame by index. *)
Lemma frame32_word f f' i j : frame f → frame f' → 0 ≤ i < 1024 → 0 ≤ j < 1024 → f + 4 * i = f' + 4 * j → f = f' ∧ i = j.
Proof. intros [? ?] [? ?] ? ? ?. split; wrap_lia. Qed.

(** A store to an entry of a table. *)
Lemma store_pte i j e :
  0 ≤ i < 1023 → 0 ≤ j < 1024 → present m root i → 0 ≤ e < 2 ^ 32 →
  let m' := <[table m root i + 4 * j := e]> m in
  dir_ok m' root ∧ (∀ k, 0 ≤ k < 1024 → pde m' root k = pde m root k) ∧
  ∀ v, 0 ≤ v < 2 ^ 32 → pdindex v < 1023 →
    translate32 m' root v = if decide (pdindex v = i ∧ ptindex v = j)
                          then if Z.testbit e 0 then Some (page_of e + v mod 4096) else None else translate32 m root v.
Proof.
  intros Hi Hj Hp He m'. pose proof (do_table _ _ Hok i Hi Hp) as Hne. pose proof (table_frame i) as Hf. pose proof (do_root _ _ Hok) as Hr.
  assert (∀ k, 0 ≤ k < 1024 → pde m' root k = pde m root k) as E.
  { intros k Hk. unfold pde, m'. rewrite rd32_insert, decide_False; [done|]. intros Ek. by apply frame32_word in Ek as [? _]. }
  split; [|split; [done|]].
  - split; try done; [by apply words_ok_insert; [apply Hok|]|rewrite E by lia; apply (do_self _ _ Hok)| |].
    + intros k Hk. unfold present, table. rewrite E by lia. by apply (do_table _ _ Hok).
    + intros k k' Hk Hk'. unfold present, table. rewrite !E by lia. by apply (do_inj _ _ Hok).
  - intros v Hv Hpd. destruct (index_range v Hv) as [Hi' Hj']. rewrite !translate_alt by done. unfold table. rewrite E by done.
    destruct (Z.testbit (pde m root (pdindex v)) 0) eqn:Hpv.
    + cbv zeta. unfold m' at 1 2. rewrite !rd32_insert. case_decide as Ea.
      * apply frame32_word in Ea as [Et Ej]; [|done|apply table_frame|done|done].
        rewrite decide_True; [done|]. split; [|done]. symmetry. apply (do_inj _ _ Hok); done || lia.
      * rewrite decide_False; [done|]. intros [Ei Ej]. by subst i j.
    + rewrite decide_False; [done|]. intros [Ei _]. subst i. unfold present in Hp. congruence.
Qed.

(** A new table in an empty entry of the directory. *)
Lemma store_pde i f x :
  0 ≤ i < 1023 → ¬ present m root i → frame f → 0 ≤ x < 4096 → Z.testbit x 0 = true →
  (∀ k, 0 ≤ k < 1024 → present m root k → table m root k ≠ f) → (∀ j, 0 ≤ j < 1024 → rd m (f + 4 * j) = 0) →
  let m' := <[root + 4 * i := f + x]> m in
  dir_ok m' root ∧ present m' root i ∧ (∀ k, 0 ≤ k < 1024 → table m' root k = if decide (k = i) then f else table m root k) ∧
  (∀ k, 0 ≤ k < 1024 → k ≠ i → present m' root k ↔ present m root k) ∧
  ∀ v, 0 ≤ v < 2 ^ 32 → pdindex v < 1023 → translate32 m' root v = translate32 m root v.
Proof.
  intros Hi Hn Hf Hx Hx0 Hap Hz m'. destruct (entry32_of f x Hf Hx) as (Ep & Eb & Er). destruct self_table as [Hsp Hst].
  assert (root ≠ f) as Hne by (rewrite <- Hst; by apply Hap).
  assert (∀ k, 0 ≤ k < 1024 → pde m' root k = if decide (k = i) then f + x else pde m root k) as E.
  { intros k Hk. unfold pde, m'. rewrite rd32_insert. do 2 case_decide; done || lia. }
  assert (∀ k, 0 ≤ k < 1024 → k ≠ i → pde m' root k = pde m root k) as En by (intros k Hk Hki; by rewrite E, decide_False).
  assert (pde m' root i = f + x) as Ei by (by rewrite E, decide_True by lia).
  assert (table m' root i = f) as Eti by (unfold table; by rewrite Ei).
  assert (∀ k, 0 ≤ k < 1024 → k ≠ i → table m' root k = table m root k) as Etn by (intros; unfold table; by rewrite En).
  assert (∀ k, 0 ≤ k < 1024 → k ≠ i → present m' root k ↔ present m root k) as Epn by (intros; unfold present; by rewrite En).
  assert (present m' root i) as Hpi by (unfold present; by rewrite Ei, Eb).
  split; [|split; [done|split; [|split; [done|]]]].
  - split; [apply Hok|by apply words_ok_insert; [apply Hok|]|rewrite En by lia; apply (do_self _ _ Hok)| |].
    + intros k Hk Hpk. destruct (decide (k = i)) as [->|]; [by rewrite Eti|]. rewrite Etn by lia. rewrite Epn in Hpk by lia. by apply (do_table _ _ Hok).
    + intros k k' Hk Hk' Hpk Hpk' Et.
      destruct (decide (k = i)) as [->|], (decide (k' = i)) as [->|]; [done| | |].
      * rewrite Eti, Etn in Et by lia. rewrite Epn in Hpk' by lia. destruct (Hap k'); done || lia.
      * rewrite Eti, Etn in Et by lia. rewrite Epn in Hpk by lia. destruct (Hap k); done || lia.
      * rewrite !Etn in Et by lia. rewrite Epn in Hpk, Hpk' by lia. by apply (do_inj _ _ Hok).
  - intros k Hk. case_decide as Ek; [by subst k|by apply Etn].
  - intros v Hv Hpd. destruct (index_range v Hv) as [Hi' Hj']. rewrite !translate_alt by apply Hok.
    destruct (decide (pdindex v = i)) as [Ev|Ev].
    + unfold present in Hpi, Hn. rewrite Ev, Eti, Hpi. apply not_true_is_false in Hn. rewrite Hn. cbv zeta.
      assert (rd m' (f + 4 * ptindex v) = 0) as ->; [|done]. unfold m'. rewrite rd32_insert, decide_False; [by apply Hz|].
      intros Ew. apply frame32_word in Ew as [? _]; try done; [apply Hok|lia].
    + rewrite Etn, En by (done || lia). destruct (Z.testbit (pde m root (pdindex v)) 0) eqn:Hpv; [|done]. cbv zeta.
      unfold m' at 1 2. rewrite rd32_insert, decide_False; [done|]. intros Ew.
      apply frame32_word in Ew as [Et _]; [|apply Hok|apply table_frame|lia|done]. by destruct (do_table _ _ Hok (pdindex v) ltac:(lia) Hpv).
Qed.
End dir.

(** ** Filling a frame *)

Definition in_frame (f a : Z) : Prop := f ≤ a < f + 4096.
Definition outside (f : Z) (a : Z) : Prop := ¬ in_frame f a.

(** [f] is neither the directory nor one of its tables. *)
Definition apart (m : gmap Z Z) (root f : Z) : Prop := ∀ i, 0 ≤ i < 1024 → present m root i → table m root i ≠ f.

Lemma outside_tables m m' root f : dir_ok m root → frame f → apart m root f → agree (outside f) m m' → agree (table_word m root) m m'.
Proof.
  intros Hok Hf Hap Ha a (i & j & Hi & Hj & Hp & ->). apply Ha. intros [Hlo Hhi]. apply (Hap i Hi Hp).
  destruct (table_frame m root Hok i) as [? ?], Hf as [? ?]. wrap_lia.
Qed.

Lemma apart_agree m m' root f : dir_ok m root → agree (table_word m root) m m' → apart m root f → apart m' root f.
Proof.
  intros Hok Ha Hap i Hi. assert (pde m' root i = pde m root i) as E by (apply Ha; by apply root_word).
  unfold present, table. rewrite E. by apply Hap.
Qed.

(** Filling the frame keeps directory and translations. *)
Lemma fill_frame m m' root f : dir_ok m root → frame f → apart m root f → words_ok m' → agree (outside f) m m' →
  dir_ok m' root ∧ apart m' root f ∧ ∀ v, 0 ≤ v < 2 ^ 32 → translate32 m' root v = translate32 m root v.
Proof.
  intros Hok Hf Hap Hw Ha. pose proof (outside_tables _ _ _ _ Hok Hf Hap Ha) as Ht.
  split; [by eapply agree_dir|]. split; [by eapply apart_agree|]. intros v Hv. by apply agree_translate.
Qed.

Lemma translate_offset m root v f o : frame v → 0 ≤ o < 4096 → translate32 m root v = Some f → translate32 m root (v + o) = Some (f + o).
Proof.
  intros [Hv Hm] Ho. unfold translate32. assert (pdindex (v + o) = pdindex v ∧ ptindex (v + o) = ptindex v) as [-> ->].
  { rewrite !pdindex_div, !ptindex_div. split; wrap_lia. }
  rewrite !land_fff. destruct (has _ 1); [|done]. cbv zeta. destruct (has _ 1); [|done]. rewrite Hm. intros [= <-]. f_equal. wrap_lia.
Qed.

Lemma vload_run v a s : translate32 (ram s) (cr3 s) v = Some a → vload32 v s = Ok (rd (ram s) a, s).
Proof. intros H. unfold vload32. by rewrite H. Qed.
Lemma vstore_run v a w s : translate32 (ram s) (cr3 s) v = Some a → vstore32 v w s = Ok (tt, set_ram (<[a := w]> (ram s)) s).
Proof. intros H. unfold vstore32. by rewrite H. Qed.

Lemma for_each_ext {S A} (f g : A → M S ()) l s : (∀ x s, x ∈ l → f x s = g x s) → for_each f l s = for_each g l s.
Proof.
  revert s. induction l as [|x l IH]; intros s H; [done|]. cbn. cbv [mbind M_bind]. rewrite H by left.
  destruct (g x s) as [[[] s']| | |]; [|done..]. apply IH. intros y s'' Hy. apply H. by right.
Qed.

Lemma for_each_snoc {S} (f : Z → M S ()) n s s' : 0 ≤ n → for_each f (seqZ 0 n) s = Ok (tt, s') → for_each f (seqZ 0 (n + 1)) s = f n s'.
Proof.
  intros Hn H. rewrite seqZ_app by lia. rewrite for_each_app. run H. change (seqZ (0 + n) 1) with [0 + n]. rewrite Z.add_0_l. cbn [for_each]. cbv [mbind M_bind mret M_ret]. by destruct (f n s') as [[[] ?]| | |].
Qed.

(** The page at [v] stays mapped to [f] whatever is written to [f]. *)
Definition stable (m : gmap Z Z) (root v f : Z) : Prop :=
  ∀ m', words_ok m' → agree (outside f) m m' → ∀ o, 0 ≤ o < 4096 → translate32 m' root (v + o) = Some (f + o).

Lemma stable_dir m root v f : dir_ok m root → frame v → frame f → apart m root f → translate32 m root v = Some f → stable m root v f.
Proof.
  intros Hok Hv Hf Hap Htr m' Hw Ha o Ho. destruct (fill_frame _ m' _ _ Hok Hf Hap Hw Ha) as (_ & _ & Ht). rewrite Ht; [by apply translate_offset|].
  destruct Hv. wrap_lia.
Qed.

Section fill.
Context (s : vmm32) (v f : Z) (Hw0 : words_ok (ram s)) (Hv : frame v) (Hf : frame f) (Hst : stable (ram s) (cr3 s) v f).

(** Zeroing the first [n] words. *)
Lemma zero_words_run n :
  0 ≤ n ≤ 1024 →
  ∃ m', for_each (λ i, vstore32 (v + 4 * i) 0) (seqZ 0 n) s = Ok (tt, set_ram m' s) ∧ words_ok m' ∧ agree (outside f) (ram s) m' ∧
    ∀ j, 0 ≤ j < n → rd m' (f + 4 * j) = 0.
Proof.
  intros [Hn Hle]. revert Hle. pattern n. apply natlike_ind; [|clear n Hn; intros n Hn IH Hle|done].
  - intros _. exists (ram s). split; [by destruct s|]. split; [done|]. split; [done|lia].
  - destruct IH as (m' & E & Hw & Ha & Hz); [lia|]. rewrite <- Z.add_1_r.
    exists (<[f + 4 * n := 0]> m'). split.
    { erewrite for_each_snoc; [|done|exact E]. apply (vstore_run _ _ 0 (set_ram m' s)). by apply Hst; [..|lia]. }
    split; [apply words_ok_insert; done || lia|]. split.
    + intros a Hout. rewrite rd32_insert, decide_False; [by apply Ha|]. intros <-. apply Hout. unfold in_frame. lia.
    + intros j Hj. rewrite rd32_insert. case_decide; [done|]. apply Hz. lia.
Qed.

(** Zeroing the first [n] bytes clears the bits of those bytes. *)
Lemma zero_bytes_run n :
  0 ≤ n ≤ 4096 →
  ∃ m', for_each (λ i, vstore_byte (v + i) 0) (seqZ 0 n) s = Ok (tt, set_ram m' s) ∧ words_ok m' ∧ agree (outside f) (ram s) m' ∧
    ∀ j b, 0 ≤ j < 1024 → 0 ≤ b → 4 * j + b / 8 < n → b < 32 → Z.testbit (rd m' (f + 4 * j)) b = false.
Proof.
  intros [Hn Hle]. revert Hle. pattern n. apply natlike_ind; [|clear n Hn; intros n Hn IH Hle|done].
  - intros _. exists (ram s). split; [by destruct s|]. split; [done|]. split; [done|]. intros j b Hj Hb H. wrap_lia.
  - destruct IH as (m' & E & Hw & Ha & Hz); [lia|]. rewrite <- Z.add_1_r.
    exists (set_ram8 m' (f + n) 0). split.
    { erewrite for_each_snoc; [|done|exact E]. unfold vstore_byte. cbn. by rewrite Hst by (done || lia). }
    destruct Hf as [Hf1 Hf2]. assert (word_of (f + n) = f + 4 * (n / 4) ∧ (f + n) mod 4 = n mod 4) as [Ew Em] by (unfold word_of; split; wrap_lia).
    unfold set_ram8. rewrite Ew, Em. change (u8 0) with 0. rewrite Z.shiftl_0_l, Z.lor_0_r.
    set (w := rd m' (f + 4 * (n / 4))). set (mask := Z.shiftl 0xFF (8 * (n mod 4))).
    assert (∀ b, 0 ≤ b → Z.testbit (Z.ldiff w mask) b = Z.testbit w b && negb ((8 * (n mod 4) <=? b) && (b <? 8 * (n mod 4) + 8))) as Hbit.
    { intros b Hb. rewrite Z.ldiff_spec. f_equal. f_equal. unfold mask. change 0xFF with (Z.ones 8).
      rewrite Z.shiftl_spec by lia. destruct (Z.leb_spec (8 * (n mod 4)) b); cbn [andb]; [|apply Z.testbit_neg_r; lia].
      destruct (Z.ltb_spec b (8 * (n mod 4) + 8)); [apply Z.ones_spec_low|apply Z.ones_spec_high]; lia. }
    split; [|split].
    + apply words_ok_insert; [done|]. assert (0 ≤ Z.ldiff w mask) as H0.
      { apply Z.ldiff_nonneg. left. apply Hw. }
      split; [done|]. apply lt_pow2_bits; [lia|done|]. intros b Hb. rewrite Hbit by lia. by rewrite (testbit_high w 32) by (lia || apply Hw).
    + intros a Hout. rewrite rd32_insert, decide_False; [by apply Ha|]. intros <-. apply Hout. unfold in_frame. wrap_lia.
    + intros j b Hj Hb Hlt Hb32. rewrite rd32_insert. case_decide as Ej.
      * assert (j = n / 4) as -> by lia. rewrite Hbit by done. destruct (Z.leb_spec (8 * (n mod 4)) b), (Z.ltb_spec b (8 * (n mod 4) + 8));
          cbn [andb negb]; rewrite ?andb_false_r, ?andb_true_r; try done; apply Hz; try done; wrap_lia.
      * apply Hz; try done. destruct (decide (4 * j + b / 8 = n)); [|lia]. exfalso. apply Ej. wrap_lia.
Qed.

Lemma zero_page_run :
  ∃ m', for_each (λ i, vstore_byte (v + i) 0) (seqZ 0 4096) s = Ok (tt, set_ram m' s) ∧ words_ok m' ∧ agree (outside f) (ram s) m' ∧
    ∀ j, 0 ≤ j < 1024 → rd m' (f + 4 * j) = 0.
Proof.
  destruct (zero_bytes_run 4096) as (m' & E & Hw & Ha & Hz); [lia|]. exists m'. split; [done|]. split; [done|]. split; [done|].
  intros j Hj. apply Z.bits_inj'. intros b Hb. rewrite Z.bits_0. destruct (decide (b < 32)); [apply Hz; try done; wrap_lia|].
  apply (testbit_high _ 32); [lia|apply Hw|lia].
Qed.

Lemma vmemset_page_run :
  ∃ m', vmemset v 0 0x1000 s = Ok (tt, set_ram m' s) ∧ words_ok m' ∧ agree (outside f) (ram s) m' ∧ ∀ j, 0 ≤ j < 1024 → rd m' (f + 4 * j) = 0.
Proof.
  destruct zero_page_run as (m' & E & H). exists m'. split; [|done]. rewrite <- E. unfold vmemset. apply for_each_ext.
  intros i s' Hi. apply elem_of_seqZ in Hi. destruct Hv. rewrite u32_small by wrap_lia. done.
Qed.
End fill.
