(* ===== verification/I386VmmProps.v ===== *)
(** * Properties of the i386 page tables: mapping, unmapping, looking up

    The spaces in which the kernel runs ([space_ok]): the directory contains
    itself, the scratch table [pt_f] is mapped, and the free pages are not in
    use as tables. *)
From S2P Require Import Prelude I386Pmm I386Vmm I386Dir.
From S2P Require Pmm.
From stdpp Require Import base numbers option gmap list.
#[local] Open Scope Z_scope.

Section layout.
Context (l : layout).

(** The frame of [pt_f]. *)
Definition scratch : Z := pt_f l - 0xC0000000.

Record scratch_ok (m : gmap Z Z) (root : Z) : Prop := {
  sc_page : frame (pt_f l) ∧ 0xC0000000 ≤ pt_f l < PT;
  sc_map : translate32 m root (pt_f l) = Some scratch;
  sc_apart : apart m root scratch;
}.

Lemma scratch_frame m root : scratch_ok m root → frame scratch ∧ u32 scratch = scratch.
Proof. intros [[[? ?] ?] _ _]. unfold scratch, PT in *. split; [split; wrap_lia|apply u32_small; lia]. Qed.

Lemma lor_3 f : frame f → Z.lor f 3 = f + 3.
Proof. intros Hf. by apply lor_frame. Qed.

(** ** A clean page *)

(** With the scratch table in place of the directory's own entry, the page
    at the start of the tables is the new one. *)
Lemma window_stable m root p :
  words_ok m → frame root → frame p → frame scratch → root ≠ p → scratch ≠ p →
  pde m root 1023 = scratch + 3 → rd m scratch = p + 3 → stable m root PT p.
Proof.
  intros Hw Hr Hp Hs Hrp Hsp He Hs0 m' Hw' Ha o Ho.
  assert (∀ f j, frame f → f ≠ p → 0 ≤ j < 1024 → rd m' (f + 4 * j) = rd m (f + 4 * j)) as Hrd.
  { intros f j Hf Hne Hj. apply Ha. intros Hin. destruct Hf, Hp. unfold in_frame in Hin. apply Hne. wrap_lia. }
  destruct (entry32_of scratch 3 Hs ltac:(lia)) as (E1 & E2 & _), (entry32_of p 3 Hp ltac:(lia)) as (E3 & E4 & _).
  assert (pdindex (PT + o) = 1023 ∧ ptindex (PT + o) = 0 ∧ (PT + o) mod 4096 = o) as (Ei & Ej & Eo).
  { rewrite pdindex_div, ptindex_div. unfold PT. wrap_lia. }
  rewrite translate_alt by done. rewrite Ei, Ej, Eo. unfold table, pde. rewrite Hrd by (done || lia).
  fold (pde m root 1023). rewrite He, E1, E2. change (Z.testbit 3 0) with true. cbv iota zeta.
  pose proof (Hrd scratch 0 Hs Hsp ltac:(lia)) as H0. rewrite Z.mul_0_r, Z.add_0_r in H0. rewrite Z.mul_0_r, Z.add_0_r, H0, Hs0, E3, E4. done.
Qed.

Section clean.
Context (s : vmm32) (p : Z) (q : pool).
Context (Hok : dir_ok (ram s) (cr3 s)) (Hsc : scratch_ok (ram s) (cr3 s)) (Hal : pmm_alloc (vpool s) = Ok (p, q))
  (Hp : frame p) (Hap : apart (ram s) (cr3 s) p) (Hps : p ≠ scratch).
Let st (m : gmap Z Z) : vmm32 := set_vpool q (set_ram m s).

(** The memory while the scratch table is in place. *)
Record opened (m : gmap Z Z) : Prop := {
  op_words : words_ok m;
  op_self : pde m (cr3 s) 1023 = scratch + 3;
  op_first : rd m scratch = p + 3;
  op_last : rd m (scratch + 4 * 1023) = cr3 s + 3;
  op_other a : outside scratch a → a ≠ cr3 s + 4 * 1023 → rd m a = rd (ram s) a;
}.

Lemma clean_frames : frame scratch ∧ u32 scratch = scratch ∧ cr3 s ≠ p ∧ cr3 s ≠ scratch.
Proof.
  destruct (scratch_frame _ _ Hsc) as [Hsf Hu]. destruct (self_table _ _ Hok) as [Hself Ht]. split; [done|]. split; [done|].
  split; rewrite <- Ht at 1; [by apply Hap|by apply (sc_apart _ _ Hsc)].
Qed.

Lemma plus_3 f : frame f → 0 ≤ f + 3 < 2 ^ 32.
Proof. intros Hf. apply (entry32_of f 3 Hf). lia. Qed.

Lemma word_ne a b i j : frame a → frame b → a ≠ b → 0 ≤ i < 1024 → 0 ≤ j < 1024 → a + 4 * i ≠ b + 4 * j.
Proof. intros Ha Hb Hab Hi Hj E. by apply frame32_word in E as [? _]. Qed.

Lemma agree_insert m a w : agree (outside scratch) (ram s) m → in_frame scratch a → agree (outside scratch) (ram s) (<[a := w]> m).
Proof. intros H Ha b Hb. rewrite rd32_insert, decide_False; [by apply H|]. by intros ->. Qed.

Lemma scratch_open_run : ∃ m, scratch_open l s = Ok (cr3 s + 3, st m) ∧ opened m.
Proof.
  destruct clean_frames as (Hsf & Hu & Hrp & Hrs). pose proof Hsc as [[Hptf _] Hmap Hsa]. pose proof (do_root _ _ Hok) as Hr.
  pose proof (stable_dir _ _ _ _ Hok Hptf Hsf Hsa Hmap) as Hstb.
  destruct (zero_words_run s (pt_f l) scratch (do_words _ _ Hok) Hstb 1024) as (m1 & E1 & Hw1 & Ha1 & _); [lia|].
  set (m2 := <[scratch := p + 3]> m1). set (m3 := <[scratch + 4 * 1023 := cr3 s + 3]> m2). set (m4 := <[cr3 s + 4 * 1023 := scratch + 3]> m3).
  assert (words_ok m2) as Hw2 by (apply words_ok_insert, plus_3; done). assert (words_ok m3) as Hw3 by (apply words_ok_insert, plus_3; done).
  assert (agree (outside scratch) (ram s) m2) as Ha2 by (apply agree_insert; [done|unfold in_frame; lia]).
  assert (agree (outside scratch) (ram s) m3) as Ha3 by (apply agree_insert; [done|unfold in_frame; lia]).
  destruct (fill_frame _ _ _ _ Hok Hsf Hsa Hw2 Ha2) as (Hok2 & _ & _), (fill_frame _ _ _ _ Hok Hsf Hsa Hw3 Ha3) as (Hok3 & _ & _).
  exists m4. split.
  - unfold scratch_open. run E1.
    assert (on_pool pmm_alloc (set_ram m1 s) = Ok (p, st m1)) as Ea by (unfold on_pool, zoom; cbn; by rewrite Hal). run Ea.
    assert (∀ m w o, words_ok m → agree (outside scratch) (ram s) m → 0 ≤ o < 4096 → vstore32 (pt_f l + o) w (st m) = Ok (tt, st (<[scratch + o := w]> m))) as Hstore.
    { intros m w o Hw Ha Ho. apply (vstore_run _ _ w (st m)). by apply Hstb. }
    rewrite (lor_3 p) by done. fold scratch. rewrite Hu, (lor_3 scratch) by done.
    pose proof (Hstore m1 (p + 3) 0 Hw1 Ha1 ltac:(lia)) as E2. rewrite !Z.add_0_r in E2. run E2.
    assert (vload32 (pd_slot 1023) (st m2) = Ok (cr3 s + 3, st m2)) as E3.
    { rewrite (vload_run _ (cr3 s + 4 * 1023)); [|by apply translate_pd_slot]. do 2 f_equal. apply (do_self _ _ Hok2). }
    run E3. run (Hstore m2 (cr3 s + 3) (4 * 1023) Hw2 Ha2 ltac:(lia)).
    assert (vstore32 (pd_slot 1023) (scratch + 3) (st m3) = Ok (tt, st m4)) as E4 by (apply (vstore_run _ _ _ (st m3)); by apply translate_pd_slot).
    by run E4.
  - pose proof (word_ne _ _ 1023 0 Hr Hsf Hrs ltac:(lia) ltac:(lia)). pose proof (word_ne _ _ 1023 1023 Hr Hsf Hrs ltac:(lia) ltac:(lia)). split.
    + apply words_ok_insert, plus_3; done.
    + unfold pde, m4. by rewrite rd32_insert, decide_True.
    + unfold m4, m3, m2. rewrite !rd32_insert, !decide_False by lia. by rewrite decide_True.
    + unfold m4, m3. rewrite !rd32_insert, decide_False by lia. by rewrite decide_True.
    + intros a Ho Hne. unfold m4. rewrite rd32_insert, decide_False by done. by apply Ha3.
Qed.

Lemma scratch_close_run m :
  words_ok m → pde m (cr3 s) 1023 = scratch + 3 → rd m scratch = p + 3 → rd m (scratch + 4 * 1023) = cr3 s + 3 →
  (∀ a, outside p a → outside scratch a → a ≠ cr3 s + 4 * 1023 → rd m a = rd (ram s) a) →
  let m' := <[cr3 s + 4 * 1023 := cr3 s + 3]> m in
  scratch_close l (cr3 s + 3) (st m) = Ok (p, st m') ∧ agree (λ a, outside p a ∧ outside scratch a) (ram s) m'.
Proof.
  intros Hw Hself Hfirst Hlast Hother m'. destruct clean_frames as (Hsf & Hu & Hrp & Hrs). pose proof Hsc as [[Hptf _] Hmap Hsa]. pose proof (do_root _ _ Hok) as Hr.
  assert (agree (λ a, outside p a ∧ outside scratch a) (ram s) m') as Ha.
  { intros a [Ho1 Ho2]. unfold m'. rewrite rd32_insert. case_decide as Ea; [subst a; symmetry; apply (do_self _ _ Hok)|by apply Hother]. }
  split; [|done]. unfold scratch_close.
  assert (vstore32 (pd_slot 1023) (cr3 s + 3) (st m) = Ok (tt, st m')) as E6.
  { apply (vstore_run _ (cr3 s + 4 * 1023) _ (st m)).
    destruct (entry32_of scratch 3 Hsf ltac:(lia)) as (B1 & B2 & _), (entry32_of (cr3 s) 3 Hr ltac:(lia)) as (B3 & B4 & _).
    destruct (pd_slot_index 1023 ltac:(lia)) as (I1 & I2 & I3). rewrite land_fff in I3. cbn [ram st set_vpool set_ram cr3].
    rewrite translate_alt, I1, I2, I3 by done. unfold table. rewrite Hself, B1, B2. change (Z.testbit 3 0) with true. cbv iota zeta.
    by rewrite Hlast, B3, B4. }
  run E6.
  assert (vload32 (pt_f l) (st m') = Ok (p + 3, st m')) as E7.
  { rewrite (vload_run _ scratch).
    - do 2 f_equal. cbn. unfold m'. pose proof (word_ne _ _ 1023 0 Hr Hsf Hrs ltac:(lia) ltac:(lia)). by rewrite rd32_insert, decide_False by lia.
    - cbn. rewrite <- Hmap. apply agree_translate; [done|destruct Hptf; lia|]. intros a (i & j & Hi & Hj & Hpi & ->). apply Ha.
      pose proof (table_frame _ _ Hok i) as [? ?]. pose proof (Hap i Hi Hpi). pose proof (Hsa i Hi Hpi). destruct Hp, Hsf. unfold outside, in_frame. split; wrap_lia. }
  run E7. unfold mret, M_ret. do 2 f_equal. destruct (entry32_of p 3 Hp ltac:(lia)) as (B & _). exact B.
Qed.

Lemma alloc_clean_run :
  ∃ m, alloc_clean_page l s = Ok (p, set_vpool q (set_ram m s)) ∧ words_ok m ∧ (∀ j, 0 ≤ j < 1024 → rd m (p + 4 * j) = 0) ∧
    agree (λ a, outside p a ∧ outside scratch a) (ram s) m.
Proof.
  destruct clean_frames as (Hsf & Hu & Hrp & Hrs). pose proof (do_root _ _ Hok) as Hr.
  destruct scratch_open_run as (m4 & E4 & [Hw4 Hself Hfirst Hlast Hother]).
  destruct (zero_page_run (st m4) PT p Hw4 Hp (window_stable m4 (cr3 s) p Hw4 Hr Hp Hsf Hrp (not_eq_sym Hps) Hself Hfirst)) as (m5 & E5 & Hw5 & Ha5 & Hz5).
  assert (∀ f j, frame f → f ≠ p → 0 ≤ j < 1024 → rd m5 (f + 4 * j) = rd m4 (f + 4 * j)) as Hrd5.
  { intros f j Hf Hn Hj. apply Ha5. intros Hin. destruct Hf, Hp. unfold in_frame in Hin. apply Hn. wrap_lia. }
  pose proof (Hrd5 scratch 0 Hsf (not_eq_sym Hps) ltac:(lia)) as H0. rewrite Z.mul_0_r, Z.add_0_r in H0.
  destruct (scratch_close_run m5) as (E6 & Ha6); [done|unfold pde; by rewrite Hrd5|by rewrite H0|by rewrite Hrd5| |].
  { intros a Ho1 Ho2 Hne. rewrite (Ha5 a Ho1). by apply Hother. }
  exists (<[cr3 s + 4 * 1023 := cr3 s + 3]> m5). split; [|split; [|split; [|done]]].
  - unfold alloc_clean_page. run E4. run E5. exact E6.
  - apply words_ok_insert, plus_3; done.
  - intros j Hj. rewrite rd32_insert, decide_False; [by apply Hz5|]. by apply word_ne.
Qed.
End clean.

(** ** Spaces *)

Record space_ok (total stk : list Z) (s : vmm32) : Prop := {
  so_pool : pool_ok total stk (vpool s);
  so_dir : dir_ok (ram s) (cr3 s);
  so_scratch : scratch_ok (ram s) (cr3 s);
  so_free p : p ∈ stk → apart (ram s) (cr3 s) p ∧ p ≠ scratch;
}.

(** Words that belong to the directory, its tables or the scratch table. *)
Definition table_memory (s : vmm32) (a : Z) : Prop :=
  in_frame scratch a ∨ ∃ i, 0 ≤ i < 1024 ∧ present (ram s) (cr3 s) i ∧ in_frame (table (ram s) (cr3 s) i) a.

(** What changing the mappings of the current directory leaves alone. *)
Record space_step (total stk : list Z) (s : vmm32) (stk' : list Z) (s' : vmm32) : Prop := {
  ss_ok : space_ok total stk' s';
  ss_cr3 : cr3 s' = cr3 s ∧ current_pd s' = current_pd s;
  ss_stk : stk' `prefix_of` stk;
  ss_pde i : 0 ≤ i < 1024 → present (ram s) (cr3 s) i → pde (ram s') (cr3 s) i = pde (ram s) (cr3 s) i;
  ss_apart f : apart (ram s) (cr3 s) f → f ∉ stk → apart (ram s') (cr3 s) f;
  ss_memory a : ¬ table_memory s' a → rd (ram s') a = rd (ram s) a;
}.

Lemma ss_present total stk s stk' s' :
  space_step total stk s stk' s' → ∀ i, 0 ≤ i < 1024 → present (ram s) (cr3 s) i →
  present (ram s') (cr3 s) i ∧ table (ram s') (cr3 s) i = table (ram s) (cr3 s) i.
Proof. intros H i Hi Hp. unfold present, table. by rewrite (ss_pde _ _ _ _ _ H). Qed.

Lemma space_step_trans total k0 s0 k1 s1 k2 s2 : space_step total k0 s0 k1 s1 → space_step total k1 s1 k2 s2 → space_step total k0 s0 k2 s2.
Proof.
  intros S1 S2. pose proof (ss_present _ _ _ _ _ S1) as T1. pose proof (ss_present _ _ _ _ _ S2) as T2.
  destruct S1 as [H1 [C1 D1] P1 E1 A1 M1], S2 as [H2 [C2 D2] P2 E2 A2 M2]. rewrite C1 in T2, A2, E2. split; [done|split; congruence|by etransitivity| | |].
  - intros i Hi Hp. destruct (T1 i Hi Hp) as [Hp1 _]. by rewrite E2, E1.
  - intros f Hf Hn. apply A2; [by apply A1|]. intros Hin. apply Hn. destruct P1 as [k ->]. apply elem_of_app. by left.
  - intros a Ha. rewrite M2 by done. apply M1. intros [Hs|(i & Hi & Hp & Hin)]; apply Ha; [by left|].
    rewrite C1 in Hp, Hin. destruct (T2 i Hi Hp) as [? Et2]. right. exists i. rewrite C2, C1, Et2. done.
Qed.

Lemma space_step_refl total stk s : space_ok total stk s → space_step total stk s stk s.
Proof. intros H. by split. Qed.

Lemma scratch_keep m m' root :
  scratch_ok m root → apart m' root scratch → translate32 m' root (pt_f l) = translate32 m root (pt_f l) → scratch_ok m' root.
Proof. intros [Hp Hm Ha] Hap E. split; [done|by rewrite E|done]. Qed.

Lemma pt_f_index m root : scratch_ok m root → 0 ≤ pt_f l < 2 ^ 32 ∧ pdindex (pt_f l) < 1023.
Proof. intros [[[Hr Hm] Hlt] _ _]. unfold PT in Hlt. rewrite pdindex_div. split; wrap_lia. Qed.

(** A store to an entry of a table that does not unmap [pt_f]. *)
Lemma store_pte_space total stk s i j e :
  space_ok total stk s → 0 ≤ i < 1023 → 0 ≤ j < 1024 → present (ram s) (cr3 s) i → 0 ≤ e < 2 ^ 32 →
  ¬ (pdindex (pt_f l) = i ∧ ptindex (pt_f l) = j) →
  let s' := set_ram (<[table (ram s) (cr3 s) i + 4 * j := e]> (ram s)) s in
  space_step total stk s stk s' ∧
  ∀ v, 0 ≤ v < 2 ^ 32 → pdindex v < 1023 →
    translate32 (ram s') (cr3 s') v = if decide (pdindex v = i ∧ ptindex v = j)
                          then if Z.testbit e 0 then Some (page_of e + v mod 4096) else None else translate32 (ram s) (cr3 s) v.
Proof.
  intros [Hpool Hdir Hsc Hfree] Hi Hj Hp He Hn s'. destruct (store_pte _ _ Hdir i j e Hi Hj Hp He) as (Hdir' & Epde & Htr).
  assert (∀ f, apart (ram s) (cr3 s) f → apart (ram s') (cr3 s) f) as Hap.
  { intros f Hf k Hk. unfold present, table. cbn. rewrite Epde by done. by apply Hf. }
  destruct (pt_f_index _ _ Hsc) as [Hv1 Hv2]. split; [|done]. split; [split; cbn; try done| |done| | |].
  - apply (scratch_keep (ram s)); [done|apply Hap, Hsc|]. rewrite Htr by done. by rewrite decide_False.
  - intros p Hpin. destruct (Hfree p Hpin). split; [by apply Hap|done].
  - done.
  - intros k Hk Hpk. cbn. by rewrite Epde.
  - intros f Hf _. cbn. by apply Hap.
  - intros a Ha. cbn. rewrite rd32_insert, decide_False; [done|]. intros <-. apply Ha. right. exists i. unfold present, table. cbn.
    rewrite Epde by lia. split; [lia|]. split; [done|]. unfold in_frame, table. lia.
Qed.

Lemma unmapped_entry m root v :
  dir_ok m root → 0 ≤ v < 2 ^ 32 → present m root (pdindex v) → translate32 m root v = None → Z.testbit (rd m (table m root (pdindex v) + 4 * ptindex v)) 0 = false.
Proof.
  intros Hok Hv Hp. rewrite translate_alt by apply Hok. unfold present in Hp. rewrite Hp. cbv zeta. by destruct (Z.testbit (rd _ _) 0).
Qed.

(** The entry that [map_page] writes. *)
Lemma map_entry phys flags :
  frame phys → let e := Z.lor (Z.lor phys (Z.land flags 0xFFF)) 1 in 0 ≤ e < 2 ^ 32 ∧ Z.testbit e 0 = true ∧ page_of e = phys.
Proof.
  intros Hf e. destruct (flags_bits flags) as [Hr _]. assert (0 ≤ Z.lor (Z.land flags 0xFFF) 1 < 4096) as Hx by (apply (lor_range _ _ 12); lia).
  assert (e = phys + Z.lor (Z.land flags 0xFFF) 1) as -> by (unfold e; rewrite <- Z.lor_assoc; by apply lor_frame).
  destruct (entry32_of phys _ Hf Hx) as (E1 & E2 & E3). split; [done|]. split; [|done]. rewrite E2, Z.lor_spec. apply orb_true_r.
Qed.

(** The translations of a space in which the page at [v] is mapped to [f],
    or to nothing. *)
Definition remapped (s s' : vmm32) (v : Z) (f : option Z) : Prop :=
  ∀ u, 0 ≤ u < 2 ^ 32 → pdindex u < 1023 →
    translate32 (ram s') (cr3 s') u = if decide (u / 4096 * 4096 = v) then (λ f, f + u mod 4096) <$> f else translate32 (ram s) (cr3 s) u.

Lemma decide_page u v : 0 ≤ u < 2 ^ 32 → frame v → (pdindex u = pdindex v ∧ ptindex u = ptindex v) ↔ u / 4096 * 4096 = v.
Proof. intros Hu Hv. split; [intros [? ?]; by apply index_page|apply page_index_of]. Qed.

(** ** Mapping *)

(** The two halves of [map_page]: the table, and the entry. *)
Definition ensure_table (i flags : Z) : M vmm32 () :=
  e ← vload32 (pd_slot i);
  if negb (has e 0x1) then p ← alloc_clean_page l; vstore32 (pd_slot i) (Z.lor p (Z.land flags 0xFFF)) else mret tt.
Definition enter_page (phys v flags : Z) : M vmm32 () :=
  e ← vload32 (pt_slot (pdindex v) (ptindex v));
  if has e 0x1 then mret tt
  else vstore32 (pt_slot (pdindex v) (ptindex v)) (Z.lor (Z.lor phys (Z.land flags 0xFFF)) 0x1).

Lemma map_page_halves phys v flags s :
  frame phys → frame v → map_page l phys v flags s = (ensure_table (pdindex v) flags;; enter_page phys v flags) s.
Proof.
  intros [_ Hp] [_ Hv]. unfold map_page, ensure_table, enter_page. rewrite !has_fff, Hp, Hv. cbn [Z.eqb negb orb].
  cbv [mbind M_bind]. by destruct (vload32 _ s) as [[e s']| | |].
Qed.

Lemma page_below v : frame v → v < PT → 0 ≤ pdindex v < 1023 ∧ 0 ≤ ptindex v < 1024.
Proof. intros [Hv _] Hlt. destruct (index_range v Hv). unfold PT in Hlt. split; [|done]. rewrite pdindex_div in *. wrap_lia. Qed.

Lemma enter_page_run total stk s phys v flags :
  space_ok total stk s → frame phys → frame v → v < PT → present (ram s) (cr3 s) (pdindex v) → translate32 (ram s) (cr3 s) v = None →
  ∃ s', enter_page phys v flags s = Ok (tt, s') ∧ space_step total stk s stk s' ∧
    (∃ e, s' = set_ram (<[table (ram s) (cr3 s) (pdindex v) + 4 * ptindex v := e]> (ram s)) s) ∧ remapped s s' v (Some phys).
Proof.
  intros Hs Hf Hv Hlt Hp Htr. destruct (page_below v Hv Hlt) as [Hi Hj]. pose proof (so_dir _ _ _ Hs) as Hdir.
  destruct (map_entry phys flags Hf) as (He & Hb & Hpg). set (e := Z.lor (Z.lor phys _) 1) in *.
  pose proof (translate_pt_slot _ _ Hdir (pdindex v) (ptindex v) ltac:(lia) Hj Hp) as Hslot.
  pose proof (unmapped_entry _ _ _ Hdir (proj1 Hv) Hp Htr) as Hold.
  destruct (store_pte_space total stk s (pdindex v) (ptindex v) e Hs Hi Hj Hp He) as [Hstep Hre].
  { intros [E1 E2]. destruct (pt_f_index _ _ (so_scratch _ _ _ Hs)) as [Hr _]. pose proof (index_page _ _ Hr Hv E1 E2) as E.
    pose proof (sc_map _ _ (so_scratch _ _ _ Hs)) as Hm. destruct (sc_page _ _ (so_scratch _ _ _ Hs)) as [[_ Hal] _].
    assert (pt_f l = v) as Ev by wrap_lia. rewrite Ev in Hm. congruence. }
  eexists. split; [|split; [exact Hstep|split; [by eexists|]]].
  - unfold enter_page. run (vload_run _ _ _ Hslot). rewrite has_1, Hold. exact (vstore_run _ _ e _ Hslot).
  - intros u Hu Hpd. rewrite Hre by done. destruct (decide (u / 4096 * 4096 = v)) as [Eu|Eu].
    + rewrite decide_True by by apply decide_page. by rewrite Hb, Hpg.
    + rewrite decide_False; [done|]. by rewrite decide_page.
Qed.

(** A new table takes the next free page. *)
Lemma ensure_table_new total stk p s i flags :
  space_ok total (stk ++ [p]) s → 0 ≤ i < 1023 → ¬ present (ram s) (cr3 s) i → Z.testbit flags 0 = true →
  ∃ s', ensure_table i flags s = Ok (tt, s') ∧ space_step total (stk ++ [p]) s stk s' ∧ present (ram s') (cr3 s') i ∧
    ∀ u, 0 ≤ u < 2 ^ 32 → pdindex u < 1023 → translate32 (ram s') (cr3 s') u = translate32 (ram s) (cr3 s) u.
Proof.
  intros [Hpool Hdir Hsc Hfree] Hi Hn Hfl. destruct (alloc_run _ _ _ _ Hpool) as (q & Hal & Hpool' & _).
  assert (p ∈ stk ++ [p]) as Hpin by (apply elem_of_app; right; by apply list_elem_of_singleton).
  destruct (Hfree p Hpin) as [Hap Hps]. pose proof (pool_ok_frame _ _ _ p Hpool (po_in _ _ _ Hpool _ Hpin)) as Hpf.
  destruct (alloc_clean_run s p q Hdir Hsc Hal Hpf Hap Hps) as (m & E & Hw & Hz & Ha).
  destruct (flags_bits flags) as [Hx Hx0]. rewrite Hfl in Hx0. set (x := Z.land flags 0xFFF) in *. destruct (scratch_frame _ _ Hsc) as [Hsf _].
  assert (agree (table_word (ram s) (cr3 s)) (ram s) m) as Ht.
  { intros a Haw. apply Ha. destruct Haw as (k & j & Hk & Hj & Hpk & ->). pose proof (table_frame _ _ Hdir k) as [? ?].
    pose proof (Hap k Hk Hpk). pose proof (sc_apart _ _ Hsc k Hk Hpk). destruct Hpf, Hsf. unfold outside, in_frame. split; wrap_lia. }
  pose proof (agree_dir _ _ Hdir m Hw Ht) as Hdirm.
  assert (∀ k, 0 ≤ k < 1024 → pde m (cr3 s) k = pde (ram s) (cr3 s) k) as Epde by (intros k Hk; by apply Ht, root_word).
  assert (∀ f, apart (ram s) (cr3 s) f → apart m (cr3 s) f) as Hapm by (intros f Hf; exact (apart_agree _ _ _ _ Hdir Ht Hf)).
  destruct (store_pde m (cr3 s) Hdirm i p x Hi) as (Hd' & Hpi & Htab & Hpres & Htr); [unfold present in *; rewrite Epde by lia; done|done|done|done|by apply Hapm|done|].
  set (m' := <[cr3 s + 4 * i := p + x]> m) in *.
  assert (∀ f, f ≠ p → apart (ram s) (cr3 s) f → apart m' (cr3 s) f) as Hapm'.
  { intros f Hne Hf k Hk Hpk. rewrite Htab by done. case_decide; [congruence|]. apply Hapm; [done|done|]. by apply Hpres. }
  assert (∀ u, 0 ≤ u < 2 ^ 32 → pdindex u < 1023 → translate32 m' (cr3 s) u = translate32 (ram s) (cr3 s) u) as Htr'.
  { intros u Hu Hpd. rewrite Htr by done. by apply agree_translate. }
  destruct (pt_f_index _ _ Hsc) as [Hv1 Hv2]. pose proof (po_nodup _ _ _ Hpool) as Hnd. apply NoDup_app in Hnd as (_ & Hni & _).
  exists (set_ram m' (set_vpool q (set_ram m s))). split; [|split; [|split; [done|exact Htr']]].
  - unfold ensure_table. run (vload_run _ _ _ (translate_pd_slot _ _ Hdir i ltac:(lia))). rewrite has_1.
    unfold present, pde in Hn. apply not_true_is_false in Hn. rewrite Hn. cbn [negb]. run E. fold x. rewrite (lor_frame p x) by done.
    apply (vstore_run _ (cr3 s + 4 * i) _ (set_vpool q (set_ram m s))). apply (translate_pd_slot _ _ Hdirm i). lia.
  - split; [split; cbn; [done|done| |]|done|by eexists| | |]; cbn.
    + apply (scratch_keep (ram s)); [done|apply Hapm'; [done|apply Hsc]|by apply Htr'].
    + intros r Hr. destruct (Hfree r) as [Hr1 Hr2]; [apply elem_of_app; by left|]. split; [|done]. apply Hapm'; [|done].
      intros ->. apply (Hni p Hr). by apply list_elem_of_singleton.
    + intros k Hk Hpk. assert (k ≠ i) by (intros ->; done). unfold pde, m'. rewrite rd32_insert, decide_False by lia. by apply Epde.
    + intros f Hf Hnf. apply Hapm'; [|done]. intros ->. by apply Hnf.
    + intros a Hna. unfold m'. rewrite rd32_insert, decide_False.
      * apply Ha. split; intros Hin; apply Hna; [|by left]. right. exists i. cbn. split; [lia|]. split; [done|]. rewrite Htab by lia. by rewrite decide_True.
      * intros <-. apply Hna. right. exists 1023. cbn. destruct (self_table _ _ Hd') as [? E1]. rewrite E1. split; [lia|]. split; [done|]. unfold in_frame. lia.
Qed.

Lemma ensure_table_old s i flags : dir_ok (ram s) (cr3 s) → 0 ≤ i < 1023 → present (ram s) (cr3 s) i → ensure_table i flags s = Ok (tt, s).
Proof.
  intros Hdir Hi Hp. unfold ensure_table. run (vload_run _ _ _ (translate_pd_slot _ _ Hdir i ltac:(lia))).
  rewrite has_1. unfold present, pde in Hp. by rewrite Hp.
Qed.

Lemma ensure_table_hang total s i flags :
  space_ok total [] s → 0 ≤ i < 1023 → ¬ present (ram s) (cr3 s) i → ensure_table i flags s = Hang.
Proof.
  intros [Hpool Hdir Hsc _] Hi Hn. unfold ensure_table. run (vload_run _ _ _ (translate_pd_slot _ _ Hdir i ltac:(lia))).
  rewrite has_1. unfold present, pde in Hn. apply not_true_is_false in Hn. rewrite Hn. cbn [negb].
  pose proof Hsc as [[Hptf _] Hmap Hsa]. destruct (scratch_frame _ _ Hsc) as [Hsf _].
  destruct (zero_words_run s (pt_f l) scratch (do_words _ _ Hdir) (stable_dir _ _ _ _ Hdir Hptf Hsf Hsa Hmap) 1024) as (m1 & E1 & _); [lia|].
  unfold alloc_clean_page, scratch_open. cbv [mbind M_bind] in *. rewrite E1. unfold on_pool, zoom. cbn [vpool set_ram].
  by rewrite (alloc_empty _ _ Hpool).
Qed.

Lemma map_page_run total stk s phys v flags :
  space_ok total stk s → frame phys → frame v → v < PT → Z.testbit flags 0 = true → translate32 (ram s) (cr3 s) v = None →
  present (ram s) (cr3 s) (pdindex v) ∨ stk ≠ [] →
  ∃ stk' s', map_page l phys v flags s = Ok (tt, s') ∧ space_step total stk s stk' s' ∧ remapped s s' v (Some phys) ∧ present (ram s') (cr3 s') (pdindex v) ∧
    (length stk ≤ S (length stk'))%nat.
Proof.
  intros Hs Hf Hv Hlt Hfl Htr Hor. destruct (page_below v Hv Hlt) as [Hi Hj].
  assert (∃ stk1 s1, ensure_table (pdindex v) flags s = Ok (tt, s1) ∧ space_step total stk s stk1 s1 ∧ present (ram s1) (cr3 s1) (pdindex v) ∧
    (∀ u, 0 ≤ u < 2 ^ 32 → pdindex u < 1023 → translate32 (ram s1) (cr3 s1) u = translate32 (ram s) (cr3 s) u) ∧ (length stk ≤ S (length stk1))%nat) as (stk1 & s1 & E1 & St1 & Hp1 & Tr1 & Hlen).
  { destruct (decide (Z.testbit (pde (ram s) (cr3 s) (pdindex v)) 0 = true)) as [Hp|Hn].
    - exists stk, s. split; [by apply ensure_table_old; [apply Hs|..]|]. split; [by apply space_step_refl|]. split; [done|]. split; [done|lia].
    - destruct Hor as [|Hne]; [done|]. induction stk as [|p stk' _] using rev_ind; [done|].
      destruct (ensure_table_new total stk' p s (pdindex v) flags Hs Hi Hn Hfl) as (s1 & ? & ? & ? & ?). exists stk', s1. rewrite length_app. cbn [length]. split_and!; done || lia. }
  destruct (ss_cr3 _ _ _ _ _ St1) as [Ecr _].
  destruct (enter_page_run total stk1 s1 phys v flags) as (s2 & E2 & St2 & Epool & Hre); [apply St1|done..|rewrite Tr1; [done|apply Hv|lia]|].
  exists stk1, s2. rewrite map_page_halves by done. run E1. split; [done|]. split; [by eapply space_step_trans|]. split.
  - intros u Hu Hpd. rewrite Hre by done. by rewrite Tr1.
  - destruct (ss_cr3 _ _ _ _ _ St2) as [Ecr2 _]. rewrite Ecr2. split; [|done]. by apply (ss_present _ _ _ _ _ St2); [lia|].
Qed.

(** C23. [map_page] in a space that contains itself. A page that is mapped is
    left as it is. A page that is not mapped is mapped to the given frame,
    with a new, empty table if it needs one; no other translation below the
    tables changes, no word outside of the tables and of the scratch table
    changes, and the space stays well-formed. Without a page for a table it
    never returns. *)
Theorem i386_map_page_spec (total stk : list Z) (s : vmm32) (phys v flags : Z) :
  space_ok total stk s → frame phys → frame v → v < PT → Z.testbit flags 0 = true →
  match translate32 (ram s) (cr3 s) v with
  | Some _ => map_page l phys v flags s = Ok (tt, s)
  | None => (¬ present (ram s) (cr3 s) (pdindex v) ∧ stk = [] → map_page l phys v flags s = Hang) ∧
      (present (ram s) (cr3 s) (pdindex v) ∨ stk ≠ [] →
        ∃ stk' s', map_page l phys v flags s = Ok (tt, s') ∧ space_step total stk s stk' s' ∧ remapped s s' v (Some phys))
  end.
Proof.
  intros Hs Hf Hv Hlt Hfl. destruct (page_below v Hv Hlt) as [Hi Hj]. pose proof (so_dir _ _ _ Hs) as Hdir.
  destruct (translate32 (ram s) (cr3 s) v) as [a|] eqn:Htr; [|split].
  - rewrite translate_alt in Htr by apply Hdir. destruct (Z.testbit (pde _ _ _) 0) eqn:Hp; [|done]. cbv zeta in Htr.
    destruct (Z.testbit (rd _ _) 0) eqn:He; [|done]. rewrite map_page_halves by done. run (ensure_table_old s (pdindex v) flags Hdir Hi Hp).
    unfold enter_page. run (vload_run _ _ _ (translate_pt_slot _ _ Hdir (pdindex v) (ptindex v) ltac:(lia) Hj Hp)). by rewrite has_1, He.
  - intros [Hn ->]. rewrite map_page_halves by done. cbv [mbind M_bind]. by rewrite (ensure_table_hang total s (pdindex v) flags).
  - intros Hor. destruct (map_page_run total stk s phys v flags) as (stk' & s' & ? & ? & ? & _); [done..|]. by exists stk', s'.
Qed.

(** ** Unmapping *)

Lemma unmap_page_run total stk s v :
  space_ok total stk s → frame v → v < PT → v ≠ pt_f l → present (ram s) (cr3 s) (pdindex v) →
  unmap_page v s = Ok (tt, set_ram (<[table (ram s) (cr3 s) (pdindex v) + 4 * ptindex v := 0]> (ram s)) s) ∧
  let s' := set_ram (<[table (ram s) (cr3 s) (pdindex v) + 4 * ptindex v := 0]> (ram s)) s in
  space_step total stk s stk s' ∧ remapped s s' v None.
Proof.
  intros Hs Hv Hlt Hne Hp. destruct (page_below v Hv Hlt) as [Hi Hj]. pose proof (so_dir _ _ _ Hs) as Hdir. split.
  - unfold unmap_page. rewrite has_fff, (proj2 Hv). cbn [Z.eqb negb]. run (vload_run _ _ _ (translate_pd_slot _ _ Hdir (pdindex v) ltac:(lia))).
    apply vstore_run. by apply translate_pt_slot; [|lia|..].
  - destruct (store_pte_space total stk s (pdindex v) (ptindex v) 0 Hs Hi Hj Hp ltac:(lia)) as [Hst Hre].
    { intros [E1 E2]. destruct (pt_f_index _ _ (so_scratch _ _ _ Hs)) as [Hr _]. pose proof (index_page _ _ Hr Hv E1 E2) as E.
      destruct (sc_page _ _ (so_scratch _ _ _ Hs)) as [[_ Hal] _]. apply Hne. wrap_lia. }
    split; [done|]. intros u Hu Hpd. rewrite Hre by done.
    destruct (decide (u / 4096 * 4096 = v)) as [Eu|Eu]; [rewrite decide_True; [done|by apply decide_page]|].
    rewrite decide_False; [done|]. by rewrite decide_page.
Qed.

(** [unmap_page] removes one translation and keeps the rest, the pool and
    the space; but when the page has no table it only prints a message before
    it stores to the missing table, which is a page fault. *)
Theorem i386_unmap_page_spec (total stk : list Z) (s : vmm32) (v : Z) :
  space_ok total stk s → frame v → v < PT → v ≠ pt_f l →
  (present (ram s) (cr3 s) (pdindex v) →
    ∃ s', unmap_page v s = Ok (tt, s') ∧ space_step total stk s stk s' ∧ vpool s' = vpool s ∧ remapped s s' v None) ∧
  (¬ present (ram s) (cr3 s) (pdindex v) → unmap_page v s = Fault).
Proof.
  intros Hs Hv Hlt Hne. destruct (page_below v Hv Hlt) as [Hi Hj]. pose proof (so_dir _ _ _ Hs) as Hdir. split.
  - intros Hp. destruct (unmap_page_run total stk s v Hs Hv Hlt Hne Hp) as (E & Hst & Hre). eexists. split; [exact E|]. done.
  - intros Hn. unfold unmap_page. rewrite has_fff, (proj2 Hv). cbn [Z.eqb negb]. run (vload_run _ _ _ (translate_pd_slot _ _ Hdir (pdindex v) ltac:(lia))).
    unfold vstore32. destruct (self_table _ _ Hdir) as [Hsp Hst]. destruct (pt_slot_index (pdindex v) (ptindex v) ltac:(lia) Hj) as (I1 & I2 & I3).
    rewrite translate_alt, I1, I2, Hsp, Hst by apply Hdir. unfold present in Hn. apply not_true_is_false in Hn. cbv zeta.
    fold (pde (ram s) (cr3 s) (pdindex v)). by rewrite Hn.
Qed.

(** Unmapping the page that was just mapped leaves every translation as it
    was before. *)
Theorem i386_map_unmap_roundtrip (total stk : list Z) (s : vmm32) (phys v flags : Z) :
  space_ok total stk s → frame phys → frame v → v < PT → Z.testbit flags 0 = true → translate32 (ram s) (cr3 s) v = None →
  present (ram s) (cr3 s) (pdindex v) ∨ stk ≠ [] →
  ∃ s', (map_page l phys v flags;; unmap_page v) s = Ok (tt, s') ∧
    ∀ u, 0 ≤ u < 2 ^ 32 → pdindex u < 1023 → translate32 (ram s') (cr3 s') u = translate32 (ram s) (cr3 s) u.
Proof.
  intros Hs Hf Hv Hlt Hfl Htr Hor. destruct (map_page_run total stk s phys v flags) as (stk1 & s1 & E1 & St1 & Re1 & Hp1 & _); [done..|].
  assert (v ≠ pt_f l) as Hne by (intros ->; rewrite (sc_map _ _ (so_scratch _ _ _ Hs)) in Htr; done).
  destruct (unmap_page_run total stk1 s1 v (ss_ok _ _ _ _ _ St1) Hv Hlt Hne Hp1) as (E2 & St2 & Re2).
  eexists. run E1. split; [exact E2|]. intros u Hu Hpd. rewrite Re2 by done. case_decide as Eu; [|rewrite Re1 by done; by rewrite decide_False].
  cbn. destruct (page_index_of u v Eu) as [E1' E2']. rewrite !translate_alt in Htr |- * by apply Hs. rewrite E1', E2'. unfold table in *.
  destruct (Z.testbit (pde (ram s) (cr3 s) (pdindex v)) 0); [|done]. cbv zeta in *. by destruct (Z.testbit (rd _ _) 0).
Qed.

(** ** Looking into other directories *)

Definition window_slot (s : vmm32) : Z := table (ram s) (cr3 s) (pdindex WINDOW) + 4 * ptindex WINDOW.

(** The window has a table, and its entry is empty. *)
Definition window_ready (s : vmm32) : Prop := present (ram s) (cr3 s) (pdindex WINDOW) ∧ rd (ram s) (window_slot s) = 0.

(** Two states with the same words, registers and pool. *)
Record same_words (s s' : vmm32) : Prop := {
  sw_regs : cr3 s' = cr3 s ∧ current_pd s' = current_pd s ∧ vpool s' = vpool s;
  sw_rd a : rd (ram s') a = rd (ram s) a;
}.

Lemma same_words_trans s1 s2 s3 : same_words s1 s2 → same_words s2 s3 → same_words s1 s3.
Proof. intros [(A1 & B1 & C1) R1] [(A2 & B2 & C2) R2]. split; [split_and!; congruence|]. intros a. by rewrite R2. Qed.

Lemma same_words_window s s' : same_words s s' → window_ready s → window_ready s' ∧ window_slot s' = window_slot s.
Proof.
  intros [(E & _) Hr] [Hp H0]. assert (∀ i, pde (ram s') (cr3 s') i = pde (ram s) (cr3 s) i) as Ep by (intros i; unfold pde; by rewrite E).
  assert (window_slot s' = window_slot s) as Es by (unfold window_slot, table; by rewrite Ep). split; [|done].
  split; [unfold present; by rewrite Ep|]. by rewrite Es, Hr.
Qed.

Lemma peek_word_run total stk s page index :
  space_ok total stk s → window_ready s → frame page → 0 ≤ index < 1024 → page + 4 * index ≠ window_slot s → pt_f l ≠ WINDOW →
  ∃ s', peek_word l page index s = Ok (rd (ram s) (page + 4 * index), s') ∧ space_ok total stk s' ∧ same_words s s'.
Proof.
  intros Hs [Hp H0] Hf Hi Hne Hpf. assert (frame WINDOW) as Hw by (split; [unfold WINDOW; lia|reflexivity]). assert (WINDOW < PT) as Hlt by (unfold WINDOW, PT; lia).
  destruct (page_below WINDOW Hw Hlt) as [Hi' Hj']. pose proof (so_dir _ _ _ Hs) as Hdir. fold (window_slot s) in *.
  assert (translate32 (ram s) (cr3 s) WINDOW = None) as Htr.
  { rewrite translate_alt by apply Hdir. unfold present in Hp. rewrite Hp. cbv zeta. fold (window_slot s). by rewrite H0. }
  destruct (enter_page_run total stk s page WINDOW 0x3 Hs Hf Hw Hlt Hp Htr) as (s1 & E1 & St1 & (e & Es1) & Re1).
  destruct (ss_present _ _ _ _ _ St1 (pdindex WINDOW) ltac:(lia) Hp) as [Hp1 Et1]. destruct (ss_cr3 _ _ _ _ _ St1) as [Ec1 _]. rewrite <- Ec1 in Hp1.
  destruct (unmap_page_run total stk s1 WINDOW (ss_ok _ _ _ _ _ St1) Hw Hlt (not_eq_sym Hpf) Hp1) as (E2 & St2 & _).
  rewrite Ec1, Et1 in E2, St2. fold (window_slot s) in Es1, E2, St2.
  eexists. split; [|split; [apply St2|]].
  - unfold peek_word. assert (map_page l page WINDOW 0x3 s = Ok (tt, s1)) as Em by (rewrite map_page_halves by done; by run (ensure_table_old s (pdindex WINDOW) 0x3 Hdir Hi' Hp)).
    run Em. assert (translate32 (ram s1) (cr3 s1) (WINDOW + 4 * index) = Some (page + 4 * index)) as Hl.
    { rewrite Re1.
      - unfold WINDOW. rewrite decide_True by wrap_lia. cbn. f_equal. wrap_lia.
      - unfold WINDOW. lia.
      - unfold WINDOW. rewrite pdindex_div. wrap_lia. }
    run (vload_run _ _ _ Hl). run E2. rewrite Es1. cbn. unfold mret, M_ret. by rewrite rd32_insert, decide_False by congruence.
  - subst s1. split; [done|]. intros a. cbn. rewrite !rd32_insert. case_decide as Ea; [by rewrite <- Ea|done].
Qed.

(** What [get_phys] looks for: an entry with any flag counts as present. *)
Definition phys_of (m : gmap Z Z) (pd v : Z) : Z :=
  let e := rd m (pd + 4 * pdindex v) in
  if negb (has e 0xFFF) then 0
  else
    let e' := rd m (page_of e + 4 * ptindex v) in
    if negb (has e' 0xFFF) then 0 else page_of e' + v mod 4096.

Lemma has_fff_bit0 e : Z.testbit e 0 = true → has e 0xFFF = true.
Proof. intros H. rewrite has_fff. rewrite Z.bit0_odd in H. destruct (Z.eqb_spec (e mod 4096) 0) as [E|]; [|done]. apply Z.odd_spec in H as [k ->]. wrap_lia. Qed.

Lemma translate_phys_of m pd v a : frame pd → translate32 m pd v = Some a → phys_of m pd v = a.
Proof.
  intros Hf. rewrite translate_alt by done. unfold phys_of, table, pde. cbv zeta.
  destruct (Z.testbit (rd m (pd + 4 * pdindex v)) 0) eqn:E1; [|done]. rewrite (has_fff_bit0 _ E1). cbn [negb].
  destruct (Z.testbit (rd m (page_of (rd m (pd + 4 * pdindex v)) + 4 * ptindex v)) 0) eqn:E2; [|done]. rewrite (has_fff_bit0 _ E2). by intros [= <-].
Qed.

(** [get_phys] reads the tables of any directory through its window: it
    returns what they say (the physical address, for every address that is
    mapped there), and afterwards every word of memory, the registers and
    the pool are as before. *)
Theorem i386_get_phys_spec (total stk : list Z) (s : vmm32) (pd v : Z) :
  space_ok total stk s → window_ready s → pt_f l ≠ WINDOW → frame pd → 0 ≤ v < 2 ^ 32 →
  pd + 4 * pdindex v ≠ window_slot s → table (ram s) pd (pdindex v) + 4 * ptindex v ≠ window_slot s →
  ∃ s', get_phys l pd v s = Ok (phys_of (ram s) pd v, s') ∧ space_ok total stk s' ∧ same_words s s' ∧
    ∀ a, translate32 (ram s) pd v = Some a → phys_of (ram s) pd v = a.
Proof.
  intros Hs Hw Hpf Hf Hv Hn1 Hn2. destruct (index_range v Hv) as [Hi Hj].
  destruct (peek_word_run total stk s pd (pdindex v) Hs Hw Hf Hi Hn1 Hpf) as (s1 & E1 & Hs1 & Hsw1).
  assert (∀ a, translate32 (ram s) pd v = Some a → phys_of (ram s) pd v = a) as Htr by (intros a; by apply translate_phys_of).
  unfold get_phys. rewrite (bind_run _ _ _ _ _ E1). unfold phys_of in Htr |- *. cbv zeta in Htr |- *. set (e := rd (ram s) (pd + 4 * pdindex v)) in *.
  destruct (negb (has e 0xFFF)); [by exists s1|].
  destruct (same_words_window _ _ Hsw1 Hw) as [Hw1 Ew1].
  destruct (peek_word_run total stk s1 (page_of e) (ptindex v) Hs1 Hw1) as (s2 & E2 & Hs2 & Hsw2);
    [apply frame_page_of, (do_words _ _ (so_dir _ _ _ Hs))|done|by rewrite Ew1|done|].
  change (Z.land e 0xFFFFF000) with (page_of e). rewrite (bind_run _ _ _ _ _ E2). rewrite (sw_rd _ _ Hsw1).
  pose proof (same_words_trans _ _ _ Hsw1 Hsw2) as Hsw. set (e' := rd (ram s) (page_of e + 4 * ptindex v)) in *.
  exists s2. destruct (negb (has e' 0xFFF)); [done|]. split; [|done]. unfold mret, M_ret. do 2 f_equal.
  change (Z.land e' 0xFFFFF000) with (page_of e'). rewrite land_fff. apply u32_small.
  destruct (frame_page_of e' (do_words _ _ (so_dir _ _ _ Hs) _)) as [? ?]. wrap_lia.
Qed.
End layout.

(** ** A small machine *)

(** The directory at 0x111000 with the tables of the kernel (0x112000, where
    [pt_f] is mapped, and two empty ones) and an empty one for the window
    (0x118000). *)
Definition demo_layout : layout := Layout 0xC0110000 0xC0111000 0xC0112000 0xC0113000 0xC0114000 0xC0115000 0xC0116000 0x120000.
Definition demo_ram : gmap Z Z :=
  <[0x111000 + 4 * 768 := 0x112003]> (<[0x111000 + 4 * 769 := 0x113003]> (<[0x111000 + 4 * 770 := 0x114003]>
  (<[0x111000 + 4 * 896 := 0x118003]> (<[0x111000 + 4 * 1023 := 0x111003]> (<[0x112000 + 4 * 0x110 := 0x110003]> ∅))))).
Definition demo_vmm32 : vmm32 := Vmm32 demo_pool demo_ram 0x111000 0x111000.
Definition demo_total : list Z := available_pages demo_mbt.

Lemma demo32_rd a : rd demo_ram a = if decide (0x111000 + 4 * 768 = a) then 0x112003 else if decide (0x111000 + 4 * 769 = a) then 0x113003
  else if decide (0x111000 + 4 * 770 = a) then 0x114003 else if decide (0x111000 + 4 * 896 = a) then 0x118003
  else if decide (0x111000 + 4 * 1023 = a) then 0x111003 else if decide (0x112000 + 4 * 0x110 = a) then 0x110003 else 0.
Proof. unfold demo_ram. rewrite !rd32_insert. unfold rd, Pmm.rd. by rewrite lookup_empty. Qed.

(** The tables by their index. *)
Definition demo32_tables : list (Z * Z) := [(768, 0x112000); (769, 0x113000); (770, 0x114000); (896, 0x118000); (1023, 0x111000)].

Lemma demo_present i : 0 ≤ i < 1024 → present demo_ram 0x111000 i → (i, table demo_ram 0x111000 i) ∈ demo32_tables.
Proof.
  intros Hi. unfold present, table, pde. rewrite demo32_rd. repeat case_decide; intros Hp; try (exfalso; lia); try done.
  - replace i with 768 by lia. left.
  - replace i with 769 by lia. right. left.
  - replace i with 770 by lia. do 2 right. left.
  - replace i with 896 by lia. do 3 right. left.
  - replace i with 1023 by lia. do 4 right. left.
Qed.

(** Every table has its place. *)
Lemma demo_tables_range i f : (i, f) ∈ demo32_tables → 0x111000 ≤ f < 0x119000 ∧ (i ≠ 1023 → f ≠ 0x111000) ∧ ∀ j, (j, f) ∈ demo32_tables → i = j.
Proof. unfold demo32_tables. rewrite !elem_of_cons, elem_of_nil. intros H. split; [|split; [|intros j; rewrite !elem_of_cons, elem_of_nil]]; naive_solver lia. Qed.

Lemma demo_dir : dir_ok demo_ram 0x111000.
Proof.
  split.
  - split; [lia|reflexivity].
  - intros a. rewrite demo32_rd. repeat case_decide; lia.
  - unfold pde. rewrite demo32_rd. repeat case_decide; lia.
  - intros i Hi Hp. apply (demo_tables_range _ _ (demo_present i ltac:(lia) Hp)). lia.
  - intros i j Hi Hj Hpi Hpj Et. apply (demo_tables_range _ _ (demo_present i ltac:(lia) Hpi)). rewrite Et. apply demo_present; [lia|done].
Qed.

Lemma demo_apart f : (0x119000 ≤ f ∨ f < 0x111000) → apart demo_ram 0x111000 f.
Proof. intros Hf i Hi Hp. destruct (demo_tables_range _ _ (demo_present i Hi Hp)) as [? _]. lia. Qed.

Lemma demo_scratch : scratch_ok demo_layout demo_ram 0x111000.
Proof.
  split.
  - split; [split; [cbn; lia|reflexivity]|cbn; unfold PT; lia].
  - vm_compute. reflexivity.
  - apply demo_apart. unfold scratch. cbn. lia.
Qed.

Lemma demo_pool_ok : pool_ok demo_total demo_total demo_pool.
Proof.
  pose proof (pmm_init_run demo_mbt ltac:(cbn; lia)) as Hi. change (mem_upper demo_mbt * 1024 <? 0xC00000) with false in Hi. destruct Hi as (s0 & E0 & Hpool).
  unfold demo_pool. rewrite E0. exact Hpool.
Qed.

#[local] Opaque demo_pool demo_ram demo_total.

Lemma demo32_space : space_ok demo_layout demo_total demo_total demo_vmm32.
Proof.
  split; [exact demo_pool_ok|exact demo_dir|exact demo_scratch|].
  intros p Hp. destruct (pool_ok_page _ _ _ p demo_pool_ok Hp) as [_ Hge]. split; [apply demo_apart|unfold scratch; cbn]; lia.
Qed.

Lemma demo_window : window_ready demo_vmm32 ∧ window_slot demo_vmm32 = 0x118000.
Proof. split; [split; vm_compute; reflexivity|vm_compute; reflexivity]. Qed.

Lemma demo_unmapped : translate32 (ram demo_vmm32) (cr3 demo_vmm32) 0x40000000 = None.
Proof. vm_compute. reflexivity. Qed.

Lemma demo_total_nonempty : demo_total ≠ [].
Proof. intros E. assert (length demo_total = 4%nat) as E4 by (vm_compute; reflexivity). rewrite E in E4. discriminate. Qed.

Lemma i386_map_page_spec_witness :
  ∃ s', map_page demo_layout 0x5000 0x40000000 3 demo_vmm32 = Ok (tt, s') ∧ translate32 (ram s') (cr3 s') 0x40000123 = Some 0x5123.
Proof.
  pose proof (i386_map_page_spec demo_layout demo_total demo_total demo_vmm32 0x5000 0x40000000 3 demo32_space) as H.
  rewrite demo_unmapped in H. destruct H as [_ H]; [split; [lia|reflexivity]|split; [lia|reflexivity]|unfold PT; lia|reflexivity|].
  destruct H as (stk' & s' & E & _ & Hre); [right; exact demo_total_nonempty|]. exists s'. split; [exact E|].
  rewrite Hre; [reflexivity|lia|reflexivity].
Defined.

Lemma i386_unmap_page_spec_witness : unmap_page 0x40000000 demo_vmm32 = Fault.
Proof.
  apply (i386_unmap_page_spec demo_layout demo_total demo_total demo_vmm32 0x40000000 demo32_space);
    [split; [lia|reflexivity]|unfold PT; lia|cbn; lia|vm_compute; discriminate].
Defined.

Lemma i386_map_unmap_roundtrip_witness :
  ∃ s', (map_page demo_layout 0x5000 0x40000000 3;; unmap_page 0x40000000) demo_vmm32 = Ok (tt, s') ∧ translate32 (ram s') (cr3 s') 0xC0110008 = Some 0x110008.
Proof.
  destruct (i386_map_unmap_roundtrip demo_layout demo_total demo_total demo_vmm32 0x5000 0x40000000 3 demo32_space) as (s' & E & H);
    [split; [lia|reflexivity]|split; [lia|reflexivity]|unfold PT; lia|reflexivity|exact demo_unmapped|right; exact demo_total_nonempty|].
  exists s'. split; [exact E|]. rewrite H; [vm_compute; reflexivity|lia|reflexivity].
Defined.

Lemma i386_get_phys_spec_witness : ∃ s', get_phys demo_layout 0x111000 0xC0110008 demo_vmm32 = Ok (0x110008, s').
Proof.
  destruct demo_window as [Hw Es].
  destruct (i386_get_phys_spec demo_layout demo_total demo_total demo_vmm32 0x111000 0xC0110008 demo32_space Hw) as (s' & E & _);
    [cbn; unfold WINDOW; lia|split; [lia|reflexivity]|lia|rewrite Es; vm_compute; discriminate|rewrite Es; vm_compute; discriminate|].
  exists s'. etransitivity; [exact E|]. assert (phys_of (ram demo_vmm32) 0x111000 0xC0110008 = 0x110008) as -> by (vm_compute; reflexivity). reflexivity.
Defined.
