(* ===== verification/I386Space.v ===== *)
(** * Properties of the i386 page tables: new directories and copies

    A new directory contains itself and shares the tables of the kernel, so
    it is a space in which mapping and unmapping work; what the routines that
    fill and copy memory of other directories do on a small machine. *)
From S2P Require Import Prelude I386Pmm I386Vmm I386Dir I386VmmProps.
From S2P Require Pmm.
From stdpp Require Import base numbers option gmap list.
#[local] Open Scope Z_scope.

Section layout.
Context (l : layout).

(** Filling a frame that is no table keeps the space. *)
Lemma fill_space total stk s f m' :
  space_ok l total stk s → frame f → apart (ram s) (cr3 s) f → words_ok m' → agree (outside f) (ram s) m' →
  space_ok l total stk (set_ram m' s) ∧ (∀ v, 0 ≤ v < 2 ^ 32 → translate32 m' (cr3 s) v = translate32 (ram s) (cr3 s) v) ∧
  ∀ i, 0 ≤ i < 1024 → pde m' (cr3 s) i = pde (ram s) (cr3 s) i.
Proof.
  intros [Hpool Hdir Hsc Hfree] Hf Hap Hw Ha. destruct (fill_frame _ m' _ _ Hdir Hf Hap Hw Ha) as (Hdir' & _ & Htr).
  pose proof (outside_tables _ _ _ _ Hdir Hf Hap Ha) as Ht. split; [|split; [done|]].
  - split; cbn; [done|done| |].
    + apply (scratch_keep l (ram s)); [done|exact (apart_agree _ _ _ _ Hdir Ht (sc_apart _ _ _ Hsc))|]. apply Htr. by apply (pt_f_index l _ _ Hsc).
    + intros p Hp. destruct (Hfree p Hp) as [Hp1 Hp2]. split; [exact (apart_agree _ _ _ _ Hdir Ht Hp1)|done].
  - intros i Hi. apply Ht. by apply root_word.
Qed.

(** The tables of the kernel, as the directory of [s] has them. *)
Definition kernel_pde (i : Z) : Z :=
  if i =? 768 then kernel_table (page_tab1 l) else if i =? 769 then kernel_table (page_tab2 l) else kernel_table (page_tab3 l).

Record kernel_ok (s : vmm32) : Prop := {
  ke_entry i : 768 ≤ i < 771 → pde (ram s) (cr3 s) i = kernel_pde i;
  ke_present i : 768 ≤ i < 771 → present (ram s) (cr3 s) i;
  ke_pt_f : 768 ≤ pdindex (pt_f l) < 771;
}.

(** The words of the page [p] while the new directory is written. *)
Definition dir_word (p k : Z) : Z := if k =? 1023 then p + 3 else if (768 <=? k) && (k <? 771) then kernel_pde k else 0.

(** The directory with the tables of the kernel and itself. *)
Lemma new_space total stk s p :
  space_ok l total stk s → kernel_ok s → frame p → apart (ram s) (cr3 s) p → p ≠ scratch l → p ∉ stk →
  (∀ k, 0 ≤ k < 1024 → rd (ram s) (p + 4 * k) = dir_word p k) →
  let s' := Vmm32 (vpool s) (ram s) p p in
  space_ok l total stk s' ∧
  ∀ v, 0 ≤ v < 2 ^ 32 → pdindex v < 1023 → translate32 (ram s) p v = if (768 <=? pdindex v) && (pdindex v <? 771) then translate32 (ram s) (cr3 s) v else None.
Proof.
  intros [Hpool Hdir Hsc Hfree] [Hke Hkp Hpf] Hp Hap Hps Hni Hw s'.
  assert (∀ i, 768 ≤ i < 771 → pde (ram s) p i = pde (ram s) (cr3 s) i) as Eke.
  { intros i Hi. unfold pde at 1. rewrite Hw, Hke by lia. unfold dir_word. destruct (Z.eqb_spec i 1023), (Z.leb_spec 768 i), (Z.ltb_spec i 771); lia || done. }
  assert (pde (ram s) p 1023 = p + 3) as Eself by (unfold pde; by rewrite Hw).
  assert (∀ i, 0 ≤ i < 1023 → ¬ 768 ≤ i < 771 → pde (ram s) p i = 0) as Ezero.
  { intros i Hi Hn. unfold pde. rewrite Hw by lia. unfold dir_word. destruct (Z.eqb_spec i 1023), (Z.leb_spec 768 i), (Z.ltb_spec i 771); lia || done. }
  assert (∀ i, 0 ≤ i < 1023 → present (ram s) p i → 768 ≤ i < 771) as Hpres.
  { intros i Hi Hpi. destruct (decide (768 ≤ i < 771)); [done|]. unfold present in Hpi. by rewrite Ezero in Hpi. }
  assert (∀ i, 768 ≤ i < 771 → table (ram s) p i = table (ram s) (cr3 s) i) as Et by (intros i Hi; unfold table; by rewrite Eke).
  assert (dir_ok (ram s) p) as Hdir'.
  { split; [done|apply Hdir|done| |].
    - intros i Hi Hpi. apply Hpres in Hpi; [|done]. rewrite Et by done. apply Hap; [lia|by apply Hkp].
    - intros i j Hi Hj Hpi Hpj. apply Hpres in Hpi, Hpj; [|done..]. rewrite !Et by done. apply (do_inj _ _ Hdir); try lia; by apply Hkp. }
  assert (∀ f, apart (ram s) (cr3 s) f → f ≠ p → apart (ram s) p f) as Hapart.
  { intros f Hf Hne i Hi Hpi. destruct (decide (i = 1023)) as [->|]; [destruct (self_table _ _ Hdir') as [_ ->]; congruence|].
    apply Hpres in Hpi; [|lia]. rewrite Et by done. apply Hf; [done|by apply Hkp]. }
  assert (∀ v, 0 ≤ v < 2 ^ 32 → pdindex v < 1023 → translate32 (ram s) p v = if (768 <=? pdindex v) && (pdindex v <? 771) then translate32 (ram s) (cr3 s) v else None) as Htr.
  { intros v Hv Hpd. destruct (index_range v Hv) as [Hi _]. rewrite (translate_alt _ p) by done.
    destruct (Z.leb_spec 768 (pdindex v)), (Z.ltb_spec (pdindex v) 771); cbn [andb]; try (by rewrite Ezero by lia).
    rewrite (translate_alt _ (cr3 s)) by apply Hdir. by rewrite Et, Eke by lia. }
  split; [|done]. split; cbn; [done|done| |].
  - destruct (pt_f_index l _ _ Hsc) as [Hv1 Hv2]. pose proof Hsc as [Hpg Hm Ha]. split; [done| |apply Hapart; [done|by apply not_eq_sym]].
    rewrite Htr by done. destruct (Z.leb_spec 768 (pdindex (pt_f l))), (Z.ltb_spec (pdindex (pt_f l)) 771); done || lia.
  - intros r Hr. destruct (Hfree r Hr). split; [|done]. apply Hapart; [done|]. by intros ->.
Qed.

(** A store to a page through its window. *)
Definition filling (f : Z) (m0 m : gmap Z Z) : Prop := words_ok m ∧ agree (outside f) m0 m.

Lemma window_store s v f k w m :
  stable (ram s) (cr3 s) v f → filling f (ram s) m → 0 ≤ k < 1024 → 0 ≤ w < 2 ^ 32 →
  vstore32 (v + 4 * k) w (set_ram m s) = Ok (tt, set_ram (<[f + 4 * k := w]> m) s) ∧ filling f (ram s) (<[f + 4 * k := w]> m).
Proof.
  intros Hst [Hw Ha] Hk Hwr. split; [apply (vstore_run _ _ w (set_ram m s)); apply Hst; done || lia|]. split; [by apply words_ok_insert|].
  intros a Ho. rewrite rd32_insert, decide_False; [by apply Ha|]. intros <-. apply Ho. unfold in_frame. lia.
Qed.

Lemma kernel_table_range tab : 0 ≤ kernel_table tab < 2 ^ 32.
Proof. unfold kernel_table. apply (lor_range _ _ 32); [lia|apply u32_range|lia]. Qed.

(** What is needed to create a directory: two free pages besides the one for
    the directory if the window has no table, one otherwise. *)
Record creatable (total stk : list Z) (s : vmm32) : Prop := {
  cr_space : space_ok l total stk s;
  cr_kernel : kernel_ok s;
  cr_window : translate32 (ram s) (cr3 s) NEW_DIR = None;
  cr_pages : (3 ≤ length stk)%nat;
  cr_data : frame (global_data_ptr l);
}.

Lemma new_dir_frame : frame NEW_DIR ∧ NEW_DIR < PT ∧ pdindex NEW_DIR = 950.
Proof. split; [split; [unfold NEW_DIR; lia|reflexivity]|]. split; [unfold NEW_DIR, PT; lia|reflexivity]. Qed.

(** The new directory, filled through the window. *)
Lemma fill_directory s p :
  words_ok (ram s) → frame p → stable (ram s) (cr3 s) NEW_DIR p →
  ∃ m', (∀ (f : M vmm32 Z),
      (vmemset NEW_DIR 0 0x1000;;
       vstore32 (NEW_DIR + 4 * kernel_addr) (kernel_table (page_tab1 l));;
       vstore32 (NEW_DIR + 4 * (kernel_addr + 1)) (kernel_table (page_tab2 l));;
       vstore32 (NEW_DIR + 4 * (kernel_addr + 2)) (kernel_table (page_tab3 l));;
       vstore32 (NEW_DIR + 4 * 1023) (Z.lor p 0x3);; f) s = f (set_ram m' s)) ∧
    filling p (ram s) m' ∧ ∀ k, 0 ≤ k < 1024 → rd m' (p + 4 * k) = dir_word p k.
Proof.
  intros Hw Hp Hst. destruct (vmemset_page_run s NEW_DIR p Hw (proj1 new_dir_frame) Hp Hst) as (m0 & E0 & Hw0 & Ha0 & Hz).
  change kernel_addr with 768. change (768 + 1) with 769. change (768 + 2) with 770.
  pose proof (plus_3 _ Hp) as Hp3.
  destruct (window_store s NEW_DIR p 768 (kernel_table (page_tab1 l)) m0 Hst (conj Hw0 Ha0) ltac:(lia) (kernel_table_range _)) as [E1 F1].
  destruct (window_store s NEW_DIR p 769 (kernel_table (page_tab2 l)) _ Hst F1 ltac:(lia) (kernel_table_range _)) as [E2 F2].
  destruct (window_store s NEW_DIR p 770 (kernel_table (page_tab3 l)) _ Hst F2 ltac:(lia) (kernel_table_range _)) as [E3 F3].
  destruct (window_store s NEW_DIR p 1023 (p + 3) _ Hst F3 ltac:(lia) Hp3) as [E4 F4].
  eexists. split; [|split; [exact F4|]].
  - intros f. run E0. run E1. run E2. run E3. rewrite (lor_3 p) by done. by run E4.
  - intros k Hk. rewrite !rd32_insert. unfold dir_word, kernel_pde.
    destruct (Z.eqb_spec k 1023), (Z.leb_spec 768 k), (Z.ltb_spec k 771), (Z.eqb_spec k 768), (Z.eqb_spec k 769); repeat case_decide; subst; try lia; try done; by apply Hz.
Qed.

(** From the mapping of the window to its removal. *)
Record dir_written (total k1 : list Z) (s1 : vmm32) (p : Z) (k2 : list Z) (s8 : vmm32) : Prop := {
  dw_space : space_ok l total k2 s8;
  dw_pages : k2 `prefix_of` k1 ∧ (length k1 ≤ S (length k2))%nat;
  dw_cr3 : cr3 s8 = cr3 s1;
  dw_apart : apart (ram s8) (cr3 s8) p;
  dw_words k : 0 ≤ k < 1024 → rd (ram s8) (p + 4 * k) = dir_word p k;
  dw_pde i : 0 ≤ i < 1024 → present (ram s1) (cr3 s1) i → pde (ram s8) (cr3 s8) i = pde (ram s1) (cr3 s1) i;
  dw_translate v : 0 ≤ v < 2 ^ 32 → pdindex v < 1023 → pdindex v ≠ pdindex NEW_DIR → translate32 (ram s8) (cr3 s8) v = translate32 (ram s1) (cr3 s1) v;
}.

Lemma write_directory_run total k1 s1 p :
  space_ok l total k1 s1 → frame p → apart (ram s1) (cr3 s1) p → p ∉ k1 → k1 ≠ [] → translate32 (ram s1) (cr3 s1) NEW_DIR = None →
  ∃ k2 s8, (∀ f : M vmm32 Z,
      (map_page l p NEW_DIR 0x3;;
       vmemset NEW_DIR 0 0x1000;;
       vstore32 (NEW_DIR + 4 * kernel_addr) (kernel_table (page_tab1 l));;
       vstore32 (NEW_DIR + 4 * (kernel_addr + 1)) (kernel_table (page_tab2 l));;
       vstore32 (NEW_DIR + 4 * (kernel_addr + 2)) (kernel_table (page_tab3 l));;
       vstore32 (NEW_DIR + 4 * 1023) (Z.lor p 0x3);;
       unmap_page NEW_DIR;; f) s1 = f s8) ∧ dir_written total k1 s1 p k2 s8.
Proof.
  intros Hs1 Hpf Hap Hnk Hne Hwin. destruct new_dir_frame as (Hnf & Hnl & Hni).
  assert (NEW_DIR ≠ pt_f l) as Hnp by (intros E; rewrite E, (sc_map _ _ _ (so_scratch _ _ _ _ Hs1)) in Hwin; done).
  destruct (map_page_run l total k1 s1 p NEW_DIR 0x3 Hs1 Hpf Hnf Hnl eq_refl Hwin) as (k2 & s2 & E2 & St2 & Re2 & Hp2 & Hlen2); [by right|].
  destruct (ss_cr3 _ _ _ _ _ _ St2) as [Ec2 _]. pose proof (ss_ok _ _ _ _ _ _ St2) as Hs2.
  pose proof (ss_apart _ _ _ _ _ _ St2 p Hap Hnk) as Hap2. rewrite <- Ec2 in Hap2.
  assert (translate32 (ram s2) (cr3 s2) NEW_DIR = Some p) as Ht2.
  { rewrite Re2 by (apply Hnf || lia). rewrite decide_True by done. cbn. f_equal. rewrite (proj2 Hnf). lia. }
  pose proof (so_dir _ _ _ _ Hs2) as Hdir2. pose proof (stable_dir _ _ _ _ Hdir2 Hnf Hpf Hap2 Ht2) as Hst2.
  destruct (fill_directory s2 p (do_words _ _ Hdir2) Hpf Hst2) as (m7 & E7 & [Hw7 Ha7] & Hd7).
  destruct (fill_space total k2 s2 p m7 Hs2 Hpf Hap2 Hw7 Ha7) as (Hs7 & Ht7 & Ep7). set (s7 := set_ram m7 s2) in *.
  assert (apart (ram s7) (cr3 s7) p) as Hap7 by (intros i Hi; unfold present, table; cbn; rewrite Ep7 by done; by apply Hap2).
  assert (present (ram s7) (cr3 s7) (pdindex NEW_DIR)) as Hp7 by (unfold present; cbn; rewrite Ep7 by lia; exact Hp2).
  destruct (unmap_page_run l total k2 s7 NEW_DIR Hs7 Hnf Hnl Hnp Hp7) as (E8 & St8 & Re8). cbv zeta in St8, Re8.
  set (slot := table (ram s7) (cr3 s7) (pdindex NEW_DIR) + 4 * ptindex NEW_DIR) in *. set (s8 := set_ram _ s7) in E8, St8, Re8.
  exists k2, s8. split; [intros f; run E2; rewrite E7; by run E8|]. split.
  - apply St8.
  - split; [apply (ss_stk _ _ _ _ _ _ St2)|done].
  - exact Ec2.
  - apply (ss_apart _ _ _ _ _ _ St8 p Hap7). intros Hin. apply Hnk. destruct (ss_stk _ _ _ _ _ _ St2) as [k' ->]. apply elem_of_app. by left.
  - intros k Hk. cbn. rewrite rd32_insert, decide_False; [by apply Hd7|]. intros E. apply frame32_word in E as [Et _]; [|apply table_frame, Hs7|done|by apply index_range, Hnf|done].
    by apply (Hap7 (pdindex NEW_DIR)); [lia|..].
  - intros i Hi Hpi. change (cr3 s8) with (cr3 s2). pose proof (ss_pde _ _ _ _ _ _ St2 i Hi Hpi) as E. rewrite <- Ec2 in E at 1.
    rewrite <- E, <- (Ep7 i Hi). apply (ss_pde _ _ _ _ _ _ St8 i Hi). unfold present. cbn. rewrite Ep7 by done. rewrite E. exact Hpi.
  - intros v Hv Hpd Hne'. assert (v / 4096 * 4096 ≠ NEW_DIR) as Hn by (intros E; by apply page_index_of in E as [? _]).
    rewrite Re8, decide_False by done. cbn. rewrite Ht7 by done. by rewrite Re2, decide_False.
Qed.

(** C22. [create_page_directory] takes a free page and makes a directory of it
    in which the kernel runs as before: it contains itself, shares the tables
    of the kernel, has the shared data mapped at its place and nothing else,
    and mapping and unmapping work in it. Whichever directory was current
    before, the kernel's own is current afterwards. *)
Theorem i386_create_page_directory_spec (total stk : list Z) (s : vmm32) :
  creatable total stk s →
  ∃ pd stk' s', create_page_directory l s = Ok (pd, s') ∧ cr3 s' = def_cr3 l ∧ pd ∈ stk ∧
    space_ok l total stk' (Vmm32 (vpool s') (ram s') pd pd) ∧
    ∀ v, 0 ≤ v < 2 ^ 32 → pdindex v < 1023 →
      translate32 (ram s') pd v =
        if decide (v / 4096 * 4096 = GLOBAL_DATA_ADDR) then Some (global_data_ptr l + v mod 4096)
        else if (768 <=? pdindex v) && (pdindex v <? 771) then translate32 (ram s) (cr3 s) v else None.
Proof.
  intros [Hs Hke Hwin Hlen Hdata]. induction stk as [|p k1 _] using rev_ind; [cbn in Hlen; lia|]. rewrite length_app in Hlen. cbn in Hlen.
  destruct new_dir_frame as (Hnf & Hnl & Hni). pose proof Hs as [Hpool Hdir Hsc Hfree].
  destruct (alloc_run _ _ _ _ Hpool) as (q & Hal & Hpool1 & _). assert (p ∈ k1 ++ [p]) as Hpin by (apply elem_of_app; right; by apply list_elem_of_singleton).
  destruct (Hfree p Hpin) as [Hap Hps]. pose proof (pool_ok_frame _ _ _ p Hpool (po_in _ _ _ Hpool _ Hpin)) as Hpf.
  assert (p ∉ k1) as Hnk by (pose proof (po_nodup _ _ _ Hpool) as Hnd; apply NoDup_app in Hnd as (_ & Hnd & _); intros Hin; apply (Hnd p Hin); by apply list_elem_of_singleton).
  set (s1 := set_vpool q s). assert (space_ok l total k1 s1) as Hs1 by (split; try done; intros r Hr; apply Hfree, elem_of_app; by left).
  destruct (write_directory_run total k1 s1 p Hs1 Hpf Hap Hnk) as (k2 & s8 & E8 & [Hs8 [Hpre Hlen2] Ec8 Hap8 Hw8 Hpde8 Ht8]); [intros ->; cbn in Hlen; lia|exact Hwin|].
  assert (p ∉ k2) as Hnk2 by (intros Hin; apply Hnk; destruct Hpre as [k' ->]; apply elem_of_app; by left).
  assert (kernel_ok s8) as Hke8.
  { destruct Hke as [K1 K2 K3]. split; [..|done]; intros i Hi; [rewrite Hpde8; [by apply K1|lia|by apply K2]|].
    unfold present. rewrite Hpde8; [by apply K2|lia|by apply K2]. }
  destruct (new_space total k2 s8 p Hs8 Hke8 Hpf Hap8 Hps Hnk2 Hw8) as [Hs9 Ht9]. set (s9 := Vmm32 (vpool s8) (ram s8) p p) in *.
  (* the shared data *)
  assert (frame GLOBAL_DATA_ADDR) as Hgf by (split; [unfold GLOBAL_DATA_ADDR; lia|reflexivity]). assert (pdindex GLOBAL_DATA_ADDR = 832) as Egi by reflexivity.
  destruct (map_page_run l total k2 s9 (global_data_ptr l) GLOBAL_DATA_ADDR 0x5 Hs9 Hdata Hgf) as (k3 & s10 & E10 & St10 & Re10 & _);
    [unfold GLOBAL_DATA_ADDR, PT; lia|done|cbn [ram cr3 s9]; by rewrite Ht9 by (apply Hgf || lia)|right; intros ->; cbn in Hlen2; lia|].
  destruct (ss_cr3 _ _ _ _ _ _ St10) as [Ec10 Ed10]. cbn in Ec10, Ed10.
  exists p, k3, (Vmm32 (vpool s10) (ram s10) (def_cr3 l) (def_cr3 l)). split; [|split; [done|split; [done|split]]].
  - unfold create_page_directory. assert (on_pool pmm_alloc s = Ok (p, s1)) as Ea by (unfold on_pool, zoom; by rewrite Hal). run Ea. rewrite E8.
    assert (set_cr3 p s8 = Ok (tt, s9)) as Ec by done. run Ec. by run E10.
  - cbn. pose proof (ss_ok _ _ _ _ _ _ St10) as Hok. destruct s10 as [pl rm c d]. cbn in *. by subst.
  - intros v Hv Hpd. cbn [ram]. pose proof (Re10 v Hv Hpd) as E. rewrite Ec10 in E. cbn [cr3 s9] in E. rewrite E. case_decide as Eg; [done|].
    cbn [ram]. rewrite Ht9 by done. destruct (Z.leb_spec 768 (pdindex v)), (Z.ltb_spec (pdindex v) 771); cbn [andb]; try done. rewrite Ht8; [done|done|done|lia].
Qed.
End layout.

(** ** A small machine *)

(** The same machine with the kernel's directory at [d]; the current one is
    at [0x111000]. *)
Definition demo_kernel_dir (d : Z) : layout :=
  Layout 0xC0110000 d 0xC0112000 0xC0113000 0xC0114000 0xC0115000 0xC0116000 0x120000.

Lemma demo_creatable d : creatable (demo_kernel_dir d) demo_total demo_total demo_vmm32.
Proof.
  split.
  - destruct demo32_space as [Hp Hd Hsc Hf]. split; [exact Hp|exact Hd| |exact Hf].
    destruct Hsc. by split.
  - split; [intros i Hi|intros i Hi|vm_compute; split; congruence].
    + assert (i = 768 ∨ i = 769 ∨ i = 770) as [->|[->| ->]] by lia; vm_compute; reflexivity.
    + assert (i = 768 ∨ i = 769 ∨ i = 770) as [->|[->| ->]] by lia; vm_compute; reflexivity.
  - vm_compute. reflexivity.
  - assert (length demo_total = 4%nat) as -> by (vm_compute; reflexivity). lia.
  - split; [cbn; lia|reflexivity].
Qed.

Lemma i386_create_page_directory_spec_witness :
  cr3 demo_vmm32 = 0x111000 ∧
  ∃ pd s', create_page_directory (demo_kernel_dir 0xC011A000) demo_vmm32 = Ok (pd, s') ∧ cr3 s' = 0x11A000 ∧
    translate32 (ram s') pd 0xD0000010 = Some 0x120010 ∧
    translate32 (ram s') pd 0xC0110008 = Some 0x110008 ∧ translate32 (ram s') pd 0x400000 = None.
Proof.
  destruct (i386_create_page_directory_spec (demo_kernel_dir 0xC011A000) demo_total demo_total demo_vmm32 (demo_creatable _)) as (pd & stk' & s' & E & Ec & _ & _ & Ht).
  split; [reflexivity|]. exists pd, s'. split; [exact E|]. split; [rewrite Ec; reflexivity|]. split; [|split].
  - rewrite Ht; [reflexivity|lia|reflexivity].
  - rewrite Ht; [vm_compute; reflexivity|lia|reflexivity].
  - rewrite Ht; [vm_compute; reflexivity|lia|reflexivity].
Defined.

(** Two pages of user memory in the directory of the machine, the second page
    of the addresses first in physical memory. *)
Definition demo_user : M vmm32 () :=
  map_page demo_layout 0x5000 0x400000 7;; map_page demo_layout 0x4000 0x401000 7.

Definition byte_at (a : Z) : M vmm32 Z := gets (λ s, ram8 (ram s) a).

(** On a small machine: [crosspd_memset] of more than a page fills the
    first page again and again and leaves the rest, and of less than a page
    that crosses a boundary it continues in the next physical page instead of
    the next page of the address space; [crosspd_memcpy] copies across the
    boundary; [alloc_mem_at] gives pages of zeros; [destroy_page_directory]
    returns the directory but none of its tables. *)
Theorem i386_crosspd_demo :
  value ((demo_user;; crosspd_memset demo_layout 0x111000 0x400000 0xAA 0x1800;;
          a ← byte_at 0x5000; b ← byte_at 0x5FFF; c ← byte_at 0x4000; mret (a, b, c)) demo_vmm32) = Some (0xAA, 0xAA, 0) ∧
  value ((demo_user;; crosspd_memset demo_layout 0x111000 0x400FFE 0xAA 4;;
          a ← byte_at 0x5FFF; b ← byte_at 0x4000; c ← byte_at 0x6000; mret (a, b, c)) demo_vmm32) = Some (0xAA, 0, 0xAA) ∧
  value ((demo_user;; crosspd_memset demo_layout 0x111000 0x400000 0x55 8;;
          crosspd_memcpy demo_layout 0x111000 0x400FFE 0x111000 0x400000 4;;
          a ← byte_at 0x5FFE; b ← byte_at 0x5FFF; c ← byte_at 0x4000; d ← byte_at 0x4001; e ← byte_at 0x4002; mret (a, b, c, d, e)) demo_vmm32)
    = Some (0x55, 0x55, 0x55, 0x55, 0) ∧
  value ((alloc_mem_at demo_layout 0x111000 0x400000 1 7;; v ← vload32 0x400FFC; f ← get_flag demo_layout 0x111000 0x400000;
          n ← gets (λ s, free_pages (vpool s)); mret (v, f, n)) demo_vmm32) = Some (0, 7, 2) ∧
  value ((pd ← create_page_directory demo_layout; destroy_page_directory pd;; n ← gets (λ s, free_pages (vpool s)); mret n) demo_vmm32) = Some 2.
Proof. split_and!; vm_compute; reflexivity. Qed.
