(* ===== verification/I386Cpu.v ===== *)
(** * i386 descriptor tables and interrupts (arch/i386/cpu, arch_entry.cpp)

    The descriptors as 64-bit words, the gates and the task state segment as
    records; the dispatch of an interrupt over the page tables of I386Vmm.v.
    The calls of handlers are commented out in the code. A halt for ever is
    [Hang]; messages and the trace of the stack are left out. *)
From S2P Require Import Prelude I386Pmm I386Vmm.
From S2P Require Cpu Paging.
From stdpp Require Import base numbers option gmap list.
#[local] Open Scope Z_scope.

(** ** Segments (gdt.cpp) *)
Definition GDT_CODE_KERNEL : Z := 0xC09A.
Definition GDT_DATA_KERNEL : Z := 0xC092.
Definition GDT_CODE_USER : Z := 0xC0FA.
Definition GDT_DATA_USER : Z := 0xC0F2.
Definition GDT_TSS : Z := 0x4089.

(** 32-bit [base] and [limit], 16-bit [flag]. *)
Definition create_descriptor (base limit flag : Z) : Z :=
  let d := Z.land limit 0x000F0000 in
  let d := Z.lor d (Z.land (Z.shiftl flag 8) 0x00F0FF00) in
  let d := Z.lor d (Z.land (Z.shiftr base 16) 0x000000FF) in
  let d := Z.lor d (Z.land base 0xFF000000) in
  let d := u64 (Z.shiftl d 32) in
  let d := Z.lor d (u32 (Z.shiftl base 16)) in
  Z.lor d (Z.land limit 0x0000FFFF).

Record tss_t := Tss {
  prev_tss : Z; esp0 : Z; ss0 : Z; esp1 : Z; ss1 : Z; esp2 : Z; ss2 : Z; tss_cr3 : Z; tss_eip : Z; tss_eflags : Z;
  tss_eax : Z; tss_ecx : Z; tss_edx : Z; tss_ebx : Z; tss_esp : Z; tss_ebp : Z; tss_esi : Z; tss_edi : Z;
  tss_es : Z; tss_cs : Z; tss_ss : Z; tss_ds : Z; tss_fs : Z; tss_gs : Z; tss_ldt : Z; tss_trap : Z; iomap_base : Z;
}.
Definition zero_tss : tss_t := Tss 0 0 0 0 0 0 0 0 0 0 0 0 0 0 0 0 0 0 0 0 0 0 0 0 0 0 0.
Definition set_esp0 (x : Z) (t : tss_t) : tss_t :=
  Tss (prev_tss t) x (ss0 t) (esp1 t) (ss1 t) (esp2 t) (ss2 t) (tss_cr3 t) (tss_eip t) (tss_eflags t) (tss_eax t) (tss_ecx t) (tss_edx t)
    (tss_ebx t) (tss_esp t) (tss_ebp t) (tss_esi t) (tss_edi t) (tss_es t) (tss_cs t) (tss_ss t) (tss_ds t) (tss_fs t) (tss_gs t) (tss_ldt t)
    (tss_trap t) (iomap_base t).
Definition set_ss0_iomap (x y : Z) (t : tss_t) : tss_t :=
  Tss (prev_tss t) (esp0 t) x (esp1 t) (ss1 t) (esp2 t) (ss2 t) (tss_cr3 t) (tss_eip t) (tss_eflags t) (tss_eax t) (tss_ecx t) (tss_edx t)
    (tss_ebx t) (tss_esp t) (tss_ebp t) (tss_esi t) (tss_edi t) (tss_es t) (tss_cs t) (tss_ss t) (tss_ds t) (tss_fs t) (tss_gs t) (tss_ldt t)
    (tss_trap t) y.

(** [sizeof(tss_t)] and [sizeof(gdt_tss_data_t)] *)
Definition sizeof_tss_t : Z := 25 * 4 + 2 * 2.
Definition sizeof_tss_data : Z := sizeof_tss_t + 8193.

Record gdt_state := Gdt {
  gdt_arr : list Z;         (** 6 *)
  tss_data_tss : tss_t;
  io_bitmap : list Z;       (** 8193 *)
}.

Definition gdt_set_tss_stack (stack : Z) : M gdt_state () := modify (λ s, Gdt (gdt_arr s) (set_esp0 stack (tss_data_tss s)) (io_bitmap s)).
Definition gdt_load_io_bitmap (bitmap : list Z) : M gdt_state () :=
  modify (λ s, Gdt (gdt_arr s) (tss_data_tss s) (take 8192 bitmap ++ drop 8192 (io_bitmap s))).

(** [tss_addr] is the address of [tss_data]. The operand of [lgdt] is made by
    the assembly routine from the address and the size. *)
Definition gdt_setup (tss_addr : Z) : M gdt_state Z :=
  modify (λ s, Gdt [create_descriptor 0 0 0;
                    create_descriptor 0 0x000FFFFF GDT_CODE_KERNEL;
                    create_descriptor 0 0x000FFFFF GDT_DATA_KERNEL;
                    create_descriptor 0 0x000FFFFF GDT_CODE_USER;
                    create_descriptor 0 0x000FFFFF GDT_DATA_USER;
                    create_descriptor tss_addr sizeof_tss_data GDT_TSS] (tss_data_tss s) (io_bitmap s));;
  modify (λ s, Gdt (gdt_arr s) zero_tss (replicate 8193 0));;
  modify (λ s, Gdt (gdt_arr s) (set_ss0_iomap 0x10 (u16 sizeof_tss_t) (tss_data_tss s)) (io_bitmap s));;
  modify (λ s, Gdt (gdt_arr s) (tss_data_tss s) (<[8192%nat := 0xFF]> (io_bitmap s)));;
  mret (u16 6 * 8).

(** ** Gates (idt.cpp) *)
Definition IDT_size : Z := 256.
Record idt_entry := IdtEntry { base_low : Z; segment_selector : Z; always0 : Z; flags : Z; base_high : Z }.

Definition idt_set_gate (num base sel flags : Z) (idt : list idt_entry) : list idt_entry :=
  <[Z.to_nat num := IdtEntry (Z.land base 0xFFFF) sel 0 flags (Z.land (Z.shiftr base 16) 0xFFFF)]> idt.

Fixpoint idt_init_loop (i : nat) (ISRs : list Z) (idt : list idt_entry) : list idt_entry :=
  match ISRs with
  | [] => idt
  | isr :: l => idt_init_loop (S i) l (idt_set_gate (u8 (Z.of_nat i)) isr 0x08 (if decide (i = 0x30%nat) then 0xEE else 0x8e) idt)
  end.

(** The table, and the limit of the operand of [lidt]. *)
Definition idt_init (ISRs : list Z) (idt : list idt_entry) : list idt_entry * Z := (idt_init_loop 0 ISRs idt, u16 (8 * IDT_size - 1)).

(** ** Interrupts (isr.cpp) *)
Record interrupt_cpu_state := CpuState { interrupt_number : Z; err_code : Z; eip : Z; cs : Z }.

Record isr_state := Isr {
  vmm_of : vmm32;
  interrupt_handlers : list (option Z);    (** 256 *)
  isr_old_cr3 : Z;
  global_data : Z;                         (** [global_data_ptr] *)
  ports : list (Z * Z);                    (** ports and bytes that were written *)
}.
Definition set_vmm_of (v : vmm32) (s : isr_state) : isr_state := Isr v (interrupt_handlers s) (isr_old_cr3 s) (global_data s) (ports s).
Definition set_handlers (h : list (option Z)) (s : isr_state) : isr_state := Isr (vmm_of s) h (isr_old_cr3 s) (global_data s) (ports s).
Definition set_old_cr3 (c : Z) (s : isr_state) : isr_state := Isr (vmm_of s) (interrupt_handlers s) c (global_data s) (ports s).
Definition set_global_data (p : Z) (s : isr_state) : isr_state := Isr (vmm_of s) (interrupt_handlers s) (isr_old_cr3 s) p (ports s).
Definition on_vmm {A} (m : M vmm32 A) : M isr_state A := zoom vmm_of set_vmm_of m.
Definition outb (port val : Z) : M isr_state () :=
  modify (λ s, Isr (vmm_of s) (interrupt_handlers s) (isr_old_cr3 s) (global_data s) (ports s ++ [(port, val)])).

Section isr.
Context (l : layout).

Definition enter_kernel_directory : M isr_state () :=
  c ← on_vmm get_cr3;
  modify (set_old_cr3 c);;
  on_vmm (set_cr3 (def_cr3 l)).
Definition leave_kernel_directory : M isr_state () :=
  s ← get_st;
  on_vmm (set_cr3 (isr_old_cr3 s)).

Definition pic_eoi (r : Z) : M isr_state () :=
  if (0x20 <=? r) && (r <? 0x30) then
    (if 8 <=? u8 (r - 0x20) then outb 0xA0 0x20 else mret tt);;
    outb 0x20 0x20
  else mret tt.

Definition global_data_setup : M isr_state () :=
  g ← gets global_data;
  if g =? 0 then
    p ← on_vmm (on_pool pmm_alloc);
    modify (set_global_data p);;
    on_vmm (map_page l p GLOBAL_DATA_ADDR 0x3);;
    on_vmm (vmemset GLOBAL_DATA_ADDR 0 0x1000)
  else mret tt.

(** [d->timer_ticks++], a 64-bit word. *)
Definition count_tick : M isr_state () :=
  lo ← on_vmm (vload32 GLOBAL_DATA_ADDR);
  hi ← on_vmm (vload32 (GLOBAL_DATA_ADDR + 4));
  let t := u64 (lo + Z.shiftl hi 32 + 1) in
  on_vmm (vstore32 GLOBAL_DATA_ADDR (u32 t));;
  on_vmm (vstore32 (GLOBAL_DATA_ADDR + 4) (Z.shiftr t 32)).

Definition dispatch_interrupt (r : interrupt_cpu_state) : M isr_state () :=
  enter_kernel_directory;;
  g ← gets global_data;
  (if (interrupt_number r =? 32) && negb (g =? 0) then count_tick else mret tt);;
  if interrupt_number r <? 32 then lift Hang
  else
    pic_eoi (interrupt_number r);;
    leave_kernel_directory.
End isr.

Definition register_interrupt_handler (int_no handler : Z) : M isr_state Z :=
  s ← get_st;
  h ← lift (access (interrupt_handlers s !! Z.to_nat int_no));
  match h with
  | None => modify (set_handlers (<[Z.to_nat int_no := Some handler]> (interrupt_handlers s)));; mret 1
  | Some _ => mret 0
  end.
Definition unregister_interrupt_handler (int_no handler : Z) : M isr_state Z :=
  s ← get_st;
  h ← lift (access (interrupt_handlers s !! Z.to_nat int_no));
  if decide (h = Some handler) then modify (set_handlers (<[Z.to_nat int_no := None]> (interrupt_handlers s)));; mret 1 else mret 0.

(** ** The interval timer (arch_entry.cpp) *)
Definition pit_freq (frequency : Z) : M isr_state () :=
  lift (if frequency =? 0 then Fault else Ok tt);;
  let x := u16 (1193182 / frequency) in
  let x := if frequency / 2 <? 1193182 mod frequency then u16 (x + 1) else x in
  outb 0x40 (Z.land x 0x00ff);;
  outb 0x40 (u8 (x / 0x0100)).

(** ** What the processor reads *)
Definition desc_base (d : Z) : Z := Z.lor (Z.land (Z.shiftr d 16) 0xFFFFFF) (Z.shiftl (Z.land (Z.shiftr d 56) 0xFF) 24).
Definition desc_limit (d : Z) : Z := Z.lor (Z.land d 0xFFFF) (Z.land (Z.shiftr d 32) 0xF0000).
Definition desc_access (d : Z) : Z := Z.land (Z.shiftr d 40) 0xFF.
Definition desc_flags (d : Z) : Z := Z.land (Z.shiftr d 52) 0xF.
Definition gate_base (e : idt_entry) : Z := Z.lor (base_low e) (Z.shiftl (base_high e) 16).
Definition gate_dpl (e : idt_entry) : Z := Z.land (Z.shiftr (flags e) 5) 3.
Definition gate_present (e : idt_entry) : bool := Z.testbit (flags e) 7.

(** ** Descriptors *)
Lemma mod_bit x k n : 0 ≤ k → 0 ≤ n → Z.testbit (x mod 2 ^ k) n = (n <? k) && Z.testbit x n.
Proof. intros Hk Hn. destruct (Z.ltb_spec n k); [by apply Z.mod_pow2_bits_low|apply Z.mod_pow2_bits_high; lia]. Qed.

#[local] Ltac ltb_lia :=
  repeat match goal with |- context [?a <? ?b] =>
    first [rewrite (proj2 (Z.ltb_lt a b)) by lia|rewrite (proj2 (Z.ltb_ge a b)) by lia] end;
  cbn [negb andb orb]; rewrite ?andb_true_r, ?andb_false_r, ?orb_false_r; cbn [orb].

Lemma create_descriptor_bit base limit flag n :
  0 ≤ base < 2 ^ 32 → 0 ≤ n →
  Z.testbit (create_descriptor base limit flag) n =
    if n <? 16 then Z.testbit limit n
    else if n <? 40 then Z.testbit base (n - 16)
    else if n <? 48 then Z.testbit flag (n - 40)
    else if n <? 52 then Z.testbit limit (n - 32)
    else if n <? 56 then Z.testbit flag (n - 40)
    else if n <? 64 then Z.testbit base (n - 32) else false.
Proof.
  intros Hb Hn. unfold create_descriptor, u64, u32.
  change 0x000F0000 with (Z.shiftl (Z.ones 4) 16). change 0x00F0FF00 with (Z.lor (Z.shiftl (Z.ones 4) 20) (Z.shiftl (Z.ones 8) 8)).
  change 0xFF000000 with (Z.shiftl (Z.ones 8) 24). change 0x000000FF with (Z.ones 8). change 0x0000FFFF with (Z.ones 16).
  rewrite !Z.lor_spec, !mod_bit, !Cpu.shiftl_bit, Z.land_spec, Cpu.ones_bit by lia.
  destruct (Z.ltb_spec n 32) as [H32|H32]; cbn [negb].
  - rewrite andb_false_r. cbn [orb andb]. destruct (Z.ltb_spec n 16); cbn [negb andb orb]; [by rewrite andb_true_r|].
    rewrite andb_false_r, orb_false_r. destruct (Z.ltb_spec n 40); [done|lia].
  - destruct (Z.ltb_spec n 16); [lia|]. cbn [negb andb orb]. rewrite !andb_false_r, !orb_false_r.
    rewrite !Z.lor_spec, !Z.land_spec, !Z.lor_spec, !Cpu.mask_bit, Cpu.ones_bit, Z.shiftr_spec, Cpu.shiftl_bit by lia.
    replace (n - 32 + 16) with (n - 16) by lia. replace (n - 32 - 8) with (n - 40) by lia.
    destruct (decide (n < 40)); [ltb_lia; done|]. destruct (decide (n < 48)); [ltb_lia; done|].
    destruct (decide (n < 52)); [ltb_lia; done|]. destruct (decide (n < 56)); [ltb_lia; done|].
    destruct (decide (n < 64)); ltb_lia; done.
Qed.

(** A descriptor gives back the base, the low twenty bits of the limit, the
    access byte and the flags that it was made from. *)
Theorem descriptor_roundtrip (base limit flag : Z) :
  0 ≤ base < 2 ^ 32 → 0 ≤ flag < 2 ^ 16 →
  let d := create_descriptor base limit flag in
  desc_base d = base ∧ desc_limit d = limit mod 2 ^ 20 ∧ desc_access d = flag mod 2 ^ 8 ∧ desc_flags d = Z.shiftr flag 12.
Proof.
  intros Hb Hf d. unfold desc_base, desc_limit, desc_access, desc_flags.
  change 0xFFFFFF with (Z.ones 24). change 0xFFFF with (Z.ones 16). change 0xF0000 with (Z.shiftl (Z.ones 4) 16). change 0xFF with (Z.ones 8). change 0xF with (Z.ones 4).
  split_and!; apply Z.bits_inj'; intros n Hn; subst d.
  - rewrite Z.lor_spec, Cpu.shiftl_bit, Z.land_spec, Cpu.ones_bit, Z.shiftr_spec, create_descriptor_bit by lia.
    destruct (Z.ltb_spec n 24); [ltb_lia; f_equal; lia|]. rewrite Z.land_spec, Cpu.ones_bit, Z.shiftr_spec, create_descriptor_bit by lia.
    destruct (Z.ltb_spec n 32); ltb_lia; [f_equal; lia|]. by rewrite (testbit_high base 32) by lia.
  - rewrite Z.lor_spec, !Z.land_spec, Z.shiftr_spec, Cpu.mask_bit, Cpu.ones_bit, !create_descriptor_bit, mod_bit by lia.
    destruct (Z.ltb_spec n 16); [ltb_lia; done|]. destruct (Z.ltb_spec n 20); ltb_lia; [f_equal; lia|done].
  - rewrite Z.land_spec, Z.shiftr_spec, Cpu.ones_bit, create_descriptor_bit, mod_bit by lia.
    destruct (Z.ltb_spec n 8); ltb_lia; [f_equal; lia|done].
  - rewrite Z.land_spec, !Z.shiftr_spec, Cpu.ones_bit, create_descriptor_bit by lia.
    destruct (Z.ltb_spec n 4); ltb_lia; [f_equal; lia|]. by rewrite (testbit_high flag 16) by lia.
Qed.

(** The table that [gdt_setup] makes: flat segments of 4 GiB, of ring 0 and 3,
    and the task state segment, whose port bitmap follows it and ends with a
    byte of ones. *)
Theorem i386_gdt_setup_spec (s : gdt_state) (tss_addr : Z) :
  0 ≤ tss_addr < 2 ^ 32 →
  ∃ s' d1 d2 d3 d4 d5, gdt_setup tss_addr s = Ok (48, s') ∧ gdt_arr s' = [0; d1; d2; d3; d4; d5] ∧
    (∀ d a, (d, a) ∈ [(d1, 0x9A); (d2, 0x92); (d3, 0xFA); (d4, 0xF2)] → desc_base d = 0 ∧ desc_limit d = 0xFFFFF ∧ desc_access d = a ∧ desc_flags d = 0xC) ∧
    desc_base d5 = tss_addr ∧ desc_limit d5 = sizeof_tss_data ∧ desc_access d5 = 0x89 ∧
    ss0 (tss_data_tss s') = 0x10 ∧ iomap_base (tss_data_tss s') = sizeof_tss_t ∧ esp0 (tss_data_tss s') = 0 ∧
    io_bitmap s' = replicate 8192 0 ++ [0xFF].
Proof.
  intros Ht. eexists _, _, _, _, _, _. split; [reflexivity|]. split; [reflexivity|]. split.
  - intros d a Hd. repeat (apply elem_of_cons in Hd as [[= -> ->]|Hd]; [by vm_compute|]). by apply elem_of_nil in Hd.
  - destruct (descriptor_roundtrip tss_addr sizeof_tss_data GDT_TSS Ht ltac:(done)) as (E1 & E2 & E3 & _).
    split; [exact E1|]. split; [exact E2|]. split; [exact E3|]. split; [done|]. split; [done|]. split; [done|]. by vm_compute.
Qed.

(** ** Gates *)
Lemma gate_base_set base sel f : 0 ≤ base < 2 ^ 32 → gate_base (IdtEntry (Z.land base 0xFFFF) sel 0 f (Z.land (Z.shiftr base 16) 0xFFFF)) = base.
Proof.
  intros Hb. unfold gate_base. cbn [base_low base_high]. change 0xFFFF with (Z.ones 16). apply Z.bits_inj'. intros n Hn.
  rewrite Z.lor_spec, Cpu.shiftl_bit, Z.land_spec, Cpu.ones_bit by lia. destruct (Z.ltb_spec n 16); ltb_lia; [done|].
  rewrite Z.land_spec, Z.shiftr_spec, Cpu.ones_bit by lia. destruct (decide (n < 32)); ltb_lia; [f_equal; lia|].
  by rewrite (testbit_high base 32) by lia.
Qed.

Lemma idt_gates_lookup ISRs : ∀ i idt k, (i + length ISRs ≤ 256)%nat → length idt = 256%nat →
  idt_init_loop i ISRs idt !! k =
    if decide (i ≤ k < i + length ISRs)%nat
    then (λ b, IdtEntry (Z.land b 0xFFFF) 0x08 0 (if decide (k = 0x30%nat) then 0xEE else 0x8e) (Z.land (Z.shiftr b 16) 0xFFFF)) <$> ISRs !! (k - i)%nat
    else idt !! k.
Proof.
  induction ISRs as [|b ISRs IH]; intros i idt k Hi Hl; cbn [idt_init_loop length].
  - rewrite decide_False by lia. done.
  - cbn [length] in Hi. rewrite IH by (unfold idt_set_gate; rewrite ?length_insert; lia). unfold idt_set_gate.
    replace (Z.to_nat (u8 (Z.of_nat i))) with i by (unfold u8; rewrite Z.mod_small by lia; lia).
    destruct (decide (k = i)) as [->|Hne].
    + rewrite (decide_False (P := (S i ≤ i < S i + length ISRs)%nat)), (decide_True (P := (i ≤ i < i + S (length ISRs))%nat)) by lia.
      rewrite Nat.sub_diag, list_lookup_insert_eq by lia. done.
    + rewrite list_lookup_insert_ne by done. destruct (decide (S i ≤ k < S i + length ISRs)%nat).
      * rewrite (decide_True (P := (i ≤ k < i + S (length ISRs))%nat)) by lia. by replace (k - i)%nat with (S (k - S i)) by lia.
      * by rewrite (decide_False (P := (i ≤ k < i + S (length ISRs))%nat)) by lia.
Qed.

(** Every vector with a routine gets a present gate to it in the kernel's code
    segment; only the gate of the system call may be used from ring 3; the
    other vectors keep what they had. *)
Theorem i386_idt_init_spec (ISRs : list Z) (idt : list idt_entry) :
  length ISRs = 49%nat → length idt = 256%nat → Forall (λ b, 0 ≤ b < 2 ^ 32) ISRs →
  let t := (idt_init ISRs idt).1 in
  (idt_init ISRs idt).2 = 8 * 256 - 1 ∧
  (∀ k b, ISRs !! k = Some b → ∃ e, t !! k = Some e ∧ gate_base e = b ∧ gate_present e ∧ segment_selector e = 8 ∧
     gate_dpl e = if decide (k = 0x30%nat) then 3 else 0) ∧
  (∀ k, (49 ≤ k)%nat → t !! k = idt !! k).
Proof.
  intros Hn Hl Hr t. split; [done|]. subst t. cbn [fst idt_init]. split.
  - intros k b Hb. pose proof (lookup_lt_Some _ _ _ Hb). rewrite idt_gates_lookup by lia. rewrite (decide_True (P := (0 ≤ k < 0 + length ISRs)%nat)) by lia. rewrite Nat.sub_0_r, Hb.
    eexists. split; [reflexivity|]. rewrite gate_base_set by exact (Forall_lookup_1 _ _ _ _ Hr Hb).
    split; [done|]. unfold gate_present, gate_dpl. cbn [flags segment_selector]. by case_decide.
  - intros k Hk. by rewrite idt_gates_lookup, decide_False by lia.
Qed.

(** ** Dispatch *)
Section dispatch.
Context (l : layout).

Definition eois (n : Z) : list (Z * Z) :=
  if (0x20 <=? n) && (n <? 0x30) then (if 0x28 <=? n then [(0xA0, 0x20)] else []) ++ [(0x20, 0x20)] else [].

Lemma pic_eoi_run n s : pic_eoi n s = Ok (tt, Isr (vmm_of s) (interrupt_handlers s) (isr_old_cr3 s) (global_data s) (ports s ++ eois n)).
Proof.
  unfold pic_eoi, eois. destruct (Z.leb_spec 0x20 n), (Z.ltb_spec n 0x30); cbn [andb]; try (rewrite app_nil_r; by destruct s).
  unfold u8. rewrite Z.mod_small by lia. destruct (Z.leb_spec 8 (n - 0x20)), (Z.leb_spec 0x28 n); try lia; [|done].
  unfold outb, modify. cbv [mbind M_bind]. cbn. by rewrite <- app_assoc.
Qed.

(** The shared page is mapped at [a], and holds no table on the way. *)
Record shared_at (m : gmap Z Z) (root a : Z) : Prop := {
  sh_page : translate32 m root GLOBAL_DATA_ADDR = Some a;
  sh_pde : a ≠ page_of root + 4 * pdindex GLOBAL_DATA_ADDR;
  sh_pte : a ≠ page_of (rd m (page_of root + 4 * pdindex GLOBAL_DATA_ADDR)) + 4 * ptindex GLOBAL_DATA_ADDR;
}.

Lemma shared_next m root a : translate32 m root GLOBAL_DATA_ADDR = Some a → translate32 m root (GLOBAL_DATA_ADDR + 4) = Some (a + 4).
Proof.
  unfold translate32. change (pdindex (GLOBAL_DATA_ADDR + 4)) with (pdindex GLOBAL_DATA_ADDR). change (ptindex (GLOBAL_DATA_ADDR + 4)) with (ptindex GLOBAL_DATA_ADDR).
  change (Z.land (GLOBAL_DATA_ADDR + 4) 0xFFF) with 4. change (Z.land GLOBAL_DATA_ADDR 0xFFF) with 0.
  case_match; [|done]. case_match; [|done]. intros [= <-]. f_equal. lia.
Qed.

Lemma shared_store m root a w : shared_at m root a → translate32 (<[a := w]> m) root GLOBAL_DATA_ADDR = Some a.
Proof.
  intros [H1 H2 H3]. rewrite <- H1. unfold translate32, rd. rewrite !Paging.rd_insert.
  rewrite (decide_False (P := a = page_of root + _)) by done. by rewrite decide_False.
Qed.

Definition ticks (m : gmap Z Z) (a : Z) : Z := rd m a + Z.shiftl (rd m (a + 4)) 32.
Definition ticked (m : gmap Z Z) (a : Z) : gmap Z Z :=
  let t := u64 (ticks m a + 1) in <[a + 4 := Z.shiftr t 32]> (<[a := u32 t]> m).

Lemma ticked_ticks m a : ticks (ticked m a) a = u64 (ticks m a + 1).
Proof.
  unfold ticks at 1, ticked, rd. rewrite !Paging.rd_insert.
  rewrite (decide_False (P := a + 4 = a)), (decide_True (P := a = a)), (decide_True (P := a + 4 = a + 4)) by lia.
  set (t := u64 _). rewrite Z.shiftl_mul_pow2, Z.shiftr_div_pow2 by lia. unfold u32. pose proof (Z.div_mod t (2 ^ 32) ltac:(done)). lia.
Qed.

Lemma count_tick_run s a :
  shared_at (ram (vmm_of s)) (cr3 (vmm_of s)) a → count_tick s = Ok (tt, set_vmm_of (set_ram (ticked (ram (vmm_of s)) a) (vmm_of s)) s).
Proof.
  intros Hs. pose proof (sh_page _ _ _ Hs) as H1. pose proof (shared_next _ _ _ H1) as H2. set (v := vmm_of s) in *.
  unfold count_tick, on_vmm.
  assert (zoom vmm_of set_vmm_of (vload32 GLOBAL_DATA_ADDR) s = Ok (rd (ram v) a, s)) as R1 by (unfold zoom, vload32; fold v; rewrite H1; by destruct s).
  assert (zoom vmm_of set_vmm_of (vload32 (GLOBAL_DATA_ADDR + 4)) s = Ok (rd (ram v) (a + 4), s)) as R2 by (unfold zoom, vload32; fold v; rewrite H2; by destruct s).
  run R1. run R2. fold (ticks (ram v) a). set (t := u64 (ticks (ram v) a + 1)).
  set (s1 := set_vmm_of (set_ram (<[a := u32 t]> (ram v)) v) s).
  assert (zoom vmm_of set_vmm_of (vstore32 GLOBAL_DATA_ADDR (u32 t)) s = Ok (tt, s1)) as R3 by (unfold zoom, vstore32; fold v; by rewrite H1).
  run R3. unfold zoom, vstore32. cbn [vmm_of s1 set_vmm_of ram set_ram cr3].
  by rewrite (shared_next _ _ a (shared_store _ _ _ _ Hs)).
Qed.

(** An exception stops the machine. Any other interrupt returns in the address
    space it came from, acknowledged at the controllers it came through; the
    timer adds one to the 64-bit counter of the shared page, if there is one,
    and no other word of memory changes. *)
Theorem i386_dispatch_spec (s : isr_state) (r : interrupt_cpu_state) :
  let n := interrupt_number r in
  let m := ram (vmm_of s) in
  (n < 32 → dispatch_interrupt l r s = Hang) ∧
  (32 ≤ n → ∀ m', (n = 32 → global_data s ≠ 0 → ∃ a, shared_at m (def_cr3 l) a ∧ m' = ticked m a ∧ ticks m' a = u64 (ticks m a + 1)) →
     (n ≠ 32 ∨ global_data s = 0 → m' = m) →
     dispatch_interrupt l r s =
       Ok (tt, Isr (Vmm32 (vpool (vmm_of s)) m' (cr3 (vmm_of s)) (cr3 (vmm_of s))) (interrupt_handlers s) (cr3 (vmm_of s)) (global_data s) (ports s ++ eois n))).
Proof.
  intros n m. set (s1 := set_vmm_of (Vmm32 (vpool (vmm_of s)) m (def_cr3 l) (def_cr3 l)) (set_old_cr3 (cr3 (vmm_of s)) s)).
  assert (enter_kernel_directory l s = Ok (tt, s1)) as R1 by (by destruct s as [[] ? ? ? ?]).
  unfold dispatch_interrupt. fold n. split.
  - intros Hn. run R1. run (eq_refl : gets global_data s1 = Ok (global_data s1, s1)).
    destruct (Z.eqb_spec n 32); [lia|]. cbn [andb]. run (eq_refl : (mret tt : M isr_state ()) s1 = Ok (tt, s1)).
    by rewrite (proj2 (Z.ltb_lt n 32)).
  - intros Hn m' Htick Hkeep. run R1. run (eq_refl : gets global_data s1 = Ok (global_data s1, s1)). change (global_data s1) with (global_data s).
    set (s2 := set_vmm_of (Vmm32 (vpool (vmm_of s)) m' (def_cr3 l) (def_cr3 l)) s1).
    assert ((if (n =? 32) && negb (global_data s =? 0) then count_tick else mret tt) s1 = Ok (tt, s2)) as R2.
    { destruct (Z.eqb_spec n 32) as [E|E], (Z.eqb_spec (global_data s) 0) as [E0|E0]; cbn [andb negb]; try (unfold s2; rewrite Hkeep by lia; done).
      destruct (Htick E E0) as (a & Ha & -> & _). by rewrite (count_tick_run s1 a Ha). }
    run R2. rewrite (proj2 (Z.ltb_ge n 32)) by done. run (pic_eoi_run n s2). done.
Qed.
End dispatch.

(** ** Examples *)
Definition demo_isr : isr_state := Isr (Vmm32 pool_start ∅ 0x123000 0x123000) (replicate 256 None) 0 0 [].
Definition demo_lay : layout := Layout 0 0xC0101000 0 0 0 0 0 0.

Lemma i386_dispatch_spec_witness :
  dispatch_interrupt demo_lay (CpuState 0x29 0 0 8) demo_isr =
    Ok (tt, Isr (Vmm32 pool_start ∅ 0x123000 0x123000) (replicate 256 None) 0x123000 0 [(0xA0, 0x20); (0x20, 0x20)]) ∧
  dispatch_interrupt demo_lay (CpuState 14 0 0 8) demo_isr = Hang.
Proof.
  split.
  - destruct (i386_dispatch_spec demo_lay demo_isr (CpuState 0x29 0 0 8)) as [_ H].
    apply (H ltac:(cbn; lia) ∅); [intros E; by vm_compute in E|done].
  - apply (i386_dispatch_spec demo_lay demo_isr (CpuState 14 0 0 8)). cbn. lia.
Defined.

(** A table of gates for routines at 0xC0100000 and every 16 bytes from there. *)
Lemma i386_idt_init_spec_witness :
  ∃ e, (idt_init ((λ i, 0xC0100000 + 16 * i) <$> seqZ 0 49) (replicate 256 (IdtEntry 0 0 0 0 0))).1 !! 0x30%nat = Some e ∧ gate_base e = 0xC0100300.
Proof.
  destruct (i386_idt_init_spec ((λ i, 0xC0100000 + 16 * i) <$> seqZ 0 49) (replicate 256 (IdtEntry 0 0 0 0 0))) as (_ & H & _); [done|done| |].
  - apply Forall_fmap, Forall_forall. intros i Hi. apply elem_of_seqZ in Hi. cbn. lia.
  - destruct (H 0x30%nat 0xC0100300) as (e & He & Hb & _); [done|]. by exists e.
Defined.
